(* ===== verification/_CoqProject ===== *)
-Q . S2P
Prelude.v
Limits.v
GoStrings.v
NetIP.v
Paths.v
Password.v
Floats.v
Config.v
Users.v
Roles.v
RolesInv.v
Access.v
RoleHandlers.v
Calendar.v
Accounts.v
Login.v
Passkeys.v
SessionGate.v
ClientIP.v
LoginSpec.v
AuthHandlers.v
AuthSpec.v
LoginExamples.v
OAuthStore.v
ApiTokens.v
UserAdmin.v
OAuth.v
Server.v
AuthExamples.v
McpGate.v
McpExamples.v
Maintenance.v
MaintenanceHandlers.v
Alerts.v
History.v
Delivery.v
Monitor.v
MonitorSpec.v
MonitorExamples.v
Compose.v
Policy.v
Preview.v
Sandbox.v
ProjectStore.v
Binds.v
Projects.v
ProjectSpec.v
ProjectOutcomes.v
ProjectExamples.v
Retention.v
BackupJobs.v
Hosts.v
Docker.v
DockerExamples.v
StackEdit.v
StackEditExamples.v
McpTools.v
McpToolsSpec.v
McpToolsExamples.v
Templates.v
