(* ===== verification/Prelude.v ===== *)
(** * Docker Commander: a verification development

    Docker Commander is a web server that administers Docker hosts: accounts with roles and
    second factors, an HTTP API and a WebSocket surface over the Docker engine, compose
    projects, an alert engine with maintenance windows and delivery retries, and a remote
    MCP endpoint with its own OAuth server.  The code is Go; this library models the parts
    that decide something (who may do what, what is delivered, what a path or an address
    means) as executable functions and proves what those parts promise.

    ** How the code is rendered

    A Go function that reads and writes the database is a function on the tables it touches,
    in the state-and-error monad of this file ([stM]); every statement can fail, by a fault
    function over the queries of a component ([acc_fault], [role_fault], ...), and a
    transaction undoes its writes ([st_tx]).  Handlers run in the same kind of monad over the
    service's state, the audit log and the settings they use; an early answer is the error
    side.  Package variables and maps guarded by a mutex are fields of a state record.
    Concurrent requests interleave at statements: an invariant "of any interleaving" is one of
    [rtc] of a one-statement relation.  Strings are bytes; time is nanoseconds since the zero
    time with int64 wrap-around where Go's Duration can overflow; float64 is IEEE binary64.
    The clock, random tokens, the order a Go map is ranged over in and every library outside
    the repository are parameters (fields of a class such as [AuthEnv]); the hypotheses on
    them are named and each theorem that has one has a witness with a concrete instance.

    ** The parts, and where they are

    - [Prelude], [GoStrings], [Paths], [NetIP], [Floats], [Calendar]: errors, the monad, and
      the functions of the Go standard library the program uses (strings, strconv, filepath,
      net, time, math), with the lemmas the other files share.
    - [Users], [Roles], [RolesInv] (store/access.go, store/roles.go): the role tables, every
      operation on them, and the computation of effective grants.  [effective_grants_refine]:
      the loops compute the relation "some source grants it"; [role_tables_wf]: no operation,
      failing or not, leaves dangling rows.
    - [Access] (api/access_middleware.go): the gate, against the interface [GrantStore] that
      [Roles] implements.  [check_access_exact] is the whole decision.
    - [RoleHandlers] (api/role_handlers.go): the role handlers.
    - [Accounts] (store/users.go, factors.go, sessions.go): three tables and their
      statements; [second_factor_never_lost], [code_accepted_once].
    - [Limits] (auth/ratelimit.go, challenge.go, the ceremony map of webauthn.go): bounded
      in-memory maps.  [Password] (auth/password.go): the stored hash.
    - [Login], [Passkeys] (auth/service.go, jwt.go, totp.go, ldap.go, webauthn.go,
      passwordless.go), [SessionGate] (auth/middleware.go): the authentication service;
      [LoginSpec]: what a successful call implies; [LoginExamples]: concrete runs.
    - [Config] (config/config.go): every setting from flags, environment and file;
      [load_never_guesses].  [ClientIP] (api/client_ip.go, basepath.go): who is talking and
      under which path.
    - [AuthHandlers], [AuthSpec], [UserAdmin] (api/auth_handlers.go, passkey_handlers.go,
      factor_handlers.go, session_handlers.go, user_handlers.go): the handlers in front of
      the service; [last_admin_stays].
    - [OAuthStore], [OAuth], [ApiTokens], [McpGate] (store/oauth.go, mcp_sessions.go,
      api_tokens.go, mcp_policy.go, api/oauth_handlers.go, mcp_token_handlers.go,
      mcp/oauth_token.go, mcp/server.go, mcp/ratelimit.go): codes, refresh rotation, tokens,
      the bearer gate and the change budget; [McpExamples]: concrete runs.
    - [Server] (api/server.go): the route table and the middleware chain, composed with the
      gate; [changes_are_authorised] is the end-to-end statement.  [AuthExamples]: runs.
    - [Maintenance], [MaintenanceHandlers] (store/maintenance.go, monitor/maintenance_log.go,
      api/maintenance_handlers.go): windows, recurrence, reach.
    - [Alerts], [History], [Monitor], [Delivery] (store/alerts.go, history/, monitor/): the
      alert engine, its tables, its deliveries and their retries; [MonitorSpec],
      [MonitorExamples].
    ** How they interact

    [Server.serve] runs [ClientIP.pathPrefix] and [ClientIP.clientIP], finds the route, then
    [SessionGate.RequireSession] over the tables of [Accounts], then [Access.permissions] over
    a [GrantStore] built from [Accounts] and [Roles] ([Server.state_store]).  [McpGate] asks
    the same [Access.checkAccess] with the owner's live account.  [Monitor.emit] asks
    [Maintenance.FindActiveMaintenance] before it hands an event to [Delivery].  [OAuth] takes
    the browser's identity from [SessionGate.sessionClaims].

    ** Bounds and fuel

    The search for a free name tries 50 candidates, as the code does ([free_name] ends by its
    own bound).  [FormatInt] prints at most 20 digits, enough for int64.  [v6_groups] reads at
    most 8 groups.  [parse_duration], the trims and [unquote] take the length of the text as
    fuel and consume a byte a round.  The MCP limiter is proved in float64 for batches of up
    to 256.  A retry is sent at most [maxDeliveryRetries] times.

    ** Not modelled, and why

    The Docker engine, compose and ssh command lines and everything that only forwards to
    them (internal/docker apart from the files named above), TLS and ACME, the OS services,
    the embedded single-page app, the Redis history backend and Prometheus text: they are
    input and output around calls the development could only name.  SQL is read as the
    statements' effect on rows; SQLite's own locking is the atomicity of one statement or one
    transaction.  Schema migrations (store/store.go) run once at start and are not modelled.
    PROJECT.json lists every component with its status.

    The findings (where code and intent part) are theorems too: write scope combining across
    roles, a token's host scope that is stored and never read back, a consent page that
    accepts a revoked session, and the others listed in PROJECT.json. *)
From stdpp Require Export base tactics option list gmap sets strings sorting.
From Stdlib Require Export ZArith Lia.

#[export] Set Warnings "-clear-no-such-hyp,-level-tolerance".

(** ** Notations *)
Declare Scope go_scope.
Delimit Scope go_scope with go.
#[global] Open Scope go_scope.
#[global] Open Scope Z_scope.

(** ** Errors: Go's [(T, error)] as a sum *)
Inductive result (E A : Type) : Type :=
  | Ok (a : A)
  | Err (e : E).
Arguments Ok {E A} a.
Arguments Err {E A} e.

#[global] Instance result_ret E : MRet (result E) := fun A a => Ok a.
#[global] Instance result_bind E : MBind (result E) := fun A B k m =>
  match m with Ok a => k a | Err e => Err e end.

Definition is_ok {E A} (r : result E A) : bool :=
  match r with Ok _ => true | Err _ => false end.

(** ** State and errors

    A Go method that writes to a store and may fail part-way: the state after
    the call is returned on both paths, because a failed call keeps whatever
    it had already written. *)
Definition stM (S E A : Type) : Type := S -> S * result E A.

#[global] Instance stM_ret S E : MRet (stM S E) := fun A a s => (s, Ok a).
#[global] Instance stM_bind S E : MBind (stM S E) := fun A B k m s =>
  match m s with
  | (s', Ok a) => k a s'
  | (s', Err e) => (s', Err e)
  end.

Section StateOps.
Context {S E : Type}.

Definition st_get : stM S E S := fun s => (s, Ok s).
Definition st_put (s' : S) : stM S E () := fun _ => (s', Ok ()).
Definition st_fail {A} (e : E) : stM S E A := fun s => (s, Err e).
Definition st_lift {A} (r : S -> result E A) : stM S E A := fun s => (s, r s).
Definition st_mod (f : S -> S) : stM S E () := fun s => (f s, Ok ()).

(** [BEGIN … COMMIT] with a deferred rollback: an error restores the state the
    transaction started from. *)
Definition st_tx {A} (m : stM S E A) : stM S E A := fun s =>
  match m s with
  | (s', Ok a) => (s', Ok a)
  | (_, Err e) => (s, Err e)
  end.

(** [for _, x := range xs { if err := f(x); err != nil { return err } }] *)
Fixpoint st_for {X} (f : X -> stM S E ()) (xs : list X) : stM S E () :=
  match xs with
  | [] => mret ()
  | x :: xs' => f x ≫= fun _ => st_for f xs'
  end.
(** *** Triples

    [st_holds P m Q]: started in a state with [P], a successful [m] ends in one with
    [Q] of its result, and a failed one, whatever it wrote, in one with [P] again. *)
Definition st_holds {A} (P : S -> Prop) (m : stM S E A) (Q : A -> S -> Prop) : Prop := forall s, P s ->
  match m s with (s', Ok a) => Q a s' | (s', Err _) => P s' end.

Lemma st_holds_ret {A} (P : S -> Prop) (a : A) (Q : A -> S -> Prop) : (forall s, P s -> Q a s) -> st_holds P (mret a) Q.
Proof. intros H s Hs. apply H, Hs. Qed.

Lemma st_holds_fail {A} (P : S -> Prop) e (Q : A -> S -> Prop) : st_holds P (st_fail e) Q.
Proof. intros s Hs. exact Hs. Qed.

Lemma st_holds_bind {A B} (P : S -> Prop) (m : stM S E A) (R : A -> S -> Prop) (k : A -> stM S E B) (Q : B -> S -> Prop) :
  st_holds P m R -> (forall a s, R a s -> P s) -> (forall a, st_holds (R a) (k a) Q) -> st_holds P (m ≫= k) Q.
Proof.
  intros Hm HR Hk s Hs. specialize (Hm s Hs). unfold mbind, stM_bind. destruct (m s) as [s1 [a|e]]; [|exact Hm].
  specialize (Hk a s1 Hm). destruct (k a s1) as [s2 [b|e]]; [exact Hk|by eapply HR].
Qed.

Lemma st_holds_tx {A} (P : S -> Prop) (m : stM S E A) (Q : A -> S -> Prop) : st_holds P m Q -> st_holds P (st_tx m) Q.
Proof. intros Hm s Hs. specialize (Hm s Hs). unfold st_tx. destruct (m s) as [s1 [a|e]]; [exact Hm|exact Hs]. Qed.

Lemma st_holds_post {A} (P : S -> Prop) (m : stM S E A) (Q Q' : A -> S -> Prop) :
  st_holds P m Q -> (forall a s, Q a s -> Q' a s) -> st_holds P m Q'.
Proof. intros Hm HQ s Hs. specialize (Hm s Hs). destruct (m s) as [s1 [a|e]]; [by apply HQ|exact Hm]. Qed.

Lemma st_holds_pure {A} (F : Prop) (P : S -> Prop) (m : stM S E A) (Q : A -> S -> Prop) :
  (F -> st_holds P m Q) -> st_holds (fun s => P s /\ F) m Q.
Proof. intros H s [Hs HF]. specialize (H HF s Hs). by destruct (m s) as [s1 [a|e]]. Qed.

(** *** Inversion *)
Lemma st_bind_ok {A B} (m : stM S E A) (k : A -> stM S E B) s s' b :
  (m ≫= k) s = (s', Ok b) -> exists s1 a, m s = (s1, Ok a) /\ k a s1 = (s', Ok b).
Proof. unfold mbind, stM_bind. destruct (m s) as [s1 [a|e]]; [|done]. eauto. Qed.

Lemma st_ret_ok {A} (a b : A) (s s' : S) : (mret a : stM S E A) s = (s', Ok b) -> s' = s /\ b = a.
Proof. by intros [= <- <-]. Qed.

Lemma st_tx_ok {A} (m : stM S E A) s s' a : st_tx m s = (s', Ok a) -> m s = (s', Ok a).
Proof. unfold st_tx. by destruct (m s) as [s1 [b|e]]. Qed.

(** A failed transaction leaves no trace. *)
Lemma st_tx_err {A} (m : stM S E A) s s' e : st_tx m s = (s', Err e) -> s' = s.
Proof. unfold st_tx. destruct (m s) as [s1 [b|e']]; [done|]. by intros [= <- _]. Qed.

(** An invariant survives a call, whether it fails or not. *)
Lemma st_holds_run {A} (P : S -> Prop) (m : stM S E A) s : st_holds P m (fun _ => P) -> P s -> P (m s).1.
Proof. intros Hm Hs. specialize (Hm s Hs). by destruct (m s) as [s1 [a|e]]. Qed.
End StateOps.

(** ** Machine integers *)
Definition int64_min : Z := - 2 ^ 63.
Definition int64_max : Z := 2 ^ 63 - 1.

(** Two's complement wrap-around of a signed 64-bit result. *)
Definition wrap64 (z : Z) : Z := (z + 2 ^ 63) mod 2 ^ 64 - 2 ^ 63.

Definition in_int64 (z : Z) : Prop := int64_min <= z <= int64_max.

Lemma wrap64_range z : in_int64 (wrap64 z).
Proof.
  unfold in_int64, wrap64, int64_min, int64_max.
  pose proof (Z.mod_pos_bound (z + 2 ^ 63) (2 ^ 64) ltac:(lia)). lia.
Qed.

Lemma wrap64_id z : in_int64 z -> wrap64 z = z.
Proof.
  unfold in_int64, wrap64, int64_min, int64_max. intros H.
  rewrite Z.mod_small; lia.
Qed.

(** ** Time

    A [time.Time] is its nanoseconds since the zero time, so [IsZero] is
    [= 0]; a [time.Duration] is an int64 number of nanoseconds. *)
Definition second : Z := 10 ^ 9.
Definition minute : Z := 60 * second.
Definition hour : Z := 60 * minute.

Definition IsZero (t : Z) : bool := t =? 0.
(** [t.After(u)], [t.Before(u)] *)
Definition After (t u : Z) : bool := u <? t.
Definition Before (t u : Z) : bool := t <? u.

(** [time.Duration(n) * unit]: an int64 product, which wraps. *)
Definition dur_mul (n unit : Z) : Z := wrap64 (n * unit).

(** [t.Sub(u)] saturates at the ends of the int64 range. *)
Definition time_sub (t u : Z) : Z := Z.max int64_min (Z.min int64_max (t - u)).

Lemma dur_mul_small n unit :
  0 <= n -> 0 <= unit -> n * unit <= int64_max -> dur_mul n unit = n * unit.
Proof. intros. apply wrap64_id. unfold in_int64, int64_min in *. nia. Qed.

Lemma time_sub_small t u : in_int64 (t - u) -> time_sub t u = t - u.
Proof. unfold in_int64, time_sub. lia. Qed.

Lemma time_sub_mono t t' u : t <= t' -> time_sub t u <= time_sub t' u.
Proof. unfold time_sub. lia. Qed.

(** ** Tactics *)

(** Turn boolean tests in the context and the goal into propositions. *)
Ltac bsimp :=
  repeat match goal with
  | H : _ && _ = true |- _ => apply andb_true_iff in H as [? ?]
  | H : _ || _ = false |- _ => apply orb_false_iff in H as [? ?]
  | H : negb _ = true |- _ => apply negb_true_iff in H
  | H : negb _ = false |- _ => apply negb_false_iff in H
  | H : (_ <? _)%Z = true |- _ => apply Z.ltb_lt in H
  | H : (_ <? _)%Z = false |- _ => apply Z.ltb_ge in H
  | H : (_ <=? _)%Z = true |- _ => apply Z.leb_le in H
  | H : (_ <=? _)%Z = false |- _ => apply Z.leb_gt in H
  | H : (_ =? _)%Z = true |- _ => apply Z.eqb_eq in H
  | H : (_ =? _)%Z = false |- _ => apply Z.eqb_neq in H
  | H : String.eqb _ _ = true |- _ => apply String.eqb_eq in H
  | H : String.eqb _ _ = false |- _ => apply String.eqb_neq in H
  | H : bool_decide _ = true |- _ => apply bool_decide_eq_true in H
  | H : bool_decide _ = false |- _ => apply bool_decide_eq_false in H
  end.

(** Split on the next [match]/[if] of the goal or of a hypothesis. *)
Ltac bcase :=
  match goal with
  | |- context [match ?x with _ => _ end] => destruct x eqn:?
  | H : context [match ?x with _ => _ end] |- _ => destruct x eqn:?
  end.

(** ** Automation *)
Create HintDb go discriminated.
Create Rewrite HintDb gorw.
#[export] Hint Resolve wrap64_range : go.
#[export] Hint Rewrite Z.eqb_refl String.eqb_refl Z.ltb_irrefl : gorw.

(** ** Lists *)

(** [one_of s l]: the Go [switch] label list [case l...]. *)
Definition one_of (s : string) (l : list string) : bool := existsb (String.eqb s) l.

Lemma one_of_true s l : one_of s l = true <-> s ∈ l.
Proof.
  unfold one_of. rewrite existsb_exists, list_elem_of_In. split.
  - intros (x & ? & ->%String.eqb_eq). done.
  - intros. exists s. by rewrite String.eqb_refl.
Qed.

Lemma one_of_false s l : one_of s l = false <-> s ∉ l.
Proof. rewrite <- one_of_true. destruct (one_of s l); naive_solver. Qed.

#[export] Hint Resolve <- one_of_true one_of_false : go.

Section Folds.
Context {A B : Type}.

(** An invariant of a [for … range] loop. *)
Lemma foldl_invariant (P : B -> Prop) (f : B -> A -> B) l b :
  P b -> (forall b a, a ∈ l -> P b -> P (f b a)) -> P (foldl f b l).
Proof.
  revert b. induction l as [|a l IH]; intros b Hb Hf; simpl; [done|].
  apply IH.
  - apply Hf; [left|done].
  - intros. apply Hf; [by right|done].
Qed.

(** A loop whose steps commute does not depend on the iteration order: the
    fact behind every [range] over a Go map. *)
Lemma foldl_permutation (f : B -> A -> B) :
  (forall b a a', f (f b a) a' = f (f b a') a) ->
  forall l l' b, l ≡ₚ l' -> foldl f b l = foldl f b l'.
Proof.
  intros Hc l l' b Hp. revert b. induction Hp as [| | |??? _ IH1 _ IH2];
    intros b; simpl; auto.
  - by rewrite Hc.
  - by rewrite IH1.
Qed.
End Folds.

(** ** Rows with keys *)

Lemma NoDup_fmap_filter {A B} (g : A -> B) (P : A -> Prop) `{!forall x, Decision (P x)} (l : list A) :
  NoDup (g <$> l) -> NoDup (g <$> filter P l).
Proof.
  induction l as [|x l IH]; [done|]. rewrite fmap_cons, NoDup_cons. intros [Hx Hl]. rewrite filter_cons.
  case_decide; [|by apply IH]. rewrite fmap_cons, NoDup_cons. split; [|by apply IH].
  rewrite list_elem_of_fmap. intros (y & Hy & Hin). apply Hx. rewrite Hy.
  apply list_elem_of_filter in Hin as [_ Hin]. by apply list_elem_of_fmap_2.
Qed.

Lemma fmap_fmap_same {A B} (g : A -> B) (h : A -> A) (l : list A) : (forall x, g (h x) = g x) -> g <$> (h <$> l) = g <$> l.
Proof. intros Hg. rewrite <- list_fmap_compose. apply list_fmap_ext. intros. apply Hg. Qed.

Lemma NoDup_snoc_seq {A} (g : A -> Z) (l : list A) x n : NoDup (g <$> l) -> (forall y, y ∈ l -> g y <= n) -> g x = n + 1 ->
  NoDup (g <$> l ++ [x]).
Proof.
  intros Hl Hn Hx. rewrite fmap_app. apply NoDup_app. split; [done|]. split; [|apply NoDup_singleton].
  intros i (y & -> & Hy)%list_elem_of_fmap H%list_elem_of_singleton. specialize (Hn y Hy). lia.
Qed.

Lemma NoDup_fmap_elem {A B} (g : A -> B) (l : list A) x y : NoDup (g <$> l) -> x ∈ l -> y ∈ l -> g x = g y -> x = y.
Proof.
  induction l as [|z l IH]; [by intros _ ?%not_elem_of_nil|]. rewrite fmap_cons, NoDup_cons, !elem_of_cons.
  intros [Hz Hl] [->|Hx] [->|Hy] E; auto.
  - exfalso. apply Hz. rewrite E. by apply list_elem_of_fmap_2.
  - exfalso. apply Hz. rewrite <- E. by apply list_elem_of_fmap_2.
Qed.

(** ** Maps built by a loop *)
Section BuildMap.
Context {A V : Type} `{Countable K} (key : A -> K) (f : A -> option V).

(** [for _, x := range l { if v, ok := f(x); ok { m[key(x)] = v } }] *)
Definition build_map (m : gmap K V) (l : list A) : gmap K V :=
  foldl (fun m x => match f x with Some v => <[key x := v]> m | None => m end) m l.

Lemma build_map_lookup l m k v : NoDup (key <$> l) ->
  build_map m l !! k = Some v <->
    (exists x, x ∈ l /\ key x = k /\ f x = Some v) \/
    (m !! k = Some v /\ forall x, x ∈ l -> key x = k -> f x = None).
Proof.
  unfold build_map. revert m. induction l as [|x l IH]; intros m Hnd; simpl.
  { split; [intros ?; right; split; [done|]; intros ? ?%not_elem_of_nil; done|].
    intros [(? & ?%not_elem_of_nil & _)|[? _]]; done. }
  apply NoDup_cons in Hnd as [Hx Hnd]. rewrite IH by done.
  setoid_rewrite elem_of_cons. destruct (f x) as [v0|] eqn:E.
  - rewrite lookup_insert_Some. split.
    + intros [(y & ? & ? & ?)|[[[<- <-]|[? ?]] Hn]]; [left; eauto|left; eauto|right].
      split; [done|]. intros y [->|?] ?; [done|eauto].
    + intros [(y & [->|?] & <- & Hv)|[? Hn]].
      * right. split; [left; split; congruence|]. intros y Hy Hk. exfalso. apply Hx.
        rewrite <- Hk. by apply list_elem_of_fmap_2.
      * left; eauto.
      * right. split; [right; split; [|done]|eauto]. intros <-. specialize (Hn x). rewrite E in Hn. naive_solver.
  - split.
    + intros [(y & ? & ? & ?)|[? Hn]]; [left; eauto|right]. split; [done|]. intros y [->|?] ?; eauto.
    + intros [(y & [->|?] & ? & Hv)|[? Hn]]; [congruence|left; eauto|right; eauto].
Qed.

Lemma build_map_None l k : build_map ∅ l !! k = None <-> forall x, x ∈ l -> key x = k -> f x = None.
Proof.
  unfold build_map. rewrite <- (reverse_involutive l). generalize (reverse l) as r. clear l. intros r.
  setoid_rewrite elem_of_reverse.
  induction r as [|x r IH]; [rewrite reverse_nil; simpl; rewrite lookup_empty; set_solver|].
  rewrite reverse_cons, foldl_app. simpl. setoid_rewrite elem_of_cons.
  destruct (f x) eqn:E.
  - rewrite lookup_insert_None, IH. split.
    + intros [? Hk] y [->|?] ?; [done|eauto].
    + intros Hn. split; [eauto|]. intros Hk. specialize (Hn x). rewrite E in Hn. naive_solver.
  - rewrite IH. split; [intros Hn y [->|?] ?; eauto|eauto].
Qed.
End BuildMap.
