(* ===== verification/Limits.v ===== *)
(** * Attempt limiter, spent challenges, open ceremonies (internal/auth/ratelimit.go,
    challenge.go and the ceremony store of webauthn.go)

    Three in-memory maps with the same bounded sweep.  The clock and the order a
    Go map is ranged over in are arguments: an order is any list of keys. *)
From S2P Require Import Prelude.

(** ** The sweep *)

(** const maxScan = 128 *)
Definition maxScan : nat := 128.

(** [for k, w := range m { if now.After(expires(w)) { delete(m, k) }; … }] *)
Definition sweep {V} (expires : V -> Z) (now : Z) (order : list string) (m : gmap string V) : gmap string V :=
  foldl (fun m k => match m !! k with
                    | Some w => if After now (expires w) then delete k m else m
                    | None => m
                    end) m (take maxScan order).

(** ** LoginLimiter *)
Record attemptWindow := mkWindow { count : Z; reset : Z }.
Record LoginLimiter := mkLimiter { attempts : gmap string attemptWindow; lmax : Z; ldur : Z }.

Definition NewLoginLimiter (max window : Z) : LoginLimiter := mkLimiter ∅ max window.
Definition set_attempts m l := mkLimiter m (lmax l) (ldur l).

Definition Allow (now : Z) (key : string) (l : LoginLimiter) : bool :=
  match attempts l !! key with
  | None => true
  | Some w => if After now (reset w) then true else count w <? lmax l
  end.

Definition Fail (now : Z) (order : list string) (key : string) (l : LoginLimiter) : LoginLimiter :=
  let m := sweep reset now order (attempts l) in
  let fresh := <[key := mkWindow 1 (now + ldur l)]> m in
  set_attempts
    match m !! key with
    | None => fresh
    | Some w => if After now (reset w) then fresh else <[key := mkWindow (count w + 1) (reset w)]> m
    end l.

Definition Reset (key : string) (l : LoginLimiter) : LoginLimiter := set_attempts (delete key (attempts l)) l.

(** ** usedChallenges: spent challenge ids and when their tokens expire *)
Notation usedChallenges := (gmap string Z) (only parsing).

Definition spend (now : Z) (order : list string) (id : string) (expiry : Z) (u : gmap string Z) : gmap string Z * bool :=
  if String.eqb id "" then (u, false)
  else
    let u := sweep (fun e => e) now order u in
    match u !! id with
    | Some exp => if Before now exp then (u, false) else (<[id := expiry]> u, true)
    | None => (<[id := expiry]> u, true)
    end.

(** ** ceremonies *)
Record ceremony {D : Type} := mkCeremony { cdata : D; cexpires : Z; cstepUp : bool }.
Arguments ceremony : clear implicits.
Arguments mkCeremony {D}.
Record ceremonies {D : Type} := mkCeremonies { copen : gmap string (ceremony D); climit : nat }.
Arguments ceremonies : clear implicits.
Arguments mkCeremonies {D}.

Definition ceremonyTTL : Z := 2 * minute.
Definition maxOpenCeremonies : nat := 4096.
Definition maxPublicCeremonies : nat := 512.
Definition newCeremonies {D} (limit : nat) : ceremonies D := mkCeremonies ∅ limit.

(** [now] is read once for the sweep and once more for the new expiry. *)
Definition put {D} (now now' : Z) (order : list string) (key : string) (data : D) (stepUp : bool) (c : ceremonies D)
    : ceremonies D * bool :=
  let open := sweep cexpires now order (copen c) in
  if negb (bool_decide (is_Some (open !! key))) && (climit c <=? size open)%nat then (mkCeremonies open (climit c), false)
  else (mkCeremonies (<[key := mkCeremony data (now' + ceremonyTTL) stepUp]> open) (climit c), true).

(** (c *ceremonies) take *)
Definition take_ceremony {D} (now : Z) (key : string) (c : ceremonies D) : ceremonies D * option (ceremony D) :=
  (mkCeremonies (delete key (copen c)) (climit c),
   match copen c !! key with
   | Some found => if After now (cexpires found) then None else Some found
   | None => None
   end).

(** ** The sweep loses only what has expired *)
Section Sweep.
Context {V : Type} (expires : V -> Z).

Lemma sweep_lookup now order m k :
  sweep expires now order m !! k = m !! k \/
  (sweep expires now order m !! k = None /\ exists w, m !! k = Some w /\ expires w < now).
Proof.
  unfold sweep. apply (foldl_invariant (fun m' => m' !! k = m !! k \/
    (m' !! k = None /\ exists w, m !! k = Some w /\ expires w < now))); [by left|].
  intros m' k' _ H. destruct (m' !! k') as [w|] eqn:E; [|done]. unfold After.
  destruct (expires w <? now) eqn:Ew; [|done]. bsimp.
  destruct (decide (k' = k)) as [->|Hne]; [|by rewrite lookup_delete_ne].
  rewrite lookup_delete_eq. right. split; [done|]. destruct H as [H|[H _]]; [|congruence]. exists w.
  split; [congruence|done].
Qed.

Lemma sweep_keeps now order m k w : m !! k = Some w -> now <= expires w -> sweep expires now order m !! k = Some w.
Proof. intros H Hw. destruct (sweep_lookup now order m k) as [->|[_ (w' & Hw' & ?)]]; [done|]. simplify_eq. lia. Qed.

Lemma sweep_None now order m k : m !! k = None -> sweep expires now order m !! k = None.
Proof. intros H. by destruct (sweep_lookup now order m k) as [->|[? _]]. Qed.

Lemma sweep_size now order m : (size (sweep expires now order m) <= size m)%nat.
Proof.
  unfold sweep. apply (foldl_invariant (fun m' => (size m' <= size m)%nat)); [done|].
  intros m' k _ H. destruct (m' !! k) as [w|] eqn:E; [|done]. destruct (After now (expires w)); [|done].
  rewrite map_size_delete, E. lia.
Qed.
End Sweep.

(** ** The limiter bounds guesses *)

(** One request after another: a guess is charged when it is let through, a
    success clears its key. *)
Inductive limiter_op := Guess (t : Z) (order : list string) (key : string) | Clear (key : string).

Definition perform_op (l : LoginLimiter) (op : limiter_op) : LoginLimiter :=
  match op with
  | Guess t order key => if Allow t key l then Fail t order key l else l
  | Clear key => Reset key l
  end.

(** One if the guess at [key] counts for [k], lies in [[a, b]] and is let through. *)
Definition charged (k : string) (a b : Z) (l : LoginLimiter) (t : Z) (key : string) : Z :=
  if bool_decide (key = k) && (a <=? t) && (t <=? b) && Allow t k l then 1 else 0.

(** How many guesses at [k] got through between [a] and [b]. *)
Fixpoint guesses (k : string) (a b : Z) (l : LoginLimiter) (ops : list limiter_op) : Z :=
  match ops with
  | [] => 0
  | op :: rest =>
      match op with
      | Guess t _ key => charged k a b l t key
      | Clear _ => 0
      end + guesses k a b (perform_op l op) rest
  end.

(** The clock does not go back, and no guess at [k] succeeds. *)
Fixpoint unlucky (k : string) (T : Z) (ops : list limiter_op) : Prop :=
  match ops with
  | [] => True
  | Guess t _ _ :: rest => T <= t /\ unlucky k t rest
  | Clear key :: rest => key <> k /\ unlucky k T rest
  end.

(** The window of [k] still running at [t]. *)
Definition running (l : LoginLimiter) (k : string) (t : Z) : option attemptWindow :=
  match attempts l !! k with
  | Some w => if After t (reset w) then None else Some w
  | None => None
  end.

Lemma Allow_running l k t : Allow t k l = match running l k t with Some w => count w <? lmax l | None => true end.
Proof. unfold Allow, running. destruct (attempts l !! k) as [w|]; [|done]. by destruct (After t (reset w)). Qed.

Lemma perform_params l op : lmax (perform_op l op) = lmax l /\ ldur (perform_op l op) = ldur l.
Proof. destruct op as [t o key|key]; simpl; [destruct (Allow t key l)|]; done. Qed.

(** What a guess at [k] that gets through does to its window. *)
Lemma guess_running l k t order : Allow t k l = true ->
  attempts (perform_op l (Guess t order k)) !! k =
    Some match running l k t with Some w => mkWindow (count w + 1) (reset w) | None => mkWindow 1 (t + ldur l) end.
Proof.
  intros Ha. simpl. rewrite Ha. unfold Fail, running. cbn [set_attempts attempts].
  destruct (attempts l !! k) as [w|] eqn:E.
  - destruct (After t (reset w)) eqn:Ew; unfold After in Ew; bsimp.
    + destruct (sweep_lookup reset t order (attempts l) k) as [->|[-> _]]; rewrite ?E, ?lookup_insert_eq; [|done].
      unfold After. by rewrite (proj2 (Z.ltb_lt _ _) Ew), lookup_insert_eq.
    + rewrite (sweep_keeps _ _ _ _ _ w) by done. unfold After. by rewrite (proj2 (Z.ltb_ge _ _) Ew), lookup_insert_eq.
  - rewrite sweep_None by done. by rewrite lookup_insert_eq.
Qed.

(** Nothing else touches a window that is still running, or brings one back. *)
Lemma other_running l k op t : match op with Guess u _ key => u <= t /\ (key = k -> Allow u k l = false) | Clear key => key <> k end ->
  running (perform_op l op) k t = running l k t.
Proof.
  destruct op as [u order key|key]; simpl.
  - intros [Hu Hk]. destruct (Allow u key l) eqn:Ha; [|done].
    assert (key <> k) as Hne by (intros ->; rewrite Hk in Ha; done).
    unfold running, Fail. cbn [set_attempts attempts].
    assert (E : match sweep reset u order (attempts l) !! k with Some w => if After t (reset w) then None else Some w | None => None end
      = match attempts l !! k with Some w => if After t (reset w) then None else Some w | None => None end).
    { destruct (sweep_lookup reset u order (attempts l) k) as [->|[-> (w & -> & Hw)]]; [done|].
      unfold After. by rewrite (proj2 (Z.ltb_lt _ _)) by lia. }
    destruct (sweep reset u order (attempts l) !! key); [destruct (After u _)|]; by rewrite lookup_insert_ne.
  - intros Hne. unfold running. simpl. by rewrite lookup_delete_ne.
Qed.

Lemma running_later l k T t w : T <= t -> t <= reset w -> running l k T = Some w -> running l k t = Some w.
Proof.
  unfold running, After. intros ? ? H. destruct (attempts l !! k) as [w0|]; [|done].
  destruct (reset w0 <? T); simplify_eq. by rewrite (proj2 (Z.ltb_ge _ _)).
Qed.

Lemma running_over l k T t : T <= t -> (forall w, running l k T = Some w -> reset w < t) -> running l k t = None.
Proof.
  unfold running, After. intros ? H. destruct (attempts l !! k) as [w0|]; [|done].
  destruct (reset w0 <? T) eqn:E; bsimp; [|specialize (H w0 eq_refl)]; by rewrite (proj2 (Z.ltb_lt _ _)) by lia.
Qed.

Lemma charged_bound k a b l t key : 0 <= charged k a b l t key <= 1.
Proof. unfold charged. destruct (_ && _); lia. Qed.

Lemma charged_outside k a b l t key : t < a \/ b < t -> charged k a b l t key = 0.
Proof.
  unfold charged. intros [H|H]; [rewrite (proj2 (Z.leb_gt a t)) by done|rewrite (proj2 (Z.leb_gt t b)) by done];
    rewrite ?andb_false_r; done.
Qed.

(** A guess either goes through at [k], or is none of its business. *)
Lemma guess_cases k l t key :
  (key = k /\ Allow t k l = true) \/ ((key = k -> Allow t k l = false) /\ forall a b, charged k a b l t key = 0).
Proof.
  unfold charged. destruct (decide (key = k)) as [->|Hne].
  - destruct (Allow t k l) eqn:E; [by left|]. right. split; [done|]. intros. by rewrite andb_false_r.
  - right. split; [done|]. intros. by rewrite bool_decide_false.
Qed.

Lemma guesses_late k a b ops : forall l T, unlucky k T ops -> b < T -> guesses k a b l ops = 0.
Proof.
  induction ops as [|[t o key|key] ops IH]; intros l T Hu Hb; [done|..]; simpl in Hu |- *; destruct Hu as [H1 H2].
  - rewrite (IH _ t), charged_outside by (done || lia). done.
  - by rewrite (IH _ T).
Qed.

(** Inside a running window only what is left of it gets through. *)
Lemma guesses_running k a b ops : forall l T w, unlucky k T ops -> running l k T = Some w -> b <= reset w ->
  guesses k a b l ops <= Z.max 0 (lmax l - count w).
Proof.
  induction ops as [|op ops IH]; intros l T w Hu Hw Hb; [simpl; lia|].
  pose proof (perform_params l op) as [Hm _].
  destruct op as [t o key|key]; simpl in Hu; destruct Hu as [H1 H2]; cbn [guesses].
  - destruct (decide (b < t)) as [Hlate|Hin].
    { rewrite (guesses_late k a b ops _ t), charged_outside by auto. lia. }
    pose proof (running_later l k T t w ltac:(lia) ltac:(lia) Hw) as Ht.
    destruct (guess_cases k l t key) as [[-> Ha]|[Ha ->]].
    + pose proof (guess_running l k t o Ha) as Hg. rewrite Ht in Hg. rewrite Allow_running, Ht in Ha. bsimp.
      specialize (IH (perform_op l (Guess t o k)) t (mkWindow (count w + 1) (reset w)) H2).
      rewrite Hm in IH. unfold running, After in IH. rewrite Hg in IH. cbn [count reset] in IH.
      rewrite (proj2 (Z.ltb_ge _ _)) in IH by lia. specialize (IH eq_refl Hb).
      pose proof (charged_bound k a b l t k). lia.
    + rewrite <- Hm. eapply IH; [done| |done]. rewrite other_running; [done|first [done|cbn; split; [lia|done]]].
  - rewrite <- Hm. apply (IH _ T); [done| |done]. rewrite other_running; [done|first [done|cbn; split; [lia|done]]].
Qed.

(** With no window running, one window's worth gets through within [ldur]. *)
Lemma guesses_fresh k a b ops : forall l T, 1 <= lmax l -> 0 <= ldur l -> unlucky k T ops -> running l k T = None ->
  b <= T + ldur l -> guesses k a b l ops <= lmax l.
Proof.
  induction ops as [|op ops IH]; intros l T Hl Hd Hu Hw Hb; [simpl; lia|].
  pose proof (perform_params l op) as [Hm Hd'].
  destruct op as [t o key|key]; simpl in Hu; destruct Hu as [H1 H2]; cbn [guesses].
  - assert (Ht : running l k t = None) by (apply (running_over l k T); [done|intros w; congruence]).
    destruct (guess_cases k l t key) as [[-> Ha]|[Ha ->]].
    + pose proof (guess_running l k t o Ha) as Hg. rewrite Ht in Hg.
      pose proof (guesses_running k a b ops (perform_op l (Guess t o k)) t (mkWindow 1 (t + ldur l)) H2) as Hrun.
      unfold running, After in Hrun. rewrite Hg in Hrun. cbn [count reset] in Hrun. rewrite Hm in Hrun.
      rewrite (proj2 (Z.ltb_ge _ _)) in Hrun by lia. specialize (Hrun eq_refl ltac:(lia)).
      pose proof (charged_bound k a b l t k). lia.
    + rewrite <- Hm, Z.add_0_l. apply (IH _ t); rewrite ?Hm, ?Hd'; [done..| |lia]. rewrite other_running; [done|first [done|cbn; split; [lia|done]]].
  - rewrite <- Hm. apply (IH _ T); rewrite ?Hm, ?Hd'; [done..| |done]. rewrite other_running; [done|first [done|cbn; split; [lia|done]]].
Qed.

(** Whatever is running, at most two windows meet an interval of length [ldur]. *)
Lemma guesses_any k a b ops : forall l T w, 1 <= lmax l -> 0 <= ldur l -> unlucky k T ops -> b <= T + ldur l ->
  running l k T = Some w -> guesses k a b l ops <= Z.max 0 (lmax l - count w) + lmax l.
Proof.
  induction ops as [|op ops IH]; intros l T w Hl Hd Hu Hb Hw; [simpl; lia|].
  pose proof (perform_params l op) as [Hm Hd'].
  destruct op as [t o key|key]; pose proof Hu as [H1 H2].
  - destruct (decide (reset w < t)) as [Hover|Hin].
    { enough (guesses k a b l (Guess t o key :: ops) <= lmax l) by lia.
      apply (guesses_fresh k a b _ l t); [done..| |lia]. apply (running_over l k T); [done|]. intros w'. by rewrite Hw; intros [= <-]. }
    pose proof (running_later l k T t w ltac:(lia) ltac:(lia) Hw) as Ht.
    cbn [guesses]. destruct (guess_cases k l t key) as [[-> Ha]|[Ha ->]].
    + pose proof (guess_running l k t o Ha) as Hg. rewrite Ht in Hg. rewrite Allow_running, Ht in Ha. bsimp.
      specialize (IH (perform_op l (Guess t o k)) t (mkWindow (count w + 1) (reset w))). rewrite Hm, Hd' in IH.
      unfold running, After in IH. rewrite Hg in IH. cbn [count reset] in IH.
      rewrite (proj2 (Z.ltb_ge _ _)) in IH by lia. specialize (IH Hl Hd H2 ltac:(lia) eq_refl).
      pose proof (charged_bound k a b l t k). lia.
    + specialize (IH (perform_op l (Guess t o key)) t w). rewrite Hm, Hd' in IH.
      apply IH; [done..|lia|]. rewrite other_running; [done|first [done|cbn; split; [lia|done]]].
  - cbn [guesses]. specialize (IH (perform_op l (Clear key)) T w). rewrite Hm, Hd' in IH.
    apply IH; [done..|]. rewrite other_running; [done|first [done|cbn; split; [lia|done]]].
Qed.

Definition counts_ok (l : LoginLimiter) : Prop := forall k w, attempts l !! k = Some w -> 0 <= count w.

Lemma perform_counts_ok l op : counts_ok l -> counts_ok (perform_op l op).
Proof.
  intros Hok. destruct op as [t o key|key]; simpl.
  - destruct (Allow t key l); [|done]. unfold Fail, counts_ok. cbn [set_attempts attempts].
    assert (Hs : forall k w, sweep reset t o (attempts l) !! k = Some w -> 0 <= count w).
    { intros k w. destruct (sweep_lookup reset t o (attempts l) k) as [->|[-> _]]; [apply Hok|done]. }
    intros k w. destruct (sweep reset t o (attempts l) !! key) as [w0|] eqn:E; [destruct (After t _)|];
      rewrite lookup_insert_Some; intros [[_ <-]|[_ H]]; cbn [count]; try lia; eauto. pose proof (Hs _ _ E). lia.
  - intros k w. cbn [Reset set_attempts attempts]. rewrite lookup_delete_Some. intros [_ H]. by eapply Hok.
Qed.

(** C40: the limiter holds against whatever else goes on.  With requests handled one
    at a time, any number of clients, keys, successes at other keys and cleanups in
    between and any map order for the sweep, no more than twice the limit of failed
    guesses at one key get through in any span as long as the limiter's window. *)
Theorem limiter_bounds_guesses k a T max window ops :
  1 <= max -> 0 <= window -> unlucky k T ops ->
  guesses k a (a + window) (NewLoginLimiter max window) ops <= 2 * max.
Proof.
  intros Hl Hd. set (l := NewLoginLimiter max window).
  assert (Hlm : lmax l = max) by done. assert (Hld : ldur l = window) by done.
  assert (Hok : counts_ok l) by by intros ? ? [=]. clearbody l. revert l T Hlm Hld Hok.
  induction ops as [|op ops IH]; intros l T Hlm Hld Hok Hu; [simpl; lia|].
  pose proof (perform_params l op) as [Hm Hd']. pose proof (perform_counts_ok l op Hok) as Hok'.
  destruct op as [t o key|key].
  - destruct (decide (t < a)) as [Hearly|Hin].
    + cbn [guesses]. rewrite charged_outside by auto. destruct Hu as [_ Hu].
      specialize (IH (perform_op l (Guess t o key)) t). rewrite Hm, Hd' in IH. specialize (IH Hlm Hld Hok' Hu). lia.
    + destruct Hu as [_ Hu]. assert (Hu' : unlucky k t (Guess t o key :: ops)) by by split.
      destruct (running l k t) as [w|] eqn:Hw.
      * pose proof (guesses_any k a (a + window) (Guess t o key :: ops) l t w ltac:(lia) ltac:(lia) Hu' ltac:(lia) Hw).
        assert (0 <= count w); [|lia]. unfold running in Hw. destruct (attempts l !! k) eqn:E; [|done].
        destruct (After t _); simplify_eq. by eapply Hok.
      * pose proof (guesses_fresh k a (a + window) (Guess t o key :: ops) l t ltac:(lia) ltac:(lia) Hu' Hw ltac:(lia)). lia.
  - destruct Hu as [Hne Hu]. cbn [guesses]. specialize (IH (perform_op l (Clear key)) T).
    rewrite Hm, Hd' in IH. specialize (IH Hlm Hld Hok' Hu). lia.
Qed.

(** Five per quarter of an hour, sixteen guesses a minute apart. *)
Definition hammer : list limiter_op := (fun i => Guess (Z.of_nat i * minute) ["10.0.0.9"] "10.0.0.9") <$> seq 0 16.

Example limiter_bounds_guesses_witness :
  guesses "10.0.0.9" 0 (15 * minute) (NewLoginLimiter 5 (15 * minute)) hammer = 5 /\
  guesses "10.0.0.9" 0 (0 + 15 * minute) (NewLoginLimiter 5 (15 * minute)) hammer <= 2 * 5.
Proof.
  split; [vm_compute; reflexivity|].
  apply (limiter_bounds_guesses _ _ 0); [lia|vm_compute; discriminate|vm_compute; repeat split; discriminate].
Defined.

(** Requests handled at the same time are another matter: the check and the charge
    are two calls, and any number of checks can come first. *)
Lemma simultaneous_guesses_unbounded n k t :
  let l := NewLoginLimiter 5 (15 * minute) in
  length (filter (fun b => b = true) (replicate n (Allow t k l))) = n.
Proof. intros l. replace (Allow t k l) with true by reflexivity. induction n as [|n IH]; [done|]. simpl. by rewrite IH. Qed.

(** ** A challenge is good for one attempt *)

(** Calls to [spend]: when, in what map order, which id, and the expiry its token names. *)
Record spend_call := mkSpend { sc_now : Z; sc_order : list string; sc_id : string; sc_expiry : Z }.
Definition spend_step (u : gmap string Z) (c : spend_call) : gmap string Z :=
  (spend (sc_now c) (sc_order c) (sc_id c) (sc_expiry c) u).1.
Definition spends (u : gmap string Z) (c : spend_call) : bool :=
  (spend (sc_now c) (sc_order c) (sc_id c) (sc_expiry c) u).2.

Lemma spend_remembers u c id exp : u !! id = Some exp ->
  (sc_id c = id -> sc_expiry c = exp) -> sc_now c <= exp ->
  spend_step u c !! id = Some exp.
Proof.
  intros Hu He Hn. unfold spend_step, spend. destruct (String.eqb (sc_id c) ""); [done|]. cbv zeta.
  assert (Hs : sweep (fun e => e) (sc_now c) (sc_order c) u !! id = Some exp) by by apply sweep_keeps.
  destruct (decide (sc_id c = id)) as [Hid|Hid].
  - rewrite Hid, Hs. destruct (Before (sc_now c) exp); cbn [fst]; [done|]. rewrite He by done. by rewrite lookup_insert_eq.
  - destruct (_ !! sc_id c) as [e|]; [destruct (Before _ e)|]; cbn [fst]; by rewrite ?lookup_insert_ne.
Qed.

(** a challenge token buys one attempt.  Once a call has spent its id, no later
    call spends it again before the token expires, whatever other challenges are
    spent and swept in between and in whatever order the map is ranged over. *)
Theorem challenge_spent_once u first later last :
  spends u first = true ->
  Forall (fun c => sc_id c = sc_id first -> sc_expiry c = sc_expiry first) later ->
  Forall (fun c => sc_now c <= sc_now last) later ->
  sc_id last = sc_id first -> sc_now last < sc_expiry first ->
  spends (foldl spend_step (spend_step u first) later) last = false.
Proof.
  intros Hf Hexp Hnow Hid Hlast.
  assert (H1 : spend_step u first !! sc_id first = Some (sc_expiry first)).
  { revert Hf. unfold spends, spend_step, spend. destruct (String.eqb _ _); [done|]. cbv zeta.
    destruct (_ !! sc_id first) as [e|]; [destruct (Before _ e)|]; cbn [fst snd]; intros; try done; by rewrite lookup_insert_eq. }
  assert (H2 : foldl spend_step (spend_step u first) later !! sc_id first = Some (sc_expiry first)).
  { apply (foldl_invariant (fun m => m !! sc_id first = Some (sc_expiry first))); [done|].
    intros m c Hc Hm. rewrite Forall_forall in Hexp. rewrite Forall_forall in Hnow.
    apply spend_remembers; [done|by apply Hexp|]. specialize (Hnow c Hc). lia. }
  unfold spends, spend. rewrite Hid. destruct (String.eqb _ _); [done|]. cbv zeta.
  rewrite (sweep_keeps _ _ _ _ _ (sc_expiry first)) by (done || lia).
  unfold Before. by rewrite (proj2 (Z.ltb_lt _ _)).
Qed.

Example challenge_spent_once_witness :
  spends (foldl spend_step (spend_step ∅ (mkSpend 1 [] "c1" 100)) [mkSpend 2 ["c1"] "c2" 90]) (mkSpend 3 ["c2"; "c1"] "c1" 100)
    = false.
Proof.
  apply (challenge_spent_once ∅ (mkSpend 1 [] "c1" 100)); [vm_compute; reflexivity| | |reflexivity|reflexivity].
  - constructor; [discriminate|constructor].
  - constructor; [discriminate|constructor].
Defined.

(** ** Ceremonies *)

(** the store of half-finished ceremonies stays within its limit whatever is put
    into it, refuses a new one only when that many are open, and hands each one out
    at most once and only until it expires. *)
Theorem ceremonies_bounded {D} now now' order key (data : D) stepUp c :
  (size (copen c) <= climit c)%nat ->
  let '(c1, ok) := put now now' order key data stepUp c in
  (size (copen c1) <= climit c1)%nat /\ climit c1 = climit c /\
  (ok = false -> (climit c <= size (copen c))%nat) /\
  (ok = true -> forall t, (take_ceremony t key c1).2 =
     if t <=? now' + ceremonyTTL then Some (mkCeremony data (now' + ceremonyTTL) stepUp) else None) /\
  forall t u, (take_ceremony u key (take_ceremony t key c1).1).2 = None.
Proof.
  intros Hsz. unfold put. cbv zeta. set (open := sweep cexpires now order (copen c)).
  assert (Hop : (size open <= size (copen c))%nat) by apply sweep_size.
  assert (Htwice : forall (c1 : ceremonies D) t u, (take_ceremony u key (take_ceremony t key c1).1).2 = None).
  { intros c1 t u. unfold take_ceremony. cbn [fst snd copen]. by rewrite lookup_delete_eq. }
  destruct (negb _ && _) eqn:E; cbn [copen climit].
  - split; [lia|]. split; [done|]. apply andb_true_iff in E as [_ E]. apply Nat.leb_le in E.
    split; [lia|]. split; [done|]. apply Htwice.
  - split; [|split; [done|split; [done|split; [|apply Htwice]]]].
    + destruct (open !! key) as [x|] eqn:Ek.
      * rewrite map_size_insert_Some by done. lia.
      * rewrite map_size_insert_None by done. rewrite bool_decide_false in E by by intros []. simpl in E.
        apply Nat.leb_gt in E. lia.
    + intros _ t. unfold take_ceremony, After. cbn [fst snd copen]. rewrite lookup_insert_eq. cbn [cexpires].
      rewrite Z.ltb_antisym. by destruct (t <=? now' + ceremonyTTL).
Qed.

Example ceremonies_bounded_witness :
  (size (copen (put 5 6 [] "register:7" "challenge" false (newCeremonies 2)).1) <= 2)%nat.
Proof.
  pose proof (ceremonies_bounded 5 6 [] "register:7" "challenge" false (newCeremonies 2) ltac:(vm_compute; lia)) as H.
  apply H.
Defined.
