(* ===== verification/GoStrings.v ===== *)
(** * The functions of package [strings] that the program uses

    A Go string is a sequence of bytes, so [string] (a list of [ascii]) models
    it without loss.  [TrimSpace] trims every Unicode white space rune in its
    UTF-8 encoding, as Go does, not only the ASCII ones. *)
From S2P Require Import Prelude.
From Stdlib Require Export Ascii.
From Stdlib Require String.
Open Scope Z_scope.

Definition bytes (s : string) : list Ascii.ascii := String.list_ascii_of_string s.
Definition of_bytes (l : list Ascii.ascii) : string := String.string_of_list_ascii l.

(** [strings.HasPrefix(s, p)] *)
Fixpoint HasPrefix (s p : string) : bool :=
  match p, s with
  | EmptyString, _ => true
  | String c p', String d s' => Ascii.eqb c d && HasPrefix s' p'
  | String _ _, EmptyString => false
  end.

(** [s[n:]] for [n <= len(s)] *)
Fixpoint sdrop (n : nat) (s : string) : string :=
  match n, s with
  | O, _ => s
  | S n', String _ s' => sdrop n' s'
  | S _, EmptyString => EmptyString
  end.

(** [s[:n]] for [n <= len(s)] *)
Fixpoint stake (n : nat) (s : string) : string :=
  match n, s with
  | O, _ => EmptyString
  | S n', String c s' => String c (stake n' s')
  | S _, EmptyString => EmptyString
  end.

Definition TrimPrefix (s p : string) : string :=
  if HasPrefix s p then sdrop (String.length p) s else s.

Definition HasSuffix (s p : string) : bool :=
  (String.length p <=? String.length s)%nat &&
  String.eqb (sdrop (String.length s - String.length p) s) p.

(** [strings.Contains(s, p)] *)
Fixpoint Contains (s p : string) : bool :=
  HasPrefix s p ||
  match s with EmptyString => false | String _ s' => Contains s' p end.

(** [strings.IndexByte(s, c)], [None] for -1 *)
Fixpoint IndexByte (s : string) (c : Ascii.ascii) : option nat :=
  match s with
  | EmptyString => None
  | String d s' => if Ascii.eqb d c then Some O else S <$> IndexByte s' c
  end.

(** [strings.LastIndex(s, string(c))] for a one-byte separator *)
Fixpoint LastIndexByte (s : string) (c : Ascii.ascii) : option nat :=
  match s with
  | EmptyString => None
  | String d s' =>
      match LastIndexByte s' c with
      | Some n => Some (S n)
      | None => if Ascii.eqb d c then Some O else None
      end
  end.

(** [strings.Split(s, string(c))] for a one-byte separator *)
Fixpoint Split (s : string) (c : Ascii.ascii) : list string :=
  match s with
  | EmptyString => [EmptyString]
  | String d s' =>
      if Ascii.eqb d c then EmptyString :: Split s' c
      else match Split s' c with
           | w :: ws => String d w :: ws
           | [] => [String d EmptyString]
           end
  end.

(** [strings.Join(l, sep)] *)
Fixpoint Join (l : list string) (sep : string) : string :=
  match l with
  | [] => EmptyString
  | [x] => x
  | x :: l' => x +:+ sep +:+ Join l' sep
  end.

Definition code (c : Ascii.ascii) : Z := Z.of_nat (Ascii.nat_of_ascii c).

(** The length in bytes of the white space rune (unicode.IsSpace) the byte
    list starts with, 0 if it starts with something else. *)
Definition space_at (l : list Ascii.ascii) : nat :=
  match code <$> take 3 l with
  | b0 :: r =>
      if bool_decide (b0 ∈ [9; 10; 11; 12; 13; 32]) then 1%nat
      else match r with
      | b1 :: r' =>
          if (b0 =? 0xC2) && ((b1 =? 0x85) || (b1 =? 0xA0)) then 2%nat
          else match r' with
          | b2 :: _ =>
              if ((b0 =? 0xE1) && (b1 =? 0x9A) && (b2 =? 0x80)) ||
                 ((b0 =? 0xE2) && (b1 =? 0x80) &&
                   (((0x80 <=? b2) && (b2 <=? 0x8A)) || (b2 =? 0xA8) || (b2 =? 0xA9) || (b2 =? 0xAF))) ||
                 ((b0 =? 0xE2) && (b1 =? 0x81) && (b2 =? 0x9F)) ||
                 ((b0 =? 0xE3) && (b1 =? 0x80) && (b2 =? 0x80))
              then 3%nat else 0%nat
          | [] => 0%nat
          end
      | [] => 0%nat
      end
  | [] => 0%nat
  end.

Fixpoint trim_left (fuel : nat) (l : list Ascii.ascii) : list Ascii.ascii :=
  match fuel with
  | O => l
  | S f => match space_at l with O => l | n => trim_left f (drop n l) end
  end.

(** The white space rune the (reversed) byte list ends with. *)
Definition space_end (rl : list Ascii.ascii) : nat :=
  if (space_at (take 1 rl) =? 1)%nat then 1%nat
  else if (space_at (rev (take 2 rl)) =? 2)%nat then 2%nat
  else if (space_at (rev (take 3 rl)) =? 3)%nat then 3%nat else 0%nat.

Fixpoint trim_right_rev (fuel : nat) (rl : list Ascii.ascii) : list Ascii.ascii :=
  match fuel with
  | O => rl
  | S f => match space_end rl with O => rl | n => trim_right_rev f (drop n rl) end
  end.

(** [strings.TrimSpace(s)]; each round removes at least one byte, so the length
    is fuel enough. *)
Definition TrimSpace (s : string) : string :=
  let l := trim_left (String.length s) (bytes s) in
  of_bytes (rev (trim_right_rev (length l) (rev l))).

(** ** strconv *)

Fixpoint parse_digits (acc : Z) (l : list Ascii.ascii) : option Z :=
  match l with
  | [] => Some acc
  | c :: l' =>
      if (48 <=? code c) && (code c <=? 57) then parse_digits (acc * 10 + (code c - 48)) l' else None
  end.

(** [strconv.ParseInt(s, 10, 64)], [None] for a syntax or range error *)
Definition ParseInt (s : string) : option Z :=
  let '(neg, ds) := match bytes s with
    | c :: r => if code c =? 45 then (true, r) else if code c =? 43 then (false, r) else (false, c :: r)
    | [] => (false, [])
    end in
  match ds with
  | [] => None
  | _ =>
      n ← parse_digits 0 ds;
      let v := if neg : bool then - n else n in
      if (int64_min <=? v) && (v <=? int64_max) then Some v else None
  end.

Lemma ParseInt_range s v : ParseInt s = Some v -> in_int64 v.
Proof.
  unfold ParseInt, in_int64. intros H. repeat (case_match; simplify_eq/=); try done.
  all: apply bind_Some in H as (n & _ & H); case_match eqn:E; bsimp; simplify_eq/=; lia.
Qed.

(** [id, _ := strconv.ParseInt(s, 10, 64)]: 0 for a text that is no number, the
    nearest int64 for one out of range (found before a later bad character is). *)
Fixpoint parse_saturating (acc : Z) (l : list Ascii.ascii) : option Z :=
  match l with
  | [] => Some acc
  | c :: l' =>
      if (48 <=? code c) && (code c <=? 57) then
        let n := acc * 10 + (code c - 48) in
        if 2 ^ 64 - 1 <? n then Some (2 ^ 64 - 1) else parse_saturating n l'
      else None
  end.
Definition ParseIntValue (s : string) : Z :=
  let '(neg, ds) := match bytes s with
    | c :: r => if code c =? 45 then (true, r) else if code c =? 43 then (false, r) else (false, c :: r)
    | [] => (false, [])
    end in
  match ds with
  | [] => 0
  | _ => match parse_saturating 0 ds with
         | None => 0
         | Some n => if neg : bool then Z.max int64_min (- n) else Z.min int64_max n
         end
  end.

Lemma parse_digits_ge l acc n : 0 <= acc -> parse_digits acc l = Some n -> acc <= n.
Proof.
  revert acc. induction l as [|c l IH]; intros acc Ha H; cbn [parse_digits] in H; [injection H as <-; lia|].
  destruct ((48 <=? code c) && (code c <=? 57)) eqn:E; [|done]. bsimp. apply IH in H; lia.
Qed.
Lemma parse_saturating_exact l acc n : 0 <= acc -> parse_digits acc l = Some n -> n <= 2 ^ 64 - 1 -> parse_saturating acc l = Some n.
Proof.
  revert acc. induction l as [|c l IH]; intros acc Ha H Hn; [exact H|]. cbn [parse_digits parse_saturating] in *.
  destruct ((48 <=? code c) && (code c <=? 57)) eqn:E; [|done]. bsimp. cbv zeta.
  pose proof (parse_digits_ge l (acc * 10 + (code c - 48)) n ltac:(lia) H).
  rewrite (proj2 (Z.ltb_ge (2 ^ 64 - 1) _)) by lia. apply IH; [lia|done|done].
Qed.
(** The value without its error is the value when there is none. *)
Lemma ParseIntValue_ok s v : ParseInt s = Some v -> ParseIntValue s = v.
Proof.
  intros H. pose proof (ParseInt_range s v H) as Hr. unfold ParseInt, ParseIntValue, in_int64, int64_min, int64_max in *. revert H.
  destruct (match bytes s with [] => _ | c :: r => _ end) as [neg ds]. destruct ds as [|c ds]; [done|]. intros H.
  destruct (parse_digits 0 (c :: ds)) as [n|] eqn:E; [|done]. cbn [mbind option_bind] in H.
  pose proof (parse_digits_ge _ _ _ (Z.le_refl 0) E). destruct ((- 2 ^ 63 <=? (if neg then - n else n)) && _) eqn:Eb in H; [|done]. bsimp.
  rewrite (parse_saturating_exact (c :: ds) 0 n) by (try lia; destruct neg; lia || exact E). injection H as <-. destruct neg; lia.
Qed.

(** [strconv.FormatInt(n, 10)]; 20 digits hold every int64. *)
Fixpoint format_digits (fuel : nat) (n : Z) (acc : string) : string :=
  match fuel with
  | O => acc
  | S f =>
      let acc := String (Ascii.ascii_of_nat (Z.to_nat (48 + n mod 10))) acc in
      if n / 10 =? 0 then acc else format_digits f (n / 10) acc
  end.

Definition FormatInt (n : Z) : string :=
  if n <? 0 then "-" +:+ format_digits 20 (- n) "" else format_digits 20 n "".

Example FormatInt_ex : FormatInt (-9223372036854775808) = "-9223372036854775808" /\ FormatInt 0 = "0".
Proof. vm_compute. done. Qed.
Example ParseInt_ex : ParseInt "-12" = Some (-12) /\ ParseInt "1_0" = None /\
  ParseInt "9223372036854775808" = None.
Proof. vm_compute. done. Qed.

Example TrimSpace_ascii : TrimSpace "  a b	 " = "a b".
Proof. vm_compute. reflexivity. Qed.
Example Split_ex : Split "a,b,,c" ","%char = ["a"; "b"; ""; "c"].
Proof. reflexivity. Qed.
Example Contains_ex : Contains "docker.sock" "er.s" = true.
Proof. reflexivity. Qed.

(** ** Lemmas *)

Lemma bytes_length s : length (bytes s) = String.length s.
Proof. unfold bytes. induction s as [|c s IH]; [done|]. simpl. by rewrite IH. Qed.

Lemma of_bytes_bytes s : of_bytes (bytes s) = s.
Proof. apply String.string_of_list_ascii_of_string. Qed.
Lemma bytes_of_bytes l : bytes (of_bytes l) = l.
Proof. apply String.list_ascii_of_string_of_list_ascii. Qed.

Lemma bytes_app a b : bytes (a +:+ b) = bytes a ++ bytes b.
Proof. unfold bytes. induction a as [|c a IH]; [done|]. simpl. by rewrite <- IH. Qed.

Lemma HasPrefix_app p s : HasPrefix (p +:+ s) p = true.
Proof. induction p as [|c p IH]; [by destruct s|]. simpl. by rewrite Ascii.eqb_refl, IH. Qed.

Lemma HasPrefix_spec s p : HasPrefix s p = true <-> exists r, s = p +:+ r.
Proof.
  split; [|intros [r ->]; apply HasPrefix_app].
  revert s. induction p as [|c p IH]; intros s; [by exists s|].
  destruct s as [|d s]; [done|]. simpl. intros [->%Ascii.eqb_eq H]%andb_true_iff.
  destruct (IH _ H) as [r ->]. by exists r.
Qed.

Lemma sdrop_app p s : sdrop (String.length p) (p +:+ s) = s.
Proof. induction p; simpl; auto. Qed.

Lemma TrimPrefix_app p s : TrimPrefix (p +:+ s) p = s.
Proof. unfold TrimPrefix. by rewrite HasPrefix_app, sdrop_app. Qed.

Lemma stake_sdrop n s : stake n s +:+ sdrop n s = s.
Proof.
  revert s; induction n as [|n IH]; intros s; [done|].
  destruct s as [|c s]; [done|]. simpl. change (String c (stake n s +:+ sdrop n s) = String c s).
  by rewrite IH.
Qed.

Lemma stake_app s t : stake (String.length s) (s +:+ t) = s.
Proof.
  induction s as [|c s IH]; [by destruct t|]. simpl.
  change (String c s +:+ t) with (String c (s +:+ t)). simpl. by rewrite IH.
Qed.

(** The first occurrence of a byte the prefix does not hold. *)
Lemma IndexByte_app c s r :
  IndexByte s c = None -> IndexByte (s +:+ String c r) c = Some (String.length s).
Proof.
  induction s as [|d s IH].
  - intros _. change ("" +:+ String c r) with (String c r). simpl. by rewrite Ascii.eqb_refl.
  - change (String d s +:+ ?x) with (String d (s +:+ x)). simpl.
    destruct (Ascii.eqb d c); [done|]. destruct (IndexByte s c); [done|].
    intros _. by rewrite IH.
Qed.

#[export] Hint Rewrite HasPrefix_app sdrop_app TrimPrefix_app : gorw.

(** *** Round trip of integers *)

Lemma code_of_digit d : 0 <= d <= 9 -> code (Ascii.ascii_of_nat (Z.to_nat (48 + d))) = 48 + d.
Proof. intros H. unfold code. rewrite Ascii.nat_ascii_embedding; lia. Qed.

Definition is_digit (c : Ascii.ascii) : Prop := 48 <= code c <= 57.

Lemma format_digits_bytes fuel : forall n acc,
  0 <= n -> exists l, bytes (format_digits fuel n acc) = l ++ bytes acc /\ Forall is_digit l /\
    (fuel <> O -> l <> []).
Proof.
  induction fuel as [|f IH]; intros n acc Hn; [by exists []|]. cbn [format_digits].
  pose proof (Z.mod_pos_bound n 10). set (c := Ascii.ascii_of_nat _).
  assert (is_digit c) as Hc by (unfold is_digit, c; rewrite code_of_digit; lia).
  destruct (n / 10 =? 0).
  - exists [c]. split; [done|]. split; [by apply Forall_singleton|done].
  - destruct (IH (n / 10) (String c acc)) as (l & -> & Hl & _); [apply Z.div_pos; lia|].
    exists (l ++ [c]). split; [by rewrite <- (assoc_L (++))|]. split; [|by destruct l].
    apply Forall_app. split; [done|by apply Forall_singleton].
Qed.

Lemma parse_format_digits fuel : forall n acc, 0 <= n < 10 ^ Z.of_nat fuel -> (0 < fuel)%nat ->
  parse_digits 0 (bytes (format_digits fuel n acc)) = parse_digits n (bytes acc).
Proof.
  induction fuel as [|f IH]; intros n acc Hn Hf; [lia|]. cbn [format_digits].
  pose proof (Z.mod_pos_bound n 10). pose proof (Z.div_mod n 10).
  set (c := Ascii.ascii_of_nat _).
  assert (code c = 48 + n mod 10) as Hc by (unfold c; rewrite code_of_digit; lia).
  assert (Hstep : forall a, parse_digits a (bytes (String c acc)) = parse_digits (a * 10 + n mod 10) (bytes acc)).
  { intros a. cbn [bytes String.list_ascii_of_string parse_digits]. rewrite Hc.
    rewrite (proj2 (Z.leb_le _ _)), (proj2 (Z.leb_le _ _)) by lia. simpl. f_equal. lia. }
  destruct (n / 10 =? 0) eqn:E; bsimp.
  - rewrite Hstep. f_equal. lia.
  - rewrite Nat2Z.inj_succ, Z.pow_succ_r in Hn by lia.
    assert (0 < n / 10) by (pose proof (Z.div_pos n 10); lia).
    assert (n / 10 < 10 ^ Z.of_nat f) by (apply Z.div_lt_upper_bound; lia).
    assert ((0 < f)%nat) by (destruct f; [change (10 ^ Z.of_nat 0) with 1 in *; lia|lia]).
    rewrite IH by lia. rewrite Hstep. f_equal. lia.
Qed.

(** strconv.ParseInt undoes strconv.FormatInt on every int64. *)
Lemma ParseInt_FormatInt n : in_int64 n -> ParseInt (FormatInt n) = Some n.
Proof.
  unfold in_int64. intros Hn.
  assert (Hpos : forall k, 0 <= k <= 2 ^ 63 -> exists c l, bytes (format_digits 20 k "") = c :: l /\
    is_digit c /\ parse_digits 0 (c :: l) = Some k).
  { intros k Hk. destruct (format_digits_bytes 20 k "") as (l & Hl & Hd & Hne); [lia|].
    rewrite app_nil_r in Hl. destruct l as [|c l]; [by destruct Hne|]. exists c, l.
    split; [done|]. split; [by apply Forall_cons in Hd as [? _]|]. rewrite <- Hl.
    by rewrite parse_format_digits by (change (10 ^ Z.of_nat 20) with 100000000000000000000; lia). }
  unfold FormatInt, int64_min, int64_max in *. destruct (n <? 0) eqn:E; bsimp.
  - destruct (Hpos (- n)) as (c & l & Hb & _ & Hp); [lia|]. unfold ParseInt.
    change (bytes ("-" +:+ ?s)) with ("-"%char :: bytes s). rewrite Hb.
    change (code "-" =? 45) with true. cbv iota beta. rewrite Hp. cbn [mbind option_bind].
    rewrite (proj2 (Z.leb_le _ _)), (proj2 (Z.leb_le _ _)) by (unfold int64_min, int64_max; lia). simpl. f_equal. lia.
  - destruct (Hpos n) as (c & l & Hb & Hc & Hp); [lia|]. unfold ParseInt. rewrite Hb. unfold is_digit in Hc.
    rewrite (proj2 (Z.eqb_neq (code c) 45)), (proj2 (Z.eqb_neq (code c) 43)) by lia.
    cbv iota beta. rewrite Hp. cbn [mbind option_bind].
    by rewrite (proj2 (Z.leb_le _ _)), (proj2 (Z.leb_le _ _)) by (unfold int64_min, int64_max; lia).
Qed.

Lemma FormatInt_chars n c : in_int64 n -> c ∈ bytes (FormatInt n) -> is_digit c \/ c = "-"%char.
Proof.
  unfold FormatInt, in_int64. intros Hn.
  assert (forall k, 0 <= k -> c ∈ bytes (format_digits 20 k "") -> is_digit c) as H.
  { intros k Hk. destruct (format_digits_bytes 20 k "") as (l & -> & Hd & _); [done|].
    rewrite app_nil_r. by apply Forall_forall. }
  destruct (n <? 0) eqn:E; bsimp.
  - change (bytes ("-" +:+ ?s)) with ("-"%char :: bytes s). intros [->|?]%elem_of_cons; [by right|].
    left. eapply (H (- n)); [lia|done].
  - left. by eapply (H n).
Qed.
