(* ===== verification/NetIP.v ===== *)
(** * The parts of package [net] that the program uses

    Addresses, networks and host:port texts.  An address is the 16 bytes of a Go
    [net.IP]; an IPv4 one is mapped into ::ffff:0:0/96, as [net.ParseIP] does. *)
From S2P Require Import Prelude GoStrings.

(** ** IPv4 *)
Definition dec_digit (c : Ascii.ascii) : bool := (48 <=? code c) && (code c <=? 57).

(** netip's parseIPv4Fields: the value and the number of digits of the field being
    read, the fields before it, whether the previous byte was a dot. *)
Fixpoint parse_v4 (l : list Ascii.ascii) (val : Z) (digits : nat) (fields : list Z) (start dot : bool) : option (list Z) :=
  match l with
  | [] => if (length fields <? 3)%nat then None else Some (fields ++ [val])
  | c :: l' =>
      if dec_digit c then
        if (digits =? 1)%nat && (val =? 0) then None
        else
          let val' := val * 10 + (code c - 48) in
          if 255 <? val' then None else parse_v4 l' val' (S digits) fields false false
      else if Ascii.eqb c "."%char then
        if start || dot || match l' with [] => true | _ => false end then None
        else if (length fields =? 3)%nat then None
        else parse_v4 l' 0 0 (fields ++ [val]) false true
      else None
  end.
Definition parseIPv4 (l : list Ascii.ascii) : option (list Z) := parse_v4 l 0 0 [] true false.

(** ** IPv6 *)
Definition hex_val (c : Ascii.ascii) : option Z :=
  let n := code c in
  if (48 <=? n) && (n <=? 57) then Some (n - 48)
  else if (97 <=? n) && (n <=? 102) then Some (n - 87)
  else if (65 <=? n) && (n <=? 70) then Some (n - 55)
  else None.

(** At most four hexadecimal digits: how many there were, their value, the rest. *)
Fixpoint hex_group (off : nat) (acc : Z) (l : list Ascii.ascii) : option (nat * Z * list Ascii.ascii) :=
  match l with
  | c :: l' =>
      match hex_val c with
      | Some v => if (3 <? off)%nat then None else hex_group (S off) (acc * 16 + v) l'
      | None => Some (off, acc, l)
      end
  | [] => Some (off, acc, [])
  end.

(** The loop over the groups; every round adds two bytes of the sixteen, so eight
    rounds are all there can be. *)
Fixpoint v6_groups (fuel : nat) (ip : list Z) (ellipsis : option nat) (l : list Ascii.ascii) : option (list Z * option nat) :=
  match fuel with
  | O => None
  | S fuel' =>
      '(off, acc, rest) ← hex_group 0 0 l;
      if (off =? 0)%nat then None
      else
        let ip' := ip ++ [acc / 256; acc mod 256] in
        match rest with
        | [] => Some (ip', ellipsis)
        | c :: rest' =>
            if Ascii.eqb c "."%char then
              if negb (bool_decide (is_Some ellipsis)) && negb (length ip =? 12)%nat then None
              else if (16 <? length ip + 4)%nat then None
              else v4 ← parseIPv4 l; Some (ip ++ v4, ellipsis)
            else if negb (Ascii.eqb c ":"%char) then None
            else match rest' with
                 | [] => None
                 | d :: rest'' =>
                     if Ascii.eqb d ":"%char then
                       match ellipsis, rest'' with
                       | Some _, _ => None
                       | None, [] => Some (ip', Some (length ip'))
                       | None, _ => v6_groups fuel' ip' (Some (length ip')) rest''
                       end
                     else v6_groups fuel' ip' ellipsis rest'
                 end
        end
  end.

Definition expand_ellipsis (r : list Z * option nat) : option (list Z) :=
  let '(ip, ellipsis) := r in
  if (length ip <? 16)%nat
  then e ← ellipsis; Some (take e ip ++ replicate (16 - length ip) 0 ++ drop e ip)
  else match ellipsis with Some _ => None | None => Some ip end.

Definition parseIPv6 (l : list Ascii.ascii) : option (list Z) :=
  match l with
  | c :: d :: l' =>
      if Ascii.eqb c ":"%char && Ascii.eqb d ":"%char then
        match l' with
        | [] => Some (replicate 16 0)
        | _ => v6_groups 8 [] (Some O) l' ≫= expand_ellipsis
        end
      else v6_groups 8 [] None l ≫= expand_ellipsis
  | _ => v6_groups 8 [] None l ≫= expand_ellipsis
  end.

(** ** net.ParseIP, [None] for nil

    The first dot or colon decides the family; an address with a zone is nil. *)
Definition v4_mapped (v4 : list Z) : list Z := replicate 10 0 ++ [255; 255] ++ v4.

Fixpoint ip_family (l : list Ascii.ascii) : option bool :=
  match l with
  | [] => None
  | c :: l' =>
      if Ascii.eqb c "."%char then Some true
      else if Ascii.eqb c ":"%char then Some false
      else if Ascii.eqb c "%"%char then None
      else ip_family l'
  end.

Definition ParseIP (s : string) : option (list Z) :=
  let l := bytes s in
  if existsb (Ascii.eqb "%"%char) l then None
  else match ip_family l with
       | Some true => v4_mapped <$> parseIPv4 l
       | Some false => parseIPv6 l
       | None => None
       end.

(** ip.To4() *)
Definition To4 (ip : list Z) : option (list Z) :=
  if (length ip =? 4)%nat then Some ip
  else if (length ip =? 16)%nat && bool_decide (take 12 ip = replicate 10 0 ++ [255; 255]) then Some (drop 12 ip)
  else None.

Definition IsLoopback (ip : list Z) : bool :=
  match To4 ip with
  | Some v4 => bool_decide (head v4 = Some 127)
  | None => bool_decide (ip = replicate 15 0 ++ [1])
  end.

(** ** ip.String() *)
Definition hex_digit (n : Z) : Ascii.ascii :=
  Ascii.ascii_of_nat (Z.to_nat (if n <? 10 then 48 + n else 87 + n)).
(** without leading zeros *)
Definition hex16 (n : Z) : string :=
  of_bytes (hex_digit <$>
    (if n <? 16 then [n] else if n <? 256 then [n / 16; n mod 16]
     else if n <? 4096 then [n / 256; n / 16 mod 16; n mod 16] else [n / 4096; n / 256 mod 16; n / 16 mod 16; n mod 16])).

Fixpoint words16 (ip : list Z) : list Z :=
  match ip with a :: b :: r => (a * 256 + b) :: words16 r | _ => [] end.

Fixpoint zero_run (ws : list Z) : nat :=
  match ws with w :: ws' => if w =? 0 then S (zero_run ws') else O | [] => O end.

(** The first longest run of at least two zero words, as its start and end. *)
Fixpoint longest_run (i : nat) (ws : list Z) (best : nat * nat) : nat * nat :=
  match ws with
  | [] => best
  | _ :: ws' =>
      let l := zero_run ws in
      longest_run (S i) ws' (if (2 <=? l)%nat && (best.2 - best.1 <? l)%nat then (i, (i + l)%nat) else best)
  end.

Fixpoint print_words (i : nat) (run : nat * nat) (ws : list Z) : string :=
  match ws with
  | [] => ""
  | w :: ws' =>
      if (run.1 <=? i)%nat && (i <? run.2)%nat
      then (if (i =? run.1)%nat then "::" else "") +:+ print_words (S i) run ws'
      else (if (i =? 0)%nat || (i =? run.2)%nat then "" else ":") +:+ hex16 w +:+ print_words (S i) run ws'
  end.

Definition ip_String (ip : list Z) : string :=
  match To4 ip with
  | Some v4 => Join (FormatInt <$> v4) "."
  | None => print_words 0 (longest_run 0 (words16 ip) (99, 99)%nat) (words16 ip)
  end.

(** ** Networks *)
Record IPNet := mkNet { nIP : list Z; nMask : list Z }.

(** net.CIDRMask(ones, bits) *)
Definition CIDRMask (ones bits : nat) : list Z :=
  (fun i => let k := Nat.min 8 (ones - 8 * i) in 256 - 2 ^ (8 - Z.of_nat k)) <$> seq 0 (bits / 8).

Definition networkNumberAndMask (n : IPNet) : option (list Z * list Z) :=
  let ip := default (nIP n) (To4 (nIP n)) in
  if (length ip =? 4)%nat then
    if (length (nMask n) =? 4)%nat then Some (ip, nMask n)
    else if (length (nMask n) =? 16)%nat then Some (ip, drop 12 (nMask n)) else None
  else if (length ip =? 16)%nat then (if (length (nMask n) =? 16)%nat then Some (ip, nMask n) else None)
  else None.

(** [n.Contains(ip)] *)
Definition net_Contains (n : IPNet) (ip : list Z) : bool :=
  match networkNumberAndMask n with
  | None => false
  | Some (nn, m) =>
      let ip := default ip (To4 ip) in
      (length ip =? length nn)%nat &&
      forallb (fun '(a, b, k) => Z.land a k =? Z.land b k) (zip_with (fun a '(b, k) => (a, b, k)) nn (zip ip m))
  end.

(** net.ParseCIDR, only the network it returns *)
Definition ParseCIDR (s : string) : option IPNet :=
  i ← IndexByte s "/"%char;
  let addr := stake i s in
  ip ← ParseIP addr;
  let ds := bytes (sdrop (S i) s) in
  n ← (if (length ds =? 0)%nat then None else parse_digits 0 ds);
  let v4 := bool_decide (ip_family (bytes addr) = Some true) in
  let bits := if v4 then 32%nat else 128%nat in
  if Z.of_nat bits <? n then None
  else
    let m := CIDRMask (Z.to_nat n) bits in
    Some (mkNet (zip_with Z.land (if v4 then default ip (To4 ip) else ip) m) m).

(** ** host:port *)
Definition SplitHostPort (s : string) : option (string * string) :=
  i ← LastIndexByte s ":"%char;
  let port := sdrop (S i) s in
  if HasPrefix s "[" then
    e ← IndexByte s "]"%char;
    if (S e =? i)%nat then
      let host := stake (e - 1) (sdrop 1 s) in
      if bool_decide (is_Some (IndexByte (sdrop 1 s) "["%char)) || bool_decide (is_Some (IndexByte (sdrop (S e) s) "]"%char))
      then None else Some (host, port)
    else None
  else
    let host := stake i s in
    if bool_decide (is_Some (IndexByte host ":"%char)) || bool_decide (is_Some (IndexByte s "["%char))
       || bool_decide (is_Some (IndexByte s "]"%char))
    then None else Some (host, port).

Definition JoinHostPort (host port : string) : string :=
  if bool_decide (is_Some (IndexByte host ":"%char)) then "[" +:+ host +:+ "]:" +:+ port else host +:+ ":" +:+ port.

Example parse_v4_ok : ParseIP "192.0.2.7" = Some (v4_mapped [192; 0; 2; 7]). Proof. reflexivity. Qed.
Example parse_v4_zero : ParseIP "192.0.02.7" = None. Proof. reflexivity. Qed.
Example parse_v6_ok : ip_String <$> ParseIP "2001:DB8:0:0::00:7" = Some "2001:db8::7". Proof. reflexivity. Qed.
Example parse_v6_mapped : ip_String <$> ParseIP "::ffff:1.2.3.4" = Some "1.2.3.4". Proof. reflexivity. Qed.
Example print_v6 : ip_String <$> ParseIP "1:0:0:2:0:0:0:3" = Some "1:0:0:2::3". Proof. reflexivity. Qed.
Example print_v6_tail : ip_String <$> ParseIP "fe80:1::" = Some "fe80:1::". Proof. reflexivity. Qed.
Example cidr_contains : match ParseCIDR "10.1.2.3/12", ParseIP "10.15.0.1", ParseIP "10.16.0.1" with
  | Some n, Some a, Some b => net_Contains n a && negb (net_Contains n b) | _, _, _ => false end = true.
Proof. vm_compute. reflexivity. Qed.
Example split_v6 : SplitHostPort "[::1]:8470" = Some ("::1", "8470"). Proof. reflexivity. Qed.
Example split_bare : SplitHostPort "::1" = None. Proof. reflexivity. Qed.

(** ** Addresses are sixteen bytes *)
Definition octet (b : Z) : Prop := 0 <= b <= 255.

Lemma dec_digit_val c : dec_digit c = true -> 0 <= code c - 48 <= 9.
Proof. unfold dec_digit. intros H. bsimp. lia. Qed.

Lemma parse_v4_fields l : forall val digits fields start dot r, parse_v4 l val digits fields start dot = Some r ->
  octet val -> Forall octet fields -> (length fields <= 3)%nat -> length r = 4%nat /\ Forall octet r.
Proof.
  induction l as [|c l IH]; intros val digits fields start dot r; simpl.
  - intros H Hv Hf Hl. destruct (length fields <? 3)%nat eqn:E; [done|]. injection H as <-. apply Nat.ltb_ge in E.
    rewrite length_app. simpl. split; [lia|]. apply Forall_app. split; [done|by apply Forall_singleton].
  - destruct (dec_digit c) eqn:Ed.
    + destruct (_ && _); [done|]. destruct (255 <? _) eqn:E; [done|]. intros H Hv Hf Hl. apply IH in H; auto.
      apply dec_digit_val in Ed. unfold octet in *. bsimp. lia.
    + destruct (Ascii.eqb c "."%char); [|done]. destruct (_ || _); [done|]. destruct (length fields =? 3)%nat eqn:E; [done|].
      intros H Hv Hf Hl. apply Nat.eqb_neq in E. apply IH in H; [done|unfold octet; lia| |].
      * apply Forall_app. split; [done|by apply Forall_singleton].
      * rewrite length_app. simpl. lia.
Qed.

Lemma hex_val_range c v : hex_val c = Some v -> 0 <= v <= 15.
Proof. unfold hex_val. repeat case_match; intros; simplify_eq; bsimp; lia. Qed.

Lemma hex_group_range l : forall off acc n v r, hex_group off acc l = Some (n, v, r) -> (off <= 4)%nat ->
  0 <= acc < 16 ^ Z.of_nat off -> 0 <= v < 65536.
Proof.
  assert (Hb : forall off acc, (off <= 4)%nat -> 0 <= acc < 16 ^ Z.of_nat off -> 0 <= acc < 65536).
  { intros off acc Ho Ha. assert (16 ^ Z.of_nat off <= 16 ^ 4) by (apply Z.pow_le_mono_r; lia). lia. }
  induction l as [|c l IH]; intros off acc n v r; simpl; [intros [= _ <- _]; by apply Hb|].
  destruct (hex_val c) as [d|] eqn:E; [|intros [= _ <- _]; by apply Hb].
  destruct (3 <? off)%nat eqn:E3; [done|]. apply Nat.ltb_ge in E3. intros H Ho Ha. eapply IH in H; [done|lia|].
  apply hex_val_range in E. rewrite Nat2Z.inj_succ, Z.pow_succ_r by lia. lia.
Qed.

Lemma word_octets v : 0 <= v < 65536 -> Forall octet [v / 256; v mod 256].
Proof.
  intros H. pose proof (Z.mod_pos_bound v 256 ltac:(lia)). pose proof (Z.div_mod v 256 ltac:(lia)).
  apply Forall_cons; split; [|apply Forall_singleton]; unfold octet; lia.
Qed.

Lemma v6_groups_octets fuel : forall ip e l r e', v6_groups fuel ip e l = Some (r, e') ->
  (length ip + 2 * fuel = 16)%nat -> Forall octet ip -> (length r <= 16)%nat /\ Forall octet r.
Proof.
  induction fuel as [|fuel IH]; intros ip e l r e'; simpl; [done|]. intros H Hl Hf.
  destruct (hex_group 0 0 l) as [[[off acc] rest]|] eqn:Eh; simpl in H; [|done].
  apply hex_group_range in Eh; [|lia|simpl; lia]. apply word_octets in Eh as Hw.
  destruct (off =? 0)%nat; [done|].
  assert (Hip : Forall octet (ip ++ [acc / 256; acc mod 256]) /\ length (ip ++ [acc / 256; acc mod 256]) = (length ip + 2)%nat).
  { split; [by apply Forall_app|]. rewrite length_app. done. }
  destruct Hip as [Hip Hlen]. destruct rest as [|c rest]; [injection H as <- <-; split; [lia|done]|].
  destruct (Ascii.eqb c "."%char).
  - destruct (_ && _); [done|]. destruct (16 <? length ip + 4)%nat eqn:E16; [done|]. apply Nat.ltb_ge in E16.
    apply bind_Some in H as (v4 & H4 & H). injection H as <- <-. unfold parseIPv4 in H4.
    apply parse_v4_fields in H4 as [Hl4 Ho4]; [|unfold octet; lia|done|simpl; lia].
    rewrite length_app. split; [lia|by apply Forall_app].
  - destruct (negb _); [done|]. destruct rest as [|d rest]; [done|]. destruct (Ascii.eqb d ":"%char).
    + destruct e; [done|]. destruct rest; [injection H as <- <-; split; [lia|done]|].
      apply IH in H; [done|lia|done].
    + apply IH in H; [done|lia|done].
Qed.

Lemma expand_octets r ip : expand_ellipsis r = Some ip -> (length r.1 <= 16)%nat -> Forall octet r.1 ->
  length ip = 16%nat /\ Forall octet ip.
Proof.
  destruct r as [l e]. simpl. intros H Hl Hf. destruct (length l <? 16)%nat eqn:E.
  - apply Nat.ltb_lt in E. destruct e as [e|]; [|done]. injection H as <-. rewrite !length_app, length_replicate, length_take, length_drop.
    split; [lia|]. repeat (apply Forall_app; split); auto using Forall_take, Forall_drop. apply Forall_replicate. unfold octet. lia.
  - destruct e; [done|]. injection H as <-. apply Nat.ltb_ge in E. split; [lia|done].
Qed.

Lemma ParseIP_octets s ip : ParseIP s = Some ip -> length ip = 16%nat /\ Forall octet ip.
Proof.
  unfold ParseIP. destruct (existsb _ _); [done|]. destruct (ip_family (bytes s)) as [[]|]; [| |done].
  - intros (v4 & H & ->)%fmap_Some. unfold parseIPv4 in H.
    apply parse_v4_fields in H as [Hl Ho]; [|unfold octet; lia|done|simpl; lia]. split; [simpl; by rewrite Hl|].
    unfold v4_mapped. repeat (apply Forall_cons; split; [unfold octet; lia|]). done.
  - assert (Hg : forall e l, v6_groups 8 [] e l ≫= expand_ellipsis = Some ip -> length ip = 16%nat /\ Forall octet ip).
    { intros e l (r & Hr & He)%bind_Some. destruct r as [r e']. apply v6_groups_octets in Hr as [Hl Hf]; [|done|done].
      by apply expand_octets in He. }
    unfold parseIPv6. destruct (bytes s) as [|c [|d l]]; [apply Hg|apply Hg|]. destruct (_ && _); [|apply Hg].
    destruct l; [|apply Hg]. intros [= <-]. split; [done|]. change (Forall octet (replicate 16 0)). apply Forall_replicate. unfold octet. lia.
Qed.

(** A bare address trusts itself and nothing else. *)
Definition single_host (ip : list Z) : IPNet :=
  let bits := match To4 ip with Some _ => 32%nat | None => 128%nat end in mkNet ip (CIDRMask bits bits).

Lemma land_octet b : octet b -> Z.land b 255 = b.
Proof. intros Hb. change 255 with (Z.ones 8). rewrite Z.land_ones by lia. apply Z.mod_small. unfold octet in Hb. lia. Qed.

Lemma masked_eq n : forall a b, length a = n -> length b = n -> Forall octet a -> Forall octet b ->
  forallb (fun '(x, y, k) => Z.land x k =? Z.land y k) (zip_with (fun a '(b, k) => (a, b, k)) a (zip b (replicate n 255))) = true <-> b = a.
Proof.
  induction n as [|n IH]; intros [|x a] [|y b]; try done. intros [= Ha] [= Hb] [Hx Hfa]%Forall_cons [Hy Hfb]%Forall_cons.
  simpl. rewrite andb_true_iff, (IH a b), !land_octet, Z.eqb_eq by done. split; [intros [-> ->]; done|intros [= -> ->]; done].
Qed.

Lemma To4_16 ip v4 : length ip = 16%nat -> To4 ip = Some v4 -> ip = v4_mapped v4 /\ length v4 = 4%nat.
Proof.
  intros Hl. unfold To4. rewrite Hl. cbn [Nat.eqb andb]. case_bool_decide as H; [|done]. intros [= <-]. split; [|rewrite length_drop; lia].
  unfold v4_mapped. change (replicate 10 0 ++ [255; 255] ++ ?l)%list with ((replicate 10 0 ++ [255; 255]) ++ l)%list. rewrite <- H.
  by rewrite take_drop.
Qed.

Lemma To4_mapped v4 : length v4 = 4%nat -> To4 (v4_mapped v4) = Some v4.
Proof. intros Hl. unfold To4, v4_mapped. rewrite !length_app, Hl. reflexivity. Qed.

Lemma single_host_exact ip ip' : length ip = 16%nat -> Forall octet ip -> length ip' = 16%nat -> Forall octet ip' ->
  net_Contains (single_host ip) ip' = true <-> ip' = ip.
Proof.
  intros Hl Ho Hl' Ho'. unfold net_Contains, single_host, networkNumberAndMask. cbn [nIP nMask].
  destruct (To4 ip) as [v4|] eqn:E.
  - destruct (To4_16 _ _ Hl E) as [-> H4]. cbn [from_option id]. rewrite H4. cbn [Nat.eqb].
    change (length (CIDRMask 32 32) =? 4)%nat with true. cbn iota.
    destruct (To4 ip') as [w4|] eqn:E'.
    + destruct (To4_16 _ _ Hl' E') as [-> H4']. cbn [from_option id]. rewrite H4', H4. cbn [Nat.eqb andb].
      change (CIDRMask 32 32) with (replicate 4 255). unfold v4_mapped in *.
      apply Forall_app in Ho as [_ Ho]. apply Forall_app in Ho as [_ Ho]. apply Forall_app in Ho' as [_ Ho']. apply Forall_app in Ho' as [_ Ho'].
      rewrite masked_eq by done. split; [by intros ->|]. intros H. by apply app_inv_head in H; apply app_inv_head in H.
    + cbn [from_option id]. rewrite Hl', H4. cbn [Nat.eqb andb]. split; [done|]. intros ->. by rewrite To4_mapped in E'.
  - cbn [from_option id]. rewrite Hl. cbn [Nat.eqb]. change (length (CIDRMask 128 128) =? 16)%nat with true. cbn iota.
    destruct (To4 ip') as [w4|] eqn:E'.
    + destruct (To4_16 _ _ Hl' E') as [-> H4']. cbn [from_option id]. rewrite H4', Hl. cbn [Nat.eqb andb]. split; [done|].
      intros <-. by rewrite To4_mapped in E.
    + cbn [from_option id]. rewrite Hl, Hl'. cbn [Nat.eqb andb]. change (CIDRMask 128 128) with (replicate 16 255). by apply masked_eq.
Qed.
