(* ===== verification/Paths.v ===== *)
(** * Packages [path] and [path/filepath] on Unix, as far as the program uses them

    [Clean] works on the components of a path: a cleaned path is the list of its
    components, written out with slashes. *)
From S2P Require Import Prelude GoStrings.

Definition slash : Ascii.ascii := "/"%char.
Definition IsAbs (p : string) : bool := HasPrefix p "/".

(** One component, on the stack of those before it. *)
Definition clean_step (rooted : bool) (st : list string) (c : string) : list string :=
  if String.eqb c "" || String.eqb c "." then st
  else if String.eqb c ".." then
    match st with
    | x :: st' => if String.eqb x ".." then ".." :: st else st'
    | [] => if rooted then [] else [".."]
    end
  else c :: st.

Definition clean_stack (rooted : bool) (st : list string) (l : list string) : list string := foldl (clean_step rooted) st l.
Definition components (p : string) : list string := rev (clean_stack (IsAbs p) [] (Split p slash)).

Definition unsplit (rooted : bool) (cs : list string) : string :=
  if rooted then "/" +:+ Join cs "/" else match cs with [] => "." | _ => Join cs "/" end.
Definition Clean (p : string) : string := unsplit (IsAbs p) (components p).

Fixpoint path_Join (elems : list string) : string :=
  match elems with
  | [] => ""
  | e :: es => if String.eqb e "" then path_Join es else Clean (Join elems "/")
  end.

(** What follows the common prefix of two lists. *)
Fixpoint strip_common (a b : list string) : list string * list string :=
  match a, b with
  | x :: a', y :: b' => if String.eqb x y then strip_common a' b' else (a, b)
  | _, _ => (a, b)
  end.

(** [filepath.Rel(base, targ)] for two absolute paths, the only ones it is given. *)
Definition Rel (base targ : string) : string :=
  let '(up, down) := strip_common (components base) (components targ) in
  match app (replicate (length up) "..") down with [] => "." | cs => Join cs "/" end.

Definition Base (p : string) : string :=
  if String.eqb p "" then "."
  else match rev (filter (fun c => c <> "") (Split p slash)) with [] => "/" | c :: _ => c end.

(** [Dir]: everything up to the last slash, cleaned. *)
Definition Dir (p : string) : string :=
  match LastIndexByte p slash with None => "." | Some i => Clean (stake (S i) p) end.

(** ** Components of a cleaned path *)
Definition plain (c : string) : Prop := c <> "" /\ c <> "." /\ c <> ".." /\ slash ∉ bytes c.
(** What a clean path is made of: names, after the climbs of a relative one. *)
Definition normal (rooted : bool) (cs : list string) : Prop :=
  exists n names, cs = replicate n ".." ++ names /\ Forall plain names /\ (rooted = true -> n = 0%nat).

Lemma Split_cons s c : exists w ws, Split s c = w :: ws.
Proof. destruct s as [|d s]; simpl; [eauto|]. destruct (Ascii.eqb d c); [eauto|]. destruct (Split s c); eauto. Qed.

Lemma Split_app a c b : Split (a +:+ String c b) c = Split a c ++ Split b c.
Proof.
  induction a as [|d a IH].
  - change ("" +:+ String c b) with (String c b). simpl. by rewrite Ascii.eqb_refl.
  - change (String d a +:+ String c b) with (String d (a +:+ String c b)). simpl. rewrite IH.
    destruct (Ascii.eqb d c); [done|]. destruct (Split_cons a c) as (w & ws & ->). done.
Qed.

Lemma Split_free s c w : w ∈ Split s c -> c ∉ bytes w.
Proof.
  revert w. induction s as [|d s IH]; intros w; simpl.
  - intros ->%list_elem_of_singleton. apply not_elem_of_nil.
  - destruct (Ascii.eqb d c) eqn:E.
    + rewrite elem_of_cons. intros [->|H]; [apply not_elem_of_nil|by apply IH].
    + destruct (Split_cons s c) as (v & vs & Hs). rewrite Hs in *. rewrite elem_of_cons. intros [->|H].
      * unfold bytes. simpl. rewrite elem_of_cons. intros [->|Hc]; [by rewrite Ascii.eqb_refl in E|].
        by apply (IH v); [left|].
      * apply IH. by right.
Qed.

Lemma Split_single w c : c ∉ bytes w -> Split w c = [w].
Proof.
  unfold bytes. induction w as [|d w IH]; [done|]. simpl. rewrite not_elem_of_cons. intros [Hd Hw].
  destruct (Ascii.eqb d c) eqn:E; [by apply Ascii.eqb_eq in E|]. by rewrite IH.
Qed.

Lemma Split_Join cs : cs <> [] -> Forall (fun w => slash ∉ bytes w) cs -> Split (Join cs "/") slash = cs.
Proof.
  induction cs as [|w cs IH]; [done|]. intros _ [Hw Hcs]%Forall_cons. destruct cs as [|v cs]; [by apply Split_single|].
  change (Join (w :: v :: cs) "/") with (w +:+ String slash (Join (v :: cs) "/")).
  rewrite Split_app, IH by done. by rewrite Split_single.
Qed.

Lemma Join_Split s : Join (Split s slash) "/" = s.
Proof.
  induction s as [|c s IH]; [done|]. simpl. destruct (Split_cons s slash) as (w & ws & E). rewrite E in *.
  destruct (Ascii.eqb c slash) eqn:Ec.
  - apply Ascii.eqb_eq in Ec as ->. change (Join ("" :: w :: ws) "/") with (String slash (Join (w :: ws) "/")). by rewrite IH.
  - rewrite <- IH. by destruct ws.
Qed.

Lemma plain_free cs : Forall plain cs -> Forall (fun w => slash ∉ bytes w) cs.
Proof. intros H. eapply Forall_impl; [exact H|]. by intros w (_ & _ & _ & ?). Qed.

Lemma dots_free n : Forall (fun w => slash ∉ bytes w) (replicate n "..").
Proof. apply Forall_replicate. vm_compute. intros H. repeat (apply elem_of_cons in H as [?|H]; [done|]). by apply not_elem_of_nil in H. Qed.

Lemma normal_free rooted cs : normal rooted cs -> Forall (fun w => slash ∉ bytes w) cs.
Proof. intros (n & names & -> & Hp & _). apply Forall_app. split; [apply dots_free|by apply plain_free]. Qed.

(** Names are kept as they are. *)
Lemma clean_names rooted st names : Forall plain names -> clean_stack rooted st names = rev names ++ st.
Proof.
  revert st. induction names as [|w names IH]; intros st; [done|]. intros [(H0 & H1 & H2 & _) Hn]%Forall_cons. simpl.
  unfold clean_step at 1. apply String.eqb_neq in H0, H1, H2. rewrite H0, H1, H2. simpl. rewrite IH by done.
  by rewrite <- app_assoc.
Qed.

Lemma clean_dots n : clean_stack false [] (replicate n "..") = replicate n "..".
Proof.
  induction n as [|n IH]; [done|]. rewrite replicate_S_end at 1. unfold clean_stack in *. rewrite foldl_app, IH. simpl.
  destruct n; [done|]. by rewrite !replicate_S.
Qed.

Lemma normal_step rooted st c : slash ∉ bytes c -> normal rooted (rev st) -> normal rooted (rev (clean_step rooted st c)).
Proof.
  intros Hc (n & names & Hst & Hp & Hn). unfold clean_step.
  destruct (String.eqb c "") eqn:E0; [by exists n, names|]. destruct (String.eqb c ".") eqn:E1; [by exists n, names|]. simpl.
  destruct (String.eqb c "..") eqn:E2.
  - destruct st as [|x st]; simpl in Hst.
    + destruct rooted; [by exists 0%nat, []|]. exists 1%nat, []. by rewrite app_nil_r.
    + destruct names as [|w names _] using rev_ind.
      * rewrite app_nil_r in Hst. assert (x = "..") as ->.
        { assert (Hx : x ∈ replicate n "..") by (rewrite <- Hst; apply elem_of_app; right; by left).
          by apply elem_of_replicate in Hx as [-> _]. }
        simpl. exists (S n), []. rewrite app_nil_r. simpl in Hst. rewrite Hst. split; [by rewrite <- replicate_S_end|].
        split; [done|]. intros Hr. specialize (Hn Hr). subst n. by destruct (rev st).
      * rewrite app_assoc in Hst. apply app_inj_tail in Hst as [Hst ->]. apply Forall_app in Hp as [Hp Hw].
        apply Forall_cons in Hw as [(_ & _ & Hw & _) _]. apply String.eqb_neq in Hw. rewrite Hw. by exists n, names.
  - simpl. exists n, (names ++ [c]). rewrite Hst, app_assoc. split; [done|]. split; [|done]. apply Forall_app. split; [done|].
    apply Forall_singleton. bsimp. done.
Qed.

Lemma normal_stack rooted st l : Forall (fun w => slash ∉ bytes w) l -> normal rooted (rev st) ->
  normal rooted (rev (clean_stack rooted st l)).
Proof. revert st. induction l as [|c l IH]; intros st; [done|]. intros [Hc Hl]%Forall_cons Hst. simpl. apply IH; [done|]. by apply normal_step. Qed.

Lemma components_normal p : normal (IsAbs p) (components p).
Proof.
  apply normal_stack; [|by exists 0%nat, []]. apply Forall_forall. intros w Hw. by eapply Split_free.
Qed.

Lemma clean_stack_app rooted st a b : clean_stack rooted st (a ++ b) = clean_stack rooted (clean_stack rooted st a) b.
Proof. apply foldl_app. Qed.

Lemma clean_normal rooted cs : normal rooted cs -> clean_stack rooted [] cs = rev cs.
Proof.
  intros (n & names & -> & Hp & Hn). rewrite clean_stack_app. destruct rooted.
  - rewrite Hn by done. by rewrite clean_names, app_nil_r.
  - rewrite clean_dots, clean_names, rev_app_distr by done. f_equal.
    clear. induction n as [|n IH]; [done|]. rewrite replicate_S_end at 1. simpl. rewrite IH at 1. done.
Qed.

Lemma components_unsplit rooted cs : normal rooted cs ->
  IsAbs (unsplit rooted cs) = rooted /\ components (unsplit rooted cs) = cs.
Proof.
  intros Hn. pose proof (normal_free _ _ Hn) as Hf. unfold components, unsplit. destruct rooted.
  - split; [by apply (HasPrefix_app "/")|]. replace (IsAbs ("/" +:+ Join cs "/")) with true by (symmetry; by apply (HasPrefix_app "/")).
    change ("/" +:+ Join cs "/") with ("" +:+ String slash (Join cs "/")). rewrite Split_app.
    destruct cs as [|c cs]; [done|]. rewrite Split_Join by done. change (Split "" slash ++ ?l)%list with ("" :: l).
    change (clean_stack true [] ("" :: ?l)) with (clean_stack true [] l). rewrite clean_normal by done. apply rev_involutive.
  - destruct cs as [|c cs]; [done|]. assert (Habs : IsAbs (Join (c :: cs) "/") = false).
    { destruct Hn as (n & names & Hc & Hp & _). apply Forall_cons in Hf as [Hs _].
      assert (c <> "") as Hne.
      { destruct n; simpl in Hc; [|by injection Hc as -> _]. destruct names; [done|]. injection Hc as -> _. by apply Forall_cons in Hp as [(? & _) _]. }
      destruct c as [|d c]; [done|]. unfold IsAbs. destruct (HasPrefix _ _) eqn:E; [|done]. exfalso. apply HasPrefix_spec in E as [r E].
      apply Hs. assert (d = slash) as -> by (destruct cs; by injection E). by left. }
    split; [done|]. rewrite Habs, Split_Join, clean_normal by done. apply rev_involutive.
Qed.

Lemma Clean_components p : IsAbs (Clean p) = IsAbs p /\ components (Clean p) = components p.
Proof. apply components_unsplit, components_normal. Qed.

Lemma Clean_idem p : Clean (Clean p) = Clean p.
Proof. unfold Clean at 1. destruct (Clean_components p) as [-> ->]. done. Qed.

Lemma Join_dot base : IsAbs base = true -> components (path_Join [base; "."]) = components base /\ IsAbs (path_Join [base; "."]) = true.
Proof.
  intros Ha. destruct base as [|c base]; [done|]. cbn [path_Join]. change (String.eqb (String c base) "") with false. cbv iota.
  destruct (Clean_components (Join [String c base; "."] "/")) as [-> ->].
  assert (Join [String c base; "."] "/" = String c base +:+ String slash ".") as -> by done.
  assert (IsAbs (String c base +:+ String slash ".") = true) as E.
  { revert Ha. unfold IsAbs. change (String c base +:+ String slash ".") with (String c (base +:+ String slash ".")). cbn [HasPrefix]. by destruct base. }
  split; [|exact E]. unfold components. rewrite E, Ha, Split_app, clean_stack_app. reflexivity.
Qed.

Lemma strip_common_app a b : strip_common a (a ++ b) = ([], b).
Proof. induction a as [|x a IH]; [by destruct b|]. simpl. by rewrite String.eqb_refl. Qed.

Lemma strip_common_up a b : (strip_common a b).1 = [] -> exists r, b = a ++ r.
Proof.
  revert b. induction a as [|x a IH]; intros b; [by exists b|]. destruct b as [|y b]; simpl; [done|].
  destruct (String.eqb x y) eqn:E; [|done]. apply String.eqb_eq in E as ->. intros H. destruct (IH b H) as [r ->]. by exists r.
Qed.

Lemma Rel_outside base targ : (forall r, components targ <> components base ++ r) -> HasPrefix (Rel base targ) ".." = true.
Proof.
  intros H. unfold Rel. destruct (strip_common _ _) as [up down] eqn:E. destruct up as [|u up].
  - destruct (strip_common_up (components base) (components targ)) as [r Hr]; [by rewrite E|by destruct (H r)].
  - simpl. destruct (replicate (length up) ".." ++ down); [done|]. apply HasPrefix_spec. by eexists.
Qed.

Lemma Rel_inside base targ r : components targ = components base ++ r -> Rel base targ = match r with [] => "." | _ => Join r "/" end.
Proof. intros E. unfold Rel. rewrite E, strip_common_app. by destruct r. Qed.

(** Joining names to a path stays below it. *)
Lemma Join_below base names : base <> "" -> names <> [] -> Forall plain names ->
  IsAbs (path_Join [base; Join names "/"]) = IsAbs base /\
  components (path_Join [base; Join names "/"]) = components base ++ names.
Proof.
  intros Hb Hn Hp. cbn [path_Join]. destruct (String.eqb base "") eqn:E; [by apply String.eqb_eq in E|].
  change (Join [base; ?x] "/") with (base +:+ String slash x).
  destruct (Clean_components (base +:+ String slash (Join names "/"))) as [-> ->].
  assert (Ha : IsAbs (base +:+ String slash (Join names "/")) = IsAbs base) by (destruct base as [|c b]; [done|]; unfold IsAbs; simpl; f_equal; by destruct b, (Join names "/")).
  split; [done|]. unfold components. rewrite Ha, Split_app, clean_stack_app, Split_Join, clean_names, rev_app_distr, rev_involutive
    by auto using plain_free. done.
Qed.
