(* ===== verification/Password.v ===== *)
(** * Password hashes (internal/auth/password.go)

    The PHC string an Argon2id hash is stored in, written and read back.  The
    hash itself, golang.org/x/crypto/argon2's IDKey, is a parameter; base64 and
    the two Sscanf patterns are the standard library's. *)
From S2P Require Import Prelude GoStrings.

(** ** base64.RawStdEncoding, on bytes as integers *)
Definition b64_char (v : Z) : Ascii.ascii :=
  Ascii.ascii_of_nat (Z.to_nat (if v <? 26 then 65 + v else if v <? 52 then 71 + v
    else if v <? 62 then v - 4 else if v =? 62 then 43 else 47)).

Definition b64_val (c : Ascii.ascii) : option Z :=
  let n := code c in
  if (65 <=? n) && (n <=? 90) then Some (n - 65)
  else if (97 <=? n) && (n <=? 122) then Some (n - 71)
  else if (48 <=? n) && (n <=? 57) then Some (n + 4)
  else if n =? 43 then Some 62 else if n =? 47 then Some 63 else None.

(** Three bytes as four six-bit values, the last group shortened. *)
Fixpoint b64_groups (l : list Z) : list Z :=
  match l with
  | a :: b :: c :: l' =>
      let n := a * 65536 + b * 256 + c in n / 262144 :: n / 4096 mod 64 :: n / 64 mod 64 :: n mod 64 :: b64_groups l'
  | [a; b] => let n := a * 65536 + b * 256 in [n / 262144; n / 4096 mod 64; n / 64 mod 64]
  | [a] => let n := a * 65536 in [n / 262144; n / 4096 mod 64]
  | [] => []
  end.
Definition b64_encode (l : list Z) : string := of_bytes (b64_char <$> b64_groups l).

(** Trailing bits that encode nothing are not checked. *)
Fixpoint b64_ungroup (l : list Z) : option (list Z) :=
  match l with
  | a :: b :: c :: d :: l' =>
      let n := a * 262144 + b * 4096 + c * 64 + d in
      r ← b64_ungroup l'; Some (n / 65536 :: n / 256 mod 256 :: n mod 256 :: r)
  | [a; b; c] => let n := a * 262144 + b * 4096 + c * 64 in Some [n / 65536; n / 256 mod 256]
  | [a; b] => let n := a * 262144 + b * 4096 in Some [n / 65536]
  | [_] => None
  | [] => Some []
  end.
(** Line ends inside the input are skipped. *)
Definition b64_decode (s : string) : option (list Z) :=
  vs ← mapM b64_val (filter (fun c => code c <> 10 /\ code c <> 13) (bytes s)); b64_ungroup vs.

(** ** fmt.Sscanf, for patterns of literals and %d *)
Fixpoint strip_lit (lit l : list Ascii.ascii) : option (list Ascii.ascii) :=
  match lit, l with
  | [], _ => Some l
  | c :: lit', d :: l' => if Ascii.eqb c d then strip_lit lit' l' else None
  | _ :: _, [] => None
  end.

Definition is_blank (c : Ascii.ascii) : bool := (code c =? 32) || (code c =? 9) || (code c =? 11) || (code c =? 12) || (code c =? 13).
Fixpoint skip_blank (l : list Ascii.ascii) : list Ascii.ascii :=
  match l with c :: l' => if is_blank c then skip_blank l' else l | [] => [] end.

Fixpoint scan_digits (acc : Z) (seen : bool) (l : list Ascii.ascii) : option Z * list Ascii.ascii :=
  match l with
  | c :: l' => if (48 <=? code c) && (code c <=? 57) then scan_digits (acc * 10 + (code c - 48)) true l'
               else (if seen then Some acc else None, l)
  | [] => (if seen then Some acc else None, [])
  end.

(** %d into an unsigned integer of [bits] bits *)
Definition scan_uint (bits : Z) (l : list Ascii.ascii) : option (Z * list Ascii.ascii) :=
  match scan_digits 0 false (skip_blank l) with
  | (Some n, r) => if n <? 2 ^ bits then Some (n, r) else None
  | (None, _) => None
  end.
(** %d into an int *)
Definition scan_int (l : list Ascii.ascii) : option (Z * list Ascii.ascii) :=
  let l := skip_blank l in
  let '(sign, l) := match l with c :: r => if code c =? 45 then (-1, r) else if code c =? 43 then (1, r) else (1, l) | [] => (1, l) end in
  match scan_digits 0 false l with
  | (Some n, r) => let v := sign * n in if (int64_min <=? v) && (v <=? int64_max) then Some (v, r) else None
  | (None, _) => None
  end.

(** ** The hash *)
Definition argonVersion : Z := 19.
Definition argonTime : Z := 3.
Definition argonMemory : Z := 64 * 1024.
Definition argonThreads : Z := 2.
Definition argonKeyLen : Z := 32.
Definition argonSaltLen : nat := 16.

(** argon2.IDKey: password, salt, time, memory, threads, key length *)
Definition kdf : Type := list Z -> list Z -> Z -> Z -> Z -> Z -> list Z.
Definition to_bytes (s : string) : list Z := code <$> bytes s.

Section Argon.
Context (IDKey : kdf).

(** [salt] is what rand.Read put there. *)
Definition HashPassword (salt : list Z) (password : string) : string :=
  "$argon2id$v=" +:+ FormatInt argonVersion +:+ "$m=" +:+ FormatInt argonMemory +:+ ",t=" +:+ FormatInt argonTime
  +:+ ",p=" +:+ FormatInt argonThreads +:+ "$" +:+ b64_encode salt +:+ "$" +:+
  b64_encode (IDKey (to_bytes password) salt argonTime argonMemory argonThreads argonKeyLen).

(** m=%d,t=%d,p=%d *)
Definition scan_params (l : list Ascii.ascii) : option (Z * Z * Z) :=
  l ← strip_lit (bytes "m=") l; '(m, l) ← scan_uint 32 l;
  l ← strip_lit (bytes ",t=") l; '(t, l) ← scan_uint 32 l;
  l ← strip_lit (bytes ",p=") l; '(p, _) ← scan_uint 8 l;
  Some (m, t, p).

(** [None] is ErrInvalidHash. *)
Definition VerifyPassword (password encoded : string) : option bool :=
  match Split encoded "$"%char with
  | [_; alg; ver; params; salt64; hash64] =>
      if String.eqb alg "argon2id" then
        v ← strip_lit (bytes "v=") (bytes ver); _ ← scan_int v;
        '(memory, time, threads) ← scan_params (bytes params);
        salt ← b64_decode salt64;
        want ← b64_decode hash64;
        Some (bool_decide (IDKey (to_bytes password) salt time memory threads (Z.of_nat (length want)) = want))
      else None
  | _ => None
  end.
End Argon.

(** ** Round trips *)
Definition is_byte (b : Z) : Prop := 0 <= b < 256.

Lemma b64_val_char v : 0 <= v < 64 -> b64_val (b64_char v) = Some v.
Proof.
  intros Hv. assert (H : forallb (fun n => bool_decide (b64_val (b64_char (Z.of_nat n)) = Some (Z.of_nat n))) (seq 0 64) = true)
    by (vm_compute; reflexivity).
  rewrite forallb_forall in H. specialize (H (Z.to_nat v)). rewrite in_seq, Z2Nat.id in H by lia.
  apply bool_decide_eq_true in H; [done|lia].
Qed.

(** No character of the alphabet is white space or a dollar sign. *)
Lemma b64_char_plain v : 0 <= v < 64 -> code (b64_char v) <> 10 /\ code (b64_char v) <> 13 /\ b64_char v <> "$"%char.
Proof.
  intros Hv. assert (H : forallb (fun n => let c := b64_char (Z.of_nat n) in
    bool_decide (code c <> 10 /\ code c <> 13 /\ c <> "$"%char)) (seq 0 64) = true) by (vm_compute; reflexivity).
  rewrite forallb_forall in H. specialize (H (Z.to_nat v)). rewrite in_seq, Z2Nat.id in H by lia.
  apply bool_decide_eq_true in H; [done|lia].
Qed.

Lemma list_ind3 {A} (P : list A -> Prop) :
  P [] -> (forall a, P [a]) -> (forall a b, P [a; b]) -> (forall a b c l, P l -> P (a :: b :: c :: l)) -> forall l, P l.
Proof.
  intros H0 H1 H2 H3. fix IH 1. intros [|a [|b [|c l]]]; [exact H0|apply H1|apply H2|apply H3, IH].
Qed.

Lemma b64_groups_range l : Forall is_byte l -> Forall (fun v => 0 <= v < 64) (b64_groups l).
Proof.
  unfold is_byte. induction l as [|a|a b|a b c l IH] using list_ind3; intros H; cbn [b64_groups]; rewrite ?Forall_cons in *;
    repeat split; try apply Forall_nil_2; try apply IH; try tauto; try (Z.to_euclidean_division_equations; lia).
Qed.

Lemma b64_ungroup_groups l : Forall is_byte l -> b64_ungroup (b64_groups l) = Some l.
Proof.
  unfold is_byte. induction l as [|a|a b|a b c l IH] using list_ind3; intros H; [done|..]; rewrite !Forall_cons in H.
  - cbn -[Z.div Z.modulo Z.mul Z.add]. do 2 f_equal. Z.to_euclidean_division_equations; lia.
  - cbn -[Z.div Z.modulo Z.mul Z.add]. do 3 f_equal; [..|f_equal]; Z.to_euclidean_division_equations; lia.
  - cbn -[Z.div Z.modulo Z.mul Z.add]. rewrite IH by tauto. cbn -[Z.div Z.modulo Z.mul Z.add]. f_equal.
    f_equal; [|f_equal; [|f_equal]]; Z.to_euclidean_division_equations; lia.
Qed.

(** base64 decoding undoes encoding on every sequence of bytes. *)
Lemma b64_decode_encode l : Forall is_byte l -> b64_decode (b64_encode l) = Some l.
Proof.
  intros H. unfold b64_decode, b64_encode. rewrite bytes_of_bytes.
  pose proof (b64_groups_range l H) as Hg.
  assert (filter (fun c => code c <> 10 /\ code c <> 13) (b64_char <$> b64_groups l) = b64_char <$> b64_groups l) as ->.
  { induction Hg as [|v vs Hv _ IH]; [done|]. rewrite fmap_cons, filter_cons_True, IH; [done|].
    destruct (b64_char_plain v Hv) as (? & ? & _). done. }
  assert (mapM b64_val (b64_char <$> b64_groups l) = Some (b64_groups l)) as ->; [|by apply b64_ungroup_groups].
  induction Hg as [|v vs Hv _ IH]; [done|]. cbn. by rewrite b64_val_char, IH.
Qed.

(** A word without the separator in front of it. *)
Lemma Split_word w c s : (forall x, x ∈ bytes w -> x <> c) -> Split (w +:+ String c s) c = w :: Split s c.
Proof.
  induction w as [|d w IH]; intros H.
  - change ("" +:+ String c s) with (String c s). cbn. by rewrite Ascii.eqb_refl.
  - change (String d w +:+ ?x) with (String d (w +:+ x)). cbn [Split].
    rewrite IH by (intros x Hx; apply H; by right). destruct (Ascii.eqb d c) eqn:E; [|done].
    apply Ascii.eqb_eq in E. exfalso. by apply (H d); [left|].
Qed.
Lemma Split_last w c : (forall x, x ∈ bytes w -> x <> c) -> Split w c = [w].
Proof.
  induction w as [|d w IH]; intros H; [done|]. cbn [Split]. rewrite IH by (intros x Hx; apply H; by right).
  destruct (Ascii.eqb d c) eqn:E; [|done]. apply Ascii.eqb_eq in E. exfalso. by apply (H d); [left|].
Qed.

Lemma b64_encode_no_dollar l x : Forall is_byte l -> x ∈ bytes (b64_encode l) -> x <> "$"%char.
Proof.
  intros H. unfold b64_encode. rewrite bytes_of_bytes. intros (v & -> & Hv)%list_elem_of_fmap.
  pose proof (b64_groups_range l H) as Hg. rewrite Forall_forall in Hg. by apply b64_char_plain, Hg.
Qed.

(** a stored hash verifies exactly the passwords that derive it.  For every
    password and salt, checking any password against the string [HashPassword] wrote
    reads back the salt and the parameters it was made with and answers whether the
    two passwords derive the same key: the right one is always accepted, and a wrong
    one only on a collision of the hash. *)
Theorem password_round_trip (IDKey : kdf) salt p q :
  Forall is_byte salt ->
  (forall pw s, Forall is_byte (IDKey pw s argonTime argonMemory argonThreads argonKeyLen) /\
     Z.of_nat (length (IDKey pw s argonTime argonMemory argonThreads argonKeyLen)) = argonKeyLen) ->
  VerifyPassword IDKey q (HashPassword IDKey salt p) =
    Some (bool_decide (IDKey (to_bytes q) salt argonTime argonMemory argonThreads argonKeyLen =
                       IDKey (to_bytes p) salt argonTime argonMemory argonThreads argonKeyLen)).
Proof.
  intros Hsalt Hkey. destruct (Hkey (to_bytes p) salt) as [Hb Hlen].
  set (key := IDKey (to_bytes p) salt argonTime argonMemory argonThreads argonKeyLen) in *.
  unfold VerifyPassword.
  assert (Split (HashPassword IDKey salt p) "$"%char =
    [""; "argon2id"; "v=19"; "m=65536,t=3,p=2"; b64_encode salt; b64_encode key]) as ->.
  { unfold HashPassword. fold key.
    change (Split (String "$" ("argon2id" +:+ String "$" ("v=19" +:+ String "$" ("m=65536,t=3,p=2" +:+ String "$"
      (b64_encode salt +:+ String "$" (b64_encode key)))))) "$"%char = [""; "argon2id"; "v=19"; "m=65536,t=3,p=2"; b64_encode salt; b64_encode key]).
    change (String "$" ?s) with ("" +:+ String "$" s) at 1.
    rewrite !Split_word; [|..]; [rewrite Split_last; [done|intros x; by apply b64_encode_no_dollar]|intros x; by apply b64_encode_no_dollar|..];
      intros x Hx E; subst x; revert Hx; by apply (bool_decide_unpack _). }
  change (String.eqb "argon2id" "argon2id") with true. cbv iota.
  change (strip_lit (bytes "v=") (bytes "v=19")) with (Some (bytes "19")).
  change (scan_params (bytes "m=65536,t=3,p=2")) with (Some (argonMemory, argonTime, argonThreads)).
  cbn [mbind option_bind]. change (scan_int (bytes "19")) with (Some (19, @nil Ascii.ascii)). cbn [mbind option_bind].
  rewrite !b64_decode_encode by done. cbn [mbind option_bind]. by rewrite Hlen.
Qed.

(** A toy key derivation: 32 bytes of the password, zero padded. *)
Definition toy_kdf : kdf := fun pw _ _ _ _ _ => (fun i => default 0 (pw !! i) mod 256) <$> seq 0 32.

Example password_round_trip_witness :
  VerifyPassword toy_kdf "correct horse" (HashPassword toy_kdf (replicate 16 7) "correct horse") = Some true /\
  VerifyPassword toy_kdf "battery staple" (HashPassword toy_kdf (replicate 16 7) "correct horse") = Some false.
Proof.
  assert (Hs : Forall is_byte (replicate 16 7)) by (apply Forall_replicate; unfold is_byte; lia).
  assert (Hk : forall pw s, Forall is_byte (toy_kdf pw s argonTime argonMemory argonThreads argonKeyLen) /\
     Z.of_nat (length (toy_kdf pw s argonTime argonMemory argonThreads argonKeyLen)) = argonKeyLen).
  { intros pw s. split; [|unfold toy_kdf; by rewrite length_fmap, length_seq].
    apply Forall_fmap, Forall_forall. intros i _. unfold is_byte, compose. apply Z.mod_pos_bound. lia. }
  split; rewrite (password_round_trip toy_kdf _ _ _ Hs Hk); vm_compute; reflexivity.
Defined.
