(* ===== verification/Floats.v ===== *)
(** * float64 (what the source uses of it)

    IEEE 754 binary64 through the Standard Library's specification floats:
    conversions, the four operations, comparisons, and the fixed-point rendering
    of fmt's %.0f and %.1f verbs. *)
From Stdlib Require Import SpecFloat Bool.
From S2P Require Import Prelude GoStrings.

Definition float64 : Set := spec_float.

(** float64(n) for an integer n, rounded to nearest even. *)
Definition of_Z (n : Z) : float64 := binary_normalize 53 1024 n 0 false.
Definition fadd : float64 -> float64 -> float64 := SFadd 53 1024.
Definition fsub : float64 -> float64 -> float64 := SFsub 53 1024.
Definition fmul : float64 -> float64 -> float64 := SFmul 53 1024.
Definition fdiv : float64 -> float64 -> float64 := SFdiv 53 1024.
(** a < b, a > b, a <= b: false when either is NaN *)
Definition flt (a b : float64) : bool := SFltb a b.
Definition fgt (a b : float64) : bool := SFltb b a.
Definition fle (a b : float64) : bool := SFleb a b.
Definition fzero : float64 := S754_zero false.

#[export] Instance float64_eq_dec : EqDecision float64.
Proof. intros a b. unfold float64 in *. unfold Decision. decide equality; (apply Z.eq_dec || apply Pos.eq_dec || apply bool_dec). Defined.

(** The magnitude m * 2^e in units of 1/10^prec, rounded half to even. *)
Definition scaled (prec : Z) (m : positive) (e : Z) : Z :=
  let n := Zpos m * 10 ^ prec in
  if 0 <=? e then n * 2 ^ e
  else
    let d := 2 ^ (- e) in
    let q := n / d in let r := n mod d in
    if (2 * r <? d) || ((2 * r =? d) && Z.even q) then q else q + 1.

Definition pad_left (n : nat) (s : string) : string :=
  of_bytes (repeat "0"%char (n - String.length s) ++ bytes s).

(** %.<prec>f *)
Definition FormatFixed (prec : Z) (f : float64) : string :=
  let body z :=
    if prec =? 0 then FormatInt z
    else FormatInt (z / 10 ^ prec) +:+ "." +:+ pad_left (Z.to_nat prec) (FormatInt (z mod 10 ^ prec)) in
  match f with
  | S754_nan => "NaN"
  | S754_infinity s => if s then "-Inf" else "+Inf"
  | S754_zero s => (if s then "-" else "") +:+ body 0
  | S754_finite s m e => (if s then "-" else "") +:+ body (scaled prec m e)
  end.

(** Conversion to an integer truncates toward zero; out of range it is left to
    the implementation, here the wrap-around of amd64. *)
Definition trunc (f : float64) : Z :=
  match f with
  | S754_finite s m e =>
      let n := if 0 <=? e then Zpos m * 2 ^ e else Zpos m / 2 ^ (- e) in
      if s then - n else n
  | _ => 0
  end.
Definition to_uint64 (f : float64) : Z := trunc f mod 2 ^ 64.

(** d.Seconds() *)
Definition Seconds (d : Z) : float64 :=
  fadd (of_Z (Z.quot d second)) (fdiv (of_Z (Z.rem d second)) (of_Z (10 ^ 9))).

Example floats_ex :
  FormatFixed 1 (fdiv (of_Z 10) (of_Z 3)) = "3.3" /\ FormatFixed 1 (fdiv (of_Z 1) (of_Z 4)) = "0.2" /\
  FormatFixed 0 (of_Z 250) = "250" /\ trunc (Seconds (90 * second + 500)) = 90.
Proof. repeat split; vm_compute; reflexivity. Qed.

(** ** Comparisons *)

Lemma flt_irrefl a : flt a a = false.
Proof.
  unfold flt, SFltb, SFcompare. destruct a as [s|s| |s m e]; try done; destruct s; try done.
  - rewrite Z.compare_refl. unfold CompOpp. by rewrite Pos.compare_cont_refl.
  - rewrite Z.compare_refl. by rewrite Pos.compare_cont_refl.
Qed.
