(* ===== verification/Config.v ===== *)
(** * Configuration (internal/config/config.go)

    Every setting comes from a command-line flag, the environment, the config file
    or a default, in that order.  The environment, the files and the operating
    system are parameters; so is the list of the flags given, which package [flag]
    has already typed (it ends the process on one it cannot). *)
From S2P Require Import Prelude GoStrings Floats NetIP Paths.

(** ** Durations: [time.ParseDuration] *)
Definition two63 : Z := 2 ^ 63.

Fixpoint leadingInt (x : Z) (l : list Ascii.ascii) : option (Z * list Ascii.ascii) :=
  match l with
  | c :: l' =>
      if dec_digit c then
        if two63 / 10 <? x then None
        else let x' := x * 10 + (code c - 48) in if two63 <? x' then None else leadingInt x' l'
      else Some (x, l)
  | [] => Some (x, [])
  end.

Fixpoint leadingFraction (x : Z) (scale : float64) (over : bool) (l : list Ascii.ascii) : Z * float64 * list Ascii.ascii :=
  match l with
  | c :: l' =>
      if dec_digit c then
        if over || ((two63 - 1) / 10 <? x) || (two63 <? x * 10 + (code c - 48)) then leadingFraction x scale true l'
        else leadingFraction (x * 10 + (code c - 48)) (fmul scale (of_Z 10)) false l'
      else (x, scale, l)
  | [] => (x, scale, [])
  end.

Fixpoint span_unit (l : list Ascii.ascii) : list Ascii.ascii * list Ascii.ascii :=
  match l with
  | c :: l' => if Ascii.eqb c "."%char || dec_digit c then ([], l) else let '(u, r) := span_unit l' in (c :: u, r)
  | [] => ([], [])
  end.

Definition unit_of (u : list Z) : option Z :=
  if bool_decide (u = [110; 115]) then Some 1
  else if bool_decide (u = [117; 115]) || bool_decide (u = [0xC2; 0xB5; 115]) || bool_decide (u = [0xCE; 0xBC; 115]) then Some 1000
  else if bool_decide (u = [109; 115]) then Some (10 ^ 6)
  else if bool_decide (u = [115]) then Some second
  else if bool_decide (u = [109]) then Some minute
  else if bool_decide (u = [104]) then Some hour
  else None.

(** Every round takes at least one byte. *)
Fixpoint parse_duration (fuel : nat) (d : Z) (l : list Ascii.ascii) : option Z :=
  match fuel, l with
  | _, [] => Some d
  | O, _ => None
  | S fuel', c :: _ =>
      if negb (Ascii.eqb c "."%char || dec_digit c) then None
      else
        '(v, l1) ← leadingInt 0 l;
        let pre := negb (length l1 =? length l)%nat in
        let '(f, scale, l2, post) :=
          match l1 with
          | p :: l1' => if Ascii.eqb p "."%char
                        then let '(f, scale, l2) := leadingFraction 0 (of_Z 1) false l1' in
                             (f, scale, l2, negb (length l2 =? length l1')%nat)
                        else (0, of_Z 1, l1, false)
          | [] => (0, of_Z 1, l1, false)
          end in
        if negb pre && negb post then None
        else
          let '(u, l3) := span_unit l2 in
          unit ← (match u with [] => None | _ => unit_of (code <$> u) end);
          if two63 / unit <? v then None
          else
            let v := v * unit in
            let v' := if 0 <? f then (v + to_uint64 (fmul (of_Z f) (fdiv (of_Z unit) scale))) mod 2 ^ 64 else v in
            if (0 <? f) && (two63 <? v') then None
            else
              let d' := (d + v') mod 2 ^ 64 in
              if two63 <? d' then None else parse_duration fuel' d' l3
  end.

Definition ParseDuration (s : string) : option Z :=
  let '(neg, l) := match bytes s with
                   | c :: l => if Ascii.eqb c "-"%char then (true, l) else if Ascii.eqb c "+"%char then (false, l) else (false, c :: l)
                   | [] => (false, [])
                   end in
  match l with
  | [] => None
  | [c] => if Ascii.eqb c "0"%char then Some 0 else None
  | _ =>
      d ← parse_duration (length l) 0 l;
      if neg : bool then Some (- d) else if two63 - 1 <? d then None else Some d
  end.

Example ParseDuration_ex : ParseDuration "1h15m30.5s" = Some (hour + 15 * minute + 30 * second + 5 * 10 ^ 8)
  /\ ParseDuration "7d" = None /\ ParseDuration "-90s" = Some (- 90 * second) /\ ParseDuration "15" = None.
Proof. vm_compute. done. Qed.

(** ** The config file *)
Definition cut_eq (s : string) : option (string * string) := i ← IndexByte s "="%char; Some (stake i s, sdrop (S i) s).

(** strings.Trim of both kinds of quote *)
Definition is_quote (c : Ascii.ascii) : bool := (code c =? 34) || (code c =? 39).
Fixpoint drop_quotes (l : list Ascii.ascii) : list Ascii.ascii :=
  match l with c :: l' => if is_quote c then drop_quotes l' else l | [] => [] end.
Definition unquote (s : string) : string := of_bytes (rev (drop_quotes (rev (drop_quotes (bytes s))))).

Definition newline : Ascii.ascii := Ascii.ascii_of_nat 10.

(** One line: nothing, a warning, or a setting. *)
Inductive file_line := LBlank | LWarn | LSet (k v : string).
Definition parse_line (raw : string) : file_line :=
  let line := TrimSpace raw in
  if String.eqb line "" || HasPrefix line "#" then LBlank
  else match cut_eq (TrimPrefix line "export ") with
       | None => LWarn
       | Some (k, v) =>
           let k := TrimSpace k in
           if String.eqb k "" then LWarn else LSet k (unquote (TrimSpace v))
       end.

(** The settings and the numbers of the lines warned about. *)
Fixpoint parse_lines (n : Z) (ls : list string) (out : gmap string string) (warnings : list Z) : gmap string string * list Z :=
  match ls with
  | [] => (out, warnings)
  | raw :: ls' =>
      match parse_line raw with
      | LBlank => parse_lines (n + 1) ls' out warnings
      | LWarn => parse_lines (n + 1) ls' out (warnings ++ [n])
      | LSet k v => parse_lines (n + 1) ls' (<[k := v]> out) warnings
      end
  end.
Definition loadConfigFile (data : string) : gmap string string * list Z := parse_lines 1 (Split data newline) ∅ [].

(** ** Values *)
Definition lower_byte (c : Ascii.ascii) : Ascii.ascii := if (65 <=? code c) && (code c <=? 90) then Ascii.ascii_of_nat (Z.to_nat (code c + 32)) else c.

(** The words strings.ToLower is compared with hold no letter that a rune outside
    ASCII is folded to, so folding ASCII decides the same. *)
Definition parse_switch (v : string) : option bool :=
  let w := of_bytes (lower_byte <$> bytes v) in
  if one_of w ["1"; "true"; "yes"; "on"] then Some true
  else if one_of w ["0"; "false"; "no"; "off"] then Some false
  else None.

Definition splitCommaList (raw : string) : list string := filter (fun p => p <> "") (TrimSpace <$> Split raw ","%char).

Inductive CfgErr :=
  | EConfigFile | EBadSettings (keys : list string) | EACMEURL | EBadCIDR (part : string) | EBadProxyIP (part : string)
  | EPrefixTooLong | EBadPrefix (raw : string) | EPublicURL | ETLSHalf | ETwoCertificates | EACMEDomainIsIP (d : string)
  | EMkdir | ESecure.

Fixpoint parse_nets (parts : list string) : result CfgErr (list IPNet) :=
  match parts with
  | [] => Ok []
  | p :: rest =>
      let part := TrimSpace p in
      if String.eqb part "" then parse_nets rest
      else
        n ← (if Contains part "/" then match ParseCIDR part with Some n => Ok n | None => Err (EBadCIDR part) end
             else match ParseIP part with
                  | None => Err (EBadProxyIP part)
                  | Some ip => let bits := match To4 ip with Some _ => 32%nat | None => 128%nat end in
                               Ok (mkNet ip (CIDRMask bits bits))
                  end);
        ns ← parse_nets rest; Ok (n :: ns)
  end.
Definition parseCIDRs (raw : string) : result CfgErr (list IPNet) := parse_nets (Split raw ","%char).

Definition maxPathPrefix : nat := 256.
Definition unreserved (c : Ascii.ascii) : bool :=
  let n := code c in
  ((97 <=? n) && (n <=? 122)) || ((65 <=? n) && (n <=? 90)) || ((48 <=? n) && (n <=? 57)) ||
  (n =? 45) || (n =? 46) || (n =? 95) || (n =? 126).
Definition prefix_segment (seg : string) : bool :=
  negb (one_of seg [""; "."; ".."]) && forallb unreserved (bytes seg).

Definition TrimSuffix (s p : string) : string := if HasSuffix s p then stake (String.length s - String.length p) s else s.

Definition NormalizePathPrefix (raw : string) : result CfgErr string :=
  let p := TrimSpace raw in
  if (maxPathPrefix <? String.length p)%nat then Err EPrefixTooLong
  else
    let p := if HasPrefix p "/" then p else "/" +:+ p in
    let p := TrimSuffix p "/" in
    if String.eqb p "" then Ok ""
    else if forallb prefix_segment (Split (sdrop 1 p) slash) then Ok p else Err (EBadPrefix raw).

(** ** Loading *)
Record Config := mkConfig {
  Addr : string; DataDir : string; cSessionTTL : Z; Dev : bool; UpdateCheck : bool; SelfUpdate : bool; MetricsToken : string;
  TLSCert : string; TLSKey : string;
  ACMEDomains : list string; ACMEEmail : string; ACMECacheDir : string; ACMEDirectoryURL : string;
  MCPEnabled : bool; cMCPPublicURL : string; ProxyEnabled : bool; ProxyACMECacheDir : string;
  ConfigFile : string; warned_lines : list Z; unread_keys : list string;
  RedisAddr : string; RedisPassword : string; RedisDB : Z; MetricsRetention : Z; MetricsInterval : Z; PProf : bool; LogFile : string;
  DeploySilenceGrace : Z; TrustedProxies : list IPNet; BasePath : string; ForwardedPrefix : bool
}.

Definition DBPath (c : Config) : string := path_Join [DataDir c; "docker-commander.db"].
Definition TLSEnabled (c : Config) : bool :=
  (negb (String.eqb (TLSCert c) "") && negb (String.eqb (TLSKey c) "")) || negb (Nat.eqb (length (ACMEDomains c)) 0).

(** A flag given on the command line, by its name. *)
Inductive FlagVal := FStr (s : string) | FBool (b : bool) | FInt (n : Z) | FDur (d : Z).

Inductive FileErr := ENotExist | EUnreadable.

(** The parts of net/url's URL that are looked at. *)
Record URLParts := mkURLParts { upScheme : string; upHost : string; upQuery : string; upForceQuery : bool; upFragment : string; upEscapedPath : string }.

Class ConfigEnv := {
  Getenv : string -> string;
  Args : list string;                        (* os.Args[1:] *)
  given : list (string * FlagVal);           (* the flags package flag reads from them, in order *)
  ReadFile : string -> result FileErr string;
  windows : bool;
  UserConfigDir : option string;
  cfg_url_Parse : string -> option URLParts;
  mkdir_ok : string -> bool;
  secure_ok : string -> bool
}.

Definition key_le (a b : string) : Prop := String.leb a b = true.
#[export] Instance key_le_dec : RelDecision key_le.
Proof. intros a b. unfold key_le. apply _. Defined.

Section Load.
Context `{CE : ConfigEnv}.

(** The first of [-config X], [--config X], [-config=X], [--config=X]. *)
Fixpoint argConfigPath (args : list string) : string :=
  match args with
  | [] => ""
  | a :: rest =>
      if HasPrefix a "--config=" then TrimPrefix a "--config="
      else if HasPrefix a "-config=" then TrimPrefix a "-config="
      else if one_of a ["-config"; "--config"] then match rest with next :: _ => next | [] => "" end
      else argConfigPath rest
  end.

Definition defaultConfigPath : string :=
  if windows then
    let pd := Getenv "ProgramData" in
    if String.eqb pd "" then "" else path_Join [pd; "docker-commander"; "commander.conf"]
  else "/etc/docker-commander/commander.conf".

Definition resolveConfigPath : string * bool :=
  let p := argConfigPath Args in
  if negb (String.eqb p "") then (p, true)
  else let e := Getenv "DC_CONFIG" in if negb (String.eqb e "") then (e, true) else (defaultConfigPath, false).

Definition defaultDataDir : string :=
  match UserConfigDir with Some dir => path_Join [dir; "docker-commander"] | None => ".docker-commander" end.

(** *** The package variables [settingErrs], [flagKeys], [lookedUp], over [fileVals] *)
Record CState := mkCState { settingErrs : list string; flagKeys : list (string * string); lookedUp : list string }.
Definition CM (A : Type) : Type := CState -> A * CState.
#[local] Instance CM_ret : MRet CM := fun A a s => (a, s).
#[local] Instance CM_bind : MBind CM := fun A B k m s => let '(a, s') := m s in k a s'.

Section Settings.
Context (fileVals : gmap string string).

Definition value_of (key : string) : string := let v := Getenv key in if negb (String.eqb v "") then v else default "" (fileVals !! key).
Definition lookup_ (key : string) : CM string := fun s =>
  (value_of key, mkCState (settingErrs s) (flagKeys s) (lookedUp s ++ [key])).
Definition envOr (key def : string) : CM string := v ← lookup_ key; mret (if String.eqb v "" then def else v).

Definition bad (key : string) : CM () := fun s => (tt, mkCState (settingErrs s ++ [key]) (flagKeys s) (lookedUp s)).
(** envInt, envDuration, envBool: unset or unparsable is the default, and the latter
    is recorded. *)
Definition env_typed {A} (parse : string -> option A) (key : string) (def : A) : CM A :=
  v ← lookup_ key;
  if String.eqb v "" then mret def
  else match parse v with Some a => mret a | None => _ ← bad key; mret def end.
Definition envInt : string -> Z -> CM Z := env_typed ParseInt.
Definition envDuration : string -> Z -> CM Z := env_typed ParseDuration.
Definition envBool : string -> bool -> CM bool := env_typed parse_switch.

(** *** Flags: the last one given wins *)
Definition last_given (names : list string) : option FlagVal :=
  snd <$> last (filter (fun f => f.1 ∈ names) given).
Definition flag_string (name def : string) : string := match last_given [name] with Some (FStr s) => s | _ => def end.
Definition flag_duration (name : string) (def : Z) : Z := match last_given [name] with Some (FDur d) => d | _ => def end.

Definition register (names : list string) (key : string) : CM () := fun s =>
  (tt, mkCState (settingErrs s) (flagKeys s ++ ((fun n => (n, key)) <$> names)) (lookedUp s)).
Definition boolFlag (key : string) (def : bool) (names : list string) : CM bool :=
  v ← envBool key def; _ ← register names key;
  mret (match last_given names with Some (FBool b) => b | _ => v end).
Definition intFlag (key : string) (def : Z) (names : list string) : CM Z :=
  v ← envInt key def; _ ← register names key;
  mret (match last_given names with Some (FInt n) => n | _ => v end).
Definition durationFlag (key : string) (def : Z) (name : string) : CM Z :=
  v ← envDuration key def; _ ← register [name] key;
  mret (flag_duration name v).

Definition string_setting (name key : string) : CM string := v ← lookup_ key; mret (flag_string name v).
Definition string_setting_or (name key def : string) : CM string := v ← envOr key def; mret (flag_string name v).

Definition effectiveSettingErrs (s : CState) : list string :=
  let overridden := snd <$> filter (fun nk => nk.1 ∈ given.*1) (flagKeys s) in
  filter (fun k => k ∉ overridden) (settingErrs s).

Definition unreadFileKeys (s : CState) : list string :=
  merge_sort key_le
    (filter (fun k => HasPrefix k "DC_" = true /\ k ∉ lookedUp s) (map_to_list fileVals).*1).

(** Everything flag definitions and flag.Parse settle, before any check. *)
Record Raw := mkRaw {
  r_host : string; r_port : Z; r_addr : string; r_ttl : Z; r_acme : string; r_retention : Z; r_interval : Z; r_silence : Z;
  r_base : string; r_proxies : string; r_cfg : Config
}.
Definition read_settings (cfgPath : string) (warnings : list Z) : CM Raw :=
  host ← string_setting_or "host" "DC_HOST" "127.0.0.1";
  port ← intFlag "DC_PORT" 8470 ["port"; "p"];
  addr ← string_setting "addr" "DC_ADDR";
  dataDir ← string_setting_or "data-dir" "DC_DATA_DIR" defaultDataDir;
  let ttl := flag_duration "session-ttl" (12 * hour) in
  dev ← boolFlag "DC_DEV" false ["dev"];
  updateCheck ← boolFlag "DC_UPDATE_CHECK" true ["update-check"];
  selfUpdate ← boolFlag "DC_SELF_UPDATE" true ["self-update"];
  metricsToken ← string_setting "metrics-token" "DC_METRICS_TOKEN";
  tlsCert ← string_setting "tls-cert" "DC_TLS_CERT";
  tlsKey ← string_setting "tls-key" "DC_TLS_KEY";
  acme ← string_setting "acme-domains" "DC_ACME_DOMAINS";
  acmeEmail ← string_setting "acme-email" "DC_ACME_EMAIL";
  acmeCache ← string_setting "acme-cache-dir" "DC_ACME_CACHE_DIR";
  acmeURL ← string_setting "acme-directory-url" "DC_ACME_DIRECTORY_URL";
  mcp ← boolFlag "DC_MCP_ENABLED" false ["mcp-enabled"];
  mcpURL ← string_setting "mcp-public-url" "DC_MCP_PUBLIC_URL";
  proxy ← boolFlag "DC_PROXY_ENABLED" false ["proxy-enabled"];
  proxyCache ← string_setting "proxy-acme-cache-dir" "DC_PROXY_ACME_CACHE_DIR";
  redis ← string_setting "redis-addr" "DC_REDIS_ADDR";
  redisPw ← string_setting "redis-password" "DC_REDIS_PASSWORD";
  retention ← durationFlag "DC_METRICS_RETENTION" (6 * hour) "metrics-retention";
  interval ← durationFlag "DC_METRICS_INTERVAL" (15 * second) "metrics-interval";
  logFile ← string_setting "log-file" "DC_LOG_FILE";
  pprof ← boolFlag "DC_PPROF" false ["pprof"];
  silence ← durationFlag "DC_DEPLOY_SILENCE_GRACE" (3 * minute) "deploy-silence-grace";
  base ← string_setting "base-path" "DC_BASE_PATH";
  fwd ← boolFlag "DC_FORWARDED_PREFIX" true ["forwarded-prefix"];
  proxies ← string_setting "trusted-proxies" "DC_TRUSTED_PROXIES";
  redisDB ← envInt "DC_REDIS_DB" 0;
  mret (mkRaw host port addr ttl acme retention interval silence base proxies
    (mkConfig "" dataDir 0 dev updateCheck selfUpdate metricsToken tlsCert tlsKey [] acmeEmail acmeCache acmeURL mcp mcpURL proxy
       proxyCache cfgPath warnings [] redis redisPw redisDB 0 0 pprof logFile 0 [] "" fwd)).

(** PublicURLPath *)
Definition PublicURLPath (raw : string) : result CfgErr string :=
  if String.eqb raw "" then Ok ""
  else match cfg_url_Parse raw with
       | None => Err EPublicURL
       | Some u =>
           if negb (one_of (upScheme u) ["https"; "http"]) || String.eqb (upHost u) "" then Err EPublicURL
           else if negb (String.eqb (upQuery u) "") || negb (String.eqb (upFragment u) "") || upForceQuery u then Err EPublicURL
           else NormalizePathPrefix (upEscapedPath u)
       end.

Definition require (ok : bool) (e : CfgErr) : result CfgErr () := if ok then Ok tt else Err e.

(** The checks after flag.Parse, in their order, up to the resolved configuration. *)
Definition resolve_settings (r : Raw) (s : CState) : result CfgErr Config :=
  let c := r_cfg r in
  _ ← (match effectiveSettingErrs s with [] => Ok tt | keys => Err (EBadSettings keys) end);
  _ ← require (String.eqb (ACMEDirectoryURL c) "" ||
               match cfg_url_Parse (ACMEDirectoryURL c) with
               | Some u => String.eqb (upScheme u) "https" && negb (String.eqb (upHost u) "")
               | None => false
               end) EACMEURL;
  nets ← parseCIDRs (r_proxies r);
  base ← NormalizePathPrefix (r_base r);
  _ ← PublicURLPath (cMCPPublicURL c);
  let addr := if negb (String.eqb (r_addr r) "") then r_addr r else JoinHostPort (r_host r) (FormatInt (r_port r)) in
  let interval := if r_interval r <=? 0 then 15 * second else r_interval r in
  _ ← require (Bool.eqb (String.eqb (TLSCert c) "") (String.eqb (TLSKey c) "")) ETLSHalf;
  let domains := splitCommaList (r_acme r) in
  let acme := negb (Nat.eqb (length domains) 0) in
  _ ← require (negb acme || (String.eqb (TLSCert c) "" && String.eqb (TLSKey c) "")) ETwoCertificates;
  _ ← (match list_find (fun d => is_Some (ParseIP d)) domains with Some (_, d) => Err (EACMEDomainIsIP d) | None => Ok tt end);
  let acmeCache := if acme && String.eqb (ACMECacheDir c) "" then path_Join [DataDir c; "acme"] else ACMECacheDir c in
  let proxyCache := if String.eqb (ProxyACMECacheDir c) "" then path_Join [DataDir c; "proxy-acme"] else ProxyACMECacheDir c in
  _ ← require (mkdir_ok (DataDir c)) EMkdir;
  _ ← require (secure_ok (DataDir c)) ESecure;
  Ok (mkConfig addr (DataDir c) (r_ttl r) (Dev c) (UpdateCheck c) (SelfUpdate c) (MetricsToken c) (TLSCert c) (TLSKey c)
        domains (ACMEEmail c) acmeCache (ACMEDirectoryURL c) (MCPEnabled c) (cMCPPublicURL c) (ProxyEnabled c) proxyCache
        (ConfigFile c) (warned_lines c) (unreadFileKeys s) (RedisAddr c) (RedisPassword c) (RedisDB c) (r_retention r) interval
        (PProf c) (LogFile c) (r_silence r) nets base (ForwardedPrefix c)).
End Settings.

(** The file in effect, its settings and its warnings. *)
Definition config_file : result CfgErr (string * gmap string string * list Z) :=
  let '(cfgPath, explicit) := resolveConfigPath in
  if String.eqb cfgPath "" then Ok (cfgPath, ∅, [])
  else match ReadFile cfgPath with
       | Ok data => let '(vals, warnings) := loadConfigFile data in Ok (cfgPath, vals, warnings)
       | Err ENotExist => if explicit : bool then Err EConfigFile else Ok ("", ∅, [])
       | Err EUnreadable => Err EConfigFile
       end.

Definition Load : result CfgErr Config :=
  file ← config_file;
  let '(path, vals, warnings) := file in
  let '(r, s) := read_settings vals path warnings (mkCState [] [] []) in
  resolve_settings vals r s.

Definition ResolveDataDir (fileVals : gmap string string) : string :=
  let v := value_of fileVals "DC_DATA_DIR" in if String.eqb v "" then defaultDataDir else v.
End Load.

(** ** Properties *)

(** *** Path prefixes *)
(** A text that starts and ends with a printable ASCII byte has nothing to trim. *)
Definition solid (c : Ascii.ascii) : Prop := 33 <= code c <= 126.

Lemma solid_no_space c l : solid c -> space_at (c :: l) = 0%nat.
Proof.
  unfold solid, space_at. intros H. simpl. rewrite bool_decide_eq_false_2 by (rewrite !elem_of_cons, elem_of_nil; lia).
  destruct l as [|d [|e l]]; simpl; try done;
    repeat match goal with |- context [(code c =? ?n)] => replace (code c =? n) with false by (symmetry; apply Z.eqb_neq; lia) end; done.
Qed.

Lemma solid_space2 c d : solid c -> (space_at [d; c] =? 2)%nat = false.
Proof.
  unfold solid, space_at. intros H. simpl. case_bool_decide; [done|].
  replace (code c =? 0x85) with false by (symmetry; apply Z.eqb_neq; lia).
  replace (code c =? 0xA0) with false by (symmetry; apply Z.eqb_neq; lia). by rewrite andb_false_r.
Qed.

Lemma solid_space3 c d e : solid c -> (space_at [e; d; c] =? 3)%nat = false.
Proof.
  unfold solid, space_at. intros H. simpl. case_bool_decide; [done|].
  destruct (_ && (_ || _)); [done|].
  repeat match goal with |- context [(code c =? ?n)] => replace (code c =? n) with false by (symmetry; apply Z.eqb_neq; lia) end.
  replace (0x80 <=? code c) with false by (symmetry; apply Z.leb_gt; lia). simpl. by rewrite !andb_false_r.
Qed.

Lemma solid_space_end c l : solid c -> space_end (c :: l) = 0%nat.
Proof.
  intros H. unfold space_end. cbn [take]. rewrite solid_no_space by done. cbn [Nat.eqb].
  destruct l as [|d [|e l]]; cbn [take rev app].
  - by rewrite solid_no_space.
  - rewrite solid_space2 by done. unfold space_at. simpl. by repeat case_match.
  - change (take 0 l) with (@nil Ascii.ascii). cbn [rev app]. rewrite solid_space2 by done. by rewrite solid_space3.
Qed.

Lemma TrimSpace_solid c s d : solid c -> solid d -> (exists l, bytes s = c :: l) -> (exists l, bytes s = l ++ [d]) -> TrimSpace s = s.
Proof.
  intros Hc Hd [l Hl] [l' Hl']. unfold TrimSpace.
  assert (Hleft : forall n, trim_left n (bytes s) = bytes s) by (intros [|n]; [done|]; rewrite Hl; simpl; by rewrite solid_no_space).
  assert (Hright : forall n, trim_right_rev n (rev (bytes s)) = rev (bytes s)).
  { intros [|n]; [done|]. rewrite Hl', rev_app_distr. simpl. by rewrite solid_space_end. }
  rewrite Hleft, Hright, rev_involutive. apply of_bytes_bytes.
Qed.

(** *** A last byte *)
Lemma str_length_app a b : String.length (a +:+ b) = (String.length a + String.length b)%nat.
Proof. rewrite <- !bytes_length, bytes_app. apply length_app. Qed.

Lemma string_snoc s : s <> "" -> exists r d, s = r +:+ String d "".
Proof.
  induction s as [|c s IH]; [done|]. intros _. destruct s as [|e s]; [by exists "", c|].
  destruct IH as (r & d & ->); [done|]. by exists (String c r), d.
Qed.

Lemma TrimSuffix_snoc r d : TrimSuffix (r +:+ String d "") "/" = if Ascii.eqb d slash then r else r +:+ String d "".
Proof.
  unfold TrimSuffix, HasSuffix. rewrite str_length_app. simpl String.length.
  replace (String.length r + 1 - 1)%nat with (String.length r) by lia. rewrite sdrop_app, stake_app.
  replace (1 <=? String.length r + 1)%nat with true by (symmetry; apply Nat.leb_le; lia). simpl. unfold slash.
  by destruct (Ascii.eqb d "/"%char).
Qed.

Lemma unreserved_solid c : unreserved c = true -> solid c.
Proof. unfold unreserved, solid. rewrite !orb_true_iff, !andb_true_iff, !Z.leb_le, !Z.eqb_eq. lia. Qed.

Lemma segment_plain w : prefix_segment w = true -> slash ∉ bytes w -> plain w /\ Forall (fun c => unreserved c = true) (bytes w).
Proof.
  unfold prefix_segment. intros H Hs. bsimp. apply one_of_false in H. apply forallb_forall in H0 || idtac.
  split; [unfold plain; rewrite !not_elem_of_cons in H; tauto|]. apply Forall_forall. intros c Hc. apply forallb_forall with (x := c) in H0; [done|].
  by apply list_elem_of_In.
Qed.

Lemma Join_bytes segs : Forall (fun w => Forall (fun c => unreserved c = true) (bytes w)) segs ->
  Forall (fun c => c = slash \/ unreserved c = true) (bytes (Join segs "/")).
Proof.
  induction segs as [|w segs IH]; [constructor|]. intros [Hw Hs]%Forall_cons.
  assert (Hw' : Forall (fun c => c = slash \/ unreserved c = true) (bytes w)) by (eapply Forall_impl; [exact Hw|auto]).
  destruct segs as [|v segs]; [done|]. change (Join (w :: v :: segs) "/") with (w +:+ String slash (Join (v :: segs) "/")).
  rewrite bytes_app. apply Forall_app. split; [done|]. apply Forall_cons. split; [by left|]. by apply IH.
Qed.

Lemma Join_last segs : segs <> [] -> Forall (fun w => w <> "" /\ Forall (fun c => unreserved c = true) (bytes w)) segs ->
  exists r d, Join segs "/" = r +:+ String d "" /\ unreserved d = true.
Proof.
  induction segs as [|w segs IH]; [done|]. intros _ [[Hne Hw] Hs]%Forall_cons. destruct segs as [|v segs].
  - destruct (string_snoc w Hne) as (r & d & E). exists r, d. split; [done|]. rewrite E, bytes_app in Hw.
    apply Forall_app in Hw as [_ Hw]. by apply Forall_cons in Hw as [? _].
  - destruct IH as (r & d & E & Hd); [done|done|]. exists (w +:+ String slash r), d. split; [|done].
    change (Join (w :: v :: segs) "/") with (w +:+ String slash (Join (v :: segs) "/")). rewrite E. clear.
    induction w as [|c w IH]; [done|]. change (String c w +:+ ?x) with (String c (w +:+ x)). rewrite IH. done.
Qed.

Lemma prefix_inv raw p : NormalizePathPrefix raw = Ok p -> p <> "" ->
  exists p', p = "/" +:+ p' /\ (String.length p <= 257)%nat /\ forallb prefix_segment (Split p' slash) = true.
Proof.
  unfold NormalizePathPrefix. set (t := TrimSpace raw). intros H Hne. destruct (maxPathPrefix <? String.length t)%nat eqn:El; [done|].
  apply Nat.ltb_ge in El. clearbody t. set (q := if HasPrefix t "/" then t else "/" +:+ t) in *.
  assert (Hq : exists q', q = "/" +:+ q' /\ (String.length q <= 257)%nat).
  { unfold q. destruct (HasPrefix t "/") eqn:E.
    - apply HasPrefix_spec in E as [r ->]. exists r. split; [done|]. unfold maxPathPrefix in El. lia.
    - exists t. split; [done|]. rewrite str_length_app. change (String.length "/") with 1%nat. unfold maxPathPrefix in El. lia. }
  destruct Hq as (q' & Eq & Hlen). clearbody q. clear t El. destruct (String.eqb (TrimSuffix q "/") "") eqn:E0; [congruence|].
  destruct (forallb prefix_segment _) eqn:Es; [|done]. injection H as H. rewrite H in Es.
  assert (Hp : exists p', p = "/" +:+ p' /\ (String.length p <= 257)%nat).
  { assert (Hqn : q <> "") by (by rewrite Eq). destruct (string_snoc q Hqn) as (r & d & E). rewrite E, TrimSuffix_snoc in H.
    destruct (Ascii.eqb d slash) eqn:Ed; [|exists q'; split; [by rewrite <- Eq, E|by rewrite <- H, <- E]].
    subst r. destruct p as [|c p]; [done|]. rewrite Eq in E. injection E as <- E. exists p. split; [done|].
    change (q' = p +:+ String d "") in E. rewrite Eq, E in Hlen. rewrite !str_length_app in *. cbn [String.length] in *. lia. }
  destruct Hp as (p' & -> & Hl). exists p'. done.
Qed.

Lemma prefix_segments p : forallb prefix_segment (Split p slash) = true ->
  Split p slash <> [] /\ Forall (fun w => plain w /\ Forall (fun c => unreserved c = true) (bytes w)) (Split p slash) /\ Join (Split p slash) "/" = p.
Proof.
  intros Es. split_and!; [by destruct (Split_cons p slash) as (? & ? & ->)| |apply Join_Split].
  apply Forall_forall. intros w Hw. apply segment_plain; [|by eapply Split_free].
  apply forallb_forall with (x := w) in Es; [done|by apply list_elem_of_In].
Qed.

(** A normalised prefix, in segments. *)
Lemma prefix_is_plain_chars raw p : NormalizePathPrefix raw = Ok p -> p <> "" ->
  exists segs, p = "/" +:+ Join segs "/" /\ segs <> [] /\ Forall plain segs /\
    Forall (fun c => c = slash \/ unreserved c = true) (bytes p).
Proof.
  intros H Hne. destruct (prefix_inv raw p H Hne) as (p' & -> & _ & Es). apply prefix_segments in Es as (Hn & Hs & Hj).
  exists (Split p' slash). rewrite Hj. split_and!; [done|done| |].
  - eapply Forall_impl; [exact Hs|by intros ? [? _]].
  - change (bytes ("/" +:+ p')) with (slash :: bytes p'). apply Forall_cons. split; [by left|]. rewrite <- Hj. apply Join_bytes.
    eapply Forall_impl; [exact Hs|by intros ? [_ ?]].
Qed.

Lemma prefix_idem segs : segs <> [] -> Forall (fun w => plain w /\ Forall (fun c => unreserved c = true) (bytes w)) segs ->
  forallb prefix_segment segs = true -> (String.length ("/" +:+ Join segs "/") <= 256)%nat ->
  NormalizePathPrefix ("/" +:+ Join segs "/") = Ok ("/" +:+ Join segs "/").
Proof.
  intros Hn Hsegs Es Hl. assert (Hpl : Forall plain segs) by (eapply Forall_impl; [exact Hsegs|by intros ? [? _]]).
  destruct (Join_last segs Hn) as (r & d & E & Hd).
  { eapply Forall_impl; [exact Hsegs|]. intros w [(? & _) ?]. done. }
  rewrite E in *. change ("/" +:+ (r +:+ String d "")) with (("/" +:+ r) +:+ String d "") in *.
  unfold NormalizePathPrefix. rewrite (TrimSpace_solid slash (("/" +:+ r) +:+ String d "") d).
  - apply Nat.ltb_ge in Hl. unfold maxPathPrefix. rewrite Hl.
    replace (HasPrefix (("/" +:+ r) +:+ String d "") "/") with true by (symmetry; apply (HasPrefix_app "/")).
    assert (Hds : Ascii.eqb d slash = false) by (apply Ascii.eqb_neq; intros ->; done).
    rewrite TrimSuffix_snoc, Hds. change (String.eqb (("/" +:+ r) +:+ String d "") "") with false. cbn iota.
    change (sdrop 1 (("/" +:+ r) +:+ String d "")) with (r +:+ String d "").
    rewrite <- E, Split_Join, Es; [done|done|by apply plain_free].
  - unfold solid, slash. vm_compute. split; discriminate.
  - by apply unreserved_solid.
  - eexists. reflexivity.
  - exists (bytes ("/" +:+ r)). by rewrite bytes_app.
Qed.

(** what is written into links, redirects and cookie paths needs no escaping.  A
    normalised prefix is empty or a slash followed by names of unreserved characters
    joined by single slashes, none of them a climb: it cannot leave the host, and it
    is its own clean form and, within the length bound, its own normal form. *)
Theorem prefix_is_plain raw p :
  NormalizePathPrefix raw = Ok p -> p <> "" ->
  exists segs, p = "/" +:+ Join segs "/" /\ segs <> [] /\ Forall plain segs /\
    Forall (fun c => c = slash \/ unreserved c = true) (bytes p) /\
    (String.length p <= 257)%nat /\ Clean p = p /\ ((String.length p <= 256)%nat -> NormalizePathPrefix p = Ok p).
Proof.
  intros H Hne. destruct (prefix_is_plain_chars raw p H Hne) as (segs & E & Hn & Hpl & Hc).
  destruct (prefix_inv raw p H Hne) as (p' & E' & Hlen & Es). rewrite E in E'. injection E' as E'. change (Join segs "/" = p') in E'. rewrite <- E' in Es.
  rewrite Split_Join in Es by auto using plain_free. exists segs. split_and!; try done.
  - rewrite E. destruct (components_unsplit true segs) as [Ha Hk]; [by exists 0%nat, segs|]. unfold unsplit in Ha, Hk.
    unfold Clean. by rewrite Ha, Hk.
  - rewrite E. apply prefix_idem; [done| |done]. apply Forall_forall. intros w Hw. apply segment_plain.
    + apply forallb_forall with (x := w) in Es; [done|by apply list_elem_of_In].
    + rewrite Forall_forall in Hpl. by apply Hpl in Hw as (_ & _ & _ & ?).
Qed.

(** *** What is in effect *)
Inductive kind := KInt | KBool | KDur.
Definition parses (k : kind) (v : string) : bool :=
  match k with KInt => bool_decide (is_Some (ParseInt v)) | KBool => bool_decide (is_Some (parse_switch v)) | KDur => bool_decide (is_Some (ParseDuration v)) end.

(** The typed settings, with the flags that override them. *)
Definition typed_settings : list (string * kind * list string) :=
  [("DC_PORT", KInt, ["port"; "p"]); ("DC_DEV", KBool, ["dev"]); ("DC_UPDATE_CHECK", KBool, ["update-check"]);
   ("DC_SELF_UPDATE", KBool, ["self-update"]); ("DC_MCP_ENABLED", KBool, ["mcp-enabled"]); ("DC_PROXY_ENABLED", KBool, ["proxy-enabled"]);
   ("DC_METRICS_RETENTION", KDur, ["metrics-retention"]); ("DC_METRICS_INTERVAL", KDur, ["metrics-interval"]); ("DC_PPROF", KBool, ["pprof"]);
   ("DC_DEPLOY_SILENCE_GRACE", KDur, ["deploy-silence-grace"]); ("DC_FORWARDED_PREFIX", KBool, ["forwarded-prefix"]); ("DC_REDIS_DB", KInt, [])].

Section Effect.
Context `{CE : ConfigEnv} (vals : gmap string string).

Definition resolved {A} (parse : string -> option A) (key : string) (def : A) : A :=
  let v := value_of vals key in if String.eqb v "" then def else default def (parse v).
Definition complaint {A} (parse : string -> option A) (key : string) : list string :=
  let v := value_of vals key in if String.eqb v "" then [] else match parse v with Some _ => [] | None => [key] end.

(** Flag over environment over file over default. *)
Definition bool_in_effect (names : list string) (key : string) (def : bool) : bool :=
  match last_given names with Some (FBool b) => b | _ => resolved parse_switch key def end.
Definition int_in_effect (names : list string) (key : string) (def : Z) : Z :=
  match last_given names with Some (FInt n) => n | _ => resolved ParseInt key def end.
Definition duration_in_effect (name key : string) (def : Z) : Z := flag_duration name (resolved ParseDuration key def).
Definition string_in_effect (name key def : string) : string := flag_string name (let v := value_of vals key in if String.eqb v "" then def else v).

Lemma env_typed_eq {A} (parse : string -> option A) key def s :
  env_typed vals parse key def s =
    (resolved parse key def, mkCState (settingErrs s ++ complaint parse key) (flagKeys s) (lookedUp s ++ [key])).
Proof.
  unfold env_typed, lookup_, resolved, complaint, mbind, CM_bind, mret, CM_ret, bad. cbn.
  destruct (String.eqb _ _); [by rewrite app_nil_r|]. destruct (parse _); cbn; [by rewrite app_nil_r|done].
Qed.

Lemma boolFlag_eq key def names s : boolFlag vals key def names s =
  (bool_in_effect names key def, mkCState (settingErrs s ++ complaint parse_switch key) (flagKeys s ++ ((fun n => (n, key)) <$> names)) (lookedUp s ++ [key])).
Proof. unfold boolFlag, envBool, mbind, CM_bind. by rewrite env_typed_eq. Qed.
Lemma intFlag_eq key def names s : intFlag vals key def names s =
  (int_in_effect names key def, mkCState (settingErrs s ++ complaint ParseInt key) (flagKeys s ++ ((fun n => (n, key)) <$> names)) (lookedUp s ++ [key])).
Proof. unfold intFlag, envInt, mbind, CM_bind. by rewrite env_typed_eq. Qed.
Lemma durationFlag_eq key def name s : durationFlag vals key def name s =
  (duration_in_effect name key def, mkCState (settingErrs s ++ complaint ParseDuration key) (flagKeys s ++ [(name, key)]) (lookedUp s ++ [key])).
Proof. unfold durationFlag, envDuration, mbind, CM_bind. by rewrite env_typed_eq. Qed.
Lemma string_setting_eq name key s : string_setting vals name key s =
  (string_in_effect name key "", mkCState (settingErrs s) (flagKeys s) (lookedUp s ++ [key])).
Proof.
  unfold string_setting, mbind, CM_bind, mret, CM_ret, lookup_, string_in_effect. cbn.
  destruct (String.eqb _ _) eqn:E; [|done]. by apply String.eqb_eq in E as ->.
Qed.
Lemma string_setting_or_eq name key def s : string_setting_or vals name key def s =
  (string_in_effect name key def, mkCState (settingErrs s) (flagKeys s) (lookedUp s ++ [key])).
Proof. done. Qed.

Definition complaint_of (x : string * kind * list string) : list string :=
  let '(key, k, _) := x in
  match k with KInt => complaint ParseInt key | KBool => complaint parse_switch key | KDur => complaint ParseDuration key end.
Definition overrides (x : string * kind * list string) : list (string * string) := let '(key, _, names) := x in (fun n => (n, key)) <$> names.

(** The state the settings leave behind. *)
Lemma read_settings_eq path warnings : exists looked r,
  read_settings vals path warnings (mkCState [] [] []) =
    (r, mkCState (flat_map complaint_of typed_settings) (flat_map overrides typed_settings) looked) /\
  UpdateCheck (r_cfg r) = bool_in_effect ["update-check"] "DC_UPDATE_CHECK" true /\
  SelfUpdate (r_cfg r) = bool_in_effect ["self-update"] "DC_SELF_UPDATE" true /\
  MCPEnabled (r_cfg r) = bool_in_effect ["mcp-enabled"] "DC_MCP_ENABLED" false /\
  ProxyEnabled (r_cfg r) = bool_in_effect ["proxy-enabled"] "DC_PROXY_ENABLED" false /\
  PProf (r_cfg r) = bool_in_effect ["pprof"] "DC_PPROF" false /\
  r_retention r = duration_in_effect "metrics-retention" "DC_METRICS_RETENTION" (6 * hour) /\
  r_silence r = duration_in_effect "deploy-silence-grace" "DC_DEPLOY_SILENCE_GRACE" (3 * minute) /\
  r_proxies r = string_in_effect "trusted-proxies" "DC_TRUSTED_PROXIES" "".
Proof.
  unfold read_settings, mbind, CM_bind.
  repeat (first [rewrite string_setting_or_eq|rewrite string_setting_eq|rewrite boolFlag_eq|rewrite intFlag_eq|rewrite durationFlag_eq
                |rewrite env_typed_eq]; cbn [settingErrs flagKeys lookedUp]).
  unfold envInt. rewrite env_typed_eq. cbn [settingErrs flagKeys lookedUp].
  eexists _, _. split; [|].
  { unfold mret, CM_ret. apply f_equal2; [reflexivity|]. apply f_equal3; [| |reflexivity]; cbn; by rewrite <- ?app_assoc, ?app_nil_r. }
  split_and!; reflexivity.
Qed.
End Effect.

Lemma overrides_names key k names n : (key, k, names) ∈ typed_settings -> (n, key) ∈ flat_map overrides typed_settings -> n ∈ names.
Proof.
  intros Hin (x & Hx & Hn)%list_elem_of_In%in_flat_map. apply list_elem_of_In in Hx, Hn. destruct x as [[key' k'] names'].
  apply list_elem_of_fmap in Hn as (n' & [= -> ->] & Hn).
  assert (E : (key', k, names) = (key', k', names')); [|by injection E as _ ->].
  apply (NoDup_fmap_elem (fun x : string * kind * list string => x.1.1) typed_settings); [|done|done|done].
  apply (bool_decide_eq_true_1 (NoDup ((fun x : string * kind * list string => x.1.1) <$> typed_settings))). vm_compute. reflexivity.
Qed.

Lemma resolve_settings_inv `{CE : ConfigEnv} vals r s c : resolve_settings vals r s = Ok c ->
  effectiveSettingErrs s = [] /\ parseCIDRs (r_proxies r) = Ok (TrustedProxies c) /\ NormalizePathPrefix (r_base r) = Ok (BasePath c) /\
  (TLSCert c = "" <-> TLSKey c = "") /\ (ACMEDomains c <> [] -> TLSCert c = "" /\ TLSKey c = "") /\
  Forall (fun d => ParseIP d = None) (ACMEDomains c) /\ 0 < MetricsInterval c /\
  UpdateCheck c = UpdateCheck (r_cfg r) /\ SelfUpdate c = SelfUpdate (r_cfg r) /\ MCPEnabled c = MCPEnabled (r_cfg r) /\
  ProxyEnabled c = ProxyEnabled (r_cfg r) /\ PProf c = PProf (r_cfg r) /\ MetricsRetention c = r_retention r /\
  DeploySilenceGrace c = r_silence r.
Proof.
  unfold resolve_settings. intros H.
  destruct (effectiveSettingErrs s); [|done]. cbn [mbind result_bind] in H. unfold require in H.
  destruct (String.eqb (ACMEDirectoryURL (r_cfg r)) "" || _) in H; [|done]. cbn [mbind result_bind] in H.
  destruct (parseCIDRs (r_proxies r)) as [nets|] eqn:En; [|done]. cbn [mbind result_bind] in H.
  destruct (NormalizePathPrefix (r_base r)) as [base|] eqn:Eb; [|done]. cbn [mbind result_bind] in H.
  destruct (PublicURLPath _); [|done]. cbn [mbind result_bind] in H.
  destruct (Bool.eqb _ _) eqn:Et; [|done]. cbn [mbind result_bind] in H.
  destruct (_ || _) eqn:Ea in H; [|done]. cbn [mbind result_bind] in H.
  destruct (list_find _ _) as [[]|] eqn:Ei; [done|]. cbn [mbind result_bind] in H.
  destruct (mkdir_ok _); [|done]. destruct (secure_ok _); [|done]. cbn [mbind result_bind] in H. injection H as <-. cbn.
  apply Bool.eqb_prop in Et. split_and!; try done.
  - rewrite <- !String.eqb_eq, Et. done.
  - intros Hd. destruct (splitCommaList (r_acme r)); [done|]. simpl in Ea. bsimp. done.
  - apply list_find_None in Ei. eapply Forall_impl; [exact Ei|]. intros d Hd. by apply eq_None_not_Some.
  - destruct (_ <=? 0) eqn:E; bsimp; [unfold second|]; lia.
Qed.


(** ** An installation behind a proxy *)
Definition demo_conf : string :=
  "# settings" +:+ of_bytes [newline] +:+ "export DC_UPDATE_CHECK = 'no'" +:+ of_bytes [newline] +:+ "DC_METRICS_RETENTION=a day" +:+ of_bytes [newline]
  +:+ "DC_TRUSTED_PROXIES=10.0.0.0/8, 127.0.0.1".
Definition demo_cfg : ConfigEnv := {|
  Getenv := fun k => if String.eqb k "DC_BASE_PATH" then "dockercmd/" else "";
  Args := ["-metrics-retention"; "2h"];
  given := [("metrics-retention", FDur (2 * hour))];
  ReadFile := fun _ => Ok demo_conf;
  windows := false; UserConfigDir := Some "/root/.config"; cfg_url_Parse := fun _ => None;
  mkdir_ok := fun _ => true; secure_ok := fun _ => true |}.

Example demo_load : match Load (CE := demo_cfg) with
  | Ok c => (Addr c, UpdateCheck c, MetricsRetention c, BasePath c, DataDir c, length (TrustedProxies c)) =
            ("127.0.0.1:8470", false, 2 * hour, "/dockercmd", "/root/.config/docker-commander", 2%nat)
  | Err _ => False end.
Proof. vm_compute. reflexivity. Qed.

(** Without the flag the same file stops the start. *)
Definition demo_cfg_no_flag : ConfigEnv := {|
  Getenv := fun _ => ""; Args := []; given := []; ReadFile := fun _ => Ok demo_conf;
  windows := false; UserConfigDir := None; cfg_url_Parse := fun _ => None;
  mkdir_ok := fun _ => true; secure_ok := fun _ => true |}.
Example demo_refused : Load (CE := demo_cfg_no_flag) = Err (EBadSettings ["DC_METRICS_RETENTION"]).
Proof. vm_compute. reflexivity. Qed.

Lemma prefix_is_plain_witness : exists segs, NormalizePathPrefix " tools/dockercmd/" = Ok "/tools/dockercmd" /\
  "/tools/dockercmd" = "/" +:+ Join segs "/" /\ Forall plain segs.
Proof.
  assert (H : NormalizePathPrefix " tools/dockercmd/" = Ok "/tools/dockercmd") by (vm_compute; reflexivity).
  destruct (prefix_is_plain _ _ H) as (segs & E & _ & Hp & _); [done|]. exists segs. auto.
Defined.

