(* ===== verification/Users.v ===== *)
(** * Accounts: the [User] struct of internal/store/users.go *)
From S2P Require Import Prelude GoStrings.

(** store.User, in the order of the source's fields; times are nanoseconds. *)
Record User := mkUser {
  ID : Z;
  Username : string;
  PasswordHash : string;
  Role : string;
  Email : string;
  AuthSource : string;
  ReadOnly : bool;
  Sections : list string;
  TOTPSecret : string;
  TOTPEnabled : bool;
  MFAEnabled : bool;
  TOTPPending : string;
  TOTPPendingStepUp : bool;
  Passwordless : bool;
  TOTPLastCounter : Z;
  SessionEpoch : Z;
  CreatedAt : Z;
  LastLoginAt : Z
}.

(** orDefault *)
Definition orDefault (v def : string) : string := if String.eqb v "" then def else v.

(** (u *User) IsAdmin *)
Definition IsAdmin (u : User) : bool := String.eqb (Role u) "admin".

(** The zero [User{}] with an id, a name and a role; the other fields of a
    concrete account are set from it. *)
Definition zero_user (id : Z) (name role : string) : User :=
  {| ID := id; Username := name; PasswordHash := ""; Role := role; Email := "";
     AuthSource := "local"; ReadOnly := false; Sections := []; TOTPSecret := "";
     TOTPEnabled := false; MFAEnabled := false; TOTPPending := "";
     TOTPPendingStepUp := false; Passwordless := false; TOTPLastCounter := 0;
     SessionEpoch := 0; CreatedAt := 0; LastLoginAt := 0 |}.
