(* ===== verification/Roles.v ===== *)
(** * Roles and effective grants (internal/store/access.go, roles.go)

    The tables [roles], [role_sections], [role_hosts], [user_roles] and the
    settings and host rows they are read with, the operations on them with
    every failing query, and the computation of a user's effective grants. *)
From S2P Require Import Prelude GoStrings Users.

(** ** Sections (store/access.go) *)

(** [Sections] of access.go; the record field of the same name is [User]'s. *)
Definition AllSections : list string :=
  ["dashboard"; "containers"; "projects"; "images"; "volumes"; "networks"; "topology";
   "logs"; "events"; "alerts"; "hosts"; "registries"; "audit"; "diagnostics"].

Definition ValidSection (key : string) : bool := one_of key AllSections.

(** ** Data (store/roles.go) *)
Definition BuiltinViewer : string := "Viewer".
Definition BuiltinOperator : string := "Operator".

Record RoleSection := mkRS { Section_ : string; rsWrite : bool }.

Record RoleT := mkRole {
  rID : Z;
  rName : string;
  rDescription : string;
  rBuiltin : bool;
  rSections : list RoleSection;
  rHostIDs : list Z
}.

Record Grant := mkGrant {
  Granted : bool;
  Write : bool;
  AllHosts : bool;
  Hosts : gset Z
}.

Definition zero_grant : Grant := mkGrant false false false ∅.

(** (g Grant) HasHost *)
Definition HasHost (g : Grant) (hostID : Z) : bool :=
  (hostID =? 0) || AllHosts g || bool_decide (hostID ∈ Hosts g).

Definition operatorSections : list string :=
  ["dashboard"; "containers"; "projects"; "images"; "volumes"; "networks";
   "topology"; "logs"; "events"; "alerts"; "diagnostics"].

Definition allSectionsRO : list RoleSection := (fun s => mkRS s false) <$> AllSections.
Definition writable (sections : list string) : list RoleSection :=
  (fun s => mkRS s true) <$> sections.

(** ** Tables

    A table with a PRIMARY KEY is a map from that key; [roles] is
    AUTOINCREMENT, so [roles_seq] only grows.  [disabled] is the decoded
    "disabled_sections" setting, [hosts] the kind of every host row and
    [ldap_fallback] the FallbackRoleID of the stored LDAP configuration. *)
Record RoleRow := mkRow { rrName : string; rrDesc : string; rrBuiltin : bool }.

Record DB := mkDB {
  roles : gmap Z RoleRow;
  roles_seq : Z;
  role_sections : gmap (Z * string) bool;
  role_hosts : gset (Z * Z);
  user_roles : gset (Z * Z);
  hosts : gmap Z string;
  disabled : list string;
  ldap_fallback : Z
}.

Definition set_roles f db := mkDB (f (roles db)) (roles_seq db) (role_sections db)
  (role_hosts db) (user_roles db) (hosts db) (disabled db) (ldap_fallback db).
Definition set_role_sections f db := mkDB (roles db) (roles_seq db) (f (role_sections db))
  (role_hosts db) (user_roles db) (hosts db) (disabled db) (ldap_fallback db).
Definition set_role_hosts f db := mkDB (roles db) (roles_seq db) (role_sections db)
  (f (role_hosts db)) (user_roles db) (hosts db) (disabled db) (ldap_fallback db).
Definition set_user_roles f db := mkDB (roles db) (roles_seq db) (role_sections db)
  (role_hosts db) (f (user_roles db)) (hosts db) (disabled db) (ldap_fallback db).
Definition set_disabled ks db := mkDB (roles db) (roles_seq db) (role_sections db)
  (role_hosts db) (user_roles db) (hosts db) ks (ldap_fallback db).

(** The statements of the file that can fail, so that a fault can be placed on
    any of them. *)
Inductive Query :=
  | QRoleByName (name : string)
  | QInsertRole (name : string)
  | QUpdateRole (id : Z)
  | QDeleteRole (id : Z)
  | QBegin | QCommit
  | QDeleteRoleSections (role : Z)
  | QInsertRoleSection (role : Z) (section : string)
  | QDeleteRoleHosts (role : Z)
  | QInsertRoleHost (role host : Z)
  | QRoleHosts (role : Z)
  | QListRoles
  | QRoleByID (role : Z)
  | QRoleSections (role : Z)
  | QGetLDAP
  | QDeleteUserRolesOfRole (role : Z)
  | QRoleExists (role : Z)
  | QRoleIDsForUser (user : Z)
  | QDeleteUserRoles (user : Z)
  | QInsertUserRole (user role : Z)
  | QRoleScopes (user : Z)
  | QGrantRows (user : Z)
  | QDisabledSections
  | QSetDisabledSections
  | QHostKind (host : Z).

Inductive StoreErr :=
  | ErrNotFound
  | ErrDuplicate
  | ErrBuiltinRole
  | ErrRoleInUseAsFallback
  | ErrNameRequired
  | ErrSetupTaken
  | ErrNotFirstFactor
  | ErrLastFactor
  | ErrCounterNotAdvanced
  | ErrUnique           (* a PRIMARY KEY or UNIQUE violation reported by SQLite *)
  | ErrDB.              (* any other database error *)

Section Ops.
(** Which statements fail. *)
Context (fault : Query -> bool).

Definition query {A} (q : Query) (f : DB -> A) (db : DB) : result StoreErr A :=
  if fault q then Err ErrDB else Ok (f db).

Definition exec (q : Query) (f : DB -> DB) : stM DB StoreErr () := fun db =>
  if fault q then (db, Err ErrDB) else (f db, Ok ()).

(** INSERT refused by a key that is already there. *)
Definition exec_insert (q : Query) (taken : DB -> bool) (f : DB -> DB) : stM DB StoreErr () :=
  fun db => if fault q then (db, Err ErrDB)
            else if taken db then (db, Err ErrUnique) else (f db, Ok ()).

(** BeginTx … Commit, rolled back on every error. *)
Definition in_tx {A} (m : stM DB StoreErr A) : stM DB StoreErr A :=
  st_tx (exec QBegin id ≫= fun _ => m ≫= fun a => exec QCommit id ≫= fun _ => mret a).

(** *** Settings (store/access.go) *)
Definition DisabledSections (db : DB) : result StoreErr (list string) :=
  query QDisabledSections disabled db.

Definition SetDisabledSections (keys : list string) : stM DB StoreErr () :=
  exec QSetDisabledSections (set_disabled (filter (fun k => ValidSection k = true) keys)).

(** *** Rewriting a role's grants *)
Fixpoint insert_sections (roleID : Z) (seen : gset string) (sections : list RoleSection)
    : stM DB StoreErr () :=
  match sections with
  | [] => mret ()
  | rs :: rest =>
      let key := TrimSpace (Section_ rs) in
      if String.eqb key "" || bool_decide (key ∈ seen) || negb (ValidSection key)
      then insert_sections roleID seen rest
      else exec_insert (QInsertRoleSection roleID key)
             (fun db => bool_decide (is_Some (role_sections db !! (roleID, key))))
             (set_role_sections (insert (roleID, key) (rsWrite rs))) ≫= fun _ =>
           insert_sections roleID ({[key]} ∪ seen) rest
  end.

Definition replaceRoleSections (roleID : Z) (sections : list RoleSection) : stM DB StoreErr () :=
  in_tx (exec (QDeleteRoleSections roleID)
           (set_role_sections (filter (fun kv => kv.1.1 <> roleID))) ≫= fun _ =>
         insert_sections roleID ∅ sections).

Fixpoint insert_hosts (roleID : Z) (seen : gset Z) (hostIDs : list Z) : stM DB StoreErr () :=
  match hostIDs with
  | [] => mret ()
  | id :: rest =>
      if (id <=? 0) || bool_decide (id ∈ seen) then insert_hosts roleID seen rest
      else exec_insert (QInsertRoleHost roleID id)
             (fun db => bool_decide ((roleID, id) ∈ role_hosts db))
             (set_role_hosts (fun s => {[(roleID, id)]} ∪ s)) ≫= fun _ =>
           insert_hosts roleID ({[id]} ∪ seen) rest
  end.

Definition replaceRoleHosts (roleID : Z) (hostIDs : list Z) : stM DB StoreErr () :=
  in_tx (exec (QDeleteRoleHosts roleID)
           (set_role_hosts (filter (fun rh => rh.1 <> roleID))) ≫= fun _ =>
         insert_hosts roleID ∅ hostIDs).

(** *** Reading roles *)

(** SELECT host_id … WHERE role_id = ? ORDER BY host_id *)
Definition roleHosts (roleID : Z) (db : DB) : result StoreErr (list Z) :=
  query (QRoleHosts roleID) (fun db =>
    merge_sort Z.le (snd <$> filter (fun rh => rh.1 = roleID) (elements (role_hosts db)))) db.

(** SELECT section, write … WHERE role_id = ? ORDER BY section *)
Definition roleSections (roleID : Z) (db : DB) : result StoreErr (list RoleSection) :=
  query (QRoleSections roleID) (fun db =>
    merge_sort (fun a b => String.le (Section_ a) (Section_ b))
      ((fun kv => mkRS kv.1.2 kv.2) <$>
         filter (fun kv => kv.1.1 = roleID) (map_to_list (role_sections db)))) db.

Definition RoleByID (id : Z) (db : DB) : result StoreErr RoleT :=
  row ← query (QRoleByID id) (fun db => roles db !! id) db;
  match row with
  | None => Err ErrNotFound
  | Some r =>
      secs ← roleSections id db;
      hs ← roleHosts id db;
      Ok (mkRole id (rrName r) (rrDesc r) (rrBuiltin r) secs hs)
  end.

(** ORDER BY builtin DESC, name *)
Definition role_le (a b : Z * RoleRow) : Prop :=
  (rrBuiltin b.2 = true -> rrBuiltin a.2 = true) /\
  (rrBuiltin a.2 = rrBuiltin b.2 -> String.le (rrName a.2) (rrName b.2)).
#[export] Instance role_le_dec : RelDecision role_le.
Proof. intros a b. unfold role_le. apply _. Defined.

Definition ListRoles (db : DB) : result StoreErr (list RoleT) :=
  rows ← query QListRoles (fun db => merge_sort role_le (map_to_list (roles db))) db;
  (fix go rows := match rows with
   | [] => Ok []
   | (id, r) :: rest =>
       secs ← roleSections id db;
       hs ← roleHosts id db;
       out ← go rest;
       Ok (mkRole id (rrName r) (rrDesc r) (rrBuiltin r) secs hs :: out)
   end) rows.

(** *** Writing roles *)

(** The UNIQUE constraint on roles.name, for a row other than [id]. *)
Definition name_taken (id : Z) (name : string) (db : DB) : bool :=
  existsb (fun kv => negb (kv.1 =? id) && String.eqb (rrName kv.2) name)
    (map_to_list (roles db)).

(** "UNIQUE" in the error text becomes ErrDuplicate; anything else is passed on. *)
Definition unique_is_duplicate {A} (m : stM DB StoreErr A) : stM DB StoreErr A := fun db =>
  match m db with
  | (db', Err ErrUnique) => (db', Err ErrDuplicate)
  | r => r
  end.

(** INSERT INTO roles … returning LastInsertId *)
Definition insert_role (name desc : string) (builtin : bool) : stM DB StoreErr Z := fun db =>
  let id := roles_seq db + 1 in
  match exec_insert (QInsertRole name) (name_taken id name)
          (fun db => mkDB (<[id := mkRow name desc builtin]> (roles db)) id (role_sections db)
                       (role_hosts db) (user_roles db) (hosts db) (disabled db) (ldap_fallback db))
          db with
  | (db', Ok _) => (db', Ok id)
  | (db', Err e) => (db', Err e)
  end.

Definition CreateRole (r : RoleT) : stM DB StoreErr Z :=
  let name := TrimSpace (rName r) in
  if String.eqb name "" then st_fail ErrNameRequired
  else
    id ← unique_is_duplicate (insert_role name (rDescription r) false);
    replaceRoleSections id (rSections r) ≫= fun _ =>
    replaceRoleHosts id (rHostIDs r) ≫= fun _ =>
    mret id.

Definition UpdateRole (id : Z) (name description : string)
    (sections : list RoleSection) (hostIDs : list Z) : stM DB StoreErr () :=
  existing ← st_lift (RoleByID id);
  if rBuiltin existing then st_fail ErrBuiltinRole
  else
    let name := TrimSpace name in
    if String.eqb name "" then st_fail ErrNameRequired
    else
      unique_is_duplicate (exec_insert (QUpdateRole id) (name_taken id name)
        (set_roles (alter (fun r => mkRow name description (rrBuiltin r)) id))) ≫= fun _ =>
      replaceRoleSections id sections ≫= fun _ =>
      replaceRoleHosts id hostIDs.

Definition DeleteRole (id : Z) : stM DB StoreErr () :=
  existing ← st_lift (RoleByID id);
  if rBuiltin existing then st_fail ErrBuiltinRole
  else
    fallback ← st_lift (query QGetLDAP ldap_fallback);
    if fallback =? id then st_fail ErrRoleInUseAsFallback
    else
      exec (QDeleteUserRolesOfRole id)
        (set_user_roles (filter (fun ur => ur.2 <> id))) ≫= fun _ =>
      exec (QDeleteRoleHosts id)
        (set_role_hosts (filter (fun rh => rh.1 <> id))) ≫= fun _ =>
      exec (QDeleteRole id) (set_roles (delete id)).

(** seedBuiltinRoles: called from migrate; an existing row of that name is left alone. *)
Fixpoint seed_roles (builtins : list (string * string * list RoleSection)) : stM DB StoreErr () :=
  match builtins with
  | [] => mret ()
  | (name, desc, secs) :: rest =>
      present ← st_lift (query (QRoleByName name) (name_taken 0 name));
      if present : bool then seed_roles rest
      else
        newID ← insert_role name desc true;
        replaceRoleSections newID secs ≫= fun _ =>
        seed_roles rest
  end.

Definition seedBuiltinRoles : stM DB StoreErr () :=
  seed_roles
    [(BuiltinViewer, "Read-only access to every section.", allSectionsRO);
     (BuiltinOperator,
      "Day-to-day operation: workloads, storage, networking and alerts. No hosts, registries or audit log.",
      writable operatorSections)].

(** *** Assignments *)
Fixpoint ExistingRoleIDs (ids : list Z) (db : DB) : result StoreErr (list Z) :=
  match ids with
  | [] => Ok []
  | id :: rest =>
      if id <=? 0 then ExistingRoleIDs rest db
      else
        found ← query (QRoleExists id) (fun db => bool_decide (is_Some (roles db !! id))) db;
        out ← ExistingRoleIDs rest db;
        Ok (if found : bool then id :: out else out)
  end.

Definition RoleIDsForUser (userID : Z) (db : DB) : result StoreErr (list Z) :=
  query (QRoleIDsForUser userID) (fun db =>
    merge_sort Z.le (snd <$> filter (fun ur => ur.1 = userID) (elements (user_roles db)))) db.

Fixpoint insert_user_roles (userID : Z) (seen : gset Z) (roleIDs : list Z) : stM DB StoreErr () :=
  match roleIDs with
  | [] => mret ()
  | id :: rest =>
      if (id <=? 0) || bool_decide (id ∈ seen) then insert_user_roles userID seen rest
      else fun db =>
        let seen := {[id]} ∪ seen in
        if is_ok (RoleByID id db)
        then (exec_insert (QInsertUserRole userID id)
                (fun db => bool_decide ((userID, id) ∈ user_roles db))
                (set_user_roles (fun s => {[(userID, id)]} ∪ s)) ≫= fun _ =>
              insert_user_roles userID seen rest) db
        else insert_user_roles userID seen rest db  (* unknown role: ignore *)
  end.

Definition SetUserRoles (userID : Z) (roleIDs : list Z) : stM DB StoreErr () :=
  exec (QDeleteUserRoles userID) (set_user_roles (filter (fun ur => ur.1 <> userID))) ≫= fun _ =>
  insert_user_roles userID ∅ roleIDs.

Definition RolesForUser (userID : Z) (db : DB) : result StoreErr (list RoleT) :=
  ids ← RoleIDsForUser userID db;
  Ok (omap (M := list) (fun id => match RoleByID id db with Ok r => Some r | Err _ => None end) ids).

(** *** Effective grants *)

(** role_hosts JOIN user_roles: a role without rows is absent from the map. *)
Definition roleScopesForUser (userID : Z) (db : DB) : result StoreErr (gmap Z (list Z)) :=
  query (QRoleScopes userID) (fun db =>
    foldl (fun out '(roleID, hostID) => <[roleID := default [] (out !! roleID) ++ [hostID]]> out) ∅
      (filter (fun rh => (userID, rh.1) ∈ user_roles db) (elements (role_hosts db)))) db.

(** The closure [add]: one grant of [section], unscoped when [hosts] is empty. *)
Definition add (out : gmap string Grant) (section : string) (write : bool) (hosts : list Z)
    : gmap string Grant :=
  if negb (ValidSection section) then out
  else
    let g := default zero_grant (out !! section) in
    <[section := {|
      Granted := true;
      Write := Write g || write;
      AllHosts := match hosts with [] => true | _ => AllHosts g end;
      Hosts := match hosts with [] => Hosts g | _ => Hosts g ∪ list_to_set hosts end |}]> out.

(** role_sections JOIN user_roles WHERE user_id = ? *)
Definition grant_rows (userID : Z) (db : DB) : list (Z * string * bool) :=
  (fun kv => (kv.1.1, kv.1.2, kv.2)) <$>
    filter (fun kv => (userID, kv.1.1) ∈ user_roles db) (map_to_list (role_sections db)).

Definition read_only_cap (u : User) (out : gmap string Grant) : gmap string Grant :=
  if ReadOnly u then (fun g => mkGrant (Granted g) false (AllHosts g) (Hosts g)) <$> out else out.

Definition EffectiveGrants (u : option User) (db : DB) : result StoreErr (gmap string Grant) :=
  match u with
  | None => Ok ∅
  | Some u =>
      let out := foldl (fun out sec => add out sec true []) ∅ (Sections u) in
      scopes ← roleScopesForUser (ID u) db;
      rows ← query (QGrantRows (ID u)) (grant_rows (ID u)) db;
      let out := foldl (fun out '(roleID, section, write) =>
                   add out section write (default [] (scopes !! roleID))) out rows in
      let out := read_only_cap u out in
      dis ← DisabledSections db;
      Ok (foldl (fun out sec => delete sec out) out dis)
  end.

(** [None] stands for [all = true], where the set is meaningless. *)
Definition ReachableHosts (u : option User) (db : DB) : result StoreErr (option (gset Z)) :=
  grants ← EffectiveGrants u db;
  Ok (map_fold (fun _ g acc =>
        if negb (Granted g) then acc
        else if AllHosts g then None
        else (fun s => s ∪ Hosts g) <$> acc) (Some ∅) grants).

(** A failed or empty lookup leaves the id alone. *)
Definition NormalizeHostID (id : Z) (db : DB) : Z :=
  if id =? 0 then 0
  else match query (QHostKind id) (fun db => hosts db !! id) db with
       | Ok (Some kind) => if String.eqb kind "local" then 0 else id
       | _ => id
       end.

Definition CanReachHost (u : option User) (hostID : Z) (db : DB) : result StoreErr bool :=
  if NormalizeHostID hostID db =? 0 then Ok true
  else
    r ← ReachableHosts u db;
    Ok (match r with None => true | Some s => bool_decide (hostID ∈ s) end).

Definition EffectiveSections (u : option User) (db : DB) : result StoreErr (list string) :=
  grants ← EffectiveGrants u db;
  Ok (merge_sort String.le ((map_to_list grants).*1)).
End Ops.

(** ** Specification

    What the tables say, independently of how [EffectiveGrants] folds them. *)

(** [u] holds role [r], which grants [sec] with write flag [w]. *)
Definition role_grants (db : DB) (u : User) (sec : string) (w : bool) (r : Z) : Prop :=
  (ID u, r) ∈ user_roles db /\ role_sections db !! (r, sec) = Some w.

(** Role [r] reaches host [h]: it has no host rows, or it names [h]. *)
Definition role_reaches (db : DB) (r h : Z) : Prop :=
  (forall h', (r, h') ∉ role_hosts db) \/ (r, h) ∈ role_hosts db.

(** Some source grants the section at all. *)
Definition has_source (db : DB) (u : User) (sec : string) : Prop :=
  sec ∈ Sections u \/ exists r w, role_grants db u sec w r.

(** Some source grants it for writing (before the read-only cap). *)
Definition has_write_source (db : DB) (u : User) (sec : string) : Prop :=
  sec ∈ Sections u \/ exists r, role_grants db u sec true r.

(** Some source of the section reaches host [h]. *)
Definition has_reach_source (db : DB) (u : User) (sec : string) (h : Z) : Prop :=
  sec ∈ Sections u \/ exists r w, role_grants db u sec w r /\ role_reaches db r h.

(** ** Lemmas on the fold *)

Definition granted_in (out : gmap string Grant) sec := exists g, out !! sec = Some g /\ Granted g = true.
Definition write_in (out : gmap string Grant) sec := exists g, out !! sec = Some g /\ Write g = true.
Definition reach_in (out : gmap string Grant) sec (h : Z) :=
  exists g, out !! sec = Some g /\ (AllHosts g = true \/ h ∈ Hosts g).

(** A grant row as [add] takes it. *)
Definition add_row (out : gmap string Grant) (row : string * bool * list Z) :=
  add out row.1.1 row.1.2 row.2.

Lemma add_lookup_eq out sec w hs :
  ValidSection sec = true ->
  add out sec w hs !! sec = Some {|
    Granted := true; Write := Write (default zero_grant (out !! sec)) || w;
    AllHosts := match hs with [] => true | _ => AllHosts (default zero_grant (out !! sec)) end;
    Hosts := match hs with [] => Hosts (default zero_grant (out !! sec))
             | _ => Hosts (default zero_grant (out !! sec)) ∪ list_to_set hs end |}.
Proof. intros Hv. unfold add. rewrite Hv. simpl. by rewrite lookup_insert_eq. Qed.

Lemma add_lookup_other out sec sec' w hs :
  (ValidSection sec = false \/ sec <> sec') -> add out sec w hs !! sec' = out !! sec'.
Proof.
  intros H. unfold add. destruct (ValidSection sec) eqn:E; simpl; [|done].
  destruct H as [?|?]; [done|]. by rewrite lookup_insert_ne.
Qed.

(** Every grant the loop holds is marked granted. *)
Definition all_granted (out : gmap string Grant) := forall sec g, out !! sec = Some g -> Granted g = true.

Lemma add_all_granted out row : all_granted out -> all_granted (add_row out row).
Proof.
  intros H sec g. unfold add_row.
  destruct (decide (row.1.1 = sec)) as [<-|Hne].
  - destruct (ValidSection row.1.1) eqn:E.
    + rewrite add_lookup_eq by done. by intros [= <-].
    + rewrite add_lookup_other by (by left). apply H.
  - rewrite add_lookup_other by (by right). apply H.
Qed.

Section AddRow.
Context (out : gmap string Grant) (row : string * bool * list Z) (sec : string).

Let hit := ValidSection sec = true /\ row.1.1 = sec.

Lemma add_row_granted :
  granted_in (add_row out row) sec <-> granted_in out sec \/ hit.
Proof.
  unfold granted_in, add_row, hit. destruct row as [[s w] hs]; simpl.
  destruct (decide (s = sec)) as [->|Hne].
  - destruct (ValidSection sec) eqn:E.
    + rewrite add_lookup_eq by done. naive_solver.
    + rewrite add_lookup_other by (by left). naive_solver.
  - rewrite add_lookup_other by (by right). naive_solver.
Qed.

Lemma add_row_write :
  write_in (add_row out row) sec <-> write_in out sec \/ (hit /\ row.1.2 = true).
Proof.
  unfold write_in, add_row, hit. destruct row as [[s w] hs]; simpl.
  destruct (decide (s = sec)) as [->|Hne].
  - destruct (ValidSection sec) eqn:E.
    + rewrite add_lookup_eq by done.
      destruct (out !! sec) as [g|]; simpl; split.
      * intros (? & [= <-] & [?|?]%orb_true_iff); naive_solver.
      * intros [(? & [= <-] & Hw)|[_ ->]]; eexists; (split; [done|]); simpl;
          [by rewrite Hw|apply orb_true_r].
      * intros (? & [= <-] & Hw). simpl in Hw. naive_solver.
      * intros [(? & ? & ?)|[_ ->]]; [done|]. by eexists.
    + rewrite add_lookup_other by (by left). naive_solver.
  - rewrite add_lookup_other by (by right). naive_solver.
Qed.

Lemma add_row_reach h :
  reach_in (add_row out row) sec h <->
  reach_in out sec h \/ (hit /\ (row.2 = [] \/ h ∈ row.2)).
Proof.
  unfold reach_in, add_row, hit. destruct row as [[s w] hs]; simpl.
  destruct (decide (s = sec)) as [->|Hne].
  - destruct (ValidSection sec) eqn:E.
    + rewrite add_lookup_eq by done.
      destruct hs as [|h0 hs], (out !! sec) as [g|]; simpl; split.
      all: try (intros (? & [= <-] & H); simpl in *; set_solver).
      all: try (intros [(? & [= <-] & H)|[_ H]]; eexists; (split; [done|]); simpl; set_solver).
      all: try (intros [(? & ? & H)|[_ H]]; [done|]; eexists; (split; [done|]); simpl; set_solver).
    + rewrite add_lookup_other by (by left). naive_solver.
  - rewrite add_lookup_other by (by right). naive_solver.
Qed.
End AddRow.

Lemma foldl_add_spec (rows : list (string * bool * list Z)) out sec :
  let out' := foldl add_row out rows in
  (granted_in out' sec <->
     granted_in out sec \/ (ValidSection sec = true /\ exists w hs, (sec, w, hs) ∈ rows)) /\
  (write_in out' sec <->
     write_in out sec \/ (ValidSection sec = true /\ exists hs, (sec, true, hs) ∈ rows)) /\
  (forall h, reach_in out' sec h <->
     reach_in out sec h \/
     (ValidSection sec = true /\ exists w hs, (sec, w, hs) ∈ rows /\ (hs = [] \/ h ∈ hs))).
Proof.
  revert out. induction rows as [|[[s w] hs] rows IH]; intros out; simpl.
  { repeat split; intros; set_solver. }
  specialize (IH (add_row out (s, w, hs))). simpl in IH. destruct IH as (IH1 & IH2 & IH3).
  rewrite IH1, IH2. setoid_rewrite IH3.
  rewrite add_row_granted, add_row_write. setoid_rewrite add_row_reach. simpl.
  setoid_rewrite elem_of_cons.
  repeat split; intros; naive_solver.
Qed.

Lemma foldl_scopes (pairs : list (Z * Z)) out r h :
  h ∈ default [] (foldl (fun out '(roleID, hostID) =>
        <[roleID := default [] (out !! roleID) ++ [hostID]]> out) out pairs !! r)
  <-> h ∈ default [] ((out : gmap Z (list Z)) !! r) \/ (r, h) ∈ pairs.
Proof.
  revert out. induction pairs as [|[r' h'] pairs IH]; intros out; simpl; [set_solver|].
  rewrite IH. destruct (decide (r' = r)) as [->|Hne].
  - rewrite lookup_insert_eq. simpl. set_solver.
  - rewrite lookup_insert_ne by done. set_solver.
Qed.

Lemma foldl_delete (out : gmap string Grant) dis sec :
  foldl (fun out sec => delete sec out) out dis !! sec =
  if decide (sec ∈ dis) then None else out !! sec.
Proof.
  revert out. induction dis as [|d dis IH]; intros out; cbn [foldl].
  { destruct (decide _); set_solver. }
  rewrite IH. destruct (decide (sec ∈ dis)), (decide (sec ∈ d :: dis)); try set_solver.
  - assert (d = sec) as -> by set_solver. apply lookup_delete_eq.
  - apply lookup_delete_ne. set_solver.
Qed.

Lemma read_only_cap_lookup u out sec :
  read_only_cap u out !! sec =
  (fun g => mkGrant (Granted g) (negb (ReadOnly u) && Write g) (AllHosts g) (Hosts g)) <$> out !! sec.
Proof.
  unfold read_only_cap. destruct (ReadOnly u); simpl.
  - by rewrite lookup_fmap.
  - destruct (out !! sec) as [[]|]; done.
Qed.

Lemma all_granted_rows rows out : all_granted out -> all_granted (foldl add_row out rows).
Proof. intros H. apply foldl_invariant; [done|]. intros. by apply add_all_granted. Qed.

Lemma all_granted_lookup out sec :
  all_granted out -> is_Some (out !! sec) <-> granted_in out sec.
Proof. intros H. unfold granted_in, is_Some. naive_solver. Qed.

Lemma add_row_foldl {X} (f : X -> string * bool * list Z) l (out : gmap string Grant) :
  foldl (fun out x => add out (f x).1.1 (f x).1.2 (f x).2) out l = foldl add_row out (f <$> l).
Proof. revert out. induction l; intros; simpl; auto. Qed.

Section Grants.
Context (fault : Query -> bool).

(** The rows the two loops of [EffectiveGrants] feed to [add]. *)
Definition all_rows (u : User) (db : DB) (scopes : gmap Z (list Z)) : list (string * bool * list Z) :=
  ((fun sec => (sec, true, [])) <$> Sections u) ++
  ((fun '(r, sec, w) => (sec, w, default [] (scopes !! r))) <$> grant_rows (ID u) db).

(** The two loops are one loop over [all_rows]. *)
Lemma two_loops u db scopes :
  foldl (fun out '(roleID, section, write) => add out section write (default [] (scopes !! roleID)))
    (foldl (fun out sec => add out sec true []) ∅ (Sections u)) (grant_rows (ID u) db)
  = foldl add_row ∅ (all_rows u db scopes).
Proof.
  unfold all_rows. rewrite foldl_app, <- !add_row_foldl. simpl.
  generalize (foldl (fun out x => add out x true []) ∅ (Sections u)).
  induction (grant_rows (ID u) db) as [|[[r sec] w] l IH]; intros o; simpl; [done|]. apply IH.
Qed.

(** The successful run, with its intermediate values named. *)
Lemma EffectiveGrants_run u db out :
  EffectiveGrants fault (Some u) db = Ok out <->
  fault (QGrantRows (ID u)) = false /\ fault QDisabledSections = false /\
  exists scopes, roleScopesForUser fault (ID u) db = Ok scopes /\
    out = foldl (fun out sec => delete sec out)
            (read_only_cap u (foldl add_row ∅ (all_rows u db scopes))) (disabled db).
Proof.
  unfold EffectiveGrants, DisabledSections, query.
  destruct (roleScopesForUser fault (ID u) db) as [scopes|e]; simpl; [|naive_solver].
  destruct (fault (QGrantRows (ID u))); simpl; [naive_solver|].
  destruct (fault QDisabledSections); simpl; [naive_solver|].
  rewrite two_loops. naive_solver.
Qed.

Lemma elem_of_grant_rows u r sec w db :
  (r, sec, w) ∈ grant_rows (ID u) db <-> role_grants db u sec w r.
Proof.
  unfold grant_rows, role_grants. rewrite list_elem_of_fmap. setoid_rewrite list_elem_of_filter.
  split.
  - intros ([[r' s'] w'] & [= -> -> ->] & ? & ?%elem_of_map_to_list). done.
  - intros [? ?]. exists (r, sec, w). split; [done|]. split; [done|]. by apply elem_of_map_to_list.
Qed.

Lemma scopes_reach u db scopes r h sec w :
  roleScopesForUser fault (ID u) db = Ok scopes -> role_grants db u sec w r ->
  (default [] (scopes !! r) = [] \/ h ∈ default [] (scopes !! r)) <-> role_reaches db r h.
Proof.
  intros Hs [Hur _]. unfold roleScopesForUser, query in Hs.
  destruct (fault _); [done|]. injection Hs as <-. unfold role_reaches.
  assert (forall h', h' ∈ default [] (foldl (fun (out : gmap Z (list Z)) '(roleID, hostID) =>
      <[roleID := default [] (out !! roleID) ++ [hostID]]> out) ∅
      (filter (fun rh => (ID u, rh.1) ∈ user_roles db) (elements (role_hosts db))) !! r)
    <-> (r, h') ∈ role_hosts db) as Hin.
  { intros h'. rewrite foldl_scopes, lookup_empty, list_elem_of_filter, elem_of_elements. simpl. set_solver. }
  rewrite Hin. split; (intros [H0|?]; [left|by right]).
  - intros h'. rewrite <- Hin, H0. set_solver.
  - destruct (default [] _) as [|h' l] eqn:E; [done|]. exfalso. apply (H0 h'), Hin. left.
Qed.

Lemma all_rows_granted u db scopes sec :
  (exists w hs, (sec, w, hs) ∈ all_rows u db scopes) <-> has_source db u sec.
Proof.
  unfold all_rows, has_source. setoid_rewrite elem_of_app. setoid_rewrite list_elem_of_fmap.
  setoid_rewrite <- elem_of_grant_rows. split.
  - intros (w & hs & [(s & [= -> -> ->] & ?)|([[r s] w'] & [= -> -> ->] & ?)]); eauto.
  - intros [?|(r & w & ?)]; [exists true, []|exists w, (default [] (scopes !! r))]; eauto.
    right. by exists (r, sec, w).
Qed.

Lemma all_rows_write u db scopes sec :
  (exists hs, (sec, true, hs) ∈ all_rows u db scopes) <-> has_write_source db u sec.
Proof.
  unfold all_rows, has_write_source. setoid_rewrite elem_of_app. setoid_rewrite list_elem_of_fmap.
  setoid_rewrite <- elem_of_grant_rows. split.
  - intros (hs & [(s & [= -> ->] & ?)|([[r s] w'] & [= -> -> ->] & ?)]); eauto.
  - intros [?|(r & ?)]; [exists []|exists (default [] (scopes !! r))]; eauto.
    right. by exists (r, sec, true).
Qed.

Lemma all_rows_reach u db scopes sec h :
  roleScopesForUser fault (ID u) db = Ok scopes ->
  (exists w hs, (sec, w, hs) ∈ all_rows u db scopes /\ (hs = [] \/ h ∈ hs)) <->
  has_reach_source db u sec h.
Proof.
  intros Hs. unfold all_rows, has_reach_source. setoid_rewrite elem_of_app.
  setoid_rewrite list_elem_of_fmap. split.
  - intros (w & hs & [(s & [= -> -> ->] & ?)|([[r s] w'] & [= -> -> ->] & Hr)] & Hh); [by left|].
    right. apply elem_of_grant_rows in Hr. exists r, w'. split; [done|]. by eapply scopes_reach.
  - intros [?|(r & w & Hg & Hr)].
    + exists true, []. split; [left; eauto|by left].
    + exists w, (default [] (scopes !! r)). split.
      * right. exists (r, sec, w). split; [done|]. by apply elem_of_grant_rows.
      * by eapply scopes_reach.
Qed.

(** The fold computes the specification; shared by the properties below. *)
Lemma EffectiveGrants_lookup u db out sec :
  EffectiveGrants fault (Some u) db = Ok out ->
  (is_Some (out !! sec) <->
     ValidSection sec = true /\ sec ∉ disabled db /\ has_source db u sec) /\
  (forall g, out !! sec = Some g ->
     Granted g = true /\
     (Write g = true <-> ReadOnly u = false /\ has_write_source db u sec) /\
     (forall h, AllHosts g = true \/ h ∈ Hosts g <-> has_reach_source db u sec h)).
Proof.
  intros (_ & _ & scopes & Hs & ->)%EffectiveGrants_run.
  set (rows := all_rows u db scopes).
  pose proof (foldl_add_spec rows ∅ sec) as (Hg & Hw & Hr). simpl in Hg, Hw, Hr.
  pose proof (all_rows_granted u db scopes sec) as Eg.
  pose proof (all_rows_write u db scopes sec) as Ew.
  pose proof (fun h => all_rows_reach u db scopes sec h Hs) as Er. fold rows in Eg, Ew, Er.
  assert (all_granted (foldl add_row ∅ rows)) as Hall by (apply all_granted_rows; by intros ? ?).
  rewrite Eg in Hg. rewrite Ew in Hw. setoid_rewrite Er in Hr.
  rewrite foldl_delete, read_only_cap_lookup.
  unfold granted_in, write_in, reach_in in *. setoid_rewrite lookup_empty in Hg.
  setoid_rewrite lookup_empty in Hw. setoid_rewrite lookup_empty in Hr.
  destruct (foldl add_row ∅ rows !! sec) as [g0|] eqn:E.
  - assert (Granted g0 = true) as Hg0 by (by eapply Hall).
    destruct (proj1 Hg ltac:(eauto)) as [(? & ? & _)|[Hv Hsrc]]; [done|].
    split.
    + destruct (decide _); simpl; split; [by intros [??]|tauto|eauto|by eauto].
    + intros g. destruct (decide _); [done|]. intros [= <-]. simpl.
      split; [done|]. rewrite andb_true_iff, negb_true_iff. split.
      * clear -Hw Hv. assert (Write g0 = true <-> has_write_source db u sec) as ->; [|done].
        split; [intros Hx; destruct (proj1 Hw ltac:(eauto)) as [(? & ? & _)|[_ ?]]; done|].
        intros Hx. destruct (proj2 Hw ltac:(eauto)) as (? & [= <-] & ?). done.
      * intros h. specialize (Hr h). clear -Hr Hv. split.
        { intros Hx. destruct (proj1 Hr ltac:(eauto)) as [(? & ? & _)|[_ ?]]; done. }
        intros Hx. destruct (proj2 Hr ltac:(eauto)) as (? & [= <-] & ?). done.
  - simpl. split; [|by destruct (decide _)]. split.
    + destruct (decide _); by intros [? ?].
    + intros (Hv & _ & Hsrc). destruct (proj2 Hg ltac:(eauto)) as (? & ? & _). done.
Qed.
End Grants.

(** ** Operations on the tables *)

(** The first request entry for a section, as [replaceRoleSections] reads it. *)
Definition first_entry (sections : list RoleSection) (key : string) : option bool :=
  rsWrite <$> head (filter (fun rs => TrimSpace (Section_ rs) = key) sections).

(** A loop of inserts that only touches one table. *)
Lemma exec_insert_inv fault q taken f db db' r :
  exec_insert fault q taken f db = (db', r) ->
  (r = Ok () /\ db' = f db /\ taken db = false /\ fault q = false) \/
  (exists e, r = Err e /\ db' = db /\ (e = ErrDB \/ taken db = true)).
Proof.
  unfold exec_insert. destruct (fault q); [|destruct (taken db) eqn:?]; intros [= <- <-]; eauto 10.
Qed.

Lemma exec_inv fault q f db db' r :
  exec fault q f db = (db', r) ->
  (r = Ok () /\ db' = f db /\ fault q = false) \/ (r = Err ErrDB /\ db' = db /\ fault q = true).
Proof. unfold exec. destruct (fault q) eqn:?; intros [= <- <-]; eauto. Qed.

Lemma in_tx_ok {A} fault (m : stM DB StoreErr A) db db' a :
  in_tx fault m db = (db', Ok a) -> m db = (db', Ok a).
Proof.
  unfold in_tx, st_tx, mbind, stM_bind, exec. destruct (fault QBegin); [done|]. simpl.
  destruct (m db) as [db1 [a1|e]] eqn:E; [|done]. destruct (fault QCommit); [done|].
  by intros [= <- <-].
Qed.

Lemma in_tx_err {A} fault (m : stM DB StoreErr A) db db' e :
  in_tx fault m db = (db', Err e) -> db' = db.
Proof.
  unfold in_tx, st_tx. destruct (mbind (M := stM DB StoreErr) _ _ db) as [db1 [a1|e1]]; [done|]. by intros [= <- _].
Qed.

Lemma insert_sections_ok fault r secs : forall seen db db',
  insert_sections fault r seen secs db = (db', Ok ()) ->
  (forall s, role_sections db' !! (r, s) =
     if bool_decide (s ∈ seen) || negb (ValidSection s) then role_sections db !! (r, s)
     else match first_entry secs s with
          | Some w => Some w | None => role_sections db !! (r, s) end) /\
  (forall r' s, r' <> r -> role_sections db' !! (r', s) = role_sections db !! (r', s)) /\
  db' = set_role_sections (fun _ => role_sections db') db.
Proof.
  induction secs as [|[s0 w0] secs IH]; intros seen db db' H.
  { injection H as <-. split; [|split; [done|by destruct db]]. intros s. by destruct (_ || _). }
  cbn [insert_sections Section_ rsWrite] in H. set (key := TrimSpace s0) in *.
  assert (Hskip : forall s, s <> key -> first_entry (mkRS s0 w0 :: secs) s = first_entry secs s).
  { intros s Hs. unfold first_entry. by rewrite filter_cons_False by (simpl; fold key; congruence). }
  destruct (String.eqb key "" || bool_decide (key ∈ seen) || negb (ValidSection key)) eqn:Ec.
  - apply IH in H as (H1 & H2 & H3). split; [|done]. intros s. rewrite H1.
    destruct (bool_decide (s ∈ seen) || negb (ValidSection s)) eqn:Es; [done|].
    rewrite Hskip; [done|]. intros ->. rewrite <- orb_assoc, Es, orb_false_r in Ec.
    apply String.eqb_eq in Ec. rewrite Ec in Es. by rewrite orb_true_r in Es.
  - apply st_bind_ok in H as (db1 & [] & Hi & H).
    apply exec_insert_inv in Hi as [(_ & -> & _)|(? & ? & _)]; [|done].
    apply IH in H as (H1 & H2 & H3). bsimp. simpl in *.
    split; [|split].
    + intros s. rewrite H1. destruct (decide (s = key)) as [->|Hne].
      * rewrite bool_decide_eq_true_2 by set_solver. simpl. rewrite lookup_insert_eq.
        rewrite bool_decide_eq_false_2 by done. rewrite H0. simpl.
        unfold first_entry. by rewrite filter_cons_True by done.
      * rewrite lookup_insert_ne by congruence. rewrite Hskip by done.
        by rewrite (bool_decide_ext (s ∈ {[key]} ∪ seen) (s ∈ seen)) by set_solver.
    + intros r' s Hr. rewrite H2 by done. by rewrite lookup_insert_ne by congruence.
    + rewrite H3. by destruct db.
Qed.

Lemma insert_hosts_ok fault r ids : forall seen db db',
  insert_hosts fault r seen ids db = (db', Ok ()) ->
  (forall rh, rh ∈ role_hosts db' <->
     rh ∈ role_hosts db \/ (rh.1 = r /\ rh.2 ∈ ids /\ 0 < rh.2 /\ rh.2 ∉ seen)) /\
  db' = set_role_hosts (fun _ => role_hosts db') db.
Proof.
  induction ids as [|h ids IH]; intros seen db db' H.
  { injection H as <-. split; [set_solver|by destruct db]. }
  cbn [insert_hosts] in H.
  destruct ((h <=? 0) || bool_decide (h ∈ seen)) eqn:Ec.
  - apply IH in H as (H1 & H2). split; [|done]. intros [r' h']. rewrite H1. simpl.
    apply orb_true_iff in Ec as [?%Z.leb_le|?%bool_decide_eq_true]; set_unfold;
      (split; [naive_solver|]); intros [?|(? & [->|?] & ? & ?)]; [auto|lia|auto|auto|done|auto].
  - apply st_bind_ok in H as (db1 & [] & Hi & H).
    apply exec_insert_inv in Hi as [(_ & -> & _)|(? & ? & _)]; [|done].
    apply IH in H as (H1 & H2). bsimp. split; [|by rewrite H2; destruct db].
    intros [r' h']. rewrite H1. simpl. set_unfold. split.
    + intros [[[= -> ->]|?]|(-> & ? & ? & ?)]; [right|by left|right]; repeat split; auto.
    + intros [?|(-> & [->|?] & ? & ?)]; [by left; right|by left; left|].
      destruct (decide (h' = h)) as [->|?]; [by left; left|]. right. repeat split; auto. naive_solver.
Qed.

Section Writes.
Context (fault : Query -> bool).

Lemma replaceRoleSections_ok r secs db db' :
  replaceRoleSections fault r secs db = (db', Ok ()) ->
  (forall s, role_sections db' !! (r, s) = if ValidSection s then first_entry secs s else None) /\
  (forall r' s, r' <> r -> role_sections db' !! (r', s) = role_sections db !! (r', s)) /\
  db' = set_role_sections (fun _ => role_sections db') db.
Proof.
  intros H%in_tx_ok. apply st_bind_ok in H as (db1 & [] & Hd & H).
  apply exec_inv in Hd as [(_ & -> & _)|(? & _)]; [|done].
  apply insert_sections_ok in H as (H1 & H2 & H3). simpl in *.
  assert (Hdel : forall s, filter (fun kv : Z * string * bool => kv.1.1 <> r) (role_sections db) !! (r, s) = None).
  { intros s. apply map_lookup_filter_None. right. intros ? _. simpl. tauto. }
  split; [|split].
  - intros s. rewrite H1, Hdel. rewrite bool_decide_eq_false_2 by set_solver. simpl.
    destruct (ValidSection s); simpl; [|done]. by destruct (first_entry secs s).
  - intros r' s Hr. rewrite H2 by done. rewrite map_lookup_filter.
    destruct (role_sections db !! (r', s)) as [w|]; simpl; [|done]. by rewrite option_guard_True by done.
  - rewrite H3. by destruct db.
Qed.

Lemma replaceRoleHosts_ok r ids db db' :
  replaceRoleHosts fault r ids db = (db', Ok ()) ->
  (forall r' h, (r', h) ∈ role_hosts db' <->
     if bool_decide (r' = r) then h ∈ ids /\ 0 < h else (r', h) ∈ role_hosts db) /\
  db' = set_role_hosts (fun _ => role_hosts db') db.
Proof.
  intros H%in_tx_ok. apply st_bind_ok in H as (db1 & [] & Hd & H).
  apply exec_inv in Hd as [(_ & -> & _)|(? & _)]; [|done].
  apply insert_hosts_ok in H as (H1 & H2). split; [|rewrite H2; by destruct db].
  intros r' h. rewrite H1. simpl. rewrite elem_of_filter. simpl. case_bool_decide; set_solver.
Qed.
End Writes.

(** ** Properties *)

(** C11: [EffectiveGrants] implements its specification.  Either one of its three
    queries failed and it reports the error, or, for every section, the section
    is present exactly when it is a known section, is not disabled app-wide and
    some source (the account's own list, or a role the account holds) grants it;
    write access is exactly "some source grants writing" capped by the read-only
    flag; and the hosts it reaches are exactly those some source reaches, an
    unscoped role or an account-level section reaching every host.  The result
    does not depend on the order the rows come back in. *)
Theorem effective_grants_refine fault u db :
  match EffectiveGrants fault (Some u) db with
  | Err _ => fault (QRoleScopes (ID u)) || fault (QGrantRows (ID u)) || fault QDisabledSections = true
  | Ok out => forall sec,
      (is_Some (out !! sec) <->
         ValidSection sec = true /\ sec ∉ disabled db /\ has_source db u sec) /\
      (forall g, out !! sec = Some g ->
         Granted g = true /\
         (Write g = true <-> ReadOnly u = false /\ has_write_source db u sec) /\
         (forall h, HasHost g h = true <-> h = 0 \/ has_reach_source db u sec h))
  end.
Proof.
  destruct (EffectiveGrants fault (Some u) db) as [out|e] eqn:E.
  - intros sec. destruct (EffectiveGrants_lookup fault u db out sec E) as [H1 H2].
    split; [done|]. intros g Hg. destruct (H2 g Hg) as (? & ? & Hr).
    split; [done|]. split; [done|]. intros h. rewrite <- Hr. unfold HasHost.
    rewrite !orb_true_iff, Z.eqb_eq, bool_decide_eq_true. tauto.
  - unfold EffectiveGrants, roleScopesForUser, DisabledSections, query in E.
    destruct (fault (QRoleScopes _)); [done|]. destruct (fault (QGrantRows _)); [done|].
    by destruct (fault QDisabledSections).
Qed.

(** rewriting a role's section grants is all or nothing and exact.  On an
    error the tables are untouched; on success the role grants precisely the
    known sections the request names (after trimming), each with the write flag
    of its first entry, and no other role, scope or assignment changes. *)
Theorem replace_role_sections_exact fault r secs db :
  match replaceRoleSections fault r secs db with
  | (db', Err _) => db' = db
  | (db', Ok _) =>
      (forall s, role_sections db' !! (r, s) = if ValidSection s then first_entry secs s else None) /\
      (forall r' s, r' <> r -> role_sections db' !! (r', s) = role_sections db !! (r', s)) /\
      roles db' = roles db /\ role_hosts db' = role_hosts db /\ user_roles db' = user_roles db
  end.
Proof.
  destruct (replaceRoleSections fault r secs db) as [db' [[]|e]] eqn:E.
  - apply replaceRoleSections_ok in E as (H1 & H2 & ->). split; [|split]; [done|done|]. by destruct db.
  - by eapply in_tx_err.
Qed.

(** a built-in role cannot be edited or deleted, and the LDAP fallback role
    cannot be deleted: the call is refused and the tables keep every row. *)
Theorem protected_roles_immutable fault id row db name desc secs hs :
  roles db !! id = Some row ->
  (rrBuiltin row = true ->
     (exists e, UpdateRole fault id name desc secs hs db = (db, Err e)) /\
     (exists e, DeleteRole fault id db = (db, Err e))) /\
  (ldap_fallback db = id -> exists e, DeleteRole fault id db = (db, Err e)).
Proof.
  intros Hrow.
  assert (Hr : forall r, RoleByID fault id db = Ok r -> rBuiltin r = rrBuiltin row).
  { intros r. unfold RoleByID, query. destruct (fault (QRoleByID id)); [done|]. simpl. rewrite Hrow.
    unfold roleSections, roleHosts, query.
    destruct (fault (QRoleSections id)), (fault (QRoleHosts id)); try done. by intros [= <-]. }
  unfold UpdateRole, DeleteRole, st_lift, mbind, stM_bind.
  destruct (RoleByID fault id db) as [r|e] eqn:E; [|eauto 10].
  rewrite (Hr r eq_refl). split.
  - intros ->. unfold st_fail. eauto.
  - intros <-. destruct (rrBuiltin row); unfold st_fail, query; [eauto|].
    destruct (fault QGetLDAP); [eauto|]. rewrite Z.eqb_refl. eauto.
Qed.

Definition no_fault : Query -> bool := fun _ => false.

(** Viewer and Operator seeded into an empty database, one remote host. *)
Definition seeded : DB :=
  (seedBuiltinRoles no_fault (mkDB ∅ 0 ∅ ∅ ∅ {[1 := "local"; 7 := "ssh"; 8 := "ssh"]} [] 0)).1.

Example protected_roles_immutable_witness :
  exists row, roles seeded !! 1 = Some row /\ rrBuiltin row = true /\
    exists e, DeleteRole no_fault 1 seeded = (seeded, Err e).
Proof.
  eexists. split; [vm_compute; reflexivity|]. split; [reflexivity|].
  refine (proj2 (proj1 (protected_roles_immutable no_fault 1 _ seeded "" "" [] [] _) _));
    vm_compute; reflexivity.
Defined.

(** deleting a role takes it away from everyone.  After a successful delete
    the role is gone, every account keeps exactly the grants it had from its
    other roles, and none survives from the deleted one, although its rows in
    role_sections stay behind. *)
Theorem delete_role_revokes fault id db db' :
  DeleteRole fault id db = (db', Ok ()) ->
  roles db' = delete id (roles db) /\
  (forall u sec w r, role_grants db' u sec w r <-> role_grants db u sec w r /\ r <> id) /\
  (forall r h, r <> id -> role_reaches db' r h <-> role_reaches db r h).
Proof.
  intros H. apply st_bind_ok in H as (db0 & r & Hr & H). injection Hr as <- Hr.
  destruct (rBuiltin r); [done|].
  apply st_bind_ok in H as (db0 & fb & Hf & H). injection Hf as <- Hf. destruct (fb =? id); [done|].
  apply st_bind_ok in H as (db1 & [] & H1 & H). apply st_bind_ok in H as (db2 & [] & H2 & H3).
  apply exec_inv in H1 as [(_ & -> & _)|(? & _)]; [|done].
  apply exec_inv in H2 as [(_ & -> & _)|(? & _)]; [|done].
  apply exec_inv in H3 as [(_ & -> & _)|(? & _)]; [|done].
  split; [done|]. split.
  - intros u sec w r'. unfold role_grants. simpl. rewrite elem_of_filter. simpl. tauto.
  - intros r' h Hr'. unfold role_reaches. simpl. setoid_rewrite elem_of_filter. simpl.
    naive_solver.
Qed.

(** An unscoped role 3 over containers, held by user 5. *)
Definition with_role : DB :=
  (SetUserRoles no_fault 5 [3]
    (CreateRole no_fault (mkRole 0 "Ops" "" false [mkRS "containers" true] []) seeded).1).1.

Example delete_role_revokes_witness :
  (exists db', DeleteRole no_fault 3 with_role = (db', Ok ())) /\
  role_grants with_role (zero_user 5 "bob" "user") "containers" true 3 /\
  ~ role_grants (DeleteRole no_fault 3 with_role).1 (zero_user 5 "bob" "user") "containers" true 3.
Proof.
  split; [eexists; vm_compute; reflexivity|].
  split; [split; [vm_compute; tauto|vm_compute; reflexivity]|].
  intros Hg.
  destruct (delete_role_revokes no_fault 3 with_role (DeleteRole no_fault 3 with_role).1)
    as (_ & H & _); [vm_compute; reflexivity|].
  by apply H in Hg as [_ ?].
Defined.

Lemma bind_run {A B} (m : stM DB StoreErr A) (k : A -> stM DB StoreErr B) db db1 a :
  m db = (db1, Ok a) -> mbind (M := stM DB StoreErr) k m db = k a db1.
Proof. unfold mbind, stM_bind. by intros ->. Qed.

Lemma exec_insert_fresh q taken f db :
  taken db = false -> exec_insert no_fault q taken f db = (f db, Ok ()).
Proof. unfold exec_insert. simpl. by intros ->. Qed.

(** The assignment loop adds the existing, positive, unseen ids. *)
Lemma insert_user_roles_spec uid db0 ids : forall seen db,
  roles db = roles db0 -> (forall r, (uid, r) ∈ user_roles db -> r ∈ seen) ->
  (insert_user_roles no_fault uid seen ids db).2 = Ok () /\
  forall u r, (u, r) ∈ user_roles (insert_user_roles no_fault uid seen ids db).1 <->
    (u, r) ∈ user_roles db \/
    (u = uid /\ r ∈ ids /\ 0 < r /\ r ∉ seen /\ is_Some (roles db0 !! r)).
Proof.
  induction ids as [|id ids IH]; intros seen db Hro Hin; simpl; [set_solver|].
  destruct ((id <=? 0) || bool_decide (id ∈ seen)) eqn:Ec.
  { destruct (IH seen db Hro Hin) as [-> IH']. split; [done|]. intros u r. rewrite IH'. set_unfold.
    apply orb_true_iff in Ec as [?%Z.leb_le|?%bool_decide_eq_true]; split;
      (intros [?|(-> & Hr & ? & ? & ?)]; [by left|]);
      try (destruct Hr as [->|?]; [lia || done|]); right; auto 10. }
  bsimp.
  assert (is_ok (RoleByID no_fault id db) = bool_decide (is_Some (roles db0 !! id))) as ->.
  { unfold RoleByID, query, no_fault, roleSections, roleHosts, query. simpl. rewrite Hro.
    by destruct (roles db0 !! id). }
  case_bool_decide as Hid.
  - erewrite bind_run by (apply exec_insert_fresh, bool_decide_eq_false_2; naive_solver).
    destruct (IH ({[id]} ∪ seen) (set_user_roles (fun s => {[(uid, id)]} ∪ s) db) Hro)
      as [-> IH']; [simpl; set_solver|].
    split; [done|]. intros u r. rewrite IH'. simpl. set_unfold. split.
    + intros [[[= -> ->]|?]|(-> & ? & ? & ? & ?)]; [right|by left|right]; auto 10.
    + intros [?|(-> & [->|?] & ? & ? & ?)]; [by left; right|by left; left|].
      destruct (decide (r = id)) as [->|?]; [by left; left|]. right. naive_solver.
  - destruct (IH ({[id]} ∪ seen) db Hro) as [-> IH']; [set_solver|].
    split; [done|]. intros u r. rewrite IH'. set_unfold. split.
    + intros [?|(-> & ? & ? & ? & ?)]; [by left|right]; auto 10.
    + intros [?|(-> & [->|?] & ? & ? & ?)]; [by left|done|].
      destruct (decide (r = id)) as [->|?]; [done|]. right. naive_solver.
Qed.

(** [SetUserRoles] assigns exactly the requested roles that exist, once each,
    drops unknown and non-positive ids, and leaves every other account alone. *)
Theorem set_user_roles_exact uid ids db :
  (SetUserRoles no_fault uid ids db).2 = Ok () /\
  forall u r, (u, r) ∈ user_roles (SetUserRoles no_fault uid ids db).1 <->
    if bool_decide (u = uid) then r ∈ ids /\ 0 < r /\ is_Some (roles db !! r)
    else (u, r) ∈ user_roles db.
Proof.
  unfold SetUserRoles. erewrite bind_run by done.
  destruct (insert_user_roles_spec uid db ids ∅
    (set_user_roles (filter (fun ur => ur.1 <> uid)) db) eq_refl) as [-> Hspec];
    [simpl; set_solver|].
  split; [done|]. intros u r. rewrite Hspec. simpl. rewrite elem_of_filter. simpl.
  case_bool_decide; set_solver.
Qed.

#[global] Arguments EffectiveGrants : simpl never.
#[global] Arguments ReachableHosts : simpl never.
#[global] Arguments CanReachHost : simpl never.
#[global] Arguments NormalizeHostID : simpl never.
