(* ===== verification/RolesInv.v ===== *)
(** * The invariant of the role tables

    Well-formedness of the tables, a small Hoare logic for the store's
    operations, and preservation by every operation under every fault. *)
From S2P Require Import Prelude GoStrings Users Roles.

(** ** The invariant *)
Record wf (db : DB) : Prop := {
  (** every stored grant names a known section *)
  wf_section r s w : role_sections db !! (r, s) = Some w -> ValidSection s = true;
  (** a host scope never names the local daemon (0) or a negative id *)
  wf_host r h : (r, h) ∈ role_hosts db -> 0 < h;
  (** a scope or an assignment refers to a role that exists *)
  wf_scope r h : (r, h) ∈ role_hosts db -> is_Some (roles db !! r);
  wf_assign u r : (u, r) ∈ user_roles db -> is_Some (roles db !! r);
  (** ids are positive and handed out once *)
  wf_id r : is_Some (roles db !! r) -> 0 < r <= roles_seq db;
  wf_orphan r s w : role_sections db !! (r, s) = Some w -> 0 < r <= roles_seq db;
  wf_seq : 0 <= roles_seq db;
  (** names are unique *)
  wf_name r r' row row' : roles db !! r = Some row -> roles db !! r' = Some row' ->
    rrName row = rrName row' -> r = r'
}.

(** ** Triples: postconditions for success and for failure *)
Definition triple {A} (P : DB -> Prop) (m : stM DB StoreErr A) (Q : A -> DB -> Prop) (R : DB -> Prop) : Prop :=
  forall db, P db -> match m db with (db', Ok a) => Q a db' | (db', Err _) => R db' end.

Section Rules.
Context (fault : Query -> bool).

Lemma triple_ret {A} (P : DB -> Prop) (a : A) (Q : A -> DB -> Prop) R :
  (forall db, P db -> Q a db) -> triple P (mret a) Q R.
Proof. intros H db HP. by apply H. Qed.

Lemma triple_bind {A B} P (m : stM DB StoreErr A) (k : A -> stM DB StoreErr B) Q1 Q R :
  triple P m Q1 R -> (forall a, triple (Q1 a) (k a) Q R) ->
  triple P (mbind (M := stM DB StoreErr) k m) Q R.
Proof.
  intros Hm Hk db HP. specialize (Hm db HP). unfold mbind, stM_bind.
  destruct (m db) as [db' [a|e]]; [by apply Hk|done].
Qed.

Lemma triple_exec (P : DB -> Prop) q f (Q : () -> DB -> Prop) R :
  (forall db, P db -> Q () (f db) /\ R db) -> triple P (exec fault q f) Q R.
Proof. intros H db HP. unfold exec. destruct (fault q); by apply H. Qed.

Lemma triple_insert (P : DB -> Prop) q taken f (Q : () -> DB -> Prop) R :
  (forall db, P db -> (taken db = false -> Q () (f db)) /\ R db) ->
  triple P (exec_insert fault q taken f) Q R.
Proof.
  intros H db HP. unfold exec_insert. destruct (fault q), (taken db) eqn:?; by apply H.
Qed.

Lemma triple_lift {A} (P : DB -> Prop) (r : DB -> result StoreErr A) (Q : A -> DB -> Prop) R :
  (forall db, P db -> match r db with Ok a => Q a db | Err _ => R db end) ->
  triple P (st_lift r) Q R.
Proof. intros H db HP. specialize (H db HP). unfold st_lift. by destruct (r db). Qed.

Lemma triple_fail {A} (P : DB -> Prop) e (Q : A -> DB -> Prop) (R : DB -> Prop) :
  (forall db, P db -> R db) -> triple P (st_fail e) Q R.
Proof. intros H db HP. by apply H. Qed.

Lemma triple_dup {A} P (m : stM DB StoreErr A) Q R :
  triple P m Q R -> triple P (unique_is_duplicate m) Q R.
Proof.
  intros H db HP. specialize (H db HP). unfold unique_is_duplicate.
  destruct (m db) as [db' [a|[]]]; done.
Qed.

(** A rolled back transaction leaves the state it started from. *)
Lemma triple_tx {A} (P : DB -> Prop) (m : stM DB StoreErr A) (Q : A -> DB -> Prop) (R : DB -> Prop) :
  triple P m Q (fun _ => True) -> (forall db, P db -> R db) -> triple P (in_tx fault m) Q R.
Proof.
  intros Hm HR db HP. destruct (in_tx fault m db) as [db' [a|e]] eqn:E.
  - apply in_tx_ok in E. specialize (Hm db HP). by rewrite E in Hm.
  - apply in_tx_err in E as ->. by apply HR.
Qed.

Lemma triple_weaken {A} (P P' : DB -> Prop) (m : stM DB StoreErr A) Q R :
  triple P' m Q R -> (forall db, P db -> P' db) -> triple P m Q R.
Proof. intros H HP db ?. by apply H, HP. Qed.
End Rules.

(** ** The tables stay well formed *)
Section Preserve.
Context (fault : Query -> bool).

(** Well formed, and [id] names a role. *)
Definition wf_with (id : Z) (db : DB) : Prop := wf db /\ is_Some (roles db !! id).

Ltac wf_destruct := match goal with H : wf ?db |- _ => destruct H end.

Lemma insert_sections_wf id secs : forall seen,
  triple (wf_with id) (insert_sections fault id seen secs) (fun _ => wf_with id) (fun _ => True).
Proof.
  induction secs as [|rs secs IH]; intros seen; simpl; [by apply triple_ret|].
  destruct (_ || _) eqn:Ec; [apply IH|]. bsimp.
  eapply (triple_bind _ _ _ (fun _ => wf_with id)); [|intros []; apply IH].
  apply triple_insert. intros db [Hwf Hid]. split; [intros _|done]. split; [|done].
  pose proof (wf_id _ Hwf _ Hid). wf_destruct. split; simpl; eauto.
  - intros r s w [[[= <- <-] <-]|[? ?]]%lookup_insert_Some; eauto.
  - intros r s w [[[= <- <-] <-]|[? ?]]%lookup_insert_Some; eauto.
Qed.

Lemma insert_hosts_wf id ids : forall seen,
  triple (wf_with id) (insert_hosts fault id seen ids) (fun _ => wf_with id) (fun _ => True).
Proof.
  induction ids as [|h ids IH]; intros seen; simpl; [by apply triple_ret|].
  destruct (_ || _) eqn:Ec; [apply IH|]. bsimp.
  eapply (triple_bind _ _ _ (fun _ => wf_with id)); [|intros []; apply IH].
  apply triple_insert. intros db [Hwf Hid]. split; [intros _|done]. split; [|done].
  wf_destruct. split; simpl; eauto.
  - intros r h'. rewrite elem_of_union, elem_of_singleton. intros [[= -> ->]|?]; eauto.
  - intros r h'. rewrite elem_of_union, elem_of_singleton. intros [[= -> ->]|?]; eauto.
Qed.

Lemma replaceRoleSections_wf id secs :
  triple (wf_with id) (replaceRoleSections fault id secs) (fun _ => wf_with id) wf.
Proof.
  apply triple_tx; [|by intros ? []].
  eapply (triple_bind _ _ _ (fun _ => wf_with id)); [|intros []; apply insert_sections_wf].
  apply triple_exec. intros db [Hwf Hid]. split; [|done]. split; [|done].
  wf_destruct. split; simpl; eauto.
  - intros r s w [? _]%map_lookup_filter_Some. eauto.
  - intros r s w [? _]%map_lookup_filter_Some. eauto.
Qed.

Lemma replaceRoleHosts_wf id ids :
  triple (wf_with id) (replaceRoleHosts fault id ids) (fun _ => wf_with id) wf.
Proof.
  apply triple_tx; [|by intros ? []].
  eapply (triple_bind _ _ _ (fun _ => wf_with id)); [|intros []; apply insert_hosts_wf].
  apply triple_exec. intros db [Hwf Hid]. split; [|done]. split; [|done].
  wf_destruct. split; simpl; eauto.
  - intros r h [_ ?]%elem_of_filter. eauto.
  - intros r h [_ ?]%elem_of_filter. eauto.
Qed.

Lemma name_taken_false id name db r row :
  name_taken id name db = false -> roles db !! r = Some row -> rrName row = name -> r = id.
Proof.
  intros Ht Hr Hn. destruct (decide (r = id)) as [|Hne]; [done|]. exfalso.
  apply not_true_iff_false in Ht. apply Ht, existsb_exists. exists (r, row). split.
  - apply list_elem_of_In, elem_of_map_to_list, Hr.
  - simpl. rewrite Hn, String.eqb_refl, andb_true_r. apply negb_true_iff, Z.eqb_neq, Hne.
Qed.

Lemma insert_role_wf name desc builtin :
  triple wf (insert_role fault name desc builtin) (fun id db => wf_with id db) wf.
Proof.
  intros db Hwf. unfold insert_role.
  pose proof (triple_insert fault wf (QInsertRole name) (name_taken (roles_seq db + 1) name)
    (fun db0 => mkDB (<[roles_seq db + 1 := mkRow name desc builtin]> (roles db0)) (roles_seq db + 1)
       (role_sections db0) (role_hosts db0) (user_roles db0) (hosts db0) (disabled db0) (ldap_fallback db0))
    (fun _ db' => forall db0, db0 = db -> wf_with (roles_seq db + 1) db') wf) as H.
  unfold triple, exec_insert in *.
  destruct (fault _); [done|]. destruct (name_taken (roles_seq db + 1) name db) eqn:Et; [done|].
  clear H. split; [|simpl; rewrite lookup_insert_eq; eauto].
  set (id := roles_seq db + 1) in *. pose proof (wf_seq _ Hwf).
  assert (Hmono : forall r, is_Some (roles db !! r) -> is_Some (<[id:=mkRow name desc builtin]> (roles db) !! r)).
  { intros r. destruct (decide (r = id)) as [->|]; [rewrite lookup_insert_eq; eauto|].
    by rewrite lookup_insert_ne by done. }
  pose proof (wf_name _ Hwf) as Hnm. pose proof (name_taken_false id name db) as Ht.
  wf_destruct. split; simpl; eauto; try lia.
  - intros r [row Hr]. apply lookup_insert_Some in Hr as [[<- _]|[_ Hr]]; [lia|].
    specialize (wf_id0 r (ex_intro _ _ Hr)). lia.
  - intros r s w Hs. specialize (wf_orphan0 r s w Hs). lia.
  - intros r r' row row' [[<- <-]|[? Hr]]%lookup_insert_Some [[<- <-]|[? Hr']]%lookup_insert_Some; simpl;
      eauto; intros Hn; symmetry; eapply Ht; eauto.
Qed.

Lemma CreateRole_wf r : triple wf (CreateRole fault r) (fun _ => wf) wf.
Proof.
  unfold CreateRole. destruct (String.eqb _ _); [by apply triple_fail|].
  eapply (triple_bind _ _ _ wf_with); [apply triple_dup, insert_role_wf|]. intros id.
  eapply (triple_bind _ _ _ (fun _ => wf_with id)); [apply replaceRoleSections_wf|]. intros [].
  eapply (triple_bind _ _ _ (fun _ => wf_with id)); [apply replaceRoleHosts_wf|]. intros [].
  apply triple_ret. by intros ? [].
Qed.

Lemma RoleByID_exists id db r : RoleByID fault id db = Ok r -> is_Some (roles db !! id).
Proof.
  unfold RoleByID, query. destruct (fault _); [done|]. simpl. by destruct (roles db !! id).
Qed.

Lemma UpdateRole_wf id name desc secs hs :
  triple wf (UpdateRole fault id name desc secs hs) (fun _ => wf) wf.
Proof.
  unfold UpdateRole. eapply (triple_bind _ _ _ (fun _ => wf_with id)).
  { apply triple_lift. intros db Hwf. destruct (RoleByID fault id db) eqn:E; [|done].
    split; [done|by eapply RoleByID_exists]. }
  intros existing. destruct (rBuiltin existing); [apply triple_fail; by intros ? []|].
  destruct (String.eqb _ _); [apply triple_fail; by intros ? []|].
  eapply (triple_bind _ _ _ (fun _ => wf_with id)).
  { apply triple_dup, triple_insert. intros db [Hwf Hid]. split; [|done]. intros Ht.
    pose proof (name_taken_false id (TrimSpace name) db) as Htn.
    assert (Hal : forall r, is_Some (alter (fun row => mkRow (TrimSpace name) desc (rrBuiltin row)) id (roles db) !! r)
              <-> is_Some (roles db !! r)) by (intros r; rewrite lookup_alter_is_Some; done).
    split; [|by apply Hal]. wf_destruct. split; simpl; eauto.
    - intros r h Hh. apply Hal. eauto.
    - intros u r Hu. apply Hal. eauto.
    - intros r Hr. apply wf_id0, Hal, Hr.
    - intros r r' row row' Hr Hr' Hn.
      apply lookup_alter_Some in Hr as [(<- & x & Hx & ->)|[? Hr]];
      apply lookup_alter_Some in Hr' as [(<- & x' & Hx' & ->)|[? Hr']]; simpl in *; eauto.
      symmetry. eapply Htn; eauto. }
  intros []. eapply (triple_bind _ _ _ (fun _ => wf_with id)); [apply replaceRoleSections_wf|]. intros [].
  eapply triple_weaken with (P' := wf_with id); [|done].
  intros db Hdb. pose proof (replaceRoleHosts_wf id hs db Hdb) as H.
  destruct (replaceRoleHosts fault id hs db) as [? []]; [by destruct H|done].
Qed.

Lemma DeleteRole_wf id : triple wf (DeleteRole fault id) (fun _ => wf) wf.
Proof.
  unfold DeleteRole. eapply (triple_bind _ _ _ (fun _ => wf)).
  { apply triple_lift. intros db Hwf. by destruct (RoleByID fault id db). }
  intros existing. destruct (rBuiltin existing); [by apply triple_fail|].
  eapply (triple_bind _ _ _ (fun _ => wf)).
  { apply triple_lift. intros db Hwf. by destruct (query _ _ _ _). }
  intros fb. destruct (fb =? id); [by apply triple_fail|].
  eapply (triple_bind _ _ _ (fun _ db => wf db /\ forall u, (u, id) ∉ user_roles db)).
  { apply triple_exec. intros db Hwf. split; [|done]. wf_destruct. split; [split; simpl; eauto|].
    - intros u r [_ ?]%elem_of_filter. eauto.
    - intros u [? _]%elem_of_filter. done. }
  intros []. eapply (triple_bind _ _ _ (fun _ db => wf db /\ (forall u, (u, id) ∉ user_roles db)
      /\ forall h, (id, h) ∉ role_hosts db)).
  { apply triple_exec. intros db [Hwf Hu]. split; [|done]. wf_destruct.
    split; [split; simpl; eauto|split; [done|]].
    - intros r h [_ ?]%elem_of_filter. eauto.
    - intros r h [_ ?]%elem_of_filter. eauto.
    - intros h [? _]%elem_of_filter. done. }
  intros []. apply triple_exec. intros db (Hwf & Hu & Hh). split; [|done].
  assert (Hd : forall r, r <> id -> is_Some (roles db !! r) -> is_Some (delete id (roles db) !! r)).
  { intros r Hr. by rewrite lookup_delete_ne. }
  wf_destruct. split; simpl; eauto.
  - intros r h Hx. apply Hd; [|by eauto]. intros ->. by apply (Hh h).
  - intros u r Hx. apply Hd; [|by eauto]. intros ->. by apply (Hu u).
  - intros r [row [_ Hr]%lookup_delete_Some]. eauto.
  - intros r r' row row' [_ ?]%lookup_delete_Some [_ ?]%lookup_delete_Some. eauto.
Qed.

Lemma insert_user_roles_wf uid ids : forall seen,
  triple wf (insert_user_roles fault uid seen ids) (fun _ => wf) wf.
Proof.
  induction ids as [|id ids IH]; intros seen; simpl; [by apply triple_ret|].
  destruct (_ || _); [apply IH|]. intros db Hwf. cbv zeta.
  destruct (RoleByID fault id db) as [r|e] eqn:E; simpl; [|by apply IH].
  assert (Hid : is_Some (roles db !! id)) by (by eapply RoleByID_exists).
  revert db Hwf E Hid.
  assert (triple (wf_with id)
    (mbind (M := stM DB StoreErr) (fun _ => insert_user_roles fault uid ({[id]} ∪ seen) ids)
       (exec_insert fault (QInsertUserRole uid id) (fun db => bool_decide ((uid, id) ∈ user_roles db))
          (set_user_roles (fun s => {[(uid, id)]} ∪ s)))) (fun _ => wf) wf) as H; [|intros db ???; by apply H].
  eapply (triple_bind _ _ _ (fun _ => wf)); [|intros []; apply IH].
  apply triple_insert. intros db [Hwf Hid]. split; [intros _|done].
  wf_destruct. split; simpl; eauto.
  intros u r0. rewrite elem_of_union, elem_of_singleton. intros [[= -> ->]|?]; eauto.
Qed.

Lemma SetUserRoles_wf uid ids : triple wf (SetUserRoles fault uid ids) (fun _ => wf) wf.
Proof.
  eapply (triple_bind _ _ _ (fun _ => wf)); [|intros []; apply insert_user_roles_wf].
  apply triple_exec. intros db Hwf. split; [|done]. wf_destruct. split; simpl; eauto.
  intros u r [_ ?]%elem_of_filter. eauto.
Qed.

Lemma seed_roles_wf l : triple wf (seed_roles fault l) (fun _ => wf) wf.
Proof.
  induction l as [|[[name desc] secs] l IH]; simpl; [by apply triple_ret|].
  eapply (triple_bind _ _ _ (fun _ => wf)).
  { apply triple_lift. intros db Hwf. by destruct (query _ _ _ _). }
  intros []; [apply IH|].
  eapply (triple_bind _ _ _ wf_with); [apply insert_role_wf|]. intros id.
  eapply (triple_bind _ _ _ (fun _ => wf_with id)); [apply replaceRoleSections_wf|]. intros [].
  eapply triple_weaken; [apply IH|by intros ? []].
Qed.
End Preserve.

(** ** Reachable tables *)

(** One call on the store, whichever of its statements fail. *)
Inductive step : DB -> DB -> Prop :=
  | step_seed fault db : step db (seedBuiltinRoles fault db).1
  | step_create fault r db : step db (CreateRole fault r db).1
  | step_update fault id name desc secs hs db : step db (UpdateRole fault id name desc secs hs db).1
  | step_delete fault id db : step db (DeleteRole fault id db).1
  | step_assign fault uid ids db : step db (SetUserRoles fault uid ids db).1
  | step_disable fault keys db : step db (SetDisabledSections fault keys db).1.

(** The state a fresh installation starts from: no roles, any hosts. *)
Definition initial (db : DB) : Prop :=
  roles db = ∅ /\ roles_seq db = 0 /\ role_sections db = ∅ /\ role_hosts db = ∅ /\ user_roles db = ∅.

Lemma triple_fst {A} P (m : stM DB StoreErr A) db :
  triple P m (fun _ => wf) wf -> P db -> wf (m db).1.
Proof. intros H HP. specialize (H db HP). by destruct (m db) as [? []]. Qed.

Lemma step_wf db db' : step db db' -> wf db -> wf db'.
Proof.
  intros [] Hwf; (eapply triple_fst; [|exact Hwf]).
  - apply seed_roles_wf.
  - apply CreateRole_wf.
  - apply UpdateRole_wf.
  - apply DeleteRole_wf.
  - apply SetUserRoles_wf.
  - apply triple_exec. intros ? H. split; [|done]. destruct H. by split.
Qed.

Lemma initial_wf db : initial db -> wf db.
Proof.
  intros (H1 & H2 & H3 & H4 & H5). split; rewrite ?H1, ?H2, ?H3, ?H4, ?H5; try lia; try set_solver.
  all: intros *; rewrite ?lookup_empty; try done; try by intros [].
Qed.

(** C12: however calls to the store follow one another and whichever of their
    statements fail, from a fresh installation the role tables stay well
    formed: only known sections are granted, scopes hold positive host ids, no
    scope or assignment refers to a role that does not exist, ids are never
    reused and names stay unique. *)
Theorem role_tables_wf db0 db : initial db0 -> rtc step db0 db -> wf db.
Proof.
  intros H0%initial_wf Hs. induction Hs as [|x y z Hxy _ IH]; [done|]. apply IH. by eapply step_wf.
Qed.

Example role_tables_wf_witness :
  wf (CreateRole no_fault (mkRole 0 "Ops" "" false [mkRS "images" true] [7]) seeded).1.
Proof.
  apply (role_tables_wf (mkDB ∅ 0 ∅ ∅ ∅ {[1 := "local"; 7 := "ssh"; 8 := "ssh"]} [] 0)).
  - repeat split; reflexivity.
  - eapply rtc_l; [exact (step_seed no_fault _)|]. eapply rtc_l; [|apply rtc_refl].
    exact (step_create no_fault _ _).
Defined.
