(* ===== verification/Access.v ===== *)
(** * The access gate (internal/api/access_middleware.go)

    Which section a request belongs to, whether it writes, and whether the
    caller's grants allow it; proved against the interface [GrantStore] the
    store offers the middleware, which [Roles] implements. *)
From S2P Require Import Prelude GoStrings Users Roles.

(** ** Requests *)

(** The parts of an *http.Request the gate reads: [rHost] is
    [r.URL.Query().Get("host")], "" when absent. *)
Record Request := mkReq { Method : string; Path : string; rHost : string }.

Definition api_rest (path : string) : string := TrimPrefix path "/api/".

(** The part of [p] before its first '/', all of it when there is none. *)
Definition first_segment (p : string) : string :=
  match IndexByte p "/"%char with Some i => stake i p | None => p end.

Definition sectionForInspectKind (p : string) : string :=
  let kind := match IndexByte p "/"%char with
              | Some i => first_segment (sdrop (i + 1) p)
              | None => ""
              end in
  if String.eqb kind "image" then "images"
  else if String.eqb kind "volume" then "volumes"
  else if String.eqb kind "network" then "networks"
  else "containers".

Definition sectionForPath (path : string) : string :=
  let p := api_rest path in
  let seg := first_segment p in
  if one_of seg ["containers"; "stacks"] then "containers"
  else if one_of seg ["projects"; "project-templates"; "service-blocks"; "compose-fragments"] then "projects"
  else if one_of seg ["images"] then "images"
  else if one_of seg ["volumes"] then "volumes"
  else if one_of seg ["networks"] then "networks"
  else if one_of seg ["topology"] then "topology"
  else if one_of seg ["events"] then "events"
  else if one_of seg ["parse-rules"] then "logs"
  else if one_of seg ["alerts"; "alert-rules"; "webhooks"; "maintenance-windows"] then "alerts"
  else if one_of seg ["smtp"] then "__admin"
  else if one_of seg ["hosts"] then "hosts"
  else if one_of seg ["registries"] then "registries"
  else if one_of seg ["audit"] then "audit"
  else if one_of seg ["diagnostics"] then "diagnostics"
  else if one_of seg ["users"; "roles"; "settings"; "ldap"; "update"; "mcp-admin"; "policy-rules"] then "__admin"
  else if one_of seg ["recovery"] then "__admin"
  else if one_of seg ["backup-jobs"] then "__admin"
  else if one_of seg ["stats"] then "dashboard"
  else if one_of seg ["system"] then (if HasPrefix p "system/df" then "dashboard" else "")
  else if one_of seg ["inspect"] then sectionForInspectKind p
  else "".

Definition isRawDataDownload (path : string) : bool :=
  let p := api_rest path in
  match Split p "/"%char with
  | [a; _; b] => (String.eqb a "containers" && String.eqb b "export") || String.eqb p "images/save"
  | [a; _; b; c] =>
      (one_of a ["containers"; "volumes"] && String.eqb b "files" && String.eqb c "download")
      || String.eqb p "images/save"
  | _ => String.eqb p "images/save"
  end.

Definition write_suffixes : list string :=
  ["/exec"; "/pull"; "/push"; "/scan"; "/stats/ports"; "/bulk-pull"].

Definition isWriteRequest (r : Request) : bool :=
  if one_of (Method r) ["POST"; "PUT"; "PATCH"; "DELETE"] then true
  else if existsb (HasSuffix (Path r)) write_suffixes then true
  else isRawDataDownload (Path r).

Definition sectionForRequest (r : Request) : string :=
  let p := api_rest (Path r) in
  if (String.eqb p "webhooks" || HasPrefix p "webhooks/") && isWriteRequest r then "__admin"
  else sectionForPath (Path r).

(** [None] for an unknown channel, which the caller denies. *)
Definition wsChannelSection (channel : string) : option string :=
  if one_of channel ["stats"; "logs"] then Some "containers" else None.

(** [None] for a parse error *)
Definition hostParam (r : Request) : option Z :=
  if String.eqb (rHost r) "" then Some 0
  else
    id ← ParseInt (rHost r);
    if id <? 0 then Some 0 else Some id.

(** ** What the gate asks of the store *)
Class GrantStore := {
  gsUserByID : Z -> result StoreErr User;
  gsEffectiveGrants : User -> result StoreErr (gmap string Grant);
  gsReachableHosts : User -> result StoreErr (option (gset Z));
  gsCanReachHost : User -> Z -> result StoreErr bool;
  gsNormalizeHostID : Z -> Z;
  gsListHosts : result StoreErr (list (Z * string))
}.

Class GrantStoreLaws (S : GrantStore) : Prop := {
  (** The local daemon is its own normal form, and normal forms are 0 or the id. *)
  gs_normalize_id h : gsNormalizeHostID h = 0 \/ gsNormalizeHostID h = h;
  gs_normalize_0 : gsNormalizeHostID 0 = 0;
  (** A read-only account holds no writable grant. *)
  gs_read_only u out sec g : gsEffectiveGrants u = Ok out -> ReadOnly u = true ->
    out !! sec = Some g -> Write g = false;
  (** "Reachable somewhere" is the union of what each grant reaches. *)
  gs_can_reach u out h : gsEffectiveGrants u = Ok out ->
    exists b, gsCanReachHost u h = Ok b /\
      (b = true <-> gsNormalizeHostID h = 0 \/
         exists sec g, out !! sec = Some g /\ Granted g = true /\
           (AllHosts g = true \/ h ∈ Hosts g));
  gs_reachable u out : gsEffectiveGrants u = Ok out ->
    exists r, gsReachableHosts u = Ok r /\
      forall h, match r with None => True | Some s => h ∈ s end <->
        (exists sec g, out !! sec = Some g /\ Granted g = true /\ (AllHosts g = true \/ h ∈ Hosts g)) \/ r = None
}.

(** ** The gate *)
Section Gate.
Context `{GS : GrantStore}.

(** [None] is the nil error: allowed. *)
Definition checkAccess (u : User) (section : string) (write : bool) (hostID : Z) : option string :=
  if String.eqb section "" then None
  else if String.eqb section "__admin" then
    (if negb (IsAdmin u) then Some "admin only" else None)
  else if IsAdmin u then None
  else match gsEffectiveGrants u with
  | Err _ => Some "could not determine your permissions"
  | Ok grants =>
      match grants !! section with
      | None => Some "access to this section is not permitted"
      | Some g =>
          if negb (Granted g) then Some "access to this section is not permitted"
          else if write && negb (Write g) then
            Some (if ReadOnly u then "your account is read-only"
                  else "your access to this section is read-only")
          else if negb (HasHost g (gsNormalizeHostID hostID)) then
            Some "your access to this section does not include that host"
          else None
      end
  end.

(** What a middleware does with a request: call the next handler or answer. *)
Inductive Outcome := Next | Reply (status : Z) (msg : string).

(** [claims] is the user id of auth.ClaimsFrom, absent when there is none. *)
Definition callerCanReachHost (claims : option Z) (hostID : Z) : bool :=
  match claims with
  | None => false
  | Some uid =>
      match gsUserByID uid with
      | Err _ => false
      | Ok u =>
          if IsAdmin u then true
          else match gsCanReachHost u hostID with Ok b => b | Err _ => false end
      end
  end.

Definition permissions (claims : option Z) (r : Request) : Outcome :=
  let section := sectionForRequest r in
  if String.eqb section "" then
    match hostParam r with
    | None => Reply 400 "invalid host id"
    | Some hostID =>
        if negb (hostID =? 0) && negb (callerCanReachHost claims hostID)
        then Reply 403 "your access does not include that host"
        else Next
    end
  else match claims with
  | None => Reply 401 "unauthorized"
  | Some uid =>
      match gsUserByID uid with
      | Err _ => Reply 401 "unauthorized"
      | Ok u =>
          match hostParam r with
          | None => Reply 400 "invalid host id"
          | Some hostID =>
              match checkAccess u section (isWriteRequest r) hostID with
              | Some e => Reply 403 e
              | None => Next
              end
          end
      end
  end.

(** The predicate an aggregate view filters by. *)
Definition visibleHosts (claims : option Z) : Z -> bool :=
  let local hostID := gsNormalizeHostID hostID =? 0 in
  match claims with
  | None => local
  | Some uid =>
      match gsUserByID uid with
      | Err _ => local
      | Ok u =>
          if IsAdmin u then fun _ => true
          else match gsReachableHosts u with
          | Err _ => local
          | Ok None => fun _ => true
          | Ok (Some hosts) => fun hostID =>
              (gsNormalizeHostID hostID =? 0) || bool_decide (hostID ∈ hosts)
          end
      end
  end.

Definition localOnly : list Z :=
  0 :: match gsListHosts with
       | Ok hosts => fst <$> filter (fun h => h.2 = "local") hosts
       | Err _ => []
       end.

(** The ids, and whether every host is allowed (the ids are then meaningless). *)
Definition visibleHostIDs (claims : option Z) : list Z * bool :=
  match claims with
  | None => (localOnly, false)
  | Some uid =>
      match gsUserByID uid with
      | Err _ => (localOnly, false)
      | Ok u =>
          if IsAdmin u then ([], true)
          else match gsReachableHosts u with
          | Err _ => (localOnly, false)
          | Ok None => ([], true)
          | Ok (Some hosts) => (localOnly ++ elements hosts, false)
          end
      end
  end.
End Gate.

(** ** The store of [Roles] behind the interface *)
Section Impl.
Context (fault : Query -> bool) (users : gmap Z User) (db : DB) (hosts_fault : bool).

#[export] Instance db_store : GrantStore := {
  gsUserByID id := match users !! id with Some u => Ok u | None => Err ErrNotFound end;
  gsEffectiveGrants u := EffectiveGrants fault (Some u) db;
  gsReachableHosts u := ReachableHosts fault (Some u) db;
  gsCanReachHost u h := CanReachHost fault (Some u) h db;
  gsNormalizeHostID h := NormalizeHostID fault h db;
  gsListHosts := if hosts_fault then Err ErrDB else Ok (map_to_list (hosts db))
}.
End Impl.

(** ** The implementation keeps the interface's laws *)

Lemma reachable_fold (grants : gmap string Grant) :
  let r := map_fold (fun _ g acc =>
        if negb (Granted g) then acc
        else if AllHosts g then None
        else (fun s => s ∪ Hosts g) <$> acc) (Some ∅) grants in
  forall h, match r with None => True | Some s => h ∈ s end <->
    (exists sec g, grants !! sec = Some g /\ Granted g = true /\ (AllHosts g = true \/ h ∈ Hosts g))
    \/ r = None.
Proof.
  simpl. apply (map_fold_weak_ind (fun (r : option (gset Z)) m => forall h,
    match r with None => True | Some s => h ∈ s end <->
    (exists sec g, m !! sec = Some g /\ Granted g = true /\ (AllHosts g = true \/ h ∈ Hosts g))
    \/ r = None)).
  - intros h. split; [set_solver|]. intros [(? & ? & Hx & _)|?]; [|done].
    by rewrite lookup_empty in Hx.
  - intros sec g m r Hsec IH h. specialize (IH h).
    assert (Hins : forall P : string -> Grant -> Prop,
      (exists s g', <[sec:=g]> m !! s = Some g' /\ P s g') <->
      P sec g \/ exists s g', m !! s = Some g' /\ P s g').
    { intros P. split.
      - intros (s & g' & Hl & HP). apply lookup_insert_Some in Hl as [[-> ->]|[? ?]]; eauto.
      - intros [HP|(s & g' & Hl & HP)]; [exists sec, g|exists s, g'].
        + by rewrite lookup_insert_eq.
        + rewrite lookup_insert_ne by congruence. eauto. }
    rewrite (Hins (fun s g' => Granted g' = true /\ (AllHosts g' = true \/ h ∈ Hosts g'))).
    destruct (Granted g), (AllHosts g), r as [s|]; simpl; set_solver.
Qed.

Lemma ReachableHosts_ok fault u db out :
  EffectiveGrants fault (Some u) db = Ok out ->
  exists r, ReachableHosts fault (Some u) db = Ok r /\
    forall h, match r with None => True | Some s => h ∈ s end <->
      (exists sec g, out !! sec = Some g /\ Granted g = true /\ (AllHosts g = true \/ h ∈ Hosts g))
      \/ r = None.
Proof.
  intros E. unfold ReachableHosts. rewrite E. simpl. eexists. split; [done|]. apply reachable_fold.
Qed.

Lemma NormalizeHostID_cases fault h db :
  NormalizeHostID fault h db = 0 \/ NormalizeHostID fault h db = h.
Proof. unfold NormalizeHostID. destruct (h =? 0); [auto|]. repeat case_match; auto. Qed.

(** [None] is only ever the answer when some grant reaches every host. *)
Lemma reachable_none (grants : gmap string Grant) :
  map_fold (fun _ g acc =>
        if negb (Granted g) then acc
        else if AllHosts g then None
        else (fun s => s ∪ Hosts g) <$> acc) (Some (∅ : gset Z)) grants = None ->
  exists sec g, grants !! sec = Some g /\ Granted g = true /\ AllHosts g = true.
Proof.
  apply (map_fold_weak_ind (fun (r : option (gset Z)) m => r = None ->
    exists sec g, m !! sec = Some g /\ Granted g = true /\ AllHosts g = true)).
  - done.
  - intros sec g m r Hsec IH. 
    assert (r = None -> exists sec0 g0, <[sec:=g]> m !! sec0 = Some g0 /\ Granted g0 = true /\ AllHosts g0 = true)
      as IH'.
    { intros Hr. destruct (IH Hr) as (s & g' & Hl & ?). exists s, g'.
      rewrite lookup_insert_ne by congruence. eauto. }
    destruct (Granted g) eqn:E1; simpl; [|done]. destruct (AllHosts g) eqn:E2; [|by destruct r].
    intros _. exists sec, g. by rewrite lookup_insert_eq.
Qed.

#[export] Instance db_store_laws fault users db hf : GrantStoreLaws (db_store fault users db hf).
Proof.
  split; simpl.
  - intros h. apply NormalizeHostID_cases.
  - done.
  - intros u out sec g E HR Hg. destruct (EffectiveGrants_lookup _ _ _ _ sec E) as [_ H].
    destruct (H g Hg) as (_ & Hw & _). destruct (Write g); [|done]. destruct Hw as [Hw _].
    destruct (Hw eq_refl). congruence.
  - intros u out h E. unfold CanReachHost.
    destruct (NormalizeHostID fault h db =? 0) eqn:En; bsimp.
    { exists true. split; [done|]. split; [by left|done]. }
    destruct (ReachableHosts_ok _ _ _ _ E) as (r & Er & Hr). rewrite Er. simpl.
    eexists. split; [done|]. specialize (Hr h).
    destruct r as [s|]; [rewrite bool_decide_eq_true, Hr; naive_solver|].
    split; [|done]. intros _. right. unfold ReachableHosts in Er. rewrite E in Er. simpl in Er.
    injection Er as Er. apply reachable_none in Er as (? & ? & ? & ? & ?). eauto 10.
  - intros u out E. by apply ReachableHosts_ok.
Qed.

(** ** Properties of the gate *)


(** The documented example of docs/users.md: an Operator role limited to host 7
    (staging) and an unlimited Viewer role, both held by account 5. *)
Definition staging_operator : DB :=
  (SetUserRoles no_fault 5 [1; 3]
    (CreateRole no_fault (mkRole 0 "Operator on staging" "" false (writable operatorSections) [7])
       seeded).1).1.

Definition carol : User := zero_user 5 "carol" "user".


(** write access and host reach combine across roles independently.  With
    "Operator on staging" and "Viewer everywhere", docs/users.md says the account
    reads everywhere but changes only staging; the gate lets it write to host 8,
    which no writable role of the account reaches. *)
Theorem write_scope_crosses_roles :
  (forall r, role_grants staging_operator carol "containers" true r -> ~ role_reaches staging_operator r 8) /\
  ~ "containers" ∈ Sections carol /\
  checkAccess (GS := db_store no_fault ∅ staging_operator false) carol "containers" true 8 = None.
Proof.
  split; [|split; [simpl; set_solver|vm_compute; reflexivity]].
  assert (Hu : elements (user_roles staging_operator) = [(5, 3); (5, 1)]) by (vm_compute; reflexivity).
  assert (Hh : elements (role_hosts staging_operator) = [(3, 7)]) by (vm_compute; reflexivity).
  assert (H1 : role_sections staging_operator !! (1, "containers") = Some false) by (vm_compute; reflexivity).
  change (ID carol) with 5. generalize dependent staging_operator. intros db Hu Hh H1 r [Hr Hs] Hreach.
  apply elem_of_elements in Hr. rewrite Hu in Hr.
  assert (Hin : forall h, (r, h) ∈ role_hosts db <-> r = 3 /\ h = 7).
  { intros h. rewrite <- elem_of_elements, Hh, list_elem_of_singleton. naive_solver. }
  apply elem_of_cons in Hr as [[= ->]|[= ->]%list_elem_of_singleton]; [|congruence].
  destruct Hreach as [Hx|Hx]; [apply (Hx 7)|]; apply Hin in Hx || apply Hin; naive_solver.
Qed.

(** *** Against the interface *)
Section Clients.
Context `{GS : GrantStore} {GL : GrantStoreLaws GS}.

Lemma permissions_iff claims r :
  permissions claims r = Next <->
  exists h, hostParam r = Some h /\
    (if String.eqb (sectionForRequest r) "" then h = 0 \/ callerCanReachHost claims h = true
     else exists uid u, claims = Some uid /\ gsUserByID uid = Ok u /\
       checkAccess u (sectionForRequest r) (isWriteRequest r) h = None).
Proof.
  unfold permissions. destruct (String.eqb (sectionForRequest r) "").
  - destruct (hostParam r) as [h|]; [|split; [done|by intros (? & ? & _)]].
    destruct (Z.eqb_spec h 0) as [->|Hne]; simpl;
      [split; [by exists 0; auto|done]|].
    destruct (callerCanReachHost claims h) eqn:Er; simpl;
      [split; [by exists h; auto|done]|].
    split; [done|]. intros (? & [= <-] & [?|?]); congruence.
  - destruct claims as [uid|]; [|split; [done|by intros (? & _ & ? & ? & ? & _)]].
    destruct (gsUserByID uid) as [u|e] eqn:Eu;
      [|split; [done|intros (? & _ & ? & ? & [= <-] & ? & _); congruence]].
    destruct (hostParam r) as [h|]; [|split; [done|by intros (? & ? & _)]].
    destruct (checkAccess _ _ _ h) eqn:Ec; (split; [try done|]).
    + intros (? & [= <-] & ? & ? & [= <-] & ? & ?). congruence.
    + intros _. exists h. split; [done|]. by exists uid, u.
    + done.
Qed.

(** the middleware calls the next handler only for an authorised request.
    On a gated section that means an identified account that still exists, a
    well-formed host and a nil [checkAccess] for the request's own section,
    write intent and host; on an ungated route, a named host the caller can
    reach.  A store error anywhere answers instead. *)
Theorem permissions_next claims r :
  permissions claims r = Next <->
  exists h, hostParam r = Some h /\
    (if String.eqb (sectionForRequest r) "" then h = 0 \/ callerCanReachHost claims h = true
     else exists uid u, claims = Some uid /\ gsUserByID uid = Ok u /\
       checkAccess u (sectionForRequest r) (isWriteRequest r) h = None).
Proof. apply permissions_iff. Qed.

(** the read-only flag is a hard cap: whatever roles a non-admin read-only
    account holds, no request that writes to a gated section gets through. *)
Theorem read_only_never_writes uid u r :
  gsUserByID uid = Ok u -> ReadOnly u = true -> IsAdmin u = false ->
  sectionForRequest r <> "" -> isWriteRequest r = true ->
  permissions (Some uid) r <> Next.
Proof.
  intros Hu Hro Ha Hs Hw Hn. apply permissions_iff in Hn as (h & _ & Hn).
  rewrite (proj2 (String.eqb_neq _ _) Hs) in Hn. destruct Hn as (? & u' & [= <-] & Hu' & Hc).
  assert (u' = u) as -> by congruence. unfold checkAccess in Hc.
  rewrite (proj2 (String.eqb_neq _ _) Hs), Ha, Hw in Hc. simpl in Hc.
  destruct (String.eqb (sectionForRequest r) "__admin"); [done|].
  destruct (gsEffectiveGrants u) as [out|] eqn:E; [|done].
  destruct (out !! sectionForRequest r) as [g|] eqn:Eg; [|done].
  rewrite (gs_read_only u out _ g E Hro Eg) in Hc. destruct (Granted g); done.
Qed.

(** the two questions about a host agree: a host on which the gate lets an
    account act in any section is a host the account can reach at all, so the
    ungated per-host reads and the filtered lists never hide a host the account
    may act on. *)
Theorem allowed_host_is_reachable u section write h uid :
  gsUserByID uid = Ok u -> section <> "" -> section <> "__admin" ->
  checkAccess u section write h = None ->
  callerCanReachHost (Some uid) h = true /\ visibleHosts (Some uid) h = true.
Proof.
  intros Hu Hs1 Hs2 Hc. unfold callerCanReachHost, visibleHosts. rewrite Hu.
  unfold checkAccess in Hc.
  rewrite (proj2 (String.eqb_neq _ _) Hs1), (proj2 (String.eqb_neq _ _) Hs2) in Hc.
  destruct (IsAdmin u); [done|]. destruct (gsEffectiveGrants u) as [out|] eqn:E; [|done].
  destruct (out !! section) as [g|] eqn:Eg; [|done]. destruct (Granted g) eqn:Egr; [|done].
  simpl in Hc. destruct (write && negb (Write g)); [done|].
  destruct (HasHost g (gsNormalizeHostID h)) eqn:Eh; [|done].
  unfold HasHost in Eh. rewrite !orb_true_iff, Z.eqb_eq, bool_decide_eq_true in Eh.
  assert (Hreach : gsNormalizeHostID h = 0 \/ (AllHosts g = true \/ h ∈ Hosts g)).
  { destruct (gs_normalize_id h) as [->|Hn]; [by left|]. rewrite Hn in *. naive_solver. }
  destruct (gs_can_reach u out h E) as (b & -> & Hb).
  destruct (gs_reachable u out E) as (rr & -> & Hrr). split; [apply Hb; naive_solver|].
  destruct rr as [s|]; [|done]. rewrite orb_true_iff, Z.eqb_eq, bool_decide_eq_true.
  destruct Hreach as [?|Hreach]; [by left|right]. apply (Hrr h). left. eauto 10.
Qed.
End Clients.

Definition carol_store : GrantStore :=
  db_store no_fault {[5 := carol]} staging_operator false.

Example read_only_never_writes_witness :
  permissions (GS := db_store no_fault
      {[5 := mkUser 5 "c" "" "user" "" "local" true ["images"] "" false false "" false false 0 0 0 0]}
      staging_operator false)
    (Some 5) (mkReq "POST" "/api/containers/a/stop" "7") <> Next.
Proof.
  eapply read_only_never_writes; [vm_compute; reflexivity|reflexivity|reflexivity| |vm_compute; reflexivity].
  vm_compute. discriminate.
Defined.

Example allowed_host_is_reachable_witness :
  callerCanReachHost (GS := carol_store) (Some 5) 7 = true /\
  visibleHosts (GS := carol_store) (Some 5) 7 = true.
Proof.
  apply (allowed_host_is_reachable (GS := carol_store) carol "containers" true 7 5);
    [vm_compute; reflexivity|discriminate|discriminate|vm_compute; reflexivity].
Defined.

(** *** Routing to sections *)

Lemma first_segment_slash seg rest :
  IndexByte seg "/"%char = None ->
  first_segment seg = seg /\ first_segment (seg +:+ String "/"%char rest) = seg.
Proof.
  unfold first_segment. intros H. by rewrite H, IndexByte_app, stake_app.
Qed.

(** every path is routed to the ungated class, to the admin class or to a
    section that can be granted, so no route is unreachable for every non-admin
    by a misspelt section and no route escapes the three classes; and the
    families that administer the installation are admin-only under every
    sub-path. *)
Theorem sections_are_known path :
  (sectionForPath path = "" \/ sectionForPath path = "__admin" \/
   ValidSection (sectionForPath path) = true) /\
  forall seg rest,
    seg ∈ ["users"; "roles"; "settings"; "ldap"; "update"; "mcp-admin"; "policy-rules";
           "recovery"; "backup-jobs"; "smtp"] ->
    path = "/api/" +:+ seg \/ path = "/api/" +:+ seg +:+ String "/"%char rest ->
    sectionForPath path = "__admin".
Proof.
  split.
  - unfold sectionForPath, sectionForInspectKind.
    repeat match goal with
    | |- context [if ?b then _ else _] => destruct b
    end; auto.
  - intros seg rest Hseg Hp.
    assert (first_segment (api_rest path) = seg) as Hf.
    { assert (IndexByte seg "/"%char = None) as Hn.
      { clear Hp. set_unfold in Hseg. by destruct_or? Hseg; subst. }
      unfold api_rest.
      destruct Hp as [-> | ->]; rewrite TrimPrefix_app; by apply first_segment_slash. }
    unfold sectionForPath. rewrite Hf. clear Hp Hf.
    set_unfold in Hseg. by destruct_or? Hseg; subst.
Qed.

Example sections_are_known_witness : sectionForPath "/api/roles/3" = "__admin".
Proof.
  apply (proj2 (sections_are_known "/api/roles/3") "roles" "3"); [set_solver|by right].
Defined.

(** the list form of the visible hosts and the predicate form agree: for an
    account, the ids pushed into a query are exactly those the predicate
    accepts (when not every host is allowed), provided the host list can be
    read. *)
Theorem visible_ids_agree users db claims :
  let GS := db_store no_fault users db false in
  match visibleHostIDs (GS := GS) claims with
  | (_, true) => forall h, visibleHosts (GS := GS) claims h = true
  | (ids, false) => forall h, h ∈ ids <-> visibleHosts (GS := GS) claims h = true
  end.
Proof.
  simpl.
  assert (Hl : forall h, h ∈ localOnly (GS := db_store no_fault users db false) <->
                 (NormalizeHostID no_fault h db =? 0) = true).
  { intros h. unfold localOnly. simpl. rewrite elem_of_cons, list_elem_of_fmap.
    setoid_rewrite list_elem_of_filter. unfold NormalizeHostID, query, no_fault.
    destruct (Z.eqb_spec h 0) as [->|Hne]; [split; [done|by left]|].
    destruct (hosts db !! h) as [k|] eqn:Eh.
    - destruct (String.eqb k "local") eqn:Ek; bsimp; subst.
      + split; [done|]. intros _. right. exists (h, "local"). split; [done|].
        split; [done|]. by apply elem_of_map_to_list.
      + split; [|intros ?; bsimp; lia]. intros [?|([? ?] & -> & Hk & Hx%elem_of_map_to_list)]; [lia|].
        simpl in *. congruence.
    - split; [|intros ?; bsimp; lia]. intros [?|([? ?] & -> & Hk & Hx%elem_of_map_to_list)]; [lia|].
      simpl in *. congruence. }
  unfold visibleHostIDs, visibleHosts. destruct claims as [uid|]; [|exact Hl].
  cbn [gsReachableHosts gsUserByID db_store].
  destruct (users !! uid) as [u|]; [|exact Hl]. destruct (IsAdmin u); [by intros|].
  destruct (ReachableHosts no_fault (Some u) db) as [[s|]|]; [|by intros|exact Hl].
  intros h. rewrite elem_of_app, elem_of_elements, orb_true_iff, bool_decide_eq_true, Hl. done.
Qed.
