(* ===== verification/RoleHandlers.v ===== *)
(** * The role administration handlers (internal/api/role_handlers.go)

    Each handler runs over the role tables and the audit log it appends to; the
    decoded body is [None] when decodeJSON failed, the path id when ParseInt
    did. *)
From S2P Require Import Prelude GoStrings Users Roles RolesInv.

(** ** Data *)
Record roleBody := mkBody {
  bName : string;
  bDescription : string;
  bSections : list RoleSection;
  bHostIDs : list Z
}.

(** What writeErr or writeJSON answers with. *)
Inductive Resp :=
  | RErr (status : Z) (msg : string)
  | ROk
  | ROkID (id : Z)
  | RCopied (id : Z) (name : string).

(** An audit line: action, target, detail. *)
Definition audit_line : Type := string * string * string.

Record State := mkState { sdb : DB; saudit : list audit_line }.

Definition audited (action target detail : string) (s : State) : State :=
  mkState (sdb s) (saudit s ++ [(action, target, detail)]).

(** ** Audit details *)

Fixpoint sectionSummary_from (first : bool) (sections : list RoleSection) : string :=
  match sections with
  | [] => ""
  | rs :: rest =>
      (if first then "" else ", ") +:+ Section_ rs +:+ (if rsWrite rs then ":rw" else ":r")
      +:+ sectionSummary_from false rest
  end.

Definition sectionSummary (sections : list RoleSection) : string := sectionSummary_from true sections.

Definition scopeSummary (hostIDs : list Z) : string :=
  match hostIDs with
  | [] => " (every host)"
  | _ => " (hosts:" +:+ Join (FormatInt <$> hostIDs) "," +:+ ")"
  end.

(** ** Host scopes *)
Fixpoint clean_hosts (seen : gset Z) (l : list Z) : list Z :=
  match l with
  | [] => []
  | id :: rest =>
      if (0 <? id) && negb (bool_decide (id ∈ seen))
      then id :: clean_hosts ({[id]} ∪ seen) rest
      else clean_hosts seen rest
  end.

(** [inl] is the error response it writes, [inr] the cleaned list. *)
Definition cleanRoleHosts (l : list Z) : Resp + list Z :=
  let out := clean_hosts ∅ l in
  match l, out with
  | _ :: _, [] => inl (RErr 400
      "none of the host ids are valid, so this role would apply to every host instead of the ones you picked")
  | _, _ => inr out
  end.

(** err.Error() of the store errors a handler passes on *)
Definition err_text (e : StoreErr) : string :=
  match e with
  | ErrNotFound => "store: not found"
  | ErrNameRequired => "role name is required"
  | _ => "database error"
  end.

(** ** Handlers *)
Section Handlers.
Context (fault : Query -> bool).

Definition handleCreateRole (body : option roleBody) (s : State) : State * Resp :=
  match body with
  | None => (s, RErr 400 "invalid body")
  | Some b =>
      match cleanRoleHosts (bHostIDs b) with
      | inl r => (s, r)
      | inr hostIDs =>
          match CreateRole fault (mkRole 0 (bName b) (bDescription b) false (bSections b) hostIDs) (sdb s) with
          | (db', Err ErrDuplicate) =>
              (mkState db' (saudit s), RErr 409 "a role with that name already exists")
          | (db', Err e) => (mkState db' (saudit s), RErr 400 (err_text e))
          | (db', Ok id) =>
              (audited "role.create" (bName b) (sectionSummary (bSections b) +:+ scopeSummary hostIDs)
                 (mkState db' (saudit s)), ROkID id)
          end
      end
  end.

Definition handleUpdateRole (id : option Z) (body : option roleBody) (s : State) : State * Resp :=
  match id, body with
  | None, _ => (s, RErr 400 "invalid role id")
  | Some _, None => (s, RErr 400 "invalid body")
  | Some id, Some b =>
      match cleanRoleHosts (bHostIDs b) with
      | inl r => (s, r)
      | inr hostIDs =>
          match UpdateRole fault id (bName b) (bDescription b) (bSections b) hostIDs (sdb s) with
          | (db', Err ErrNotFound) => (mkState db' (saudit s), RErr 404 "role not found")
          | (db', Err ErrBuiltinRole) =>
              (mkState db' (saudit s), RErr 403 "built-in roles cannot be edited — duplicate it instead")
          | (db', Err ErrDuplicate) =>
              (mkState db' (saudit s), RErr 409 "a role with that name already exists")
          | (db', Err e) => (mkState db' (saudit s), RErr 400 (err_text e))
          | (db', Ok _) =>
              (audited "role.update" (bName b) (sectionSummary (bSections b) +:+ scopeSummary hostIDs)
                 (mkState db' (saudit s)), ROk)
          end
      end
  end.

Definition handleDeleteRole (id : option Z) (s : State) : State * Resp :=
  match id with
  | None => (s, RErr 400 "invalid role id")
  | Some id =>
      match RoleByID fault id (sdb s) with
      | Err ErrNotFound => (s, RErr 404 "role not found")
      | Err e => (s, RErr 500 (err_text e))
      | Ok role =>
          match DeleteRole fault id (sdb s) with
          | (db', Err ErrBuiltinRole) =>
              (mkState db' (saudit s), RErr 403 "built-in roles cannot be deleted")
          | (db', Err ErrRoleInUseAsFallback) =>
              (mkState db' (saudit s), RErr 409
                "this role is the LDAP fallback — pick a different fallback in Settings → LDAP first")
          | (db', Err e) => (mkState db' (saudit s), RErr 500 (err_text e))
          | (db', Ok _) => (audited "role.delete" (rName role) "" (mkState db' (saudit s)), ROk)
          end
      end
  end.

(** roleByName: ErrNotFound when no listed role has the name. *)
Definition roleByName (name : string) (db : DB) : result StoreErr RoleT :=
  rs ← ListRoles fault db;
  match list_find (fun r => rName r = name) rs with
  | Some (_, r) => Ok r
  | None => Err ErrNotFound
  end.

(** The search for a free name, counting i up from 2; [inl] is the refusal once
    i passes 50.  [None]: out of fuel, which [free_name_total] rules out. *)
Fixpoint free_name (fuel : nat) (i : Z) (base name : string) (db : DB) : option (Resp + string) :=
  match fuel with
  | O => None
  | S f =>
      match roleByName name db with
      | Err ErrNotFound => Some (inr name)
      | _ =>
          let name := base +:+ " copy " +:+ FormatInt i in
          if 50 <? i then Some (inl (RErr 409 "too many copies of that role"))
          else free_name f (i + 1) base name db
      end
  end.

Definition handleDuplicateRole (id : option Z) (s : State) : State * Resp :=
  match id with
  | None => (s, RErr 400 "invalid role id")
  | Some id =>
      match RoleByID fault id (sdb s) with
      | Err ErrNotFound => (s, RErr 404 "role not found")
      | Err e => (s, RErr 500 (err_text e))
      | Ok src =>
          match free_name 50 2 (rName src) (rName src +:+ " copy") (sdb s) with
          | None => (s, RErr 500 "")
          | Some (inl r) => (s, r)
          | Some (inr name) =>
              match CreateRole fault (mkRole 0 name (rDescription src) false (rSections src) (rHostIDs src)) (sdb s) with
              | (db', Err e) => (mkState db' (saudit s), RErr 500 (err_text e))
              | (db', Ok newID) =>
                  (audited "role.duplicate" (rName src) name (mkState db' (saudit s)), RCopied newID name)
              end
          end
      end
  end.
End Handlers.

(** ** Lemmas *)

Lemma elem_of_clean_hosts l : forall seen h,
  h ∈ clean_hosts seen l <-> h ∈ l /\ 0 < h /\ h ∉ seen.
Proof.
  induction l as [|id l IH]; intros seen h; simpl; [set_solver|].
  destruct (0 <? id) eqn:E0, (bool_decide (id ∈ seen)) eqn:Es; simpl; bsimp;
    rewrite ?elem_of_cons, IH; destruct (decide (h = id)) as [->|]; set_solver by lia.
Qed.

(** The number of names still to try bounds the loop. *)
Lemma free_name_total fault base db fuel : forall i name,
  (0 < fuel)%nat -> 51 - i < Z.of_nat fuel -> is_Some (free_name fault fuel i base name db).
Proof.
  induction fuel as [|f IH]; intros i name Hpos Hi; [lia|]. cbn [free_name].
  destruct (roleByName fault name db) as [r|[]]; try by eexists.
  all: destruct (50 <? i) eqn:E; [by eexists|]; bsimp; apply IH; lia.
Qed.

Lemma free_name_fresh fault base db fuel : forall i name n,
  free_name fault fuel i base name db = Some (inr n) -> roleByName fault n db = Err ErrNotFound.
Proof.
  induction fuel as [|f IH]; intros i name n; [done|]. cbn [free_name].
  destruct (roleByName fault name db) as [r|[]] eqn:E.
  2: by intros [= <-].
  all: destruct (50 <? i); [done|]; apply IH.
Qed.

(** What a successful [CreateRole] did. *)
Lemma CreateRole_ok fault r db db' id :
  CreateRole fault r db = (db', Ok id) ->
  id = roles_seq db + 1 /\
  roles db' = <[id := mkRow (TrimSpace (rName r)) (rDescription r) false]> (roles db) /\
  (forall s, role_sections db' !! (id, s) = if ValidSection s then first_entry (rSections r) s else None) /\
  (forall r' s, r' <> id -> role_sections db' !! (r', s) = role_sections db !! (r', s)) /\
  (forall r' h, (r', h) ∈ role_hosts db' <->
     if bool_decide (r' = id) then h ∈ rHostIDs r /\ 0 < h else (r', h) ∈ role_hosts db) /\
  user_roles db' = user_roles db.
Proof.
  unfold CreateRole. destruct (String.eqb _ _); [done|]. intros H.
  apply st_bind_ok in H as (db1 & id1 & H1 & H). apply st_bind_ok in H as (db2 & [] & H2 & H).
  apply st_bind_ok in H as (db3 & [] & H3 & H). injection H as <- <-.
  apply replaceRoleSections_ok in H2 as (Hs & Hso & H2). apply replaceRoleHosts_ok in H3 as (Hh & H3).
  assert (id1 = roles_seq db + 1 /\
    db1 = mkDB (<[id1 := mkRow (TrimSpace (rName r)) (rDescription r) false]> (roles db)) id1 (role_sections db)
                       (role_hosts db) (user_roles db) (hosts db) (disabled db) (ldap_fallback db)) as [-> ->].
  { revert H1. unfold unique_is_duplicate, insert_role.
    destruct (exec_insert _ _ _ _ _) as [db0 [[]|[]]] eqn:Ei; intros [= <- <-].
    apply exec_insert_inv in Ei as [(_ & -> & _)|(? & ? & _)]; done. }
  rewrite H3, H2. simpl in *. split; [done|]. split; [done|]. split; [done|]. split; [done|].
  split; [|done]. intros r' h. specialize (Hh r' h). rewrite H3, H2 in Hh. done.
Qed.

(** The stored sections of a role, read back and used as a request, ask for
    exactly the rows that are there. *)
Lemma ValidSection_trim s : ValidSection s = true -> TrimSpace s = s.
Proof.
  intros H%one_of_true. unfold AllSections in H.
  repeat (apply elem_of_cons in H as [->|H]; [reflexivity|]). by apply not_elem_of_nil in H.
Qed.

Lemma roleSections_first_entry fault id db secs s :
  wf db -> roleSections fault id db = Ok secs -> ValidSection s = true ->
  first_entry secs s = role_sections db !! (id, s).
Proof.
  intros Hwf Hr Hv. unfold roleSections, query in Hr. destruct (fault _); [done|].
  injection Hr as Hr.
  assert (Hel : forall rs, rs ∈ secs <-> role_sections db !! (id, Section_ rs) = Some (rsWrite rs)).
  { intros [k w]. subst secs. rewrite merge_sort_Permutation, list_elem_of_fmap. split.
    - intros ([[r0 k0] w0] & [= -> ->] & Hf). apply list_elem_of_filter in Hf as [Hid Hf].
      simpl in *. subst. by apply elem_of_map_to_list in Hf.
    - intros Hk. exists (id, k, w). split; [done|]. apply list_elem_of_filter. split; [done|].
      by apply elem_of_map_to_list. }
  unfold first_entry. destruct (role_sections db !! (id, s)) as [w|] eqn:Es.
  - destruct (filter _ secs) as [|rs l] eqn:Ef.
    + exfalso. assert (mkRS s w ∈ filter (fun rs => TrimSpace (Section_ rs) = s) secs) as Hin.
      { apply list_elem_of_filter. simpl. rewrite Hel. split; [by apply ValidSection_trim|done]. }
      rewrite Ef in Hin. by apply not_elem_of_nil in Hin.
    + assert (rs ∈ rs :: l) as Hin by left. rewrite <- Ef in Hin.
      apply list_elem_of_filter in Hin as [Ht Hin]. apply Hel in Hin. simpl. rewrite <- Hin.
      destruct rs as [k w']. simpl in *. rewrite ValidSection_trim in Ht by by eapply wf_section. congruence.
  - destruct (filter _ secs) as [|rs l] eqn:Ef; [done|]. exfalso.
    assert (rs ∈ rs :: l) as Hin by left. rewrite <- Ef in Hin.
    apply list_elem_of_filter in Hin as [Ht Hin]. apply Hel in Hin.
    rewrite ValidSection_trim in Ht by by eapply wf_section. congruence.
Qed.

Lemma roleHosts_elem fault id db hs h :
  roleHosts fault id db = Ok hs -> h ∈ hs <-> (id, h) ∈ role_hosts db.
Proof.
  unfold roleHosts, query. destruct (fault _); [done|]. intros [= <-].
  rewrite merge_sort_Permutation, list_elem_of_fmap. split.
  - intros ([r0 h0] & -> & [Hr Hin]%list_elem_of_filter). simpl in *. subst. by apply elem_of_elements.
  - intros H. exists (id, h). split; [done|]. apply list_elem_of_filter. split; [done|]. by apply elem_of_elements.
Qed.

Lemma RoleByID_ok fault id db r : RoleByID fault id db = Ok r ->
  exists row, roles db !! id = Some row /\ rName r = rrName row /\ rDescription r = rrDesc row /\
    roleSections fault id db = Ok (rSections r) /\ roleHosts fault id db = Ok (rHostIDs r).
Proof.
  unfold RoleByID. unfold query at 1. destruct (fault _); [done|]. simpl.
  destruct (roles db !! id) as [row|]; [|done].
  destruct (roleSections _ _ _), (roleHosts _ _ _); try done. intros [= <-]. eauto 10.
Qed.

Lemma fresh_id db : wf db -> roles db !! (roles_seq db + 1) = None.
Proof.
  intros Hwf. apply eq_None_not_Some. intros H%(wf_id _ Hwf). lia.
Qed.

Lemma cleanRoleHosts_inr l hs : cleanRoleHosts l = inr hs ->
  (forall h, h ∈ hs <-> h ∈ l /\ 0 < h) /\ (hs = [] -> l = []).
Proof.
  unfold cleanRoleHosts. intros H.
  assert (hs = clean_hosts ∅ l /\ (hs = [] -> l = [])) as [-> ?]
    by (destruct l, (clean_hosts ∅ _) eqn:?; simplify_eq/=; done).
  split; [|done]. intros h. rewrite elem_of_clean_hosts. set_solver.
Qed.

Lemma seeded_wf : wf seeded.
Proof.
  apply (triple_fst wf (seedBuiltinRoles no_fault)); [apply seed_roles_wf|]. apply initial_wf. repeat split.
Qed.

(** ** Properties *)

(** a role is created with the authority the request asked for, no more and
    no less.  When the handler reports success the role is new, it grants exactly
    the known sections of the request, and it reaches exactly the hosts named
    (every host only when none was named: a list that cleans down to nothing is
    refused); the change is in the audit log and no other role or assignment moved. *)
Theorem create_role_as_requested fault b s s' id :
  wf (sdb s) -> handleCreateRole fault (Some b) s = (s', ROkID id) ->
  roles (sdb s) !! id = None /\ is_Some (roles (sdb s') !! id) /\
  (forall sec, role_sections (sdb s') !! (id, sec) =
     if ValidSection sec then first_entry (bSections b) sec else None) /\
  (forall h, role_reaches (sdb s') id h <-> bHostIDs b = [] \/ (h ∈ bHostIDs b /\ 0 < h)) /\
  (forall r h, r <> id -> role_reaches (sdb s') r h <-> role_reaches (sdb s) r h) /\
  user_roles (sdb s') = user_roles (sdb s) /\
  exists detail, saudit s' = saudit s ++ [("role.create", bName b, detail)].
Proof.
  intros Hwf H. unfold handleCreateRole in H.
  destruct (cleanRoleHosts (bHostIDs b)) as [r|hs] eqn:Ec.
  { unfold cleanRoleHosts in Ec. destruct (bHostIDs b), (clean_hosts _ _); by simplify_eq. }
  apply cleanRoleHosts_inr in Ec as [Hin Hnil].
  destruct (CreateRole _ _ _) as [db' [id'|[]]] eqn:E; try done. injection H as <- <-.
  apply CreateRole_ok in E as (-> & Hro & Hs & _ & Hh & Hu). simpl in *.
  split; [by apply fresh_id|]. split; [rewrite Hro, lookup_insert_eq; eauto|]. split; [done|].
  split; [|split; [|eauto]].
  - intros h. unfold role_reaches. setoid_rewrite Hh. rewrite bool_decide_eq_true_2 by done.
    setoid_rewrite Hin. split.
    + intros [Hall|?]; [left|naive_solver]. apply Hnil. destruct hs as [|h0 hs]; [done|].
      exfalso. assert (h0 ∈ bHostIDs b /\ 0 < h0) by (apply Hin; left). apply (Hall h0). tauto.
    + intros [->|?]; [|naive_solver]. left. set_solver.
  - intros r h Hr. unfold role_reaches. setoid_rewrite Hh.
    by rewrite bool_decide_eq_false_2 by done.
Qed.

Example create_role_as_requested_witness :
  let s := mkState seeded [] in
  let b := mkBody "Ops" "" [mkRS "images" true] [0; 7; 7] in
  exists s', handleCreateRole no_fault (Some b) s = (s', ROkID 3) /\
    (role_reaches (sdb s') 3 7 /\ ~ role_reaches (sdb s') 3 8).
Proof.
  intros s b.
  pose proof (seeded_wf : wf (sdb s)) as Hwf.
  assert (exists s', handleCreateRole no_fault (Some b) s = (s', ROkID 3)) as [s' E].
  { eexists. rewrite (surjective_pairing (handleCreateRole no_fault (Some b) s)).
    apply (f_equal2 pair); [reflexivity|vm_compute; reflexivity]. }
  exists s'. split; [exact E|].
  pose proof (create_role_as_requested no_fault b s s' 3 Hwf E) as (_ & _ & _ & Hr & _).
  clear E Hwf. split; [apply Hr|rewrite Hr]; simpl; [right|]; set_solver by lia.
Defined.

(** The section rewrite succeeds when none of its statements fails. *)
Lemma replaceRoleSections_total fault id secs db :
  fault QBegin = false -> fault QCommit = false -> fault (QDeleteRoleSections id) = false ->
  (forall k, fault (QInsertRoleSection id k) = false) ->
  exists db', replaceRoleSections fault id secs db = (db', Ok ()).
Proof.
  intros Hb Hc Hd Hi.
  assert (H : forall seen db, (forall k, k ∉ seen -> role_sections db !! (id, k) = None) ->
    exists db', insert_sections fault id seen secs db = (db', Ok ())).
  { clear db. induction secs as [|rs secs IH]; intros seen db Hn; [by eexists|]. cbn [insert_sections].
    destruct (_ || _) eqn:Ec; [by apply IH|]. bsimp. unfold mbind, stM_bind, exec_insert. rewrite Hi.
    rewrite bool_decide_eq_false_2 by (rewrite Hn by done; by intros []).
    apply IH. intros k Hk. simpl. rewrite lookup_insert_ne by set_solver. apply Hn. set_solver. }
  destruct (H ∅ (set_role_sections (filter (fun kv => kv.1.1 <> id)) db)) as [db' E].
  { intros k _. apply map_lookup_filter_None. right. intros ? _. simpl. tauto. }
  exists db'. unfold replaceRoleSections, in_tx, st_tx, mbind, stM_bind, exec. rewrite Hb, Hd. simpl.
  by rewrite E, Hc.
Qed.

(** The statements that write the scope of role [id] fail. *)
Definition scope_fault (id : Z) (q : Query) : bool :=
  match q with
  | QDeleteRoleHosts r => r =? id
  | QInsertRoleHost r _ => r =? id
  | _ => false
  end.

(** creating a role is not atomic.  The role row and its section grants are
    committed before the host scope is written, so when the scope cannot be
    written the handler answers 400 and audits nothing, yet the role exists, with
    the requested sections, and reaches every host instead of the ones picked. *)
Theorem failed_scope_leaves_unscoped_role b hs s :
  wf (sdb s) -> TrimSpace (bName b) <> "" ->
  name_taken (roles_seq (sdb s) + 1) (TrimSpace (bName b)) (sdb s) = false ->
  cleanRoleHosts (bHostIDs b) = inr hs ->
  let id := roles_seq (sdb s) + 1 in
  exists s', handleCreateRole (scope_fault id) (Some b) s = (s', RErr 400 "database error") /\
    saudit s' = saudit s /\ is_Some (roles (sdb s') !! id) /\
    (forall sec, role_sections (sdb s') !! (id, sec) =
       if ValidSection sec then first_entry (bSections b) sec else None) /\
    forall h, role_reaches (sdb s') id h.
Proof.
  intros Hwf Hname Hfree Hclean id.
  set (db1 := mkDB (<[id := mkRow (TrimSpace (bName b)) (bDescription b) false]> (roles (sdb s))) id
    (role_sections (sdb s)) (role_hosts (sdb s)) (user_roles (sdb s)) (hosts (sdb s))
    (disabled (sdb s)) (ldap_fallback (sdb s))).
  assert (wf_with id db1) as Hwf1.
  { pose proof (insert_role_wf (scope_fault id) (TrimSpace (bName b)) (bDescription b) false _ Hwf) as Hi.
    unfold insert_role, exec_insert in Hi. cbv beta zeta in Hi. cbn [scope_fault] in Hi.
    fold id in Hfree, Hi. by rewrite Hfree in Hi. }
  destruct (replaceRoleSections_total (scope_fault id) id (bSections b) db1) as [db2 H2]; try done.
  pose proof (replaceRoleSections_ok _ _ _ _ _ H2) as (Hs & _ & Hdb2).
  assert (H3 : replaceRoleHosts (scope_fault id) id hs db2 = (db2, Err ErrDB)).
  { unfold replaceRoleHosts, in_tx, st_tx, mbind, stM_bind, exec. simpl. by rewrite Z.eqb_refl. }
  exists (mkState db2 (saudit s)). unfold handleCreateRole. rewrite Hclean.
  assert (CreateRole (scope_fault id) (mkRole 0 (bName b) (bDescription b) false (bSections b) hs) (sdb s)
    = (db2, Err ErrDB)) as ->.
  { unfold CreateRole. apply String.eqb_neq in Hname. simpl. rewrite Hname.
    unfold mbind, stM_bind, unique_is_duplicate, insert_role, exec_insert. cbv beta zeta.
    cbn [scope_fault rName rDescription rSections rHostIDs]. fold id. fold id in Hfree.  rewrite Hfree. fold db1. by rewrite H2, H3. }
  assert (roles db2 = roles db1 /\ role_hosts db2 = role_hosts (sdb s)) as [Hr2 Hh2] by (by rewrite Hdb2).
  split; [done|]. split; [done|]. simpl.
  split; [rewrite Hr2; simpl; rewrite lookup_insert_eq; eauto|]. split; [done|].
  intros h. left. intros h' Hh. rewrite Hh2 in Hh. apply (wf_scope _ Hwf) in Hh.
  fold id in Hh. rewrite (fresh_id _ Hwf : roles (sdb s) !! id = None) in Hh. by destruct Hh.
Qed.

Example failed_scope_leaves_unscoped_role_witness :
  let s := mkState seeded [] in
  let b := mkBody "Ops" "" [mkRS "images" true] [7] in
  exists s', handleCreateRole (scope_fault 3) (Some b) s = (s', RErr 400 "database error") /\
    saudit s' = [] /\ role_reaches (sdb s') 3 8.
Proof.
  intros s b.
  pose proof (seeded_wf : wf (sdb s)) as Hwf.
  pose proof (failed_scope_leaves_unscoped_role b [7] s Hwf) as H.
  destruct H as (s' & H1 & H2 & _ & _ & H3); [by vm_compute..|].
  exists s'. split; [exact H1|]. split; [exact H2|]. apply H3.
Defined.

(** Every stored role is listed. *)
Lemma ListRoles_complete fault db rs id row :
  ListRoles fault db = Ok rs -> roles db !! id = Some row ->
  exists r, r ∈ rs /\ rID r = id /\ rName r = rrName row.
Proof.
  unfold ListRoles. unfold query at 1. destruct (fault _); [done|]. simpl.
  intros H Hrow. assert ((id, row) ∈ merge_sort role_le (map_to_list (roles db))) as Hin
    by (by rewrite merge_sort_Permutation, elem_of_map_to_list).
  revert rs H Hin. induction (merge_sort _ _) as [|[id0 r0] l IH]; intros rs H Hin; simpl in H.
  - by apply not_elem_of_nil in Hin.
  - destruct (roleSections _ _ _); [|done]. destruct (roleHosts _ _ _); [|done]. simpl in H.
    destruct ((fix go rows := match rows with [] => _ | _ => _ end) l) as [out|] eqn:El; [|done].
    simpl in H. injection H as <-. apply elem_of_cons in Hin as [[= <- <-]|Hin].
    + eexists. split; [left|done].
    + destruct (IH _ eq_refl Hin) as (r & ? & ? & ?). exists r. split; [by right|done].
Qed.

Lemma ListRoles_not_ErrNotFound fault db : ListRoles fault db <> Err ErrNotFound.
Proof.
  unfold ListRoles. unfold query at 1. destruct (fault _); [done|]. simpl.
  induction (merge_sort _ _) as [|[id0 r0] l IH]; simpl; [done|].
  unfold roleSections, roleHosts, query in *.
  destruct (fault (QRoleSections _)); [done|]. destruct (fault (QRoleHosts _)); [done|]. simpl in *.
  destruct ((fix go rows := match rows with [] => _ | _ => _ end) l); [done|]. simpl. congruence.
Qed.

Lemma free_name_refuses fault base db fuel : forall i name resp,
  free_name fault fuel i base name db = Some (inl resp) -> resp = RErr 409 "too many copies of that role".
Proof.
  induction fuel as [|f IH]; intros i name resp; [done|]. cbn [free_name].
  destruct (roleByName fault name db) as [r|[]]; try done.
  all: destruct (50 <? i); [by intros [= <-]|]; apply IH.
Qed.

Lemma roleByName_absent fault n db : roleByName fault n db = Err ErrNotFound ->
  forall id row, roles db !! id = Some row -> rrName row <> n.
Proof.
  unfold roleByName. intros H id row Hrow Hn.
  destruct (ListRoles fault db) as [rs|e] eqn:E; simpl in H.
  - destruct (ListRoles_complete _ _ _ _ _ E Hrow) as (r & Hin & _ & Hr).
    destruct (list_find _ rs) as [[]|] eqn:Ef; [done|].
    eapply list_find_None, Forall_forall in Ef; [|exact Hin]. congruence.
  - injection H as ->. by apply ListRoles_not_ErrNotFound in E.
Qed.

(** the search for the copy's name ends.  Whatever roles exist and whichever
    queries fail, the loop counting from 2 stops within its 50 names: it either
    settles on a name no role has, or refuses the request. *)
Theorem duplicate_search_ends fault base db :
  exists r, free_name fault 50 2 base (base +:+ " copy") db = Some r /\
    match r with
    | inr n => forall id row, roles db !! id = Some row -> rrName row <> n
    | inl resp => resp = RErr 409 "too many copies of that role"
    end.
Proof.
  destruct (free_name_total fault base db 50 2 (base +:+ " copy")) as [r E]; [lia..|].
  exists r. split; [done|]. destruct r as [resp|n].
  - by eapply free_name_refuses.
  - by eapply roleByName_absent, free_name_fresh.
Qed.

(** duplicating a role copies exactly its authority.  The copy is a new,
    editable role under a name nothing else has; it grants the same sections with
    the same write flags and reaches the same hosts as its source, and the source
    and every other role stay as they were. *)
Theorem duplicate_role_faithful fault id s s' newID name :
  wf (sdb s) -> handleDuplicateRole fault (Some id) s = (s', RCopied newID name) ->
  (exists src, roles (sdb s) !! id = Some src /\
     roles (sdb s') = <[newID := mkRow (TrimSpace name) (rrDesc src) false]> (roles (sdb s)) /\
     saudit s' = saudit s ++ [("role.duplicate", rrName src, name)]) /\
  roles (sdb s) !! newID = None /\
  (forall r row, roles (sdb s) !! r = Some row -> rrName row <> name) /\
  (forall sec, role_sections (sdb s') !! (newID, sec) = role_sections (sdb s) !! (id, sec)) /\
  (forall h, role_reaches (sdb s') newID h <-> role_reaches (sdb s) id h) /\
  (forall r, r <> newID -> (forall sec, role_sections (sdb s') !! (r, sec) = role_sections (sdb s) !! (r, sec))
     /\ forall h, role_reaches (sdb s') r h <-> role_reaches (sdb s) r h).
Proof.
  intros Hwf H. unfold handleDuplicateRole in H.
  destruct (RoleByID fault id (sdb s)) as [src|[]] eqn:Er; try done.
  destruct (free_name _ _ _ _ _ _) as [[|n]|] eqn:En; try done.
  { exfalso. apply free_name_refuses in En as ->. done. }
  destruct (CreateRole _ _ _) as [db' [id'|[]]] eqn:E; try done. injection H as <- <- <-.
  apply CreateRole_ok in E as (-> & Hro & Hs & Hso & Hh & Hu). cbn [audited sdb saudit rName rDescription rSections rHostIDs] in *.
  apply RoleByID_ok in Er as (row & Hrow & Hn & Hd & Hsecs & Hhs).
  split; [exists row; rewrite Hro, Hn, Hd; done|]. split; [by apply fresh_id|].
  split; [by eapply roleByName_absent, free_name_fresh|].
  split; [|split].
  - intros sec. rewrite Hs. destruct (ValidSection sec) eqn:Ev.
    + by eapply roleSections_first_entry.
    + destruct (role_sections (sdb s) !! (id, sec)) eqn:Es; [|done].
      apply (wf_section _ Hwf) in Es. congruence.
  - intros h. unfold role_reaches. setoid_rewrite Hh. rewrite bool_decide_eq_true_2 by done.
    assert (Heq : forall h, (h ∈ rHostIDs src /\ 0 < h) <-> (id, h) ∈ role_hosts (sdb s)).
    { intros h0. rewrite roleHosts_elem by done. split; [tauto|]. intros Hin. split; [done|].
      by eapply wf_host. }
    by setoid_rewrite Heq.
  - intros r Hr. split; [intros; by apply Hso|]. intros h. unfold role_reaches. setoid_rewrite Hh.
    by rewrite bool_decide_eq_false_2 by done.
Qed.

Example duplicate_role_faithful_witness :
  let s := mkState seeded [] in
  exists s', handleDuplicateRole no_fault (Some 2) s = (s', RCopied 3 "Operator copy") /\
    role_sections (sdb s') !! (3, "containers") = Some true /\ role_reaches (sdb s') 3 7.
Proof.
  intros s. pose proof (seeded_wf : wf (sdb s)) as Hwf.
  assert (exists s', handleDuplicateRole no_fault (Some 2) s = (s', RCopied 3 "Operator copy")) as [s' E].
  { eexists. rewrite (surjective_pairing (handleDuplicateRole no_fault (Some 2) s)).
    apply (f_equal2 pair); [reflexivity|vm_compute; reflexivity]. }
  exists s'. split; [exact E|].
  destruct (duplicate_role_faithful no_fault 2 s s' 3 _ Hwf E) as (_ & _ & _ & Hs & Hr & _).
  clear E Hwf. rewrite Hs. split; [vm_compute; reflexivity|]. apply Hr. left. intros h'.
  assert (elements (role_hosts (sdb s)) = []) as H0 by (vm_compute; reflexivity).
  rewrite <- elem_of_elements, H0. apply not_elem_of_nil.
Defined.
