(* ===== verification/Calendar.v ===== *)
(** * Calendar time in a location (what the source uses of package time)

    An instant is its nanoseconds since the zero time, 0001-01-01 00:00 UTC; a
    civil date is its day number from that same day, which is a bijection with
    (year, month, day).  A location answers, for an instant, the UTC offset in
    force and the interval it is in force on, as the lookup method of a Location does; the
    time zone database itself is a parameter of the development. *)
From S2P Require Import Prelude GoStrings.

Definition day_ns : Z := 24 * hour.

(** [lookup t = (offset, start, end)] *)
Record Location := mkLoc { lookup : Z -> Z * Z * Z }.

Definition offset_at (loc : Location) (t : Z) : Z := (lookup loc t).1.1.

(** A zone without transitions. *)
Definition fixed_zone (off : Z) : Location :=
  mkLoc (fun _ => (off, int64_min * second, int64_max * second)).
Definition UTC : Location := fixed_zone 0.

(** The wall clock reading of an instant: nanoseconds on the civil time line. *)
Definition wall (loc : Location) (t : Z) : Z := t + offset_at loc t.

(** The civil date of an instant, as a day number. *)
Definition civil_day (loc : Location) (t : Z) : Z := wall loc t / day_ns.

(** time.Weekday, 0 = Sunday; day 0 was a Monday. *)
Definition weekday (day : Z) : Z := (day + 1) mod 7.

(** time.Date for a wall clock reading: the offset guessed at the reading itself,
    looked up again when the guess falls outside its own interval. *)
Definition from_wall (loc : Location) (w : Z) : Z :=
  let '(off, s, e) := lookup loc w in
  if off =? 0 then w
  else
    let utc := w - off in
    if (utc <? s) || (e <=? utc) then w - offset_at loc utc else w - off.

Definition Date (loc : Location) (day hh mm : Z) : Z :=
  from_wall loc (day * day_ns + hh * hour + mm * minute).

(** t.AddDate(0, 0, n): the same wall clock time, n days away. *)
Definition AddDays (loc : Location) (t n : Z) : Z := from_wall loc (wall loc t + n * day_ns).

(** Format(RFC3339) keeps whole seconds. *)
Definition rfc3339 (t : Z) : Z := t / second * second.

(** time.Parse("15:04", s): one or two digits of hour, two of minute. *)
Definition digit_of (c : Ascii.ascii) : option Z :=
  let n := code c in if (48 <=? n) && (n <=? 57) then Some (n - 48) else None.

Definition parseTimeOfDay (s : string) : option (Z * Z) :=
  let minutes hh (l : list Ascii.ascii) :=
    match l with
    | [c; a; b] =>
        if code c =? 58 then
          a ← digit_of a; b ← digit_of b;
          if (hh <? 24) && (a * 10 + b <? 60) then Some (hh, a * 10 + b) else None
        else None
    | _ => None
    end in
  match bytes s with
  | a :: b :: rest =>
      x ← digit_of a;
      match digit_of b with
      | Some y => minutes (x * 10 + y) rest
      | None => minutes x (b :: rest)
      end
  | _ => None
  end.

Example parseTimeOfDay_ex : parseTimeOfDay "23:05" = Some (23, 5) /\ parseTimeOfDay "9:00" = Some (9, 0) /\
  parseTimeOfDay "24:00" = None /\ parseTimeOfDay "9:5" = None.
Proof. repeat split; reflexivity. Qed.

(** ** Lemmas *)

Lemma digit_of_range c n : digit_of c = Some n -> 0 <= n <= 9.
Proof. unfold digit_of. destruct (_ && _) eqn:E; [|done]. bsimp. intros [= <-]. lia. Qed.

Lemma parseTimeOfDay_range s hh mm : parseTimeOfDay s = Some (hh, mm) -> 0 <= hh < 24 /\ 0 <= mm < 60.
Proof.
  unfold parseTimeOfDay. intros H.
  destruct (bytes s) as [|a [|b rest]]; try done.
  destruct (digit_of a) as [x|] eqn:Ea; [|done]. cbn [mbind option_bind] in H.
  apply digit_of_range in Ea.
  assert (forall h l, 0 <= h -> (match l with
    | [c; a; b] => if code c =? 58 then
          a ← digit_of a; b ← digit_of b;
          if (h <? 24) && (a * 10 + b <? 60) then Some (h, a * 10 + b) else None else None
    | _ => None end) = Some (hh, mm) -> 0 <= hh < 24 /\ 0 <= mm < 60) as Hm.
  { intros h l Hh Hl. destruct l as [|c [|p [|q [|? ?]]]]; try done.
    destruct (code c =? 58); [|done].
    destruct (digit_of p) eqn:Ep; [|done]. destruct (digit_of q) eqn:Eq; [|done]. cbn [mbind option_bind] in Hl.
    apply digit_of_range in Ep, Eq. destruct (_ && _) eqn:E; [|done]. bsimp. injection Hl as <- <-. lia. }
  destruct (digit_of b) as [y|] eqn:Eb.
  - apply digit_of_range in Eb. eapply Hm; [|exact H]. lia.
  - apply (Hm x (b :: rest)); [lia|exact H].
Qed.

(** *** Away from the zone's transitions *)

(** The offset is [off] throughout [a, b]. *)
Definition quiet (loc : Location) (off a b : Z) : Prop :=
  forall t, a <= t <= b -> offset_at loc t = off.

Lemma fixed_zone_quiet off a b : quiet (fixed_zone off) off a b.
Proof. done. Qed.

Section Quiet.
Context (loc : Location) (off a b : Z) (Hq : quiet loc off a b).

Lemma quiet_from_wall w : a <= w <= b -> a <= w - off <= b -> from_wall loc w = w - off.
Proof using Hq.
  intros H1 H2. unfold from_wall. pose proof (Hq w H1) as Ho. pose proof (Hq _ H2) as Hu.
  unfold offset_at in Ho. destruct (lookup loc w) as [[o s] e]. simpl in Ho. subst o.
  destruct (off =? 0) eqn:E; bsimp; [lia|]. destruct (_ || _); [by rewrite Hu|done].
Qed.

Lemma quiet_AddDays t n : a <= t <= b -> a <= t + off + n * day_ns <= b -> a <= t + n * day_ns <= b ->
  AddDays loc t n = t + n * day_ns.
Proof using Hq.
  intros H1 H2 H3. unfold AddDays, wall. rewrite (Hq t H1).
  rewrite quiet_from_wall; lia.
Qed.
End Quiet.

Lemma rfc3339_le t : rfc3339 t <= t.
Proof. unfold rfc3339, second. pose proof (Z.mul_div_le t (10 ^ 9)). lia. Qed.

Lemma rfc3339_idem t : rfc3339 (rfc3339 t) = rfc3339 t.
Proof. unfold rfc3339. rewrite Z.div_mul; [done|]. unfold second. lia. Qed.

(** Comparing with a whole second is the same before and after truncation. *)
Lemma rfc3339_lt e t : rfc3339 e = e -> rfc3339 t < e <-> t < e.
Proof.
  unfold rfc3339, second. intros He.
  pose proof (Z.div_mod t (10 ^ 9)). pose proof (Z.mod_pos_bound t (10 ^ 9)).
  pose proof (Z.div_mod e (10 ^ 9)). pose proof (Z.mod_pos_bound e (10 ^ 9)). nia.
Qed.
