(* ===== verification/Accounts.v ===== *)
(** * Accounts, second factors and sessions (internal/store/users.go, factors.go,
    sessions.go)

    Three tables and every statement on them.  Whether an account has a second
    factor is not stored with it: a read derives it from the factors. *)
From S2P Require Import Prelude GoStrings Users Roles Calendar.

(** ** Data *)
Record AuthFactor := mkFactor {
  fID : Z; fUserID : Z; fKind : string; fName : string; fSecret : string; fLastCounter : Z;
  fCreatedAt : Z; fLastUsedAt : Z; fCredentialID : string; fCredential : string
}.
Definition FactorKindTOTP : string := "totp".
Definition FactorKindPasskey : string := "webauthn".
Definition factorNameMax : nat := 64.

Record Session := mkSession {
  sID : string; sUserID : Z; sIP : string; sUserAgent : string; sCreatedAt : Z; sLastSeenAt : Z; sExpiresAt : Z
}.

(** A [users] row is a [User] whose TOTPEnabled and MFAEnabled are not read;
    webauthn_handle and ui_prefs are columns of their own. *)
Record AuthDB := mkAuthDB {
  users : list User; user_seq : Z;
  handles : gmap Z string; prefs : gmap Z string;
  factors : list AuthFactor; factor_seq : Z;
  sessions : list Session
}.
Definition set_users l d := mkAuthDB l (user_seq d) (handles d) (prefs d) (factors d) (factor_seq d) (sessions d).
Definition set_factors l d := mkAuthDB (users d) (user_seq d) (handles d) (prefs d) l (factor_seq d) (sessions d).
Definition set_sessions l d := mkAuthDB (users d) (user_seq d) (handles d) (prefs d) (factors d) (factor_seq d) l.
Definition set_handles m d := mkAuthDB (users d) (user_seq d) m (prefs d) (factors d) (factor_seq d) (sessions d).
Definition set_prefs m d := mkAuthDB (users d) (user_seq d) (handles d) m (factors d) (factor_seq d) (sessions d).

(** *** Columns of a row *)
Section Columns.
Context (u : User).
Definition with_hash (h : string) : User :=
  mkUser (ID u) (Username u) h (Role u) (Email u) (AuthSource u) (ReadOnly u) (Sections u) (TOTPSecret u) (TOTPEnabled u)
    (MFAEnabled u) (TOTPPending u) (TOTPPendingStepUp u) (Passwordless u) (TOTPLastCounter u) (SessionEpoch u) (CreatedAt u) (LastLoginAt u).
Definition with_access (role : string) (ro : bool) (secs : list string) : User :=
  mkUser (ID u) (Username u) (PasswordHash u) role (Email u) (AuthSource u) ro secs (TOTPSecret u) (TOTPEnabled u)
    (MFAEnabled u) (TOTPPending u) (TOTPPendingStepUp u) (Passwordless u) (TOTPLastCounter u) (SessionEpoch u) (CreatedAt u) (LastLoginAt u).
Definition with_email (e : string) : User :=
  mkUser (ID u) (Username u) (PasswordHash u) (Role u) e (AuthSource u) (ReadOnly u) (Sections u) (TOTPSecret u) (TOTPEnabled u)
    (MFAEnabled u) (TOTPPending u) (TOTPPendingStepUp u) (Passwordless u) (TOTPLastCounter u) (SessionEpoch u) (CreatedAt u) (LastLoginAt u).
Definition with_source (a : string) : User :=
  mkUser (ID u) (Username u) (PasswordHash u) (Role u) (Email u) a (ReadOnly u) (Sections u) (TOTPSecret u) (TOTPEnabled u)
    (MFAEnabled u) (TOTPPending u) (TOTPPendingStepUp u) (Passwordless u) (TOTPLastCounter u) (SessionEpoch u) (CreatedAt u) (LastLoginAt u).
Definition with_factors (totp mfa : bool) : User :=
  mkUser (ID u) (Username u) (PasswordHash u) (Role u) (Email u) (AuthSource u) (ReadOnly u) (Sections u) (TOTPSecret u) totp
    mfa (TOTPPending u) (TOTPPendingStepUp u) (Passwordless u) (TOTPLastCounter u) (SessionEpoch u) (CreatedAt u) (LastLoginAt u).
Definition with_pending (p : string) (stepUp : bool) : User :=
  mkUser (ID u) (Username u) (PasswordHash u) (Role u) (Email u) (AuthSource u) (ReadOnly u) (Sections u) (TOTPSecret u) (TOTPEnabled u)
    (MFAEnabled u) p stepUp (Passwordless u) (TOTPLastCounter u) (SessionEpoch u) (CreatedAt u) (LastLoginAt u).
Definition promoted : User :=
  mkUser (ID u) (Username u) (PasswordHash u) (Role u) (Email u) (AuthSource u) (ReadOnly u) (Sections u) (TOTPPending u) true
    (MFAEnabled u) "" (TOTPPendingStepUp u) (Passwordless u) (TOTPLastCounter u) (SessionEpoch u) (CreatedAt u) (LastLoginAt u).
Definition with_passwordless (on : bool) : User :=
  mkUser (ID u) (Username u) (PasswordHash u) (Role u) (Email u) (AuthSource u) (ReadOnly u) (Sections u) (TOTPSecret u) (TOTPEnabled u)
    (MFAEnabled u) (TOTPPending u) (TOTPPendingStepUp u) on (TOTPLastCounter u) (SessionEpoch u) (CreatedAt u) (LastLoginAt u).
Definition with_counter (c : Z) : User :=
  mkUser (ID u) (Username u) (PasswordHash u) (Role u) (Email u) (AuthSource u) (ReadOnly u) (Sections u) (TOTPSecret u) (TOTPEnabled u)
    (MFAEnabled u) (TOTPPending u) (TOTPPendingStepUp u) (Passwordless u) c (SessionEpoch u) (CreatedAt u) (LastLoginAt u).
Definition with_epoch (e : Z) : User :=
  mkUser (ID u) (Username u) (PasswordHash u) (Role u) (Email u) (AuthSource u) (ReadOnly u) (Sections u) (TOTPSecret u) (TOTPEnabled u)
    (MFAEnabled u) (TOTPPending u) (TOTPPendingStepUp u) (Passwordless u) (TOTPLastCounter u) e (CreatedAt u) (LastLoginAt u).
Definition with_login (t : Z) : User :=
  mkUser (ID u) (Username u) (PasswordHash u) (Role u) (Email u) (AuthSource u) (ReadOnly u) (Sections u) (TOTPSecret u) (TOTPEnabled u)
    (MFAEnabled u) (TOTPPending u) (TOTPPendingStepUp u) (Passwordless u) (TOTPLastCounter u) (SessionEpoch u) (CreatedAt u) t.
End Columns.

(** The statements, so that each can fail. *)
Inductive AccQuery :=
  | QACount | QAAdmins | QAInsertFirst | QAInsertUser | QAList | QADelete | QAAccess | QAByName | QAByID | QAPrefs | QASetPrefs
  | QATouch | QAPassword | QAEmail | QAPending | QAPromote | QALast | QAEpoch | QABump | QAPasswordless | QASource
  | QFInsert | QFList | QFCount | QFDelete | QFBurn | QFByID | QFClearPending | QFByCredential | QFCredential | QFHandle
  | QFSetHandle | QFByHandle | QFDeleteAll | QFBegin | QFCommit
  | QSInsert | QSExists | QSTouch | QSList | QSDelete | QSDeleteAll | QSPurge.

Section Store.
Context (fault : AccQuery -> bool).

Definition aq {A} (q : AccQuery) (f : AuthDB -> result StoreErr A) (d : AuthDB) : result StoreErr A :=
  if fault q then Err ErrDB else f d.
Definition ax (q : AccQuery) (f : AuthDB -> AuthDB) : stM AuthDB StoreErr () := fun d =>
  if fault q then (d, Err ErrDB) else (f d, Ok ()).

(** UPDATE users SET … WHERE id = ? *)
Definition on_user (id : Z) (f : User -> User) (d : AuthDB) : AuthDB :=
  set_users ((fun u => if ID u =? id then f u else u) <$> users d) d.

Definition factors_of (id : Z) (d : AuthDB) : list AuthFactor := filter (fun f => fUserID f = id) (factors d).

(** The two EXISTS columns of every SELECT on users. *)
Definition scanUserRow (d : AuthDB) (u : User) : User :=
  with_factors u (existsb (fun f => String.eqb (fKind f) FactorKindTOTP) (factors_of (ID u) d))
    (match factors_of (ID u) d with [] => false | _ => true end).

(** ** users.go *)
Definition CountUsers (d : AuthDB) : result StoreErr Z := aq QACount (fun d => Ok (Z.of_nat (length (users d)))) d.

(** The inserted row: defaults, the trimmed address, the columns an INSERT does not name. *)
Definition new_user (id : Z) (u : User) (now : Z) : User :=
  mkUser id (Username u) (PasswordHash u) (orDefault (Role u) "admin") (TrimSpace (Email u)) (orDefault (AuthSource u) "local")
    (ReadOnly u) (Sections u) (TOTPSecret u) (TOTPEnabled u) false "" false false 0 0 (rfc3339 now) 0.

Definition insert_user (u : User) (now : Z) (d : AuthDB) : AuthDB * result StoreErr Z :=
  if existsb (fun x => String.eqb (Username x) (Username u)) (users d) then (d, Err ErrUnique)
  else
    let id := user_seq d + 1 in
    (mkAuthDB (users d ++ [new_user id u now]) id (handles d) (prefs d) (factors d) (factor_seq d) (sessions d), Ok id).

Definition CreateFirstUser (u : User) (now : Z) : stM AuthDB StoreErr Z := fun d =>
  if fault QAInsertFirst then (d, Err ErrDB)
  else match users d with [] => insert_user u now d | _ => (d, Err ErrSetupTaken) end.

Definition CreateUser (u : User) (now : Z) : stM AuthDB StoreErr Z := fun d =>
  if fault QAInsertUser then (d, Err ErrDB) else insert_user u now d.

Definition user_le (a b : User) : Prop := String.leb (Username a) (Username b) = true.
#[export] Instance user_le_dec : RelDecision user_le.
Proof. intros a b. unfold user_le. apply _. Defined.

Definition ListUsers (d : AuthDB) : result StoreErr (list User) :=
  aq QAList (fun d => Ok (scanUserRow d <$> merge_sort user_le (users d))) d.

Definition DeleteUserFactors (id : Z) : stM AuthDB StoreErr () :=
  ax QFDeleteAll (fun d => set_factors (filter (fun f => fUserID f <> id) (factors d)) d).
Definition DeleteUserSessions (id : Z) : stM AuthDB StoreErr () :=
  ax QSDeleteAll (fun d => set_sessions (filter (fun s => sUserID s <> id) (sessions d)) d).

Definition DeleteUser (id : Z) : stM AuthDB StoreErr () :=
  ax QADelete (fun d => set_users (filter (fun u => ID u <> id) (users d)) d) ≫= fun _ =>
  DeleteUserFactors id ≫= fun _ => DeleteUserSessions id.

Definition CountAdmins (d : AuthDB) : result StoreErr Z :=
  aq QAAdmins (fun d => Ok (Z.of_nat (length (filter (fun u => Role u = "admin") (users d))))) d.

Definition UpdateUserAccess (id : Z) (role : string) (readOnly : bool) (secs : list string) : stM AuthDB StoreErr () :=
  ax QAAccess (on_user id (fun u => with_access u (orDefault role "user") readOnly secs)).

Definition find_user (P : User -> bool) (d : AuthDB) : result StoreErr User :=
  match list_find (fun u => P u = true) (users d) with
  | Some (_, u) => Ok (scanUserRow d u)
  | None => Err ErrNotFound
  end.
Definition UserByUsername (name : string) (d : AuthDB) : result StoreErr User :=
  aq QAByName (find_user (fun u => String.eqb (Username u) name)) d.
Definition UserByID (id : Z) (d : AuthDB) : result StoreErr User := aq QAByID (find_user (fun u => ID u =? id)) d.

(** What is returned on an error is "{}" as well. *)
Definition UserPrefs (id : Z) (d : AuthDB) : string * result StoreErr () :=
  match aq QAPrefs (find_user (fun u => ID u =? id)) d with
  | Ok _ => (orDefault (default "" (prefs d !! id)) "{}", Ok ())
  | Err e => ("{}", Err e)
  end.
Definition SetUserPrefs (id : Z) (p : string) : stM AuthDB StoreErr () :=
  ax QASetPrefs (fun d => if existsb (fun u => ID u =? id) (users d) then set_prefs (<[id := p]> (prefs d)) d else d).

Definition TouchLogin (id now : Z) : stM AuthDB StoreErr () := ax QATouch (on_user id (fun u => with_login u (rfc3339 now))).
Definition UpdatePassword (id : Z) (hash : string) : stM AuthDB StoreErr () := ax QAPassword (on_user id (fun u => with_hash u hash)).
Definition SetUserEmail (id : Z) (email : string) : stM AuthDB StoreErr () :=
  ax QAEmail (on_user id (fun u => with_email u (TrimSpace email))).
Definition SetTOTPPending (id : Z) (secret : string) (stepUp : bool) : stM AuthDB StoreErr () :=
  ax QAPending (on_user id (fun u => with_pending u secret stepUp)).
Definition PromoteTOTPPending (id : Z) : stM AuthDB StoreErr () := ax QAPromote (on_user id promoted).
Definition SetTOTPLastCounter (id counter : Z) : stM AuthDB StoreErr () :=
  ax QALast (on_user id (fun u => if TOTPLastCounter u <? counter then with_counter u counter else u)).
Definition GetSessionEpoch (id : Z) (d : AuthDB) : result StoreErr Z :=
  aq QAEpoch (fun d => u ← find_user (fun u => ID u =? id) d; Ok (SessionEpoch u)) d.
Definition BumpSessionEpoch (id : Z) : stM AuthDB StoreErr () :=
  ax QABump (on_user id (fun u => with_epoch u (SessionEpoch u + 1))).
Definition SetPasswordless (id : Z) (on : bool) : stM AuthDB StoreErr () := ax QAPasswordless (on_user id (fun u => with_passwordless u on)).
Definition SetAuthSource (id : Z) (source : string) : stM AuthDB StoreErr () := ax QASource (on_user id (fun u => with_source u source)).

(** ** factors.go *)
Definition factorName (name : string) : string :=
  let name := TrimSpace name in
  if String.eqb name "" then "Authenticator"
  else if (factorNameMax <? String.length name)%nat then stake factorNameMax name
  else name.

(** The two partial unique indexes. *)
Definition factor_taken (user : Z) (secret credentialID : string) (d : AuthDB) : bool :=
  existsb (fun f => (negb (String.eqb secret "") && (fUserID f =? user) && String.eqb (fSecret f) secret) ||
                    (negb (String.eqb credentialID "") && String.eqb (fCredentialID f) credentialID)) (factors d).

Definition insert_factor (user : Z) (kind name secret credentialID credential : string) (now : Z)
    : stM AuthDB StoreErr Z := fun d =>
  if fault QFInsert then (d, Err ErrDB)
  else if factor_taken user secret credentialID d then (d, Err ErrUnique)
  else
    let id := factor_seq d + 1 in
    (mkAuthDB (users d) (user_seq d) (handles d) (prefs d)
       (factors d ++ [mkFactor id user kind name secret 0 (rfc3339 now) 0 credentialID credential]) id (sessions d), Ok id).

(** BeginTx … Commit *)
Definition factor_tx {A} (m : stM AuthDB StoreErr A) : stM AuthDB StoreErr A :=
  st_tx (ax QFBegin id ≫= fun _ => m ≫= fun a => ax QFCommit id ≫= fun _ => mret a).

Definition CreateFactor (f : AuthFactor) (authorised : bool) (now : Z) : stM AuthDB StoreErr Z :=
  factor_tx (
    (fun d => match authorised, factors_of (fUserID f) d with
              | false, _ :: _ => if fault QFInsert then (d, Err ErrDB) else (d, Err ErrNotFirstFactor)
              | _, _ => insert_factor (fUserID f) (orDefault (fKind f) FactorKindTOTP) (factorName (fName f)) (fSecret f)
                          (fCredentialID f) (fCredential f) now d
              end) ≫= fun id =>
    ax QFClearPending (on_user (fUserID f) (fun u => with_pending u "" false)) ≫= fun _ => mret id).

Definition ListFactors (user : Z) (d : AuthDB) : result StoreErr (list AuthFactor) := aq QFList (fun d => Ok (factors_of user d)) d.
Definition CountFactors (user : Z) (d : AuthDB) : result StoreErr Z :=
  aq QFCount (fun d => Ok (Z.of_nat (length (factors_of user d)))) d.

Definition FactorByID (id user : Z) (d : AuthDB) : result StoreErr AuthFactor :=
  aq QFByID (fun d => match list_find (fun f => fID f = id /\ fUserID f = user) (factors d) with
                      | Some (_, f) => Ok f
                      | None => Err ErrNotFound
                      end) d.

Definition DeleteFactor (id user : Z) : stM AuthDB StoreErr () := fun d =>
  if fault QFDelete then (d, Err ErrDB)
  else if existsb (fun f => (fID f =? id) && (fUserID f =? user)) (factors d) && (1 <? length (factors_of user d))%nat
  then (set_factors (filter (fun f => ~ (fID f = id /\ fUserID f = user)) (factors d)) d, Ok ())
  else (d, match FactorByID id user d with Err e => Err e | Ok _ => Err ErrLastFactor end).

Definition on_factor (id : Z) (f : AuthFactor -> AuthFactor) (d : AuthDB) : AuthDB :=
  set_factors ((fun x => if fID x =? id then f x else x) <$> factors d) d.

Definition BurnFactorCounter (id counter now : Z) : stM AuthDB StoreErr () := fun d =>
  if fault QFBurn then (d, Err ErrDB)
  else if existsb (fun f => (fID f =? id) && (fLastCounter f <? counter)) (factors d)
  then (set_factors ((fun x => if (fID x =? id) && (fLastCounter x <? counter)
                               then mkFactor (fID x) (fUserID x) (fKind x) (fName x) (fSecret x) counter (fCreatedAt x)
                                      (rfc3339 now) (fCredentialID x) (fCredential x) else x) <$> factors d) d, Ok ())
  else (d, Err ErrCounterNotAdvanced).

Definition PairPendingFactor (user : Z) (pending name : string) (now : Z) : stM AuthDB StoreErr Z := fun d =>
  if String.eqb pending "" then (d, Err ErrNotFound)
  else factor_tx (
    (fun d => if fault QFClearPending then (d, Err ErrDB)
              else if existsb (fun u => (ID u =? user) && String.eqb (TOTPPending u) pending) (users d)
              then (set_users ((fun u => if (ID u =? user) && String.eqb (TOTPPending u) pending
                                         then with_pending u "" false else u) <$> users d) d, Ok ())
              else (d, Err ErrNotFound)) ≫= fun _ =>
    insert_factor user FactorKindTOTP (factorName name) pending "" "" now) d.

Definition FactorByCredentialID (credentialID : string) (d : AuthDB) : result StoreErr AuthFactor :=
  if String.eqb credentialID "" then Err ErrNotFound
  else aq QFByCredential (fun d => match list_find (fun f => fCredentialID f = credentialID) (factors d) with
                                   | Some (_, f) => Ok f
                                   | None => Err ErrNotFound
                                   end) d.

Definition UpdateCredential (id : Z) (credential : string) (now : Z) : stM AuthDB StoreErr () := fun d =>
  if fault QFCredential then (d, Err ErrDB)
  else if existsb (fun f => (fID f =? id) && negb (String.eqb (fCredentialID f) "")) (factors d)
  then (set_factors ((fun x => if (fID x =? id) && negb (String.eqb (fCredentialID x) "")
                               then mkFactor (fID x) (fUserID x) (fKind x) (fName x) (fSecret x) (fLastCounter x) (fCreatedAt x)
                                      (rfc3339 now) (fCredentialID x) credential else x) <$> factors d) d, Ok ())
  else (d, Err ErrNotFound).

(** The handle as it is stored; [fresh] is the encoding of 32 random bytes. *)
Definition WebAuthnHandle (user : Z) (fresh : string) : stM AuthDB StoreErr string := fun d =>
  match aq QFHandle (find_user (fun u => ID u =? user)) d with
  | Err e => (d, Err e)
  | Ok _ =>
      let stored := default "" (handles d !! user) in
      if negb (String.eqb stored "") then (d, Ok stored)
      else if fault QFSetHandle then (d, Err ErrDB)
      else (set_handles (<[user := fresh]> (handles d)) d, Ok fresh)
  end.

Definition UserByWebAuthnHandle (handle : string) (d : AuthDB) : result StoreErr User :=
  if String.eqb handle "" then Err ErrNotFound
  else aq QFByHandle (fun d =>
    match list_find (fun u => handles d !! ID u = Some handle) (users d) with
    | Some (_, u) => UserByID (ID u) d
    | None => Err ErrNotFound
    end) d.

(** ** sessions.go *)
Definition truncateUA (ua : string) : string := if (256 <? String.length ua)%nat then stake 256 ua else ua.

Definition CreateSession (s : Session) (now : Z) : stM AuthDB StoreErr () := fun d =>
  if fault QSInsert then (d, Err ErrDB)
  else if existsb (fun x => String.eqb (sID x) (sID s)) (sessions d) then (d, Err ErrUnique)
  else (set_sessions (sessions d ++ [mkSession (sID s) (sUserID s) (sIP s) (truncateUA (sUserAgent s)) (rfc3339 now)
                                       (rfc3339 now) (rfc3339 (sExpiresAt s))]) d, Ok ()).

Definition SessionExists (id : string) (user : Z) (d : AuthDB) : result StoreErr bool :=
  aq QSExists (fun d => Ok (existsb (fun s => String.eqb (sID s) id && (sUserID s =? user)) (sessions d))) d.

Definition TouchSession (id : string) (now : Z) : stM AuthDB StoreErr () :=
  ax QSTouch (fun d => set_sessions ((fun s => if String.eqb (sID s) id && (sLastSeenAt s <? rfc3339 (now - minute))
    then mkSession (sID s) (sUserID s) (sIP s) (sUserAgent s) (sCreatedAt s) (rfc3339 now) (sExpiresAt s) else s) <$> sessions d) d).

Definition session_ge (a b : Session) : Prop := sLastSeenAt b <= sLastSeenAt a.
#[export] Instance session_ge_dec : RelDecision session_ge.
Proof. intros a b. unfold session_ge. apply _. Defined.

Definition ListSessions (user now : Z) (d : AuthDB) : result StoreErr (list Session) :=
  aq QSList (fun d => Ok (merge_sort session_ge
    (filter (fun s => sUserID s = user /\ rfc3339 now < sExpiresAt s) (sessions d)))) d.

Definition DeleteSession (id : string) (user : Z) : stM AuthDB StoreErr () := fun d =>
  if fault QSDelete then (d, Err ErrDB)
  else if existsb (fun s => String.eqb (sID s) id && (sUserID s =? user)) (sessions d)
  then (set_sessions (filter (fun s => ~ (sID s = id /\ sUserID s = user)) (sessions d)) d, Ok ())
  else (d, Err ErrNotFound).

Definition PurgeExpiredSessions (now : Z) : stM AuthDB StoreErr () :=
  ax QSPurge (fun d => set_sessions (filter (fun s => rfc3339 now < sExpiresAt s) (sessions d)) d).
End Store.

(** ** Runs of the store

    Handlers run concurrently, but SQLite serialises their statements and
    transactions: any interleaving of handlers is a sequence of these. *)
Inductive acc_op :=
  | OCreateFirst (u : User) (now : Z) | OCreate (u : User) (now : Z) | ODeleteUser (id : Z)
  | OAccess (id : Z) (role : string) (ro : bool) (secs : list string) | OTouch (id now : Z) | OPassword (id : Z) (hash : string)
  | OEmail (id : Z) (e : string) | OPending (id : Z) (secret : string) (stepUp : bool) | OPromote (id : Z) | OLast (id c : Z)
  | OBump (id : Z) | OPasswordless (id : Z) (on : bool) | OSource (id : Z) (s : string) | OPrefs (id : Z) (p : string)
  | OCreateFactor (f : AuthFactor) (authorised : bool) (now : Z) | ODeleteFactor (id user : Z) | OBurn (id c now : Z)
  | OPair (user : Z) (p name : string) (now : Z) | OCredential (id : Z) (c : string) (now : Z) | OHandle (user : Z) (fresh : string)
  | OSession (s : Session) (now : Z) | OTouchSession (id : string) (now : Z) | ODeleteSession (id : string) (user : Z)
  | ODeleteSessions (user : Z) | OPurge (now : Z).

Definition run_op (fault : AccQuery -> bool) (op : acc_op) (d : AuthDB) : AuthDB :=
  match op with
  | OCreateFirst u now => (CreateFirstUser fault u now d).1
  | OCreate u now => (CreateUser fault u now d).1
  | ODeleteUser id => (DeleteUser fault id d).1
  | OAccess id role ro secs => (UpdateUserAccess fault id role ro secs d).1
  | OTouch id now => (TouchLogin fault id now d).1
  | OPassword id h => (UpdatePassword fault id h d).1
  | OEmail id e => (SetUserEmail fault id e d).1
  | OPending id s su => (SetTOTPPending fault id s su d).1
  | OPromote id => (PromoteTOTPPending fault id d).1
  | OLast id c => (SetTOTPLastCounter fault id c d).1
  | OBump id => (BumpSessionEpoch fault id d).1
  | OPasswordless id on => (SetPasswordless fault id on d).1
  | OSource id s => (SetAuthSource fault id s d).1
  | OPrefs id p => (SetUserPrefs fault id p d).1
  | OCreateFactor f a now => (CreateFactor fault f a now d).1
  | ODeleteFactor id user => (DeleteFactor fault id user d).1
  | OBurn id c now => (BurnFactorCounter fault id c now d).1
  | OPair user p name now => (PairPendingFactor fault user p name now d).1
  | OCredential id c now => (UpdateCredential fault id c now d).1
  | OHandle user fresh => (WebAuthnHandle fault user fresh d).1
  | OSession s now => (CreateSession fault s now d).1
  | OTouchSession id now => (TouchSession fault id now d).1
  | ODeleteSession id user => (DeleteSession fault id user d).1
  | ODeleteSessions user => (DeleteUserSessions fault user d).1
  | OPurge now => (PurgeExpiredSessions fault now d).1
  end.

Inductive acc_step (allowed : acc_op -> Prop) (d : AuthDB) : AuthDB -> Prop :=
  | acc_step_op fault op : allowed op -> acc_step allowed d (run_op fault op d).

(** *** What one statement can do *)

(** A change of columns that matter to no invariant below. *)
Definition quiet_columns (f : User -> User) : Prop := forall u,
  ID (f u) = ID u /\ SessionEpoch u <= SessionEpoch (f u) /\ (TOTPPending (f u) = TOTPPending u \/ TOTPPending (f u) = "").

Definition quiet_factor (g : AuthFactor -> AuthFactor) : Prop := forall f,
  fID (g f) = fID f /\ fUserID (g f) = fUserID f /\ fLastCounter f <= fLastCounter (g f).

Inductive effect (op : acc_op) (d : AuthDB) : AuthDB -> Prop :=
  | E_same : effect op d d
  | E_columns id f : quiet_columns f -> effect op d (on_user id f d)
  | E_pending id secret stepUp : op = OPending id secret stepUp -> effect op d (on_user id (fun u => with_pending u secret stepUp) d)
  | E_insert u now : effect op d (mkAuthDB (users d ++ [new_user (user_seq d + 1) u now]) (user_seq d + 1) (handles d) (prefs d)
                                (factors d) (factor_seq d) (sessions d))
  | E_delete id l s : op = ODeleteUser id -> l = factors d \/ l = filter (fun f => fUserID f <> id) (factors d) ->
      (forall x, x ∈ s -> x ∈ sessions d) ->
      effect op d (mkAuthDB (filter (fun u => ID u <> id) (users d)) (user_seq d) (handles d) (prefs d) l (factor_seq d) s)
  | E_factors g : quiet_factor g -> effect op d (set_factors (g <$> factors d) d)
  | E_create_factor f authorised now r : op = OCreateFactor f authorised now ->
      authorised = true \/ factors_of (fUserID f) d = [] ->
      fID r = factor_seq d + 1 -> fUserID r = fUserID f -> fLastCounter r = 0 ->
      effect op d (on_user (fUserID f) (fun u => with_pending u "" false)
        (mkAuthDB (users d) (user_seq d) (handles d) (prefs d) (factors d ++ [r]) (factor_seq d + 1) (sessions d)))
  | E_pair user p name now r : op = OPair user p name now -> p <> "" ->
      (exists u, u ∈ users d /\ ID u = user /\ TOTPPending u = p) ->
      fID r = factor_seq d + 1 -> fUserID r = user -> fLastCounter r = 0 ->
      effect op d (mkAuthDB ((fun u => if (ID u =? user) && String.eqb (TOTPPending u) p then with_pending u "" false else u) <$> users d)
        (user_seq d) (handles d) (prefs d) (factors d ++ [r]) (factor_seq d + 1) (sessions d))
  | E_delete_factor id user : (1 < length (factors_of user d))%nat ->
      effect op d (set_factors (filter (fun f => ~ (fID f = id /\ fUserID f = user)) (factors d)) d)
  | E_sessions l : (forall s, s ∈ l -> (exists s0, s0 ∈ sessions d /\ sID s0 = sID s /\ sUserID s0 = sUserID s) \/ exists s0 now, op = OSession s0 now /\ sID s0 = sID s) ->
      effect op d (set_sessions l d)
  | E_other d' : users d' = users d -> user_seq d' = user_seq d -> factors d' = factors d -> factor_seq d' = factor_seq d ->
      sessions d' = sessions d -> effect op d d'.

Ltac quiet := intros u; cbn; split; [reflexivity|split; [lia|auto]].

(** The insertions. *)
Lemma insert_user_effect op u now d : effect op d (insert_user u now d).1.
Proof. unfold insert_user. destruct (existsb _ _); [apply E_same|apply E_insert]. Qed.

Lemma DeleteUser_effect fault id d : effect (ODeleteUser id) d (DeleteUser fault id d).1.
Proof.
  unfold DeleteUser, DeleteUserFactors, DeleteUserSessions, ax, mbind, stM_bind.
  set (fs := filter (fun f => fUserID f <> id) (factors d)).
  destruct (fault QADelete); [apply E_same|].
  destruct (fault QFDeleteAll); [apply (E_delete _ d id (factors d) (sessions d)); auto|].
  destruct (fault QSDeleteAll); [apply (E_delete _ d id fs (sessions d)); auto|].
  apply (E_delete _ d id fs (filter (fun s => sUserID s <> id) (sessions d))); [done|auto|].
  intros x. by rewrite list_elem_of_filter; intros [_ ?].
Qed.

Lemma insert_factor_inv fault user kind name secret cid cred now d d' r :
  insert_factor fault user kind name secret cid cred now d = (d', r) ->
  match r with
  | Ok id => id = factor_seq d + 1 /\ exists f, d' = mkAuthDB (users d) (user_seq d) (handles d) (prefs d)
      (factors d ++ [f]) (factor_seq d + 1) (sessions d) /\ fID f = factor_seq d + 1 /\ fUserID f = user /\ fLastCounter f = 0
  | Err _ => d' = d
  end.
Proof.
  unfold insert_factor. destruct (fault QFInsert); [by intros [= <- <-]|].
  destruct (factor_taken _ _ _ _); intros [= <- <-]; [done|]. split; [done|]. eexists. split; [reflexivity|]. done.
Qed.

(** A transaction that ends in an error leaves the store as it was. *)
Lemma factor_tx_inv {A} fault (m : stM AuthDB StoreErr A) d d' r :
  factor_tx fault m d = (d', r) -> match r with Ok a => m d = (d', Ok a) | Err _ => d' = d end.
Proof.
  unfold factor_tx, st_tx, ax, mbind, stM_bind. destruct (fault QFBegin); [by intros [= <- <-]|]. cbn [fst].
  unfold id at 1. destruct (m d) as [d1 [a|e]]; [|by intros [= <- <-]].
  destruct (fault QFCommit); intros [= <- <-]; done.
Qed.

Lemma CreateFactor_inv fault f authorised now d d' r :
  CreateFactor fault f authorised now d = (d', r) ->
  match r with
  | Ok _ => (authorised = true \/ factors_of (fUserID f) d = []) /\ exists x,
      d' = on_user (fUserID f) (fun u => with_pending u "" false) (mkAuthDB (users d) (user_seq d) (handles d) (prefs d)
             (factors d ++ [x]) (factor_seq d + 1) (sessions d)) /\
      fID x = factor_seq d + 1 /\ fUserID x = fUserID f /\ fLastCounter x = 0
  | Err _ => d' = d
  end.
Proof.
  unfold CreateFactor. intros H%factor_tx_inv. destruct r as [a|e]; [|done]. revert H.
  unfold mbind at 1, stM_bind at 1.
  assert (Hins : forall d1 a1, insert_factor fault (fUserID f) (orDefault (fKind f) FactorKindTOTP) (factorName (fName f))
      (fSecret f) (fCredentialID f) (fCredential f) now d = (d1, Ok a1) ->
    (mbind (M := stM AuthDB StoreErr) (fun _ => mret a1) (ax fault QFClearPending (on_user (fUserID f) (fun u => with_pending u "" false))) d1) = (d', Ok a) ->
    exists x, d' = on_user (fUserID f) (fun u => with_pending u "" false) (mkAuthDB (users d) (user_seq d) (handles d) (prefs d)
             (factors d ++ [x]) (factor_seq d + 1) (sessions d)) /\
      fID x = factor_seq d + 1 /\ fUserID x = fUserID f /\ fLastCounter x = 0).
  { intros d1 a1 (_ & x & -> & Hx)%insert_factor_inv. unfold mbind, stM_bind, ax.
    destruct (fault QFClearPending); [done|]. intros [= <- <-]. eauto. }
  destruct authorised, (factors_of (fUserID f) d) as [|y l] eqn:E.
  3: { destruct (insert_factor _ _ _ _ _ _ _ _ d) as [d1 [a1|e]] eqn:Ei; [|done]. intros H. split; [auto|]. by eapply Hins. }
  3: { destruct (fault QFInsert); done. }
  all: destruct (insert_factor _ _ _ _ _ _ _ _ d) as [d1 [a1|e]] eqn:Ei; [|done]; intros H; split; [auto|]; by eapply Hins.
Qed.

Lemma PairPendingFactor_inv fault user p name now d d' r :
  PairPendingFactor fault user p name now d = (d', r) ->
  match r with
  | Ok _ => p <> "" /\ (exists u, u ∈ users d /\ ID u = user /\ TOTPPending u = p) /\ exists x,
      d' = mkAuthDB ((fun u => if (ID u =? user) && String.eqb (TOTPPending u) p then with_pending u "" false else u) <$> users d)
             (user_seq d) (handles d) (prefs d) (factors d ++ [x]) (factor_seq d + 1) (sessions d) /\
      fID x = factor_seq d + 1 /\ fUserID x = user /\ fLastCounter x = 0
  | Err _ => d' = d
  end.
Proof.
  unfold PairPendingFactor. destruct (String.eqb p "") eqn:Ep; [by intros [= <- <-]|]. bsimp.
  intros H%factor_tx_inv. destruct r as [a|e]; [|done]. revert H. unfold mbind, stM_bind.
  destruct (fault QFClearPending); [done|]. destruct (existsb _ (users d)) eqn:Ex; [|done].
  intros (_ & x & -> & Hx)%insert_factor_inv. split; [done|]. split; [|eauto].
  apply existsb_exists in Ex as (u & Hu%list_elem_of_In & Hc). bsimp. eauto.
Qed.

Lemma same_session_refl (d : AuthDB) (l : list Session) op : (forall s, s ∈ l -> s ∈ sessions d) -> forall s, s ∈ l ->
  (exists s0, s0 ∈ sessions d /\ sID s0 = sID s /\ sUserID s0 = sUserID s) \/ exists s0 now, op = OSession s0 now /\ sID s0 = sID s.
Proof. intros H s Hs. left. exists s. auto. Qed.

Lemma run_op_effect fault op d : effect op d (run_op fault op d).
Proof.
  destruct op; unfold run_op.
  - unfold CreateFirstUser. destruct (fault QAInsertFirst); [apply E_same|].
    destruct (users d); [apply insert_user_effect|apply E_same].
  - unfold CreateUser. destruct (fault QAInsertUser); [apply E_same|apply insert_user_effect].
  - apply DeleteUser_effect.
  - unfold UpdateUserAccess, ax. case_match; [apply E_same|apply E_columns; quiet].
  - unfold TouchLogin, ax. case_match; [apply E_same|apply E_columns; quiet].
  - unfold UpdatePassword, ax. case_match; [apply E_same|apply E_columns; quiet].
  - unfold SetUserEmail, ax. case_match; [apply E_same|apply E_columns; quiet].
  - unfold SetTOTPPending, ax. case_match; [apply E_same|by apply E_pending].
  - unfold PromoteTOTPPending, ax. case_match; [apply E_same|apply E_columns; quiet].
  - unfold SetTOTPLastCounter, ax. case_match; [apply E_same|apply E_columns]. intros u.
    destruct (TOTPLastCounter u <? c); cbn; auto with lia.
  - unfold BumpSessionEpoch, ax. case_match; [apply E_same|apply E_columns; quiet].
  - unfold SetPasswordless, ax. case_match; [apply E_same|apply E_columns; quiet].
  - unfold SetAuthSource, ax. case_match; [apply E_same|apply E_columns; quiet].
  - unfold SetUserPrefs, ax. case_match; [apply E_same|]. cbn [fst]. case_match; [by apply E_other|apply E_same].
  - destruct (CreateFactor _ _ _ _ _) as [d' [a|e]] eqn:E; apply CreateFactor_inv in E; [|subst; apply E_same].
    destruct E as (Ha & x & -> & H1 & H2 & H3). cbn [fst]. by eapply E_create_factor.
  - unfold DeleteFactor. destruct (fault QFDelete); [apply E_same|]. destruct (_ && _) eqn:E; [|apply E_same].
    apply andb_true_iff in E as [_ E%Nat.ltb_lt]. by apply E_delete_factor.
  - unfold BurnFactorCounter. destruct (fault QFBurn); [apply E_same|]. destruct (existsb _ _); [|apply E_same].
    apply E_factors. intros f. destruct (_ && _) eqn:E; [|auto with lia]. bsimp. cbn. auto with lia.
  - destruct (PairPendingFactor _ _ _ _ _ _) as [d' [a|e]] eqn:E; apply PairPendingFactor_inv in E; [|subst; apply E_same].
    destruct E as (Hp & Hu & x & -> & H1 & H2 & H3). cbn [fst]. by eapply E_pair.
  - unfold UpdateCredential. destruct (fault QFCredential); [apply E_same|]. destruct (existsb _ _); [|apply E_same].
    apply E_factors. intros f. destruct (_ && _); cbn; auto with lia.
  - unfold WebAuthnHandle. destruct (aq _ _ _ _); [|apply E_same]. cbv zeta. case_match; [apply E_same|].
    case_match; [apply E_same|by apply E_other].
  - unfold CreateSession. destruct (fault QSInsert); [apply E_same|]. destruct (existsb _ _); [apply E_same|].
    apply E_sessions. intros x [Hx| ->%list_elem_of_singleton]%elem_of_app; [left; eauto|right; eauto].
  - unfold TouchSession, ax. case_match; [apply E_same|]. apply E_sessions.
    intros x (y & -> & Hy)%list_elem_of_fmap. left. exists y. by destruct (_ && _).
  - unfold DeleteSession. destruct (fault QSDelete); [apply E_same|]. destruct (existsb _ _); [|apply E_same].
    apply E_sessions, same_session_refl. intros x. by rewrite list_elem_of_filter; intros [_ ?].
  - unfold DeleteUserSessions, ax. case_match; [apply E_same|]. apply E_sessions, same_session_refl.
    intros x. by rewrite list_elem_of_filter; intros [_ ?].
  - unfold PurgeExpiredSessions, ax. case_match; [apply E_same|]. apply E_sessions, same_session_refl.
    intros x. by rewrite list_elem_of_filter; intros [_ ?].
Qed.

(** *** Well-formed tables *)
Record acc_wf (d : AuthDB) : Prop := {
  wf_users : NoDup (ID <$> users d);
  wf_user_seq u : u ∈ users d -> ID u <= user_seq d;
  wf_factors : NoDup (fID <$> factors d);
  wf_factor_seq f : f ∈ factors d -> fID f <= factor_seq d
}.

(** Every row after a statement is a row from before, with an epoch at least as
    high, or a new one. *)
Lemma effect_users op d d' u' : effect op d d' -> u' ∈ users d' ->
  (exists u, u ∈ users d /\ ID u' = ID u /\ SessionEpoch u <= SessionEpoch u') \/ (ID u' = user_seq d + 1 /\ user_seq d' = user_seq d + 1).
Proof.
  assert (Hsame : forall f : User -> User, (forall u, ID (f u) = ID u /\ SessionEpoch u <= SessionEpoch (f u)) ->
    u' ∈ f <$> users d -> exists u, u ∈ users d /\ ID u' = ID u /\ SessionEpoch u <= SessionEpoch u').
  { intros f Hf (u & -> & Hu)%list_elem_of_fmap. exists u. destruct (Hf u). auto. }
  intros [|id f Hf|id p su _|u0 now|id l s _ _ _|g _|f0 a now r _ _ _ _ _|user p name now r _ _ _ _ _ _|id user _|l _|d1 E1 _ _ _ _] Hu;
    cbn in Hu.
  - left; eauto with lia.
  - left. apply (Hsame (fun u => if ID u =? id then f u else u)); [|done].
    intros u. destruct (Hf u) as (? & ? & _). destruct (ID u =? id); auto with lia.
  - left. apply (Hsame (fun u => if ID u =? id then with_pending u p su else u)); [|done].
    intros u. destruct (ID u =? id); cbn; auto with lia.
  - apply elem_of_app in Hu as [Hu|Hu%list_elem_of_singleton]; [left; eauto with lia|right; by subst].
  - apply list_elem_of_filter in Hu as [_ Hu]. left; eauto with lia.
  - left; eauto with lia.
  - left. apply (Hsame (fun u => if ID u =? fUserID f0 then with_pending u "" false else u)); [|done].
    intros u. destruct (ID u =? fUserID f0); cbn; auto with lia.
  - left. apply (Hsame (fun u => if (ID u =? user) && String.eqb (TOTPPending u) p then with_pending u "" false else u)); [|done].
    intros u. destruct (_ && _); cbn; auto with lia.
  - left; eauto with lia.
  - left; eauto with lia.
  - rewrite E1 in Hu. left; eauto with lia.
Qed.


Lemma effect_seq op d d' : effect op d d' -> user_seq d <= user_seq d' /\ factor_seq d <= factor_seq d'.
Proof. intros []; cbn; lia. Qed.

(** The same for factors: counters only move forward. *)
Lemma effect_factors op d d' f' : effect op d d' -> f' ∈ factors d' ->
  (exists f, f ∈ factors d /\ fID f' = fID f /\ fUserID f' = fUserID f /\ fLastCounter f <= fLastCounter f') \/
  (fID f' = factor_seq d + 1 /\ factor_seq d' = factor_seq d + 1).
Proof.
  intros [|id f Hf|id p su _|u0 now|id l s _ Hl _|g Hg|f0 a now r _ _ ? ? ?|user p name now r _ _ _ ? ? ?|id user _|l _|d1 _ _ E1 _ _] Hin;
    cbn in Hin; try (left; eauto with lia; fail).
  - left. exists f'. destruct Hl as [->| ->]; [|apply list_elem_of_filter in Hin as [_ Hin]]; auto with lia.
  - apply list_elem_of_fmap in Hin as (f & -> & Hin). left. exists f. destruct (Hg f) as (? & ? & ?). auto.
  - apply elem_of_app in Hin as [Hin|Hin%list_elem_of_singleton]; [left; eauto with lia|right; by subst].
  - apply elem_of_app in Hin as [Hin|Hin%list_elem_of_singleton]; [left; eauto with lia|right; by subst].
  - apply list_elem_of_filter in Hin as [_ Hin]. left; eauto with lia.
  - rewrite E1 in Hin. left; eauto with lia.
Qed.

Lemma effect_wf op d d' : effect op d d' -> acc_wf d -> acc_wf d'.
Proof.
  intros He Hwf. pose proof (effect_seq _ _ _ He) as [Hs1 Hs2]. split.
  - destruct Hwf as [Hu Hus _ _]. destruct He as [|id f Hf|id p su _|u0 now|id l s _ _ _|g _|f0 a now r _ _ _ _ _|user p name now r _ _ _ _ _ _|id user _|l _|d1 E1 _ _ _ _]; cbn; try done.
    + rewrite fmap_fmap_same; [done|]. intros u. destruct (_ =? _); [apply Hf|done].
    + rewrite fmap_fmap_same; [done|]. intros u. by destruct (_ =? _).
    + by apply (NoDup_snoc_seq ID _ _ (user_seq d)).
    + by apply NoDup_fmap_filter.
    + rewrite fmap_fmap_same; [done|]. intros u. by destruct (_ =? _).
    + rewrite fmap_fmap_same; [done|]. intros u. by destruct (_ && _).
    + by rewrite E1.
  - intros u' Hu'. destruct (effect_users op d d' u' He Hu') as [(u & Hu & -> & _)|[-> ->]]; [|done].
    pose proof (wf_user_seq _ Hwf u Hu). lia.
  - destruct Hwf as [_ _ Hf Hfs]. destruct He as [|id f _|id p su _|u0 now|id l s _ Hl _|g Hg|f0 a now r _ _ Hr _ _|user p name now r _ _ _ Hr _ _|id user _|l _|d1 _ _ E1 _ _]; cbn; try done.
    + destruct Hl as [->| ->]; [done|by apply NoDup_fmap_filter].
    + rewrite fmap_fmap_same; [done|]. apply Hg.
    + by apply (NoDup_snoc_seq fID _ _ (factor_seq d)).
    + by apply (NoDup_snoc_seq fID _ _ (factor_seq d)).
    + by apply NoDup_fmap_filter.
    + by rewrite E1.
  - intros f' Hf'. destruct (effect_factors op d d' f' He Hf') as [(f & Hf & -> & _)|[-> ->]]; [|done].
    pose proof (wf_factor_seq _ Hwf f Hf). lia.
Qed.

(** An invariant of a run: it holds in every well-formed state the run passes. *)
Lemma acc_run_invariant (allowed : acc_op -> Prop) (P : AuthDB -> Prop) d d' :
  (forall op d1 d2, allowed op -> acc_wf d1 -> effect op d1 d2 -> P d1 -> P d2) ->
  rtc (acc_step allowed) d d' -> acc_wf d -> P d -> P d' /\ acc_wf d'.
Proof.
  intros HP Hrun. induction Hrun as [|d1 d2 d3 [fault op Hop] _ IH]; [done|]. intros Hwf Hd.
  pose proof (run_op_effect fault op d1) as He. apply IH; [by eapply effect_wf|by eapply HP].
Qed.

(** *** A second factor is never lost *)

Lemma delete_one_left id user (l : list AuthFactor) : NoDup (fID <$> l) -> (1 < length (filter (fun f => fUserID f = user) l))%nat ->
  filter (fun f => fUserID f = user) (filter (fun f => ~ (fID f = id /\ fUserID f = user)) l) <> [].
Proof.
  intros Hn Hl. set (k := filter (fun f => fUserID f = user) l) in *.
  assert (Hk : NoDup (fID <$> k)) by by apply NoDup_fmap_filter.
  assert (exists f, f ∈ k /\ fID f <> id) as (f & Hf & Hid).
  { destruct k as [|a [|b k]]; [cbn in Hl; lia..|]. rewrite !fmap_cons, !NoDup_cons, elem_of_cons in Hk.
    destruct (decide (fID a = id)) as [Ha|Ha]; [exists b|exists a]; (split; [set_solver|]); [|done].
    intros Hb. apply (proj1 Hk). left. congruence. }
  apply list_elem_of_filter in Hf as [Hu Hf]. intros E.
  assert (Hin : f ∈ filter (fun f => fUserID f = user) (filter (fun f => ~ (fID f = id /\ fUserID f = user)) l)).
  { apply list_elem_of_filter. split; [done|]. apply list_elem_of_filter. split; [|done]. by intros [? _]. }
  rewrite E in Hin. by apply not_elem_of_nil in Hin.
Qed.

Lemma factors_of_nil user d : factors_of user d = [] <-> forall f, f ∈ factors d -> fUserID f <> user.
Proof.
  unfold factors_of. split.
  - intros E f Hf Hu. assert (Hin : f ∈ filter (fun f => fUserID f = user) (factors d)) by by apply list_elem_of_filter.
    rewrite E in Hin. by apply not_elem_of_nil in Hin.
  - intros H. destruct (filter _ (factors d)) as [|f l] eqn:E; [done|]. exfalso.
    assert (Hin : f ∈ filter (fun f => fUserID f = user) (factors d)) by (rewrite E; left).
    apply list_elem_of_filter in Hin as [Hu Hin]. by apply (H f).
Qed.

Lemma effect_protected user op d d' : op <> ODeleteUser user -> acc_wf d -> effect op d d' ->
  factors_of user d <> [] -> factors_of user d' <> [].
Proof.
  intros Hop [_ _ Hf _] He Hne Hnil. rewrite factors_of_nil in Hnil.
  assert (exists f, f ∈ factors d /\ fUserID f = user) as (f & Hin & Hu).
  { destruct (factors_of user d) as [|f l] eqn:E; [done|]. exists f.
    assert (Hin : f ∈ factors_of user d) by (rewrite E; left). by apply list_elem_of_filter in Hin as [? ?]. }
  destruct He as [|id g _|id p su _|u0 now|id l s Hid Hl _|g Hg|f0 a now r _ _ _ _ _|u1 p name now r _ _ _ _ _ _|id u1 Hlen|l _|d1 _ _ E1 _ _];
    cbn in Hnil; try (by apply (Hnil f)).
  - apply (Hnil f); [|done]. destruct Hl as [->| ->]; [done|]. apply list_elem_of_filter. split; [|done]. congruence.
  - apply (Hnil (g f)); [by apply list_elem_of_fmap_2|]. destruct (Hg f) as (_ & -> & _). done.
  - apply (Hnil f); [|done]. apply elem_of_app. by left.
  - apply (Hnil f); [|done]. apply elem_of_app. by left.
  - destruct (decide (u1 = user)) as [->|Hu1].
    + apply (delete_one_left id user (factors d)); [done|exact Hlen|].
      destruct (filter (fun f => fUserID f = user) _) as [|x k] eqn:E; [done|]. exfalso.
      assert (Hx : x ∈ filter (fun f => fUserID f = user) (filter (fun f => ~ (fID f = id /\ fUserID f = user)) (factors d))) by (rewrite E; left).
      apply list_elem_of_filter in Hx as [Hxu Hx]. by apply (Hnil x).
    + apply (Hnil f); [|done]. apply list_elem_of_filter. split; [|done]. intros [_ ?]. congruence.
  - rewrite E1 in Hnil. by apply (Hnil f).
Qed.

(** C6: an account that has a second factor keeps one.  However many requests pair,
    rename, use and remove factors at the same time, as long as the account itself
    is not deleted no interleaving of their statements leaves it with none, and so
    open to a password alone. *)
Theorem second_factor_never_lost user d d' :
  acc_wf d -> rtc (acc_step (fun op => op <> ODeleteUser user)) d d' ->
  factors_of user d <> [] -> factors_of user d' <> [].
Proof.
  intros Hwf Hrun H. eapply (acc_run_invariant _ (fun d => factors_of user d <> [])) in Hrun as [H' _]; [done| |done..].
  intros op d1 d2 Hop Hwf1 He. by eapply effect_protected.
Qed.

(** *** A time step is accepted once *)

Lemma effect_counter id c op d d' : acc_wf d -> effect op d d' -> id <= factor_seq d ->
  (forall f, f ∈ factors d -> fID f = id -> c <= fLastCounter f) ->
  forall f, f ∈ factors d' -> fID f = id -> c <= fLastCounter f.
Proof.
  intros _ He Hid H f' Hf' Hf. destruct (effect_factors op d d' f' He Hf') as [(f & Hin & E & _ & Hc)|[E _]]; [|lia].
  specialize (H f Hin ltac:(congruence)). lia.
Qed.

(** a one-time code works once.  After a request has burned the time step of a
    code on a factor, no request burns that step or an earlier one on it again,
    whatever is done to accounts and factors in between, by however many requests
    at once, and whichever statements fail. *)
Theorem code_accepted_once fault fault' id c c' now now' d d1 d2 :
  acc_wf d -> BurnFactorCounter fault id c now d = (d1, Ok ()) -> rtc (acc_step (fun _ => True)) d1 d2 ->
  c' <= c -> is_ok (BurnFactorCounter fault' id c' now' d2).2 = false.
Proof.
  intros Hwf Hb Hrun Hc.
  pose proof (effect_wf _ _ _ (run_op_effect fault (OBurn id c now) d) Hwf) as Hwf1. cbn [run_op] in Hwf1. rewrite Hb in Hwf1.
  unfold BurnFactorCounter in Hb. destruct (fault QFBurn); [done|]. destruct (existsb _ (factors d)) eqn:Ex; [|done].
  injection Hb as <-. cbn [fst] in Hwf1.
  apply existsb_exists in Ex as (f & Hf%list_elem_of_In & Hcond). bsimp.
  eapply (acc_run_invariant _ (fun d => id <= factor_seq d /\ forall f, f ∈ factors d -> fID f = id -> c <= fLastCounter f))
    in Hrun as [[_ Hinv] _]; [| |done|].
  - unfold BurnFactorCounter. destruct (fault' QFBurn); [done|]. destruct (existsb _ (factors d2)) eqn:Ex; [|done].
    apply existsb_exists in Ex as (f2 & Hf2%list_elem_of_In & Hc2). bsimp. specialize (Hinv f2 Hf2 ltac:(done)). lia.
  - intros op e1 e2 _ Hwf' He [Hi Hk]. split; [destruct (effect_seq _ _ _ He); lia|]. by eapply effect_counter.
  - split; [pose proof (wf_factor_seq _ Hwf f Hf); cbn; lia|].
    intros f1 (x & -> & Hx)%list_elem_of_fmap. destruct (_ && _) eqn:E; cbn.
    + lia.
    + intros Hid. rewrite Hid, Z.eqb_refl in E. cbn in E. bsimp. lia.
Qed.

(** *** A pending enrolment is redeemable only where it was begun *)

(** Whoever holds the pending secret [p] holds it for an account without factors. *)
Definition pending_safe (user : Z) (p : string) (d : AuthDB) : Prop :=
  forall u, u ∈ users d -> ID u = user -> TOTPPending u = p -> factors_of user d = [].

Lemma effect_pending_safe user p op d d' : p <> "" -> acc_wf d -> effect op d d' ->
  (forall su, op <> OPending user p su) -> pending_safe user p d -> pending_safe user p d'.
Proof.
  intros Hp Hwf He Hop H u' Hu' Hid Hpend.
  assert (Hnil : forall d1, factors d1 = factors d -> factors_of user d = [] -> factors_of user d1 = [])
    by by unfold factors_of; intros ? ->.
  destruct He as [|id g Hg|id q su E|u0 now|id l s _ Hl _|g Hg|f0 a now r _ _ _ Hr _|u1 q name now r _ _ Hex _ Hr _|id u1 _|l _|d1 E1 _ E2 _ _];
    cbn in Hu'.
  - by apply (H u').
  - apply list_elem_of_fmap in Hu' as (u & -> & Hu). apply Hnil; [done|]. destruct (Hg u) as (Hi & _ & Ht).
    destruct (ID u =? id); [|by apply (H u)]. apply (H u); [done|congruence|]. destruct Ht; congruence.
  - apply list_elem_of_fmap in Hu' as (u & -> & Hu). apply Hnil; [done|].
    destruct (ID u =? id) eqn:Eid; [|by apply (H u)]. bsimp. cbn in Hid, Hpend. subst. by destruct (Hop su).
  - apply Hnil; [done|]. apply elem_of_app in Hu' as [Hu'| ->%list_elem_of_singleton]; [by apply (H u')|].
    cbn in Hpend. congruence.
  - apply list_elem_of_filter in Hu' as [_ Hu']. specialize (H u' Hu' Hid Hpend). rewrite factors_of_nil in H.
    apply factors_of_nil. cbn. intros f Hf. apply H. destruct Hl as [->| ->]; [done|by apply list_elem_of_filter in Hf as [_ ?]].
  - specialize (H u' Hu' Hid Hpend). rewrite factors_of_nil in H. apply factors_of_nil. cbn.
    intros f (x & -> & Hx)%list_elem_of_fmap. destruct (Hg x) as (_ & -> & _). by apply H.
  - apply list_elem_of_fmap in Hu' as (u & -> & Hu). destruct (ID u =? fUserID f0) eqn:Eu; bsimp; cbn in Hid, Hpend; [congruence|].
    specialize (H u Hu Hid Hpend). rewrite factors_of_nil in H. apply factors_of_nil. cbn.
    intros f [Hf| ->%list_elem_of_singleton]%elem_of_app; [by apply H|]. congruence.
  - apply list_elem_of_fmap in Hu' as (u & -> & Hu).
    destruct ((ID u =? u1) && String.eqb (TOTPPending u) q) eqn:Eu; cbn in Hid, Hpend; [congruence|].
    specialize (H u Hu Hid Hpend). rewrite factors_of_nil in H. apply factors_of_nil. cbn.
    intros f [Hf| ->%list_elem_of_singleton]%elem_of_app; [by apply H|]. rewrite Hr. intros ->.
    destruct Hex as (v & Hv & Hvid & Hvp).
    assert (v = u) as ->.
    { apply (NoDup_fmap_elem ID (users d)); [apply Hwf|done|done|congruence]. }
    rewrite Hid, Z.eqb_refl, Hvp, String.eqb_refl in Eu. done.
  - specialize (H u' Hu' Hid Hpend). rewrite factors_of_nil in H. apply factors_of_nil. cbn.
    intros f [_ Hf]%list_elem_of_filter. by apply H.
  - apply Hnil; [done|]. by apply (H u').
  - apply Hnil; [done|]. rewrite E1 in Hu'. by apply (H u').
Qed.

(** *** Epochs and sessions *)

Lemma effect_epoch user e op d d' : acc_wf d -> effect op d d' -> user <= user_seq d ->
  (forall u, u ∈ users d -> ID u = user -> e <= SessionEpoch u) ->
  forall u, u ∈ users d' -> ID u = user -> e <= SessionEpoch u.
Proof.
  intros _ He Hid H u' Hu' Hu. destruct (effect_users op d d' u' He Hu') as [(u & Hin & E & Hc)|[E _]]; [|lia].
  specialize (H u Hin ltac:(congruence)). lia.
Qed.

Definition no_session (id : string) (user : Z) (d : AuthDB) : Prop := forall s, s ∈ sessions d -> sID s = id -> sUserID s <> user.

Lemma effect_no_session id user op d d' : effect op d d' -> (forall s now, op = OSession s now -> sID s <> id) ->
  no_session id user d -> no_session id user d'.
Proof.
  intros He Hop H s Hs Hid.
  destruct He as [|i g Hg|i q su E|u0 now|i l ss _ _ Hss|g Hg|f0 a now r _ _ _ Hr _|u1 q name now r _ _ Hex _ Hr _|i u1 _|l Hl|d1 _ _ _ _ E1];
    cbn in Hs; try (by apply (H s)).
  - apply (H s); auto.
  - destruct (Hl s Hs) as [(s0 & Hs0 & Ei & Eu)|(s0 & now & -> & Ei)]; [|by destruct (Hop s0 now eq_refl); congruence].
    rewrite <- Eu. apply H; [done|congruence].
  - rewrite E1 in Hs. by apply (H s).
Qed.

(** *** The first account *)

Lemma effect_users_nonempty op d d' : (forall id, op <> ODeleteUser id) -> effect op d d' -> users d <> [] -> users d' <> [].
Proof.
  intros Hop [|i g Hg|i q su E|u0 now|i l ss E _ Hss|g Hg|f0 a now r _ _ _ Hr _|u1 q name now r _ _ Hex _ Hr _|i u1 _|l Hl|d1 E1 _ _ _ _];
    cbn; try done.
  - by destruct (users d).
  - by destruct (users d).
  - by destruct (users d).
  - by destruct (Hop i).
  - by destruct (users d).
  - by destruct (users d).
  - by rewrite E1.
Qed.

(** setup hands out one administrator.  Once an account has been created, by setup
    or otherwise, every later attempt at setup fails and changes nothing, in whatever
    order the statements of simultaneous requests run, until an account is deleted. *)
Theorem setup_once fault u now d d1 id d2 u' now' :
  acc_wf d -> CreateFirstUser fault u now d = (d1, Ok id) \/ CreateUser fault u now d = (d1, Ok id) ->
  rtc (acc_step (fun op => forall id, op <> ODeleteUser id)) d1 d2 ->
  forall fault', (CreateFirstUser fault' u' now' d2).1 = d2 /\ is_ok (CreateFirstUser fault' u' now' d2).2 = false.
Proof.
  intros Hwf Hc Hrun fault'.
  assert (Hins : forall e, insert_user u now d = (d1, Ok e) -> users d1 <> []).
  { unfold insert_user. destruct (existsb _ _); [done|]. intros e [= <- _]. cbn. by destruct (users d). }
  assert (H1 : users d1 <> [] /\ acc_wf d1).
  { split.
    - destruct Hc as [Hc|Hc]; unfold CreateFirstUser, CreateUser in Hc;
        [destruct (fault QAInsertFirst); [done|]; destruct (users d); [|done]|destruct (fault QAInsertUser); [done|]]; by eapply Hins.
    - pose proof (effect_wf _ _ _ (run_op_effect fault (OCreateFirst u now) d) Hwf) as W1.
      pose proof (effect_wf _ _ _ (run_op_effect fault (OCreate u now) d) Hwf) as W2.
      cbn [run_op] in W1, W2. destruct Hc as [Hc|Hc]; rewrite Hc in *; assumption. }
  destruct H1 as [H1 Hwf1].
  eapply (acc_run_invariant _ (fun d => users d <> [])) in Hrun as [H2 _]; [|intros op e1 e2 Hop _ He; by eapply effect_users_nonempty|done|done].
  unfold CreateFirstUser. destruct (fault' QAInsertFirst); [done|]. by destruct (users d2).
Qed.
