(* ===== verification/Login.v ===== *)
(** * Signing in (internal/auth/service.go, webauthn.go, passwordless.go, middleware.go,
    jwt.go, totp.go, ldap.go)

    The authentication service over the account store, its limiters and its
    in-memory challenges.  What it takes from elsewhere is a parameter: the JWT
    library, the one-time-password library, the WebAuthn library, the directory,
    random numbers, the clock. *)
From S2P Require Import Prelude Limits GoStrings Password Users Roles Calendar Accounts.

(** ** Data *)
Inductive TokenKind := KindSession | KindMFAChallenge.
#[export] Instance TokenKind_eq_dec : EqDecision TokenKind.
Proof. solve_decision. Defined.

Record Claims := mkClaims {
  cUserID : Z; cUsername : string; cRole : string; cKind : TokenKind; cEpoch : Z;
  cID : string; cExpiresAt : option Z
}.

Record LDAPGroupMapping := mkMapping { gmDN : string; gmSections : list string; gmRoleIDs : list Z }.
Record LDAPConfig := mkLDAP { ldConfigured : bool; GroupMappings : list LDAPGroupMapping; FallbackRoleID : Z }.
Record LDAPResult := mkLDAPResult { lrUsername : string; lrIsAdmin : bool; lrGroups : list string; lrEmail : string }.

Record SessionInfo := mkInfo { IP : string; UserAgent : string }.
Record LoginResult := mkLogin { MFARequired : bool; lToken : string; lExpiresAt : Z; lUser : User }.

Inductive AuthErr :=
  | ErrSetupDone | ErrInvalidCreds | ErrRateLimited | ErrInvalidMFACode | ErrWeakPassword | ErrInvalidUsername
  | ErrUsernameTaken | ErrDirectoryPassword | ErrTooManyFactors | ErrEnrollmentStale | ErrNoPending
  | ErrPasskeyUnavailable | ErrNoPasskeys | ErrClonedAuthenticator | ErrUserVerificationRequired
  | ErrPasswordlessNotAllowed | ErrTooBusy | ErrRandom | ErrLibrary | EStore (e : StoreErr)
  | EPasswordless (username : string) (e : AuthErr).   (* a PasswordlessError *)

Definition MinPasswordLength : nat := 10.
Definition passkeyAttempts : Z := 30.
Definition maxFactorsPerAccount : Z := 10.
Definition totpPeriod : Z := 30.
Definition challengeTTL : Z := 5 * minute.

(** What the WebAuthn library hands back for a verified assertion. *)
Record Credential := mkCred { crID : string; crBlob : string; crClone : bool }.

Class AuthEnv := {
  aclock : nat -> Z;
  arange : nat -> list string;                       (* the order a map is ranged over in *)
  arand : nat -> option string;                      (* crypto/rand, encoded; None for its error *)
  asalt : nat -> list Z;
  IDKey : kdf;
  jwt_sign : Claims -> string;
  jwt_parse : Z -> string -> option Claims;          (* signature and expiry checked at a time *)
  sessionTTL : Z;
  totp_code : string -> Z -> option string;          (* GenerateCodeCustom: secret, unix seconds *)
  totp_valid : string -> string -> Z -> bool;        (* ValidateCustom: code, secret, time *)
  totp_generate : nat -> string -> option string;    (* a new secret for an account name *)
  WebAuthnSession : Type;
  Request : Type;
  rp_ok : bool;                                      (* the relying party could be built *)
  begin_ceremony : nat -> option WebAuthnSession;
  finish_registration : WebAuthnSession -> Request -> option Credential;
  finish_login : list string -> WebAuthnSession -> Request -> option Credential;
  assertion_parse : Request -> option (string * bool); (* user handle and the UV flag; None when malformed *)
  cred_ok : string -> bool;                          (* a stored credential's JSON decodes *)
  ldap_config : result StoreErr LDAPConfig;
  ldap_auth : string -> string -> option LDAPResult; (* the directory's answer to a username and a password *)
  aToLower : string -> string;
  acc_fault : AccQuery -> bool;
  role_fault : Query -> bool
}.

Record AState `{E : AuthEnv} := mkAState {
  acc : AuthDB; rdb : DB;
  limiter : LoginLimiter; passkeyLimiter : LoginLimiter;
  challenges : gmap string Z;
  open_ceremonies : ceremonies WebAuthnSession; publicCeremonies : ceremonies WebAuthnSession;
  aticks : nat
}.

(** ** Token manager (jwt.go) *)
Record Issued := mkIssued { iToken : string; iID : string; iExpiresAt : Z }.

Section Service.
Context `{E : AuthEnv}.

Definition M (A : Type) : Type := stM AState AuthErr A.
#[local] Instance M_ret : MRet M := stM_ret AState AuthErr.
#[local] Instance M_bind : MBind M := stM_bind AState AuthErr.

Definition set_acc d s := mkAState E d (rdb s) (limiter s) (passkeyLimiter s) (challenges s) (open_ceremonies s) (publicCeremonies s) (aticks s).
Definition set_rdb d s := mkAState E (acc s) d (limiter s) (passkeyLimiter s) (challenges s) (open_ceremonies s) (publicCeremonies s) (aticks s).
Definition set_limiter l s := mkAState E (acc s) (rdb s) l (passkeyLimiter s) (challenges s) (open_ceremonies s) (publicCeremonies s) (aticks s).
Definition set_passkeyLimiter l s := mkAState E (acc s) (rdb s) (limiter s) l (challenges s) (open_ceremonies s) (publicCeremonies s) (aticks s).
Definition set_challenges c s := mkAState E (acc s) (rdb s) (limiter s) (passkeyLimiter s) c (open_ceremonies s) (publicCeremonies s) (aticks s).
Definition set_open c s := mkAState E (acc s) (rdb s) (limiter s) (passkeyLimiter s) (challenges s) c (publicCeremonies s) (aticks s).
Definition set_public c s := mkAState E (acc s) (rdb s) (limiter s) (passkeyLimiter s) (challenges s) (open_ceremonies s) c (aticks s).
Definition set_aticks n s := mkAState E (acc s) (rdb s) (limiter s) (passkeyLimiter s) (challenges s) (open_ceremonies s) (publicCeremonies s) n.

(** *** The environment *)
Definition tick_ : M nat := fun s => (set_aticks (S (aticks s)) s, Ok (aticks s)).
Definition time_Now : M Z := n ← tick_; mret (aclock n).
Definition random : M string := n ← tick_; match arand n with Some r => mret r | None => st_fail ErrRandom end.

(** A store call that returns its error, one whose error the caller looks at, and
    one whose error is dropped. *)
Definition db {A} (op : stM AuthDB StoreErr A) : M A := fun s =>
  let '(d, r) := op (acc s) in (set_acc d s, match r with Ok a => Ok a | Err e => Err (EStore e) end).
Definition try_db {A} (op : stM AuthDB StoreErr A) : M (result StoreErr A) := fun s =>
  let '(d, r) := op (acc s) in (set_acc d s, Ok r).
Definition ignore {A} (op : stM AuthDB StoreErr A) : M () := _ ← try_db op; mret tt.
Definition read {A} (f : AuthDB -> result StoreErr A) : stM AuthDB StoreErr A := fun d => (d, f d).
Definition roles_db {A} (op : stM DB StoreErr A) : M A := fun s =>
  let '(d, r) := op (rdb s) in (set_rdb d s, match r with Ok a => Ok a | Err e => Err (EStore e) end).

(** *** Limiters, challenges, ceremonies *)
Definition gets {A} (f : AState -> A) : M A := fun s => (s, Ok (f s)).
Definition upd {A} (f : AState -> AState * A) : M A := fun s => let '(s', a) := f s in (s', Ok a).

Definition allow (k : string) : M bool := now ← time_Now; gets (fun s => Allow now k (limiter s)).
Definition charge (k : string) : M () :=
  n ← tick_; upd (fun s => (set_limiter (Fail (aclock n) (arange n) k (limiter s)) s, tt)).
Definition clear (k : string) : M () := upd (fun s => (set_limiter (Reset k (limiter s)) s, tt)).
Definition pk_allow (k : string) : M bool := now ← time_Now; gets (fun s => Allow now k (passkeyLimiter s)).
Definition pk_charge (k : string) : M () :=
  n ← tick_; upd (fun s => (set_passkeyLimiter (Fail (aclock n) (arange n) k (passkeyLimiter s)) s, tt)).
Definition pk_clear (k : string) : M () := upd (fun s => (set_passkeyLimiter (Reset k (passkeyLimiter s)) s, tt)).
Definition spend_challenge (id : string) (exp : Z) : M bool := n ← tick_; upd (fun s =>
  let '(u, ok) := spend (aclock n) (arange n) id exp (challenges s) in (set_challenges u s, ok)).
Definition put_open (key : string) (data : WebAuthnSession) (stepUp : bool) : M bool := n ← tick_; now' ← time_Now; upd (fun s =>
  let '(c, ok) := put (aclock n) now' (arange n) key data stepUp (open_ceremonies s) in (set_open c s, ok)).
Definition take_open (key : string) : M (option (ceremony WebAuthnSession)) := now ← time_Now; upd (fun s =>
  let '(c, r) := take_ceremony now key (open_ceremonies s) in (set_open c s, r)).
Definition put_public (key : string) (data : WebAuthnSession) (stepUp : bool) : M bool := n ← tick_; now' ← time_Now; upd (fun s =>
  let '(c, ok) := put (aclock n) now' (arange n) key data stepUp (publicCeremonies s) in (set_public c s, ok)).
Definition take_public (key : string) : M (option (ceremony WebAuthnSession)) := now ← time_Now; upd (fun s =>
  let '(c, r) := take_ceremony now key (publicCeremonies s) in (set_public c s, r)).

(** [{ s.limiter.Fail(k)…; return nil, err }] *)
Definition refuse {A} (ks : list string) (e : AuthErr) : M A := st_for charge ks ≫= fun _ => st_fail e.
Definition pk_refuse {A} (k : string) (e : AuthErr) : M A := pk_charge k ≫= fun _ => st_fail e.
(** [if !ok { return nil, e }] *)
Definition guard_ (ok : bool) (e : AuthErr) : M () := if ok then mret tt else st_fail e.

(** ** Tokens *)
Definition Issue (userID : Z) (username role : string) (kind : TokenKind) (epoch : Z) : M Issued :=
  let ttl := match kind with KindMFAChallenge => challengeTTL | KindSession => sessionTTL end in
  now ← time_Now;
  id ← random;
  let exp := now + ttl in
  mret (mkIssued (jwt_sign (mkClaims userID username role kind epoch id (Some (rfc3339 exp)))) id exp).

(** (m *TokenManager) Parse *)
Definition Parse (token : string) : M (option Claims) := now ← time_Now; mret (jwt_parse now token).

(** ** Passwords *)
Definition password_ok (password hash : string) : bool :=
  match VerifyPassword IDKey password hash with Some true => true | _ => false end.
Definition hash_password (password : string) : M string := n ← tick_; mret (HashPassword IDKey (asalt n) password).

Definition validateUsername (u : string) : bool :=
  let n := String.length (TrimSpace u) in (3 <=? n)%nat && (n <=? 32)%nat.

(** ** Accounts *)
Definition NeedsSetup : M bool := n ← db (read (CountUsers acc_fault)); mret (n =? 0).

Definition fresh_user (username hash role : string) (ro : bool) (secs : list string) (source email : string) : User :=
  mkUser 0 username hash role email source ro secs "" false false "" false false 0 0 0 0.
Definition with_id (id : Z) (u : User) : User :=
  mkUser id (Username u) (PasswordHash u) (Role u) (Email u) (AuthSource u) (ReadOnly u) (Sections u) (TOTPSecret u) (TOTPEnabled u)
    (MFAEnabled u) (TOTPPending u) (TOTPPendingStepUp u) (Passwordless u) (TOTPLastCounter u) (SessionEpoch u) (CreatedAt u) (LastLoginAt u).

Definition Setup (username password : string) : M User :=
  needs ← NeedsSetup;
  _ ← guard_ needs ErrSetupDone;
  _ ← guard_ (validateUsername username) ErrInvalidUsername;
  _ ← guard_ (MinPasswordLength <=? String.length password)%nat ErrWeakPassword;
  hash ← hash_password password;
  let u := fresh_user username hash "admin" false [] "" "" in
  now ← time_Now;
  r ← try_db (CreateFirstUser acc_fault u now);
  match r with
  | Ok id => mret (with_id id u)
  | Err ErrSetupTaken => st_fail ErrSetupDone
  | Err e => st_fail (EStore e)
  end.

Definition CreateAccount (username password role : string) (readOnly : bool) (secs : list string) : M User :=
  _ ← guard_ (validateUsername username) ErrInvalidUsername;
  _ ← guard_ (MinPasswordLength <=? String.length password)%nat ErrWeakPassword;
  existing ← try_db (read (UserByUsername acc_fault username));
  _ ← guard_ (negb (is_ok existing)) ErrUsernameTaken;
  hash ← hash_password password;
  let u := fresh_user username hash (if String.eqb role "admin" then role else "user") readOnly secs "" "" in
  now ← time_Now;
  id ← db (CreateUser acc_fault u now);
  mret (with_id id u).

Definition SetPassword (userID : Z) (password : string) : M () :=
  _ ← guard_ (MinPasswordLength <=? String.length password)%nat ErrWeakPassword;
  hash ← hash_password password;
  _ ← db (UpdatePassword acc_fault userID hash);
  _ ← db (DeleteUserSessions acc_fault userID);
  db (BumpSessionEpoch acc_fault userID).

(** ** Sessions *)
Definition issueSession (u : User) (info : SessionInfo) : M LoginResult :=
  iss ← Issue (ID u) (Username u) (Role u) KindSession (SessionEpoch u);
  t1 ← time_Now;
  _ ← ignore (PurgeExpiredSessions acc_fault t1);
  t2 ← time_Now;
  _ ← db (CreateSession acc_fault (mkSession (iID iss) (ID u) (IP info) (UserAgent info) 0 0 (iExpiresAt iss)) t2);
  t3 ← time_Now;
  _ ← ignore (TouchLogin acc_fault (ID u) t3);
  mret (mkLogin false (iToken iss) (iExpiresAt iss) u).

(** ** The directory (ldap.go) *)
Definition member (groups : list string) (dn : string) : bool :=
  one_of (aToLower (TrimSpace dn)) ((fun g => aToLower (TrimSpace g)) <$> groups).

(** The loop that keeps the first occurrence of each value that passes. *)
Fixpoint collect {A} `{EqDecision A} (ok : A -> bool) (seen : list A) (l : list A) : list A :=
  match l with
  | [] => []
  | x :: l' => if ok x && negb (bool_decide (x ∈ seen)) then x :: collect ok (x :: seen) l' else collect ok seen l'
  end.

Definition matched_mappings (cfg : LDAPConfig) (groups : list string) : list LDAPGroupMapping :=
  filter (fun m => member groups (gmDN m) = true) (GroupMappings cfg).
Definition SectionsForGroups (cfg : LDAPConfig) (groups : list string) : list string :=
  collect ValidSection [] (concat (gmSections <$> matched_mappings cfg groups)).
Definition RolesForGroups (cfg : LDAPConfig) (groups : list string) : list Z :=
  collect (fun id => 0 <? id) [] (concat (gmRoleIDs <$> matched_mappings cfg groups)).
Definition MapsRoles (cfg : LDAPConfig) : bool :=
  existsb (fun m => match gmRoleIDs m with [] => false | _ => true end) (GroupMappings cfg).

Definition sameSections (a b : list string) : bool := (length a =? length b)%nat && forallb (fun s => one_of s a) b.
Definition containsID (ids : list Z) (id : Z) : bool := existsb (Z.eqb id) ids.
Definition sameIDs (a b : list Z) : bool := (length a =? length b)%nat && forallb (containsID a) b.

Definition syncRoles (userID : Z) (want : list Z) (fallback : Z) : M () :=
  valid ← roles_db (fun d => (d, ExistingRoleIDs role_fault want d));
  valid ← (if (length valid <? length want)%nat && (0 <? fallback) then
             fb ← roles_db (fun d => (d, ExistingRoleIDs role_fault [fallback] d));
             mret (if (length fb =? 1)%nat && negb (containsID valid fallback) then valid ++ [fallback] else valid)
           else mret valid);
  have ← roles_db (fun d => (d, RoleIDsForUser role_fault userID d));
  if sameIDs have valid then mret tt else roles_db (SetUserRoles role_fault userID valid).

(** The dummy hash check of an unknown user changes nothing. *)
Definition ldapLogin (existing : option User) (username password : string) : M User :=
  match ldap_config with
  | Err _ => st_fail ErrInvalidCreds
  | Ok cfg =>
      if negb (ldConfigured cfg) then st_fail ErrInvalidCreds
      else match ldap_auth username password with
      | None => st_fail ErrInvalidCreds
      | Some res =>
          let groupMapped := match GroupMappings cfg with [] => false | _ => true end in
          let mappedSections := SectionsForGroups cfg (lrGroups res) in
          let roleMapped := MapsRoles cfg in
          let mappedRoles := RolesForGroups cfg (lrGroups res) in
          match existing with
          | Some u =>
              u ← (if groupMapped && negb (sameSections (Sections u) mappedSections) then
                     _ ← db (UpdateUserAccess acc_fault (ID u) (Role u) (ReadOnly u) mappedSections);
                     mret (with_access u (Role u) (ReadOnly u) mappedSections)
                   else mret u);
              _ ← (if roleMapped then syncRoles (ID u) mappedRoles (FallbackRoleID cfg) else mret tt);
              if negb (String.eqb (lrEmail res) "") && negb (String.eqb (lrEmail res) (Email u)) then
                _ ← db (SetUserEmail acc_fault (ID u) (lrEmail res));
                mret (with_email u (lrEmail res))
              else mret u
          | None =>
              let u := fresh_user (lrUsername res) "" (if lrIsAdmin res then "admin" else "user") false mappedSections "ldap" (lrEmail res) in
              now ← time_Now;
              id ← db (CreateUser acc_fault u now);
              _ ← (if roleMapped then syncRoles id mappedRoles (FallbackRoleID cfg) else mret tt);
              mret (with_id id u)
          end
      end
  end.
(** Whether a call that may fail did; its effects stay. *)
Definition attempt {A} (m : M A) : M (result AuthErr A) := fun s => let '(s', r) := m s in (s', Ok r).

(** ** Password login *)
Definition Login (rlKey username password : string) (exemptMFA : bool) (info : SessionInfo) : M LoginResult :=
  ok ← allow rlKey;
  _ ← guard_ ok ErrRateLimited;
  found ← try_db (read (UserByUsername acc_fault username));
  let existing := match found with Ok u => Some u | Err _ => None end in
  u ← match existing with
      | Some x =>
          if String.eqb (AuthSource x) "ldap" then
            r ← attempt (ldapLogin existing username password);
            match r with Ok u => mret u | Err _ => refuse [rlKey] ErrInvalidCreds end
          else if password_ok password (PasswordHash x) then mret x else refuse [rlKey] ErrInvalidCreds
      | None =>
          r ← attempt (ldapLogin None username password);
          match r with Ok u => mret u | Err _ => refuse [rlKey] ErrInvalidCreds end
      end;
  if MFAEnabled u && negb exemptMFA then
    iss ← Issue (ID u) (Username u) (Role u) KindMFAChallenge (SessionEpoch u);
    mret (mkLogin true (iToken iss) (iExpiresAt iss) u)
  else
    _ ← clear rlKey;
    issueSession u info.

Definition mfaKey (userID : Z) : string := "mfa:" +:+ FormatInt userID.
Definition StepUpKey (userID : Z) (sessionID : string) : string := "stepup:" +:+ FormatInt userID +:+ ":" +:+ sessionID.

(** ** One-time codes (totp.go) *)
Definition unix (t : Z) : Z := (t - 62135596800 * second) / second.

(** The three steps around now, the oldest first. *)
Definition MatchTOTP (now : Z) (code secret : string) : option Z :=
  let at_ delta := unix now + delta * totpPeriod in
  let hit delta := match totp_code secret (at_ delta) with Some want => String.eqb want code | None => false end in
  match list_find (fun delta => hit delta = true) [-1; 0; 1] with
  | Some (_, delta) => Some (Z.quot (at_ delta) totpPeriod)
  | None => None
  end.
Definition ValidateTOTP (now : Z) (code secret : string) : bool := totp_valid code secret now.

(** The first authenticator, in pairing order, with a code newer than its last; the
    clock is read for each one. *)
Fixpoint match_factor (code : string) (fs : list AuthFactor) (matched : option (Z * Z)) : M (option (Z * Z)) :=
  match fs with
  | [] => mret matched
  | f :: fs' =>
      if negb (String.eqb (fKind f) FactorKindTOTP) then match_factor code fs' matched
      else
        now ← time_Now;
        match_factor code fs'
          match MatchTOTP now code (fSecret f), matched with
          | Some counter, None => if fLastCounter f <? counter then Some (fID f, counter) else None
          | _, _ => matched
          end
  end.

Definition consumeTOTP (u : User) (code : string) : M bool :=
  r ← try_db (read (ListFactors acc_fault (ID u)));
  match r with
  | Err _ => mret false
  | Ok fs =>
      matched ← match_factor (TrimSpace code) fs None;
      match matched with
      | None => mret false
      | Some (id, counter) =>
          t ← time_Now;
          r ← try_db (BurnFactorCounter acc_fault id counter t);
          mret (is_ok r)
      end
  end.

Definition VerifyMFA (rlKey challengeToken code : string) (info : SessionInfo) : M LoginResult :=
  ok ← allow rlKey;
  _ ← guard_ ok ErrRateLimited;
  c ← Parse challengeToken;
  match c with
  | Some (mkClaims uid _ _ KindMFAChallenge _ jti (Some exp)) =>
      let userKey := mfaKey uid in
      ok ← allow userKey;
      _ ← guard_ ok ErrRateLimited;
      ok ← spend_challenge jti exp;
      if negb ok then refuse [rlKey; userKey] ErrInvalidCreds
      else
        r ← try_db (read (UserByID acc_fault uid));
        match r with
        | Err _ => refuse [rlKey; userKey] ErrInvalidCreds
        | Ok u =>
            ok ← (if TOTPEnabled u then consumeTOTP u code else mret false);
            if negb ok then refuse [rlKey; userKey] ErrInvalidMFACode
            else
              _ ← clear rlKey; _ ← clear userKey;
              issueSession u info
        end
  | _ => refuse [rlKey] ErrInvalidCreds
  end.

(** ** Step-up *)
Definition VerifyUserPassword (rlKey : string) (u : User) (password : string) : M () :=
  ok ← allow rlKey;
  _ ← guard_ ok ErrRateLimited;
  ok ← (if String.eqb (AuthSource u) "ldap" then
          r ← attempt (ldapLogin (Some u) (Username u) password); mret (is_ok r)
        else mret (password_ok password (PasswordHash u)));
  if negb ok then refuse [rlKey] ErrInvalidCreds else clear rlKey.

Definition local_account (u : User) : bool := String.eqb (AuthSource u) "" || String.eqb (AuthSource u) "local".

Definition ChangeOwnPassword (rlKey : string) (u : User) (current password : string) (info : SessionInfo) : M LoginResult :=
  _ ← guard_ (local_account u) ErrDirectoryPassword;
  _ ← guard_ (MinPasswordLength <=? String.length password)%nat ErrWeakPassword;
  _ ← VerifyUserPassword rlKey u current;
  _ ← SetPassword (ID u) password;
  fresh ← db (read (UserByID acc_fault (ID u)));
  issueSession fresh info.

(** ** Factors *)
Definition RemoveFactor (userID factorID : Z) : M () := db (DeleteFactor acc_fault factorID userID).

Definition BeginTOTPEnrollment (userID : Z) (stepUp : bool) : M string :=
  u ← db (read (UserByID acc_fault userID));
  n ← tick_;
  match totp_generate n (Username u) with
  | None => st_fail ErrLibrary
  | Some secret => _ ← db (SetTOTPPending acc_fault userID secret stepUp); mret secret
  end.

(** Everything a confirmation decides before it claims the enrolment: the pending
    secret it has settled on. *)
Definition confirm_checks (userID : Z) (code : string) : M string :=
  u ← db (read (UserByID acc_fault userID));
  _ ← guard_ (negb (String.eqb (TOTPPending u) "")) ErrNoPending;
  _ ← guard_ (negb (MFAEnabled u && negb (TOTPPendingStepUp u))) ErrEnrollmentStale;
  now ← time_Now;
  _ ← guard_ (ValidateTOTP now (TrimSpace code) (TOTPPending u)) ErrInvalidMFACode;
  n ← db (read (CountFactors acc_fault userID));
  _ ← guard_ (n <? maxFactorsPerAccount) ErrTooManyFactors;
  mret (TOTPPending u).

Definition ConfirmTOTPEnrollment (userID : Z) (code name : string) : M () :=
  pending ← confirm_checks userID code;
  now ← time_Now;
  r ← try_db (PairPendingFactor acc_fault userID pending name now);
  match r with
  | Ok _ => mret tt
  | Err ErrNotFound => st_fail ErrInvalidMFACode
  | Err e => st_fail (EStore e)
  end.
End Service.
