(* ===== verification/Passkeys.v ===== *)
(** * Passkeys (internal/auth/webauthn.go, passwordless.go)

    Registration, the second-factor ceremony and signing in with a passkey alone,
    over the service of [Login]. *)
From S2P Require Import Prelude Limits GoStrings Password Users Roles Calendar Accounts Login.

Section Passkeys.
Context `{E : AuthEnv}.

#[local] Instance M_ret' : MRet M := M_ret.
#[local] Instance M_bind' : MBind M := M_bind.

Definition registrationKey (userID : Z) : string := "register:" +:+ FormatInt userID.
Definition loginKey (challengeID : string) : string := "login:" +:+ challengeID.
Definition passwordlessKey (id : string) : string := "passwordless:" +:+ id.

(** The stored credentials of an account; an unreadable one fails the call. *)
Definition passkeyUser (u : User) : M (list string) :=
  fresh ← random;
  _ ← db (WebAuthnHandle acc_fault (ID u) fresh);
  fs ← db (read (ListFactors acc_fault (ID u)));
  let creds := filter (fun f => fKind f = FactorKindPasskey /\ fCredential f <> "") fs in
  if forallb (fun f => cred_ok (fCredential f)) creds then mret (fCredential <$> creds) else st_fail ErrLibrary.

Definition HasPasskeys (userID : Z) : M bool :=
  fs ← db (read (ListFactors acc_fault userID));
  mret (existsb (fun f => String.eqb (fKind f) FactorKindPasskey) fs).

(** ** Registration *)
Definition BeginPasskeyRegistration (userID : Z) (stepUp : bool) : M WebAuthnSession :=
  _ ← guard_ rp_ok ErrPasskeyUnavailable;
  u ← db (read (UserByID acc_fault userID));
  n ← db (read (CountFactors acc_fault userID));
  _ ← guard_ (n <? maxFactorsPerAccount) ErrTooManyFactors;
  _ ← passkeyUser u;
  k ← tick_;
  match begin_ceremony k with
  | None => st_fail ErrLibrary
  | Some session =>
      ok ← put_open (registrationKey userID) session stepUp;
      _ ← guard_ ok ErrTooBusy;
      mret session
  end.

(** Everything decided before the credential is stored: the credential, and whether
    the ceremony was opened with the password. *)
Definition registration_checks (userID : Z) (r : Request) : M (Credential * bool) :=
  _ ← guard_ rp_ok ErrPasskeyUnavailable;
  taken ← take_open (registrationKey userID);
  match taken with
  | None => st_fail ErrInvalidCreds
  | Some cer =>
      u ← db (read (UserByID acc_fault userID));
      _ ← guard_ (negb (MFAEnabled u && negb (cstepUp cer))) ErrEnrollmentStale;
      _ ← passkeyUser u;
      match finish_registration (cdata cer) r with
      | None => st_fail ErrInvalidCreds
      | Some credential =>
          n ← db (read (CountFactors acc_fault userID));
          _ ← guard_ (n <? maxFactorsPerAccount) ErrTooManyFactors;
          mret (credential, cstepUp cer)
      end
  end.

Definition passkey_factor (userID : Z) (name : string) (c : Credential) : AuthFactor :=
  mkFactor 0 userID FactorKindPasskey name "" 0 0 0 (crID c) (crBlob c).

Definition FinishPasskeyRegistration (userID : Z) (name : string) (r : Request) : M () :=
  '(credential, stepUp) ← registration_checks userID r;
  now ← time_Now;
  res ← try_db (CreateFactor acc_fault (passkey_factor userID name credential) stepUp now);
  match res with
  | Ok _ => mret tt
  | Err ErrNotFirstFactor => st_fail ErrEnrollmentStale
  | Err e => st_fail (EStore e)
  end.

(** ** The second factor *)
Definition BeginPasskeyLogin (challengeToken : string) : M WebAuthnSession :=
  _ ← guard_ rp_ok ErrPasskeyUnavailable;
  c ← Parse challengeToken;
  match c with
  | Some (mkClaims uid _ _ KindMFAChallenge _ jti _) =>
      if String.eqb jti "" then st_fail ErrInvalidCreds
      else
        r ← try_db (read (UserByID acc_fault uid));
        match r with
        | Err _ => st_fail ErrInvalidCreds
        | Ok u =>
            creds ← passkeyUser u;
            _ ← guard_ (match creds with [] => false | _ => true end) ErrNoPasskeys;
            k ← tick_;
            match begin_ceremony k with
            | None => st_fail ErrLibrary
            | Some session =>
                ok ← put_open (loginKey jti) session true;
                _ ← guard_ ok ErrTooBusy;
                mret session
            end
        end
  | _ => st_fail ErrInvalidCreds
  end.

(** The moved counter is stored, or the login fails. *)
Definition store_counter (u : User) (credential : Credential) : M () :=
  factor ← db (read (FactorByCredentialID acc_fault (crID credential)));
  _ ← guard_ (fUserID factor =? ID u) ErrInvalidCreds;
  now ← time_Now;
  db (UpdateCredential acc_fault (fID factor) (crBlob credential) now).

Definition FinishPasskeyLogin (rlKey challengeToken : string) (r : Request) (info : SessionInfo) : M LoginResult :=
  ok ← allow rlKey;
  _ ← guard_ ok ErrRateLimited;
  _ ← guard_ rp_ok ErrPasskeyUnavailable;
  c ← Parse challengeToken;
  match c with
  | Some (mkClaims uid _ _ KindMFAChallenge _ jti (Some exp)) =>
      if String.eqb jti "" then refuse [rlKey] ErrInvalidCreds
      else
        let userKey := mfaKey uid in
        ok ← allow userKey;
        _ ← guard_ ok ErrRateLimited;
        ok ← spend_challenge jti exp;
        if negb ok then refuse [rlKey; userKey] ErrInvalidCreds
        else
          taken ← take_open (loginKey jti);
          match taken with
          | None => refuse [rlKey; userKey] ErrInvalidCreds
          | Some cer =>
              found ← try_db (read (UserByID acc_fault uid));
              match found with
              | Err _ => st_fail ErrInvalidCreds
              | Ok u =>
                  creds ← passkeyUser u;
                  match finish_login creds (cdata cer) r with
                  | None => refuse [rlKey; userKey] ErrInvalidCreds
                  | Some credential =>
                      if crClone credential then refuse [rlKey; userKey] ErrClonedAuthenticator
                      else
                        _ ← store_counter u credential;
                        _ ← clear rlKey; _ ← clear userKey;
                        issueSession u info
                  end
              end
          end
  | _ => refuse [rlKey] ErrInvalidCreds
  end.

(** ** Signing in with a passkey alone *)
Definition BeginPasswordlessLogin (rlKey : string) : M (WebAuthnSession * string) :=
  let begin := "begin:" +:+ rlKey in
  ok ← pk_allow begin;
  _ ← guard_ ok ErrRateLimited;
  _ ← pk_charge begin;
  _ ← guard_ rp_ok ErrPasskeyUnavailable;
  k ← tick_;
  match begin_ceremony k with
  | None => st_fail ErrLibrary
  | Some session =>
      id ← random;
      ok ← put_public (passwordlessKey id) session true;
      _ ← guard_ ok ErrTooBusy;
      mret (session, id)
  end.

(** The account the assertion's user handle names, with its credentials. *)
Definition handle_account (handle : string) : M (option (User * list string)) :=
  r ← try_db (read (UserByWebAuthnHandle acc_fault handle));
  match r with
  | Err _ => mret None
  | Ok u => c ← attempt (passkeyUser u); mret (match c with Ok creds => Some (u, creds) | Err _ => None end)
  end.

Definition FinishPasswordlessLogin (rlKey ceremonyID : string) (r : Request) (info : SessionInfo) : M LoginResult :=
  ok ← pk_allow rlKey;
  _ ← guard_ ok ErrRateLimited;
  _ ← guard_ rp_ok ErrPasskeyUnavailable;
  if String.eqb ceremonyID "" then pk_refuse rlKey ErrInvalidCreds
  else
    taken ← take_public (passwordlessKey ceremonyID);
    match taken with
    | None => pk_refuse rlKey ErrInvalidCreds
    | Some cer =>
        match assertion_parse r with
        | None => pk_refuse rlKey ErrInvalidCreds
        | Some (handle, uvClaimed) =>
            found ← handle_account handle;
            match found with
            | None => pk_refuse rlKey (if uvClaimed then ErrInvalidCreds else ErrUserVerificationRequired)
            | Some (account, creds) =>
                match finish_login creds (cdata cer) r with
                | None => pk_refuse rlKey (if uvClaimed then ErrInvalidCreds else ErrUserVerificationRequired)
                | Some credential =>
                    if negb uvClaimed then pk_refuse rlKey (EPasswordless (Username account) ErrUserVerificationRequired)
                    else if crClone credential then pk_refuse rlKey (EPasswordless (Username account) ErrClonedAuthenticator)
                    else if negb (local_account account) then pk_refuse rlKey (EPasswordless (Username account) ErrPasswordlessNotAllowed)
                    else if negb (Passwordless account) then pk_refuse rlKey (EPasswordless (Username account) ErrPasswordlessNotAllowed)
                    else
                      _ ← store_counter account credential;
                      _ ← pk_clear rlKey;
                      issueSession account info
                end
            end
        end
    end.
End Passkeys.
