(* ===== verification/SessionGate.v ===== *)
(** * The session gate (internal/auth/middleware.go, and sessionClaims of
    internal/api/oauth_handlers.go)

    What a request has to carry to act as an account, on the API and on the OAuth
    consent page. *)
From S2P Require Import Prelude Limits GoStrings Password Users Roles Calendar Accounts Login.

(** The parts of a request the gate looks at. *)
Record HttpRequest := mkRequest {
  rqCookie : option string;          (* dc_session *)
  rqAuthorization : string;
  rqTokenParam : string;             (* ?token= *)
  rqUpgrade : string; rqConnection : string
}.

Section Gate.
Context `{E : AuthEnv} (EqualFold : string -> string -> bool).

#[local] Instance M_ret' : MRet M := M_ret.
#[local] Instance M_bind' : MBind M := M_bind.

Definition isWebSocketUpgrade (r : HttpRequest) : bool :=
  EqualFold (rqUpgrade r) "websocket" &&
  existsb (fun tok => EqualFold (TrimSpace tok) "upgrade") (Split (rqConnection r) ","%char).

Definition extract (r : HttpRequest) : M (option Claims) :=
  let raw := match rqCookie r with
             | Some c => c
             | None => if HasPrefix (rqAuthorization r) "Bearer " then TrimPrefix (rqAuthorization r) "Bearer "
                       else if negb (String.eqb (rqTokenParam r) "") && isWebSocketUpgrade r then rqTokenParam r else ""
             end in
  if String.eqb raw "" then mret None else Parse raw.

(** [Some] claims reach the handler, [None] is a 401. *)
Definition RequireSession (r : HttpRequest) : M (option Claims) :=
  c ← extract r;
  match c with
  | None => mret None
  | Some c =>
      if negb (bool_decide (cKind c = KindSession)) || String.eqb (cID c) "" then mret None
      else
        e ← try_db (read (GetSessionEpoch acc_fault (cUserID c)));
        match e with
        | Err _ => mret None
        | Ok epoch =>
            if negb (epoch =? cEpoch c) then mret None
            else
              live ← try_db (read (SessionExists acc_fault (cID c) (cUserID c)));
              match live with
              | Ok true => now ← time_Now; _ ← ignore (TouchSession acc_fault (cID c) now); mret (Some c)
              | _ => mret None
              end
        end
  end.

Definition ParseSessionToken (raw : string) : M (option Claims) :=
  c ← Parse raw;
  mret (match c with Some c => if bool_decide (cKind c = KindSession) then Some c else None | None => None end).

(** (s *Server) sessionClaims: who the consent page believes is signed in. *)
Definition sessionClaims (r : HttpRequest) : M (option Claims) :=
  match rqCookie r with None => mret None | Some c => ParseSessionToken c end.
End Gate.
