(* ===== verification/ClientIP.v ===== *)
(** * Where a request comes from (internal/api/client_ip.go, basepath.go, and the parts
    of auth_handlers.go and passkey_handlers.go that read the connection)

    The two middlewares that settle the client's address and the path prefix before
    anything else runs, and what is decided from them: the loopback exemption, the
    Secure flag and path of the session cookie, the WebAuthn relying party. *)
From S2P Require Import Prelude GoStrings NetIP Paths Config Users SessionGate.

(** A request: what the session gate reads, and the rest.  The last two fields are what
    the middlewares leave in its context. *)
Record WebRequest := mkWeb {
  wGate : HttpRequest;
  wRemoteAddr : string;
  wHeaders : gmap string (list string);     (* by canonical name *)
  wHost : string; wTLS : bool;
  wPath : string; wRawPath : string;
  wViaProxy : bool; wPrefix : string
}.

Definition header_Values (r : WebRequest) (name : string) : list string := default [] (wHeaders r !! name).
Definition header_Get (r : WebRequest) (name : string) : string := default "" (head (header_Values r name)).
Definition UserAgentOf (r : WebRequest) : string := header_Get r "User-Agent".

(** ** client_ip.go *)
Definition bare (addr : string) : string := match SplitHostPort addr with Some (host, _) => host | None => addr end.
Definition ipInAny (ip : list Z) (nets : list IPNet) : bool := existsb (fun n => net_Contains n ip) nets.

(** The well-formed addresses of a chain of header values, in order. *)
Definition xff_ips (values : list string) : list (list Z) :=
  omap (fun part => ParseIP (TrimSpace part)) (flat_map (fun h => Split h ","%char) values).

(** The first address from the right that is no proxy of ours. *)
Definition rightmost (trusted : list IPNet) (ips : list (list Z)) : option (list Z) :=
  match list_find (fun ip => ipInAny ip trusted = false) (rev ips) with
  | Some (_, ip) => Some ip
  | None => head ips
  end.
Definition realClientFromXFF (r : WebRequest) (trusted : list IPNet) : string :=
  match rightmost trusted (xff_ips (header_Values r "X-Forwarded-For")) with Some ip => ip_String ip | None => "" end.

Definition clientIP (trusted : list IPNet) (r : WebRequest) : WebRequest :=
  let host := bare (wRemoteAddr r) in
  let via := match ParseIP host with Some peer => ipInAny peer trusted | None => false end in
  let ip := if via then let real := realClientFromXFF r trusted in if negb (String.eqb real "") then real else host else host in
  mkWeb (wGate r) ip (wHeaders r) (wHost r) (wTLS r) (wPath r) (wRawPath r) via (wPrefix r).

Definition viaTrustedProxy (r : WebRequest) : bool := wViaProxy r.

(** ** basepath.go *)
Definition cutPathPrefix (p prefix : string) : option string :=
  if String.eqb p prefix then Some "/"
  else if HasPrefix p (prefix +:+ "/") then Some (sdrop (String.length prefix) p) else None.

Definition stripPathPrefix (r : WebRequest) (prefix : string) : WebRequest :=
  match cutPathPrefix (wPath r) prefix with
  | None => r
  | Some rest =>
      let raw := if String.eqb (wRawPath r) "" then "" else default "" (cutPathPrefix (wRawPath r) prefix) in
      mkWeb (wGate r) (wRemoteAddr r) (wHeaders r) (wHost r) (wTLS r) rest raw (wViaProxy r) (wPrefix r)
  end.

Definition with_prefix (prefix : string) (r : WebRequest) : WebRequest :=
  mkWeb (wGate r) (wRemoteAddr r) (wHeaders r) (wHost r) (wTLS r) (wPath r) (wRawPath r) (wViaProxy r) prefix.

Definition pathPrefix (cfg : Config) (r : WebRequest) : WebRequest :=
  let prefix :=
    if ForwardedPrefix cfg then
      let h := header_Get r "X-Forwarded-Prefix" in
      if String.eqb h "" then BasePath cfg
      else match NormalizePathPrefix h with Ok p => p | Err _ => BasePath cfg end
    else BasePath cfg in
  if String.eqb prefix "" then r else with_prefix prefix (stripPathPrefix r prefix).

Definition requestPrefix (r : WebRequest) : string := wPrefix r.

(** ** Decisions taken from the connection *)
Definition forwardingHeaders : list string :=
  ["Forwarded"; "X-Forwarded-For"; "X-Forwarded-Host"; "X-Forwarded-Proto"; "X-Forwarded-Server"; "X-Forwarded-Prefix"; "X-Real-Ip"; "Via"].
Definition hasForwardingHeaders (r : WebRequest) : bool :=
  existsb (fun h => negb (Nat.eqb (length (header_Values r h)) 0)) forwardingHeaders.

Definition isLoopback (r : WebRequest) : bool :=
  if viaTrustedProxy r || hasForwardingHeaders r then false
  else match ParseIP (bare (wRemoteAddr r)) with Some ip => IsLoopback ip | None => false end.

Definition firstHeaderValue (r : WebRequest) (name : string) : string :=
  let v := header_Get r name in
  match IndexByte v ","%char with Some i => stake i v | None => v end.

Definition cookiePath (r : WebRequest) : string := requestPrefix r +:+ "/".

(** strings.Trim(s, "[]") *)
Definition is_bracket (c : Ascii.ascii) : bool := (code c =? 91) || (code c =? 93).
Fixpoint drop_brackets (l : list Ascii.ascii) : list Ascii.ascii :=
  match l with c :: l' => if is_bracket c then drop_brackets l' else l | [] => [] end.
Definition trim_brackets (s : string) : string := of_bytes (rev (drop_brackets (rev (drop_brackets (bytes s))))).

Record RelyingParty := mkRP { rpID : string; rpOrigin : string }.

Section Connection.
Context (EqualFold : string -> string -> bool) (ToLower : string -> string) (cfg : Config).

Definition cookieSecure (r : WebRequest) : bool :=
  if wTLS r || negb (String.eqb (TLSCert cfg) "") then true
  else if negb (viaTrustedProxy r) then false
  else EqualFold (TrimSpace (firstHeaderValue r "X-Forwarded-Proto")) "https".

Definition isSecureLocalHost (host : string) : bool :=
  let host := ToLower (TrimSuffix (trim_brackets host) ".") in
  if String.eqb host "localhost" || HasSuffix host ".localhost" then true
  else match ParseIP host with Some ip => IsLoopback ip | None => false end.

Definition relyingParty (r : WebRequest) : option RelyingParty :=
  let fwd := firstHeaderValue r "X-Forwarded-Host" in
  let host := TrimSpace (if negb (String.eqb fwd "") && viaTrustedProxy r then fwd else wHost r) in
  if String.eqb host "" then None
  else
    let '(hostname, port) := match SplitHostPort host with Some hp => hp | None => (host, "") end in
    let hostname := ToLower hostname in
    if String.eqb hostname "" then None
    else if HasSuffix hostname "." then None
    else
      let host := if negb (String.eqb port "") then JoinHostPort hostname port else hostname in
      let scheme := if cookieSecure r then "https" else "http" in
      if negb (cookieSecure r) && negb (isSecureLocalHost hostname) then None
      else match ParseIP (trim_brackets hostname) with
           | Some _ => None
           | None => Some (mkRP hostname (scheme +:+ "://" +:+ host))
           end.
End Connection.

(** ** Properties *)
Lemma xff_ips_app a b : xff_ips (a ++ b) = xff_ips a ++ xff_ips b.
Proof. unfold xff_ips. by rewrite flat_map_app, omap_app. Qed.

(** A proxy that appends to the last value of the header appends to the chain. *)
Lemma xff_ips_append values v t : xff_ips (values ++ [v +:+ "," +:+ t]) = xff_ips (values ++ [v]) ++ xff_ips [t].
Proof.
  rewrite !xff_ips_app, <- app_assoc. f_equal. unfold xff_ips. cbn [flat_map]. rewrite !app_nil_r.
  change (v +:+ "," +:+ t) with (v +:+ String ","%char t). by rewrite Split_app, omap_app.
Qed.

Lemma list_find_app_first {A} (P : A -> Prop) `{!forall x, Decision (P x)} l x l' :
  Forall (fun y => ~ P y) l -> P x -> list_find P (l ++ x :: l') = Some (length l, x).
Proof.
  induction l as [|y l IH]; simpl.
  - intros _ Hx. by rewrite decide_True.
  - intros [Hy Hl]%Forall_cons Hx. rewrite decide_False by done. by rewrite IH.
Qed.

Lemma rightmost_untrusted trusted forged real hops :
  ipInAny real trusted = false -> Forall (fun ip => ipInAny ip trusted = true) hops ->
  rightmost trusted (forged ++ real :: hops) = Some real.
Proof.
  intros Hr Hh. unfold rightmost. rewrite rev_app_distr. simpl. rewrite <- app_assoc. simpl.
  rewrite list_find_app_first; [done| |done]. apply Forall_rev. eapply Forall_impl; [exact Hh|]. intros ip ->. done.
Qed.


(** Only the machine itself is local: a request is on the loopback only when the TCP
    peer is, no proxy of ours is in the path and no header betrays another one. *)
Lemma loopback_is_local trusted r : isLoopback (clientIP trusted r) = true ->
  (exists ip, ParseIP (bare (bare (wRemoteAddr r))) = Some ip /\ IsLoopback ip = true) /\
  (forall peer, ParseIP (bare (wRemoteAddr r)) = Some peer -> ipInAny peer trusted = false) /\
  forall h, h ∈ forwardingHeaders -> header_Values r h = [].
Proof.
  unfold isLoopback, viaTrustedProxy. destruct (wViaProxy _ || _) eqn:E; [done|]. apply orb_false_iff in E as [Ev Eh].
  intros H. unfold clientIP in *. cbn [wViaProxy wRemoteAddr] in *. split_and!.
  - destruct (ParseIP (bare (wRemoteAddr r))) as [peer|]; [rewrite Ev in H|]; destruct (ParseIP (bare (bare _))); eauto; done.
  - intros peer Hp. by rewrite Hp in Ev.
  - intros h Hh. unfold hasForwardingHeaders in Eh. destruct (header_Values r h) eqn:E; [done|]. exfalso.
    apply not_true_iff_false in Eh. apply Eh, existsb_exists. exists h. split; [by apply list_elem_of_In|].
    unfold header_Values in *. cbn [wHeaders]. by rewrite E.
Qed.

(** *** Path prefixes *)
Lemma prefix_chars raw p : NormalizePathPrefix raw = Ok p ->
  Forall (fun c => c = slash \/ unreserved c = true) (bytes p) /\ (p = "" \/ exists c q, p = String slash (String c q) /\ unreserved c = true).
Proof.
  intros H. destruct (decide (p = "")) as [->|Hne]; [by split; [constructor|left]|].
  destruct (prefix_is_plain_chars raw p H Hne) as (segs & -> & Hs & Hp & Hc). split; [done|right].
  destruct segs as [|w segs]; [done|]. apply Forall_cons in Hp as [(Hw & _ & _ & Hsl) _]. destruct w as [|c w]; [done|].
  assert (Hcc : c = slash \/ unreserved c = true).
  { rewrite Forall_forall in Hc. apply Hc. right. unfold bytes. destruct segs; by left. }
  destruct Hcc as [->|Hcc]; [by destruct Hsl; left|]. destruct segs as [|v segs]; [by exists c, w|].
  by exists c, (w +:+ "/" +:+ Join (v :: segs) "/").
Qed.

(** nothing a client or a proxy sends gets into a link or a cookie path: the prefix
    in force is the configured one or one that normalises, so the cookie path is made of
    slashes and unreserved characters and cannot name another host. *)
Theorem cookie_path_plain raw cfg r :
  NormalizePathPrefix raw = Ok (BasePath cfg) -> wPrefix r = "" ->
  let path := cookiePath (pathPrefix cfg r) in
  Forall (fun c => c = slash \/ unreserved c = true) (bytes path) /\ HasPrefix path "/" = true /\ HasPrefix path "//" = false.
Proof.
  intros Hb Hr. unfold cookiePath, requestPrefix, pathPrefix. cbv zeta.
  assert (Hq : forall p, (exists raw, NormalizePathPrefix raw = Ok p) -> Forall (fun c => c = slash \/ unreserved c = true) (bytes (p +:+ "/")) /\
                HasPrefix (p +:+ "/") "/" = true /\ HasPrefix (p +:+ "/") "//" = false).
  { intros p [q Hp]. apply prefix_chars in Hp as [Hc Hs]. rewrite bytes_app. split; [apply Forall_app; split; [done|]|].
    - apply Forall_cons. split; [by left|constructor].
    - destruct Hs as [->|(c & p' & -> & Hu)]; [done|]. split; [apply (HasPrefix_app "/" (String c p' +:+ "/"))|].
      change (HasPrefix (String c p' +:+ "/") "/" = false). destruct (HasPrefix _ "/") eqn:E; [|done].
      apply HasPrefix_spec in E as [t E]. injection E as -> _. done. }
  set (prefix := if ForwardedPrefix cfg then _ else _). assert (Hp : exists raw, NormalizePathPrefix raw = Ok prefix).
  { unfold prefix. destruct (ForwardedPrefix cfg); [|eauto]. destruct (String.eqb _ _); [eauto|].
    destruct (NormalizePathPrefix (header_Get _ _)) eqn:E; eauto. }
  clearbody prefix. destruct (String.eqb prefix "") eqn:E; [|by apply Hq]. rewrite Hr. apply Hq. by exists "".
Qed.

(** A request reaches the same route whether or not its proxy strips the prefix. *)
Lemma prefix_transparent prefix p : HasPrefix p "/" = true ->
  cutPathPrefix (prefix +:+ p) prefix = Some p.
Proof.
  intros H. apply HasPrefix_spec in H as [q ->]. unfold cutPathPrefix.
  replace (HasPrefix (prefix +:+ "/" +:+ q) (prefix +:+ "/")) with true.
  - rewrite sdrop_app. destruct (String.eqb _ _) eqn:E; [|done]. apply String.eqb_eq in E.
    apply (f_equal String.length) in E. rewrite str_length_app in E. simpl in E. lia.
  - symmetry. apply HasPrefix_spec. exists q. clear. induction prefix as [|c s IH]; [done|].
    change (String c s +:+ ?x) with (String c (s +:+ x)). change (String c (s +:+ "/") +:+ q) with (String c ((s +:+ "/") +:+ q)). by rewrite IH.
Qed.

(** ** Examples *)
Definition demo_proxies : list IPNet := [single_host (v4_mapped [127; 0; 0; 1]); mkNet (v4_mapped [10; 0; 0; 0]) (CIDRMask 8 32)].
Definition demo_web (addr : string) (xff : list string) : WebRequest :=
  mkWeb (mkRequest None "" "" "" "") addr (match xff with [] => ∅ | _ => {["X-Forwarded-For" := xff]} end) "dc.example.com" false "/" "" false "".

Definition demo_forged : WebRequest := demo_web "127.0.0.1:40122" ["127.0.0.1"; "::1, bogus, 198.51.100.7, 10.2.3.4"].

Definition demo_config (base : string) (fwd : bool) : Config :=
  mkConfig "" "" 0 false false false "" "" "" [] "" "" "" false "" false "" "" [] [] "" "" 0 0 0 false "" 0 demo_proxies base fwd.
Lemma cookie_path_plain_witness : NormalizePathPrefix "dockercmd" = Ok "/dockercmd" /\
  HasPrefix (cookiePath (pathPrefix (demo_config "/dockercmd" true) (demo_web "192.0.2.1:1" []))) "//" = false.
Proof.
  assert (H : NormalizePathPrefix "dockercmd" = Ok (BasePath (demo_config "/dockercmd" true))) by (vm_compute; reflexivity).
  split; [exact H|]. apply (cookie_path_plain "dockercmd" (demo_config "/dockercmd" true) (demo_web "192.0.2.1:1" []) H eq_refl).
Defined.
