(* ===== verification/LoginSpec.v ===== *)
(** * What signing in guarantees

    Inversion lemmas for the service's monad, then the theorems about [Login],
    [VerifyMFA], the passkey paths, enrolment and revocation. *)
From S2P Require Import Prelude Limits GoStrings Password Users Roles Calendar Accounts Login Passkeys SessionGate.

Section Inversion.
Context `{E : AuthEnv}.

#[local] Instance M_ret' : MRet M := M_ret.
#[local] Instance M_bind' : MBind M := M_bind.

Lemma m_bind_ok {A B} (m : M A) (k : A -> M B) s s' b :
  (m ≫= k) s = (s', Ok b) -> exists s1 a, m s = (s1, Ok a) /\ k a s1 = (s', Ok b).
Proof.
  unfold mbind, M_bind', M_bind, stM_bind. destruct (m s) as [s1 [a|e]]; [|done]. eauto.
Qed.

Lemma ret_ok {A} (a b : A) s s' : (mret a : M A) s = (s', Ok b) -> s' = s /\ b = a.
Proof. by intros [= <- <-]. Qed.

Lemma guard_inv ok e s s' (u : ()) : guard_ ok e s = (s', Ok u) -> ok = true /\ s' = s.
Proof. unfold guard_. destruct ok; [by intros [= <-]|done]. Qed.

Lemma refuse_not_ok {A} ks e s s' (a : A) : refuse ks e s = (s', Ok a) -> False.
Proof. intros (s1 & u & _ & H)%m_bind_ok. done. Qed.

Lemma pk_refuse_not_ok {A} k e s s' (a : A) : pk_refuse k e s = (s', Ok a) -> False.
Proof. intros (s1 & u & _ & H)%m_bind_ok. done. Qed.

Lemma read_inv {A} (f : AuthDB -> result StoreErr A) s s' a : db (read f) s = (s', Ok a) -> f (acc s) = Ok a /\ s' = s.
Proof. unfold db, read, set_acc. destruct s. cbn. destruct (f _); [by intros [= <- <-]|done]. Qed.

Lemma try_read_inv {A} (f : AuthDB -> result StoreErr A) s s' r : try_db (read f) s = (s', Ok r) -> r = f (acc s) /\ s' = s.
Proof. unfold try_db, read, set_acc. destruct s. cbn. by intros [= <- <-]. Qed.

Lemma db_inv {A} (op : stM AuthDB StoreErr A) s s' a : db op s = (s', Ok a) -> op (acc s) = (acc s', Ok a).
Proof. unfold db. destruct (op (acc s)) as [d [x|e]]; [by intros [= <- <-]|done]. Qed.

Lemma try_db_inv {A} (op : stM AuthDB StoreErr A) s s' r : try_db op s = (s', Ok r) -> op (acc s) = (acc s', r).
Proof. unfold try_db. destruct (op (acc s)) as [d x]. by intros [= <- <-]. Qed.

(** The calls that leave the accounts alone. *)
Definition keeps_acc {A} (m : M A) : Prop := forall s, acc (m s).1 = acc s.

Lemma keeps_ret {A} (a : A) : keeps_acc (mret a).
Proof. done. Qed.
Lemma keeps_bind {A B} (m : M A) (k : A -> M B) : keeps_acc m -> (forall a, keeps_acc (k a)) -> keeps_acc (m ≫= k).
Proof.
  intros Hm Hk s. unfold mbind, M_bind', M_bind, stM_bind. specialize (Hm s). destruct (m s) as [s1 [a|e]]; [|done].
  cbn in Hm. by rewrite Hk.
Qed.
Lemma keeps_tick : keeps_acc tick_. Proof. by intros []. Qed.
Lemma keeps_gets {A} (f : AState -> A) : keeps_acc (gets f). Proof. done. Qed.
Lemma keeps_now : keeps_acc time_Now. Proof. by intros []. Qed.
Lemma keeps_allow k : keeps_acc (allow k). Proof. by intros []. Qed.
Lemma keeps_pk_allow k : keeps_acc (pk_allow k). Proof. by intros []. Qed.
Lemma keeps_clear k : keeps_acc (clear k). Proof. by intros []. Qed.
Lemma keeps_pk_clear k : keeps_acc (pk_clear k). Proof. by intros []. Qed.
Lemma keeps_parse t : keeps_acc (Parse t). Proof. by intros []. Qed.
Lemma keeps_spend id e : keeps_acc (spend_challenge id e).
Proof. intros []. unfold spend_challenge, upd, mbind, M_bind, stM_bind. cbn. by destruct (spend _ _ _ _ _). Qed.
Lemma keeps_take_open k : keeps_acc (take_open k). Proof. by intros []. Qed.
Lemma keeps_take_public k : keeps_acc (take_public k). Proof. by intros []. Qed.
Lemma keeps_random : keeps_acc random.
Proof. intros []. unfold random, tick_, mbind, M_bind, stM_bind. cbn. by destruct (arand _). Qed.

Lemma keeps_run {A} (m : M A) s s' r : keeps_acc m -> m s = (s', r) -> acc s' = acc s.
Proof. intros H Hm. specialize (H s). by rewrite Hm in H. Qed.
End Inversion.

#[export] Hint Resolve keeps_ret keeps_bind keeps_tick keeps_gets keeps_now keeps_allow keeps_pk_allow keeps_clear keeps_pk_clear
  keeps_parse keeps_spend keeps_take_open keeps_take_public keeps_random : go.

(** Run one bind of a hypothesis [m s = (s', Ok a)]. *)
Ltac mstep H s a Hm := apply m_bind_ok in H as (s & a & Hm & H); cbv beta zeta in H.
(** The same for a call that leaves the accounts alone. *)
Ltac mquiet H s a := let Hm := fresh in apply m_bind_ok in H as (s & a & Hm & H); cbv beta zeta in H; apply keeps_run in Hm; [|by auto with go].

Section Sessions.
Context `{E : AuthEnv}.

#[local] Instance M_ret'' : MRet M := M_ret.
#[local] Instance M_bind'' : MBind M := M_bind.

Lemma Issue_inv uid name role kind epoch s s' iss : Issue uid name role kind epoch s = (s', Ok iss) ->
  acc s' = acc s /\ exists id t, iID iss = id /\
    iToken iss = jwt_sign (mkClaims uid name role kind epoch id (Some (rfc3339 t))) /\ iExpiresAt iss = t.
Proof.
  unfold Issue. intros H. mquiet H s1 now. mquiet H s2 jti. apply ret_ok in H as [-> ->].
  split; [congruence|]. eexists _, _. split; [|split]; reflexivity.
Qed.

Lemma ignore_keeps {A} (op : stM AuthDB StoreErr A) s s' u : ignore op s = (s', Ok u) -> acc s' = (op (acc s)).1.
Proof.
  unfold ignore. intros H. mstep H s1 r Hm. apply try_db_inv in Hm. apply ret_ok in H as [-> _]. by rewrite Hm.
Qed.

(** A session is a row in the table and a token naming it and the account's epoch. *)
Lemma issueSession_inv u info s s' res : issueSession u info s = (s', Ok res) ->
  lUser res = u /\ MFARequired res = false /\
  exists row exp, row ∈ sessions (acc s') /\ sUserID row = ID u /\
    lToken res = jwt_sign (mkClaims (ID u) (Username u) (Role u) KindSession (SessionEpoch u) (sID row) (Some exp)).
Proof.
  unfold issueSession. intros H. mstep H s1 iss Hi. apply Issue_inv in Hi as (_ & id & t & Hid & Htok & Hexp).
  mquiet H s2 t1. mstep H s3 u1 Hp. mquiet H s4 t2. mstep H s5 u2 Hc. mquiet H s6 t3. mstep H s7 u3 Ht.
  apply ret_ok in H as [-> ->]. split; [done|]. split; [done|].
  apply db_inv in Hc. apply ignore_keeps in Ht. unfold CreateSession in Hc. destruct (acc_fault QSInsert); [done|].
  destruct (existsb _ _); [done|]. injection Hc as Hc. set (row := mkSession _ _ _ _ _ _ _) in Hc.
  exists row, (rfc3339 t). split; [|split; [done|]].
  - rewrite Ht. unfold TouchLogin, ax. destruct (acc_fault QATouch); cbn; rewrite H2, <- Hc; cbn; apply elem_of_app; right; left.
  - cbn [lToken]. rewrite Htok, <- Hid. reflexivity.
Qed.
End Sessions.

(** ** Passwords *)
Section PasswordLogin.
Context `{E : AuthEnv}.

#[local] Instance M_ret3 : MRet M := M_ret.
#[local] Instance M_bind3 : MBind M := M_bind.

(** What a read of an account says of its factors. *)
Lemma scan_mfa d u : MFAEnabled (scanUserRow d u) = false <-> factors_of (ID u) d = [].
Proof. unfold scanUserRow, with_factors. cbn. by destruct (factors_of (ID u) d). Qed.

Lemma find_user_inv P d x : find_user P d = Ok x -> exists u, u ∈ users d /\ P u = true /\ x = scanUserRow d u.
Proof.
  unfold find_user. destruct (list_find _ (users d)) as [[i u]|] eqn:Ef; [|done]. intros [= <-].
  apply list_find_Some in Ef as (Hi & Hp & _). exists u. split; [by eapply list_elem_of_lookup_2|done].
Qed.

Lemma UserByUsername_inv name d x : UserByUsername acc_fault name d = Ok x ->
  exists u, u ∈ users d /\ Username u = name /\ x = scanUserRow d u.
Proof.
  unfold UserByUsername, aq. destruct (acc_fault QAByName); [done|]. intros (u & ? & Hu & ?)%find_user_inv.
  apply String.eqb_eq in Hu. eauto.
Qed.
Lemma UserByID_inv i d x : UserByID acc_fault i d = Ok x -> exists u, u ∈ users d /\ ID u = i /\ x = scanUserRow d u.
Proof.
  unfold UserByID, aq. destruct (acc_fault QAByID); [done|]. intros (u & ? & Hu & ?)%find_user_inv.
  apply Z.eqb_eq in Hu. eauto.
Qed.

Definition keeps_sessions {A} (m : M A) : Prop := forall s, sessions (acc (m s).1) = sessions (acc s).

Lemma ks_acc {A} (m : M A) : keeps_acc m -> keeps_sessions m.
Proof. intros H s. by rewrite H. Qed.
Lemma ks_bind {A B} (m : M A) (k : A -> M B) : keeps_sessions m -> (forall a, keeps_sessions (k a)) -> keeps_sessions (m ≫= k).
Proof.
  intros Hm Hk s. unfold mbind, M_bind3, M_bind, stM_bind. specialize (Hm s). destruct (m s) as [s1 [a|e]]; [|done].
  cbn in Hm. by rewrite Hk.
Qed.
Lemma ks_db {A} (op : stM AuthDB StoreErr A) : (forall d, sessions (op d).1 = sessions d) -> keeps_sessions (db op).
Proof. intros H s. unfold db. specialize (H (acc s)). by destruct (op (acc s)) as [d [a|e]]. Qed.
Lemma keeps_roles {A} (op : stM DB StoreErr A) : keeps_acc (roles_db op).
Proof. intros s. unfold roles_db. by destruct (op (rdb s)) as [d [a|e]]. Qed.
Lemma keeps_syncRoles uid want fb : keeps_acc (syncRoles uid want fb).
Proof.
  unfold syncRoles. apply keeps_bind; [apply keeps_roles|]. intros valid. apply keeps_bind.
  - destruct (_ && _); [|apply keeps_ret]. apply keeps_bind; [apply keeps_roles|intros; apply keeps_ret].
  - intros valid'. apply keeps_bind; [apply keeps_roles|]. intros have. destruct (sameIDs _ _); [apply keeps_ret|apply keeps_roles].
Qed.

Lemma insert_user_sessions u now d : sessions (insert_user u now d).1 = sessions d.
Proof. unfold insert_user. by destruct (existsb _ _). Qed.

Lemma keeps_sync (b : bool) uid want fb : keeps_acc (if b then syncRoles uid want fb else mret tt : M ()).
Proof. destruct b; [apply keeps_syncRoles|apply keeps_ret]. Qed.

(** A directory login never makes or ends a session. *)
Lemma ks_ldapLogin x name pw : keeps_sessions (ldapLogin x name pw).
Proof.
  unfold ldapLogin. destruct ldap_config as [cfg|]; [|done]. destruct (negb _); [done|].
  destruct (ldap_auth name pw) as [res|]; [|done]. cbv zeta. destruct x as [u|].
  - apply ks_bind.
    + destruct (_ && _); [|apply ks_acc, keeps_ret]. apply ks_bind; [apply ks_db|intros; apply ks_acc, keeps_ret].
      intros d. unfold UpdateUserAccess, ax. by destruct (acc_fault QAAccess).
    + intros u1. apply ks_bind; [apply ks_acc, keeps_sync|]. intros _.
      destruct (_ && _); [|apply ks_acc, keeps_ret]. apply ks_bind; [apply ks_db|intros; apply ks_acc, keeps_ret].
      intros d. unfold SetUserEmail, ax. by destruct (acc_fault QAEmail).
  - apply ks_bind; [apply ks_acc, keeps_now|]. intros now. apply ks_bind.
    + apply ks_db. intros d. unfold CreateUser. destruct (acc_fault QAInsertUser); [done|]. apply insert_user_sessions.
    + intros i. apply ks_bind; [apply ks_acc, keeps_sync|]. intros _. apply ks_acc, keeps_ret.
Qed.

(** It returns the account it was asked about, and only when the directory accepted the password. *)
Lemma ldapLogin_inv x name pw s s' u : ldapLogin x name pw s = (s', Ok u) ->
  (exists cfg res, ldap_config = Ok cfg /\ ldConfigured cfg = true /\ ldap_auth name pw = Some res) /\
  match x with
  | Some x => ID u = ID x /\ MFAEnabled u = MFAEnabled x /\ SessionEpoch u = SessionEpoch x
  | None => MFAEnabled u = false
  end.
Proof.
  unfold ldapLogin. destruct ldap_config as [cfg|]; [|done]. destruct (negb (ldConfigured cfg)) eqn:Ec; [done|].
  destruct (ldap_auth name pw) as [res|]; [|done]. cbv zeta. intros H. split; [bsimp; eauto|]. destruct x as [x|].
  - mstep H s1 u1 Hu. mstep H s2 v Hs.
    assert (H1 : ID u1 = ID x /\ MFAEnabled u1 = MFAEnabled x /\ SessionEpoch u1 = SessionEpoch x).
    { destruct (_ && _); [|by apply ret_ok in Hu as [_ ->]]. mstep Hu s3 w Hw. by apply ret_ok in Hu as [_ ->]. }
    destruct (_ && _) in H; [|by apply ret_ok in H as [_ ->]]. mstep H s3 w Hw. by apply ret_ok in H as [_ ->].
  - mquiet H s1 now. mstep H s2 i Hi. mstep H s3 v Hs. by apply ret_ok in H as [_ ->].
Qed.

Lemma attempt_inv {A} (m : M A) s s' r : attempt m s = (s', Ok r) -> m s = (s', r).
Proof. unfold attempt. destruct (m s) as [s1 r1]. by intros [= <- <-]. Qed.

Definition directory_accepts (name pw : string) : Prop :=
  exists cfg res, ldap_config = Ok cfg /\ ldConfigured cfg = true /\ ldap_auth name pw = Some res.

(** What a successful password step says. *)
Lemma login_inv rlKey name pw exempt info s s' res :
  Login rlKey name pw exempt info s = (s', Ok res) ->
  match UserByUsername acc_fault name (acc s) with
  | Ok x =>
      ID (lUser res) = ID x /\
      (if String.eqb (AuthSource x) "ldap" then directory_accepts name pw else password_ok pw (PasswordHash x) = true) /\
      (MFARequired res = false -> exempt = true \/ factors_of (ID x) (acc s) = [])
  | Err _ => directory_accepts name pw
  end /\
  (MFARequired res = true -> sessions (acc s') = sessions (acc s) /\ exists c, lToken res = jwt_sign c /\ cKind c = KindMFAChallenge).
Proof.
  unfold Login. intros H. mquiet H s1 ok. mstep H s2 tu Hg. apply guard_inv in Hg as [_ ->].
  mstep H s3 found Hf. apply try_read_inv in Hf as [-> ->]. rewrite H0 in *. mstep H s4 u Hu.
  assert (Hwho : sessions (acc s4) = sessions (acc s) /\
    match UserByUsername acc_fault name (acc s) with
    | Ok x => ID u = ID x /\ MFAEnabled u = MFAEnabled x /\
        (if String.eqb (AuthSource x) "ldap" then directory_accepts name pw else password_ok pw (PasswordHash x) = true)
    | Err _ => directory_accepts name pw
    end).
  { assert (Hdir : forall x, (r ← attempt (ldapLogin x name pw); match r with Ok u => mret u | Err _ => refuse [rlKey] ErrInvalidCreds end) s1
        = (s4, Ok u) -> sessions (acc s4) = sessions (acc s) /\ directory_accepts name pw /\
        match x with Some x => ID u = ID x /\ MFAEnabled u = MFAEnabled x | None => True end).
    { intros x Hx. mstep Hx s5 r Hr. apply attempt_inv in Hr. pose proof (ks_ldapLogin x name pw s1) as Hks. rewrite Hr in Hks.
      destruct r as [v|e]; [|by apply refuse_not_ok in Hx]. apply ret_ok in Hx as [-> ->]. apply ldapLogin_inv in Hr as [Hd Hv].
      rewrite <- H0. split; [done|]. split; [done|]. destruct x; [tauto|done]. }
    destruct (UserByUsername acc_fault name (acc s)) as [x|e]; cbv iota beta in Hu.
    - destruct (String.eqb (AuthSource x) "ldap").
      + apply Hdir in Hu as (? & ? & ? & ?). auto.
      + destruct (password_ok pw (PasswordHash x)) eqn:Ep; [|by apply refuse_not_ok in Hu].
        apply ret_ok in Hu as [-> ->]. by rewrite H0.
    - apply Hdir in Hu as (? & ? & _). auto. }
  destruct Hwho as [Hses Hwho].
  destruct (MFAEnabled u && negb exempt) eqn:Em.
  - mstep H s5 iss Hi. apply Issue_inv in Hi as (Hacc & jti & t & _ & Htok & _). apply ret_ok in H as [-> ->]. cbn [lUser MFARequired lToken].
    split.
    + destruct (UserByUsername _ _ _); [|done]. destruct Hwho as (? & ? & ?). split; [done|]. split; [done|]. discriminate.
    + intros _. split; [congruence|]. eexists. split; [exact Htok|done].
  - mquiet H s5 tu'. apply issueSession_inv in H as (-> & -> & _). split; [|discriminate].
    destruct (UserByUsername acc_fault name (acc s)) as [x|e] eqn:Ex; [|done]. destruct Hwho as (Hid & Hmfa & Hpw).
    split; [done|]. split; [done|]. intros _. apply andb_false_iff in Em as [Em|Em]; [right|left; by apply negb_false_iff].
    apply UserByUsername_inv in Ex as (row & _ & _ & ->). rewrite Hmfa in Em. by apply scan_mfa in Em.
Qed.

(** C4: a password alone signs in only an account without a second factor.  When
    [Login] succeeds the password was the account's own, checked against its stored
    hash or by the directory as the account's source says; if it hands out a session
    the account had no factor of any kind at that moment, unless the caller was
    exempted, and otherwise it hands out a challenge and creates no session. *)
Theorem login_needs_second_factor rlKey name pw exempt info s s' res :
  Login rlKey name pw exempt info s = (s', Ok res) ->
  match UserByUsername acc_fault name (acc s) with
  | Ok x =>
      ID (lUser res) = ID x /\
      (if String.eqb (AuthSource x) "ldap" then directory_accepts name pw else password_ok pw (PasswordHash x) = true) /\
      (MFARequired res = false -> exempt = true \/ factors_of (ID x) (acc s) = [])
  | Err _ => directory_accepts name pw
  end /\
  (MFARequired res = true -> sessions (acc s') = sessions (acc s) /\ exists c, lToken res = jwt_sign c /\ cKind c = KindMFAChallenge).
Proof. apply login_inv. Qed.
End PasswordLogin.

(** ** The second factor *)
Section SecondFactor.
Context `{E : AuthEnv}.

#[local] Instance M_ret4 : MRet M := M_ret.
#[local] Instance M_bind4 : MBind M := M_bind.

Lemma keeps_match_factor code fs : forall m, keeps_acc (match_factor code fs m).
Proof.
  induction fs as [|f fs IH]; intros m; cbn [match_factor]; [apply keeps_ret|].
  destruct (negb _); [apply IH|]. apply keeps_bind; [apply keeps_now|]. intros now. apply IH.
Qed.

(** A code that matched, on an authenticator it is newer than. *)
Definition fresh_code (code : string) (fs : list AuthFactor) (id counter : Z) : Prop :=
  exists f now, f ∈ fs /\ fID f = id /\ fKind f = FactorKindTOTP /\
    MatchTOTP now code (fSecret f) = Some counter /\ fLastCounter f < counter.

Lemma match_factor_inv code fs : forall m s s' id counter, match_factor code fs m s = (s', Ok (Some (id, counter))) ->
  m = Some (id, counter) \/ fresh_code code fs id counter.
Proof.
  induction fs as [|f fs IH]; intros m s s' i counter H; cbn [match_factor] in H; [apply ret_ok in H as [_ <-]; by left|].
  assert (Hr : forall i counter, fresh_code code fs i counter -> fresh_code code (f :: fs) i counter).
  { intros i0 k (g & now & Hg & Hrest). exists g, now. split; [by right|done]. }
  destruct (negb _) eqn:Ek.
  - apply IH in H as [H|H]; [by left|right; by apply Hr].
  - mstep H s1 now Hn. apply negb_false_iff, String.eqb_eq in Ek. apply IH in H as [H|H]; [|right; by apply Hr].
    destruct (MatchTOTP now code (fSecret f)) as [k|] eqn:Em; [|by left]. destruct m as [m|]; [by left|].
    destruct (fLastCounter f <? k) eqn:El; [|done]. injection H as <- <-. right. exists f, now. bsimp.
    split; [left|done].
Qed.

Lemma consumeTOTP_inv u code s s' : consumeTOTP u code s = (s', Ok true) ->
  exists id counter t, fresh_code (TrimSpace code) (factors_of (ID u) (acc s)) id counter /\
    BurnFactorCounter acc_fault id counter t (acc s) = (acc s', Ok tt).
Proof.
  unfold consumeTOTP. intros H. mstep H s1 r Hr. apply try_read_inv in Hr as [-> ->].
  unfold ListFactors, aq in H. destruct (acc_fault QFList); [by apply ret_ok in H as [_ ?]|].
  mstep H s2 m Hm. pose proof (keeps_run _ _ _ _ (keeps_match_factor _ _ _) Hm) as Hacc.
  destruct m as [[i counter]|]; [|by apply ret_ok in H as [_ ?]].
  apply match_factor_inv in Hm as [?|Hm]; [done|]. mquiet H s3 t. mstep H s4 r Hr. apply try_db_inv in Hr.
  apply ret_ok in H as [-> Hok]. destruct r as [[]|e]; [|done]. exists i, counter, t. split; [done|].
  by rewrite H0, Hacc in Hr.
Qed.

Lemma spend_inv jti exp s s' : spend_challenge jti exp s = (s', Ok true) ->
  jti <> "" /\ exists n, spend (aclock n) (arange n) jti exp (challenges s) = (challenges s', true).
Proof.
  unfold spend_challenge, upd, tick_, mbind, M_bind, stM_bind. destruct s as [a b l p ch oc pc t]. cbn.
  destruct (spend _ _ _ _ _) as [u ok] eqn:Es. intros [= <- ->]. split; [|exists t; exact Es].
  intros ->. done.
Qed.

(** the code step is sound.  When [VerifyMFA] hands out a session, the challenge
    token was genuine and unspent and is spent now, and the account it names holds an
    authenticator that produced the code for a time step newer than any it had
    accepted, a step that is burned in the same call. *)
Theorem mfa_needs_fresh_code rlKey token code info s s' res :
  VerifyMFA rlKey token code info s = (s', Ok res) ->
  exists t c exp s1 u id counter t' d,
    jwt_parse t token = Some c /\ cKind c = KindMFAChallenge /\ cExpiresAt c = Some exp /\
    (exists n, spend (aclock n) (arange n) (cID c) exp (challenges s) = (challenges s1, true)) /\
    UserByID acc_fault (cUserID c) (acc s) = Ok u /\ lUser res = u /\ MFARequired res = false /\
    fresh_code (TrimSpace code) (factors_of (ID u) (acc s)) id counter /\
    BurnFactorCounter acc_fault id counter t' (acc s) = (d, Ok tt).
Proof.
  unfold VerifyMFA. intros H.
  apply m_bind_ok in H as (s1 & ok1 & Ha1 & H). cbv beta in H.
  assert (Hs1 : acc s1 = acc s /\ challenges s1 = challenges s) by (revert Ha1; destruct s; by intros [= <- _]).
  mstep H s2 tu Hg. apply guard_inv in Hg as [_ ->].
  apply m_bind_ok in H as (s3 & c & Hp & H). cbv beta in H.
  assert (Hs3 : acc s3 = acc s1 /\ challenges s3 = challenges s1 /\ exists t, jwt_parse t token = c)
    by (revert Hp; destruct s1; intros [= <- <-]; eauto).
  destruct Hs3 as (Hs3 & Hc3 & t & Ht).
  destruct c as [[uid un ro [|] ep jti [exp|]]|]; cbv beta iota zeta in H; try by apply refuse_not_ok in H.
  apply m_bind_ok in H as (s4 & ok4 & Ha4 & H). cbv beta in H.
  assert (Hs4 : acc s4 = acc s3 /\ challenges s4 = challenges s3) by (revert Ha4; destruct s3; by intros [= <- _]).
  mstep H s5 tu5 Hg. apply guard_inv in Hg as [_ ->].
  mstep H s6 ok6 Hsp. destruct ok6; cbn [negb] in H; [|by apply refuse_not_ok in H].
  pose proof (keeps_run _ _ _ _ (keeps_spend jti exp) Hsp) as Hacc6. apply spend_inv in Hsp as (Hne & n & Hsp).
  mstep H s7 r Hr. apply try_read_inv in Hr as [-> ->].
  assert (Hacc : acc s6 = acc s) by (destruct Hs1, Hs4; congruence). rewrite Hacc in H.
  destruct (UserByID acc_fault uid (acc s)) as [u|e] eqn:Eu; [|by apply refuse_not_ok in H].
  mstep H s8 ok8 Hct. destruct ok8; cbn [negb] in H; [|by apply refuse_not_ok in H].
  destruct (TOTPEnabled u); [|by apply ret_ok in Hct as [_ ?]].
  apply consumeTOTP_inv in Hct as (i & counter & t' & Hf & Hb). rewrite Hacc in Hf, Hb.
  mquiet H s9 tu9. mquiet H s10 tu10. apply issueSession_inv in H as (-> & -> & _).
  eexists t, _, exp, s6, u, i, counter, t', _. split; [exact Ht|]. split; [done|]. split; [done|].
  split; [exists n; destruct Hs1 as [_ <-], Hs4 as [_ Hs4]; rewrite <- Hc3, <- Hs4; exact Hsp|].
  split; [exact Eu|]. split; [done|]. split; [done|]. split; [exact Hf|exact Hb].
Qed.

(** ** Passkeys alone *)
Lemma handle_account_inv handle s s' u creds : handle_account handle s = (s', Ok (Some (u, creds))) ->
  UserByWebAuthnHandle acc_fault handle (acc s) = Ok u.
Proof.
  unfold handle_account. intros H. mstep H s1 r Hr. apply try_read_inv in Hr as [-> ->].
  destruct (UserByWebAuthnHandle _ _ _) as [v|e]; [|by apply ret_ok in H as [_ ?]].
  mstep H s2 c Hc. apply ret_ok in H as [_ H]. by destruct c; simplify_eq.
Qed.

(** nobody is signed in by a passkey alone who did not ask for it.  A passwordless
    sign-in succeeds only for the account whose handle the assertion carries, when the
    account's password is kept here, its owner has turned the feature on, the
    assertion verified against the account's own credentials for a ceremony this
    server opened and had not answered, the authenticator checked its user on this
    very assertion, and its counter did not betray a copy. *)
Theorem passwordless_is_opt_in rlKey ceremonyID r info s s' res :
  FinishPasswordlessLogin rlKey ceremonyID r info s = (s', Ok res) ->
  exists handle cer creds credential s1,
    assertion_parse r = Some (handle, true) /\
    copen (publicCeremonies s) !! passwordlessKey ceremonyID = Some cer /\
    copen (publicCeremonies s1) !! passwordlessKey ceremonyID = None /\
    finish_login creds (cdata cer) r = Some credential /\ crClone credential = false /\
    UserByWebAuthnHandle acc_fault handle (acc s) = Ok (lUser res) /\
    local_account (lUser res) = true /\ Passwordless (lUser res) = true /\ MFARequired res = false.
Proof.
  unfold FinishPasswordlessLogin. intros H.
  apply m_bind_ok in H as (s1 & ok1 & Ha1 & H). cbv beta in H.
  assert (Hs1 : acc s1 = acc s /\ publicCeremonies s1 = publicCeremonies s) by (revert Ha1; destruct s; by intros [= <- _]).
  mstep H s2 tu Hg. apply guard_inv in Hg as [_ ->]. mstep H s3 tu3 Hg. apply guard_inv in Hg as [_ ->].
  destruct (String.eqb ceremonyID ""); [by apply pk_refuse_not_ok in H|].
  apply m_bind_ok in H as (s4 & taken & Ht & H). cbv beta in H.
  assert (Hs4 : acc s4 = acc s1 /\ copen (publicCeremonies s4) !! passwordlessKey ceremonyID = None /\
    forall cer, taken = Some cer -> copen (publicCeremonies s1) !! passwordlessKey ceremonyID = Some cer).
  { revert Ht. destruct s1. unfold take_public, upd, time_Now, tick_, mbind, M_bind, stM_bind. cbn. intros [= <- <-]. cbn.
    split; [done|]. split; [apply lookup_delete_eq|]. intros cer. repeat case_match; congruence. }
  destruct Hs4 as (Hs4 & Hgone & Htaken). destruct taken as [cer|]; [|by apply pk_refuse_not_ok in H].
  destruct (assertion_parse r) as [[handle uv]|] eqn:Ep; [|by apply pk_refuse_not_ok in H].
  mstep H s5 found Hf. destruct found as [[account creds]|]; [|by apply pk_refuse_not_ok in H].
  apply handle_account_inv in Hf. destruct (finish_login creds (cdata cer) r) as [cr|] eqn:Ev; [|by apply pk_refuse_not_ok in H].
  destruct uv; cbn [negb] in H; [|by apply pk_refuse_not_ok in H].
  destruct (crClone cr) eqn:Ecl; [by apply pk_refuse_not_ok in H|].
  destruct (local_account account) eqn:El; cbn [negb] in H; [|by apply pk_refuse_not_ok in H].
  destruct (Passwordless account) eqn:Epl; cbn [negb] in H; [|by apply pk_refuse_not_ok in H].
  mstep H s6 tu6 Hst. mquiet H s7 tu7. apply issueSession_inv in H as (-> & -> & _).
  destruct Hs1 as [Hacc Hpub]. exists handle, cer, creds, cr, s4. rewrite <- Hpub, <- Hacc, <- Hs4.
  repeat split; auto.
Qed.

(** ** Enrolment *)
Lemma confirm_checks_inv uid code s s' p : confirm_checks uid code s = (s', Ok p) ->
  acc s' = acc s /\ p <> "" /\ exists u, UserByID acc_fault uid (acc s) = Ok u /\ TOTPPending u = p /\
    (MFAEnabled u = false \/ TOTPPendingStepUp u = true).
Proof.
  unfold confirm_checks. intros H. mstep H s1 u Hu. apply read_inv in Hu as [Hu ->].
  mstep H s2 t2 Hg2. apply guard_inv in Hg2 as [Hg2 ->]. mstep H s3 t3 Hg3. apply guard_inv in Hg3 as [Hg3 ->].
  mquiet H s4 now. mstep H s5 t5 Hg5. apply guard_inv in Hg5 as [_ ->]. mstep H s6 n Hn. apply read_inv in Hn as [_ ->].
  mstep H s7 t7 Hg7. apply guard_inv in Hg7 as [_ ->]. apply ret_ok in H as [-> ->].
  split; [done|]. bsimp. split; [done|]. exists u. split; [done|]. split; [done|].
  destruct (MFAEnabled u); [|by left]. right. by destruct (TOTPPendingStepUp u).
Qed.

(** no interleaving adds an authenticator to a protected account without its
    password.  Between everything a confirmation decides and the statement that pairs
    the authenticator, any number of other requests may run any statements; as long as
    secrets are not reused, the pairing succeeds only if the enrolment was begun with
    the password or the account still has no factor at all.  Registering a passkey
    obeys the same rule with nothing assumed about what runs in between. *)
Theorem pairing_needs_step_up uid code s s1 p d fault name now d' i :
  acc_wf (acc s) -> confirm_checks uid code s = (s1, Ok p) ->
  rtc (acc_step (fun op => forall su, op <> OPending uid p su)) (acc s1) d ->
  PairPendingFactor fault uid p name now d = (d', Ok i) ->
  (exists u, u ∈ users (acc s) /\ ID u = uid /\ TOTPPending u = p /\ TOTPPendingStepUp u = true) \/ factors_of uid d = [].
Proof.
  intros Hwf Hc Hrun Hp. apply confirm_checks_inv in Hc as (Hacc & Hne & x & Hx & Hpend & Hor). rewrite Hacc in Hrun.
  apply UserByID_inv in Hx as (u & Hu & Huid & ->). destruct Hor as [Hno|Hsu]; [right|left; eauto].
  apply scan_mfa in Hno. rewrite Huid in Hno.
  eapply (acc_run_invariant _ (pending_safe uid p)) in Hrun as [Hsafe _]; [| |done|].
  - apply PairPendingFactor_inv in Hp as (_ & (v & Hv & Hvid & Hvp) & _). by apply (Hsafe v).
  - intros op d1 d2 Hop Hwf1 He. by eapply effect_pending_safe.
  - intros v _ _ _. done.
Qed.

Theorem passkey_needs_step_up uid r s s1 c su fault name now d d' i :
  registration_checks uid r s = (s1, Ok (c, su)) ->
  CreateFactor fault (passkey_factor uid name c) su now d = (d', Ok i) ->
  (exists cer, copen (open_ceremonies s) !! registrationKey uid = Some cer /\ cstepUp cer = true) \/ factors_of uid d = [].
Proof.
  intros H Hc. apply CreateFactor_inv in Hc as ([->|Hnil] & _); [left|by right]. revert H. unfold registration_checks. intros H.
  mstep H s2 t2 Hg2. apply guard_inv in Hg2 as [_ ->]. mstep H s3 taken Ht.
  assert (Hcer : forall cer, taken = Some cer -> copen (open_ceremonies s) !! registrationKey uid = Some cer).
  { revert Ht. destruct s. unfold take_open, upd, time_Now, tick_, mbind, M_bind, stM_bind. cbn. intros [= <- <-] cer.
    repeat case_match; congruence. }
  destruct taken as [cer|]; [|done]. exists cer. split; [by apply Hcer|].
  mstep H s4 u Hu. mstep H s5 t5 Hg5. mstep H s6 cr Hcr. destruct (finish_registration _ _) as [x|]; [|done].
  mstep H s7 n Hn. mstep H s8 t8 Hg8. by apply ret_ok in H as [_ [= _ ->]].
Qed.

(** ** Revocation *)
Lemma gate_inv EqualFold rq s s' c : RequireSession EqualFold rq s = (s', Ok (Some c)) ->
  cKind c = KindSession /\ cID c <> "" /\
  GetSessionEpoch acc_fault (cUserID c) (acc s) = Ok (cEpoch c) /\ SessionExists acc_fault (cID c) (cUserID c) (acc s) = Ok true.
Proof.
  unfold RequireSession. intros H. mstep H s1 oc Hx.
  assert (Hacc : acc s1 = acc s).
  { eapply keeps_run; [|exact Hx]. unfold extract. cbv zeta. destruct (String.eqb _ _); auto with go. }
  destruct oc as [c1|]; [|by apply ret_ok in H as [_ ?]].
  destruct (negb (bool_decide _) || _) eqn:Ek; [by apply ret_ok in H as [_ ?]|]. bsimp.
  mstep H s2 e He. apply try_read_inv in He as [-> ->]. rewrite Hacc in H.
  destruct (GetSessionEpoch acc_fault (cUserID c1) (acc s)) as [epoch|er] eqn:Ee; [|by apply ret_ok in H as [_ ?]].
  destruct (negb _) eqn:Ene in H; [by apply ret_ok in H as [_ ?]|]. bsimp. subst epoch.
  mstep H s3 live Hl. apply try_read_inv in Hl as [-> ->]. rewrite Hacc in H.
  destruct (SessionExists acc_fault (cID c1) (cUserID c1) (acc s)) as [[|]|er] eqn:El; try by apply ret_ok in H as [_ ?].
  mquiet H s4 now. mstep H s5 tu Hi. apply ret_ok in H as [_ [= ->]]. done.
Qed.

Lemma epoch_inv uid d e : GetSessionEpoch acc_fault uid d = Ok e -> exists u, u ∈ users d /\ ID u = uid /\ SessionEpoch u = e.
Proof.
  unfold GetSessionEpoch, aq. destruct (acc_fault QAEpoch); [done|]. unfold mbind, result_bind.
  destruct (find_user _ d) as [x|] eqn:Ex; [|done]. apply find_user_inv in Ex as (u & Hu & Hp & ->).
  intros [= <-]. exists u. split; [done|]. by apply Z.eqb_eq in Hp.
Qed.

Lemma on_user_in id f d u : u ∈ users d -> ID u = id -> f u ∈ users (on_user id f d).
Proof. intros Hu Hid. cbn. apply list_elem_of_fmap. exists u. by rewrite Hid, Z.eqb_refl. Qed.

Lemma SetPassword_epoch uid pw s s1 u' : acc_wf (acc s) -> SetPassword uid pw s = (s1, Ok tt) ->
  u' ∈ users (acc s1) -> ID u' = uid ->
  exists u, u ∈ users (acc s) /\ ID u = uid /\ SessionEpoch u' = SessionEpoch u + 1.
Proof.
  unfold SetPassword. intros Hwf H. mstep H s2 t2 Hg. apply guard_inv in Hg as [_ ->].
  mquiet H s3 hash. mstep H s4 t4 H4. mstep H s5 t5 H5. apply db_inv in H4, H5, H. rewrite H0 in H4.
  unfold UpdatePassword, DeleteUserSessions, BumpSessionEpoch, ax in *.
  destruct (acc_fault QAPassword); [done|]. destruct (acc_fault QSDeleteAll); [done|]. destruct (acc_fault QABump); [done|].
  injection H4 as H4. injection H5 as H5. injection H as H. rewrite <- H, <- H5, <- H4. cbn.
  intros (v & -> & (u & -> & Hu)%list_elem_of_fmap)%list_elem_of_fmap Hid.
  exists u. destruct (ID u =? uid) eqn:Eu; cbn in Hid |- *; rewrite ?Eu in Hid |- *; cbn in Hid |- *; bsimp; [done|].
  congruence.
Qed.

(** C7: changing a password ends every session at once and for good.  After
    [SetPassword] has succeeded, whatever requests run afterwards and however their
    statements interleave, the gate accepts for that account only a token carrying a
    generation newer than the account had before: no token issued until then, and so
    no stolen copy of one, passes again. *)
Theorem password_change_revokes EqualFold uid pw s s1 s2 s3 rq c u :
  acc_wf (acc s) -> u ∈ users (acc s) -> ID u = uid ->
  SetPassword uid pw s = (s1, Ok tt) -> rtc (acc_step (fun _ => True)) (acc s1) (acc s2) ->
  RequireSession EqualFold rq s2 = (s3, Ok (Some c)) -> cUserID c = uid ->
  SessionEpoch u < cEpoch c.
Proof.
  intros Hwf Hu Huid Hset Hrun Hgate Hc.
  apply gate_inv in Hgate as (_ & _ & He & _). rewrite Hc in He. apply epoch_inv in He as (v & Hv & Hvid & <-).
  assert (Hwf1 : acc_wf (acc s1) /\ uid <= user_seq (acc s1)).
  { pose proof Hset as H. unfold SetPassword in H. mstep H t2 x2 Hg. apply guard_inv in Hg as [_ ->].
    mquiet H t3 hash. mstep H t4 x4 H4. mstep H t5 x5 H5. apply db_inv in H4, H5, H. rewrite H0 in H4.
    pose proof (run_op_effect acc_fault (OPassword uid hash) (acc s)) as F4. cbn [run_op] in F4. rewrite H4 in F4.
    pose proof (run_op_effect acc_fault (ODeleteSessions uid) (acc t4)) as F5. cbn [run_op] in F5. rewrite H5 in F5.
    pose proof (run_op_effect acc_fault (OBump uid) (acc t5)) as F6. cbn [run_op] in F6. rewrite H in F6.
    pose proof (wf_user_seq _ Hwf u Hu).
    destruct (effect_seq _ _ _ F4), (effect_seq _ _ _ F5), (effect_seq _ _ _ F6). cbn [fst] in *.
    split; [|lia]. eapply effect_wf; [exact F6|]. eapply effect_wf; [exact F5|]. by eapply effect_wf. }
  destruct Hwf1 as [Hwf1 Hseq].
  assert (Hinv : forall v, v ∈ users (acc s1) -> ID v = uid -> SessionEpoch u + 1 <= SessionEpoch v).
  { intros w Hw Hwid. destruct (SetPassword_epoch uid pw s s1 w Hwf Hset Hw Hwid) as (u0 & Hu0 & Hid0 & ->).
    assert (u0 = u) as -> by (apply (NoDup_fmap_elem ID (users (acc s))); [apply Hwf|done|done|congruence]). lia. }
  eapply (acc_run_invariant _ (fun d => uid <= user_seq d /\ forall v, v ∈ users d -> ID v = uid -> SessionEpoch u + 1 <= SessionEpoch v))
    in Hrun as [[_ Hfin] _]; [specialize (Hfin v Hv Hvid); lia| |done|done].
  intros op d1 d2 _ Hw He [Hs Hk]. split; [destruct (effect_seq _ _ _ He); lia|]. by eapply effect_epoch.
Qed.

(** a session revoked from the profile stays revoked.  Once its row is deleted no
    interleaving of other requests makes the gate accept its token again, because a
    row with its id is only ever created for a token with that id. *)
Theorem revoked_session_stays_out EqualFold fault jti uid s s2 s3 d rq c :
  DeleteSession fault jti uid (acc s) = (d, Ok tt) ->
  rtc (acc_step (fun op => forall row now, op = OSession row now -> sID row <> jti)) d (acc s2) ->
  RequireSession EqualFold rq s2 = (s3, Ok (Some c)) -> acc_wf (acc s) -> ~ (cID c = jti /\ cUserID c = uid).
Proof.
  intros Hdel Hrun Hgate Hwf [Hid Huid]. apply gate_inv in Hgate as (_ & _ & _ & Hs). rewrite Hid, Huid in Hs.
  unfold SessionExists, aq in Hs. destruct (acc_fault QSExists); [done|]. injection Hs as Hs.
  apply existsb_exists in Hs as (row & Hrow%list_elem_of_In & Hc). bsimp.
  pose proof (effect_wf _ _ _ (run_op_effect fault (ODeleteSession jti uid) (acc s)) Hwf) as Hwf1. cbn [run_op] in Hwf1. rewrite Hdel in Hwf1.
  eapply (acc_run_invariant _ (no_session jti uid)) in Hrun as [Hno _]; [by apply (Hno row)| |done|].
  - intros op d1 d2 Hop _ He. by eapply effect_no_session.
  - unfold DeleteSession in Hdel. destruct (fault QSDelete); [done|]. destruct (existsb _ _); [|done]. injection Hdel as <-.
    intros r [Hr _]%list_elem_of_filter ? ?. apply Hr. auto.
Qed.
End SecondFactor.
