(* ===== verification/AuthHandlers.v ===== *)
(** * Signing in over HTTP (internal/api/auth_handlers.go, passkey_handlers.go,
    factor_handlers.go, session_handlers.go)

    The handlers in front of the authentication service: what each of them asks for,
    what it answers, the cookie it sets and the line it audits.  A decoded body is
    [None] when decodeJSON failed on it. *)
From S2P Require Import Prelude Limits GoStrings Password NetIP Paths Config Users Roles Calendar Accounts Login Passkeys SessionGate ClientIP.

(** ** Data *)
Record Cookie := mkCookie { ckValue : string; ckPath : string; ckExpires : option Z; ckSecure : bool }.
Record UserView := mkView { vUser : User; vSections : list string; vMFAEnforced : bool }.

Inductive AReply :=
  | AErr (status : Z) (msg : string)
  | AOk
  | AStatus (needsSetup : bool)
  | AProfile (v : UserView)
  | ASignedIn (c : Cookie) (v : UserView)
  | AChallenge (token : string) (methods : list string) (passkeyReady : bool) (reason : string)
  | ASignedOut (c : Cookie)
  | ARevoked (signedOut : option Cookie)
  | ARevokedOthers (n : Z)
  | ASessions (l : list (Session * bool))
  | AFactors (l : list AuthFactor)
  | ASecret (secret : string)
  | ACeremony (id : string)
  | ASupport (available : bool) (reason : string)
  | AEnabled (on : bool)
  | AFailed (msg : string)                          (* 200 with ok: false *)
  | ACreated (id : Z)
  | AWarned (id : Z) (msg : string)
  | AUsers (l : list (User * list Z * list string)).

Definition audit_entry : Type := string * string * string.

(** err.Error() of the service's sentinel errors, after writeErr has taken the package
    prefix off. *)
Definition auth_text (e : AuthErr) : string :=
  match e with
  | ErrSetupDone => "setup already completed"
  | ErrInvalidCreds => "invalid credentials"
  | ErrRateLimited => "too many attempts, try again later"
  | ErrInvalidMFACode => "invalid 2fa code"
  | ErrWeakPassword => "password must be at least 10 characters"
  | ErrInvalidUsername => "username must be 3-32 characters"
  | ErrUsernameTaken => "username already taken"
  | ErrDirectoryPassword => "this account's password is managed by your directory; change it there"
  | ErrTooManyFactors => "this account already has the maximum number of authenticators"
  | ErrEnrollmentStale => "this account is protected now — start again and confirm with your password"
  | ErrNoPending => "no pending enrollment"
  | ErrPasskeyUnavailable => "passkeys need HTTPS (or localhost)"
  | ErrNoPasskeys => "this account has no passkeys"
  | ErrClonedAuthenticator => "this passkey's counter went backwards"
  | ErrUserVerificationRequired => "this passkey did not verify who you are; use your password"
  | ErrPasswordlessNotAllowed => "this account must sign in with its password"
  | ErrTooBusy => "too many sign-ins in flight, try again"
  | ErrRandom | ErrLibrary | EStore _ | EPasswordless _ _ => "error"
  end.

(** What the HTTP layer is configured with, and its own settings row. *)
Class WebEnv := {
  EqualFold : string -> string -> bool;
  wcfg : Config;
  setting_read_fault : bool; setting_write_fault : bool
}.

Record HState `{E : AuthEnv} := mkH { hAuth : AState; hAudit : list audit_entry; hNo2FA : bool }.

Section Handlers.
Context `{E : AuthEnv} `{W : WebEnv}.

Definition HM (A : Type) : Type := stM HState AReply A.
#[local] Instance HM_ret : MRet HM := stM_ret HState AReply.
#[local] Instance HM_bind : MBind HM := stM_bind HState AReply.

Definition set_hAuth a s := mkH E a (hAudit s) (hNo2FA s).
(** A call of the service whose error the handler looks at. *)
Definition call {A} (m : M A) : HM (result AuthErr A) := fun s => let '(a, r) := m (hAuth s) in (set_hAuth a s, Ok r).
Definition haudit (action target detail : string) : HM () := fun s => (mkH E (hAuth s) (hAudit s ++ [(action, target, detail)]) (hNo2FA s), Ok tt).
Definition answer {A} (r : AReply) : HM A := st_fail r.
Definition check_ (ok : bool) (r : AReply) : HM () := if ok then mret tt else answer r.
Definition body_or_400 {A} (b : option A) : HM A := match b with Some a => mret a | None => answer (AErr 400 "invalid body") end.
Definition hview {A} (f : HState -> A) : HM A := fun s => (s, Ok (f s)).

Definition user_by_id (uid : Z) (e : AReply) : HM User :=
  r ← call (db (read (UserByID acc_fault uid)));
  match r with Ok u => mret u | Err _ => answer e end.

(** ** What the connection grants *)
Definition LocalhostNo2FA (s : HState) : bool := if setting_read_fault then false else hNo2FA s.
Definition SetLocalhostNo2FA (on : bool) : HM (result StoreErr ()) := fun s =>
  if setting_write_fault then (s, Ok (Err ErrDB)) else (mkH E (hAuth s) (hAudit s) on, Ok (Ok tt)).
Definition mfaExempt (r : WebRequest) (s : HState) : bool := LocalhostNo2FA s && isLoopback r.

Definition sessionInfo (r : WebRequest) : SessionInfo := mkInfo (bare (wRemoteAddr r)) (UserAgentOf r).

Definition granted_section (grants : gmap string Grant) (sec : string) : bool := match grants !! sec with Some g => Granted g | None => false end.
Definition effectiveSections (u : User) (d : DB) : list string :=
  let disabled := match DisabledSections role_fault d with Ok l => l | Err _ => [] end in
  let enabled := filter (fun sec => sec ∉ disabled) AllSections in
  if IsAdmin u then enabled
  else match EffectiveGrants role_fault (Some u) d with
       | Err _ => []
       | Ok grants => filter (fun sec => granted_section grants sec = true) enabled
       end.

(** Whether this connection can do a passkey ceremony at all. *)
Definition wrelying (r : WebRequest) : bool := match relyingParty EqualFold aToLower wcfg r with Some _ => true | None => false end.

Definition userView (r : WebRequest) (u : User) : HM UserView :=
  hview (fun s => mkView u (effectiveSections u (rdb (hAuth s))) (negb (mfaExempt r s))).

Definition secure_cookie (r : WebRequest) : bool := cookieSecure EqualFold wcfg r.
Definition setSessionCookie (r : WebRequest) (token : string) (exp : Z) : Cookie := mkCookie token (cookiePath r) (Some exp) (secure_cookie r).
Definition clearSessionCookie (r : WebRequest) : Cookie := mkCookie "" (cookiePath r) None (secure_cookie r).
Definition signed_in (r : WebRequest) (res : LoginResult) : HM AReply :=
  v ← userView r (lUser res); mret (ASignedIn (setSessionCookie r (lToken res) (lExpiresAt res)) v).

(** ** Signing in *)
Definition handleAuthStatus : HM AReply :=
  r ← call NeedsSetup;
  match r with Ok needs => mret (AStatus needs) | Err _ => answer (AErr 500 "status check failed") end.

Definition handleSetup (r : WebRequest) (body : option (string * string * bool)) : HM AReply :=
  '(username, password, enable2fa) ← body_or_400 body;
  made ← call (Setup username password);
  match made with
  | Err ErrSetupDone => answer (AErr 409 "setup already completed")
  | Err ErrWeakPassword => answer (AErr 400 (auth_text ErrWeakPassword))
  | Err ErrInvalidUsername => answer (AErr 400 (auth_text ErrInvalidUsername))
  | Err _ => answer (AErr 500 "setup failed")
  | Ok u =>
      _ ← (if enable2fa : bool then mret tt
           else w ← SetLocalhostNo2FA true; check_ (is_ok w) (AErr 500 "setup failed"));
      exempt ← hview (mfaExempt r);
      res ← call (Login (wRemoteAddr r) username password exempt (sessionInfo r));
      match res with
      | Err _ => answer (AErr 500 "login after setup failed")
      | Ok res => _ ← haudit "auth.setup" (Username u) "first admin created"; signed_in r res
      end
  end.

Definition handleLogin (r : WebRequest) (body : option (string * string)) : HM AReply :=
  '(username, password) ← body_or_400 body;
  exempt ← hview (mfaExempt r);
  res ← call (Login (wRemoteAddr r) username password exempt (sessionInfo r));
  match res with
  | Err ErrRateLimited => answer (AErr 429 (auth_text ErrRateLimited))
  | Err _ => answer (AErr 401 "invalid credentials")
  | Ok res =>
      if MFARequired res then
        has ← call (HasPasskeys (ID (lUser res)));
        let hasPasskey := match has with Ok b => b | Err _ => false end in
        let secure := wrelying r in
        mret (AChallenge (lToken res) ((if TOTPEnabled (lUser res) then ["totp"] else []) ++ (if hasPasskey then ["passkey"] else []))
          (hasPasskey && secure) (if hasPasskey && negb secure then auth_text ErrPasskeyUnavailable else ""))
      else
        _ ← haudit "auth.login" (Username (lUser res)) "password only";
        signed_in r res
  end.

(** (s *Service) ChallengeUsername, "" for a token that is no challenge. *)
Definition ChallengeUsername (token : string) : M string :=
  c ← Parse token;
  mret (match c with Some (mkClaims _ name _ KindMFAChallenge _ _ _) => name | _ => "" end).
Definition audit_challenge (token action detail : string) : HM () :=
  name ← call (ChallengeUsername token);
  match name with
  | Ok name => if String.eqb name "" then mret tt else haudit action name detail
  | Err _ => mret tt
  end.

Definition handleVerify2FA (r : WebRequest) (body : option (string * string)) : HM AReply :=
  '(token, code) ← body_or_400 body;
  res ← call (VerifyMFA (wRemoteAddr r) token code (sessionInfo r));
  match res with
  | Err e =>
      _ ← audit_challenge token "auth.2fa.failed" "invalid code";
      match e with ErrRateLimited => answer (AErr 429 (auth_text ErrRateLimited)) | _ => answer (AErr 401 "invalid code") end
  | Ok res => _ ← haudit "auth.login" (Username (lUser res)) "password + 2fa"; signed_in r res
  end.

Definition handleMe (r : WebRequest) (c : Claims) : HM AReply :=
  u ← user_by_id (cUserID c) (AErr 404 "user not found");
  v ← userView r u; mret (AProfile v).

Definition handleLogout (r : WebRequest) (c : option Claims) : HM AReply :=
  _ ← (match c with
       | Some c => _ ← call (db (DeleteSession acc_fault (cID c) (cUserID c))); mret tt
       | None => mret tt
       end);
  mret (ASignedOut (clearSessionCookie r)).

(** ** Step-up: the password, for an account that already has a factor

    [body] is [None] when it is malformed and [Some ""] when it is empty. *)
Definition step_up (c : Claims) (u : User) (body : option string) (denied msg : string) : HM () :=
  password ← body_or_400 body;
  ok ← call (VerifyUserPassword (StepUpKey (ID u) (cID c)) u password);
  match ok with
  | Ok _ => mret tt
  | Err ErrRateLimited => answer (AErr 429 (auth_text ErrRateLimited))
  | Err _ => _ ← haudit denied (Username u) "wrong password"; answer (AErr 403 msg)
  end.

Definition handleTOTPSetup (c : Claims) (body : option string) : HM AReply :=
  u ← user_by_id (cUserID c) (AErr 401 "unauthorized");
  _ ← (if MFAEnabled u then step_up c u body "auth.2fa.repair.denied" "password required to pair a new authenticator" else mret tt);
  enr ← call (BeginTOTPEnrollment (cUserID c) (MFAEnabled u));
  match enr with Ok secret => mret (ASecret secret) | Err _ => answer (AErr 500 "could not start enrollment") end.

Definition handleTOTPEnable (c : Claims) (body : option (string * string)) : HM AReply :=
  '(code, name) ← body_or_400 body;
  r ← call (ConfirmTOTPEnrollment (cUserID c) code name);
  match r with
  | Err ErrTooManyFactors => answer (AErr 409 (auth_text ErrTooManyFactors))
  | Err ErrEnrollmentStale =>
      _ ← haudit "auth.2fa.repair.denied" (cUsername c) "enrolment predates the account's second factor";
      answer (AErr 403 (auth_text ErrEnrollmentStale))
  | Err _ => answer (AErr 400 "invalid code")
  | Ok _ => _ ← haudit "auth.2fa.enable" (cUsername c) "authenticator paired"; mret AOk
  end.

(** ** The account's own address and password *)
Definition bad_address_bytes : list Z := [32; 9; 13; 10; 44; 59; 60; 62].
Definition validEmail (s : string) : bool :=
  if existsb (fun ch => bool_decide (code ch ∈ bad_address_bytes)) (bytes s) then false
  else match IndexByte s "@"%char with
       | None | Some O => false
       | Some at_ =>
           if negb (bool_decide (LastIndexByte s "@"%char = Some at_)) || (at_ =? String.length s - 1)%nat then false
           else
             let domain := sdrop (S at_) s in
             if HasPrefix domain "." || HasSuffix domain "." then false else Contains domain "."
       end.

Definition handleSetMyEmail (c : option Claims) (body : option string) : HM AReply :=
  match c with
  | None => answer (AErr 401 "unauthorized")
  | Some c =>
      b ← body_or_400 body;
      let email := TrimSpace b in
      _ ← check_ (String.eqb email "" || validEmail email) (AErr 400 "that does not look like an e-mail address");
      r ← call (db (SetUserEmail acc_fault (cUserID c) email));
      _ ← check_ (is_ok r) (AErr 500 "could not save the address");
      _ ← haudit "user.email" (cUsername c) email;
      mret AOk
  end.

Definition handleChangeMyPassword (r : WebRequest) (c : option Claims) (body : option (string * string)) : HM AReply :=
  match c with
  | None => answer (AErr 401 "unauthorized")
  | Some c =>
      u ← user_by_id (cUserID c) (AErr 401 "unauthorized");
      '(current, password) ← body_or_400 body;
      res ← call (ChangeOwnPassword (StepUpKey (ID u) (cID c)) u current password (sessionInfo r));
      match res with
      | Ok res => _ ← haudit "auth.password.change" (Username u) "other sessions ended"; signed_in r res
      | Err ErrDirectoryPassword => answer (AErr 400 (auth_text ErrDirectoryPassword))
      | Err ErrWeakPassword => answer (AErr 400 (auth_text ErrWeakPassword))
      | Err ErrRateLimited => answer (AErr 429 (auth_text ErrRateLimited))
      | Err ErrInvalidCreds =>
          _ ← haudit "auth.password.change.denied" (Username u) "wrong current password";
          answer (AErr 403 "your current password is not right")
      | Err _ => answer (AErr 500 "could not change the password")
      end
  end.

(** ** Factors *)
Definition handleListFactors (c : Claims) : HM AReply :=
  r ← call (db (read (ListFactors acc_fault (cUserID c))));
  match r with Ok l => mret (AFactors l) | Err _ => answer (AErr 500 "could not list authenticators") end.

Definition handleDeleteFactor (c : Claims) (body : option string) (id : option Z) : HM AReply :=
  u ← user_by_id (cUserID c) (AErr 401 "unauthorized");
  _ ← step_up c u body "auth.2fa.remove.denied" "password required to remove an authenticator";
  match id with
  | None => answer (AErr 400 "invalid id")
  | Some id =>
      r ← call (RemoveFactor (cUserID c) id);
      match r with
      | Ok _ => _ ← haudit "auth.2fa.remove" (Username u) "authenticator unpaired"; mret AOk
      | Err (EStore ErrLastFactor) => answer (AErr 409 "this is the only second factor on your account — pair another one first")
      | Err (EStore ErrNotFound) => answer (AErr 404 "authenticator not found")
      | Err _ => answer (AErr 500 "could not remove that authenticator")
      end
  end.

(** ** Sessions *)
Definition handleListSessions (c : Claims) : HM AReply :=
  now ← call time_Now;
  match now with
  | Err _ => answer (AErr 500 "could not list sessions")
  | Ok now =>
      r ← call (db (read (ListSessions acc_fault (cUserID c) now)));
      match r with
      | Ok l => mret (ASessions ((fun s => (s, String.eqb (sID s) (cID c))) <$> l))
      | Err _ => answer (AErr 500 "could not list sessions")
      end
  end.

Definition handleDeleteSession (r : WebRequest) (c : Claims) (id : string) : HM AReply :=
  d ← call (db (DeleteSession acc_fault id (cUserID c)));
  match d with
  | Err (EStore ErrNotFound) => answer (AErr 404 "session not found")
  | Err _ => answer (AErr 500 "could not revoke session")
  | Ok _ =>
      _ ← haudit "auth.session.revoke" (cUsername c) "";
      mret (ARevoked (if String.eqb id (cID c) then Some (clearSessionCookie r) else None))
  end.

Fixpoint revoke_each (c : Claims) (l : list Session) (n : Z) : HM Z :=
  match l with
  | [] => mret n
  | s :: l' =>
      if String.eqb (sID s) (cID c) then revoke_each c l' n
      else
        d ← call (db (DeleteSession acc_fault (sID s) (cUserID c)));
        revoke_each c l' (if is_ok d then n + 1 else n)
  end.
Definition handleRevokeOtherSessions (c : Claims) : HM AReply :=
  now ← call time_Now;
  match now with
  | Err _ => answer (AErr 500 "could not list sessions")
  | Ok now =>
      r ← call (db (read (ListSessions acc_fault (cUserID c) now)));
      match r with
      | Err _ => answer (AErr 500 "could not list sessions")
      | Ok l => n ← revoke_each c l 0; _ ← haudit "auth.session.revoke_others" (cUsername c) ""; mret (ARevokedOthers n)
      end
  end.

(** ** Passkeys *)
Definition need_party (r : WebRequest) : HM () := check_ (wrelying r) (AErr 400 (auth_text ErrPasskeyUnavailable)).

Definition handlePasskeyRegisterBegin (r : WebRequest) (c : Claims) (body : option string) : HM AReply :=
  _ ← need_party r;
  u ← user_by_id (cUserID c) (AErr 401 "unauthorized");
  _ ← (if MFAEnabled u then step_up c u body "auth.passkey.add.denied" "password required to add a passkey" else mret tt);
  res ← call (BeginPasskeyRegistration (cUserID c) (MFAEnabled u));
  match res with
  | Ok _ => mret (ACeremony "")
  | Err ErrTooBusy => answer (AErr 503 (auth_text ErrTooBusy))
  | Err ErrTooManyFactors => answer (AErr 409 (auth_text ErrTooManyFactors))
  | Err ErrPasskeyUnavailable => answer (AErr 400 (auth_text ErrPasskeyUnavailable))
  | Err _ => answer (AErr 500 "could not start")
  end.

Definition handlePasskeyRegisterFinish (r : WebRequest) (c : Claims) (name : string) (credential : Request) : HM AReply :=
  _ ← need_party r;
  res ← call (FinishPasskeyRegistration (cUserID c) name credential);
  match res with
  | Ok _ => _ ← haudit "auth.passkey.add" (cUsername c) "passkey paired"; mret AOk
  | Err ErrTooManyFactors => answer (AErr 409 (auth_text ErrTooManyFactors))
  | Err ErrEnrollmentStale =>
      _ ← haudit "auth.passkey.add.denied" (cUsername c) "ceremony predates the account's second factor";
      answer (AErr 403 (auth_text ErrEnrollmentStale))
  | Err _ => answer (AErr 400 "that passkey was not accepted")
  end.

Definition handlePasskeyLoginBegin (r : WebRequest) (body : option string) : HM AReply :=
  _ ← need_party r;
  token ← body_or_400 body;
  res ← call (BeginPasskeyLogin token);
  match res with
  | Ok _ => mret (ACeremony "")
  | Err ErrTooBusy => answer (AErr 503 (auth_text ErrTooBusy))
  | Err ErrNoPasskeys => answer (AErr 409 (auth_text ErrNoPasskeys))
  | Err _ => answer (AErr 401 "invalid credentials")
  end.

Definition handlePasskeyLoginFinish (r : WebRequest) (token : string) (assertion : Request) : HM AReply :=
  _ ← need_party r;
  res ← call (FinishPasskeyLogin (wRemoteAddr r) token assertion (sessionInfo r));
  match res with
  | Ok res => _ ← haudit "auth.login" (Username (lUser res)) "password + passkey"; signed_in r res
  | Err ErrRateLimited => answer (AErr 429 (auth_text ErrRateLimited))
  | Err ErrClonedAuthenticator =>
      _ ← audit_challenge token "auth.passkey.cloned" "signature counter went backwards";
      answer (AErr 401 (auth_text ErrClonedAuthenticator))
  | Err ErrInvalidCreds =>
      _ ← audit_challenge token "auth.2fa.failed" "passkey rejected";
      answer (AErr 401 "invalid credentials")
  | Err _ => answer (AErr 500 "the passkey verified, but the login could not be completed")
  end.

Definition handlePasskeySupport (r : WebRequest) : AReply :=
  ASupport (wrelying r) (if wrelying r then "" else auth_text ErrPasskeyUnavailable).

Definition handlePasswordlessBegin (r : WebRequest) : HM AReply :=
  _ ← need_party r;
  res ← call (BeginPasswordlessLogin (wRemoteAddr r));
  match res with
  | Ok (_, id) => mret (ACeremony id)
  | Err ErrRateLimited => answer (AErr 429 (auth_text ErrRateLimited))
  | Err ErrTooBusy => answer (AErr 503 (auth_text ErrTooBusy))
  | Err _ => answer (AErr 500 "could not start")
  end.

(** errors.As for a PasswordlessError, and what errors.Is sees through one. *)
Definition named_error (e : AuthErr) : option (string * AuthErr) := match e with EPasswordless name e => Some (name, e) | _ => None end.
Definition unwrap (e : AuthErr) : AuthErr := match e with EPasswordless _ e => e | _ => e end.

Definition handlePasswordlessFinish (r : WebRequest) (ceremony : string) (assertion : Request) : HM AReply :=
  _ ← need_party r;
  res ← call (FinishPasswordlessLogin (wRemoteAddr r) ceremony assertion (sessionInfo r));
  match res with
  | Ok res => _ ← haudit "auth.login" (Username (lUser res)) "passkey (passwordless)"; signed_in r res
  | Err e =>
      _ ← (match named_error e with
           | Some (name, ErrClonedAuthenticator) => haudit "auth.passkey.cloned" name "signature counter went backwards"
           | Some (name, ErrUserVerificationRequired) => haudit "auth.login.failed" name "passkey did not verify the user"
           | Some (name, ErrPasswordlessNotAllowed) => haudit "auth.login.failed" name "passwordless sign-in is not enabled for this account"
           | _ => mret tt
           end);
      match unwrap e with
      | ErrRateLimited => answer (AErr 429 (auth_text ErrRateLimited))
      | ErrTooBusy => answer (AErr 503 (auth_text ErrTooBusy))
      | ErrUserVerificationRequired => answer (AErr 401 (auth_text ErrUserVerificationRequired))
      | ErrPasswordlessNotAllowed => answer (AErr 403 (auth_text ErrPasswordlessNotAllowed))
      | ErrClonedAuthenticator => answer (AErr 401 (auth_text ErrClonedAuthenticator))
      | ErrInvalidCreds => answer (AErr 401 "invalid credentials")
      | _ => answer (AErr 500 "the passkey verified, but the login could not be completed")
      end
  end.

Definition handlePasswordlessSetting (c : Claims) (body : option (bool * string)) : HM AReply :=
  u ← user_by_id (cUserID c) (AErr 401 "unauthorized");
  '(enabled, password) ← body_or_400 body;
  _ ← step_up c u (Some password) "auth.passwordless.denied" "password required";
  _ ← check_ (negb (enabled && negb (local_account u))) (AErr 403 (auth_text ErrPasswordlessNotAllowed));
  r ← call (db (SetPasswordless acc_fault (ID u) enabled));
  _ ← check_ (is_ok r) (AErr 500 "could not save");
  _ ← haudit "auth.passwordless" (Username u) (if enabled : bool then "enabled" else "disabled");
  mret (AEnabled enabled).
End Handlers.
