(* ===== verification/AuthSpec.v ===== *)
(** * What the sign-in handlers guarantee

    Theorems about [AuthHandlers]: the second factor can be skipped only from the
    machine itself, whatever changes how an account signs in needs its password, the
    menu shows what the gate admits, and signing in leaves its trace. *)
From S2P Require Import Prelude Limits GoStrings Password NetIP Paths Config Users Roles Access Calendar Accounts Login Passkeys SessionGate ClientIP LoginSpec AuthHandlers.

Section Spec.
Context `{E : AuthEnv} `{W : WebEnv}.

(** ** Inversion *)
Lemma call_inv {A} (m : M A) s s' r : call m s = (s', Ok r) ->
  exists a, m (hAuth s) = (a, r) /\ s' = set_hAuth a s.
Proof. unfold call. destruct (m (hAuth s)) as [a r0]. intros [= <- <-]. eauto. Qed.

Lemma h_bind {A B} (m : HM A) (k : A -> HM B) s s' b : mbind (MBind := HM_bind) k m s = (s', Ok b) ->
  exists s1 a, m s = (s1, Ok a) /\ k a s1 = (s', Ok b).
Proof. apply st_bind_ok. Qed.

Lemma body_inv {A} (b : option A) s s' a : body_or_400 b s = (s', Ok a) -> b = Some a /\ s' = s.
Proof. destruct b; [by intros [= <- <-]|done]. Qed.
Lemma check_inv ok r s s' (u : ()) : check_ ok r s = (s', Ok u) -> ok = true /\ s' = s.
Proof. destruct ok; [by intros [= <- _]|done]. Qed.
Lemma user_inv uid e s s' u : user_by_id uid e s = (s', Ok u) -> UserByID acc_fault uid (acc (hAuth s)) = Ok u /\ s' = s.
Proof.
  unfold user_by_id. intros H. apply h_bind in H as (s1 & r & Hc & H). apply call_inv in Hc as (a & Hm & ->).
  destruct r as [x|]; [|done]. injection H as <- <-. apply read_inv in Hm as [Hr ->]. split; [done|]. by destruct s.
Qed.
Lemma signed_in_inv r res s s' x : signed_in r res s = (s', Ok x) ->
  s' = s /\ exists v, x = ASignedIn (setSessionCookie r (lToken res) (lExpiresAt res)) v /\ vUser v = lUser res.
Proof. unfold signed_in, userView, hview. intros [= <- <-]. eauto. Qed.
Lemma haudit_inv a t d s s' (u : ()) : haudit a t d s = (s', Ok u) -> hAuth s' = hAuth s /\ hAudit s' = hAudit s ++ [(a, t, d)].
Proof. by intros [= <- _]. Qed.
End Spec.

(** Take the first call of a sequence that succeeded. *)
Ltac hstep H s a Hm := apply h_bind in H as (s & a & Hm & H); cbv beta zeta in H.

Section Signin.
Context `{E : AuthEnv} `{W : WebEnv}.

(** The exemption, from the request as it arrived. *)
Definition from_this_machine (trusted : list IPNet) (r : WebRequest) : Prop :=
  (exists ip, ParseIP (bare (bare (wRemoteAddr r))) = Some ip /\ IsLoopback ip = true) /\
  (forall peer, ParseIP (bare (wRemoteAddr r)) = Some peer -> ipInAny peer trusted = false) /\
  (forall h, h ∈ forwardingHeaders -> header_Values r h = []).

(** C9: end to end, a password alone opens a session for a protected account only on the
    machine itself.  When the login handler, behind the middleware that settles the
    client's address, sets a session cookie, the account it was checked against has no
    second factor, or the administrator has enabled the exemption and the TCP peer is on
    the loopback, is no configured proxy, and no header a proxy adds is present. *)
Theorem login_over_network_needs_code trusted r name pw s s' ck v x :
  handleLogin (clientIP trusted r) (Some (name, pw)) s = (s', Ok (ASignedIn ck v)) ->
  UserByUsername acc_fault name (acc (hAuth s)) = Ok x ->
  ID (vUser v) = ID x /\
  (factors_of (ID x) (acc (hAuth s)) = [] \/ (hNo2FA s = true /\ from_this_machine trusted r)).
Proof.
  unfold handleLogin. intros H Hx. hstep H s1 body Hb. apply body_inv in Hb as [[= <-] ->]. hstep H s2 exm He. injection He as <- <-.
  hstep H s3 res Hl. apply call_inv in Hl as (a & Hl & ->). destruct res as [res|e]; [|by destruct e].
  apply login_inv in Hl as [Hl _]. rewrite Hx in Hl. destruct Hl as (Hid & _ & Hfac). destruct (MFARequired res) eqn:Em.
  { hstep H s4 has Hp. discriminate H. }
  hstep H s5 u5 Ha. apply signed_in_inv in H as (_ & v' & [= -> ->] & Hv). rewrite Hv. split; [done|].
  destruct (Hfac eq_refl) as [Hex|Hno]; [right|by left]. unfold mfaExempt, LocalhostNo2FA in Hex.
  apply andb_true_iff in Hex as [Hset Hloop]. destruct setting_read_fault; [done|]. split; [done|]. by apply loopback_is_local.
Qed.

(** ** Step-up *)
Definition knows_password (u : User) (pw : string) : Prop :=
  (AuthSource u = "ldap" /\ directory_accepts (Username u) pw) \/ (AuthSource u <> "ldap" /\ password_ok pw (PasswordHash u) = true).

Lemma VerifyUserPassword_inv k u pw a a' : VerifyUserPassword k u pw a = (a', Ok tt) -> knows_password u pw.
Proof.
  unfold VerifyUserPassword. intros H. mquiet H s1 ok. mstep H s2 tu Hg. mstep H s3 ok3 Ho.
  destruct ok3; [|by apply refuse_not_ok in H]. clear H. unfold knows_password. destruct (String.eqb (AuthSource u) "ldap") eqn:Es.
  - apply String.eqb_eq in Es. left. split; [done|]. mstep Ho s4 r Hr. apply attempt_inv in Hr. apply ret_ok in Ho as [_ Hok].
    destruct r as [x|]; [|done]. by apply ldapLogin_inv in Hr as [Hd _].
  - apply String.eqb_neq in Es. right. split; [done|]. by apply ret_ok in Ho as [_ ->].
Qed.

Lemma step_up_inv c u body denied msg s s' : step_up c u body denied msg s = (s', Ok tt) -> exists pw, body = Some pw /\ knows_password u pw.
Proof.
  unfold step_up. intros H. hstep H s1 pw Hb. apply body_inv in Hb as [-> ->]. hstep H s2 ok Hc. apply call_inv in Hc as (a & Hc & ->).
  destruct ok as [[]|e]; [|by destruct e]. exists pw. split; [done|]. by eapply VerifyUserPassword_inv.
Qed.
End Signin.

Section Theorems.
Context `{E : AuthEnv} `{W : WebEnv}.

Lemma scan_mfa_true d u : factors_of (ID u) d <> [] -> MFAEnabled (scanUserRow d u) = true.
Proof. intros H. destruct (MFAEnabled (scanUserRow d u)) eqn:E1; [done|]. by apply scan_mfa in E1. Qed.

Lemma protected_reads_so uid d u : UserByID acc_fault uid d = Ok u -> factors_of uid d <> [] -> MFAEnabled u = true.
Proof. intros (x & _ & <- & ->)%UserByID_inv Hf. by apply scan_mfa_true. Qed.

(** a stolen session is not enough.  Whatever changes how an account signs in goes
    through its password: removing a factor and turning passwordless sign-in on or off
    always, pairing an authenticator or a passkey as soon as the account has a factor of
    any kind, changing the password by knowing the current one.  Passwordless sign-in
    and a password of one's own are for accounts whose password is kept here. *)
Theorem sensitive_changes_need_password c s u :
  UserByID acc_fault (cUserID c) (acc (hAuth s)) = Ok u ->
  (forall body id s' x, handleDeleteFactor c body id s = (s', Ok x) -> exists pw, body = Some pw /\ knows_password u pw) /\
  (forall body s' x, handleTOTPSetup c body s = (s', Ok x) -> factors_of (cUserID c) (acc (hAuth s)) <> [] ->
     exists pw, body = Some pw /\ knows_password u pw) /\
  (forall r body s' x, handlePasskeyRegisterBegin r c body s = (s', Ok x) -> factors_of (cUserID c) (acc (hAuth s)) <> [] ->
     exists pw, body = Some pw /\ knows_password u pw) /\
  (forall body s' x, handlePasswordlessSetting c body s = (s', Ok x) ->
     exists on pw, body = Some (on, pw) /\ knows_password u pw /\ (on = true -> local_account u = true)) /\
  (forall r body s' x, handleChangeMyPassword r (Some c) body s = (s', Ok x) ->
     exists current pw, body = Some (current, pw) /\ knows_password u current /\ local_account u = true).
Proof.
  intros Hu. split_and!.
  - intros body id s' x H. unfold handleDeleteFactor in H. hstep H s1 u1 H1. apply user_inv in H1 as [H1 ->].
    rewrite Hu in H1. injection H1 as <-. hstep H s2 t2 H2. destruct t2. by eapply step_up_inv.
  - intros body s' x H Hf. unfold handleTOTPSetup in H. hstep H s1 u1 H1. apply user_inv in H1 as [H1 ->].
    rewrite Hu in H1. injection H1 as <-. rewrite (protected_reads_so _ _ _ Hu Hf) in H. hstep H s2 t2 H2. destruct t2. by eapply step_up_inv.
  - intros r body s' x H Hf. unfold handlePasskeyRegisterBegin in H. hstep H s0 t0 H0. apply check_inv in H0 as [_ ->].
    hstep H s1 u1 H1. apply user_inv in H1 as [H1 ->].
    rewrite Hu in H1. injection H1 as <-. rewrite (protected_reads_so _ _ _ Hu Hf) in H. hstep H s2 t2 H2. destruct t2. by eapply step_up_inv.
  - intros body s' x H. unfold handlePasswordlessSetting in H. hstep H s1 u1 H1. apply user_inv in H1 as [H1 ->].
    rewrite Hu in H1. injection H1 as <-. hstep H s2 b Hb. apply body_inv in Hb as [-> ->]. destruct b as [on pw].
    hstep H s3 t3 H3. destruct t3. apply step_up_inv in H3 as (pw' & [= <-] & Hk). hstep H s4 t4 H4. apply check_inv in H4 as [H4 _].
    exists on, pw. split; [done|]. split; [done|]. intros ->. by destruct (local_account u).
  - intros r body s' x H. unfold handleChangeMyPassword in H. hstep H s1 u1 H1. apply user_inv in H1 as [H1 ->].
    rewrite Hu in H1. injection H1 as <-. hstep H s2 b Hb. apply body_inv in Hb as [-> ->]. destruct b as [current pw].
    hstep H s3 res Hc. apply call_inv in Hc as (a & Hc & ->). destruct res as [res|e]; [|by destruct e].
    exists current, pw. split; [done|]. unfold ChangeOwnPassword in Hc. mstep Hc a1 t1 G1. apply guard_inv in G1 as [Hl ->].
    mstep Hc a2 t2 G2. mstep Hc a3 t3 G3. destruct t3. apply VerifyUserPassword_inv in G3. done.
Qed.

(** ** The menu *)

(** the menu shows exactly what the gate lets through.  For an account that is no
    administrator a section is listed if and only if it is a section and the access gate
    admits a read of it on the local daemon; a failing query empties the menu exactly
    when it closes the gate. *)
Theorem menu_matches_gate users hf u d sec :
  IsAdmin u = false ->
  sec ∈ effectiveSections u d <->
    sec ∈ AllSections /\ checkAccess (GS := db_store role_fault users d hf) u sec false 0 = None.
Proof.
  intros Ha. unfold effectiveSections. rewrite Ha.
  assert (Hsec : sec ∈ AllSections -> String.eqb sec "" = false /\ String.eqb sec "__admin" = false).
  { unfold AllSections. rewrite !elem_of_cons, elem_of_nil. intros H. split; apply String.eqb_neq; naive_solver. }
  unfold checkAccess. rewrite Ha. cbn [gsEffectiveGrants db_store gsNormalizeHostID].
  destruct (EffectiveGrants role_fault (Some u) d) as [grants|e] eqn:Eg.
  - rewrite !list_elem_of_filter. split.
    + intros (Hg & Hd & Hs). split; [done|]. destruct (Hsec Hs) as [-> ->]. unfold granted_section in Hg.
      destruct (grants !! sec) as [g|]; [|done]. rewrite Hg. cbn. unfold HasHost. by rewrite (gs_normalize_0 (S := db_store role_fault users d hf)).
    + intros [Hs H]. destruct (Hsec Hs) as [E1 E2]. rewrite E1, E2 in H. unfold granted_section.
      destruct (grants !! sec) as [g|] eqn:El; [|done]. destruct (Granted g) eqn:Egr; [|done]. split; [done|]. split; [|done].
      pose proof (EffectiveGrants_lookup _ _ _ _ sec Eg) as [Hl _]. rewrite El in Hl.
      destruct (proj1 Hl ltac:(eauto)) as (_ & Hdis & _). unfold DisabledSections, query. destruct (role_fault _); [apply not_elem_of_nil|done].
  - split; [by intros ?%not_elem_of_nil|]. intros [Hs H]. destruct (Hsec Hs) as [E1 E2]. by rewrite E1, E2 in H.
Qed.
End Theorems.

(** ** Sessions and traces *)
Section Traces.
Context `{E : AuthEnv} `{W : WebEnv}.

(** What is left of the sessions after some of the listed ones were deleted. *)
Definition only_revokes (c : Claims) (d d' : AuthDB) : Prop :=
  (forall row, row ∈ sessions d' -> row ∈ sessions d) /\
  (forall row, row ∈ sessions d -> sUserID row <> cUserID c \/ sID row = cID c -> row ∈ sessions d').

Lemma DeleteSession_sub fault id uid d row : row ∈ sessions (DeleteSession fault id uid d).1 -> row ∈ sessions d.
Proof.
  unfold DeleteSession. destruct (fault QSDelete); [done|]. destruct (existsb _ _); [|done]. cbn. by intros [_ ?]%list_elem_of_filter.
Qed.

Lemma revoke_each_inv c l : forall n s s' k, acc_fault QSDelete = false -> revoke_each c l n s = (s', Ok k) ->
  only_revokes c (acc (hAuth s)) (acc (hAuth s')) /\
  forall x, x ∈ l -> sID x <> cID c -> forall row, row ∈ sessions (acc (hAuth s')) -> ~ (sID row = sID x /\ sUserID row = cUserID c).
Proof.
  induction l as [|y l IH]; intros n s s' k Hf H; cbn [revoke_each] in H.
  { injection H as <- _. split; [by split|]. intros x ?%not_elem_of_nil. done. }
  destruct (String.eqb (sID y) (cID c)) eqn:Ey.
  { apply IH in H as [Ho Hl]; [|done]. split; [done|]. intros x [->|Hx]%elem_of_cons Hne; [|by apply Hl]. by apply String.eqb_eq in Ey. }
  hstep H s1 dr Hd. apply call_inv in Hd as (a & Hd & ->). apply IH in H as [[Hs1 Hs2] Hl]; [|done]. cbn [hAuth set_hAuth] in *.
  apply String.eqb_neq in Ey.
  assert (Ha : acc a = (DeleteSession acc_fault (sID y) (cUserID c) (acc (hAuth s))).1).
  { unfold db in Hd. destruct (DeleteSession _ _ _ _) as [d r]. injection Hd as <- _. done. }
  assert (Hrow : forall row, row ∈ sessions (acc a) <-> row ∈ sessions (acc (hAuth s)) /\ ~ (sID row = sID y /\ sUserID row = cUserID c)).
  { intros row. rewrite Ha. unfold DeleteSession. rewrite Hf. destruct (existsb _ _) eqn:Ex; cbn; [rewrite list_elem_of_filter; tauto|].
    split; [|tauto]. intros Hr. split; [done|]. intros [H1 H2]. apply not_true_iff_false in Ex. apply Ex, existsb_exists.
    exists row. split; [by apply list_elem_of_In|]. by rewrite H1, H2, String.eqb_refl, Z.eqb_refl. }
  split; [split|].
  - intros row Hr. apply Hs1, Hrow in Hr. tauto.
  - intros row Hr Hk. apply Hs2; [|done]. apply Hrow. split; [done|]. intros [H1 H2]. destruct Hk as [?|H3]; congruence.
  - intros x [->|Hx]%elem_of_cons Hne row Hr; [|by eapply Hl]. apply Hs1, Hrow in Hr. tauto.
Qed.

(** signing out everywhere else does what it says.  When the handler answers, no row
    of the account is left but the one that asked and rows already expired, and neither
    that row nor anybody else's was touched. *)
Theorem revoke_others_exact c s s' n :
  acc_fault QSDelete = false -> handleRevokeOtherSessions c s = (s', Ok (ARevokedOthers n)) ->
  only_revokes c (acc (hAuth s)) (acc (hAuth s')) /\
  exists now, forall row, row ∈ sessions (acc (hAuth s')) -> sUserID row = cUserID c -> sID row = cID c \/ sExpiresAt row <= rfc3339 now.
Proof.
  intros Hf H. unfold handleRevokeOtherSessions in H. hstep H s1 now Hn. apply call_inv in Hn as (a & Hn & ->).
  apply (keeps_run _ _ _ _ keeps_now) in Hn. destruct now as [now|]; [|done]. hstep H s2 r Hr. apply call_inv in Hr as (a2 & Hr & ->).
  destruct r as [l|]; [|done]. apply read_inv in Hr as [Hl ->]. cbn [hAuth set_hAuth] in Hl.
  hstep H s3 k Hk. hstep H s4 t4 H4. injection H as <- _. apply haudit_inv in H4 as [-> _].
  apply revoke_each_inv in Hk as [Ho Hgone]; [|done]. cbn [hAuth set_hAuth] in *. rewrite Hn in *. split; [done|].
  exists now. intros row Hrow Hu. destruct (decide (sID row = cID c)) as [?|Hne]; [by left|right].
  destruct (decide (sExpiresAt row <= rfc3339 now)) as [?|Hlive]; [done|exfalso].
  unfold ListSessions, aq in Hl. destruct (acc_fault QSList); [done|]. injection Hl as <-.
  eapply (Hgone row); [|done|exact Hrow|done]. rewrite merge_sort_Permutation. apply list_elem_of_filter.
  split; [split; [done|lia]|by apply Ho].
Qed.

(** *** Traces *)
Definition sign_in (r : WebRequest) (h : HM AReply) : Prop :=
  (exists b, h = handleLogin r b) \/ (exists b, h = handleVerify2FA r b) \/
  (exists t a, h = handlePasskeyLoginFinish r t a) \/ (exists i a, h = handlePasswordlessFinish r i a).

Lemma audited_sign_in r res action name detail s s' ck v :
  (haudit action name detail ≫= fun _ => signed_in r res : HM AReply) s = (s', Ok (ASignedIn ck v)) ->
  hAudit s' = hAudit s ++ [(action, name, detail)] /\ vUser v = lUser res.
Proof.
  intros H. hstep H s1 t1 H1. apply haudit_inv in H1 as [_ H1]. apply signed_in_inv in H as (-> & v' & [= _ ->] & Hv). done.
Qed.

(** The audit line a failed code leaves, if its challenge names an account at the time. *)
Definition failed_code (token : string) (c : option Claims) : list audit_entry :=
  match c with
  | Some (mkClaims _ name _ KindMFAChallenge _ _ _) => if String.eqb name "" then [] else [("auth.2fa.failed", name, "invalid code")]
  | _ => []
  end.

Lemma audit_challenge_inv token s s' (u : ()) : audit_challenge token "auth.2fa.failed" "invalid code" s = (s', Ok u) ->
  exists t, hAudit s' = hAudit s ++ failed_code token (jwt_parse t token).
Proof.
  unfold audit_challenge. intros H. hstep H s1 nm Hc. apply call_inv in Hc as (a & Hc & ->).
  unfold ChallengeUsername, Parse, time_Now, tick_ in Hc. cbn in Hc. injection Hc as _ <-.
  exists (aclock (aticks (hAuth s))). unfold failed_code. destruct (jwt_parse _ token) as [[uid name role kd ep jti ex]|]; cbn in H.
  - destruct kd; cbn in H; [injection H as <- _; by rewrite app_nil_r|].
    destruct (String.eqb name ""); [injection H as <- _; by rewrite app_nil_r|]. by apply haudit_inv in H as [_ ->].
  - injection H as <- _. by rewrite app_nil_r.
Qed.

(** nobody signs in, or fails at the last factor, without a trace.  A sign-in handler
    that sets a session cookie appends exactly one line naming the account it is for; a
    refused one-time code appends one naming the account of its challenge, unless the
    challenge itself is no longer genuine. *)
Theorem sign_in_leaves_trace r s s' :
  (forall h ck v, sign_in r h -> h s = (s', Ok (ASignedIn ck v)) ->
     exists detail, hAudit s' = hAudit s ++ [("auth.login", Username (vUser v), detail)]) /\
  (forall token code e, handleVerify2FA r (Some (token, code)) s = (s', Err e) ->
     exists t, hAudit s' = hAudit s ++ failed_code token (jwt_parse t token)).
Proof.
  split.
  - intros h ck v [[b ->]|[[b ->]|[(t & a & ->)|(i & a & ->)]]] H.
    + unfold handleLogin in H. hstep H s1 body Hb. apply body_inv in Hb as [_ ->]. destruct body as [name pw]. hstep H s2 exm He. injection He as <- _.
      hstep H s3 res Hl. apply call_inv in Hl as (a & _ & ->). destruct res as [res|e]; [|by destruct e].
      destruct (MFARequired res); [hstep H s4 has Hp; discriminate H|]. apply audited_sign_in in H as [H ->]. by exists "password only".
    + unfold handleVerify2FA in H. hstep H s1 body Hb. apply body_inv in Hb as [_ ->]. destruct body as [token cd].
      hstep H s3 res Hl. apply call_inv in Hl as (a & _ & ->). destruct res as [res|e].
      * apply audited_sign_in in H as [H ->]. by exists "password + 2fa".
      * hstep H s4 t4 H4. by destruct e.
    + unfold handlePasskeyLoginFinish in H. hstep H s1 t1 Hb. apply check_inv in Hb as [_ ->].
      hstep H s3 res Hl. apply call_inv in Hl as (a1 & _ & ->). destruct res as [res|e].
      * apply audited_sign_in in H as [H ->]. by exists "password + passkey".
      * destruct e; try done; hstep H s4 t4 H4; done.
    + unfold handlePasswordlessFinish in H. hstep H s1 t1 Hb. apply check_inv in Hb as [_ ->].
      hstep H s3 res Hl. apply call_inv in Hl as (a1 & _ & ->). destruct res as [res|e].
      * apply audited_sign_in in H as [H ->]. by exists "passkey (passwordless)".
      * hstep H s4 t4 H4. by destruct (unwrap e).
  - intros token cd e H. unfold handleVerify2FA in H. cbn [body_or_400] in H. unfold mbind at 1, HM_bind, stM_bind in H. cbn [mret HM_ret stM_ret] in H.
    change (stM_ret HState AReply ?A ?x s) with (s, @Ok AReply A x) in H. cbn beta iota in H.
    unfold mbind at 1, stM_bind in H. destruct (call _ s) as [s1 [res|e1]] eqn:Hc; [|by unfold call in Hc; destruct (VerifyMFA _ _ _ _ _)].
    apply call_inv in Hc as (a & _ & ->). destruct res as [res|e1]; [by unfold signed_in, userView, hview in H|].
    unfold mbind, stM_bind in H. destruct (audit_challenge _ _ _ _) as [s2 [u|e2]] eqn:Ha.
    + apply audit_challenge_inv in Ha as [t Ha]. exists t. cbn in Ha. rewrite <- Ha. destruct e1; by injection H as <- _.
    + unfold audit_challenge in Ha. exfalso. unfold mbind, HM_bind, stM_bind, call in Ha. destruct (ChallengeUsername _ _) as [s3 [nm|]]; [|done].
      by destruct (String.eqb nm "").
Qed.
End Traces.
