(* ===== verification/LoginExamples.v ===== *)
(** * Signing in, run on a small installation

    An environment in which every library the service calls is a concrete function,
    three accounts, and runs of the handlers on them: the theorems of [LoginSpec] at
    work, and the places where a token outlives what it stands for. *)
From S2P Require Import Prelude Limits GoStrings Password Users Roles Calendar Accounts Login Passkeys SessionGate LoginSpec.

(** A token is its claims, written out; there is no forging one here, and the
    theorems assume nothing about it. *)
Definition demo_sign (c : Claims) : string :=
  Join [FormatInt (cUserID c); cUsername c; cRole c; match cKind c with KindSession => "s" | KindMFAChallenge => "c" end;
        FormatInt (cEpoch c); cID c; match cExpiresAt c with Some t => FormatInt (t / second) | None => "" end] "|".
Definition demo_parse (now : Z) (s : string) : option Claims :=
  match Split s "|"%char with
  | [uid; name; role; kind; ep; jti; exp] =>
      match ParseInt uid, ParseInt ep, ParseInt exp with
      | Some uid, Some ep, Some exp =>
          if now <? exp * second then Some (mkClaims uid name role (if String.eqb kind "s" then KindSession else KindMFAChallenge) ep jti (Some (exp * second)))
          else None
      | _, _, _ => None
      end
  | _ => None
  end.

Definition demo_start : Z := 738000 * day_ns.
Definition demo_totp (secret : string) (t : Z) : string := secret +:+ "@" +:+ FormatInt (t / totpPeriod).

#[export] Instance demo_auth : AuthEnv := {|
  aclock n := demo_start + Z.of_nat n * second;
  arange _ := [];
  arand n := Some ("jti-" +:+ FormatInt (Z.of_nat n));
  asalt _ := replicate 16 7;
  IDKey := toy_kdf;
  jwt_sign := demo_sign; jwt_parse := demo_parse;
  sessionTTL := 12 * hour;
  totp_code s t := Some (demo_totp s t);
  totp_valid c s t := String.eqb c (demo_totp s (unix t));
  totp_generate n _ := Some ("NEW" +:+ FormatInt (Z.of_nat n));
  WebAuthnSession := nat;
  Request := string * bool * string;
  rp_ok := true;
  begin_ceremony n := Some n;
  finish_registration _ r := Some (mkCred r.2 r.2 false);
  finish_login creds _ r := if one_of r.2 creds then Some (mkCred r.2 r.2 false) else None;
  assertion_parse r := Some (r.1.1, r.1.2);
  cred_ok _ := true;
  ldap_config := Err ErrNotFound;
  ldap_auth _ _ := None;
  aToLower s := s;
  acc_fault _ := false; role_fault _ := false
|}.

Definition demo_hash : string := HashPassword toy_kdf (replicate 16 7) "correct horse".
Definition demo_user (id : Z) (name : string) (passwordless : bool) : User :=
  with_passwordless (with_hash (zero_user id name "user") demo_hash) passwordless.
Definition demo_totp_factor : AuthFactor := mkFactor 1 2 FactorKindTOTP "phone" "SECRET" 0 0 0 "" "".
Definition demo_passkey : AuthFactor := mkFactor 2 3 FactorKindPasskey "key" "" 0 0 0 "cred-3" "cred-3".

(** alice has only a password, bob a one-time code, carol a passkey she may use alone. *)
Definition demo_acc : AuthDB :=
  mkAuthDB [demo_user 1 "alice" false; demo_user 2 "bob" false; demo_user 3 "carol" true] 3
    {[ 3 := "handle-3" ]} ∅ [demo_totp_factor; demo_passkey] 2 [].
Definition demo_state : AState :=
  mkAState demo_auth demo_acc (mkDB ∅ 0 ∅ ∅ ∅ ∅ [] 0) (NewLoginLimiter 5 (15 * minute)) (NewLoginLimiter 30 (15 * minute)) ∅
    (newCeremonies maxOpenCeremonies) (newCeremonies maxPublicCeremonies) 0.
Definition demo_info : SessionInfo := mkInfo "10.0.0.9" "browser".

Lemma demo_wf : acc_wf demo_acc.
Proof.
  split; [by apply (bool_decide_unpack _)| |by apply (bool_decide_unpack _)|];
    intros x Hx; cbn in Hx |- *; set_unfold; naive_solver lia.
Qed.

(** Name a run of a handler and learn, by evaluation, that it succeeded. *)
Ltac run_ok s r H := match goal with |- context [let '(_, _) := ?m in _] =>
  destruct m as [s [r|?]] eqn:H; [|exfalso; apply (f_equal snd) in H; vm_compute in H; discriminate] end.

Example login_needs_second_factor_witness :
  let '(s, r) := Login "10.0.0.9" "alice" "correct horse" false demo_info demo_state in
  match r with Ok res => MFARequired res = false -> factors_of 1 demo_acc = [] | Err _ => False end.
Proof.
  run_ok s r H. apply login_needs_second_factor in H as [Hw _]. intros Hm.
  change (UserByUsername acc_fault "alice" (acc demo_state)) with
    (Ok (E := StoreErr) (scanUserRow demo_acc (demo_user 1 "alice" false))) in Hw.
  destruct Hw as (_ & _ & Hf). destruct (Hf Hm) as [?|?]; [discriminate|assumption].
Defined.

(** ** Bob signs in with his password and then a code *)
Definition bob_challenge : AState * string :=
  match Login "10.0.0.9" "bob" "correct horse" false demo_info demo_state with
  | (s, Ok res) => (s, lToken res)
  | (s, Err _) => (s, "")
  end.
Definition bob_code : string := demo_totp "SECRET" (unix demo_start).

Example mfa_needs_fresh_code_witness :
  let '(s, r) := VerifyMFA "10.0.0.9" bob_challenge.2 bob_code demo_info bob_challenge.1 in
  match r with Ok res => ID (lUser res) = 2 /\ MFARequired res = false | Err _ => False end.
Proof.
  destruct (VerifyMFA _ _ _ _ _) as [s [r|e]] eqn:H; [|apply (f_equal snd) in H; vm_compute in H; discriminate].
  assert (Hr : ID (lUser r) = 2).
  { apply (f_equal (fun p => match snd p with Ok r => ID (lUser r) | Err _ => 0 end)) in H. vm_compute in H. exact (eq_sym H). }
  apply mfa_needs_fresh_code in H. destruct H as (t & c & exp & s1 & u & i & k & t' & d & H). split; [exact Hr|apply H].
Defined.

Example passwordless_is_opt_in_witness :
  let s0 := (BeginPasswordlessLogin "10.0.0.9" demo_state).1 in
  let '(s, r) := FinishPasswordlessLogin "10.0.0.9" "jti-3" (("handle-3", true), "cred-3") demo_info s0 in
  match r with Ok res => Passwordless (lUser res) = true | Err _ => False end.
Proof.
  cbv zeta. run_ok s r H. apply passwordless_is_opt_in in H as (h & cer & creds & cr & s1 & _ & _ & _ & _ & _ & _ & _ & Hp & _). exact Hp.
Defined.

(** ** Enrolment *)
Definition bob_pending : AState := (BeginTOTPEnrollment 2 true demo_state).1.

Example pairing_needs_step_up_witness :
  let '(s1, r) := confirm_checks 2 (demo_totp "NEW0" (unix demo_start)) bob_pending in
  match r with
  | Ok p =>
      let '(d, i) := PairPendingFactor (fun _ => false) 2 p "second phone" demo_start (acc s1) in
      match i with
      | Ok _ => (exists u, u ∈ users (acc bob_pending) /\ ID u = 2 /\ TOTPPending u = p /\ TOTPPendingStepUp u = true) \/
                factors_of 2 (acc s1) = []
      | Err _ => False
      end
  | Err _ => False
  end.
Proof.
  run_ok s1 p Hc.
  assert (Hwf : acc_wf (acc bob_pending)).
  { eapply effect_wf; [|exact demo_wf]. exact (run_op_effect (fun _ => false) (OPending 2 "NEW0" true) demo_acc). }
  assert (Hp : p = "NEW0") by (apply (f_equal snd) in Hc; vm_compute in Hc; congruence).
  assert (Hacc : acc s1 = acc bob_pending) by (apply confirm_checks_inv in Hc as [Hc _]; exact Hc).
  destruct (PairPendingFactor _ _ _ _ _ _) as [d [i|e]] eqn:Hi.
  - eapply pairing_needs_step_up; [exact Hwf|exact Hc|apply rtc_refl|exact Hi].
  - exfalso. rewrite Hacc, Hp in Hi. apply (f_equal snd) in Hi. vm_compute in Hi. discriminate.
Defined.

Definition carol_registering : AState := (BeginPasskeyRegistration 1 false demo_state).1.
Example passkey_needs_step_up_witness :
  let '(s1, r) := registration_checks 1 (("", false), "cred-new") carol_registering in
  match r with
  | Ok (c, su) => let '(d, i) := CreateFactor (fun _ => false) (passkey_factor 1 "key" c) su demo_start demo_acc in
      match i with
      | Ok _ => (exists cer, copen (open_ceremonies carol_registering) !! registrationKey 1 = Some cer /\ cstepUp cer = true) \/
                factors_of 1 demo_acc = []
      | Err _ => False
      end
  | Err _ => False
  end.
Proof.
  run_ok s1 p Hc. destruct p as [c su].
  assert (Hp : c = mkCred "cred-new" "cred-new" false /\ su = false) by (apply (f_equal snd) in Hc; vm_compute in Hc; split; congruence).
  destruct (CreateFactor _ _ _ _ _) as [d [i|e]] eqn:Hi.
  - exact (passkey_needs_step_up 1 _ carol_registering s1 c su _ "key" _ _ d i Hc Hi).
  - exfalso. destruct Hp as [-> ->]. apply (f_equal snd) in Hi. vm_compute in Hi. discriminate.
Defined.

(** ** Revocation *)
Definition alice_in : AState * string :=
  match Login "10.0.0.9" "alice" "correct horse" false demo_info demo_state with
  | (s, Ok res) => (s, lToken res)
  | (s, Err _) => (s, "")
  end.
Definition cookie (t : string) : HttpRequest := mkRequest (Some t) "" "" "" "".
Definition alice_changed : AState := (SetPassword 1 "a new long password" alice_in.1).1.
Definition alice_again : AState * string :=
  match Login "10.0.0.9" "alice" "a new long password" false demo_info alice_changed with
  | (s, Ok res) => (s, lToken res)
  | (s, Err _) => (s, "")
  end.

Lemma alice_rows : exists u, u ∈ users (acc alice_in.1) /\ ID u = 1 /\ SessionEpoch u = 0.
Proof. exists (with_login (demo_user 1 "alice" false) (demo_start + 5 * second)). repeat split. vm_compute. left. Qed.

(** The invariant, decided. *)
Definition acc_wfb (d : AuthDB) : bool :=
  bool_decide (NoDup (ID <$> users d)) && forallb (fun u => ID u <=? user_seq d) (users d) &&
  bool_decide (NoDup (fID <$> factors d)) && forallb (fun f => fID f <=? factor_seq d) (factors d).
Lemma bool_decide_acc_wf d : acc_wfb d = true -> acc_wf d.
Proof.
  unfold acc_wfb. rewrite !andb_true_iff, !bool_decide_eq_true, !forallb_forall. intros [[[H1 H2] H3] H4].
  split; [done| |done|]; intros x Hx%list_elem_of_In; [specialize (H2 x Hx)|specialize (H4 x Hx)]; lia.
Qed.

Lemma alice_wf : acc_wf (acc alice_in.1).
Proof. apply (bool_decide_acc_wf (acc alice_in.1)). vm_compute. reflexivity. Qed.

(** alice changes her password; her old cookie is dead, her new one is not. *)
Example password_change_revokes_witness :
  (let '(_, r) := RequireSession String.eqb (cookie alice_in.2) alice_changed in r = Ok None) /\
  let '(s3, r) := RequireSession String.eqb (cookie alice_again.2) alice_again.1 in
  match r with Ok (Some c) => 0 < cEpoch c | _ => False end.
Proof.
  split; [destruct (RequireSession _ _ _) as [s r] eqn:H; apply (f_equal snd) in H; vm_compute in H; congruence|].
  destruct (RequireSession _ _ _) as [s3 [[c|]|e]] eqn:H;
    [|exfalso; apply (f_equal snd) in H; vm_compute in H; discriminate..].
  assert (Hc : cUserID c = 1).
  { apply (f_equal (fun p => match snd p with Ok (Some c) => cUserID c | _ => 0 end)) in H. vm_compute in H. exact (eq_sym H). }
  destruct alice_rows as (u & Hu & Hid & Hep).
  assert (Hset : SetPassword 1 "a new long password" alice_in.1 = (alice_changed, Ok tt)).
  { unfold alice_changed. destruct (SetPassword _ _ _) as [s' [[]|e]] eqn:Hs; [reflexivity|].
    exfalso. apply (f_equal snd) in Hs. vm_compute in Hs. discriminate. }
  assert (Hrun : rtc (acc_step (fun _ => True)) (acc alice_changed) (acc alice_again.1)).
  { set (row := mkSession "jti-9" 1 "10.0.0.9" "browser" 0 0 (demo_start + 8 * second + 12 * hour)).
    apply (rtc_l _ _ _ _ (acc_step_op _ _ (fun _ => false) (OPurge (demo_start + 10 * second)) I)).
    apply (rtc_l _ _ _ _ (acc_step_op _ _ (fun _ => false) (OSession row (demo_start + 11 * second)) I)).
    apply (rtc_l _ _ _ _ (acc_step_op _ _ (fun _ => false) (OTouch 1 (demo_start + 12 * second)) I)).
    assert (E : run_op (fun _ => false) (OTouch 1 (demo_start + 12 * second)) (run_op (fun _ => false) (OSession row (demo_start + 11 * second))
      (run_op (fun _ => false) (OPurge (demo_start + 10 * second)) (acc alice_changed))) = acc alice_again.1) by (vm_compute; reflexivity).
    rewrite E. apply rtc_refl. }
  rewrite <- Hep. exact (password_change_revokes String.eqb 1 _ _ _ _ _ _ c u alice_wf Hu Hid Hset Hrun H Hc).
Defined.

(** alice signs in twice and revokes the first session; the second still passes. *)
Definition alice_twice : AState * string :=
  match Login "10.0.0.9" "alice" "correct horse" false demo_info alice_in.1 with
  | (s, Ok res) => (s, lToken res)
  | (s, Err _) => (s, "")
  end.
Lemma alice_twice_wf : acc_wf (acc alice_twice.1).
Proof. apply (bool_decide_acc_wf (acc alice_twice.1)). vm_compute. reflexivity. Qed.

Example revoked_session_stays_out_witness :
  let '(d, r) := DeleteSession (fun _ => false) "jti-2" 1 (acc alice_twice.1) in
  let '(_, g) := RequireSession String.eqb (cookie alice_twice.2) (set_acc d alice_twice.1) in
  r = Ok () /\ match g with Ok (Some c) => ~ (cID c = "jti-2" /\ cUserID c = 1) | _ => False end.
Proof.
  destruct (DeleteSession _ _ _ _) as [d r] eqn:Hd.
  assert (r = Ok ()) as -> by (apply (f_equal snd) in Hd; vm_compute in Hd; congruence).
  destruct (RequireSession _ _ _) as [s3 [[c|]|e]] eqn:H.
  - split; [reflexivity|].
    exact (revoked_session_stays_out String.eqb _ "jti-2" 1 _ (set_acc d alice_twice.1) _ d _ c Hd (rtc_refl _ _) H alice_twice_wf).
  - exfalso. replace d with (DeleteSession (fun _ => false) "jti-2" 1 (acc alice_twice.1)).1 in H by (by rewrite Hd).
    apply (f_equal snd) in H. vm_compute in H. discriminate.
  - exfalso. replace d with (DeleteSession (fun _ => false) "jti-2" 1 (acc alice_twice.1)).1 in H by (by rewrite Hd).
    apply (f_equal snd) in H. vm_compute in H. discriminate.
Defined.

(** ** The account tables under concurrent requests

    bob pairs a second authenticator in one request while another tries to remove both. *)
Definition bob_two : AuthDB :=
  set_factors (demo_totp_factor :: demo_passkey :: [mkFactor 3 2 FactorKindPasskey "key" "" 0 0 0 "cred-b" "cred-b"])
    (mkAuthDB (users demo_acc) 3 ∅ ∅ [] 3 []).
Definition bob_removed : AuthDB := run_op (fun _ => false) (ODeleteFactor 3 2) (run_op (fun _ => false) (ODeleteFactor 1 2) bob_two).
Lemma bob_two_wf : acc_wf bob_two.
Proof. apply bool_decide_acc_wf. vm_compute. reflexivity. Qed.

Example second_factor_never_lost_witness : factors_of 2 bob_removed <> [].
Proof.
  apply (second_factor_never_lost 2 bob_two bob_removed bob_two_wf); [|vm_compute; discriminate].
  eapply rtc_l; [apply (acc_step_op _ _ (fun _ => false) (ODeleteFactor 1 2)); discriminate|].
  eapply rtc_l; [apply (acc_step_op _ _ (fun _ => false) (ODeleteFactor 3 2)); discriminate|]. apply rtc_refl.
Defined.

Example code_accepted_once_witness :
  let d1 := (BurnFactorCounter (fun _ => false) 1 54253440 demo_start demo_acc).1 in
  is_ok (BurnFactorCounter (fun _ => false) 1 54253440 (demo_start + second) d1).2 = false.
Proof.
  cbv zeta. eapply (code_accepted_once (fun _ => false) (fun _ => false) 1 54253440 54253440 demo_start _ demo_acc);
    [exact demo_wf|vm_compute; reflexivity|apply rtc_refl|lia].
Defined.

Definition no_accounts : AuthDB := mkAuthDB [] 0 ∅ ∅ [] 0 [].
Example setup_once_witness :
  let d1 := (CreateFirstUser (fun _ => false) (zero_user 0 "root" "admin") demo_start no_accounts).1 in
  is_ok (CreateFirstUser (fun _ => false) (zero_user 0 "mallory" "admin") demo_start d1).2 = false.
Proof.
  cbv zeta. eapply (setup_once (fun _ => false) (zero_user 0 "root" "admin") demo_start no_accounts _ 1);
    [apply bool_decide_acc_wf; vm_compute; reflexivity|left; vm_compute; reflexivity|apply rtc_refl].
Defined.

(** ** Where a token outlives what it stands for *)

(** the consent page believes a session that is over.  alice's cookie is refused by
    the gate after her password change, while [sessionClaims], which decides whose name
    an OAuth grant is issued in, still takes it for hers: it checks the signature and
    the kind, never the generation or the session's row. *)
Theorem consent_outlives_session :
  (RequireSession String.eqb (cookie alice_in.2) alice_changed).2 = Ok None /\
  match (sessionClaims (cookie alice_in.2) alice_changed).2 with
  | Ok (Some c) => cUserID c = 1 /\ cUsername c = "alice" /\ GetSessionEpoch acc_fault 1 (acc alice_changed) <> Ok (cEpoch c) /\
                   SessionExists acc_fault (cID c) 1 (acc alice_changed) = Ok false
  | _ => False
  end.
Proof. vm_compute. repeat split. discriminate. Qed.

(** A password change between the two steps of a sign-in. *)
Definition bob_changed : AState := (SetPassword 2 "a new long password" bob_challenge.1).1.

(** a half-finished sign-in survives a password change.  The challenge bob's old
    password earned is still good after the password was changed, and the code step
    hands out a session of the new generation for it. *)
Theorem challenge_outlives_password :
  (Login "10.0.0.9" "bob" "correct horse" false demo_info bob_changed).2 = Err ErrInvalidCreds /\
  match VerifyMFA "10.0.0.9" bob_challenge.2 bob_code demo_info bob_changed with
  | (s, Ok res) => match (RequireSession String.eqb (cookie (lToken res)) s).2 with
                   | Ok (Some c) => cUserID c = 2 /\ GetSessionEpoch acc_fault 2 (acc bob_changed) = Ok (cEpoch c)
                   | _ => False
                   end
  | (_, Err _) => False
  end.
Proof. vm_compute. repeat split. Qed.
