(* ===== verification/OAuthStore.v ===== *)
(** * The OAuth tables of the remote MCP endpoint (internal/store/oauth.go,
    mcp_sessions.go)

    Registered clients, single-use codes, rotating refresh tokens and the connector
    sessions they belong to.  Each table is a map by its primary key; codes and
    refresh tokens are kept by hash. *)
From S2P Require Import Prelude GoStrings Users Roles Calendar Accounts.

(** ** Data *)
Record OAuthClient := mkClient { ocID : string; ocName : string; RedirectURIs : list string; ocCreatedAt : Z }.
Record OAuthCode := mkCode {
  cdClientID : string; cdUserID : Z; cdRedirectURI : string; cdChallenge : string; cdResource : string;
  cdScope : string; cdExpiresAt : Z
}.
Record OAuthRefreshToken := mkRefresh {
  rtClientID : string; rtUserID : Z; rtScope : string; rtResource : string; rtExpiresAt : Z; rtSessionID : string
}.
Record MCPOAuthSession := mkMSession {
  msID : string; msClientID : string; msUserID : Z; msIP : string; msUserAgent : string;
  msCreatedAt : Z; msLastUsedAt : Z; msExpiresAt : Z
}.

Record ODB := mkODB {
  oclients : gmap string OAuthClient; ocodes : gmap string OAuthCode;
  otokens : gmap string OAuthRefreshToken; osessions : gmap string MCPOAuthSession
}.
Definition set_oclients m d := mkODB m (ocodes d) (otokens d) (osessions d).
Definition set_ocodes m d := mkODB (oclients d) m (otokens d) (osessions d).
Definition set_otokens m d := mkODB (oclients d) (ocodes d) m (osessions d).
Definition set_osessions m d := mkODB (oclients d) (ocodes d) (otokens d) m.

Inductive OQuery :=
  | QCInsert | QCByID | QCList | QCDelete | QCBegin | QCCommit | QCDelCodes | QCDelTokens | QCDelSessions
  | QKInsert | QKBegin | QKSelect | QKDelete | QKCommit | QXCodes | QXTokens | QXSessions
  | QTInsert | QTBegin | QTSelect | QTDelete | QTCommit
  | QRBegin | QRSelect | QRDelete | QRBurn | QRTouch | QRCreate | QRInsert | QRCommit
  | QMInsert | QMExists | QMTouch | QMList | QMListAll | QMBegin | QMDelete | QMTokens | QMCommit.

(** What a rotation can fail with; the validate callback's errors are the last three. *)
Inductive OErr := EONotFound | EODB | EOUnique | ErrRefreshTokenExpired | ErrRefreshClientMismatch | ErrRefreshResourceMismatch.

Section OAuthTables.
Context (fault : OQuery -> bool).

Definition oq {A} (q : OQuery) (f : ODB -> result OErr A) (d : ODB) : result OErr A := if fault q then Err EODB else f d.
Definition ox (q : OQuery) (f : ODB -> ODB) : stM ODB OErr () := fun d => if fault q then (d, Err EODB) else (f d, Ok ()).
Definition oread {A} (q : OQuery) (f : ODB -> result OErr A) : stM ODB OErr A := fun d => (d, oq q f d).

(** INSERT on a primary key *)
Definition oinsert (q : OQuery) (taken : ODB -> bool) (f : ODB -> ODB) : stM ODB OErr () := fun d =>
  if fault q then (d, Err EODB) else if taken d then (d, Err EOUnique) else (f d, Ok ()).

(** BeginTx … Commit, with the deferred rollback *)
Definition otx {A} (b c : OQuery) (m : stM ODB OErr A) : stM ODB OErr A :=
  st_tx (ox b id ≫= fun _ => m ≫= fun a => ox c id ≫= fun _ => mret a).

Definition has {A} (m : gmap string A) (k : string) : bool := bool_decide (is_Some (m !! k)).

(** ** Clients *)
Definition CreateOAuthClient (c : OAuthClient) (now : Z) : stM ODB OErr () :=
  oinsert QCInsert (fun d => has (oclients d) (ocID c))
    (fun d => set_oclients (<[ocID c := mkClient (ocID c) (ocName c) (RedirectURIs c) (rfc3339 now)]> (oclients d)) d).

Definition OAuthClientByID (id : string) (d : ODB) : result OErr OAuthClient :=
  oq QCByID (fun d => match oclients d !! id with Some c => Ok c | None => Err EONotFound end) d.

(** ORDER BY created_at DESC, client_id DESC *)
Definition client_ge (a b : OAuthClient) : Prop :=
  ocCreatedAt b < ocCreatedAt a \/ (ocCreatedAt a = ocCreatedAt b /\ String.leb (ocID b) (ocID a) = true).
#[export] Instance client_ge_dec : RelDecision client_ge.
Proof. intros a b. unfold client_ge. apply _. Defined.
Definition ListOAuthClients (d : ODB) : result OErr (list OAuthClient) :=
  oq QCList (fun d => Ok (merge_sort client_ge (snd <$> map_to_list (oclients d)))) d.

Definition DeleteOAuthClient (id : string) : stM ODB OErr bool := fun d0 =>
  match ox QCBegin (fun d => d) d0 with
  | (d, Err e) => (d, Err e)
  | (_, Ok _) =>
      if fault QCDelete then (d0, Err EODB)
      else if negb (has (oclients d0) id) then (d0, Ok false)
      else st_tx (
        ox QCDelete (fun d => set_oclients (delete id (oclients d)) d) ≫= fun _ =>
        ox QCDelCodes (fun d => set_ocodes (filter (fun kv : string * _ => cdClientID kv.2 <> id) (ocodes d)) d) ≫= fun _ =>
        ox QCDelTokens (fun d => set_otokens (filter (fun kv : string * _ => rtClientID kv.2 <> id) (otokens d)) d) ≫= fun _ =>
        ox QCDelSessions (fun d => set_osessions (filter (fun kv : string * _ => msClientID kv.2 <> id) (osessions d)) d) ≫= fun _ =>
        ox QCCommit (fun d => d) ≫= fun _ => mret true) d0
  end.

(** ** Authorization codes *)
Definition CreateOAuthCode (codeHash : string) (c : OAuthCode) : stM ODB OErr () :=
  oinsert QKInsert (fun d => has (ocodes d) codeHash)
    (fun d => set_ocodes (<[codeHash := mkCode (cdClientID c) (cdUserID c) (cdRedirectURI c) (cdChallenge c) (cdResource c)
                                          (cdScope c) (rfc3339 (cdExpiresAt c))]> (ocodes d)) d).

Definition ConsumeOAuthCode (codeHash : string) : stM ODB OErr OAuthCode :=
  otx QKBegin QKCommit (
    oread QKSelect (fun d => match ocodes d !! codeHash with Some c => Ok c | None => Err EONotFound end) ≫= fun c =>
    ox QKDelete (fun d => set_ocodes (delete codeHash (ocodes d)) d) ≫= fun _ => mret c).

(** ** Refresh tokens *)

(** A zero time is stored as ''. *)
Definition stored_expiry (t : Z) : Z := if IsZero t then 0 else rfc3339 t.

Definition insert_token (q : OQuery) (hash : string) (t : OAuthRefreshToken) : stM ODB OErr () :=
  oinsert q (fun d => has (otokens d) hash)
    (fun d => set_otokens (<[hash := mkRefresh (rtClientID t) (rtUserID t) (rtScope t) (rtResource t)
                                       (stored_expiry (rtExpiresAt t)) (rtSessionID t)]> (otokens d)) d).
Definition CreateRefreshToken (hash : string) (t : OAuthRefreshToken) : stM ODB OErr () := insert_token QTInsert hash t.

Definition select_token (q : OQuery) (hash : string) : stM ODB OErr OAuthRefreshToken :=
  oread q (fun d => match otokens d !! hash with Some t => Ok t | None => Err EONotFound end).
Definition delete_token (q : OQuery) (hash : string) : stM ODB OErr () :=
  ox q (fun d => set_otokens (delete hash (otokens d)) d).

Definition ConsumeRefreshToken (hash : string) : stM ODB OErr OAuthRefreshToken :=
  otx QTBegin QTCommit (select_token QTSelect hash ≫= fun t => delete_token QTDelete hash ≫= fun _ => mret t).

(** ** Connector sessions *)
Definition insert_session (q : OQuery) (s : MCPOAuthSession) (now : Z) : stM ODB OErr () :=
  oinsert q (fun d => has (osessions d) (msID s))
    (fun d => set_osessions (<[msID s := mkMSession (msID s) (msClientID s) (msUserID s) (msIP s) (truncateUA (msUserAgent s))
                                           (rfc3339 now) (rfc3339 now) (rfc3339 (msExpiresAt s))]> (osessions d)) d).
Definition CreateMCPOAuthSession (s : MCPOAuthSession) (now : Z) : stM ODB OErr () := insert_session QMInsert s now.

Definition MCPOAuthSessionExists (id : string) (user : Z) (d : ODB) : result OErr bool :=
  oq QMExists (fun d => Ok match osessions d !! id with Some s => msUserID s =? user | None => false end) d.

(** UPDATE … SET last_used_at, expires_at; whether a row was there *)
Definition touch_session (q : OQuery) (id : string) (expiresAt now : Z) : stM ODB OErr bool := fun d =>
  if fault q then (d, Err EODB)
  else match osessions d !! id with
       | Some s => (set_osessions (<[id := mkMSession (msID s) (msClientID s) (msUserID s) (msIP s) (msUserAgent s) (msCreatedAt s)
                                             (rfc3339 now) (rfc3339 expiresAt)]> (osessions d)) d, Ok true)
       | None => (d, Ok false)
       end.
Definition TouchMCPOAuthSession (id : string) (expiresAt now : Z) : stM ODB OErr () :=
  touch_session QMTouch id expiresAt now ≫= fun there : bool => if there then mret tt else st_fail EONotFound.

(** ORDER BY last_used_at DESC *)
Definition msession_ge (a b : MCPOAuthSession) : Prop := msLastUsedAt b <= msLastUsedAt a.
#[export] Instance msession_ge_dec : RelDecision msession_ge.
Proof. intros a b. unfold msession_ge. apply _. Defined.
Definition live_sessions (now : Z) (d : ODB) : list MCPOAuthSession :=
  filter (fun s : MCPOAuthSession => rfc3339 now < msExpiresAt s) (snd <$> map_to_list (osessions d)).
Definition ListMCPOAuthSessions (user now : Z) (d : ODB) : result OErr (list MCPOAuthSession) :=
  oq QMList (fun d => Ok (merge_sort msession_ge (filter (fun s : MCPOAuthSession => msUserID s = user) (live_sessions now d)))) d.
Definition ListAllMCPOAuthSessions (now : Z) (d : ODB) : result OErr (list MCPOAuthSession) :=
  oq QMListAll (fun d => Ok (merge_sort msession_ge (live_sessions now d))) d.

Definition deleteMCPOAuthSessionTx (id : string) (mine : MCPOAuthSession -> bool) : stM ODB OErr () :=
  otx QMBegin QMCommit (
    (fun d => if fault QMDelete then (d, Err EODB)
              else match osessions d !! id with
                   | Some s => if mine s then (set_osessions (delete id (osessions d)) d, Ok ()) else (d, Err EONotFound)
                   | None => (d, Err EONotFound)
                   end) ≫= fun _ =>
    ox QMTokens (fun d => set_otokens (filter (fun kv : string * _ => rtSessionID kv.2 <> id) (otokens d)) d)).
Definition RevokeMCPOAuthSession (id : string) (user : Z) : stM ODB OErr () :=
  deleteMCPOAuthSessionTx id (fun s => msUserID s =? user).
Definition AdminRevokeMCPOAuthSession (id : string) : stM ODB OErr () := deleteMCPOAuthSessionTx id (fun _ => true).

(** ** Rotation *)

(** The new token and the session behind it, once validate has agreed: the touch of
    an existing session, or its creation. *)
Definition rotate_tail (rec : OAuthRefreshToken) (candidate ip ua : string) (sessionExpiry : Z) (newHash : string)
    (newExpiry now : Z) : stM ODB OErr string :=
  let sid := if String.eqb (rtSessionID rec) "" then candidate else rtSessionID rec in
  (if String.eqb (rtSessionID rec) "" then mret false : stM ODB OErr bool else touch_session QRTouch sid sessionExpiry now) ≫= fun there : bool =>
  (if there then mret tt : stM ODB OErr ()
   else insert_session QRCreate (mkMSession sid (rtClientID rec) (rtUserID rec) ip ua 0 0 sessionExpiry) now) ≫= fun _ =>
  insert_token QRInsert newHash (mkRefresh (rtClientID rec) (rtUserID rec) (rtScope rec) (rtResource rec) newExpiry sid) ≫= fun _ =>
  mret sid.

(** A refusal by validate still commits: the old token is single-use. *)
Definition RotateRefreshToken (oldHash : string) (validate : OAuthRefreshToken -> option OErr) (candidate ip ua : string)
    (sessionExpiry : Z) (newHash : string) (newExpiry now : Z) : stM ODB OErr (OAuthRefreshToken * result OErr string) :=
  otx QRBegin QRCommit (
    select_token QRSelect oldHash ≫= fun rec =>
    delete_token QRDelete oldHash ≫= fun _ =>
    match validate rec with
    | Some e => mret (rec, Err e)
    | None => rotate_tail rec candidate ip ua sessionExpiry newHash newExpiry now ≫= fun sid => mret (rec, Ok sid)
    end).

(** ** The sweep *)
Definition DeleteExpiredOAuth (now : Z) : stM ODB OErr () :=
  ox QXCodes (fun d => set_ocodes (filter (fun kv : string * _ => rfc3339 now <= cdExpiresAt kv.2) (ocodes d)) d) ≫= fun _ =>
  ox QXTokens (fun d => set_otokens (filter (fun kv : string * _ => rtExpiresAt kv.2 = 0 \/ rfc3339 now <= rtExpiresAt kv.2) (otokens d)) d) ≫= fun _ =>
  ox QXSessions (fun d => set_osessions (filter (fun kv : string * _ => rfc3339 now <= msExpiresAt kv.2) (osessions d)) d).
End OAuthTables.

(** ** Runs of the tables

    Any interleaving of requests is a sequence of these statements and transactions. *)
Inductive oauth_op :=
  | OOClient (c : OAuthClient) (now : Z) | OODelClient (id : string)
  | OOCode (h : string) (c : OAuthCode) | OOConsumeCode (h : string)
  | OORefresh (h : string) (t : OAuthRefreshToken) | OOConsumeRefresh (h : string)
  | OOSession (s : MCPOAuthSession) (now : Z) | OOTouch (id : string) (exp now : Z)
  | OORevoke (id : string) (user : Z) | OOAdminRevoke (id : string)
  | OORotate (old : string) (validate : OAuthRefreshToken -> option OErr) (candidate ip ua : string) (sexp : Z)
      (new : string) (nexp now : Z)
  | OOSweep (now : Z).

Definition run_oauth (fault : OQuery -> bool) (op : oauth_op) (d : ODB) : ODB :=
  match op with
  | OOClient c now => (CreateOAuthClient fault c now d).1
  | OODelClient id => (DeleteOAuthClient fault id d).1
  | OOCode h c => (CreateOAuthCode fault h c d).1
  | OOConsumeCode h => (ConsumeOAuthCode fault h d).1
  | OORefresh h t => (CreateRefreshToken fault h t d).1
  | OOConsumeRefresh h => (ConsumeRefreshToken fault h d).1
  | OOSession s now => (CreateMCPOAuthSession fault s now d).1
  | OOTouch id exp now => (TouchMCPOAuthSession fault id exp now d).1
  | OORevoke id user => (RevokeMCPOAuthSession fault id user d).1
  | OOAdminRevoke id => (AdminRevokeMCPOAuthSession fault id d).1
  | OORotate old v cand ip ua sexp new nexp now => (RotateRefreshToken fault old v cand ip ua sexp new nexp now d).1
  | OOSweep now => (DeleteExpiredOAuth fault now d).1
  end.

Inductive oauth_step (allowed : oauth_op -> Prop) (d : ODB) : ODB -> Prop :=
  | oauth_step_op fault op : allowed op -> oauth_step allowed d (run_oauth fault op d).

(** An invariant every allowed operation keeps holds along every run. *)
Lemma oauth_run_invariant (allowed : oauth_op -> Prop) (P : ODB -> Prop) d d' :
  (forall fault op d, allowed op -> P d -> P (run_oauth fault op d)) -> rtc (oauth_step allowed) d d' -> P d -> P d'.
Proof. intros HP Hrun. induction Hrun as [|d1 d2 d3 [fault op Hop] _ IH]; [done|]. eauto. Qed.

(** *** What each kind of statement keeps *)
Section Triples.
Context (fault : OQuery -> bool) (P : ODB -> Prop).

Lemma holds_ox q f : (forall d, P d -> P (f d)) -> st_holds P (ox fault q f) (fun _ => P).
Proof. intros Hf d Hd. unfold ox. destruct (fault q); auto. Qed.
Lemma holds_oread {A} q (f : ODB -> result OErr A) (Q : A -> Prop) : (forall d a, P d -> f d = Ok a -> Q a) ->
  st_holds P (oread fault q f) (fun a d => P d /\ Q a).
Proof. intros Hf d Hd. unfold oread, oq. destruct (fault q); [done|]. destruct (f d) eqn:E; [|done]. eauto. Qed.
Lemma holds_oinsert q taken f : (forall d, P d -> taken d = false -> P (f d)) -> st_holds P (oinsert fault q taken f) (fun _ => P).
Proof. intros Hf d Hd. unfold oinsert. destruct (fault q); [done|]. destruct (taken d) eqn:E; auto. Qed.
Lemma holds_otx {A} b c (m : stM ODB OErr A) : st_holds P m (fun _ => P) -> st_holds P (otx fault b c m) (fun _ => P).
Proof.
  intros Hm. apply st_holds_tx. eapply st_holds_bind; [by apply holds_ox|done|]. intros tu.
  eapply st_holds_bind; [exact Hm|done|]. intros r. eapply st_holds_bind; [by apply holds_ox|done|]. intros x. by apply st_holds_ret.
Qed.
Lemma holds_seq {A B} (m : stM ODB OErr A) (k : A -> stM ODB OErr B) :
  st_holds P m (fun _ => P) -> (forall a, st_holds P (k a) (fun _ => P)) -> st_holds P (m ≫= k) (fun _ => P).
Proof. intros Hm Hk. eapply st_holds_bind; [exact Hm|done|exact Hk]. Qed.
End Triples.

#[export] Hint Resolve holds_ox holds_oinsert holds_otx holds_seq st_holds_fail : go.
#[export] Hint Extern 1 (st_holds _ (mret _) _) => (apply st_holds_ret; tauto) : go.

(** One table at a time: a row that is gone stays gone, whatever an operation other
    than its own insertion does. *)
Section Gone.
Context (fault : OQuery -> bool).

Lemma run_holds {A} (P : ODB -> Prop) (m : stM ODB OErr A) d : st_holds P m (fun _ => P) -> P d -> P (m d).1.
Proof. apply st_holds_run. Qed.

Lemma holds_touch P q id exp now :
  (forall d s, osessions d !! id = Some s -> P d -> P (set_osessions (<[id := mkMSession (msID s) (msClientID s) (msUserID s) (msIP s)
     (msUserAgent s) (msCreatedAt s) (rfc3339 now) (rfc3339 exp)]> (osessions d)) d)) ->
  st_holds P (touch_session fault q id exp now) (fun _ => P).
Proof. intros H d Hd. unfold touch_session. destruct (fault q); [done|]. destruct (osessions d !! id) eqn:E; auto. Qed.

Lemma holds_revoke P id mine :
  (forall d, P d -> P (set_osessions (delete id (osessions d)) d)) ->
  (forall d, P d -> P (set_otokens (filter (fun kv : string * _ => rtSessionID kv.2 <> id) (otokens d)) d)) ->
  st_holds P (deleteMCPOAuthSessionTx fault id mine) (fun _ => P).
Proof.
  intros H1 H2. apply holds_otx, holds_seq; [|intros ?; by apply holds_ox].
  intros d Hd. destruct (fault QMDelete); [done|]. destruct (osessions d !! id) as [s|]; [|done]. destruct (mine s); auto.
Qed.

Lemma holds_delete_client P id :
  (forall d, P d -> P (set_oclients (delete id (oclients d)) d)) ->
  (forall d, P d -> P (set_ocodes (filter (fun kv : string * _ => cdClientID kv.2 <> id) (ocodes d)) d)) ->
  (forall d, P d -> P (set_otokens (filter (fun kv : string * _ => rtClientID kv.2 <> id) (otokens d)) d)) ->
  (forall d, P d -> P (set_osessions (filter (fun kv : string * _ => msClientID kv.2 <> id) (osessions d)) d)) ->
  st_holds P (DeleteOAuthClient fault id) (fun _ => P).
Proof.
  intros H1 H2 H3 H4 d Hd. unfold DeleteOAuthClient, ox at 1. destruct (fault QCBegin); [done|].
  destruct (fault QCDelete) eqn:Eq; [done|]. destruct (negb _); [done|]. revert d Hd.
  change (st_holds P (st_tx (ox fault QCDelete (fun d => set_oclients (delete id (oclients d)) d) ≫= fun _ =>
        ox fault QCDelCodes (fun d => set_ocodes (filter (fun kv : string * _ => cdClientID kv.2 <> id) (ocodes d)) d) ≫= fun _ =>
        ox fault QCDelTokens (fun d => set_otokens (filter (fun kv : string * _ => rtClientID kv.2 <> id) (otokens d)) d) ≫= fun _ =>
        ox fault QCDelSessions (fun d => set_osessions (filter (fun kv : string * _ => msClientID kv.2 <> id) (osessions d)) d) ≫= fun _ =>
        ox fault QCCommit (fun d => d) ≫= fun _ => mret true)) (fun _ => P)).
  apply st_holds_tx. repeat (apply holds_seq; [apply holds_ox; auto|intros ?]). by apply st_holds_ret.
Qed.

(** A rotation, for an invariant that may speak of the row being rotated. *)
Lemma holds_rotate P old validate cand ip ua sexp new nexp now :
  (forall d, P d -> P (set_otokens (delete old (otokens d)) d)) ->
  (forall d0 rec, P d0 -> otokens d0 !! old = Some rec ->
     st_holds P (rotate_tail fault rec cand ip ua sexp new nexp now) (fun _ => P)) ->
  st_holds P (RotateRefreshToken fault old validate cand ip ua sexp new nexp now) (fun _ => P).
Proof.
  intros Hdel Htail. apply holds_otx.
  eapply st_holds_bind with (R := fun rec d => P d /\ exists d0, P d0 /\ otokens d0 !! old = Some rec).
  - intros d Hd. unfold select_token, oread, oq. destruct (fault QRSelect); [done|].
    destruct (otokens d !! old) eqn:E; [|done]. eauto.
  - by intros ? ? [? _].
  - intros rec. apply st_holds_pure. intros (d0 & Hd0 & E).
    apply holds_seq; [by apply holds_ox|]. intros x. destruct (validate rec); [by apply st_holds_ret|].
    apply holds_seq; [by eapply Htail|]. intros sid. by apply st_holds_ret.
Qed.

Lemma holds_tail P rec cand ip ua sexp new nexp now :
  let sid := if String.eqb (rtSessionID rec) "" then cand else rtSessionID rec in
  st_holds P (touch_session fault QRTouch sid sexp now) (fun _ => P) ->
  st_holds P (insert_session fault QRCreate (mkMSession sid (rtClientID rec) (rtUserID rec) ip ua 0 0 sexp) now) (fun _ => P) ->
  st_holds P (insert_token fault QRInsert new (mkRefresh (rtClientID rec) (rtUserID rec) (rtScope rec) (rtResource rec) nexp sid)) (fun _ => P) ->
  st_holds P (rotate_tail fault rec cand ip ua sexp new nexp now) (fun _ => P).
Proof.
  intros sid H1 H2 H3. unfold rotate_tail. cbv zeta. fold sid.
  apply holds_seq; [destruct (String.eqb _ _); [by apply st_holds_ret|exact H1]|]. intros there.
  apply holds_seq; [destruct there; [by apply st_holds_ret|exact H2]|]. intros ?.
  apply holds_seq; [exact H3|]. intros x. by apply st_holds_ret.
Qed.

Lemma holds_sweep P now :
  (forall d, P d -> P (set_ocodes (filter (fun kv : string * _ => rfc3339 now <= cdExpiresAt kv.2) (ocodes d)) d)) ->
  (forall d, P d -> P (set_otokens (filter (fun kv : string * _ => rtExpiresAt kv.2 = 0 \/ rfc3339 now <= rtExpiresAt kv.2) (otokens d)) d)) ->
  (forall d, P d -> P (set_osessions (filter (fun kv : string * _ => rfc3339 now <= msExpiresAt kv.2) (osessions d)) d)) ->
  st_holds P (DeleteExpiredOAuth fault now) (fun _ => P).
Proof. intros H1 H2 H3. repeat (apply holds_seq; [by apply holds_ox|intros ?]). by apply holds_ox. Qed.

Lemma holds_consume_code P h : (forall d, P d -> P (set_ocodes (delete h (ocodes d)) d)) -> st_holds P (ConsumeOAuthCode fault h) (fun _ => P).
Proof.
  intros H. apply holds_otx. eapply st_holds_bind; [by apply (holds_oread fault P QKSelect _ (fun _ => True))|by intros ? ? [? _]|].
  intros c. apply st_holds_pure. intros v. apply holds_seq; [by apply holds_ox|]. intros x. by apply st_holds_ret.
Qed.
Lemma holds_consume_token P h : (forall d, P d -> P (set_otokens (delete h (otokens d)) d)) -> st_holds P (ConsumeRefreshToken fault h) (fun _ => P).
Proof.
  intros H. apply holds_otx. eapply st_holds_bind; [by apply (holds_oread fault P QTSelect _ (fun _ => True))|by intros ? ? [? _]|].
  intros c. apply st_holds_pure. intros v. apply holds_seq; [by apply holds_ox|]. intros x. by apply st_holds_ret.
Qed.
End Gone.

(** *** Rows that stay away *)

(** Neither the session nor a refresh token that would carry it on. *)
Definition no_connector (sid : string) (d : ODB) : Prop :=
  osessions d !! sid = None /\ forall h t, otokens d !! h = Some t -> rtSessionID t <> sid.

(** The operations that introduce a session id: an authorization-code grant, and the
    rotation of a token from before sessions had rows, each with an id of its own. *)
Definition introduces (sid : string) (op : oauth_op) : Prop :=
  match op with
  | OORefresh _ t => rtSessionID t = sid
  | OOSession s _ => msID s = sid
  | OORotate _ _ cand _ _ _ _ _ _ => cand = sid
  | _ => False
  end.

Section NoConnector.
Context (fault : OQuery -> bool) (sid : string).

Lemma no_connector_tokens d m : (forall h t, m !! h = Some t -> otokens d !! h = Some t) -> no_connector sid d -> no_connector sid (set_otokens m d).
Proof. intros Hm [H1 H2]. split; [done|]. intros h t Ht. by eapply H2, Hm. Qed.
Lemma no_connector_sessions d m : (forall h t, m !! h = Some t -> osessions d !! h = Some t) -> no_connector sid d -> no_connector sid (set_osessions m d).
Proof.
  intros Hm [H1 H2]. split; [|done]. cbn. destruct (m !! sid) eqn:E; [|done]. apply Hm in E. congruence.
Qed.
Lemma no_connector_new_token d h t : rtSessionID t <> sid -> no_connector sid d -> no_connector sid (set_otokens (<[h := t]> (otokens d)) d).
Proof. intros Ht [H1 H2]. split; [done|]. cbn. intros h' t' [[_ <-]|[_ Hl]]%lookup_insert_Some; [done|by eapply H2]. Qed.
Lemma no_connector_new_session d k s : k <> sid -> no_connector sid d -> no_connector sid (set_osessions (<[k := s]> (osessions d)) d).
Proof. intros Hs [H1 H2]. split; [|done]. cbn. by rewrite lookup_insert_ne. Qed.

Lemma lookup_delete_sub {A} (m : gmap string A) i h t : delete i m !! h = Some t -> m !! h = Some t.
Proof. by intros [_ ?]%lookup_delete_Some. Qed.
Lemma lookup_filter_sub {A} (P : string * A -> Prop) `{forall x, Decision (P x)} (m : gmap string A) h t :
  filter P m !! h = Some t -> m !! h = Some t.
Proof. by intros [? _]%map_lookup_filter_Some. Qed.
#[local] Hint Resolve no_connector_tokens no_connector_sessions no_connector_new_token no_connector_new_session
  lookup_delete_sub lookup_filter_sub : core.

Lemma no_connector_op op : ~ introduces sid op -> forall d, no_connector sid d -> no_connector sid (run_oauth fault op d).
Proof.
  intros Hop d. destruct op as [c now|id|h c|h|h t|h|s now|id exp now|id u|id|old v cand ip ua sexp new nexp now|now]; cbn in Hop |- *;
    apply run_holds.
  - apply holds_oinsert. by intros ? [? ?].
  - apply holds_delete_client; eauto.
  - apply holds_oinsert. by intros ? [? ?].
  - apply holds_consume_code. by intros ? [? ?].
  - apply holds_oinsert. eauto.
  - apply holds_consume_token. eauto.
  - apply holds_oinsert. eauto.
  - apply holds_seq; [|intros []; [by apply st_holds_ret|apply st_holds_fail]]. apply holds_touch.
    intros d1 s Hs [H1 H2]. split; [|done]. cbn. rewrite lookup_insert_ne; [done|]. intros ->. congruence.
  - apply holds_revoke; eauto.
  - apply holds_revoke; eauto.
  - apply holds_rotate; [eauto|]. intros d0 rec Hd0 Hrec.
    assert (Hsid : (if String.eqb (rtSessionID rec) "" then cand else rtSessionID rec) <> sid).
    { destruct (String.eqb _ _); [done|]. by eapply (proj2 Hd0). }
    apply holds_tail.
    + apply holds_touch. eauto.
    + apply holds_oinsert. eauto.
    + apply holds_oinsert. eauto.
  - apply holds_sweep; eauto.
Qed.
End NoConnector.

(** C20: a revoked connector stays revoked.  Once a session has been revoked, by its
    owner or an administrator, no interleaving of statements by other requests --
    refreshes of any token, grants, sweeps, failures included -- makes it exist
    again or leaves a refresh token that could: a refresh that runs at the same
    time lands wholly before the revocation or finds its token gone. *)
Theorem revoked_connector_stays_out fault fault' sid d d1 d2 user :
  (exists u, RevokeMCPOAuthSession fault sid u d = (d1, Ok tt)) \/ AdminRevokeMCPOAuthSession fault sid d = (d1, Ok tt) ->
  rtc (oauth_step (fun op => ~ introduces sid op)) d1 d2 ->
  no_connector sid d2 /\ MCPOAuthSessionExists fault' sid user d2 <> Ok true.
Proof.
  intros Hrev Hrun. assert (H1 : no_connector sid d1).
  { assert (Hd : forall mine, deleteMCPOAuthSessionTx fault sid mine d = (d1, Ok tt) -> no_connector sid d1).
    { intros mine. unfold deleteMCPOAuthSessionTx, otx, st_tx, ox, mbind, stM_bind, id. cbn.
      destruct (fault QMBegin); [done|]. destruct (fault QMDelete); [done|]. destruct (osessions d !! sid); [|done].
      destruct (mine _); [|done]. destruct (fault QMTokens); [done|]. destruct (fault QMCommit); [done|]. intros [= <-].
      split; [apply lookup_delete_eq|]. cbn. by intros h t [_ ?]%map_lookup_filter_Some. }
    destruct Hrev as [[u Hrev]|Hrev]; by eapply Hd. }
  apply (oauth_run_invariant _ (no_connector sid)) in Hrun; [|by intros f op d0 Hop; apply no_connector_op|exact H1].
  split; [done|].
  unfold MCPOAuthSessionExists, oq. destruct (fault' QMExists); [done|]. by destruct Hrun as [-> _].
Qed.

Definition demo_odb : ODB :=
  mkODB {[ "client" := mkClient "client" "Assistant" ["https://a.example/cb"] 0 ]}
    {[ "code-1" := mkCode "client" 7 "https://a.example/cb" "ch" "r" "mcp" 100 ]}
    {[ "hash-1" := mkRefresh "client" 7 "mcp" "r" 0 "conn-1" ]} {[ "conn-1" := mkMSession "conn-1" "client" 7 "" "" 0 0 0 ]}.
Definition no_ofault : OQuery -> bool := fun _ => false.
Definition demo_rotate : oauth_op := OORotate "hash-1" (fun _ => None) "conn-2" "" "" 0 "hash-2" 0 0.

Example revoked_connector_stays_out_witness :
  let d1 := (RevokeMCPOAuthSession no_ofault "conn-1" 7 demo_odb).1 in
  no_connector "conn-1" (run_oauth no_ofault demo_rotate d1) /\
  MCPOAuthSessionExists no_ofault "conn-1" 7 (run_oauth no_ofault demo_rotate d1) <> Ok true.
Proof.
  cbv zeta. apply (revoked_connector_stays_out no_ofault no_ofault "conn-1" demo_odb (RevokeMCPOAuthSession no_ofault "conn-1" 7 demo_odb).1).
  - left. exists 7. reflexivity.
  - apply rtc_once, oauth_step_op. discriminate.
Defined.

(** *** Single use *)
Definition no_code (h : string) (d : ODB) : Prop := ocodes d !! h = None.
Definition no_token (h : string) (d : ODB) : Prop := otokens d !! h = None.

Section SingleUse.
Context (fault : OQuery -> bool) (h : string).

Lemma gone_delete {A} (m : gmap string A) i : m !! h = None -> delete i m !! h = None.
Proof. intros H. apply lookup_delete_None. by right. Qed.
Lemma gone_filter {A} (P : string * A -> Prop) `{forall x, Decision (P x)} (m : gmap string A) : m !! h = None -> filter P m !! h = None.
Proof. intros H1. apply map_lookup_filter_None. by left. Qed.
Lemma gone_insert {A} (m : gmap string A) i x : i <> h -> m !! h = None -> <[i := x]> m !! h = None.
Proof. intros Hi Hm. by rewrite lookup_insert_ne. Qed.
#[local] Hint Resolve gone_delete gone_filter gone_insert : core.

Lemma no_code_op op : (forall c, op <> OOCode h c) -> forall d, no_code h d -> no_code h (run_oauth fault op d).
Proof.
  intros Hop d. destruct op as [c now|id|k c|k|k t|k|s now|id exp now|id u|id|old v cand ip ua sexp new nexp now|now]; cbn;
    apply run_holds; unfold no_code.
  - by apply holds_oinsert.
  - apply holds_delete_client; intros d1 Hd; cbn; auto.
  - apply holds_oinsert. intros d1 H _. cbn. apply gone_insert; [|done]. intros ->. by destruct (Hop c).
  - apply holds_consume_code. intros d1 Hd. cbn. auto.
  - by apply holds_oinsert.
  - by apply holds_consume_token.
  - by apply holds_oinsert.
  - apply holds_seq; [by apply holds_touch|intros []; [by apply st_holds_ret|apply st_holds_fail]].
  - by apply holds_revoke.
  - by apply holds_revoke.
  - apply holds_rotate; [done|]. intros d0 rec _ _. apply holds_tail; [by apply holds_touch|by apply holds_oinsert..].
  - apply holds_sweep; intros d1 Hd; cbn; auto.
Qed.

Definition stores_token (op : oauth_op) : Prop :=
  match op with OORefresh k _ => k = h | OORotate _ _ _ _ _ _ new _ _ => new = h | _ => False end.

Lemma no_token_op op : ~ stores_token op -> forall d, no_token h d -> no_token h (run_oauth fault op d).
Proof.
  intros Hop d. destruct op as [c now|id|k c|k|k t|k|s now|id exp now|id u|id|old v cand ip ua sexp new nexp now|now]; cbn in Hop |- *;
    apply run_holds; unfold no_token.
  - by apply holds_oinsert.
  - apply holds_delete_client; intros d1 Hd; cbn; auto.
  - by apply holds_oinsert.
  - by apply holds_consume_code.
  - apply holds_oinsert. intros d1 H _. cbn. auto.
  - apply holds_consume_token. intros d1 Hd. cbn. auto.
  - by apply holds_oinsert.
  - apply holds_seq; [by apply holds_touch|intros []; [by apply st_holds_ret|apply st_holds_fail]].
  - apply holds_revoke; intros d1 Hd; cbn; auto.
  - apply holds_revoke; intros d1 Hd; cbn; auto.
  - apply holds_rotate; [intros d1 Hd; cbn; auto|]. intros d0 rec _ _.
    apply holds_tail; [by apply holds_touch|by apply holds_oinsert|]. apply holds_oinsert. intros d1 H _. cbn. auto.
  - apply holds_sweep; intros d1 Hd; cbn; auto.
Qed.
End SingleUse.

Lemma ConsumeOAuthCode_inv fault h d d1 c : ConsumeOAuthCode fault h d = (d1, Ok c) ->
  ocodes d !! h = Some c /\ d1 = set_ocodes (delete h (ocodes d)) d.
Proof.
  unfold ConsumeOAuthCode, otx, st_tx, oread, oq, ox, mbind, stM_bind, id. destruct (fault QKBegin); [done|].
  destruct (fault QKSelect); [done|]. destruct (ocodes d !! h) as [c0|]; [|done]. destruct (fault QKDelete); [done|].
  destruct (fault QKCommit); [done|]. by intros [= <- <-].
Qed.

(** an authorization code is redeemed once.  After a request has consumed a code,
    none succeeds in consuming it again, however requests interleave, unless the very
    same code is issued anew. *)
Theorem code_redeemed_once fault fault' h d d1 d2 c :
  ConsumeOAuthCode fault h d = (d1, Ok c) -> rtc (oauth_step (fun op => forall c, op <> OOCode h c)) d1 d2 ->
  is_ok (ConsumeOAuthCode fault' h d2).2 = false.
Proof.
  intros [_ ->]%ConsumeOAuthCode_inv Hrun.
  apply (oauth_run_invariant _ (no_code h)) in Hrun; [|by intros f op d0 Hop; apply no_code_op|apply lookup_delete_eq].
  destruct (ConsumeOAuthCode fault' h d2) as [d3 [c2|e]] eqn:E; [|done]. apply ConsumeOAuthCode_inv in E as [E _]. by rewrite Hrun in E.
Qed.

Example code_redeemed_once_witness :
  is_ok (ConsumeOAuthCode no_ofault "code-1" (ConsumeOAuthCode no_ofault "code-1" demo_odb).1).2 = false.
Proof.
  apply (code_redeemed_once no_ofault no_ofault "code-1" demo_odb (ConsumeOAuthCode no_ofault "code-1" demo_odb).1 _
    (mkCode "client" 7 "https://a.example/cb" "ch" "r" "mcp" 100)); [reflexivity|apply rtc_refl].
Defined.

(** *** Rotation *)

Lemma ox_ok fault q f d d' u : ox fault q f d = (d', Ok u) -> d' = f d.
Proof. unfold ox. destruct (fault q); [done|]. by intros [= <-]. Qed.
Lemma oread_ok {A} fault q (f : ODB -> result OErr A) d d' a : oread fault q f d = (d', Ok a) -> d' = d /\ f d = Ok a.
Proof. unfold oread, oq. destruct (fault q); [done|]. by intros [= <- <-]. Qed.
Lemma oinsert_ok fault q taken f d d' u : oinsert fault q taken f d = (d', Ok u) -> taken d = false /\ d' = f d.
Proof. unfold oinsert. destruct (fault q); [done|]. destruct (taken d); [done|]. by intros [= <-]. Qed.
Lemma otx_ok {A} fault b c (m : stM ODB OErr A) d d' a : otx fault b c m d = (d', Ok a) -> m d = (d', Ok a).
Proof.
  intros H%st_tx_ok. apply st_bind_ok in H as (s1 & u & ->%ox_ok & H). apply st_bind_ok in H as (s2 & x & Hm & H).
  apply st_bind_ok in H as (s3 & v & ->%ox_ok & H). apply st_ret_ok in H as [-> ->]. exact Hm.
Qed.
Lemma has_false {A} (m : gmap string A) k : has m k = false -> m !! k = None.
Proof. unfold has. intros H%bool_decide_eq_false. by apply eq_None_not_Some. Qed.
Lemma touch_session_ok fault q id exp now d d' b : touch_session fault q id exp now d = (d', Ok b) ->
  match osessions d !! id with
  | Some s => b = true /\ d' = set_osessions (<[id := mkMSession (msID s) (msClientID s) (msUserID s) (msIP s) (msUserAgent s) (msCreatedAt s)
                                             (rfc3339 now) (rfc3339 exp)]> (osessions d)) d
  | None => b = false /\ d' = d
  end.
Proof. unfold touch_session. destruct (fault q); [done|]. by destruct (osessions d !! id); intros [= <- <-]. Qed.

Lemma rotate_tail_ok fault rec cand ip ua sexp new nexp now d d' sid :
  rotate_tail fault rec cand ip ua sexp new nexp now d = (d', Ok sid) ->
  sid = (if String.eqb (rtSessionID rec) "" then cand else rtSessionID rec) /\
  oclients d' = oclients d /\ ocodes d' = ocodes d /\ otokens d !! new = None /\
  otokens d' = <[new := mkRefresh (rtClientID rec) (rtUserID rec) (rtScope rec) (rtResource rec) (stored_expiry nexp) sid]> (otokens d) /\
  exists s, osessions d' = <[sid := s]> (osessions d) /\ msExpiresAt s = rfc3339 sexp /\ msLastUsedAt s = rfc3339 now /\
    match osessions d !! sid with
    | Some s0 => msUserID s = msUserID s0 /\ msClientID s = msClientID s0
    | None => msUserID s = rtUserID rec /\ msClientID s = rtClientID rec
    end.
Proof.
  unfold rotate_tail. cbv zeta. set (sid0 := if String.eqb (rtSessionID rec) "" then cand else rtSessionID rec). intros H.
  apply st_bind_ok in H as (d1 & there & Ht & H). apply st_bind_ok in H as (d2 & u & Hc & H).
  apply st_bind_ok in H as (d3 & v & Hi & H). apply st_ret_ok in H as [-> ->].
  assert (Hses : exists s, d2 = set_osessions (<[sid0 := s]> (osessions d)) d /\ msExpiresAt s = rfc3339 sexp /\ msLastUsedAt s = rfc3339 now /\
    match osessions d !! sid0 with
    | Some s0 => msUserID s = msUserID s0 /\ msClientID s = msClientID s0
    | None => msUserID s = rtUserID rec /\ msClientID s = rtClientID rec
    end).
  { assert (Hnew : d1 = d -> there = false -> exists s, d2 = set_osessions (<[sid0 := s]> (osessions d)) d /\
      msExpiresAt s = rfc3339 sexp /\ msLastUsedAt s = rfc3339 now /\ osessions d !! sid0 = None /\ msUserID s = rtUserID rec /\ msClientID s = rtClientID rec).
    { intros -> ->. apply oinsert_ok in Hc as [Hn%has_false ->]. eexists. repeat split. exact Hn. }
    destruct (String.eqb _ _).
    - apply st_ret_ok in Ht as [-> ->]. destruct (Hnew eq_refl eq_refl) as (s & -> & ? & ? & -> & ? & ?). eauto 10.
    - apply touch_session_ok in Ht. destruct (osessions d !! sid0) as [s0|] eqn:E.
      + destruct Ht as [-> ->]. apply st_ret_ok in Hc as [-> _]. eexists. repeat split.
      + destruct Ht as [-> ->]. destruct (Hnew eq_refl eq_refl) as (s & -> & ? & ? & _ & ? & ?). eauto 10. }
  destruct Hses as (s & -> & H1 & H2 & H3). apply oinsert_ok in Hi as [Hn%has_false ->]. cbn in Hn |- *. eauto 15.
Qed.

(** a refresh is all or nothing.  It either leaves every table as it was; or, when
    the caller's check refuses the token, removes exactly that token; or trades it
    for exactly one new token of the same client, account, scope and audience, bound
    to the same session, whose row is then there with the new expiry. *)
Theorem rotation_exact fault old validate cand ip ua sexp new nexp now d :
  match RotateRefreshToken fault old validate cand ip ua sexp new nexp now d with
  | (d', Err _) => d' = d
  | (d', Ok (rec, Err e)) => otokens d !! old = Some rec /\ validate rec = Some e /\ d' = set_otokens (delete old (otokens d)) d
  | (d', Ok (rec, Ok sid)) =>
      otokens d !! old = Some rec /\ validate rec = None /\
      sid = (if String.eqb (rtSessionID rec) "" then cand else rtSessionID rec) /\
      oclients d' = oclients d /\ ocodes d' = ocodes d /\
      delete old (otokens d) !! new = None /\
      otokens d' = <[new := mkRefresh (rtClientID rec) (rtUserID rec) (rtScope rec) (rtResource rec) (stored_expiry nexp) sid]>
                     (delete old (otokens d)) /\
      exists s, osessions d' = <[sid := s]> (osessions d) /\ msExpiresAt s = rfc3339 sexp /\ msLastUsedAt s = rfc3339 now /\
        match osessions d !! sid with
        | Some s0 => msUserID s = msUserID s0 /\ msClientID s = msClientID s0
        | None => msUserID s = rtUserID rec /\ msClientID s = rtClientID rec
        end
  end.
Proof.
  destruct (RotateRefreshToken _ _ _ _ _ _ _ _ _ _ _) as [d' [[rec r]|e]] eqn:H; [|by eapply st_tx_err].
  apply otx_ok, st_bind_ok in H as (d1 & rec1 & [-> Hs]%oread_ok & H). apply st_bind_ok in H as (d2 & u & ->%ox_ok & H).
  destruct (otokens d !! old) as [rec0|]; [|done]. injection Hs as ->. destruct (validate rec1) as [e|] eqn:Ev.
  - apply st_ret_ok in H as [-> [= -> ->]]. auto.
  - apply st_bind_ok in H as (d3 & sid & Ht & H). apply st_ret_ok in H as [-> [= -> ->]].
    apply rotate_tail_ok in Ht. cbn in Ht. tauto.
Qed.

Lemma rotate_consumes fault old v c ip ua se new ne now d d1 r :
  RotateRefreshToken fault old v c ip ua se new ne now d = (d1, Ok r) -> new <> old -> no_token old d1.
Proof.
  intros H Hne. apply otx_ok, st_bind_ok in H as (d2 & rec & [-> Hs]%oread_ok & H). apply st_bind_ok in H as (d3 & u & ->%ox_ok & H).
  destruct (v rec).
  - apply st_ret_ok in H as [-> _]. apply lookup_delete_eq.
  - apply st_bind_ok in H as (d4 & sid & Ht & H). apply st_ret_ok in H as [-> _]. apply rotate_tail_ok in Ht as (_ & _ & _ & _ & Ht & _).
    unfold no_token. rewrite Ht, lookup_insert_ne by done. apply lookup_delete_eq.
Qed.

(** a refresh token works once.  Once presented, whether the refresh went through
    or was refused for its expiry, client or audience, it is never accepted again,
    unless a token with the very same hash is stored anew. *)
Theorem refresh_token_used_once fault fault' old v v' c c' ip ip' ua ua' se se' new new' ne ne' now now' d d1 d2 r :
  RotateRefreshToken fault old v c ip ua se new ne now d = (d1, Ok r) -> new <> old ->
  rtc (oauth_step (fun op => ~ stores_token old op)) d1 d2 ->
  is_ok (RotateRefreshToken fault' old v' c' ip' ua' se' new' ne' now' d2).2 = false.
Proof.
  intros H Hne Hrun. pose proof (rotate_consumes fault old v c ip ua se new ne now d d1 r H Hne) as Hg.
  apply (oauth_run_invariant _ (no_token old)) in Hrun; [|by intros f op d0 Hop; apply no_token_op|exact Hg].
  destruct (RotateRefreshToken fault' _ _ _ _ _ _ _ _ _ d2) as [d3 [x|e]] eqn:E; [|done].
  apply otx_ok, st_bind_ok in E as (? & rec & [-> Hs]%oread_ok & _). by rewrite Hrun in Hs.
Qed.

Example refresh_token_used_once_witness :
  let d1 := run_oauth no_ofault demo_rotate demo_odb in
  is_ok (RotateRefreshToken no_ofault "hash-1" (fun _ => None) "x" "" "" 0 "hash-3" 0 0 d1).2 = false.
Proof.
  cbv zeta. eapply (refresh_token_used_once no_ofault no_ofault "hash-1" (fun _ => None) _ "conn-2" _ "" _ "" _ 0 _ "hash-2" _ 0 _ 0 _ demo_odb);
    [apply injective_projections; [reflexivity|vm_compute; reflexivity]|discriminate|apply rtc_refl].
Defined.

(** *** De-registration *)
Definition no_client (cid : string) (d : ODB) : Prop := oclients d !! cid = None.

Lemma no_client_op fault cid op : (forall c now, op = OOClient c now -> ocID c <> cid) ->
  forall d, no_client cid d -> no_client cid (run_oauth fault op d).
Proof.
  intros Hop d. destruct op as [c now|id|k c|k|k t|k|s now|id exp now|id u|id|old v cand ip ua sexp new nexp now|now]; cbn;
    apply run_holds; unfold no_client.
  - apply holds_oinsert. intros d1 H _. cbn. rewrite lookup_insert_ne; [done|]. by apply (Hop c now).
  - apply holds_delete_client; try done. intros d1 Hd. by apply gone_delete.
  - by apply holds_oinsert.
  - by apply holds_consume_code.
  - by apply holds_oinsert.
  - by apply holds_consume_token.
  - by apply holds_oinsert.
  - apply holds_seq; [by apply holds_touch|intros []; [by apply st_holds_ret|apply st_holds_fail]].
  - by apply holds_revoke.
  - by apply holds_revoke.
  - apply holds_rotate; [done|]. intros d0 rec _ _. apply holds_tail; [by apply holds_touch|by apply holds_oinsert..].
  - by apply holds_sweep.
Qed.

(** A de-registration that reported success took the client with its codes, tokens
    and sessions. *)
Lemma delete_client_gone fault cid d d1 : DeleteOAuthClient fault cid d = (d1, Ok true) ->
  no_client cid d1 /\ (forall h c, ocodes d1 !! h = Some c -> cdClientID c <> cid) /\
  (forall h t, otokens d1 !! h = Some t -> rtClientID t <> cid) /\ (forall h s, osessions d1 !! h = Some s -> msClientID s <> cid).
Proof.
  unfold DeleteOAuthClient, ox at 1. destruct (fault QCBegin); [done|]. destruct (fault QCDelete); [done|]. destruct (negb _); [done|].
  intros H%st_tx_ok. repeat (apply st_bind_ok in H as (? & ? & ->%ox_ok & H)). apply st_ret_ok in H as [-> _]. unfold no_client. cbn.
  split; [apply lookup_delete_eq|]. repeat split; intros h x [_ Hx]%map_lookup_filter_Some; exact Hx.
Qed.
