(* ===== verification/ApiTokens.v ===== *)
(** * Long-lived MCP tokens (internal/store/api_tokens.go, mcp_policy.go, the JSON
    columns of users.go, internal/api/mcp_token_handlers.go)

    The table, the lifetime policy, and the handlers a user manages tokens with. *)
From S2P Require Import Prelude GoStrings Users Roles RoleHandlers Calendar Accounts.

(** ** Data *)
Record APIToken := mkToken {
  atID : Z; atUserID : Z; atTokenHash : string; atName : string; atSections : list string; atHostIDs : list Z;
  atReadOnly : bool; atCreatedAt : Z; atLastUsedAt : Z; atExpiresAt : Z; atRevoked : bool
}.

(** (t *APIToken) Expired *)
Definition Expired (now : Z) (t : APIToken) : bool := negb (IsZero (atExpiresAt t)) && After now (atExpiresAt t).

(** ** Lifetime policy (mcp_policy.go) *)
Record MCPTokenPolicy := mkPolicy { DefaultDays : Z; MaxDays : Z; AllowUnlimited : bool }.
Definition defaultMCPTokenDays : Z := 30.
Definition defaultMCPTokenMaxDays : Z := 365.
Definition absoluteMaxTokenDays : Z := 100 * 365.
Definition DefaultMCPTokenPolicy : MCPTokenPolicy := mkPolicy defaultMCPTokenDays defaultMCPTokenMaxDays false.

Definition normalizeMCPTokenPolicy (p : MCPTokenPolicy) : MCPTokenPolicy :=
  let dflt := if DefaultDays p <=? 0 then defaultMCPTokenDays else DefaultDays p in
  let max := if MaxDays p <? 0 then 0 else MaxDays p in
  let max := if negb (AllowUnlimited p) && (max =? 0) then defaultMCPTokenMaxDays else max in
  mkPolicy (if (0 <? max) && (max <? dflt) then max else dflt) max (AllowUnlimited p).

Inductive ExpiryErr := ErrTokenNeverForbidden | TokenLifetimeError (max : Z).

(** time.Duration(days) * 24 * time.Hour is an int64 of nanoseconds. *)
Definition ResolveExpiry (p : MCPTokenPolicy) (requestedDays : Z) (never : bool) (now : Z) : result ExpiryErr Z :=
  if never then if negb (AllowUnlimited p) then Err ErrTokenNeverForbidden else Ok 0
  else
    let days := if requestedDays <=? 0 then DefaultDays p else requestedDays in
    if (0 <? MaxDays p) && (MaxDays p <? days) then Err (TokenLifetimeError (MaxDays p))
    else if absoluteMaxTokenDays <? days then Err (TokenLifetimeError absoluteMaxTokenDays)
    else Ok (now + wrap64 (wrap64 (days * 24) * hour)).

(** The settings row of the policy: absent, or what its JSON decodes to over the
    default, [None] when it does not. *)
Definition policy_row : Type := option (option MCPTokenPolicy).

(** ** The table *)
Record TDB := mkTDB { api_tokens : list APIToken; token_seq : Z; token_policy : policy_row }.
Definition set_tokens l d := mkTDB l (token_seq d) (token_policy d).

Inductive TQuery := QTkInsert | QTkByHash | QTkList | QTkListAll | QTkRevoke | QTkAdminRevoke | QTkTouch | QTkPolicy | QTkSetPolicy.

(** APITokenWithUser *)
Definition APITokenWithUser : Type := APIToken * string.

Section Tokens.
Context (fault : TQuery -> bool).

Definition tq {A} (q : TQuery) (f : TDB -> result StoreErr A) (d : TDB) : result StoreErr A := if fault q then Err ErrDB else f d.

Definition stored_time (t : Z) : Z := if IsZero t then 0 else rfc3339 t.

Definition CreateAPIToken (t : APIToken) (now : Z) : stM TDB StoreErr Z := fun d =>
  if fault QTkInsert then (d, Err ErrDB)
  else if existsb (fun x => String.eqb (atTokenHash x) (atTokenHash t)) (api_tokens d) then (d, Err ErrUnique)
  else
    let id := token_seq d + 1 in
    (mkTDB (api_tokens d ++ [mkToken id (atUserID t) (atTokenHash t) (atName t) (atSections t) (atHostIDs t) (atReadOnly t)
                               (rfc3339 now) 0 (stored_time (atExpiresAt t)) false]) id (token_policy d), Ok id).

(** What a row reads back as: the host_ids column is fetched and left out of the result. *)
Definition scanAPITokenRow (t : APIToken) : APIToken :=
  mkToken (atID t) (atUserID t) (atTokenHash t) (atName t) (atSections t) [] (atReadOnly t) (atCreatedAt t) (atLastUsedAt t)
    (atExpiresAt t) (atRevoked t).

Definition APITokenByHash (hash : string) (d : TDB) : result StoreErr APIToken :=
  tq QTkByHash (fun d => match list_find (fun t => atTokenHash t = hash /\ atRevoked t = false) (api_tokens d) with
                         | Some (_, t) => Ok (scanAPITokenRow t)
                         | None => Err ErrNotFound
                         end) d.

(** ORDER BY id DESC *)
Definition token_ge (a b : APIToken) : Prop := atID b <= atID a.
#[export] Instance token_ge_dec : RelDecision token_ge.
Proof. intros a b. unfold token_ge. apply _. Defined.

Definition ListAPITokens (user : Z) (d : TDB) : result StoreErr (list APIToken) :=
  tq QTkList (fun d => Ok (scanAPITokenRow <$> merge_sort token_ge (filter (fun t : APIToken => atUserID t = user) (api_tokens d)))) d.

(** The join drops the tokens of deleted accounts; the hash is not selected. *)
Definition ListAllAPITokens (users : list User) (d : TDB) : result StoreErr (list APITokenWithUser) :=
  tq QTkListAll (fun d => Ok (omap (fun t =>
    match list_find (fun u => ID u = atUserID t) users with
    | Some (_, u) => Some (mkToken (atID t) (atUserID t) "" (atName t) (atSections t) (atHostIDs t) (atReadOnly t) (atCreatedAt t)
                             (atLastUsedAt t) (atExpiresAt t) (atRevoked t), Username u)
    | None => None
    end) (merge_sort token_ge (api_tokens d)))) d.

Definition revoked (t : APIToken) : APIToken :=
  mkToken (atID t) (atUserID t) (atTokenHash t) (atName t) (atSections t) (atHostIDs t) (atReadOnly t) (atCreatedAt t)
    (atLastUsedAt t) (atExpiresAt t) true.

(** UPDATE … SET revoked = 1 WHERE …; whether a row matched *)
Definition revoke_where (q : TQuery) (hit : APIToken -> bool) : stM TDB StoreErr bool := fun d =>
  if fault q then (d, Err ErrDB)
  else (set_tokens ((fun t => if hit t then revoked t else t) <$> api_tokens d) d, Ok (existsb hit (api_tokens d))).
Definition AdminRevokeAPIToken (id : Z) : stM TDB StoreErr bool :=
  revoke_where QTkAdminRevoke (fun t => (atID t =? id) && negb (atRevoked t)).
Definition RevokeAPIToken (id user : Z) : stM TDB StoreErr bool :=
  revoke_where QTkRevoke (fun t => (atID t =? id) && (atUserID t =? user) && negb (atRevoked t)).

Definition TouchAPIToken (id now : Z) : stM TDB StoreErr () := fun d =>
  if fault QTkTouch then (d, Err ErrDB)
  else (set_tokens ((fun t => if atID t =? id
          then mkToken (atID t) (atUserID t) (atTokenHash t) (atName t) (atSections t) (atHostIDs t) (atReadOnly t) (atCreatedAt t)
                 (rfc3339 now) (atExpiresAt t) (atRevoked t) else t) <$> api_tokens d) d, Ok tt).

Definition read_policy (d : TDB) : result StoreErr MCPTokenPolicy :=
  tq QTkPolicy (fun d => Ok match token_policy d with
                            | None => DefaultMCPTokenPolicy
                            | Some None => DefaultMCPTokenPolicy
                            | Some (Some p) => normalizeMCPTokenPolicy p
                            end) d.
Definition SetMCPTokenPolicy (p : MCPTokenPolicy) : stM TDB StoreErr () := fun d =>
  if fault QTkSetPolicy then (d, Err ErrDB)
  else (mkTDB (api_tokens d) (token_seq d) (Some (Some (normalizeMCPTokenPolicy p))), Ok tt).
End Tokens.

(** ** Handlers *)

(** cleanSections (user_handlers.go) keeps only valid section keys. *)
Definition cleanSections (l : list string) : list string := filter (fun s => ValidSection s = true) l.

(** cleanHostIDs: no id twice, none that is not positive. *)
Definition cleanHostIDs (l : list Z) : list Z := clean_hosts ∅ l.

Record tokenBody := mkTokenBody {
  tbName : string; tbReadOnly : bool; tbSections : list string; tbHostIDs : list Z; tbExpiresInDays : Z; tbNeverExpires : bool
}.
Record TState := mkTState { tdb : TDB; taudit : list audit_line; tticks : nat }.

Inductive TResp :=
  | TErr (status : Z) (msg : string)
  | TExpiry (e : ExpiryErr)                    (* 400 with the error's text *)
  | TOk
  | TPolicy (p : MCPTokenPolicy)
  | TList (l : list APIToken)
  | TCreated (id : Z) (secret : string) (name : string) (sections : list string) (readOnly : bool).

Definition taudited (action target detail : string) (s : TState) : TState :=
  mkTState (tdb s) (taudit s ++ [(action, target, detail)]) (tticks s).
Definition ttick (s : TState) : TState := mkTState (tdb s) (taudit s) (S (tticks s)).
Definition set_tdb d (s : TState) : TState := mkTState d (taudit s) (tticks s).

Section TokenHandlers.
Context (fault : TQuery -> bool) (clock : nat -> Z) (randToken : nat -> string) (hashToken : string -> string).
Context (userByID : Z -> result StoreErr User) (effectiveSections : User -> result StoreErr (list string)).

Definition handleListMCPTokens (caller : Z) (s : TState) : TState * TResp :=
  match ListAPITokens fault caller (tdb s) with
  | Err _ => (s, TErr 500 "could not list tokens")
  | Ok toks => (s, TList (filter (fun t => (atRevoked t || Expired (clock (tticks s)) t) = false) toks))
  end.

Definition handleAdminGetMCPTokenPolicy (s : TState) : TState * TResp :=
  match read_policy fault (tdb s) with
  | Err _ => (s, TErr 500 "could not read the token policy")
  | Ok p => (s, TPolicy p)
  end.

Definition policy_detail (p : MCPTokenPolicy) : string :=
  "default " +:+ FormatInt (DefaultDays p) +:+ "d, max " +:+ FormatInt (MaxDays p) +:+ "d, never-expiring " +:+
  (if AllowUnlimited p then "true" else "false").

Definition handleAdminSetMCPTokenPolicy (body : option MCPTokenPolicy) (s : TState) : TState * TResp :=
  match body with
  | None => (s, TErr 400 "invalid request body")
  | Some p =>
      match SetMCPTokenPolicy fault p (tdb s) with
      | (d, Err _) => (set_tdb d s, TErr 500 "could not save the token policy")
      | (d, Ok _) =>
          match read_policy fault d with
          | Err _ => (set_tdb d s, TErr 500 "could not read the token policy")
          | Ok saved => (taudited "mcp.token_policy.update" "" (policy_detail saved) (set_tdb d s), TPolicy saved)
          end
      end
  end.

(** The sections a token may name: those of the request the owner effectively has. *)
Definition token_sections (u : User) (requested : list string) : result StoreErr (list string) :=
  if IsAdmin u then Ok requested
  else effective ← effectiveSections u; Ok (filter (fun s => one_of s effective = true) requested).

Definition handleCreateMCPToken (caller : Z) (body : option tokenBody) (s : TState) : TState * TResp :=
  match userByID caller, body with
  | Err _, _ => (s, TErr 401 "unauthorized")
  | Ok _, None => (s, TErr 400 "invalid request body")
  | Ok u, Some b =>
      let name := TrimSpace (tbName b) in
      if String.eqb name "" then (s, TErr 400 "name is required")
      else
        let requested := cleanSections (tbSections b) in
        match token_sections u requested with
        | Err _ => (s, TErr 500 "could not determine your permissions")
        | Ok sections =>
            if match requested, sections with _ :: _, [] => true | _, _ => false end
            then (s, TErr 400 "none of the requested sections are granted to your account, so this token would not be scoped to anything")
            else
              let hostIDs := cleanHostIDs (tbHostIDs b) in
              if match tbHostIDs b, hostIDs with _ :: _, [] => true | _, _ => false end
              then (s, TErr 400 "the requested host scope contains no valid host ids")
              else
                let readOnly := tbReadOnly b || ReadOnly u in
                match read_policy fault (tdb s) with
                | Err _ => (s, TErr 500 "could not read the token policy")
                | Ok policy =>
                    match ResolveExpiry policy (tbExpiresInDays b) (tbNeverExpires b) (clock (tticks s)) with
                    | Err e => (ttick s, TExpiry e)
                    | Ok expiresAt =>
                        let secret := randToken (tticks s) in
                        match CreateAPIToken fault (mkToken 0 (ID u) (hashToken secret) name sections hostIDs readOnly 0 0 expiresAt false)
                                (clock (S (tticks s))) (tdb s) with
                        | (d, Err _) => (ttick (ttick (set_tdb d s)), TErr 500 "could not create token")
                        | (d, Ok id) =>
                            (taudited "mcp.token.create" (FormatInt id) name (ttick (ttick (set_tdb d s))),
                             TCreated id secret name sections readOnly)
                        end
                    end
                end
        end
  end.


Definition handleRevokeMCPToken (caller : Z) (param : string) (s : TState) : TState * TResp :=
  match RevokeAPIToken fault (ParseIntValue param) caller (tdb s) with
  | (d, Err _) => (set_tdb d s, TErr 500 "could not revoke token")
  | (d, Ok false) => (set_tdb d s, TErr 404 "token not found")
  | (d, Ok true) => (taudited "mcp.token.revoke" param "" (set_tdb d s), TOk)
  end.

Definition handleAdminRevokeMCPToken (param : string) (s : TState) : TState * TResp :=
  match AdminRevokeAPIToken fault (ParseIntValue param) (tdb s) with
  | (d, Err _) => (set_tdb d s, TErr 500 "could not revoke token")
  | (d, Ok false) => (set_tdb d s, TErr 404 "token not found")
  | (d, Ok true) => (taudited "mcp.admin.token.revoke" param "" (set_tdb d s), TOk)
  end.
End TokenHandlers.

(** ** Lifetimes *)

(** A policy no caller can contradict: its default is a lifetime it allows, and
    without unlimited tokens it has a ceiling. *)
Definition coherent (p : MCPTokenPolicy) : Prop :=
  0 < DefaultDays p /\ 0 <= MaxDays p /\ (MaxDays p = 0 -> AllowUnlimited p = true) /\
  (0 < MaxDays p -> DefaultDays p <= MaxDays p).

Lemma normalize_coherent p : coherent (normalizeMCPTokenPolicy p).
Proof.
  destruct p as [d m u]. unfold coherent, normalizeMCPTokenPolicy, defaultMCPTokenDays, defaultMCPTokenMaxDays. cbn.
  destruct (d <=? 0) eqn:E1; destruct (m <? 0) eqn:E2; destruct u; cbn;
    repeat match goal with |- context [if ?b then _ else _] => destruct b eqn:?; cbn end; bsimp; repeat split; try lia; done.
Qed.

(** the policy in force is coherent and stable.  Whatever an administrator submits
    and whatever the settings row holds, the policy read back has a positive default
    within its ceiling and a ceiling unless tokens may live forever; storing it
    again changes nothing. *)
Theorem policy_in_force_coherent fault d p : read_policy fault d = Ok p ->
  coherent p /\ forall d', SetMCPTokenPolicy fault p d = (d', Ok tt) -> read_policy fault d' = Ok p.
Proof.
  assert (Hfix : forall q, coherent q -> normalizeMCPTokenPolicy q = q).
  { intros [dd m u] (H1 & H2 & H3 & H4). cbn in *. unfold normalizeMCPTokenPolicy. cbn.
    rewrite (proj2 (Z.leb_gt dd 0)) by lia. rewrite (proj2 (Z.ltb_ge m 0)) by lia.
    destruct (negb u && (m =? 0)) eqn:E; bsimp; [naive_solver|].
    destruct ((0 <? m) && (m <? dd)) eqn:E2; bsimp; [lia|done]. }
  unfold read_policy, tq, SetMCPTokenPolicy. destruct (fault QTkPolicy); [done|]. intros [= <-].
  set (q := match token_policy d with None => _ | Some None => _ | Some (Some p) => _ end).
  assert (Hq : coherent q).
  { unfold q. destruct (token_policy d) as [[p|]|]; [apply normalize_coherent| |]; repeat split; cbn; unfold defaultMCPTokenDays, defaultMCPTokenMaxDays; lia. }
  split; [done|]. destruct (fault QTkSetPolicy); [done|]. intros d' [= <-]. cbn. by rewrite !Hfix; rewrite ?Hfix.
Qed.

Definition never_fails : TQuery -> bool := fun _ => false.
Example policy_in_force_coherent_witness :
  let d := mkTDB [] 0 (Some (Some (mkPolicy 400 0 false))) in
  read_policy never_fails d = Ok (mkPolicy 365 365 false) /\ coherent (mkPolicy 365 365 false).
Proof.
  cbv zeta. split; [reflexivity|]. apply (policy_in_force_coherent never_fails (mkTDB [] 0 (Some (Some (mkPolicy 400 0 false))))). reflexivity.
Defined.

(** a token lives as long as it was asked to, and no longer than allowed.  Under a
    coherent policy a granted lifetime is "never" only when that was asked for and is
    allowed; otherwise it ends exactly the requested number of days, or the default,
    from now -- at least one day, at most the ceiling and at most a century, with no
    wrap-around on the way.  Every refusal names the limit it hit. *)
Theorem token_lifetime_bounded p days never now : coherent p ->
  match ResolveExpiry p days never now with
  | Ok t =>
      if never then t = 0 /\ AllowUnlimited p = true
      else exists n, t = now + n * (24 * hour) /\ n = (if days <=? 0 then DefaultDays p else days) /\
           1 <= n <= absoluteMaxTokenDays /\ (MaxDays p = 0 \/ n <= MaxDays p)
  | Err ErrTokenNeverForbidden => never = true /\ AllowUnlimited p = false
  | Err (TokenLifetimeError max) =>
      never = false /\ max < (if days <=? 0 then DefaultDays p else days) /\ (max = MaxDays p \/ max = absoluteMaxTokenDays)
  end.
Proof.
  intros (H1 & H2 & H3 & H4). unfold ResolveExpiry. destruct never.
  { by destruct (AllowUnlimited p). }
  set (n := if days <=? 0 then DefaultDays p else days).
  assert (Hn : 1 <= n) by (unfold n; destruct (days <=? 0) eqn:E; bsimp; lia).
  destruct (_ && _) eqn:E1; [bsimp; auto|].
  destruct (absoluteMaxTokenDays <? n) eqn:E2; bsimp; [auto|].
  unfold absoluteMaxTokenDays in *. exists n. rewrite (wrap64_id (n * 24)), wrap64_id by (unfold in_int64, int64_min, int64_max, hour, minute, second; lia).
  split; [lia|]. split; [done|]. split; [lia|]. apply andb_false_iff in E1 as [E1|E1]; bsimp; lia.
Qed.

Example token_lifetime_bounded_witness :
  match ResolveExpiry (mkPolicy 30 365 false) 0 false 0 with
  | Ok t => exists n, t = 0 + n * (24 * hour) /\ n = 30 /\ 1 <= n <= 36500 /\ (365 = 0 \/ n <= 365)
  | Err _ => False
  end /\ match ResolveExpiry (mkPolicy 30 0 true) 107000 false 0 with Err (TokenLifetimeError max) => max < 107000 | _ => False end.
Proof.
  split.
  - exact (token_lifetime_bounded (mkPolicy 30 365 false) 0 false 0 ltac:(repeat split; cbn; lia)).
  - apply (token_lifetime_bounded (mkPolicy 30 0 true) 107000 false 0 ltac:(repeat split; cbn; lia)).
Defined.

(** ** What a token is made of *)

(** a token is minted within its owner's rights.  When the handler answers 201 the
    row it appended belongs to the caller, names only sections the caller effectively
    has (any valid section for an administrator), has no empty scope where one was
    asked for, is read-only if the caller is, carries the hash of the secret it
    returned, and expires as the policy in force resolved the request. *)
Theorem minted_token_within_owner fault clock rnd sha byID eff caller body s s' id secret name secs ro :
  handleCreateMCPToken fault clock rnd sha byID eff caller body s = (s', TCreated id secret name secs ro) ->
  exists u b p t, byID caller = Ok u /\ body = Some b /\ read_policy fault (tdb s) = Ok p /\
    api_tokens (tdb s') = api_tokens (tdb s) ++ [t] /\
    atUserID t = ID u /\ atTokenHash t = sha secret /\ atRevoked t = false /\ atReadOnly t = ro /\ atSections t = secs /\
    (ReadOnly u = true -> ro = true) /\ (tbReadOnly b = true -> ro = true) /\
    (forall sec, sec ∈ secs -> ValidSection sec = true /\ sec ∈ tbSections b /\
       (IsAdmin u = true \/ exists l, eff u = Ok l /\ sec ∈ l)) /\
    (cleanSections (tbSections b) <> [] -> secs <> []) /\
    (tbHostIDs b <> [] -> atHostIDs t <> []) /\ (forall h, h ∈ atHostIDs t -> 0 < h /\ h ∈ tbHostIDs b) /\
    exists e, ResolveExpiry p (tbExpiresInDays b) (tbNeverExpires b) (clock (tticks s)) = Ok e /\ atExpiresAt t = stored_time e.
Proof.
  unfold handleCreateMCPToken. destruct (byID caller) as [u|]; [|done]. destruct body as [b|]; [|done]. cbv zeta.
  destruct (String.eqb _ ""); [done|]. destruct (token_sections eff u _) as [sections|] eqn:Esec; [|done].
  destruct (match cleanSections (tbSections b) with [] => _ | _ => _ end) eqn:Ereq; [done|].
  destruct (match tbHostIDs b with [] => _ | _ => _ end) eqn:Eh; [done|].
  destruct (read_policy fault (tdb s)) as [p|]; [|done].
  destruct (ResolveExpiry _ _ _ _) as [e|] eqn:Ex; [|done].
  destruct (CreateAPIToken _ _ _ _) as [d [i|]] eqn:Ec; [|done]. intros [= <- <- <- <- <- <-].
  unfold CreateAPIToken in Ec. destruct (fault QTkInsert); [done|]. destruct (existsb _ _); [done|]. injection Ec as <- <-.
  eexists u, b, p, _. split; [done|]. split; [done|]. split; [done|]. split; [reflexivity|]. cbn.
  split; [done|]. split; [done|]. split; [done|]. split; [done|]. split; [done|].
  split; [intros ->; by rewrite orb_true_r|]. split; [by intros ->|]. split; [|split; [|split; [|split]]].
  - unfold token_sections in Esec. intros sec Hs. destruct (IsAdmin u).
    + injection Esec as <-. apply list_elem_of_filter in Hs as [? ?]. auto.
    + destruct (eff u) as [l|]; [|done]. injection Esec as <-. apply list_elem_of_filter in Hs as [Hl [? ?]%list_elem_of_filter].
      split; [done|]. split; [done|]. right. exists l. split; [done|]. by apply one_of_true.
  - intros Hne. by destruct (cleanSections (tbSections b)), sections.
  - intros Hne. by destruct (tbHostIDs b), (cleanHostIDs _).
  - intros h Hh. apply elem_of_clean_hosts in Hh. tauto.
  - eauto.
Qed.

Definition demo_admin : User := zero_user 1 "root" "admin".
Definition demo_body : tokenBody := mkTokenBody "laptop" false ["containers"] [7] 0 false.
Definition empty_tstate : TState := mkTState (mkTDB [] 0 None) [] 0.
Definition demo_mint : TState * TResp :=
  handleCreateMCPToken never_fails (fun n => second * Z.of_nat n) (fun n => "secret") (fun s => "sha:" +:+ s) (fun _ => Ok demo_admin)
    (fun _ => Ok []) 1 (Some demo_body) empty_tstate.

Example minted_token_within_owner_witness :
  match demo_mint with
  | (s', TCreated id secret name secs ro) => exists t, api_tokens (tdb s') = [] ++ [t] /\ atHostIDs t <> [] /\ atTokenHash t = "sha:secret"
  | _ => False
  end.
Proof.
  unfold demo_mint.
  pose proof (minted_token_within_owner never_fails (fun n => second * Z.of_nat n) (fun n => "secret") (fun s => "sha:" +:+ s)
    (fun _ => Ok demo_admin) (fun _ => Ok []) 1 (Some demo_body) empty_tstate _ 1 "secret" "laptop" ["containers"] false eq_refl)
    as (u & b & p & t & Hu & Hb & Hp & Ht & H). exists t. injection Hb as <-.
  split; [exact Ht|]. split; [apply H; discriminate|apply H].
Defined.

(** ** Revocation *)
Inductive tok_op :=
  | TkCreate (t : APIToken) (now : Z) | TkRevoke (id user : Z) | TkAdminRevoke (id : Z) | TkTouch (id now : Z) | TkPolicy (p : MCPTokenPolicy).
Definition run_tok (fault : TQuery -> bool) (op : tok_op) (d : TDB) : TDB :=
  match op with
  | TkCreate t now => (CreateAPIToken fault t now d).1
  | TkRevoke id user => (RevokeAPIToken fault id user d).1
  | TkAdminRevoke id => (AdminRevokeAPIToken fault id d).1
  | TkTouch id now => (TouchAPIToken fault id now d).1
  | TkPolicy p => (SetMCPTokenPolicy fault p d).1
  end.
Inductive tok_step (d : TDB) : TDB -> Prop := tok_step_op fault op : tok_step d (run_tok fault op d).

(** Every id has been handed out, and the ids up to [id] that were dead still are. *)
Definition token_dead (id : Z) (d : TDB) : Prop :=
  id <= token_seq d /\ forall t, t ∈ api_tokens d -> atID t = id -> atRevoked t = true.

Lemma token_dead_map id d g : (forall t, atID (g t) = atID t /\ (atRevoked t = true -> atRevoked (g t) = true)) ->
  token_dead id d -> token_dead id (set_tokens (g <$> api_tokens d) d).
Proof.
  intros Hg [H1 H2]. split; [done|]. intros t (x & -> & Hx)%list_elem_of_fmap. destruct (Hg x) as [-> Hr]. intros Hid. auto.
Qed.

Lemma token_dead_step id d d' : tok_step d d' -> token_dead id d -> token_dead id d'.
Proof.
  intros [fault op] Hd. destruct op as [t now|i u|i|i now|p]; cbn.
  - unfold CreateAPIToken. destruct (fault QTkInsert); [done|]. destruct (existsb _ _); [done|]. destruct Hd as [H1 H2].
    split; cbn; [lia|]. intros x [Hx| ->%list_elem_of_singleton]%elem_of_app; [by apply H2|]. cbn. lia.
  - unfold RevokeAPIToken, revoke_where. destruct (fault _); [done|]. apply token_dead_map; [|done]. intros x. by destruct (_ && _).
  - unfold AdminRevokeAPIToken, revoke_where. destruct (fault _); [done|]. apply token_dead_map; [|done]. intros x. by destruct (_ && _).
  - unfold TouchAPIToken. destruct (fault _); [done|]. apply token_dead_map; [|done]. intros x. by destruct (atID x =? i).
  - unfold SetMCPTokenPolicy. by destruct (fault _).
Qed.

(** a revoked token is dead for good.  After a revocation that reported success, by
    the owner or by an administrator, no look-up by any hash ever returns a token
    with that id, whatever is created, used or revoked afterwards and however those
    requests interleave. *)
Theorem revoked_token_stays_dead fault fault' id user d d1 d2 hash t :
  NoDup (atID <$> api_tokens d) -> (forall x, x ∈ api_tokens d -> atID x <= token_seq d) ->
  RevokeAPIToken fault id user d = (d1, Ok true) \/ AdminRevokeAPIToken fault id d = (d1, Ok true) ->
  rtc tok_step d1 d2 -> APITokenByHash fault' hash d2 = Ok t -> atID t <> id.
Proof.
  intros Hnd Hseq Hrev Hrun Hl Hid.
  assert (H1 : token_dead id d1).
  { assert (Hw : forall q hit, (forall x, hit x = true -> atID x = id) ->
      (forall x y, x ∈ api_tokens d -> y ∈ api_tokens d -> hit x = true -> atID y = id -> atRevoked y = true \/ hit y = true) ->
      revoke_where fault q hit d = (d1, Ok true) -> token_dead id d1).
    { intros q hit Hhit Hone. unfold revoke_where. destruct (fault q); [done|]. intros [= <- Hex].
      apply existsb_exists in Hex as (x & Hx%list_elem_of_In & Ht). split; cbn.
      - rewrite <- (Hhit x Ht). by apply Hseq.
      - intros y (z & -> & Hz)%list_elem_of_fmap Hy. destruct (hit z) eqn:Ez; [done|].
        destruct (Hone x z Hx Hz Ht Hy) as [?|?]; [done|congruence]. }
    assert (Huniq : forall x y, x ∈ api_tokens d -> y ∈ api_tokens d -> atID x = atID y -> x = y)
      by (intros x y Hx Hy Exy; by apply (NoDup_fmap_elem atID (api_tokens d))).
    destruct Hrev as [Hrev|Hrev]; revert Hrev; apply Hw.
    - intros x Hx. by bsimp.
    - intros x y Hx Hy Ht Hyid. right. replace y with x; [done|]. apply Huniq; [done..|]. bsimp. congruence.
    - intros x Hx. by bsimp.
    - intros x y Hx Hy Ht Hyid. right. replace y with x; [done|]. apply Huniq; [done..|]. bsimp. congruence. }
  assert (H2 : token_dead id d2) by (clear - H1 Hrun; induction Hrun; [done|]; eauto using token_dead_step).
  unfold APITokenByHash, tq in Hl. destruct (fault' QTkByHash); [done|].
  destruct (list_find _ (api_tokens d2)) as [[i x]|] eqn:E; [|done]. injection Hl as <-. cbn in Hid.
  apply list_find_Some in E as (Hx%list_elem_of_lookup_2 & [_ Hr] & _). destruct H2 as [_ H2]. specialize (H2 x Hx Hid). congruence.
Qed.

Example revoked_token_stays_dead_witness :
  let d := tdb demo_mint.1 in
  let d1 := (RevokeAPIToken never_fails 1 1 d).1 in
  forall t, APITokenByHash never_fails "sha:secret" d1 = Ok t -> atID t <> 1.
Proof.
  cbv zeta. intros t. apply (revoked_token_stays_dead never_fails never_fails 1 1 (tdb demo_mint.1) (RevokeAPIToken never_fails 1 1 (tdb demo_mint.1)).1).
  - replace (atID <$> api_tokens (tdb demo_mint.1)) with [1] by (vm_compute; reflexivity). apply NoDup_singleton.
  - intros x Hx%(list_elem_of_singleton _ _). subst x. vm_compute. discriminate.
  - left. vm_compute. reflexivity.
  - apply rtc_refl.
Defined.

(** a token forgets its host scope.  The scope a caller asked for is stored, but a
    look-up returns the token without it, as if it had been minted for every host its
    owner can reach. *)
Theorem host_scope_not_read_back fault hash d t : APITokenByHash fault hash d = Ok t ->
  atHostIDs t = [] /\ exists r, r ∈ api_tokens d /\ atTokenHash r = hash /\ atRevoked r = false /\ atSections t = atSections r /\ atUserID t = atUserID r.
Proof.
  unfold APITokenByHash, tq. destruct (fault QTkByHash); [done|]. destruct (list_find _ _) as [[i x]|] eqn:E; [|done].
  intros [= <-]. apply list_find_Some in E as (Hx%list_elem_of_lookup_2 & [? ?] & _). split; [done|]. exists x. done.
Qed.

Example host_scope_not_read_back_witness :
  match APITokenByHash never_fails "sha:secret" (tdb demo_mint.1) with
  | Ok t => atHostIDs t = [] /\ exists r, r ∈ api_tokens (tdb demo_mint.1) /\ atHostIDs r = [7]
  | Err _ => False
  end.
Proof.
  destruct (APITokenByHash never_fails "sha:secret" (tdb demo_mint.1)) as [t|e] eqn:H; [|vm_compute in H; discriminate].
  split; [apply (host_scope_not_read_back _ _ _ _ H)|]. eexists. split; [vm_compute; left|reflexivity].
Defined.
