(* ===== verification/UserAdmin.v ===== *)
(** * User administration (internal/api/user_handlers.go)

    Creating, changing and deleting accounts, and the guard that keeps an
    administrator, over the accounts of [Accounts] and the roles of [Roles]. *)
From S2P Require Import Prelude Limits GoStrings Password NetIP Paths Config Users Roles RoleHandlers Calendar Accounts Login Passkeys SessionGate ClientIP LoginSpec ApiTokens AuthHandlers AuthSpec.

Record userBody := mkUserBody {
  ubUsername : string; ubPassword : string; ubRole : string; ubReadOnly : bool; ubSections : list string;
  ubRoleIDs : option (list Z)                       (* None when the field is absent *)
}.

Section Handlers.
Context `{E : AuthEnv} `{W : WebEnv}.
#[local] Existing Instance HM_ret.
#[local] Existing Instance HM_bind.

Fixpoint list_each (us : list User) : HM (list (User * list Z * list string)) :=
  match us with
  | [] => mret []
  | u :: us' =>
      ids ← call (roles_db (fun d => (d, RoleIDsForUser role_fault (ID u) d)));
      match ids with
      | Err _ => answer (AErr 500 "could not read role assignments")
      | Ok ids =>
          secs ← call (roles_db (fun d => (d, EffectiveSections role_fault (Some u) d)));
          match secs with
          | Err _ => answer (AErr 500 "could not compute effective sections")
          | Ok secs => rest ← list_each us'; mret ((u, ids, secs) :: rest)
          end
      end
  end.
Definition handleListUsers : HM AReply :=
  r ← call (db (read (ListUsers acc_fault)));
  match r with Err _ => answer (AErr 500 "could not list users") | Ok us => l ← list_each us; mret (AUsers l) end.

Definition handleCreateUser (body : option userBody) : HM AReply :=
  b ← body_or_400 body;
  made ← call (CreateAccount (ubUsername b) (ubPassword b) (ubRole b) (ubReadOnly b) (cleanSections (ubSections b)));
  match made with
  | Err ErrWeakPassword => answer (AErr 400 (auth_text ErrWeakPassword))
  | Err ErrInvalidUsername => answer (AErr 400 (auth_text ErrInvalidUsername))
  | Err e => mret (AFailed (auth_text e))
  | Ok u =>
      match ubRoleIDs b with
      | Some (id0 :: ids) =>
          r ← call (roles_db (SetUserRoles role_fault (ID u) (id0 :: ids)));
          _ ← haudit "user.create" (ubUsername b) (ubRole b);
          match r with
          | Err _ => mret (AWarned (ID u) "the account was created but its roles could not be assigned: database error")
          | Ok _ => mret (ACreated (ID u))
          end
      | _ => _ ← haudit "user.create" (ubUsername b) (ubRole b); mret (ACreated (ID u))
      end
  end.

(** Whether the account may lose its administrator role: the guard of both handlers.  A
    failing lookup lets the request through, a failing count refuses it. *)
Definition not_last_admin (id : Z) (msg : string) : HM () :=
  cur ← call (db (read (UserByID acc_fault id)));
  match cur with
  | Ok u =>
      if IsAdmin u then
        n ← call (db (read (CountAdmins acc_fault)));
        if (match n with Ok n => n | Err _ => 0 end) <=? 1 then answer (AFailed msg) else mret tt
      else mret tt
  | Err _ => mret tt
  end.

Definition handleUpdateUser (rawID : string) (body : option userBody) : HM AReply :=
  let id := ParseIntValue rawID in
  b ← body_or_400 body;
  _ ← (if negb (String.eqb (ubRole b) "admin") then not_last_admin id "cannot demote the last admin" else mret tt);
  r ← call (db (UpdateUserAccess acc_fault id (ubRole b) (ubReadOnly b) (cleanSections (ubSections b))));
  _ ← check_ (is_ok r) (AErr 500 "could not update user");
  _ ← (match ubRoleIDs b with
       | Some ids => r ← call (roles_db (SetUserRoles role_fault id ids)); check_ (is_ok r) (AErr 500 "could not update the user's roles")
       | None => mret tt
       end);
  _ ← haudit "user.update" rawID (ubRole b);
  mret AOk.

Definition handleResetUserPassword (rawID : string) (body : option string) : HM AReply :=
  let id := ParseIntValue rawID in
  pw ← body_or_400 body;
  r ← call (SetPassword id pw);
  match r with
  | Err e => answer (AErr 400 (auth_text e))
  | Ok _ => _ ← haudit "user.password_reset" rawID ""; mret AOk
  end.

(** Everything a deletion decides before it deletes. *)
Definition may_delete (claims : option Claims) (id : Z) : HM () :=
  _ ← check_ (negb (match claims with Some c => cUserID c =? id | None => false end)) (AFailed "you cannot delete your own account");
  not_last_admin id "cannot delete the last admin".

Definition handleDeleteUser (claims : option Claims) (rawID : string) : HM AReply :=
  let id := ParseIntValue rawID in
  _ ← may_delete claims id;
  r ← call (db (DeleteUser acc_fault id));
  _ ← check_ (is_ok r) (AErr 500 "could not delete user");
  _ ← haudit "user.delete" rawID "";
  mret AOk.
End Handlers.

(** ** An administrator remains *)
Definition admins (d : AuthDB) : list User := filter (fun u => Role u = "admin") (users d).

(** ** A small logic of handlers

    [keeps Inv Pre m Post]: from a state whose accounts satisfy [Pre], [m] leaves
    accounts satisfying [Inv], and [Post] too when it does not answer early. *)
Section Triples.
Context `{E : AuthEnv} `{W : WebEnv}.
#[local] Existing Instance HM_ret.
#[local] Existing Instance HM_bind.

Definition keeps (Inv Pre : AuthDB -> Prop) {A} (m : HM A) (Post : A -> AuthDB -> Prop) : Prop :=
  forall s, Pre (acc (hAuth s)) ->
    Inv (acc (hAuth (m s).1)) /\ match (m s).2 with Ok a => Post a (acc (hAuth (m s).1)) | Err _ => True end.

Lemma kp_bind Inv Pre {A B} (m : HM A) (k : A -> HM B) Mid Post :
  keeps Inv Pre m Mid -> (forall a, keeps Inv (Mid a) (k a) Post) -> keeps Inv Pre (m ≫= k) Post.
Proof.
  intros Hm Hk s Hs. specialize (Hm s Hs). unfold mbind, HM_bind, stM_bind.
  destruct (m s) as [s1 [a|e]]; cbn in *; [|by destruct Hm]. apply Hk, Hm.
Qed.
(** What leaves the accounts alone. *)
Definition quiet_h {A} (m : HM A) : Prop := forall s, acc (hAuth (m s).1) = acc (hAuth s).
Lemma kp_quiet (P : AuthDB -> Prop) {A} (m : HM A) : quiet_h m -> keeps P P m (fun _ => P).
Proof. intros H s Hs. split; [by rewrite H|]. destruct (snd (m s)); [by rewrite H|done]. Qed.
(** A statement, with what it promises. *)
Lemma kp_db Inv (Pre Q : AuthDB -> Prop) {A} (op : stM AuthDB StoreErr A) :
  (forall d, Pre d -> Inv (op d).1 /\ Q (op d).1) -> keeps Inv Pre (call (db op)) (fun _ => Q).
Proof.
  intros H s Hs. specialize (H _ Hs). unfold call, db. destruct (op (acc (hAuth s))) as [d [a|e]]; cbn in *; exact H.
Qed.
Lemma kp_weak Inv (Pre Pre' : AuthDB -> Prop) {A} (m : HM A) Post : (forall d, Pre d -> Pre' d) -> keeps Inv Pre' m Post -> keeps Inv Pre m Post.
Proof. intros HP Hm s Hs. by apply Hm, HP. Qed.

Lemma qh_ret {A} (a : A) : quiet_h (mret a). Proof. done. Qed.
Lemma qh_answer {A} r : quiet_h (answer r : HM A). Proof. done. Qed.
Lemma qh_check ok r : quiet_h (check_ ok r). Proof. by destruct ok. Qed.
Lemma qh_body {A} (b : option A) : quiet_h (body_or_400 b). Proof. by destruct b. Qed.
Lemma qh_audit a t d : quiet_h (haudit a t d). Proof. done. Qed.
Lemma qh_roles {A} (op : stM DB StoreErr A) : quiet_h (call (roles_db op)).
Proof. intros s. unfold call, roles_db. by destruct (op (rdb (hAuth s))) as [d [a|e]]. Qed.
Lemma qh_read {A} (f : AuthDB -> result StoreErr A) : quiet_h (call (db (read f))).
Proof. intros s. unfold call, db, read. by destruct (hAuth s), (f _). Qed.
Lemma qh_bind {A B} (m : HM A) (k : A -> HM B) : quiet_h m -> (forall a, quiet_h (k a)) -> quiet_h (m ≫= k).
Proof.
  intros Hm Hk s. unfold mbind, HM_bind, stM_bind. specialize (Hm s). destruct (m s) as [s1 [a|e]]; [|done].
  cbn in Hm. by rewrite Hk.
Qed.
End Triples.

#[export] Hint Resolve qh_ret qh_answer qh_check qh_body qh_audit qh_roles qh_read qh_bind : go.

Section LastAdmin.
Context `{E : AuthEnv} `{W : WebEnv}.
#[local] Existing Instance HM_ret.
#[local] Existing Instance HM_bind.

(** Some administrator is left, in tables whose ids are unique. *)
Definition administered (d : AuthDB) : Prop := acc_wf d /\ admins d <> [].
(** The account may go: it is no administrator, or there is another. *)
Definition expendable (id : Z) (d : AuthDB) : Prop :=
  administered d /\ exists a, a ∈ admins d /\ ID a <> id.

Lemma NoDup_inj_ID (l : list User) a b : NoDup (ID <$> l) -> a ∈ l -> b ∈ l -> ID a = ID b -> a = b.
Proof.
  intros Hnd (i & Ha)%list_elem_of_lookup (j & Hb)%list_elem_of_lookup Hid.
  assert (i = j); [|congruence].
  eapply (NoDup_lookup (ID <$> l) i j (ID a)); [done|by rewrite list_lookup_fmap, Ha|rewrite list_lookup_fmap, Hb; cbn; congruence].
Qed.

Lemma two_admins_one_left id d : acc_wf d -> 1 < Z.of_nat (length (admins d)) -> exists a, a ∈ admins d /\ ID a <> id.
Proof.
  intros Hwf Hn. assert (Hnd : NoDup (ID <$> admins d)) by (apply NoDup_fmap_filter, (wf_users _ Hwf)).
  destruct (admins d) as [|a [|b l]] eqn:Ea; [cbn in Hn; lia|cbn in Hn; lia|]. cbn in Hnd.
  inversion Hnd as [|x y Hx Hy]; subst. destruct (decide (ID a = id)) as [<-|]; [|exists a; split; [left|done]].
  exists b. split; [right; left|]. intros Hb. apply Hx. rewrite Hb. left.
Qed.

Lemma guard_expendable id msg : acc_fault QAByID = false ->
  keeps administered administered (not_last_admin id msg)
    (fun _ d => administered d /\ (expendable id d \/ forall u, u ∈ users d -> ID u = id -> Role u <> "admin")).
Proof.
  intros Hq s Hs. pose proof (proj1 Hs) as Hwf.
  unfold not_last_admin, call, db, read, UserByID, CountAdmins, aq, find_user. rewrite Hq.
  unfold mbind, HM_bind, stM_bind.
  destruct (list_find _ (users (acc (hAuth s)))) as [[i u]|] eqn:Ef.
  - apply list_find_Some in Ef as (Hi & Hid%Z.eqb_eq & _). apply list_elem_of_lookup_2 in Hi as Hu.
    cbn [set_hAuth hAuth set_acc acc]. unfold IsAdmin. cbn [Role scanUserRow with_factors].
    destruct (String.eqb_spec (Role u) "admin") as [Hr|Hr].
    + destruct (acc_fault QAAdmins); cbn [set_hAuth hAuth set_acc acc]; [exact (conj Hs I)|].
      destruct (Z.leb_spec (Z.of_nat (length (filter (fun u => Role u = "admin") (users (acc (hAuth s)))))) 1) as [|Hn]; [exact (conj Hs I)|].
      split; [exact Hs|]. split; [exact Hs|]. left. split; [exact Hs|]. by apply two_admins_one_left.
    + split; [exact Hs|]. split; [exact Hs|]. right. intros v Hv Hvid Hvr. apply Hr. rewrite <- Hvr. f_equal.
      apply (NoDup_inj_ID (users (acc (hAuth s)))); [apply (wf_users _ Hwf)|done..|congruence].
  - split; [exact Hs|]. split; [exact Hs|]. right. intros v Hv Hvid. apply list_find_None in Ef.
    rewrite Forall_forall in Ef. specialize (Ef v Hv). by rewrite Z.eqb_eq in Ef.
Qed.

Lemma run_op_wf op d : acc_wf d -> acc_wf (run_op acc_fault op d).
Proof. apply (effect_wf op), run_op_effect. Qed.

(** The statements of the four handlers, on an administered store. *)
Lemma admins_elem d a : a ∈ admins d <-> Role a = "admin" /\ a ∈ users d.
Proof. unfold admins. by rewrite list_elem_of_filter. Qed.
Lemma administered_by d a : acc_wf d -> a ∈ admins d -> administered d.
Proof. intros Hwf Ha. split; [done|]. intros Hn. rewrite Hn in Ha. by apply not_elem_of_nil in Ha. Qed.
Lemma administered_inv d : administered d -> acc_wf d /\ exists a, a ∈ users d /\ Role a = "admin".
Proof.
  intros [Hwf Hne]. split; [done|]. destruct (admins d) as [|a l] eqn:Ea; [done|]. exists a.
  assert (Ha : a ∈ admins d) by (rewrite Ea; left). by apply admins_elem in Ha as [? ?].
Qed.

Lemma delete_keeps id d :
  administered d /\ (expendable id d \/ forall u, u ∈ users d -> ID u = id -> Role u <> "admin") -> administered (DeleteUser acc_fault id d).1.
Proof.
  intros [Hd Hx]. pose proof (run_op_wf (ODeleteUser id) d (proj1 Hd)) as Hwf. cbn in Hwf.
  assert (Hl : exists a, a ∈ users d /\ Role a = "admin" /\ ID a <> id).
  { destruct Hx as [[_ (a & Ha%admins_elem & ?)]|Hx]; [destruct Ha; eauto|].
    apply administered_inv in Hd as (_ & a & Ha & Hr). exists a. split; [done|]. split; [done|]. intros Hid. by apply (Hx a). }
  destruct Hl as (a & Ha & Hr & Hid). apply (administered_by _ a Hwf), admins_elem. split; [done|].
  unfold DeleteUser, DeleteUserFactors, DeleteUserSessions, ax, mbind, stM_bind.
  repeat (case_match; cbn; simplify_eq); cbn; try done; try (apply list_elem_of_filter; auto).
Qed.

Lemma update_keeps id role ro secs d :
  (role = "admin" /\ administered d) \/
    (administered d /\ (expendable id d \/ forall u, u ∈ users d -> ID u = id -> Role u <> "admin")) ->
  administered (UpdateUserAccess acc_fault id role ro secs d).1.
Proof.
  intros Hx. assert (Hd : administered d) by (destruct Hx as [[_ ?]|[? _]]; done).
  pose proof (run_op_wf (OAccess id role ro secs) d (proj1 Hd)) as Hwf. cbn in Hwf.
  unfold UpdateUserAccess, ax in *. destruct (acc_fault QAAccess); [done|]. cbn [fst] in *.
  assert (Hl : exists a, a ∈ users d /\ Role a = "admin" /\ (role = "admin" \/ ID a <> id)).
  { destruct Hx as [[-> _]|[_ [[_ (a & Ha%admins_elem & ?)]|Hx]]].
    - apply administered_inv in Hd as (_ & a & ? & ?). eauto.
    - destruct Ha; eauto.
    - apply administered_inv in Hd as (_ & a & Ha & Hr). exists a. split; [done|]. split; [done|]. right. intros Hid. by apply (Hx a). }
  destruct Hl as (a & Ha & Hr & Hid).
  apply (administered_by _ (if ID a =? id then with_access a (orDefault role "user") ro secs else a) Hwf), admins_elem. split.
  - destruct (Z.eqb_spec (ID a) id); [|done]. by destruct Hid as [-> |].
  - unfold on_user. cbn [users set_users]. apply list_elem_of_fmap. eauto.
Qed.

Lemma insert_keeps u now d : administered d -> administered (CreateUser acc_fault u now d).1.
Proof.
  intros Hd. pose proof (run_op_wf (OCreate u now) d (proj1 Hd)) as Hwf. cbn in Hwf. apply administered_inv in Hd as (_ & a & Ha & Hr).
  apply (administered_by _ a Hwf), admins_elem. split; [done|].
  unfold CreateUser, insert_user. destruct (acc_fault _); [done|]. destruct (existsb _ _); [done|]. cbn. apply elem_of_app. by left.
Qed.

(** A statement that changes no role. *)
Lemma column_keeps op id f d : run_op acc_fault op d = d \/ run_op acc_fault op d = on_user id f d -> (forall u, Role (f u) = Role u) ->
  administered d -> administered (run_op acc_fault op d).
Proof.
  intros Hop Hf Hd. pose proof (run_op_wf op d (proj1 Hd)) as Hwf. destruct Hop as [->|Hop]; [done|]. rewrite Hop in *.
  apply administered_inv in Hd as (_ & a & Ha & Hr).
  apply (administered_by _ (if ID a =? id then f a else a) Hwf), admins_elem. split; [destruct (_ =? _); [by rewrite Hf|done]|].
  unfold on_user. cbn [users set_users]. apply list_elem_of_fmap. eauto.
Qed.

(** Calls of the service that keep the property. *)
Definition safe_m {A} (m : M A) : Prop := forall s, administered (acc s) -> administered (acc (m s).1).
Lemma sm_acc {A} (m : M A) : keeps_acc m -> safe_m m.
Proof. intros H s. by rewrite H. Qed.
Lemma sm_bind {A B} (m : M A) (k : A -> M B) : safe_m m -> (forall a, safe_m (k a)) -> safe_m (mbind (MBind := M_bind) k m).
Proof. intros Hm Hk s Hs. unfold mbind, M_bind, stM_bind. specialize (Hm s Hs). destruct (m s) as [s1 [a|e]]; [by apply Hk|done]. Qed.
Lemma sm_db {A} (op : stM AuthDB StoreErr A) : (forall d, administered d -> administered (op d).1) -> safe_m (db op).
Proof. intros H s Hs. unfold db. specialize (H _ Hs). by destruct (op (acc s)) as [d [a|e]]. Qed.
Lemma kp_call {A} (m : M A) : safe_m m -> keeps administered administered (call m) (fun _ => administered).
Proof. intros H s Hs. unfold call. specialize (H (hAuth s) Hs). by destruct (m (hAuth s)) as [a r]. Qed.

Lemma sm_CreateAccount u p r ro secs : safe_m (CreateAccount u p r ro secs).
Proof.
  unfold CreateAccount. apply sm_bind; [apply sm_acc; by destruct (validateUsername u)|]. intros _.
  apply sm_bind; [apply sm_acc; by destruct (_ <=? _)%nat|]. intros _.
  apply sm_bind; [apply sm_acc; by intros []|]. intros ex. apply sm_bind; [apply sm_acc; by destruct (negb _)|]. intros _.
  apply sm_bind; [apply sm_acc; unfold hash_password; auto with go|]. intros h. apply sm_bind; [apply sm_acc, keeps_now|]. intros now.
  apply sm_bind; [|intros; apply sm_acc, keeps_ret]. apply sm_db. intros d. apply insert_keeps.
Qed.

Lemma sm_SetPassword uid p : safe_m (SetPassword uid p).
Proof.
  unfold SetPassword. apply sm_bind; [apply sm_acc; by destruct (_ <=? _)%nat|]. intros _.
  apply sm_bind; [apply sm_acc; unfold hash_password; auto with go|]. intros h.
  apply sm_bind; [apply sm_db; intros d|intros _; apply sm_bind; [apply sm_db; intros d|intros _; apply sm_db; intros d]].
  - apply (column_keeps (OPassword uid h) uid (fun u => with_hash u h)); [|done]. cbn. unfold UpdatePassword, ax. destruct (acc_fault _); auto.
  - intros Hd. pose proof (run_op_wf (ODeleteSessions uid) d (proj1 Hd)) as Hwf. split; [exact Hwf|].
    unfold DeleteUserSessions, ax. destruct (acc_fault _); apply Hd.
  - unfold BumpSessionEpoch, ax. apply (column_keeps (OBump uid) uid (fun u => with_epoch u (SessionEpoch u + 1))); [|done].
    cbn. unfold BumpSessionEpoch, ax. destruct (acc_fault _); auto.
Qed.

(** The four handlers. *)
Lemma kp_audit_ok a t d : keeps administered administered (_ ← haudit a t d; mret AOk) (fun _ => administered).
Proof. apply kp_quiet. auto with go. Qed.

Lemma create_safe b : keeps administered administered (handleCreateUser b) (fun _ => administered).
Proof.
  unfold handleCreateUser. eapply kp_bind; [apply kp_quiet, qh_body|]. intros u. eapply kp_bind; [apply kp_call, sm_CreateAccount|].
  intros [v|e]; apply kp_quiet.
  - destruct (ubRoleIDs u) as [[|x l]|]; auto with go. apply qh_bind; [apply qh_roles|]. intros r. apply qh_bind; [auto with go|]. intros ?; by destruct r.
  - destruct e; auto with go.
Qed.

Section WithLookups.
Hypothesis Hq : acc_fault QAByID = false.

Lemma delete_safe c raw : keeps administered administered (handleDeleteUser c raw) (fun _ => administered).
Proof using Hq.
  unfold handleDeleteUser, may_delete. eapply kp_bind; [eapply kp_bind; [apply kp_quiet, qh_check|intros ?; by apply guard_expendable]|]. intros ?.
  eapply kp_bind; [apply kp_db; intros d Hd; split; [by apply delete_keeps|exact (delete_keeps _ d Hd)]|]. intros r.
  eapply kp_bind; [apply kp_quiet, qh_check|intros ?; apply kp_audit_ok].
Qed.

Lemma update_safe raw b : keeps administered administered (handleUpdateUser raw b) (fun _ => administered).
Proof using Hq.
  unfold handleUpdateUser. eapply kp_bind; [apply kp_quiet, qh_body|]. intros u.
  eapply (kp_bind _ _ _ _ (fun _ d => (ubRole u = "admin" /\ administered d) \/ (administered d /\
    (expendable (ParseIntValue raw) d \/ forall v, v ∈ users d -> ID v = ParseIntValue raw -> Role v <> "admin")))).
  - destruct (String.eqb_spec (ubRole u) "admin") as [Hr|Hr]; cbn [negb].
    + intros s Hs. split; [exact Hs|]. left. split; [exact Hr|exact Hs].
    + intros s Hs. destruct (guard_expendable (ParseIntValue raw) "cannot demote the last admin" Hq s Hs) as [H1 H2]. split; [exact H1|].
      destruct (snd (not_last_admin _ _ s)); [right; exact H2|exact I].
  - intros ?. eapply kp_bind; [apply kp_db; intros d Hd; split; [by apply update_keeps|exact (update_keeps _ _ _ _ d Hd)]|]. intros r.
    eapply kp_bind; [apply kp_quiet, qh_check|]. intros ?. eapply kp_bind; [apply kp_quiet|intros ?; apply kp_audit_ok].
    destruct (ubRoleIDs u); auto with go.
Qed.

Lemma reset_safe raw b : keeps administered administered (handleResetUserPassword raw b) (fun _ => administered).
Proof using Hq.
  unfold handleResetUserPassword. eapply kp_bind; [apply kp_quiet, qh_body|]. intros pw.
  eapply kp_bind; [apply kp_call, sm_SetPassword|]. intros [u|e]; [apply kp_audit_ok|apply kp_quiet; auto with go].
Qed.
End WithLookups.

(** One request of an administrator, whole. *)
Inductive admin_step (s : HState) : HState -> Prop :=
  | st_create b : admin_step s (handleCreateUser b s).1
  | st_update raw b : admin_step s (handleUpdateUser raw b s).1
  | st_reset raw b : admin_step s (handleResetUserPassword raw b s).1
  | st_delete c raw : admin_step s (handleDeleteUser c raw s).1.

(** C10: while lookups by id work, no sequence of account creations, edits, password resets
    and deletions, whatever they ask for and whichever other statements fail, leaves the
    application without an administrator: every state the requests pass through, one after the
    other, has an account with the admin role, and account ids stay unique. *)
Theorem last_admin_stays s s' :
  acc_fault QAByID = false -> acc_wf (acc (hAuth s)) -> admins (acc (hAuth s)) <> [] ->
  rtc admin_step s s' -> acc_wf (acc (hAuth s')) /\ admins (acc (hAuth s')) <> [].
Proof.
  intros Hq Hwf Hne Hrun. assert (H0 : administered (acc (hAuth s))) by done. clear Hwf Hne.
  change (administered (acc (hAuth s'))). induction Hrun as [|s1 s2 s3 Hst _ IH]; [done|]. apply IH. clear IH.
  destruct Hst; [by apply create_safe|by apply update_safe|by apply reset_safe|by apply delete_safe].
Qed.

(** With two administrators in the table the guard lets anybody go. *)
Lemma guard_passes id msg s : 1 < Z.of_nat (length (admins (acc (hAuth s)))) -> acc_fault QAAdmins = false ->
  not_last_admin id msg s = (s, Ok tt).
Proof.
  intros Hn Hf. unfold not_last_admin, mbind, HM_bind, stM_bind, call, db, read. destruct s as [ast l no]. cbn [hAuth set_hAuth hAudit hNo2FA] in *.
  assert (Hs : set_acc (acc ast) ast = ast) by (by destruct ast). rewrite Hs.
  destruct (UserByID acc_fault id (acc ast)) as [u|e]; [|done]. destruct (IsAdmin u); [|done].
  cbn [hAuth set_hAuth hAudit hNo2FA] in *. rewrite Hs. unfold CountAdmins, aq. rewrite Hf. unfold admins in Hn.
  by apply Z.leb_gt in Hn as ->.
Qed.

(** two requests that interleave, each deleting the other one of the two administrators,
    both pass the guard on the state with two, and the deletions that follow leave none. *)
Theorem crossing_deletes_leave_no_admin s a b ca cb :
  users (acc (hAuth s)) = [a; b] -> Role a = "admin" -> Role b = "admin" -> ID a <> ID b ->
  cUserID ca = ID a -> cUserID cb = ID b -> (forall q, acc_fault q = false) ->
  may_delete (Some ca) (ID b) s = (s, Ok tt) /\ may_delete (Some cb) (ID a) s = (s, Ok tt) /\
  admins (DeleteUser acc_fault (ID a) (DeleteUser acc_fault (ID b) (acc (hAuth s))).1).1 = [].
Proof.
  intros Hu Ha Hb Hab Hca Hcb Hf.
  assert (Hn : 1 < Z.of_nat (length (admins (acc (hAuth s))))).
  { unfold admins. rewrite Hu, !filter_cons, !decide_True by done. cbn. lia. }
  split; [|split].
  - unfold may_delete. rewrite Hca. apply Z.eqb_neq in Hab as ->. by apply guard_passes.
  - unfold may_delete. rewrite Hcb. rewrite Z.eqb_sym. apply Z.eqb_neq in Hab as ->. by apply guard_passes.
  - unfold admins, DeleteUser, DeleteUserFactors, DeleteUserSessions, ax, mbind, stM_bind. rewrite !Hf. cbn. rewrite Hu.
    rewrite !filter_cons. rewrite (decide_True _ _ Hab), decide_False by auto. cbn. rewrite decide_False by auto. done.
Qed.
End LastAdmin.
