(* ===== verification/OAuth.v ===== *)
(** * The OAuth authorization server (internal/api/oauth_handlers.go, and the access
    tokens of internal/mcp/oauth_token.go)

    Client registration, the consent page and its decision, and the two grants of the
    token endpoint, over the tables of [OAuthStore].  Whose browser it is comes from
    the session gate's [sessionClaims].  Digests, the JWT library, the URL parser,
    random tokens and the clock are parameters. *)
From S2P Require Import Prelude Limits GoStrings Password Users Roles RoleHandlers Calendar Accounts Login Passkeys SessionGate LoginSpec OAuthStore.

(** ** Data *)
Record AccessClaims := mkAccess {
  aIssuer : string; aSubject : string; aAudience : string; aExpiresAt : option Z; aJTI : string;
  aReadOnly : bool; aClientID : string; aSessionID : string
}.
Record URL := mkURL { uScheme : string; uHostname : string; uFragment : string }.

Class OAuthEnv := {
  oclock : nat -> Z;
  randToken : nat -> string;                            (* n random bytes, base64url; a failing source panics *)
  hashToken : string -> string;                         (* hex of SHA-256 *)
  pkceHash : string -> string;                          (* base64url of SHA-256 *)
  hmac64 : string -> string -> string;                  (* base64url of HMAC-SHA-256: key, message *)
  url_Parse : string -> option URL;
  at_sign : string -> AccessClaims -> string;           (* key, claims *)
  at_parse : string -> Z -> string -> string -> option AccessClaims; (* key, now, audience, token: all checks passed *)
  at_rand : nat -> option string;
  MCPPublicURL : string;
  mcpSigningKey : string;
  ofault : OQuery -> bool
}.

Record OState `{E : AuthEnv} := mkOState { odb : ODB; oauth : AState; oaudit : list audit_line; oticks : nat }.

Record authzParams := mkParams {
  clientID : string; redirectURI : string; pstate : string; codeChallenge : string; pmethod : string; scope : string; resource : string
}.
Record OAuthTokens := mkTokens { access_token : string; expires_in : Z; refresh_token : string; tscope : string }.

Inductive OReply :=
  | OAuthErr (status : Z) (code desc : string)
  | JSONErr (status : Z) (msg : string)
  | LoginNeeded
  | ErrorPage (msg : string)
  | ConsentPage (user client csrf : string)
  | Redirected (uri : string) (params : list (string * string))
  | Registered (id name : string) (uris : list string)
  | Tokens (t : OAuthTokens)
  | Panic.

Definition oauthCodeTTL : Z := 60 * second.
Definition oauthRefreshTTL : Z := 30 * 24 * hour.
Definition scopeFull : string := "mcp".
Definition scopeReadOnly : string := "mcp:read".
Definition clientIDPrefix : string := "dcmcp_".
Definition maxRedirectURIs : nat := 5.
Definition AccessTokenTTL : Z := 15 * minute.

(** strings.TrimRight(s, "/") *)
Fixpoint drop_slashes (rl : list Ascii.ascii) : list Ascii.ascii :=
  match rl with c :: r => if Ascii.eqb c "/"%char then drop_slashes r else rl | [] => [] end.
Definition TrimRightSlash (s : string) : string := of_bytes (rev (drop_slashes (rev (bytes s)))).

Section Server.
Context `{E : AuthEnv} `{OE : OAuthEnv}.

Definition OM (A : Type) : Type := stM OState OReply A.
#[local] Instance OM_ret : MRet OM := stM_ret OState OReply.
#[local] Instance OM_bind : MBind OM := stM_bind OState OReply.

Definition set_odb d s := mkOState E d (oauth s) (oaudit s) (oticks s).
Definition set_oauth a s := mkOState E (odb s) a (oaudit s) (oticks s).
Definition audited (line : audit_line) s := mkOState E (odb s) (oauth s) (oaudit s ++ [line]) (oticks s).

Definition otick : OM nat := fun s => (mkOState E (odb s) (oauth s) (oaudit s) (S (oticks s)), Ok (oticks s)).
Definition onow : OM Z := n ← otick; mret (oclock n).
Definition otoken : OM string := n ← otick; mret (randToken n).
Definition oaudit_ (a t d : string) : OM () := fun s => (audited (a, t, d) s, Ok tt).
(** A store call whose error the handler looks at. *)
Definition ostore {A} (m : stM ODB OErr A) : OM (result OErr A) := fun s => let '(d, r) := m (odb s) in (set_odb d s, Ok r).
(** Write this reply and return. *)
Definition reply {A} (r : OReply) : OM A := st_fail r.
(** [if !ok { …write r…; return }] *)
Definition ensure (ok : bool) (r : OReply) : OM () := if ok then mret tt else reply r.

Definition mcpBase : string := TrimRightSlash MCPPublicURL.
Definition mcpResource : string := mcpBase +:+ "/mcp".
Definition resourceOK (r : string) : bool := String.eqb r "" || String.eqb r mcpResource.

(** ** Registration *)
Definition validRedirectURI (raw : string) : bool :=
  match url_Parse raw with
  | None => false
  | Some u =>
      if negb (String.eqb (uFragment u) "") then false
      else if String.eqb (uScheme u) "https" then true
      else if String.eqb (uScheme u) "http" then one_of (uHostname u) ["localhost"; "127.0.0.1"; "::1"]
      else false
  end.

Definition handleOAuthRegister (body : option (list string * string * string)) : OM OReply :=
  match body with
  | None => reply (OAuthErr 400 "invalid_client_metadata" "malformed JSON")
  | Some (uris, name, authMethod) =>
      _ ← ensure (negb (Nat.eqb (length uris) 0) && (length uris <=? maxRedirectURIs)%nat)
            (OAuthErr 400 "invalid_redirect_uri" "1..5 redirect_uris required");
      _ ← ensure (String.eqb authMethod "" || String.eqb authMethod "none")
            (OAuthErr 400 "invalid_client_metadata" "only token_endpoint_auth_method=none is supported");
      _ ← ensure (forallb validRedirectURI uris) (OAuthErr 400 "invalid_redirect_uri" "redirect_uris must be https or loopback");
      tok ← otoken;
      let id := clientIDPrefix +:+ tok in
      now ← onow;
      r ← ostore (CreateOAuthClient ofault (mkClient id name uris 0) now);
      match r with
      | Err _ => reply (JSONErr 500 "could not register client")
      | Ok _ => mret (Registered id name uris)
      end
  end.

(** ** The authorization endpoint *)
Definition validateClientRedirect (p : authzParams) : OM OAuthClient :=
  r ← ostore (fun d => (d, OAuthClientByID ofault (clientID p) d));
  match r with
  | Err _ => reply (ErrorPage "Unknown client.")
  | Ok client =>
      if existsb (fun u => String.eqb u (redirectURI p)) (RedirectURIs client) then mret client
      else reply (ErrorPage "redirect_uri does not match a registered URI.")
  end.

Definition state_param (p : authzParams) : list (string * string) := if String.eqb (pstate p) "" then [] else [("state", pstate p)].
Definition authzRedirectError (p : authzParams) (code : string) : OReply :=
  match url_Parse (redirectURI p) with
  | None => ErrorPage code
  | Some _ => Redirected (redirectURI p) ([("error", code); ("iss", mcpBase)] ++ state_param p)
  end.

Definition oauthCSRF (rq : HttpRequest) (clientID redirectURI : string) : string :=
  match rqCookie rq with
  | None => ""
  | Some c => hmac64 mcpSigningKey ("csrf:" +:+ c +:+ of_bytes [Ascii.ascii_of_nat 0] +:+ clientID +:+ of_bytes [Ascii.ascii_of_nat 0] +:+ redirectURI)
  end.
Definition oauthCSRFValid (rq : HttpRequest) (got clientID redirectURI : string) : bool :=
  let want := oauthCSRF rq clientID redirectURI in
  if String.eqb want "" || String.eqb got "" then false else String.eqb want got.

(** The session the browser shows, over the authentication state. *)
Definition claims_of (rq : HttpRequest) : OM (option Claims) := fun s =>
  let '(a, r) := SessionGate.sessionClaims rq (oauth s) in (set_oauth a s, Ok match r with Ok c => c | Err _ => None end).

Definition clientDisplay (c : OAuthClient) : string := if negb (String.eqb (ocName c) "") then ocName c else ocID c.

Definition handleOAuthAuthorize (p : authzParams) (responseType : string) (rq : HttpRequest) : OM OReply :=
  client ← validateClientRedirect p;
  _ ← ensure (String.eqb responseType "code") (authzRedirectError p "unsupported_response_type");
  _ ← ensure (negb (String.eqb (codeChallenge p) "") && String.eqb (pmethod p) "S256") (authzRedirectError p "invalid_request");
  _ ← ensure (resourceOK (resource p)) (authzRedirectError p "invalid_target");
  c ← claims_of rq;
  match c with
  | None => mret LoginNeeded
  | Some claims => mret (ConsentPage (cUsername claims) (clientDisplay client) (oauthCSRF rq (clientID p) (redirectURI p)))
  end.

Definition handleOAuthAuthorizeDecision (p : authzParams) (csrf decision readonly : string) (rq : HttpRequest) : OM OReply :=
  client ← validateClientRedirect p;
  c ← claims_of rq;
  match c with
  | None => mret LoginNeeded
  | Some claims =>
      _ ← ensure (oauthCSRFValid rq csrf (clientID p) (redirectURI p)) (JSONErr 403 "invalid CSRF token");
      _ ← ensure (negb (String.eqb (codeChallenge p) "") && String.eqb (pmethod p) "S256" && resourceOK (resource p))
            (authzRedirectError p "invalid_request");
      _ ← ensure (String.eqb decision "allow") (authzRedirectError p "access_denied");
      let scope := if String.eqb readonly "1" then scopeReadOnly else scopeFull in
      code ← otoken;
      now ← onow;
      r ← ostore (CreateOAuthCode ofault (hashToken code)
            (mkCode (ocID client) (cUserID claims) (redirectURI p) (codeChallenge p) mcpResource scope (now + oauthCodeTTL)));
      match r with
      | Err _ => reply (JSONErr 500 "could not issue code")
      | Ok _ =>
          _ ← oaudit_ "mcp.oauth.authorize" (cUsername claims) ("client=" +:+ ocID client +:+ " scope=" +:+ scope);
          match url_Parse (redirectURI p) with
          | None => reply Panic
          | Some _ => mret (Redirected (redirectURI p) ([("code", code); ("iss", mcpBase)] ++ state_param p))
          end
      end
  end.

(** ** Access tokens (mcp/oauth_token.go)

    [None] for its error; the expiry claim has whole seconds. *)
Definition MintAccessToken (issuer resource : string) (userID : Z) (clientID sessionID : string) (readOnly : bool) (ttl : Z) : OM (option (string * Z)) :=
  if String.eqb mcpSigningKey "" || String.eqb clientID "" || String.eqb sessionID "" then mret None
  else
    now ← onow;
    n ← otick;
    match at_rand n with
    | None => mret None
    | Some jti =>
        let exp := now + ttl in
        mret (Some (at_sign mcpSigningKey
          (mkAccess issuer (FormatInt userID) resource (Some (rfc3339 exp)) jti readOnly clientID sessionID), exp))
    end.

(** ** The token endpoint *)
Definition verifyPKCE (verifier challenge : string) : bool :=
  if String.eqb verifier "" || String.eqb challenge "" then false else String.eqb (pkceHash verifier) challenge.

Definition issueTokens (info : SessionInfo) (clientID : string) (userID : Z) (scope resource sessionID : string) : OM OReply :=
  let readOnly := String.eqb scope scopeReadOnly in
  access ← MintAccessToken mcpBase resource userID clientID sessionID readOnly AccessTokenTTL;
  match access with
  | None => reply (OAuthErr 500 "server_error" "")
  | Some (access, _) =>
      refresh ← otoken;
      t ← onow;
      let refreshExpiry := t + oauthRefreshTTL in
      r ← ostore (CreateRefreshToken ofault (hashToken refresh) (mkRefresh clientID userID scope resource refreshExpiry sessionID));
      _ ← ensure (is_ok r) (OAuthErr 500 "server_error" "");
      now ← onow;
      r ← ostore (CreateMCPOAuthSession ofault (mkMSession sessionID clientID userID (IP info) (UserAgent info) 0 0 refreshExpiry) now);
      _ ← ensure (is_ok r) (OAuthErr 500 "server_error" "");
      mret (Tokens (mkTokens access (AccessTokenTTL / second) refresh scope))
  end.

Definition tokenFromCode (info : SessionInfo) (code client_id redirect_uri verifier : string) : OM OReply :=
  r ← ostore (ConsumeOAuthCode ofault (hashToken code));
  match r with
  | Err _ => reply (OAuthErr 400 "invalid_grant" "unknown or used code")
  | Ok rec =>
      now ← onow;
      _ ← ensure (negb (After now (cdExpiresAt rec))) (OAuthErr 400 "invalid_grant" "code expired");
      _ ← ensure (String.eqb client_id (cdClientID rec) && String.eqb redirect_uri (cdRedirectURI rec))
            (OAuthErr 400 "invalid_grant" "client/redirect mismatch");
      _ ← ensure (String.eqb (cdResource rec) mcpResource) (OAuthErr 400 "invalid_grant" "resource mismatch");
      _ ← ensure (verifyPKCE verifier (cdChallenge rec)) (OAuthErr 400 "invalid_grant" "PKCE verification failed");
      sessionID ← otoken;
      issueTokens info (cdClientID rec) (cdUserID rec) (cdScope rec) (cdResource rec) sessionID
  end.

(** The check a rotation runs on the token it has consumed. *)
Definition validate_refresh (now : Z) (client_id : string) (rec : OAuthRefreshToken) : option OErr :=
  if negb (IsZero (rtExpiresAt rec)) && After now (rtExpiresAt rec) then Some ErrRefreshTokenExpired
  else if negb (String.eqb client_id (rtClientID rec)) then Some ErrRefreshClientMismatch
  else if negb (String.eqb (rtResource rec) mcpResource) then Some ErrRefreshResourceMismatch
  else None.

Definition tokenFromRefresh (info : SessionInfo) (presented client_id : string) : OM OReply :=
  refresh ← otoken;
  t ← onow;
  let refreshExpiry := t + oauthRefreshTTL in
  candidate ← otoken;
  tv ← onow; now ← onow;
  r ← ostore (RotateRefreshToken ofault (hashToken presented) (validate_refresh tv client_id) candidate (IP info) (UserAgent info)
        refreshExpiry (hashToken refresh) refreshExpiry now);
  match r with
  | Ok (_, Err ErrRefreshTokenExpired) => reply (OAuthErr 400 "invalid_grant" "refresh token expired")
  | Ok (_, Err ErrRefreshClientMismatch) => reply (OAuthErr 400 "invalid_grant" "client mismatch")
  | Ok (_, Err ErrRefreshResourceMismatch) => reply (OAuthErr 400 "invalid_grant" "resource mismatch")
  | Ok (_, Err _) | Err _ => reply (OAuthErr 400 "invalid_grant" "unknown refresh token")
  | Ok (rec, Ok sessionID) =>
      access ← MintAccessToken mcpBase (rtResource rec) (rtUserID rec) (rtClientID rec) sessionID
                 (String.eqb (rtScope rec) scopeReadOnly) AccessTokenTTL;
      match access with
      | None => reply (OAuthErr 500 "server_error" "")
      | Some (access, _) => mret (Tokens (mkTokens access (AccessTokenTTL / second) refresh (rtScope rec)))
      end
  end.

Inductive grant :=
  | AuthorizationCode (code client_id redirect_uri verifier : string)
  | RefreshToken (token client_id : string)
  | OtherGrant.

Definition handleOAuthToken (info : SessionInfo) (g : grant) : OM OReply :=
  match g with
  | AuthorizationCode code cid uri v => tokenFromCode info code cid uri v
  | RefreshToken tok cid => tokenFromRefresh info tok cid
  | OtherGrant => reply (OAuthErr 400 "unsupported_grant_type" "")
  end.
End Server.

(** ** Inversion *)
Section OAuthSpec.
Context `{E : AuthEnv} `{OE : OAuthEnv}.
#[local] Existing Instance OM_ret.
#[local] Existing Instance OM_bind.

Lemma om_bind {A B} (m : OM A) (k : A -> OM B) s : (m ≫= k) s = match m s with (s1, Ok a) => k a s1 | (s1, Err r) => (s1, Err r) end.
Proof. done. Qed.
Lemma om_ok {A B} (m : OM A) (k : A -> OM B) s s' b : (m ≫= k) s = (s', Ok b) -> exists s1 a, m s = (s1, Ok a) /\ k a s1 = (s', Ok b).
Proof. apply st_bind_ok. Qed.
Lemma ensure_true r s : ensure true r s = (s, Ok tt).
Proof. done. Qed.
Lemma ensure_ok ok r s s' u : ensure ok r s = (s', Ok u) -> ok = true /\ s' = s.
Proof. unfold ensure. destruct ok; [|done]. by intros [= <-]. Qed.
Lemma ostore_ok {A} (m : stM ODB OErr A) s s' r : ostore m s = (s', Ok r) ->
  m (odb s) = (odb s', r) /\ oauth s' = oauth s /\ oaudit s' = oaudit s.
Proof. unfold ostore. destruct (m (odb s)) as [d x] eqn:E0. intros [= <- <-]. done. Qed.
(** Clock, tokens: nothing but the tick moves. *)
Definition quiet_om {A} (m : OM A) : Prop := forall s, odb (m s).1 = odb s /\ oauth (m s).1 = oauth s.
Lemma quiet_run {A} (m : OM A) s s' r : quiet_om m -> m s = (s', r) -> odb s' = odb s /\ oauth s' = oauth s.
Proof. intros H Hm. specialize (H s). by rewrite Hm in H. Qed.
Lemma quiet_ret {A} (a : A) : quiet_om (mret a).
Proof. done. Qed.
Lemma quiet_reply {A} r : quiet_om (reply r : OM A).
Proof. done. Qed.
Lemma quiet_bind {A B} (m : OM A) (k : A -> OM B) : quiet_om m -> (forall a, quiet_om (k a)) -> quiet_om (m ≫= k).
Proof.
  intros Hm Hk s. rewrite om_bind. specialize (Hm s). destruct (m s) as [s1 [a|r]]; [|done]. cbn in Hm.
  destruct (Hk a s1) as [-> ->]. done.
Qed.
Lemma quiet_tick : quiet_om otick. Proof. by intros []. Qed.
Lemma quiet_now : quiet_om onow. Proof. by intros []. Qed.
Lemma quiet_token : quiet_om otoken. Proof. by intros []. Qed.
Lemma quiet_ensure ok r : quiet_om (ensure ok r). Proof. by destruct ok. Qed.
Lemma quiet_audit a t d : quiet_om (oaudit_ a t d). Proof. done. Qed.
Lemma quiet_mint i r u c s ro ttl : quiet_om (MintAccessToken i r u c s ro ttl).
Proof.
  unfold MintAccessToken. destruct (_ || _); [done|]. apply quiet_bind; [apply quiet_now|]. intros now.
  apply quiet_bind; [apply quiet_tick|]. intros n. by destruct (at_rand n).
Qed.
End OAuthSpec.

#[export] Hint Resolve quiet_ret quiet_reply quiet_bind quiet_tick quiet_now quiet_token quiet_ensure quiet_audit quiet_mint : go.

(** Run one step of a successful handler; the same for a step that leaves the tables alone. *)
Ltac ostep H s a Hm := apply om_ok in H as (s & a & Hm & H); cbv beta zeta in H.
Ltac oquiet H s a Hq := let Hm := fresh in apply om_ok in H as (s & a & Hm & H); cbv beta zeta in H;
  apply quiet_run in Hm as [Hq _]; [|by auto with go].

Section OAuthTheorems.
Context `{E : AuthEnv} `{OE : OAuthEnv}.
#[local] Existing Instance OM_ret.
#[local] Existing Instance OM_bind.

Definition registered_for (uri : string) (p : authzParams) (s : OState) : Prop :=
  exists c, oclients (odb s) !! clientID p = Some c /\ uri ∈ RedirectURIs c.

Lemma validate_inv p s : match validateClientRedirect p s with
  | (s', Ok c) => s' = s /\ oclients (odb s) !! clientID p = Some c /\ redirectURI p ∈ RedirectURIs c
  | (_, Err r) => exists m, r = ErrorPage m
  end.
Proof.
  unfold validateClientRedirect. rewrite om_bind. unfold ostore, OAuthClientByID, oq. destruct (ofault QCByID); [cbn; eauto|].
  cbn. destruct (oclients (odb s) !! clientID p) as [c|]; [|cbn; eauto]. destruct (existsb _ _) eqn:Ex; [|cbn; eauto]. cbn.
  apply existsb_exists in Ex as (u & Hu%list_elem_of_In & ->%String.eqb_eq). destruct s. auto.
Qed.

(** Where a handler sends the browser. *)
Definition goes_to (uri : string) (r : result OReply OReply) : Prop :=
  exists ps, r = Ok (Redirected uri ps) \/ r = Err (Redirected uri ps).

(** A step, and a handler, that redirects nowhere but to the request's URI. *)
Definition errs_home {A} (p : authzParams) (m : OM A) : Prop := forall s uri ps, (m s).2 = Err (Redirected uri ps) -> uri = redirectURI p.
Definition home (p : authzParams) (m : OM OReply) : Prop :=
  errs_home p m /\ forall s uri ps, (m s).2 = Ok (Redirected uri ps) -> uri = redirectURI p.

Lemma home_bind {A} p (m : OM A) k : errs_home p m -> (forall a, home p (k a)) -> home p (m ≫= k).
Proof.
  intros Hm Hk. split; intros s uri ps; rewrite om_bind; specialize (Hm s); destruct (m s) as [s1 [a|r]]; cbn; try apply Hk; [|done].
  intros [= ->]. by eapply Hm.
Qed.
Lemma home_ret p r : (forall uri ps, r = Redirected uri ps -> uri = redirectURI p) -> home p (mret r).
Proof. intros H. split; [done|]. intros s uri ps [= ->]. by eapply H. Qed.
Lemma home_reply p r : (forall uri ps, r <> Redirected uri ps) -> home p (reply r).
Proof. intros H. split; [|done]. intros s uri ps [= ->]. by edestruct H. Qed.
Lemma home_ensure p ok r : (forall uri ps, r = Redirected uri ps -> uri = redirectURI p) -> errs_home p (ensure ok r).
Proof. intros H s uri ps. unfold ensure. destruct ok; [done|]. intros [= ->]. by eapply H. Qed.
Lemma home_store {A} p (m : stM ODB OErr A) : errs_home p (ostore m).
Proof. intros s uri ps. unfold ostore. by destruct (m (odb s)). Qed.
Lemma home_claims p rq : errs_home p (claims_of rq).
Proof. intros s uri ps. unfold claims_of. by destruct (sessionClaims rq (oauth s)). Qed.
Lemma home_token p : errs_home p otoken.
Proof. by intros []. Qed.
Lemma home_now p : errs_home p onow.
Proof. by intros []. Qed.
Lemma home_audit p a t d : errs_home p (oaudit_ a t d).
Proof. done. Qed.
Lemma authz_error_target p code uri ps : authzRedirectError p code = Redirected uri ps -> uri = redirectURI p.
Proof. unfold authzRedirectError. destruct (url_Parse _); [|done]. by intros [= <- _]. Qed.

#[local] Hint Resolve home_bind home_ret home_reply home_ensure home_store home_claims home_token home_now home_audit authz_error_target : core.

(** the authorization endpoint is no open redirector.  Wherever the consent page or
    its decision sends the browser, with a code or with an error, is a redirect URI
    registered, character for character, by the client the request names. *)
Theorem redirect_is_registered p rt csrf decision readonly rq s uri :
  goes_to uri (handleOAuthAuthorize p rt rq s).2 \/ goes_to uri (handleOAuthAuthorizeDecision p csrf decision readonly rq s).2 ->
  registered_for uri p s.
Proof.
  assert (Hval : forall (k : OAuthClient -> OM OReply), (forall c, home p (k c)) ->
    goes_to uri ((validateClientRedirect p ≫= k) s).2 -> registered_for uri p s).
  { intros k Hk [ps H]. rewrite om_bind in H. pose proof (validate_inv p s) as Hv.
    destruct (validateClientRedirect p s) as [s1 [c|r]].
    - destruct Hv as (-> & Hc & Hu). exists c. destruct (Hk c) as [He Ho].
      assert (uri = redirectURI p) as -> by (destruct H; [by eapply Ho|by eapply He]). done.
    - destruct Hv as [m ->]. by destruct H. }
  intros [H|H]; revert H; apply Hval; intros client.
  - apply home_bind; [eauto|]. intros u1. apply home_bind; [eauto|]. intros u2. apply home_bind; [eauto|]. intros u3.
    apply home_bind; [eauto|]. intros [c|]; by apply home_ret.
  - apply home_bind; [eauto|]. intros [c|]; [|by apply home_ret].
    apply home_bind; [by apply home_ensure|]. intros u1. apply home_bind; [eauto|]. intros u2. apply home_bind; [eauto|]. intros u3.
    cbv zeta. apply home_bind; [eauto|]. intros code. apply home_bind; [eauto|]. intros now. apply home_bind; [eauto|].
    intros [u|e]; [|by apply home_reply]. apply home_bind; [eauto|]. intros u4.
    destruct (url_Parse _); [apply home_ret; by intros ? ? [= <- _]|by apply home_reply].
Qed.

End OAuthTheorems.

(** ** The token endpoint *)
Section Grants.
Context `{E : AuthEnv} `{OE : OAuthEnv}.
#[local] Existing Instance OM_ret.
#[local] Existing Instance OM_bind.

(** An access token of this server for an account, a client and a session. *)
Definition access_for (userID : Z) (client sid res : string) (ro : bool) (tok : string) : Prop :=
  exists jti k, tok = at_sign mcpSigningKey (mkAccess mcpBase (FormatInt userID) res (Some (rfc3339 (oclock k + AccessTokenTTL))) jti ro client sid).

Lemma mint_inv iss res uid cid sid ro ttl s s' tok exp : MintAccessToken iss res uid cid sid ro ttl s = (s', Ok (Some (tok, exp))) ->
  odb s' = odb s /\ mcpSigningKey <> "" /\ cid <> "" /\ sid <> "" /\
  exists jti k, exp = oclock k + ttl /\ tok = at_sign mcpSigningKey (mkAccess iss (FormatInt uid) res (Some (rfc3339 exp)) jti ro cid sid).
Proof.
  intros H. pose proof (quiet_run _ _ _ _ (quiet_mint iss res uid cid sid ro ttl) H) as [Hd _]. split; [done|].
  unfold MintAccessToken in H. destruct (_ || _) eqn:Eb; [done|]. bsimp.
  apply om_ok in H as (s1 & now & [= _ <-] & H). apply om_ok in H as (s2 & n & _ & H). destruct (at_rand n) as [jti|]; [|done].
  injection H as <- <- <-. split; [done|]. split; [done|]. split; [done|]. eauto.
Qed.

Lemma issueTokens_inv info cid uid scope res sid s s' t : issueTokens info cid uid scope res sid s = (s', Ok (Tokens t)) ->
  access_for uid cid sid res (String.eqb scope scopeReadOnly) (access_token t) /\ tscope t = scope /\
  oclients (odb s') = oclients (odb s) /\ ocodes (odb s') = ocodes (odb s) /\
  exists e1 e2, otokens (odb s') = <[hashToken (refresh_token t) := mkRefresh cid uid scope res e1 sid]> (otokens (odb s)) /\
    exists row, osessions (odb s') = <[sid := row]> (osessions (odb s)) /\ msUserID row = uid /\ msClientID row = cid /\ msExpiresAt row = e2.
Proof.
  unfold issueTokens. cbv zeta. intros H. ostep H s1 access Hm. destruct access as [[tok exp]|]; [|done].
  apply mint_inv in Hm as (Hd & _ & _ & _ & jti & now & -> & ->). oquiet H s2 refresh Q2. oquiet H s3 t1 Q3.
  ostep H s4 r Hr. apply ostore_ok in Hr as (Hr & _ & _). ostep H s5 u He. apply ensure_ok in He as [Hok ->]. oquiet H s6 t2 Q6.
  ostep H s7 r2 Hr2. apply ostore_ok in Hr2 as (Hr2 & _ & _). ostep H s8 u2 He. apply ensure_ok in He as [Hok2 ->]. injection H as <- <-.
  destruct r as [[]|]; [|done]. destruct r2 as [[]|]; [|done].
  apply oinsert_ok in Hr as [_ Hr]. apply oinsert_ok in Hr2 as [_ Hr2]. cbn [access_token refresh_token tscope].
  split; [by exists jti, now|]. split; [done|]. rewrite Hr2. cbn. rewrite Q6, Hr. cbn. rewrite Q3, Q2, Hd.
  split; [done|]. split; [done|]. eexists _, _. split; [reflexivity|]. eexists. split; [reflexivity|]. split; [reflexivity|]. split; reflexivity.
Qed.

Lemma grant_inv info code cid uri verifier s s' t :
  tokenFromCode info code cid uri verifier s = (s', Ok (Tokens t)) ->
  exists rec now sid, ocodes (odb s) !! hashToken code = Some rec /\ now <= cdExpiresAt rec /\
    cdClientID rec = cid /\ cdRedirectURI rec = uri /\ cdResource rec = mcpResource /\
    verifier <> "" /\ cdChallenge rec <> "" /\ pkceHash verifier = cdChallenge rec /\
    access_for (cdUserID rec) cid sid mcpResource (String.eqb (cdScope rec) scopeReadOnly) (access_token t) /\
    tscope t = cdScope rec /\ ocodes (odb s') = delete (hashToken code) (ocodes (odb s)) /\
    (exists e, otokens (odb s') = <[hashToken (refresh_token t) := mkRefresh cid (cdUserID rec) (cdScope rec) mcpResource e sid]> (otokens (odb s))) /\
    exists row, osessions (odb s') = <[sid := row]> (osessions (odb s)) /\ msUserID row = cdUserID rec /\ msClientID row = cid.
Proof.
  unfold tokenFromCode. intros H. ostep H s1 r Hr. apply ostore_ok in Hr as (Hr & _ & _).
  destruct r as [rec|]; [|done]. apply ConsumeOAuthCode_inv in Hr as [Hrec Hd].
  apply om_ok in H as (s2 & now & Hn & H). cbv beta zeta in H. apply quiet_run in Hn as [Hn _]; [|apply quiet_now].
  ostep H s3 u3 H3. apply ensure_ok in H3 as [H3 ->]. ostep H s4 u4 H4. apply ensure_ok in H4 as [H4 ->].
  ostep H s5 u5 H5. apply ensure_ok in H5 as [H5 ->]. ostep H s6 u6 H6. apply ensure_ok in H6 as [H6 ->].
  apply om_ok in H as (s7 & sid & Ht & H). cbv beta zeta in H. apply quiet_run in Ht as [Ht _]; [|apply quiet_token].
  apply issueTokens_inv in H as (Hacc & Hsc & Hoc & Hoco & e1 & e2 & Htok & row & Hrow & Hru & Hrc & _).
  unfold After in H3. unfold verifyPKCE in H6. destruct (_ || _) eqn:Ev in H6; [done|]. bsimp.
  rewrite Ht, Hn, Hd in *. cbn in Hoco, Htok, Hrow. exists rec, now, sid.
  rewrite H5 in *. subst cid uri. split; [done|]. split; [done|]. repeat (split; [done|]). split; [by exists e1|]. by exists row.
Qed.

Lemma tokenFromCode_clients info code cid uri verifier s s' t :
  tokenFromCode info code cid uri verifier s = (s', Ok (Tokens t)) -> oclients (odb s') = oclients (odb s).
Proof.
  unfold tokenFromCode. intros H. ostep H s1 r Hr. apply ostore_ok in Hr as (Hr & _ & _).
  destruct r as [rec|]; [|done]. apply ConsumeOAuthCode_inv in Hr as [_ Hd]. oquiet H s2 now Q2.
  ostep H s3 u3 H3. apply ensure_ok in H3 as [_ ->]. ostep H s4 u4 H4. apply ensure_ok in H4 as [_ ->].
  ostep H s5 u5 H5. apply ensure_ok in H5 as [_ ->]. ostep H s6 u6 H6. apply ensure_ok in H6 as [_ ->]. oquiet H s7 sid Q7.
  apply issueTokens_inv in H as (_ & _ & Hoc & _). by rewrite Hoc, Q7, Q2, Hd.
Qed.

(** a code buys exactly what was consented to.  A successful exchange consumed a
    stored code that had not expired, for the very client and redirect URI of the
    request and this server's resource, proved by a verifier hashing to the code's
    challenge; the access token names the account, client and a fresh session and is
    read-only exactly when the consent was; and the refresh token and the session row
    stored are of the same client, account and scope. *)
Theorem code_grant_bound info code cid uri verifier s s' t :
  tokenFromCode info code cid uri verifier s = (s', Ok (Tokens t)) ->
  exists rec now sid, ocodes (odb s) !! hashToken code = Some rec /\ now <= cdExpiresAt rec /\
    cdClientID rec = cid /\ cdRedirectURI rec = uri /\ cdResource rec = mcpResource /\
    verifier <> "" /\ cdChallenge rec <> "" /\ pkceHash verifier = cdChallenge rec /\
    access_for (cdUserID rec) cid sid mcpResource (String.eqb (cdScope rec) scopeReadOnly) (access_token t) /\
    tscope t = cdScope rec /\ ocodes (odb s') = delete (hashToken code) (ocodes (odb s)) /\
    (exists e, otokens (odb s') = <[hashToken (refresh_token t) := mkRefresh cid (cdUserID rec) (cdScope rec) mcpResource e sid]> (otokens (odb s))) /\
    exists row, osessions (odb s') = <[sid := row]> (osessions (odb s)) /\ msUserID row = cdUserID rec /\ msClientID row = cid.
Proof. apply grant_inv. Qed.

(** a refresh grants nothing new.  A successful refresh was backed by a stored,
    unexpired refresh token of the same client and this server's resource, which is
    gone; the new access token is for the same account, the same session if it had
    one, and read-only exactly when the original consent was. *)
Theorem refresh_grants_nothing_new info presented cid s s' t :
  tokenFromRefresh info presented cid s = (s', Ok (Tokens t)) ->
  exists rec sid now, otokens (odb s) !! hashToken presented = Some rec /\ rtClientID rec = cid /\ rtResource rec = mcpResource /\
    (rtExpiresAt rec = 0 \/ now <= rtExpiresAt rec) /\
    access_for (rtUserID rec) cid sid mcpResource (String.eqb (rtScope rec) scopeReadOnly) (access_token t) /\
    (rtSessionID rec <> "" -> sid = rtSessionID rec) /\ tscope t = rtScope rec /\
    is_Some (osessions (odb s') !! sid) /\
    (exists e, otokens (odb s') = <[hashToken (refresh_token t) := mkRefresh cid (rtUserID rec) (rtScope rec) mcpResource e sid]>
                                 (delete (hashToken presented) (otokens (odb s)))).
Proof.
  unfold tokenFromRefresh. intros H. oquiet H s1 refresh Q1. oquiet H s2 t2 Q2. oquiet H s3 cand Q3. oquiet H s4 tv Q4. oquiet H s5 now Q5.
  ostep H s6 r Hr. apply ostore_ok in Hr as (Hr & _ & _).
  assert (Hodb : odb s5 = odb s) by congruence. rewrite Hodb in Hr.
  pose proof (rotation_exact ofault (hashToken presented) (validate_refresh tv cid) cand (IP info) (UserAgent info) (t2 + oauthRefreshTTL)
    (hashToken refresh) (t2 + oauthRefreshTTL) now (odb s)) as Hex. rewrite Hr in Hex.
  destruct r as [[rec [sid|[]]]|]; try done. destruct Hex as (Hrec & Hval & Hsid & _ & _ & _ & Htok & row & Hrow & _).
  unfold validate_refresh in Hval. destruct (_ && _) eqn:E1 in Hval; [done|]. destruct (negb _) eqn:E2 in Hval; [done|].
  destruct (negb _) eqn:E3 in Hval; [done|]. bsimp. ostep H s7 access Hm. destruct access as [[tok exp]|]; [|done].
  apply mint_inv in Hm as (Hd & _ & _ & _ & jti & mnow & -> & ->). injection H as <- <-. cbn [access_token refresh_token tscope].
  exists rec, sid, tv. rewrite Hd, Htok, Hrow, E2, E3. split; [done|]. split; [done|]. split; [done|]. split.
  { apply andb_false_iff in E1 as [E1|E1]; unfold IsZero, After in E1; bsimp; auto. }
  split; [by exists jti, mnow|]. split. { intros Hne. rewrite Hsid. by rewrite (proj2 (String.eqb_neq _ _) Hne). }
  split; [done|]. split; [rewrite lookup_insert_eq; eauto|]. eauto.
Qed.
End Grants.
