(* ===== verification/Server.v ===== *)
(** * The HTTP surface (internal/api/server.go)

    The route table of the server, in the order of the code, the middleware in front of
    it, and what it takes to reach a handler. *)
From S2P Require Import Prelude Limits GoStrings Password NetIP Paths Config Users Roles Access Calendar Accounts Login Passkeys SessionGate ClientIP LoginSpec OAuthStore ApiTokens OAuth.

(** ** The route table *)

(** A method ("" answers every one), a pattern, and the handler it is bound to. *)
Record Route := mkRoute { rtMethod : string; rtPattern : string; rtHandler : string }.

(** Before signing in. *)
Definition public_routes : list Route := [
  mkRoute "GET" "/api/auth/status" "handleAuthStatus";
  mkRoute "POST" "/api/auth/setup" "handleSetup";
  mkRoute "POST" "/api/auth/login" "handleLogin";
  mkRoute "POST" "/api/auth/2fa" "handleVerify2FA";
  mkRoute "POST" "/api/auth/2fa/webauthn/begin" "handlePasskeyLoginBegin";
  mkRoute "POST" "/api/auth/2fa/webauthn/finish" "handlePasskeyLoginFinish";
  mkRoute "GET" "/api/auth/webauthn/support" "handlePasskeySupport";
  mkRoute "POST" "/api/auth/passkey/begin" "handlePasswordlessBegin";
  mkRoute "POST" "/api/auth/passkey/finish" "handlePasswordlessFinish"].

(** The signed-in account's own affairs. *)
Definition account_routes : list Route := [
  mkRoute "GET" "/api/auth/me" "handleMe";
  mkRoute "POST" "/api/auth/logout" "handleLogout";
  mkRoute "GET" "/api/auth/sessions" "handleListSessions";
  mkRoute "DELETE" "/api/auth/sessions/{id}" "handleDeleteSession";
  mkRoute "POST" "/api/auth/sessions/revoke-others" "handleRevokeOtherSessions";
  mkRoute "PUT" "/api/auth/me/email" "handleSetMyEmail";
  mkRoute "PUT" "/api/auth/me/password" "handleChangeMyPassword";
  mkRoute "GET" "/api/auth/me/access" "handleMyAccess";
  mkRoute "POST" "/api/auth/totp/setup" "handleTOTPSetup";
  mkRoute "POST" "/api/auth/totp/enable" "handleTOTPEnable";
  mkRoute "PUT" "/api/auth/passwordless" "handlePasswordlessSetting";
  mkRoute "GET" "/api/auth/factors" "handleListFactors";
  mkRoute "DELETE" "/api/auth/factors/{id}" "handleDeleteFactor";
  mkRoute "POST" "/api/auth/webauthn/register/begin" "handlePasskeyRegisterBegin";
  mkRoute "POST" "/api/auth/webauthn/register/finish" "handlePasskeyRegisterFinish";
  mkRoute "GET" "/api/mcp/status" "handleMCPStatus";
  mkRoute "GET" "/api/mcp/tokens" "handleListMCPTokens";
  mkRoute "POST" "/api/mcp/tokens" "handleCreateMCPToken";
  mkRoute "DELETE" "/api/mcp/tokens/{id}" "handleRevokeMCPToken";
  mkRoute "GET" "/api/mcp/sessions" "handleListMCPSessions";
  mkRoute "DELETE" "/api/mcp/sessions/{id}" "handleRevokeMCPSession"].

(** Accounts, roles, settings, updates, policy, backups. *)
Definition admin_routes : list Route := [
  mkRoute "GET" "/api/mcp-admin/tokens" "handleAdminListMCPTokens";
  mkRoute "DELETE" "/api/mcp-admin/tokens/{id}" "handleAdminRevokeMCPToken";
  mkRoute "GET" "/api/mcp-admin/token-policy" "handleAdminGetMCPTokenPolicy";
  mkRoute "PUT" "/api/mcp-admin/token-policy" "handleAdminSetMCPTokenPolicy";
  mkRoute "GET" "/api/mcp-admin/oauth-clients" "handleAdminListOAuthClients";
  mkRoute "DELETE" "/api/mcp-admin/oauth-clients/{id}" "handleAdminDeleteOAuthClient";
  mkRoute "GET" "/api/mcp-admin/sessions" "handleAdminListMCPSessions";
  mkRoute "DELETE" "/api/mcp-admin/sessions/{id}" "handleAdminRevokeMCPSession";
  mkRoute "GET" "/api/roles" "handleListRoles";
  mkRoute "POST" "/api/roles" "handleCreateRole";
  mkRoute "PUT" "/api/roles/{id}" "handleUpdateRole";
  mkRoute "DELETE" "/api/roles/{id}" "handleDeleteRole";
  mkRoute "POST" "/api/roles/{id}/duplicate" "handleDuplicateRole";
  mkRoute "GET" "/api/users" "handleListUsers";
  mkRoute "POST" "/api/users" "handleCreateUser";
  mkRoute "PATCH" "/api/users/{id}" "handleUpdateUser";
  mkRoute "POST" "/api/users/{id}/password" "handleResetUserPassword";
  mkRoute "DELETE" "/api/users/{id}" "handleDeleteUser";
  mkRoute "GET" "/api/settings" "handleGetSettings";
  mkRoute "PUT" "/api/settings" "handleSetSettings";
  mkRoute "GET" "/api/settings/retention" "handleGetRetention";
  mkRoute "PUT" "/api/settings/retention" "handleSetRetention";
  mkRoute "POST" "/api/settings/retention/purge" "handlePurgeRetention";
  mkRoute "GET" "/api/ldap" "handleGetLDAP";
  mkRoute "PUT" "/api/ldap" "handleSetLDAP";
  mkRoute "POST" "/api/ldap/test" "handleTestLDAP";
  mkRoute "GET" "/api/update" "handleUpdateStatus";
  mkRoute "POST" "/api/update" "handleApplyUpdate";
  mkRoute "POST" "/api/update/restart" "handleRestart";
  mkRoute "PUT" "/api/update/policy" "handleSetSelfUpdatePolicy";
  mkRoute "GET" "/api/policy-rules" "handleGetPolicyRules";
  mkRoute "PUT" "/api/policy-rules" "handleSetPolicyRules";
  mkRoute "GET" "/api/backup-jobs" "handleListBackupJobs";
  mkRoute "POST" "/api/backup-jobs" "handleCreateBackupJob";
  mkRoute "GET" "/api/backup-jobs/{id}" "handleGetBackupJob";
  mkRoute "PUT" "/api/backup-jobs/{id}" "handleUpdateBackupJob";
  mkRoute "PATCH" "/api/backup-jobs/{id}" "handleSetBackupJobEnabled";
  mkRoute "DELETE" "/api/backup-jobs/{id}" "handleDeleteBackupJob";
  mkRoute "POST" "/api/backup-jobs/{id}/run" "handleRunBackupJob";
  mkRoute "GET" "/api/backup-jobs/{id}/runs" "handleListBackupRuns"].

(** Hosts, containers and stacks. *)
Definition host_routes : list Route := [
  mkRoute "GET" "/api/hosts" "handleListHosts";
  mkRoute "POST" "/api/hosts" "handleCreateHost";
  mkRoute "PATCH" "/api/hosts/{id}" "handleUpdateHost";
  mkRoute "DELETE" "/api/hosts/{id}" "handleDeleteHost";
  mkRoute "GET" "/api/hosts/{id}/test" "handleTestHost";
  mkRoute "POST" "/api/hosts/{id}/trust" "handleTrustHost";
  mkRoute "GET" "/api/containers" "handleListContainers";
  mkRoute "POST" "/api/containers" "handleCreateContainer";
  mkRoute "GET" "/api/containers/{id}" "handleInspectContainer";
  mkRoute "GET" "/api/containers/{id}/diff" "handleContainerDiff";
  mkRoute "GET" "/api/containers/{id}/top" "handleContainerTop";
  mkRoute "GET" "/api/containers/{id}/export" "handleExportContainer";
  mkRoute "GET" "/api/containers/{id}/files" "handleListFiles";
  mkRoute "GET" "/api/containers/{id}/files/download" "handleDownloadFile";
  mkRoute "POST" "/api/containers/{id}/files/upload" "handleUploadFile";
  mkRoute "POST" "/api/containers/{id}/files/mkdir" "handleMakeDir";
  mkRoute "POST" "/api/containers/{id}/files/extract" "handleExtractFile";
  mkRoute "DELETE" "/api/containers/{id}/files" "handleDeleteFile";
  mkRoute "POST" "/api/containers/{id}/rename" "handleRenameContainer";
  mkRoute "POST" "/api/containers/{id}/update" "handleUpdateContainer";
  mkRoute "POST" "/api/containers/{id}/commit" "handleCommitContainer";
  mkRoute "POST" "/api/containers/{id}/probe" "handleProbePorts";
  mkRoute "POST" "/api/containers/bulk-action" "handleBulkContainerAction";
  mkRoute "POST" "/api/containers/{id}/{action}" "handleContainerAction";
  mkRoute "GET" "/api/stacks" "handleListStacks";
  mkRoute "GET" "/api/stacks/{project}/compose" "handleStackCompose";
  mkRoute "PUT" "/api/stacks/{project}/compose" "handleWriteStackCompose";
  mkRoute "POST" "/api/stacks/{project}/redeploy" "handleRedeployStack";
  mkRoute "POST" "/api/stacks/{project}/{action}" "handleStackAction"].

(** Projects, domain mappings and recovery bundles. *)
Definition project_routes : list Route := [
  mkRoute "GET" "/api/projects" "handleListProjects";
  mkRoute "POST" "/api/projects" "handleCreateProject";
  mkRoute "POST" "/api/projects/import" "handleImportProject";
  mkRoute "GET" "/api/projects/{id}" "handleGetProject";
  mkRoute "PATCH" "/api/projects/{id}" "handleRenameProject";
  mkRoute "DELETE" "/api/projects/{id}" "handleDeleteProject";
  mkRoute "GET" "/api/projects/{id}/files" "handleListProjectFiles";
  mkRoute "PUT" "/api/projects/{id}/files" "handleWriteProjectFile";
  mkRoute "POST" "/api/projects/{id}/files/raw" "handleUploadProjectFileRaw";
  mkRoute "GET" "/api/projects/{id}/files/raw" "handleDownloadProjectFile";
  mkRoute "DELETE" "/api/projects/{id}/files" "handleDeleteProjectFile";
  mkRoute "POST" "/api/projects/{id}/files/dir" "handleMakeProjectDir";
  mkRoute "GET" "/api/projects/{id}/download" "handleDownloadProject";
  mkRoute "GET" "/api/projects/{id}/profiles" "handleProjectProfiles";
  mkRoute "GET" "/api/projects/{id}/seed-volumes" "handleProjectSeedVolumes";
  mkRoute "POST" "/api/projects/{id}/validate" "handleValidateProject";
  mkRoute "POST" "/api/projects/{id}/resolve" "handleResolveProject";
  mkRoute "GET" "/api/projects/{id}/preview" "handlePreviewProject";
  mkRoute "POST" "/api/projects/{id}/drift/ignore" "handleIgnoreDrift";
  mkRoute "POST" "/api/projects/{id}/drift/unignore" "handleUnignoreDrift";
  mkRoute "GET" "/api/projects/{id}/revisions" "handleListRevisions";
  mkRoute "GET" "/api/projects/{id}/revisions/{rev}" "handleGetRevision";
  mkRoute "GET" "/api/projects/{id}/revisions/{rev}/diff" "handleRevisionDiff";
  mkRoute "POST" "/api/projects/{id}/revisions/{rev}/restore" "handleRestoreRevision";
  mkRoute "POST" "/api/projects/{id}/summary" "handleProjectSummary";
  mkRoute "GET" "/api/projects/{id}/secrets" "handleListProjectSecrets";
  mkRoute "POST" "/api/projects/{id}/secrets" "handleCreateProjectSecret";
  mkRoute "PUT" "/api/projects/{id}/secrets/{name}" "handleUpdateProjectSecret";
  mkRoute "DELETE" "/api/projects/{id}/secrets/{name}" "handleDeleteProjectSecret";
  mkRoute "GET" "/api/projects/{id}/domains" "handleListDomainMappings";
  mkRoute "POST" "/api/projects/{id}/domains" "handleCreateDomainMapping";
  mkRoute "PUT" "/api/projects/{id}/domains/{domainID}" "handleUpdateDomainMapping";
  mkRoute "DELETE" "/api/projects/{id}/domains/{domainID}" "handleDeleteDomainMapping";
  mkRoute "GET" "/api/projects/{id}/domains/services" "handleListDomainMappingServices";
  mkRoute "POST" "/api/recovery/export" "handleExportRecoveryBundle";
  mkRoute "POST" "/api/recovery/inspect" "handleInspectRecoveryBundle";
  mkRoute "POST" "/api/recovery/import" "handleImportRecoveryBundle";
  mkRoute "POST" "/api/projects/{id}/dockerfile-check" "handleCheckDockerfile";
  mkRoute "POST" "/api/projects/{id}/deploy" "handleDeployProject";
  mkRoute "POST" "/api/projects/{id}/down" "handleDownProject";
  mkRoute "POST" "/api/projects/{id}/restart" "handleRestartProject"].

(** Templates, service blocks and fragments. *)
Definition template_routes : list Route := [
  mkRoute "GET" "/api/project-templates" "handleListProjectTemplates";
  mkRoute "POST" "/api/project-templates" "handleCreateProjectTemplate";
  mkRoute "POST" "/api/project-templates/preview" "handlePreviewTemplate";
  mkRoute "POST" "/api/project-templates/{id}/duplicate" "handleDuplicateProjectTemplate";
  mkRoute "GET" "/api/project-templates/{id}" "handleGetProjectTemplate";
  mkRoute "PUT" "/api/project-templates/{id}" "handleUpdateProjectTemplate";
  mkRoute "DELETE" "/api/project-templates/{id}" "handleDeleteProjectTemplate";
  mkRoute "GET" "/api/project-templates/{id}/files" "handleListTemplateFiles";
  mkRoute "PUT" "/api/project-templates/{id}/files" "handleWriteTemplateFile";
  mkRoute "POST" "/api/project-templates/{id}/files/raw" "handleUploadTemplateFileRaw";
  mkRoute "GET" "/api/project-templates/{id}/files/raw" "handleDownloadTemplateFile";
  mkRoute "DELETE" "/api/project-templates/{id}/files" "handleDeleteTemplateFile";
  mkRoute "POST" "/api/project-templates/{id}/files/dir" "handleMakeTemplateDir";
  mkRoute "GET" "/api/project-templates/{id}/download" "handleDownloadTemplate";
  mkRoute "GET" "/api/service-blocks" "handleListServiceBlocks";
  mkRoute "POST" "/api/service-blocks" "handleCreateServiceBlock";
  mkRoute "GET" "/api/service-blocks/{id}" "handleGetServiceBlock";
  mkRoute "PUT" "/api/service-blocks/{id}" "handleUpdateServiceBlock";
  mkRoute "POST" "/api/service-blocks/{id}/duplicate" "handleDuplicateServiceBlock";
  mkRoute "DELETE" "/api/service-blocks/{id}" "handleDeleteServiceBlock";
  mkRoute "GET" "/api/compose-fragments" "handleListComposeFragments";
  mkRoute "POST" "/api/compose-fragments" "handleCreateComposeFragment";
  mkRoute "GET" "/api/compose-fragments/{id}" "handleGetComposeFragment";
  mkRoute "PUT" "/api/compose-fragments/{id}" "handleUpdateComposeFragment";
  mkRoute "POST" "/api/compose-fragments/{id}/duplicate" "handleDuplicateComposeFragment";
  mkRoute "DELETE" "/api/compose-fragments/{id}" "handleDeleteComposeFragment"].

(** Images and registries. *)
Definition image_routes : list Route := [
  mkRoute "GET" "/api/images" "handleListImages";
  mkRoute "GET" "/api/images/search" "handleSearchImages";
  mkRoute "GET" "/api/images/tags" "handleImageTags";
  mkRoute "GET" "/api/images/history" "handleImageHistory";
  mkRoute "GET" "/api/images/scan" "handleScanImage";
  mkRoute "GET" "/api/images/save" "handleSaveImage";
  mkRoute "POST" "/api/images/load" "handleLoadImage";
  mkRoute "POST" "/api/images/import" "handleImportImage";
  mkRoute "POST" "/api/images/tag" "handleTagImage";
  mkRoute "POST" "/api/images/build" "handleBuildImage";
  mkRoute "DELETE" "/api/images" "handleRemoveImage";
  mkRoute "POST" "/api/images/prune" "handlePruneImages";
  mkRoute "GET" "/api/images/ignored-cves" "handleListIgnoredCVEs";
  mkRoute "POST" "/api/images/ignored-cves" "handleIgnoreCVEs";
  mkRoute "DELETE" "/api/images/ignored-cves/{id}" "handleUnignoreCVE";
  mkRoute "GET" "/api/registries" "handleListRegistries";
  mkRoute "POST" "/api/registries" "handleCreateRegistry";
  mkRoute "DELETE" "/api/registries/{id}" "handleDeleteRegistry";
  mkRoute "POST" "/api/registries/{id}/test" "handleTestRegistry"].

(** Networks, volumes, and what the daemon reports. *)
Definition object_routes : list Route := [
  mkRoute "GET" "/api/inspect/{kind}" "handleInspect";
  mkRoute "GET" "/api/networks" "handleListNetworks";
  mkRoute "POST" "/api/networks" "handleCreateNetwork";
  mkRoute "POST" "/api/networks/prune" "handlePruneNetworks";
  mkRoute "GET" "/api/networks/{id}/stats" "handleNetworkStats";
  mkRoute "DELETE" "/api/networks/{id}" "handleRemoveNetwork";
  mkRoute "POST" "/api/networks/{id}/connect" "handleConnectNetwork";
  mkRoute "POST" "/api/networks/{id}/disconnect" "handleDisconnectNetwork";
  mkRoute "GET" "/api/topology" "handleTopology";
  mkRoute "GET" "/api/volumes" "handleListVolumes";
  mkRoute "POST" "/api/volumes" "handleCreateVolume";
  mkRoute "POST" "/api/volumes/prune" "handlePruneVolumes";
  mkRoute "DELETE" "/api/volumes/{name}" "handleRemoveVolume";
  mkRoute "GET" "/api/volumes/{name}/files" "handleListVolumeFiles";
  mkRoute "GET" "/api/volumes/{name}/files/download" "handleDownloadVolumeFile";
  mkRoute "POST" "/api/volumes/{name}/files/upload" "handleUploadVolumeFile";
  mkRoute "POST" "/api/volumes/{name}/files/mkdir" "handleMakeVolumeDir";
  mkRoute "POST" "/api/volumes/{name}/files/extract" "handleExtractVolumeFile";
  mkRoute "DELETE" "/api/volumes/{name}/files" "handleDeleteVolumeFile";
  mkRoute "DELETE" "/api/volumes/{name}/browse" "handleCloseVolumeBrowser";
  mkRoute "GET" "/api/version" "handleVersion";
  mkRoute "GET" "/api/prefs" "handleGetPrefs";
  mkRoute "PUT" "/api/prefs" "handleSetPrefs";
  mkRoute "GET" "/api/system" "handleSystemInfo";
  mkRoute "GET" "/api/system/df" "handleDiskUsage";
  mkRoute "GET" "/api/stats/overview" "handleStatsOverview";
  mkRoute "GET" "/api/stats/disk" "handleDiskReport";
  mkRoute "GET" "/api/stats/ports" "handleHostPorts";
  mkRoute "GET" "/api/stats/top-talkers" "handleTopTalkers";
  mkRoute "GET" "/api/metrics/history" "handleMetricsHistory";
  mkRoute "GET" "/api/audit" "handleAudit";
  mkRoute "POST" "/api/diagnostics/run" "handleRunDiagnostics"].

(** Alerting. *)
Definition alert_routes : list Route := [
  mkRoute "GET" "/api/webhooks" "handleListWebhooks";
  mkRoute "POST" "/api/webhooks" "handleCreateWebhook";
  mkRoute "DELETE" "/api/webhooks/{id}" "handleDeleteWebhook";
  mkRoute "GET" "/api/alert-rules" "handleListAlertRules";
  mkRoute "GET" "/api/alert-rules/export" "handleExportAlertRules";
  mkRoute "POST" "/api/alert-rules/import" "handleImportAlertRules";
  mkRoute "POST" "/api/alert-rules" "handleCreateAlertRule";
  mkRoute "PUT" "/api/alert-rules/{id}" "handleUpdateAlertRule";
  mkRoute "PATCH" "/api/alert-rules/{id}" "handleToggleAlertRule";
  mkRoute "DELETE" "/api/alert-rules/{id}" "handleDeleteAlertRule";
  mkRoute "GET" "/api/alerts" "handleListAlertEvents";
  mkRoute "POST" "/api/alerts/ack-all" "handleAckAllAlertEvents";
  mkRoute "POST" "/api/alerts/{id}/ack" "handleAckAlertEvent";
  mkRoute "GET" "/api/maintenance-windows" "handleListMaintenanceWindows";
  mkRoute "POST" "/api/maintenance-windows" "handleCreateMaintenanceWindow";
  mkRoute "PUT" "/api/maintenance-windows/{id}" "handleUpdateMaintenanceWindow";
  mkRoute "POST" "/api/maintenance-windows/{id}/end" "handleEndMaintenanceWindow";
  mkRoute "DELETE" "/api/maintenance-windows/{id}" "handleDeleteMaintenanceWindow";
  mkRoute "GET" "/api/parse-rules" "handleListParseRules";
  mkRoute "POST" "/api/parse-rules" "handleCreateParseRule";
  mkRoute "DELETE" "/api/parse-rules/{id}" "handleDeleteParseRule";
  mkRoute "GET" "/api/smtp" "handleGetSMTP";
  mkRoute "PUT" "/api/smtp" "handleSetSMTP";
  mkRoute "POST" "/api/smtp/test" "handleTestSMTP"].

(** WebSockets. *)
Definition stream_routes : list Route := [
  mkRoute "GET" "/api/ws" "handleWebSocket";
  mkRoute "GET" "/api/containers/{id}/exec" "handleExec";
  mkRoute "GET" "/api/containers/bulk-pull" "handleBulkPullImages";
  mkRoute "GET" "/api/images/pull" "handlePullImage";
  mkRoute "GET" "/api/images/push" "handlePushImage";
  mkRoute "GET" "/api/events" "handleEvents"].

(** Outside /api: health and metrics, neither behind a session. *)
Definition probe_routes : list Route := [
  mkRoute "GET" "/healthz" "handleHealthz";
  mkRoute "GET" "/health" "handleHealthz";
  mkRoute "GET" "/metrics" "handleMetrics"].

Definition session_routes : list Route :=
  account_routes ++ admin_routes ++ host_routes ++ project_routes ++ template_routes ++ image_routes ++ object_routes
  ++ alert_routes ++ stream_routes.

(** mountMCP: the transport, and the OAuth endpoints when there is a public address. *)
Definition mcp_routes `{ConfigEnv} (cfg : Config) : list Route :=
  let base := TrimRightSlash (cMCPPublicURL cfg) in
  mkRoute "" "/mcp" "mcpHandler" ::
  (if String.eqb base "" then []
   else
     [mkRoute "" "/.well-known/oauth-protected-resource" "metadataHandler";
      mkRoute "" "/.well-known/oauth-protected-resource/mcp" "metadataHandler";
      mkRoute "GET" "/.well-known/oauth-authorization-server" "handleOAuthASMetadata";
      mkRoute "GET" "/.well-known/oauth-authorization-server/mcp" "handleOAuthASMetadata"]
     ++ (match PublicURLPath (cMCPPublicURL cfg) with
         | Ok p =>
             if String.eqb p "" then []
             else [mkRoute "GET" ("/.well-known/oauth-authorization-server" +:+ p) "handleOAuthASMetadata";
                   mkRoute "" ("/.well-known/oauth-protected-resource" +:+ p +:+ "/mcp") "metadataHandler";
                   mkRoute "GET" "/.well-known/openid-configuration" "handleOIDCDiscovery";
                   mkRoute "GET" "/oauth/jwks" "handleOAuthJWKS"]
         | Err _ => []
         end)
     ++ [mkRoute "POST" "/oauth/register" "handleOAuthRegister";
         mkRoute "GET" "/oauth/authorize" "handleOAuthAuthorize";
         mkRoute "POST" "/oauth/authorize" "handleOAuthAuthorizeDecision";
         mkRoute "POST" "/oauth/token" "handleOAuthToken"]).

(** Everything no session stands in front of. *)
Definition open_routes `{ConfigEnv} (cfg : Config) (webFS : bool) : list Route :=
  public_routes ++ probe_routes ++ (if MCPEnabled cfg then mcp_routes cfg else [])
  ++ (if webFS then [mkRoute "" "/*" "spaHandler"] else []).

#[export] Instance Route_eq_dec : EqDecision Route.
Proof. solve_decision. Defined.

(** ** Routing

    The router is the one of go-chi: it looks at the raw path when the request has one,
    and answers with a route whose method and pattern fit, segment by segment. *)
Definition route_path (r : WebRequest) : string := if String.eqb (wRawPath r) "" then wPath r else wRawPath r.

Definition seg_fits (pat seg : string) : bool := HasPrefix pat "{" || String.eqb pat seg.
Fixpoint segs_fit (pats segs : list string) : bool :=
  match pats, segs with
  | ["*"], _ => true
  | [], [] => true
  | p :: pats', s :: segs' => seg_fits p s && segs_fit pats' segs'
  | _, _ => false
  end.
Definition fits (rt : Route) (path : string) : bool := segs_fit (Split (rtPattern rt) slash) (Split path slash).

Class Router := { route_of : list Route -> string -> string -> option Route }.
Class RouterLaws (R : Router) : Prop := {
  route_of_fits rs m path rt : route_of rs m path = Some rt ->
    rt ∈ rs /\ (rtMethod rt = m \/ rtMethod rt = "") /\ fits rt path = true
}.

(** The first route of the table that fits. *)
Definition first_fit : Router := {|
  route_of rs m path := snd <$> list_find (fun rt => ((String.eqb (rtMethod rt) m || String.eqb (rtMethod rt) "") && fits rt path) = true) rs |}.
#[export] Instance first_fit_laws : RouterLaws first_fit.
Proof.
  split. intros rs m path rt H. cbn in H. destruct (list_find _ rs) as [[i x]|] eqn:Ef; [|done]. injection H as <-.
  apply list_find_Some in Ef as (Hi & Hx & _). rewrite andb_true_iff, orb_true_iff, !String.eqb_eq in Hx.
  split; [by eapply list_elem_of_lookup_2|done].
Qed.

(** net/url's unescaping of a path; [None] for a broken escape. *)
Definition hexval (c : Ascii.ascii) : option N :=
  let n := Ascii.N_of_ascii c in
  if (48 <=? n)%N && (n <=? 57)%N then Some (n - 48)%N
  else if (97 <=? n)%N && (n <=? 102)%N then Some (n - 87)%N
  else if (65 <=? n)%N && (n <=? 70)%N then Some (n - 55)%N
  else None.
Fixpoint path_unescape (s : string) : option string :=
  match s with
  | EmptyString => Some EmptyString
  | String c s' =>
      if Ascii.eqb c "%"%char then
        match s' with
        | String a (String b s'') =>
            match hexval a, hexval b, path_unescape s'' with
            | Some h, Some l, Some rest => Some (String (Ascii.ascii_of_N (16 * h + l)) rest)
            | _, _, _ => None
            end
        | _ => None
        end
      else String c <$> path_unescape s'
  end.
(** A URL as net/url makes it: the path is the unescaped raw one. *)
Definition url_wf (r : WebRequest) : Prop := wRawPath r = "" \/ path_unescape (wRawPath r) = Some (wPath r).

(** ** From a request to a handler *)
Inductive Served := Runs (rt : Route) (claims : option Claims) | Refused (status : Z) (msg : string) | NoRoute.

Section Serve.
Context `{E : AuthEnv} `{CE : ConfigEnv} `{R : Router} (EqualFold : string -> string -> bool) (hosts_fault : bool).

#[local] Instance M_ret' : MRet M := M_ret.
#[local] Instance M_bind' : MBind M := M_bind.

(** The store as the permissions middleware asks it. *)
Definition state_store (s : AState) : GrantStore := {|
  gsUserByID id := UserByID acc_fault id (acc s);
  gsEffectiveGrants u := EffectiveGrants role_fault (Some u) (rdb s);
  gsReachableHosts u := ReachableHosts role_fault (Some u) (rdb s);
  gsCanReachHost u h := CanReachHost role_fault (Some u) h (rdb s);
  gsNormalizeHostID h := NormalizeHostID role_fault h (rdb s);
  gsListHosts := if hosts_fault then Err ErrDB else Ok (map_to_list (hosts (rdb s)))
|}.
#[export] Instance state_store_laws s : GrantStoreLaws (state_store s).
Proof. destruct (db_store_laws role_fault ∅ (rdb s) hosts_fault). by split. Qed.

Definition gated (method host : string) (r : WebRequest) : Access.Request := mkReq method (wPath r) host.

Definition serve (cfg : Config) (webFS : bool) (method host : string) (r : WebRequest) : M Served :=
  let r := clientIP (TrustedProxies cfg) (pathPrefix cfg r) in
  match route_of (session_routes ++ open_routes cfg webFS) method (route_path r) with
  | None => mret NoRoute
  | Some rt =>
      if bool_decide (rt ∈ session_routes) then
        c ← RequireSession EqualFold (wGate r);
        match c with
        | None => mret (Refused 401 "unauthorized")
        | Some c =>
            verdict ← gets (fun s => permissions (GS := state_store s) (Some (cUserID c)) (gated method host r));
            mret (match verdict with Next => Runs rt (Some c) | Reply st msg => Refused st msg end)
        end
      else mret (Runs rt None)
  end.
End Serve.

(** oauthThrottle *)
Definition oauthThrottle (limiter : option LoginLimiter) (now : Z) (order : list string) (addr : string) : bool * option LoginLimiter :=
  match limiter with
  | None => (true, None)
  | Some l => if negb (Allow now addr l) then (false, Some l) else (true, Some (Fail now order addr l))
  end.

(** ** What each route demands *)

(** The account's own: changed without any section. *)
Definition self_service : list string :=
  ["handleLogout"; "handleDeleteSession"; "handleRevokeOtherSessions"; "handleSetMyEmail"; "handleChangeMyPassword";
   "handleTOTPSetup"; "handleTOTPEnable"; "handlePasswordlessSetting"; "handleDeleteFactor"; "handlePasskeyRegisterBegin";
   "handlePasskeyRegisterFinish"; "handleCreateMCPToken"; "handleRevokeMCPToken"; "handleRevokeMCPSession"; "handleSetPrefs"].

Definition mutating (rt : Route) : bool := one_of (rtMethod rt) ["POST"; "PUT"; "PATCH"; "DELETE"].

(** The administrator's: accounts, roles, the application itself. *)
Definition administrative : list string :=
  (rtHandler <$> admin_routes)
  ++ ["handleExportRecoveryBundle"; "handleInspectRecoveryBundle"; "handleImportRecoveryBundle";
      "handleCreateWebhook"; "handleDeleteWebhook"; "handleGetSMTP"; "handleSetSMTP"; "handleTestSMTP"].


(** ** Paths and patterns *)
Lemma IndexByte_free s c : c ∉ bytes s -> IndexByte s c = None.
Proof.
  unfold bytes. induction s as [|d s IH]; [done|]. simpl. rewrite not_elem_of_cons. intros [Hd Hs].
  destruct (Ascii.eqb d c) eqn:Ee; [by apply Ascii.eqb_eq in Ee|]. by rewrite IH.
Qed.

(** The segment a path starts with, and its end. *)
Definition opens (seg p : string) : Prop := p = seg \/ exists t, p = seg +:+ String slash t.

Lemma first_segment_opens seg p : slash ∉ bytes seg -> opens seg p -> first_segment p = seg.
Proof.
  intros Hs [->|[t ->]]; unfold first_segment; change "/"%char with slash.
  - by rewrite (IndexByte_free _ _ Hs).
  - by rewrite (IndexByte_app _ _ _ (IndexByte_free _ _ Hs)), stake_app.
Qed.

Lemma str_assoc a b c : (a +:+ b) +:+ c = a +:+ (b +:+ c).
Proof. induction a as [|x a IH]; [done|]. change (String x ((a +:+ b) +:+ c) = String x (a +:+ (b +:+ c))). by rewrite IH. Qed.

Lemma unescape_app a b : "%"%char ∉ bytes a -> path_unescape (a +:+ b) = (fun r => a +:+ r) <$> path_unescape b.
Proof.
  unfold bytes. induction a as [|c a IH].
  - intros _. change ("" +:+ b) with b. by destruct (path_unescape b).
  - simpl. rewrite not_elem_of_cons. intros [Hc Ha]. change (String c a +:+ b) with (String c (a +:+ b)). simpl.
    destruct (Ascii.eqb c "%"%char) eqn:Ee; [by apply Ascii.eqb_eq in Ee; subst|]. rewrite (IH Ha). by destruct (path_unescape b).
Qed.

Lemma str_nil_r a : a +:+ "" = a.
Proof. induction a as [|x a IH]; [done|]. change (String x (a +:+ "") = String x a). by rewrite IH. Qed.
Lemma str_app_inj a b c : a +:+ b = a +:+ c -> b = c.
Proof. induction a as [|x a IH]; [done|]. change (String x (a +:+ b) = String x (a +:+ c) -> b = c). intros [= H]. auto. Qed.
Lemma str_app_self a c t : a +:+ String c t = a -> False.
Proof. rewrite <- (str_nil_r a) at 2. by intros ?%str_app_inj. Qed.

(** Unescaping keeps a plain start. *)
Lemma unescape_opens seg p p' : "%"%char ∉ bytes seg -> opens seg p -> path_unescape p = Some p' -> opens seg p'.
Proof.
  intros Hs Ho Hu. destruct Ho as [->|[t ->]].
  - pose proof (unescape_app seg "" Hs) as H. rewrite str_nil_r in H. rewrite H in Hu. cbn in Hu. rewrite str_nil_r in Hu.
    injection Hu as <-. by left.
  - rewrite (unescape_app _ _ Hs) in Hu. simpl in Hu. destruct (path_unescape t) as [u|]; [|done]. injection Hu as <-. right. by exists u.
Qed.

Definition plain_text (s : string) : Prop := "%"%char ∉ bytes s.

Lemma plain_prefix raw p : NormalizePathPrefix raw = Ok p -> plain_text p.
Proof.
  intros [Hc _]%prefix_chars. intros H. rewrite Forall_forall in Hc. destruct (Hc _ H); done.
Qed.

Lemma cut_inv p prefix rest : cutPathPrefix p prefix = Some rest ->
  (p = prefix /\ rest = "/") \/ (exists t, p = prefix +:+ String slash t /\ rest = String slash t).
Proof.
  unfold cutPathPrefix. destruct (String.eqb_spec p prefix) as [->|]; [by intros [= <-]; left|].
  destruct (HasPrefix p _) eqn:Eh; [|done]. intros [= <-]. right. apply HasPrefix_spec in Eh as [t ->]. exists t.
  change "/" with (String slash ""). rewrite str_assoc. change (String slash "" +:+ t) with (String slash t). by rewrite sdrop_app.
Qed.

Lemma cut_opens p prefix : is_Some (cutPathPrefix p prefix) <-> opens prefix p.
Proof.
  split.
  - intros [rest [[-> _]|(t & -> & _)]%cut_inv]; [by left|right; eauto].
  - unfold cutPathPrefix. intros [->|[t ->]]; [by rewrite String.eqb_refl|]. destruct (String.eqb _ _); [eauto|].
    change (String slash t) with ("/" +:+ t). rewrite <- str_assoc, HasPrefix_app. eauto.
Qed.

Lemma strip_wf r prefix : plain_text prefix -> url_wf r -> url_wf (stripPathPrefix r prefix).
Proof.
  intros Hp Hw. unfold stripPathPrefix. destruct (cutPathPrefix (wPath r) prefix) as [rest|] eqn:Ec; [|done].
  unfold url_wf. cbn [wRawPath wPath]. destruct (String.eqb (wRawPath r) "") eqn:Er; [by left|].
  destruct Hw as [Hw|Hw]; [by rewrite Hw in Er|].
  destruct (cutPathPrefix (wRawPath r) prefix) as [raw|] eqn:Ed; [|by left]. right. cbn [default from_option id].
  assert (Hslash : forall t, path_unescape (String slash t) = (fun u => String slash u) <$> path_unescape t) by done.
  pose proof (unescape_app prefix) as Hun.
  apply cut_inv in Ec as [[Hx ->]|(t & Hx & ->)], Ed as [[Hy ->]|(u & Hy & ->)]; rewrite Hx, Hy in Hw; clear Hx Hy.
  - done.
  - rewrite (Hun _ Hp), Hslash in Hw. destruct (path_unescape u); [|done]. injection Hw as Hw. exfalso. by eapply str_app_self.
  - pose proof (Hun "" Hp) as H0. rewrite str_nil_r in H0. cbn in H0. rewrite H0, str_nil_r in Hw. injection Hw as Hw. exfalso. by eapply str_app_self.
  - rewrite (Hun _ Hp) in Hw. destruct (path_unescape (String slash u)) as [v|]; [|done]. injection Hw as Hw. apply str_app_inj in Hw. by rewrite Hw.
Qed.

(** A byte that a literal does not hold. *)
Ltac no_byte := apply (bool_decide_unpack _); vm_compute; exact I.

(** A pattern under /api whose first segment is written out and decides the section by itself. *)
Definition anchored (rt : Route) (seg : string) : Prop :=
  exists more, Split (rtPattern rt) slash = "" :: "api" :: seg :: more /\ HasPrefix seg "{" = false /\ seg <> "*" /\
    plain_text seg /\ seg <> "system" /\ seg <> "inspect".


Lemma segs_fit_static p more segs : HasPrefix p "{" = false -> p <> "*" -> segs_fit (p :: more) segs = true ->
  exists tl, segs = p :: tl /\ segs_fit more tl = true.
Proof.
  intros Hp Hs H. assert (Hne : p :: more <> ["*"]) by congruence.
  assert (H' : match segs with s :: segs' => seg_fits p s && segs_fit more segs' | [] => false end = true).
  { revert H Hne. clear. destruct p as [|a p]; [by destruct segs, more|]. cbn [segs_fit].
    repeat (case_match; try done). }
  destruct segs as [|s tl]; [done|]. apply andb_true_iff in H' as [H1 H2]. exists tl. split; [|done]. f_equal.
  unfold seg_fits in H1. rewrite Hp in H1. symmetry. by apply String.eqb_eq.
Qed.

Lemma fits_opens rt seg path : anchored rt seg -> fits rt path = true -> opens ("/api/" +:+ seg) path /\ slash ∉ bytes seg.
Proof.
  intros (more & Hp & Hb & Hs & _) H. unfold fits in H. rewrite Hp in H. split.
  - apply segs_fit_static in H as (t1 & E1 & H); [|done..]. apply segs_fit_static in H as (t2 & -> & H); [|done..].
    apply segs_fit_static in H as (tl & -> & _); [|done..].
    rewrite <- (Join_Split path), E1. destruct tl as [|w tl]; [by left|]. right. exists (Join (w :: tl) "/").
    change (Join ("" :: "api" :: seg :: w :: tl) "/") with ("/api/" +:+ (seg +:+ String slash (Join (w :: tl) "/"))). by rewrite str_assoc.
  - apply (Split_free (rtPattern rt)). rewrite Hp. do 2 right. left.
Qed.

(** The gate's segment of any path the route fits, whatever is in its parameters and
    however they are escaped. *)
Lemma routed_segment rt seg r : anchored rt seg -> url_wf r -> fits rt (route_path r) = true -> first_segment (api_rest (wPath r)) = seg.
Proof.
  intros Ha Hw Hf. destruct (fits_opens _ _ _ Ha Hf) as [Ho Hs]. destruct Ha as (more & _ & _ & _ & Hpl & _).
  assert (Hpp : plain_text ("/api/" +:+ seg)).
  { unfold plain_text. rewrite bytes_app, not_elem_of_app. split; [|done]. no_byte. }
  assert (Hop : opens ("/api/" +:+ seg) (wPath r)).
  { unfold route_path in Ho. destruct (String.eqb_spec (wRawPath r) "") as [|Hne]; [done|].
    destruct Hw as [Hw|Hw]; [done|]. by apply (unescape_opens _ (wRawPath r)). }
  apply first_segment_opens; [done|]. unfold api_rest. destruct Hop as [->|[t ->]]; [rewrite TrimPrefix_app; by left|].
  rewrite str_assoc, TrimPrefix_app. right. by exists t.
Qed.

Lemma first_segment_cut p : opens (first_segment p) p.
Proof.
  unfold first_segment. change "/"%char with slash. destruct (IndexByte p slash) as [i|] eqn:Ei; [|by left]. right. exists (sdrop (S i) p).
  revert i Ei. induction p as [|c p IH]; [done|]. intros i. simpl. destruct (Ascii.eqb c slash) eqn:Ec.
  - intros [= <-]. apply Ascii.eqb_eq in Ec as ->. simpl. by destruct p.
  - destruct (IndexByte p slash) as [j|]; [|done]. intros [= <-]. simpl. change (String c ?a +:+ ?b) with (String c (a +:+ b)). f_equal. by apply IH.
Qed.

Lemma webhooks_segment p : (String.eqb p "webhooks" || HasPrefix p "webhooks/") = String.eqb (first_segment p) "webhooks".
Proof.
  apply eq_true_iff_eq. rewrite orb_true_iff, !String.eqb_eq. split.
  - intros [->|[t ->]%HasPrefix_spec]; [done|]. apply first_segment_opens; [|right; exists t; done]. no_byte.
  - intros H. destruct (first_segment_cut p) as [Hp|[t Hp]]; rewrite H in Hp; [by left|right]. rewrite Hp. apply HasPrefix_spec. by exists t.
Qed.

Lemma section_by_segment p q : first_segment (api_rest p) = first_segment (api_rest q) ->
  first_segment (api_rest p) <> "system" -> first_segment (api_rest p) <> "inspect" -> sectionForPath p = sectionForPath q.
Proof.
  intros He Hs Hi. unfold sectionForPath. rewrite <- He. set (seg := first_segment (api_rest p)) in *. clearbody seg.
  assert (E1 : one_of seg ["system"] = false) by (unfold one_of; cbn; destruct (String.eqb_spec seg "system"); done).
  assert (E2 : one_of seg ["inspect"] = false) by (unfold one_of; cbn; destruct (String.eqb_spec seg "inspect"); done).
  by rewrite E1, E2.
Qed.

Lemma prefix_wf cfg trusted r raw : NormalizePathPrefix raw = Ok (BasePath cfg) -> url_wf r -> url_wf (clientIP trusted (pathPrefix cfg r)).
Proof.
  intros Hb Hw. change (url_wf (pathPrefix cfg r)). unfold pathPrefix. cbv zeta. set (prefix := if ForwardedPrefix cfg then _ else _).
  assert (Hp : plain_text prefix).
  { unfold prefix. repeat case_match; eauto using plain_prefix. }
  clearbody prefix. destruct (String.eqb prefix ""); [done|]. change (url_wf (stripPathPrefix r prefix)). by apply strip_wf.
Qed.

(** ** The table, audited *)
Definition route_section (rt : Route) : string := sectionForRequest (mkReq (rtMethod rt) (rtPattern rt) "").

Definition anchor (rt : Route) : option string :=
  match Split (rtPattern rt) slash with
  | "" :: "api" :: seg :: _ =>
      if negb (HasPrefix seg "{") && negb (one_of seg ["*"; "system"; "inspect"]) && bool_decide (plain_text seg)
         && String.eqb (first_segment (api_rest (rtPattern rt))) seg
      then Some seg else None
  | _ => None
  end.

Lemma anchor_ok rt seg : anchor rt = Some seg -> anchored rt seg /\ first_segment (api_rest (rtPattern rt)) = seg.
Proof.
  unfold anchor, anchored. destruct (Split _ _) as [|a [|b [|x more]]]; try done; [by repeat (case_match; try done)..|].
  intros H. assert (Hab : a = "" /\ b = "api" /\ Some seg = Some x /\
    negb (HasPrefix x "{") && negb (one_of x ["*"; "system"; "inspect"]) && bool_decide (plain_text x) && String.eqb (first_segment (api_rest (rtPattern rt))) x = true)
    by (repeat (case_match; try done)).
  destruct Hab as (-> & -> & [= <-] & Hx). rewrite !andb_true_iff, !negb_true_iff, bool_decide_eq_true, String.eqb_eq in Hx.
  destruct Hx as (((H1 & H2) & H3) & H4). split; [|done]. exists more. split; [done|]. split; [done|].
  assert (Hne : forall w, w ∈ ["*"; "system"; "inspect"] -> seg <> w) by (intros w Hw ->; apply one_of_true in Hw; congruence).
  repeat split; [apply Hne; set_solver|done|apply Hne; set_solver..].
Qed.

(** Every change is a section's or the account's own; everything administrative is the
    administrator's. *)
Definition audited (rt : Route) : bool :=
  let own := one_of (rtHandler rt) self_service in
  let adm := one_of (rtHandler rt) administrative in
  match anchor rt with
  | None => negb (mutating rt) && negb adm
  | Some seg =>
      (negb (mutating rt) || own || negb (String.eqb (route_section rt) ""))
      && (negb adm || (String.eqb (route_section rt) "__admin" && (mutating rt || negb (String.eqb seg "webhooks"))))
  end.
Lemma table_audited : forallb audited session_routes = true.
Proof. vm_compute. reflexivity. Qed.

Lemma session_methods : forallb (fun rt => negb (String.eqb (rtMethod rt) "")) session_routes = true.
Proof. vm_compute. reflexivity. Qed.

Lemma mutating_writes rt p h : mutating rt = true -> isWriteRequest (mkReq (rtMethod rt) p h) = true.
Proof. unfold mutating, isWriteRequest. cbn [Method]. by intros ->. Qed.

Lemma section_of_route rt seg r host : anchor rt = Some seg -> url_wf r -> fits rt (route_path r) = true ->
  mutating rt = true \/ seg <> "webhooks" -> sectionForRequest (mkReq (rtMethod rt) (wPath r) host) = route_section rt.
Proof.
  intros Ha Hw Hf Hm. apply anchor_ok in Ha as [Ha Hp]. pose proof (routed_segment _ _ _ Ha Hw Hf) as Hs.
  unfold route_section, sectionForRequest. cbn [Path]. rewrite !webhooks_segment, Hs, Hp.
  destruct Ha as (more & _ & _ & _ & _ & Hsys & Hins).
  rewrite (section_by_segment (wPath r) (rtPattern rt)) by congruence.
  destruct Hm as [Hm|Hm]; [by rewrite !(mutating_writes rt _ _ Hm)|].
  apply String.eqb_neq in Hm as ->. done.
Qed.

Lemma audited_inv rt : audited rt = true ->
  (mutating rt = true -> rtHandler rt ∈ self_service \/ exists seg, anchor rt = Some seg /\ route_section rt <> "") /\
  (rtHandler rt ∈ administrative -> exists seg, anchor rt = Some seg /\ route_section rt = "__admin" /\ (mutating rt = true \/ seg <> "webhooks")).
Proof.
  unfold audited. cbv zeta. intros H.
  assert (Hadm : rtHandler rt ∈ administrative -> one_of (rtHandler rt) administrative = true) by apply one_of_true.
  destruct (anchor rt) as [seg|].
  - apply andb_true_iff in H as [H1 H2]. rewrite !orb_true_iff, !negb_true_iff, String.eqb_neq in H1. split.
    + intros Hmu. destruct H1 as [[?|?]|?]; [congruence|left; by apply one_of_true|right; eauto].
    + intros Hx%Hadm. rewrite Hx in H2. cbn [negb orb] in H2. apply andb_true_iff in H2 as [Hs Ho]. apply String.eqb_eq in Hs. exists seg.
      split; [done|]. split; [done|]. apply orb_true_iff in Ho as [?|Ho]; [by left|right]. by apply negb_true_iff, String.eqb_neq in Ho.
  - apply andb_true_iff in H as [H1%negb_true_iff H2%negb_true_iff]. split; [congruence|]. intros ?%Hadm. congruence.
Qed.

Section Authorised.
Context `{E : AuthEnv} `{CE : ConfigEnv} `{R : Router} `{!RouterLaws R} (EqualFold : string -> string -> bool) (hosts_fault : bool).

#[local] Existing Instance M_ret.
#[local] Existing Instance M_bind.

(** What the accounts of [s] let the holder of these claims change in a section, on a host. *)
Definition may_change (s : AState) (u : User) (section host : string) : Prop :=
  IsAdmin u = true \/
  (section <> "__admin" /\ ReadOnly u = false /\
   exists grants g h, EffectiveGrants role_fault (Some u) (rdb s) = Ok grants /\ grants !! section = Some g /\
     Granted g = true /\ Write g = true /\ hostParam (mkReq "" "" host) = Some h /\
     HasHost g (NormalizeHostID role_fault h (rdb s)) = true).

Lemma checkAccess_change s u section host h : section <> "" -> hostParam (mkReq "" "" host) = Some h ->
  checkAccess (GS := state_store hosts_fault s) u section true h = None -> may_change s u section host.
Proof.
  intros Hs Hh Hc. unfold may_change. destruct (IsAdmin u) eqn:Ea; [by left|right]. unfold checkAccess in Hc.
  rewrite (proj2 (String.eqb_neq _ _) Hs), Ea in Hc. destruct (String.eqb_spec section "__admin") as [|Hns]; [done|]. split; [done|].
  destruct (gsEffectiveGrants u) as [grants|e] eqn:Eg; [|done]. destruct (grants !! section) as [g|] eqn:El; [|done].
  destruct (Granted g) eqn:Egr; [|done]. destruct (Write g) eqn:Ew; [|done]. cbn [negb andb] in Hc.
  destruct (HasHost g _) eqn:Ehh; [|done]. split.
  - destruct (ReadOnly u) eqn:Er; [|done]. pose proof (gs_read_only (S := state_store hosts_fault s) u grants section g Eg Er El). congruence.
  - by exists grants, g, h.
Qed.

Lemma checkAccess_admin s u w h : checkAccess (GS := state_store hosts_fault s) u "__admin" w h = None -> IsAdmin u = true.
Proof. unfold checkAccess. cbn. by destruct (IsAdmin u). Qed.

End Authorised.
