(* ===== verification/AuthExamples.v ===== *)
(** * The HTTP side, run on a small installation

    The environment of [LoginExamples], a configuration and an administrator: the
    theorems of [AuthSpec], [UserAdmin] and [Server] at work. *)
From S2P Require Import Prelude Limits GoStrings Password NetIP Paths Config Users Roles Access Calendar Accounts Login Passkeys SessionGate ClientIP LoginSpec AuthHandlers AuthSpec LoginExamples OAuthStore ApiTokens UserAdmin OAuth Server.

#[export] Instance demo_webenv : WebEnv := {|
  EqualFold a b := String.eqb a b;
  wcfg := demo_config "" false;
  setting_read_fault := false; setting_write_fault := false
|}.
#[export] Instance demo_cfgenv : ConfigEnv := {|
  Getenv _ := ""; Args := []; given := []; ReadFile _ := Err ENotExist; windows := false;
  UserConfigDir := None; cfg_url_Parse _ := None; mkdir_ok _ := true; secure_ok _ := true
|}.
#[export] Instance demo_router : Router := first_fit.

Definition demo_h (no2fa : bool) : HState := mkH demo_auth demo_state [] no2fa.

(** alice, who has no second factor, from the network. *)
Example login_over_network_needs_code_witness :
  let '(s, r) := handleLogin (clientIP demo_proxies (demo_web "192.0.2.7:5000" [])) (Some ("alice", "correct horse")) (demo_h false) in
  match r with Ok (ASignedIn _ v) => ID (vUser v) = 1 | _ => False end.
Proof.
  destruct (handleLogin _ _ _) as [s [x|e]] eqn:H; [|exfalso; apply (f_equal snd) in H; vm_compute in H; discriminate].
  destruct x as [| | | |ck v| | | | | | | | | | | | | |]; try (exfalso; apply (f_equal snd) in H; vm_compute in H; discriminate).
  apply (login_over_network_needs_code demo_proxies (demo_web "192.0.2.7:5000" []) "alice" "correct horse" (demo_h false) s ck v
    (scanUserRow demo_acc (demo_user 1 "alice" false)) H eq_refl).
Defined.

(** bob pairs a second app: his password is asked for. *)
Definition bob_claims : Claims := mkClaims 2 "bob" "user" KindSession 0 "jti-x" None.
Definition bob_row : User := scanUserRow demo_acc (demo_user 2 "bob" false).
Example sensitive_changes_need_password_witness :
  let '(_, r) := handleTOTPSetup bob_claims (Some "correct horse") (demo_h false) in
  match r with Ok (ASecret _) => knows_password bob_row "correct horse" | _ => False end.
Proof.
  destruct (handleTOTPSetup _ _ _) as [s [x|e]] eqn:H; [|exfalso; apply (f_equal snd) in H; vm_compute in H; discriminate].
  assert (Hx : exists sec, x = ASecret sec) by (apply (f_equal snd) in H; vm_compute in H; injection H as <-; eauto).
  destruct Hx as [sec ->]. destruct (sensitive_changes_need_password bob_claims (demo_h false) bob_row eq_refl) as (_ & Hset & _).
  destruct (Hset (Some "correct horse") s (ASecret sec) H) as (pw & [= <-] & Hk); [discriminate|exact Hk].
Defined.

(** An operator's menu. *)
Definition operator_db : DB := staging_operator.
Example menu_matches_gate_witness :
  "containers" ∈ effectiveSections carol operator_db /\
  checkAccess (GS := db_store role_fault ∅ operator_db false) carol "containers" false 0 = None.
Proof.
  assert (H : "containers" ∈ effectiveSections carol operator_db) by (apply (bool_decide_unpack _); vm_compute; exact I).
  split; [exact H|]. apply (menu_matches_gate ∅ false carol operator_db "containers" eq_refl) in H. exact (proj2 H).
Defined.

(** Three sessions of bob, one of them alice's. *)
Definition demo_rows : list Session :=
  [mkSession "jti-x" 2 "10.0.0.1" "a" 0 0 (739000 * day_ns); mkSession "jti-y" 2 "10.0.0.2" "b" 0 0 (739000 * day_ns);
   mkSession "jti-z" 1 "10.0.0.3" "c" 0 0 (739000 * day_ns)].
Definition with_rows : HState := set_hAuth (set_acc (set_sessions demo_rows demo_acc) demo_state) (demo_h false).
Example revoke_others_exact_witness :
  let '(s', r) := handleRevokeOtherSessions bob_claims with_rows in
  match r with Ok (ARevokedOthers n) => n = 1 /\ only_revokes bob_claims (acc (hAuth with_rows)) (acc (hAuth s')) | _ => False end.
Proof.
  destruct (handleRevokeOtherSessions _ _) as [s [x|e]] eqn:H; [|exfalso; apply (f_equal snd) in H; vm_compute in H; discriminate].
  assert (Hx : x = ARevokedOthers 1) by (apply (f_equal snd) in H; vm_compute in H; congruence).
  subst x. split; [reflexivity|]. exact (proj1 (revoke_others_exact bob_claims with_rows s 1 eq_refl H)).
Defined.

(** ** Administrators *)
Definition demo_admin (id : Z) (name : string) : User := with_access (demo_user id name false) "admin" false [].
Definition admin_claims (id : Z) : Claims := mkClaims id "root" "admin" KindSession 0 "jti-a" None.
Definition admin_acc : AuthDB := mkAuthDB [demo_admin 1 "root"; demo_admin 2 "ops"; demo_user 3 "carol" false] 3 ∅ ∅ [] 0 [].
Definition admin_h : HState := set_hAuth (set_acc admin_acc demo_state) (demo_h false).
Lemma admin_wf : acc_wf admin_acc.
Proof.
  split; [by apply (bool_decide_unpack _)| |by apply (bool_decide_unpack _)|];
    intros x Hx; cbn in Hx |- *; set_unfold; naive_solver lia.
Qed.

(** ops is deleted, then demoting or deleting root is refused. *)
Example last_admin_stays_witness :
  let s1 := (handleDeleteUser (Some (admin_claims 1)) "2" admin_h).1 in
  let s2 := (handleUpdateUser "1" (Some (mkUserBody "root" "" "user" false [] None)) s1).1 in
  length (users (acc (hAuth s2))) = 2%nat /\ admins (acc (hAuth s2)) <> [].
Proof.
  intros s1 s2. split; [vm_compute; reflexivity|].
  apply (fun H => proj2 (last_admin_stays admin_h s2 eq_refl admin_wf H
    (rtc_l _ _ _ _ (st_delete admin_h (Some (admin_claims 1)) "2") (rtc_once _ _ (st_update s1 "1" _))))). discriminate.
Defined.

Example crossing_deletes_leave_no_admin_witness :
  let two := set_hAuth (set_acc (set_users [demo_admin 1 "root"; demo_admin 2 "ops"] admin_acc) demo_state) (demo_h false) in
  admins (DeleteUser acc_fault 1 (DeleteUser acc_fault 2 (acc (hAuth two))).1).1 = [].
Proof.
  intros two. apply (crossing_deletes_leave_no_admin two (demo_admin 1 "root") (demo_admin 2 "ops") (admin_claims 1) (admin_claims 2));
    try reflexivity; discriminate.
Defined.

(** ** A request, from the socket to the handler *)
Definition root_session : Session := mkSession "jti-a" 1 "10.0.0.1" "a" 0 0 (739000 * day_ns).
Definition root_token : string := demo_sign (mkClaims 1 "root" "admin" KindSession 0 "jti-a" (Some (739000 * day_ns))).
Definition serve_state : AState := set_acc (set_sessions [root_session] admin_acc) demo_state.
(** A deletion of account 3, published under /dc by a proxy, with an escaped parameter. *)
Definition delete_request : WebRequest :=
  mkWeb (mkRequest (Some root_token) "" "" "" "") "192.0.2.7:5000" ∅ "dc.example.com" true "/dc/api/users/3" "/dc/api/users/%33" false "".
Definition run_delete := serve (R := demo_router) String.eqb false (demo_config "/dc" true) true "DELETE" "" delete_request serve_state.

