(* ===== verification/McpGate.v ===== *)
(** * The gate of the MCP server (internal/mcp/server.go, ratelimit.go)

    Who a bearer token stands for, what it may do on top of its owner's live rights,
    and how many changes it may make.  Access rights are those of [Access]; accounts,
    OAuth tables and API tokens those of [Accounts], [OAuthStore] and [ApiTokens]. *)
From S2P Require Import Prelude Floats Limits GoStrings Password Users Roles RoleHandlers Access Calendar Accounts Login Passkeys SessionGate LoginSpec OAuthStore ApiTokens OAuth.

(** ** Data *)
Record principal := mkPrincipal { puser : User; roOnly : bool; scopes : list string; phosts : list Z; pip : string }.

(** *** The rate limit on changes *)
Definition controlBurst : Z := 30.
Definition controlRefill : Z := minute / 30.
Definition errControlRateLimited : string :=
  "rate limited: no more than " +:+ FormatInt controlBurst +:+ " changes per minute may be made through MCP, and this one was NOT performed. " +:+
  "This limit exists to bound the damage from a runaway loop or a stolen token. " +:+
  "Wait before retrying, and if a large batch of changes is genuinely intended, make it from the web UI".
Record controlBucket := mkBucket { tokens : float64; last : Z; tripped : bool }.
Notation controlLimiter := (gmap Z controlBucket) (only parsing).

(** What a bucket has grown to by [now]. *)
Definition refilled (now : Z) (b : controlBucket) : controlBucket :=
  let elapsed := time_sub now (last b) in
  if 0 <? elapsed then
    let t := fadd (tokens b) (fdiv (of_Z elapsed) (of_Z controlRefill)) in
    mkBucket (if fgt t (of_Z controlBurst) then of_Z controlBurst else t) now (tripped b)
  else b.

(** All [n] units or none; [None] is the nil limiter. *)
Definition reserve (now userID n : Z) (l : option controlLimiter) : option controlLimiter * (bool * bool) :=
  match l with
  | None => (None, (true, false))
  | Some l =>
      let n := if n <? 1 then 1 else n in
      let b := match l !! userID with
               | None => mkBucket (of_Z controlBurst) now false
               | Some b => refilled now b
               end in
      if flt (tokens b) (of_Z n)
      then (Some (<[userID := mkBucket (tokens b) (last b) true]> l), (false, negb (tripped b)))
      else (Some (<[userID := mkBucket (fsub (tokens b) (of_Z n)) (last b) false]> l), (true, false))
  end.
Definition allow_change (now userID : Z) (l : option controlLimiter) : option controlLimiter * (bool * bool) := reserve now userID 1 l.

(** ** Verifying a token *)
Definition count_dots (s : string) : nat := length (filter (fun c => c = "."%char) (bytes s)).

Section Verify.
Context `{E : AuthEnv} `{OE : OAuthEnv} (tfault : TQuery -> bool) (OAuthConfigured : bool).

(** parseAccessToken: the subject must be an id, the expiry present. *)
Definition parseAccessToken (now : Z) (token : string) : option (Z * string * string * bool * Z) :=
  c ← at_parse mcpSigningKey now mcpResource token;
  uid ← ParseInt (aSubject c);
  exp ← aExpiresAt c;
  Some (uid, aClientID c, aSessionID c, aReadOnly c, exp).

(** The four tables it reads; [None] is ErrInvalidToken, whatever the reason. *)
Definition verifyToken (t1 t2 t3 t4 : Z) (token ip : string) (accounts : AuthDB) (o : ODB) (d : TDB) : TDB * option (principal * Z) :=
  match (if OAuthConfigured && (count_dots token =? 2)%nat then parseAccessToken t1 token else None) with
  | Some (uid, cid, sid, ro, exp) =>
      (d, match UserByID acc_fault uid accounts with
          | Err _ => None
          | Ok u =>
              if negb (String.eqb cid "") && negb (is_ok (OAuthClientByID ofault cid o)) then None
              else if negb (String.eqb sid "") &&
                      negb match MCPOAuthSessionExists ofault sid uid o with Ok b => b | Err _ => false end then None
              else Some (mkPrincipal u ro [] [] ip, exp)
          end)
  | None =>
      match APITokenByHash tfault (hashToken token) d with
      | Err _ => (d, None)
      | Ok tok =>
          if Expired t2 tok then (d, None)
          else match UserByID acc_fault (atUserID tok) accounts with
          | Err _ => (d, None)
          | Ok u =>
              ((TouchAPIToken tfault (atID tok) t3 d).1,
               Some (mkPrincipal u (atReadOnly tok) (atSections tok) (atHostIDs tok) ip,
                     if IsZero (atExpiresAt tok) then t4 + 100 * 365 * 24 * hour else atExpiresAt tok))
          end
      end
  end.
End Verify.

(** (p *principal) narrowed; [None] is the nil error *)
Definition narrowed (p : principal) (section : string) (write : bool) (hostID : Z) : option string :=
  if write && roOnly p then Some "this token is read-only"
  else if negb (Nat.eqb (length (scopes p)) 0) && negb (one_of section (scopes p))
  then Some ("this token is not scoped for the " +:+ section +:+ " section")
  else if negb (hostID =? 0) && negb (Nat.eqb (length (phosts p)) 0) && negb (containsID (phosts p) hostID)
  then Some "this token is not scoped for that host"
  else None.

(** ** Authorising a tool call *)
Record GState := mkGState { glimiter : option controlLimiter; gaudit : list (Z * audit_line) }.

Section Authorize.
Context `{GS : GrantStore}.

(** [inl] is the error; the clock is read by the limiter. *)
Definition authorizeCharged (now : Z) (p : option principal) (section : string) (write : bool) (hostID : Z) (charge : bool) (s : GState)
    : GState * (string + principal) :=
  match p with
  | None => (s, inl "unauthenticated")
  | Some p =>
      let hostID := if hostID <? 0 then 0 else hostID in
      match narrowed p section write hostID with
      | Some e => (s, inl e)
      | None =>
          match checkAccess (puser p) section write hostID with
          | Some e => (s, inl e)
          | None =>
              if write && charge then
                match allow_change now (ID (puser p)) (glimiter s) with
                | (l, (true, _)) => (mkGState l (gaudit s), inr p)
                | (l, (false, firstTrip)) =>
                    (mkGState l (if firstTrip then gaudit s ++ [(ID (puser p), ("mcp.ratelimit", section,
                        "control rate limit reached via MCP; changes refused"))] else gaudit s), inl errControlRateLimited)
                end
              else (s, inr p)
          end
      end
  end.
Definition authorizeExtra (now : Z) (p : option principal) (section : string) (write : bool) (hostID : Z) (s : GState) :=
  authorizeCharged now p section write hostID write s.
Definition recheck (now : Z) (p : option principal) (section : string) (write : bool) (hostID : Z) (s : GState) : GState * option string :=
  match authorizeCharged now p section write hostID false s with (s', inl e) => (s', Some e) | (s', inr _) => (s', None) end.
End Authorize.

(** ** The rate limit *)

(** Calls of one user: when, and how many units. *)
Definition calls : Type := list (Z * Z).
Fixpoint run_calls (uid : Z) (cs : calls) (l : option controlLimiter) : option controlLimiter * list (Z * (bool * bool)) :=
  match cs with
  | [] => (l, [])
  | (now, n) :: cs' =>
      let '(l1, r) := reserve now uid n l in
      let '(l2, rs) := run_calls uid cs' l1 in (l2, (Z.max 1 n, r) :: rs)
  end.
Definition granted (rs : list (Z * (bool * bool))) : Z := foldr (fun (r : Z * (bool * bool)) acc => (if r.2.1 then r.1 else 0) + acc) 0 rs.
Definition grants (rs : list (Z * (bool * bool))) : nat := length (List.filter (fun r : Z * (bool * bool) => r.2.1) rs).
Definition marks (rs : list (Z * (bool * bool))) : nat := length (List.filter (fun r : Z * (bool * bool) => r.2.2) rs).

Lemma clamp_unit n : (if n <? 1 then 1 else n) = Z.max 1 n.
Proof. destruct (n <? 1) eqn:E; bsimp; lia. Qed.

(** Small whole numbers are exact in a float64: every comparison and difference the
    burst can meet, computed. *)
Definition unit_exact (a n : nat) : bool :=
  let x := of_Z (Z.of_nat a) in let y := of_Z (Z.of_nat n) in
  Bool.eqb (flt x y) (Nat.ltb a n) && (Nat.ltb a n || bool_decide (fsub x y = of_Z (Z.of_nat (a - n)))).
Lemma units_exact : forallb (fun a => forallb (unit_exact a) (seq 1 256)) (seq 0 31) = true.
Proof. vm_compute. reflexivity. Qed.

Lemma unit_exact_true a n : (a <= 30)%nat -> (1 <= n <= 256)%nat -> unit_exact a n = true.
Proof.
  intros Ha Hn. pose proof (proj1 (forallb_forall _ _) units_exact a) as H. cbv beta in H.
  apply (proj1 (forallb_forall _ _) (H (proj2 (in_seq 31 0 a) ltac:(lia)))). apply (in_seq 256 1 n). lia.
Qed.

Lemma units a n : 0 <= a <= 30 -> 1 <= n <= 256 ->
  flt (of_Z a) (of_Z n) = (a <? n) /\ (n <= a -> fsub (of_Z a) (of_Z n) = of_Z (a - n)).
Proof.
  intros Ha Hn. pose proof (unit_exact_true (Z.to_nat a) (Z.to_nat n) ltac:(lia) ltac:(lia)) as H. unfold unit_exact in H.
  rewrite Nat2Z.inj_sub_max, !Z2Nat.id in H by lia. apply andb_true_iff in H as [H1 H2]. apply Bool.eqb_prop in H1.
  assert (Hlt : Nat.ltb (Z.to_nat a) (Z.to_nat n) = (a <? n)).
  { destruct (a <? n) eqn:E; bsimp; [apply Nat.ltb_lt|apply Nat.ltb_ge]; lia. }
  rewrite Hlt in H1, H2. split; [exact H1|]. intros Hle. rewrite (proj2 (Z.ltb_ge a n) Hle) in H2.
  apply bool_decide_eq_true in H2. rewrite H2. f_equal. lia.
Qed.

Lemma refilled_same now b : last b = now -> refilled now b = b.
Proof. intros <-. unfold refilled, time_sub. by rewrite Z.sub_diag. Qed.

(** What is left of a burst: [k] units at the instant [now]. *)
Lemma burst_invariant now uid ns : Forall (fun n => n <= 256) ns -> forall l k, 0 <= k <= controlBurst ->
  match l !! uid with None => k = controlBurst | Some b => tokens b = of_Z k /\ last b = now end ->
  granted (run_calls uid ((fun n => (now, n)) <$> ns) (Some l)).2 <= k.
Proof.
  unfold controlBurst. intros Hns. induction Hns as [|n ns Hn _ IH]; intros l k Hk Hb; [cbn; lia|].
  rewrite fmap_cons. cbn [run_calls]. unfold reserve. rewrite clamp_unit. set (m := Z.max 1 n).
  set (b := match l !! uid with None => _ | Some b => _ end).
  assert (Hb' : tokens b = of_Z k /\ last b = now).
  { unfold b. destruct (l !! uid) as [b0|]; [|by subst k]. by rewrite refilled_same by apply Hb. }
  destruct Hb' as [Ht Hl]. destruct (units k m) as [Hlt Hsub]; [lia|unfold m; lia|]. rewrite Ht, Hlt.
  destruct (k <? m) eqn:E; bsimp.
  - specialize (IH (<[uid := mkBucket (of_Z k) (last b) true]> l) k Hk). rewrite lookup_insert_eq in IH.
    specialize (IH (conj eq_refl Hl)). destruct (run_calls uid _ _) as [l2 rs]. cbn in IH |- *. lia.
  - specialize (IH (<[uid := mkBucket (of_Z (k - m)) (last b) false]> l) (k - m) ltac:(lia)). rewrite lookup_insert_eq in IH.
    specialize (IH (conj eq_refl Hl)). rewrite Hsub by lia. destruct (run_calls uid _ _) as [l2 rs]. cbn in IH |- *. lia.
Qed.

(** one identity cannot burst past the limit.  Whatever a user who has been idle
    asks for at one instant, in batches of up to 256 units and however many of them
    are refused, at most thirty changes are granted -- in the floating-point
    arithmetic the code uses. *)
Theorem burst_bounded now uid ns (l : controlLimiter) : l !! uid = None -> Forall (fun n => n <= 256) ns ->
  granted (run_calls uid ((fun n => (now, n)) <$> ns) (Some l)).2 <= controlBurst.
Proof. intros Hl Hns. apply (burst_invariant now uid ns Hns l controlBurst); [unfold controlBurst; lia|]. by rewrite Hl. Qed.

Example burst_bounded_witness : granted (run_calls 7 ((fun n => (0, n)) <$> replicate 40 1) (Some ∅)).2 <= controlBurst.
Proof. apply (burst_bounded 0 7 (replicate 40 1) ∅ (lookup_empty 7)), Forall_replicate. lia. Defined.

(** a refused batch costs nothing, and a runaway leaves one mark.  A refusal takes
    no units -- the bucket keeps what the passage of time gives it -- and touches no
    other user's bucket, nor does a grant; and along any sequence of calls by a user the
    marks for the audit log are at most one more than the grants between them, however
    many calls are refused. *)
Theorem limiter_all_or_nothing now uid n (l : controlLimiter) :
  match reserve now uid n (Some l) with
  | (Some l', (ok, first)) =>
      (forall u, u <> uid -> l' !! u = l !! u) /\
      (ok = false -> exists b, l' !! uid = Some b /\
         tokens b = match l !! uid with None => of_Z controlBurst | Some b0 => tokens (refilled now b0) end /\ tripped b = true) /\
      (first = true -> ok = false)
  | (None, _) => False
  end /\
  forall cs, (marks (run_calls uid cs (Some ∅)).2 <= S (grants (run_calls uid cs (Some ∅)).2))%nat.
Proof.
  split.
  - unfold reserve. destruct (flt _ _) eqn:Ef.
    + split; [intros u Hu; by rewrite lookup_insert_ne|]. split; [|done]. intros _. eexists. rewrite lookup_insert_eq.
      split; [done|]. by destruct (l !! uid).
    + split; [intros u Hu; by rewrite lookup_insert_ne|]. by split.
  - assert (H : forall cs (l : controlLimiter), (marks (run_calls uid cs (Some l)).2 <=
      grants (run_calls uid cs (Some l)).2 + match l !! uid with Some b => if tripped b then 0 else 1 | None => 1 end)%nat).
    { intros cs. induction cs as [|[t m] cs IH]; intros l0; [cbn; lia|]. cbn [run_calls]. unfold reserve. 
      set (b := match l0 !! uid with None => _ | Some b => _ end).
      assert (Hb : tripped b = match l0 !! uid with Some b => tripped b | None => false end).
      { unfold b. destruct (l0 !! uid) as [b0|]; [|done]. unfold refilled. by case_match. }
      clearbody b. destruct (flt _ _).
      - specialize (IH (<[uid := mkBucket (tokens b) (last b) true]> l0)). rewrite lookup_insert_eq in IH.
        destruct (run_calls uid cs _) as [l2 rs]. unfold marks, grants in *. cbn [snd tripped] in *. rewrite Hb.
        destruct (l0 !! uid) as [b0|]; [destruct (tripped b0)|]; cbn in *; lia.
      - specialize (IH (<[uid := mkBucket (fsub (tokens b) (of_Z (if m <? 1 then 1 else m))) (last b) false]> l0)). rewrite lookup_insert_eq in IH.
        destruct (run_calls uid cs _) as [l2 rs]. unfold marks, grants in *. cbn in *. lia. }
    intros cs. specialize (H cs ∅). rewrite lookup_empty in H. lia.
Qed.

(** ** Tokens *)
Section Tokens.
Context `{E : AuthEnv} `{OE : OAuthEnv} (tfault : TQuery -> bool) (OAuthConfigured : bool).

(** C19: a bearer is who its token says, now.  When [verifyToken] accepts, the account it
    returns exists at this moment, and either the token is an access token that the
    JWT library accepts for this server's resource at this time, whose client (when
    it names one) is still registered and whose session (when it names one) still
    exists for that account; or its digest is that of a stored API token of that
    account, neither revoked nor expired, and the bearer is held to that token's
    sections and read-only flag. *)
Theorem verified_token_is_live t1 t2 t3 t4 token ip accounts o d d' p exp :
  verifyToken tfault OAuthConfigured t1 t2 t3 t4 token ip accounts o d = (d', Some (p, exp)) ->
  UserByID acc_fault (ID (puser p)) accounts = Ok (puser p) /\
  ((exists c, at_parse mcpSigningKey t1 mcpResource token = Some c /\ ParseInt (aSubject c) = Some (ID (puser p)) /\
      roOnly p = aReadOnly c /\ aExpiresAt c = Some exp /\
      (aClientID c <> "" -> is_Some (oclients o !! aClientID c)) /\
      (aSessionID c <> "" -> exists row, osessions o !! aSessionID c = Some row /\ msUserID row = ID (puser p))) \/
   (exists r : APIToken, r ∈ api_tokens d /\ atTokenHash r = hashToken token /\ atRevoked r = false /\ Expired t2 r = false /\
      atUserID r = ID (puser p) /\ roOnly p = atReadOnly r /\ scopes p = atSections r)).
Proof.
  assert (Hid : forall uid u, UserByID acc_fault uid accounts = Ok u -> ID u = uid).
  { intros uid u (v & _ & Hv & ->)%UserByID_inv. exact Hv. }
  unfold verifyToken. destruct (if OAuthConfigured && _ then _ else None) as [[[[[uid cid] sid] ro] e]|] eqn:Ej.
  - destruct (_ && _); [|done]. intros H. injection H as <- H. unfold parseAccessToken in Ej.
    destruct (at_parse _ _ _ token) as [c|]; [|done]. cbn in Ej. destruct (ParseInt (aSubject c)) as [i|] eqn:Ei; [|done]. cbn in Ej.
    destruct (aExpiresAt c) as [x|] eqn:Ex; [|done]. injection Ej as <- <- <- <- <-.
    destruct (UserByID acc_fault i accounts) as [u|] eqn:Eu; [|done]. destruct (_ && _) eqn:Ec in H; [done|].
    destruct (_ && _) eqn:Es in H; [done|]. injection H as <- <-. cbn [puser roOnly].
    pose proof (Hid _ _ Eu) as Hu. split; [by rewrite Hu|]. left. exists c. rewrite Hu. split; [done|]. split; [done|]. split; [done|].
    split; [done|]. split.
    + intros Hne. rewrite (proj2 (String.eqb_neq _ _) Hne) in Ec.
      destruct (OAuthClientByID ofault (aClientID c) o) as [cl|] eqn:Eo; [|discriminate].
      unfold OAuthClientByID, oq in Eo. destruct (ofault QCByID); [done|]. by destruct (oclients o !! aClientID c).
    + intros Hne. rewrite (proj2 (String.eqb_neq _ _) Hne) in Es. unfold MCPOAuthSessionExists, oq in Es.
      destruct (ofault QMExists); [discriminate|]. destruct (osessions o !! aSessionID c) as [row|]; [|discriminate].
      exists row. split; [done|]. cbn in Es. apply negb_false_iff, Z.eqb_eq in Es. congruence.
  - destruct (APITokenByHash tfault (hashToken token) d) as [tok|] eqn:Et; [|done].
    destruct (Expired t2 tok) eqn:Ex; [done|]. destruct (UserByID _ _ _) as [u|] eqn:Eu; [|done]. intros H. injection H as <- <- <-.
    cbn [puser roOnly scopes]. pose proof (Hid _ _ Eu) as Hu. split; [by rewrite Hu|]. right.
    unfold APITokenByHash, tq in Et. destruct (tfault QTkByHash); [done|]. destruct (list_find _ _) as [[i r]|] eqn:El; [|done].
    injection Et as <-. apply list_find_Some in El as (Hr%list_elem_of_lookup_2 & [Hh Hrev] & _). exists r. cbn in *. rewrite Hu. done.
Qed.

(** cutting a connector off is immediate and lasting.  Once a connector session has
    been revoked, or a client de-registered, no access token naming it is accepted, in
    any state reached by any interleaving of other requests that does not mint that
    session id, or register that client id, anew. *)
Theorem cut_off_connector_refused fault t1 t2 t3 t4 token ip accounts d o o1 o2 uid cid sid ro exp :
  parseAccessToken t1 token = Some (uid, cid, sid, ro, exp) -> OAuthConfigured = true -> count_dots token = 2%nat ->
  (sid <> "" /\ AdminRevokeMCPOAuthSession fault sid o = (o1, Ok tt) /\ rtc (oauth_step (fun op => ~ introduces sid op)) o1 o2) \/
  (cid <> "" /\ DeleteOAuthClient fault cid o = (o1, Ok true) /\ rtc (oauth_step (fun op => forall c now, op = OOClient c now -> ocID c <> cid)) o1 o2) ->
  verifyToken tfault OAuthConfigured t1 t2 t3 t4 token ip accounts o2 d = (d, None).
Proof.
  intros Hp -> Hdots Hcut. unfold verifyToken. rewrite Hdots, Nat.eqb_refl, andb_true_l. rewrite Hp. f_equal.
  destruct (UserByID acc_fault uid accounts) as [u|]; [|done]. destruct (negb (String.eqb cid "") && _) eqn:Ec; [done|]. destruct (negb (String.eqb sid "") && _) eqn:Es; [done|]. exfalso.
  destruct Hcut as [(Hne & Hrev & Hrun)|(Hne & Hdel & Hrun)].
  - assert (Hno : MCPOAuthSessionExists ofault sid uid o2 <> Ok true).
    { apply oauth_run_invariant with (P := no_connector sid) in Hrun; [| |].
      - unfold MCPOAuthSessionExists, oq. destruct (ofault QMExists); [done|]. by destruct Hrun as [-> _].
      - intros f op d0 Hop. by apply no_connector_op.
      - revert Hrev. unfold AdminRevokeMCPOAuthSession, deleteMCPOAuthSessionTx. intros Hrev%otx_ok.
        apply st_bind_ok in Hrev as (d2 & u2 & Hs & ->%ox_ok). destruct (fault QMDelete); [done|]. destruct (osessions o !! sid); [|done].
        injection Hs as <-. split; [apply lookup_delete_eq|]. cbn. by intros h t [_ ?]%map_lookup_filter_Some. }
    rewrite (proj2 (String.eqb_neq _ _) Hne) in Es. cbn in Es. destruct (MCPOAuthSessionExists _ _ _ _) as [[|]|]; done.
  - assert (Hno : oclients o2 !! cid = None).
    { apply oauth_run_invariant with (P := no_client cid) in Hrun; [exact Hrun|intros f op d0 Hop; by apply no_client_op|by apply (delete_client_gone fault cid o)]. }
    rewrite (proj2 (String.eqb_neq _ _) Hne) in Ec. unfold OAuthClientByID, oq in Ec. rewrite Hno in Ec. by destruct (ofault QCByID).
Qed.
End Tokens.

(** ** Rights *)
Section Rights.
Context `{GS : GrantStore}.

Definition local_host (hostID : Z) : Z := if hostID <? 0 then 0 else hostID.

(** What the token allows and what its owner may do, both at this moment. *)
Definition permitted (p : principal) (section : string) (write : bool) (hostID : Z) : Prop :=
  (write = true -> roOnly p = false) /\ (scopes p = [] \/ section ∈ scopes p) /\
  (local_host hostID = 0 \/ phosts p = [] \/ local_host hostID ∈ phosts p) /\
  checkAccess (puser p) section write (local_host hostID) = None.

Lemma containsID_spec l i : containsID l i = true <-> i ∈ l.
Proof.
  unfold containsID. rewrite existsb_exists. split.
  - intros (x & Hx%list_elem_of_In & ->%Z.eqb_eq). done.
  - intros Hi. exists i. split; [by apply list_elem_of_In|apply Z.eqb_refl].
Qed.

Lemma narrowed_spec p section write h : narrowed p section write h = None <->
  (write = true -> roOnly p = false) /\ (scopes p = [] \/ section ∈ scopes p) /\ (h = 0 \/ phosts p = [] \/ h ∈ phosts p).
Proof.
  unfold narrowed. rewrite <- (one_of_true section), <- containsID_spec.
  assert (Hlen : forall {A} (l : list A), negb (Nat.eqb (length l) 0) = false <-> l = []) by (intros A []; by split).
  destruct (write && roOnly p) eqn:E1.
  { split; [done|]. intros [H _]. apply andb_true_iff in E1 as [Ew Er]. rewrite (H Ew) in Er. done. }
  assert (H1 : write = true -> roOnly p = false) by (intros Hw; rewrite Hw in E1; exact E1).
  destruct (negb (Nat.eqb (length (scopes p)) 0)) eqn:E2; cbn [andb].
  - assert (scopes p <> []) by (intros Hs; apply Hlen in Hs; congruence).
    destruct (one_of section (scopes p)) eqn:E3; cbn [negb]; [|split; [done|intuition congruence]].
    destruct (h =? 0) eqn:E4; cbn [negb andb]; bsimp; [intuition|]. destruct (negb (Nat.eqb (length (phosts p)) 0)) eqn:E5; cbn [andb].
    + assert (phosts p <> []) by (intros Hs; apply Hlen in Hs; congruence).
      destruct (containsID (phosts p) h); cbn [negb]; intuition congruence.
    + apply Hlen in E5. intuition.
  - apply Hlen in E2. destruct (h =? 0) eqn:E4; cbn [negb andb]; bsimp; [intuition|].
    destruct (negb (Nat.eqb (length (phosts p)) 0)) eqn:E5; cbn [andb].
    + assert (phosts p <> []) by (intros Hs; apply Hlen in Hs; congruence).
      destruct (containsID (phosts p) h); cbn [negb]; intuition congruence.
    + apply Hlen in E5. intuition.
Qed.

(** the gate of a tool call, exactly.  A call passes if and only if there is a
    principal, the token's own narrowing and the owner's live rights both permit the
    section, the intent and the host, and -- for a change that is to be charged -- the
    owner has an allowance left; a call that is not permitted spends nothing and
    leaves no mark, and a charged one spends exactly one unit of its owner's. *)
Theorem tool_gate_exact now p section write hostID charge s :
  match authorizeCharged now p section write hostID charge s with
  | (s', inr q) => p = Some q /\ permitted q section write hostID /\
      (if write && charge then exists first, allow_change now (ID (puser q)) (glimiter s) = (glimiter s', (true, first)) /\ gaudit s' = gaudit s
       else s' = s)
  | (s', inl e) =>
      match p with
      | None => s' = s
      | Some q =>
          (~ permitted q section write hostID /\ s' = s) \/
          (permitted q section write hostID /\ write = true /\ charge = true /\ e = errControlRateLimited /\
           exists first, allow_change now (ID (puser q)) (glimiter s) = (glimiter s', (false, first)) /\ (first = false -> gaudit s' = gaudit s))
      end
  end.
Proof.
  unfold authorizeCharged. destruct p as [p|]; [|done]. fold (local_host hostID).
  destruct (narrowed p section write (local_host hostID)) as [e|] eqn:En.
  { left. split; [|done]. intros (H1 & H2 & H3 & _). assert (narrowed p section write (local_host hostID) = None) by by apply narrowed_spec. congruence. }
  apply narrowed_spec in En. destruct (checkAccess (puser p) section write (local_host hostID)) as [e|] eqn:Ec.
  { left. split; [|done]. intros (_ & _ & _ & H4). congruence. }
  assert (Hp : permitted p section write hostID) by (unfold permitted; tauto).
  destruct (write && charge) eqn:Ew; [|done].
  destruct (allow_change now (ID (puser p)) (glimiter s)) as [l [[|] first]] eqn:Ea.
  - split; [done|]. split; [done|]. cbn. eauto.
  - right. apply andb_true_iff in Ew as [-> ->]. split; [done|]. split; [done|]. split; [done|]. split; [done|]. cbn. exists first.
    split; [done|]. by intros ->.
Qed.

Lemma tool_gate_holds now p section write hostID charge s :
  match authorizeCharged now (Some p) section write hostID charge s with
  | (_, inr _) => permitted p section write hostID
  | (_, inl _) => True
  end.
Proof.
  unfold authorizeCharged. fold (local_host hostID). destruct (narrowed p section write (local_host hostID)) as [e|] eqn:En; [done|].
  apply narrowed_spec in En. destruct (checkAccess _ _ _ _) as [e|] eqn:Ec; [done|].
  assert (Hp : permitted p section write hostID) by (unfold permitted; tauto).
  destruct (write && charge); [|done]. by destruct (allow_change _ _ _) as [l [[|] first]].
Qed.

(** read-only means read-only.  No tool call that changes anything passes for a
    read-only token, nor, whatever its token, for a read-only account outside the
    administrators. *)
Theorem read_only_tools now p section hostID charge s `{!GrantStoreLaws GS} :
  roOnly p = true \/ (ReadOnly (puser p) = true /\ IsAdmin (puser p) = false /\ section <> "" /\ section <> "__admin") ->
  exists s' e, authorizeCharged now (Some p) section true hostID charge s = (s', inl e).
Proof.
  intros H. pose proof (tool_gate_holds now p section true hostID charge s) as Hg.
  destruct (authorizeCharged now (Some p) section true hostID charge s) as [s' [e|q]]; [by exists s', e|]. exfalso.
  destruct Hg as (Hro & _ & _ & Hc). destruct H as [H|(Hr & Ha & Hs1 & Hs2)]; [rewrite Hro in H by done; done|].
  unfold checkAccess in Hc. rewrite (proj2 (String.eqb_neq _ _) Hs1), (proj2 (String.eqb_neq _ _) Hs2), Ha in Hc.
  destruct (gsEffectiveGrants (puser p)) as [out|] eqn:Eg; [|done]. destruct (out !! section) as [g|] eqn:Es; [|done].
  destruct (negb (Granted g)); [done|]. rewrite (gs_read_only (puser p) out section g Eg Hr Es) in Hc. done.
Qed.
End Rights.

(** ** A grant that works *)
Section Granted.
Context `{E : AuthEnv} `{OE : OAuthEnv} (tfault : TQuery -> bool).
Context (jwt_verifies : forall key now c e, aExpiresAt c = Some e -> now < e -> at_parse key now (aAudience c) (at_sign key c) = Some c)
  (jwt_compact : forall key c, count_dots (at_sign key c) = 2%nat).

(** what the token endpoint hands out works at the gate.  After a successful code
    exchange, the access token is accepted -- as the account that consented, read-only
    if that is what was consented to -- until it expires fifteen minutes after it was
    signed, as long as the account and the client exist and the store answers. *)
Theorem issued_token_works info code cid uri verifier s s' t accounts u d rec :
  tokenFromCode info code cid uri verifier s = (s', Ok (Tokens t)) ->
  ocodes (odb s) !! hashToken code = Some rec -> in_int64 (cdUserID rec) ->
  UserByID acc_fault (cdUserID rec) accounts = Ok u -> is_Some (oclients (odb s) !! cid) ->
  ofault QCByID = false -> ofault QMExists = false ->
  exists k, forall t1 t2 t3 t4 ip, t1 < rfc3339 (oclock k + AccessTokenTTL) ->
    verifyToken tfault true t1 t2 t3 t4 (access_token t) ip accounts (odb s') d =
    (d, Some (mkPrincipal u (String.eqb (cdScope rec) scopeReadOnly) [] [] ip, rfc3339 (oclock k + AccessTokenTTL))).
Proof.
  intros H Hrec Hint Hu [cl Hcl] Hf1 Hf2. pose proof (tokenFromCode_clients _ _ _ _ _ _ _ _ H) as Hoc.
  pose proof (grant_inv _ _ _ _ _ _ _ _ H) as (rec' & now & sid & Hrec' & _ & Hc & _ & _ & _ & _ & _ & Hacc & _ & _ & _ & row & Hrow & Hru & _).
  rewrite Hrec in Hrec'. injection Hrec' as <-. destruct Hacc as (jti & k & Hk). exists k. intros t1 t2 t3 t4 ip Ht.
  unfold verifyToken. rewrite Hk, jwt_compact, Nat.eqb_refl. cbn [andb]. unfold parseAccessToken.
  set (c := mkAccess _ _ _ _ _ _ _ _). pose proof (jwt_verifies mcpSigningKey t1 c _ eq_refl Ht) as Hv. cbn [aAudience c] in Hv.
  change (aAudience c) with mcpResource in Hv. rewrite Hv. cbn [mbind option_bind aSubject aExpiresAt aClientID aSessionID aReadOnly c].
  rewrite ParseInt_FormatInt by done. cbn [mbind option_bind]. rewrite Hu. f_equal.
  unfold OAuthClientByID, MCPOAuthSessionExists, oq. rewrite Hf1, Hf2, Hoc, Hcl, Hrow, lookup_insert_eq, Hru, Z.eqb_refl. cbn [is_ok negb].
  rewrite !andb_false_r. reflexivity.
Qed.
End Granted.
