(* ===== verification/McpExamples.v ===== *)
(** * The MCP endpoint, run on a small installation

    A concrete JWT library and digests, one registered client, and a consent that
    becomes a code, a token and a tool call. *)
From stdpp Require Import countable.
From S2P Require Import Prelude Floats Limits GoStrings Password Users Roles RoleHandlers Access Calendar Accounts Login Passkeys SessionGate LoginSpec LoginExamples OAuthStore ApiTokens OAuth McpGate.

(** ** A token library that keeps its promises *)
Fixpoint bits_of (p : positive) : list Ascii.ascii :=
  match p with xH => [] | xO q => "0"%char :: bits_of q | xI q => "1"%char :: bits_of q end.
Fixpoint of_bits (l : list Ascii.ascii) : positive :=
  match l with [] => xH | c :: l' => if Ascii.eqb c "1"%char then xI (of_bits l') else xO (of_bits l') end.
Lemma of_bits_of p : of_bits (bits_of p) = p.
Proof. induction p as [q IH|q IH|]; cbn; congruence. Qed.

Definition flat_claims : Type := string * string * string * string * option Z * string * bool * string * string.
Definition flatten (key : string) (c : AccessClaims) : flat_claims :=
  (key, aIssuer c, aSubject c, aAudience c, aExpiresAt c, aJTI c, aReadOnly c, aClientID c, aSessionID c).
Definition toy_sign (key : string) (c : AccessClaims) : string := of_bytes ("."%char :: "."%char :: bits_of (encode (flatten key c))).
Definition toy_parse (key : string) (now : Z) (aud token : string) : option AccessClaims :=
  match bytes token with
  | _ :: _ :: l =>
      match decode (A := flat_claims) (of_bits l) with
      | Some (k, iss, sub, a, Some e, jti, ro, cid, sid) =>
          if String.eqb k key && String.eqb a aud && (now <? e) then Some (mkAccess iss sub a (Some e) jti ro cid sid) else None
      | _ => None
      end
  | _ => None
  end.

Lemma toy_verifies key now c e : aExpiresAt c = Some e -> now < e -> toy_parse key now (aAudience c) (toy_sign key c) = Some c.
Proof.
  intros He Hn. destruct c as [iss sub aud exp jti ro cid sid]. cbn [aExpiresAt] in He. subst exp.
  unfold toy_parse, toy_sign, bytes, of_bytes. rewrite String.list_ascii_of_string_of_list_ascii. cbv iota beta.
  rewrite of_bits_of, decode_encode. unfold flatten. cbn [aIssuer aSubject aAudience aExpiresAt aJTI aReadOnly aClientID aSessionID].
  rewrite !String.eqb_refl, (proj2 (Z.ltb_lt now e) Hn). reflexivity.
Qed.
Lemma toy_compact key c : count_dots (toy_sign key c) = 2%nat.
Proof.
  unfold count_dots, toy_sign, bytes, of_bytes. rewrite String.list_ascii_of_string_of_list_ascii. rewrite !filter_cons_True by done.
  replace (filter (fun c => c = "."%char) (bits_of (encode (flatten key c)))) with (@nil Ascii.ascii); [done|].
  generalize (encode (flatten key c)). intros p. induction p as [q IH|q IH|]; [| |done]; cbn [bits_of]; by rewrite filter_cons_False.
Qed.

#[export] Instance demo_oauth : OAuthEnv := {|
  oclock n := demo_start + Z.of_nat n * second;
  randToken n := "tok" +:+ FormatInt (Z.of_nat n);
  OAuth.hashToken s := "h:" +:+ s;
  pkceHash s := "p:" +:+ s;
  hmac64 k m := k +:+ "/" +:+ m;
  url_Parse s := if HasPrefix s "https://" then Some (mkURL "https" "a.example" "") else None;
  at_sign := toy_sign; at_parse := toy_parse; at_rand n := Some "jti";
  MCPPublicURL := "https://dc/"; mcpSigningKey := "k"; ofault _ := false
|}.

(** ** A consent, a code, a token *)
Definition o_start : OState :=
  mkOState demo_auth (mkODB {[ "c1" := mkClient "c1" "Assistant" ["https://a/cb"] 0 ]} ∅ ∅ ∅) alice_in.1 [] 0.
Definition o_params : authzParams := mkParams "c1" "https://a/cb" "xyz" "p:verifier" "S256" "" "".
Definition o_cookie : HttpRequest := cookie alice_in.2.
Definition o_csrf : string := oauthCSRF o_cookie "c1" "https://a/cb".
Definition o_consented : OState * result OReply OReply := handleOAuthAuthorizeDecision o_params o_csrf "allow" "1" o_cookie o_start.
Definition o_granted : OState * result OReply OReply := tokenFromCode demo_info "tok0" "c1" "https://a/cb" "verifier" o_consented.1.

Example redirect_is_registered_witness : registered_for "https://a/cb" o_params o_start.
Proof.
  apply (redirect_is_registered o_params "code" o_csrf "allow" "1" o_cookie o_start). right.
  exists [("code", "tok0"); ("iss", "https://dc"); ("state", "xyz")]. left. vm_compute. reflexivity.
Defined.

Lemma alice_claims t c : demo_parse t alice_in.2 = Some c -> cUserID c = 1.
Proof.
  replace alice_in.2 with "1|alice|user|s|0|jti-2|63763243201" by (vm_compute; reflexivity).
  unfold demo_parse. replace (Split _ _) with ["1"; "alice"; "user"; "s"; "0"; "jti-2"; "63763243201"] by (vm_compute; reflexivity).
  change (ParseInt "1") with (Some 1). destruct (ParseInt "0"), (ParseInt "63763243201"); try (intros H; discriminate H).
  destruct (_ <? _); [|intros H; discriminate H]. intros H. injection H as <-. reflexivity.
Qed.


Definition is_tokens (r : result OReply OReply) : bool := match r with Ok (Tokens _) => true | _ => false end.
Lemma is_tokens_inv r : is_tokens r = true -> exists t, r = Ok (Tokens t).
Proof. destruct r as [[]|]; try discriminate. eauto. Qed.
Lemma o_granted_ok : is_tokens o_granted.2 = true.
Proof. vm_compute. reflexivity. Qed.

Example code_grant_bound_witness :
  match o_granted with
  | (s', Ok (Tokens t)) => tscope t = "mcp:read" /\ exists sid, access_for 1 "c1" sid "https://dc/mcp" true (access_token t)
  | _ => False
  end.
Proof.
  pose proof o_granted_ok as Hok. destruct o_granted as [s' r] eqn:H. destruct (is_tokens_inv r Hok) as [t ->].
  destruct (code_grant_bound _ _ _ _ _ _ _ _ H) as (rec & now & sid & Hrec & _ & _ & _ & _ & _ & _ & _ & Hacc & Hsc & _).
  assert (Hr : exists e, rec = mkCode "c1" 1 "https://a/cb" "p:verifier" "https://dc/mcp" "mcp:read" e).
  { vm_compute in Hrec. injection Hrec as <-. eexists. reflexivity. }
  destruct Hr as [e ->]. split; [exact Hsc|]. exists sid. exact Hacc.
Defined.

Example issued_token_works_witness :
  match o_granted with
  | (s', Ok (Tokens t)) => exists k, forall t1 ip, t1 < rfc3339 (oclock k + AccessTokenTTL) ->
      exists p, (verifyToken never_fails true t1 0 0 0 (access_token t) ip demo_acc (odb s') (mkTDB [] 0 None)).2 = Some (p, rfc3339 (oclock k + AccessTokenTTL)) /\
                roOnly p = true /\ ID (puser p) = 1
  | _ => False
  end.
Proof.
  pose proof o_granted_ok as Hok. destruct o_granted as [s' r] eqn:H. destruct (is_tokens_inv r Hok) as [t ->].
  assert (Hrec : exists e, ocodes (odb o_consented.1) !! OAuth.hashToken "tok0" = Some (mkCode "c1" 1 "https://a/cb" "p:verifier" "https://dc/mcp" "mcp:read" e)).
  { eexists. vm_compute. reflexivity. }
  destruct Hrec as [e Hrec].
  destruct (issued_token_works (E := demo_auth) (OE := demo_oauth) never_fails toy_verifies toy_compact _ _ _ _ _ _ _ _ demo_acc (scanUserRow demo_acc (demo_user 1 "alice" false)) (mkTDB [] 0 None) _ H Hrec)
    as [k Hk]; [split; vm_compute; discriminate|reflexivity|vm_compute; eauto|reflexivity|reflexivity|].
  exists k. intros t1 ip Ht. specialize (Hk t1 0 0 0 ip Ht). rewrite Hk. eexists. split; [reflexivity|]. split; reflexivity.
Defined.

Definition o_refreshed : OState * result OReply OReply := tokenFromRefresh demo_info "tok6" "c1" o_granted.1.
Lemma o_refreshed_ok : is_tokens o_refreshed.2 = true.
Proof. vm_compute. reflexivity. Qed.
Example refresh_grants_nothing_new_witness :
  match o_refreshed with
  | (s', Ok (Tokens t)) => tscope t = "mcp:read" /\ exists sid, access_for 1 "c1" sid "https://dc/mcp" true (access_token t)
  | _ => False
  end.
Proof.
  pose proof o_refreshed_ok as Hok. destruct o_refreshed as [s' r] eqn:H. destruct (is_tokens_inv r Hok) as [t ->].
  destruct (refresh_grants_nothing_new _ _ _ _ _ _ H) as (rec & sid & now & Hrec & _ & _ & _ & Hacc & _ & Hsc & _).
  assert (Hr : rtUserID rec = 1 /\ rtScope rec = "mcp:read") by (vm_compute in Hrec; injection Hrec as <-; split; reflexivity).
  destruct Hr as [Hu Hs]. rewrite Hu, Hs in Hacc. rewrite Hs in Hsc. split; [exact Hsc|]. exists sid. exact Hacc.
Defined.

(** ** At the gate *)
Definition o_token : string := match o_granted.2 with Ok (Tokens t) => access_token t | _ => "" end.
Definition t_soon : Z := demo_start + minute.
Definition no_tokens : TDB := mkTDB [] 0 None.

Example verified_token_is_live_witness :
  match verifyToken never_fails true t_soon 0 0 0 o_token "ip" demo_acc (odb o_granted.1) no_tokens with
  | (_, Some (p, _)) => UserByID acc_fault (ID (puser p)) demo_acc = Ok (puser p)
  | (_, None) => False
  end.
Proof.
  destruct (verifyToken _ _ _ _ _ _ _ _ _ _ _) as [d' [[p exp]|]] eqn:H.
  - exact (proj1 (verified_token_is_live never_fails true _ _ _ _ _ _ _ _ _ _ p exp H)).
  - assert (Hok : is_Some (verifyToken never_fails true t_soon 0 0 0 o_token "ip" demo_acc (odb o_granted.1) no_tokens).2).
    { apply (bool_decide_unpack _). vm_compute. reflexivity. }
    rewrite H in Hok. destruct Hok as [x Hx]. discriminate Hx.
Defined.

Example cut_off_connector_refused_witness :
  let o1 := (AdminRevokeMCPOAuthSession no_ofault "tok3" (odb o_granted.1)).1 in
  (verifyToken never_fails true t_soon 0 0 0 o_token "ip" demo_acc o1 no_tokens).2 = None.
Proof.
  cbv zeta. assert (Hp : exists exp, parseAccessToken t_soon o_token = Some (1, "c1", "tok3", true, exp)).
  { eexists. vm_compute. reflexivity. }
  destruct Hp as [exp Hp].
  rewrite (cut_off_connector_refused never_fails true no_ofault t_soon 0 0 0 o_token "ip" demo_acc no_tokens (odb o_granted.1)
    (AdminRevokeMCPOAuthSession no_ofault "tok3" (odb o_granted.1)).1 _ 1 "c1" "tok3" true exp Hp eq_refl); [reflexivity|vm_compute; reflexivity|].
  left. split; [discriminate|]. split; [|apply rtc_refl].
  assert (Hok : (AdminRevokeMCPOAuthSession no_ofault "tok3" (odb o_granted.1)).2 = Ok tt) by (vm_compute; reflexivity).
  destruct (AdminRevokeMCPOAuthSession _ _ _) as [x y]. cbn in Hok |- *. by rewrite Hok.
Defined.

Definition demo_grants : GrantStore := db_store no_fault {[ 1 := demo_admin ]} (mkDB ∅ 0 ∅ ∅ ∅ ∅ [] 0) false.
Definition demo_gate : GState := mkGState (Some ∅) [].
Example read_only_tools_witness :
  exists s' e, authorizeCharged (GS := demo_grants) 0 (Some (mkPrincipal demo_admin true [] [] "ip")) "containers" true 0 true demo_gate = (s', inl e).
Proof.
  apply (read_only_tools (GS := demo_grants) 0 (mkPrincipal demo_admin true [] [] "ip") "containers" 0 true demo_gate
    (GrantStoreLaws0 := db_store_laws _ _ _ _)). left. reflexivity.
Defined.

(** ** What the model shows to go wrong *)

Definition o_stolen : OState := mkOState demo_auth (odb o_start) alice_changed [] 0.
Definition o_stolen_code := handleOAuthAuthorizeDecision o_params o_csrf "allow" "0" o_cookie o_stolen.
Definition o_stolen_grant := tokenFromCode demo_info "tok0" "c1" "https://a/cb" "verifier" o_stolen_code.1.

(** a session that is over still buys an access token.  After alice has changed her
    password the gate refuses her old cookie; the consent page takes it, the code it
    issues is exchanged, and the token endpoint's access token is accepted as alice --
    with a refresh token good for thirty days -- so a stolen cookie outlives the change
    that was meant to kill it. *)
Theorem revoked_session_mints_tokens :
  (RequireSession String.eqb o_cookie alice_changed).2 = Ok None /\
  match o_stolen_grant with
  | (s', Ok (Tokens t)) =>
      size (otokens (odb s')) = 1%nat /\
      match verifyToken never_fails true t_soon 0 0 0 (access_token t) "ip" (acc alice_changed) (odb s') no_tokens with
      | (_, Some (p, _)) => ID (puser p) = 1 /\ roOnly p = false
      | (_, None) => False
      end
  | _ => False
  end.
Proof. vm_compute. repeat split. Qed.

Definition demo_scoped : TState * TResp :=
  handleCreateMCPToken never_fails (fun n => demo_start + second * Z.of_nat n) (fun n => "secret") OAuth.hashToken (fun _ => Ok demo_admin)
    (fun _ => Ok []) 1 (Some demo_body) empty_tstate.

(** a token scoped to a host reaches the others.  The administrator of [demo_mint]
    asked for a token for host 7 only; the gate accepts it for a change on host 9,
    because the principal a stored token becomes carries no hosts. *)
Theorem host_scoped_token_reaches_all :
  match verifyToken never_fails true t_soon 0 0 0 "secret" "ip" (mkAuthDB [demo_admin] 1 ∅ ∅ [] 0 []) (odb o_start) (tdb demo_scoped.1) with
  | (_, Some (p, _)) =>
      (exists r, r ∈ api_tokens (tdb demo_scoped.1) /\ atHostIDs r = [7]) /\ phosts p = [] /\
      match authorizeExtra (GS := demo_grants) 0 (Some p) "containers" true 9 demo_gate with (_, inr _) => True | (_, inl _) => False end
  | (_, None) => False
  end.
Proof. vm_compute. split; [|done]. eexists. split; [left|reflexivity]. Qed.
