(* ===== verification/Maintenance.v ===== *)
(** * Maintenance windows (internal/store/maintenance.go, monitor/maintenance_log.go)

    When a window is active, what it covers, the table of windows and the lookup
    the alert engine uses before it delivers anything. *)
From S2P Require Import Prelude GoStrings Users Roles Calendar.

(** ** Data *)
Record MaintenanceWindow := mkWin {
  wID : Z;
  wName : string;
  wReason : string;
  AuthorID : Z;
  HostIDs : list Z;
  Project : string;
  Container : string;
  RuleID : option Z;
  Severities : list string;
  Recurring : bool;
  StartsAt : Z;
  EndsAt : Z;
  Weekdays : list Z;
  TimeOfDay : string;
  DurationMin : Z;
  Timezone : string;
  Ended : bool;
  wCreatedAt : Z
}.

Definition MaxRecurringDurationMin : Z := 24 * 60.

(** ** Schedules *)

Section Schedule.
(** The time zone database: [None] for an unknown name. *)
Context (LoadLocation : string -> option Location).

Definition zone (tz : string) : Location :=
  if String.eqb tz "" then UTC else default UTC (LoadLocation tz).

Definition weekdayIn (days : list Z) (d : Z) : bool := existsb (Z.eqb d) days.

(** One candidate day of the two: its occurrence, when it covers [now]. *)
Definition occurrence_on (w : MaintenanceWindow) (loc : Location) (seriesStart now hh mm day : Z)
    : option (Z * Z) :=
  let occDate := Date loc day 0 0 in
  if Before occDate seriesStart then None
  else if negb (weekdayIn (Weekdays w) (weekday day)) then None
  else
    let occStart := Date loc day hh mm in
    let occEnd := occStart + dur_mul (DurationMin w) minute in
    if negb (Before now occStart) && Before now occEnd then Some (occStart, occEnd) else None.

Definition recurringSpanAt (w : MaintenanceWindow) (now : Z) : option (Z * Z) :=
  let loc := zone (Timezone w) in
  match parseTimeOfDay (TimeOfDay w) with
  | None => None
  | Some (hh, mm) =>
      if DurationMin w <=? 0 then None
      else
        let seriesStart := Date loc (civil_day loc (StartsAt w)) 0 0 in
        if Before now seriesStart then None
        else if negb (IsZero (EndsAt w)) && negb (Before now (EndsAt w)) then None
        else
          let on n := occurrence_on w loc seriesStart now hh mm (civil_day loc (AddDays loc now n)) in
          match on 0 with
          | Some span => Some span
          | None => on (-1)
          end
  end.

Definition ActiveSpan (w : MaintenanceWindow) (now : Z) : option (Z * Z) :=
  if Ended w then None
  else if negb (Recurring w) then
    if negb (Before now (StartsAt w)) && Before now (EndsAt w)
    then Some (StartsAt w, EndsAt w) else None
  else recurringSpanAt w now.

Definition Active (w : MaintenanceWindow) (now : Z) : bool :=
  match ActiveSpan w now with Some _ => true | None => false end.

Definition Closed (w : MaintenanceWindow) (now : Z) : bool :=
  if Ended w then true else negb (IsZero (EndsAt w)) && negb (Before now (EndsAt w)).

(** ** Scope *)

(** strings.ToLower *)
Context (ToLower : string -> string).

Definition containsInt64 (l : list Z) (v : Z) : bool := existsb (Z.eqb v) l.
Definition containsStr (l : list string) (v : string) : bool := one_of v l.
Definition containsFold (haystack needle : string) : bool :=
  negb (String.eqb needle "") && Contains (ToLower haystack) (ToLower needle).

Definition Matches (w : MaintenanceWindow) (hostID : Z) (project container : string)
    (ruleID : Z) (severity : string) : bool :=
  if match HostIDs w with [] => false | _ => negb (containsInt64 (HostIDs w) hostID) end then false
  else if negb (String.eqb (Project w) "") && negb (containsFold project (Project w)) then false
  else if negb (String.eqb (Container w) "") && negb (containsFold container (Container w)) then false
  else if match RuleID w with Some r => negb (r =? ruleID) | None => false end then false
  else if match Severities w with [] => false | _ => negb (containsStr (Severities w) severity) end then false
  else true.

(** ** The table

    Rows in insertion order.  A row keeps what the columns keep: times as
    RFC3339, so in whole seconds. *)
Record Windows := mkWindows { rows : list MaintenanceWindow; wseq : Z }.

(** The statements that can fail. *)
Inductive WQuery := WCandidates | WList | WByID (id : Z) | WInsert | WUpdate (id : Z) | WEnd (id : Z) | WDelete (id : Z).

Section Table.
Context (fault : Query -> bool) (wfault : WQuery -> bool).

(** The filter of the WHERE clause: [ends_at] is "" for a zero end, and RFC3339
    strings in UTC compare like the whole seconds they denote. *)
Definition candidate (now : Z) (w : MaintenanceWindow) : bool :=
  negb (Ended w) && (Recurring w || (negb (IsZero (EndsAt w)) && (rfc3339 now <? EndsAt w))).

Definition activeCandidateMaintenanceWindows (t : Windows) (now : Z)
    : result StoreErr (list MaintenanceWindow) :=
  if wfault WCandidates then Err ErrDB else Ok (filter (fun w => candidate now w = true) (rows t)).

Definition MaintenanceWindowByID (t : Windows) (id : Z) : result StoreErr MaintenanceWindow :=
  if wfault (WByID id) then Err ErrDB
  else match list_find (fun w => wID w = id) (rows t) with
       | Some (_, w) => Ok w
       | None => Err ErrNotFound
       end.

Definition FindActiveMaintenanceWindow (db : DB) (t : Windows) (hostID : Z) (project container : string)
    (ruleID : Z) (severity : string) (now : Z) : result StoreErr (option MaintenanceWindow) :=
  let hostID := NormalizeHostID fault hostID db in
  candidates ← activeCandidateMaintenanceWindows t now;
  Ok (snd <$> list_find (fun w => (Active w now && Matches w hostID project container ruleID severity) = true)
                candidates).

(** The extra ids the log asks about: removed ones are skipped. *)
Fixpoint add_known (t : Windows) (seen : list Z) (ids : list Z) : result StoreErr (list MaintenanceWindow) :=
  match ids with
  | [] => Ok []
  | id :: rest =>
      if containsInt64 seen id then add_known t seen rest
      else match MaintenanceWindowByID t id with
           | Err ErrNotFound => add_known t seen rest
           | Err e => Err e
           | Ok w => more ← add_known t seen rest; Ok (w :: more)
           end
  end.

Definition MaintenanceWindowsForLog (t : Windows) (now : Z) (ids : list Z)
    : result StoreErr (list MaintenanceWindow) :=
  cands ← activeCandidateMaintenanceWindows t now;
  more ← add_known t (wID <$> cands) ids;
  Ok (cands ++ more).

Definition CreateMaintenanceWindow (w : MaintenanceWindow) (now : Z) : stM Windows StoreErr Z := fun t =>
  if wfault WInsert then (t, Err ErrDB)
  else
    let id := wseq t + 1 in
    (mkWindows (rows t ++ [mkWin id (wName w) (wReason w) (AuthorID w) (HostIDs w) (Project w) (Container w)
                             (RuleID w) (Severities w) (Recurring w) (rfc3339 (StartsAt w)) (rfc3339 (EndsAt w))
                             (Weekdays w) (TimeOfDay w) (DurationMin w) (Timezone w) false (rfc3339 now)]) id,
     Ok id).

(** UPDATE and DELETE of one row, ErrNotFound when there is none. *)
Definition on_row (q : WQuery) (id : Z) (f : list MaintenanceWindow -> list MaintenanceWindow)
    : stM Windows StoreErr () := fun t =>
  if wfault q then (t, Err ErrDB)
  else if bool_decide (id ∈ wID <$> rows t) then (mkWindows (f (rows t)) (wseq t), Ok ())
  else (t, Err ErrNotFound).

Definition UpdateMaintenanceWindow (id : Z) (w : MaintenanceWindow) : stM Windows StoreErr () :=
  on_row (WUpdate id) id (fmap (fun o => if wID o =? id then
    mkWin id (wName w) (wReason w) (AuthorID o) (HostIDs w) (Project w) (Container w)
      (RuleID w) (Severities w) (Recurring w) (rfc3339 (StartsAt w)) (rfc3339 (EndsAt w))
      (Weekdays w) (TimeOfDay w) (DurationMin w) (Timezone w) (Ended o) (wCreatedAt o) else o)).

Definition EndMaintenanceWindow (id : Z) : stM Windows StoreErr () :=
  on_row (WEnd id) id (fmap (fun o => if wID o =? id then
    mkWin (wID o) (wName o) (wReason o) (AuthorID o) (HostIDs o) (Project o) (Container o) (RuleID o)
      (Severities o) (Recurring o) (StartsAt o) (EndsAt o) (Weekdays o) (TimeOfDay o) (DurationMin o)
      (Timezone o) true (wCreatedAt o) else o)).

Definition DeleteMaintenanceWindow (id : Z) : stM Windows StoreErr () :=
  on_row (WDelete id) id (filter (fun o => wID o <> id)).
End Table.

(** ** The log of transitions (monitor/maintenance_log.go) *)

(** What the last pass knew of an active window: name, start, end. *)
Record activeWindow := mkAW { awName : string; awStart : Z; awEnd : Z }.
#[export] Instance activeWindow_eq_dec : EqDecision activeWindow.
Proof. solve_decision. Defined.

Inductive LogLine :=
  | LogActive (id : Z) (aw : activeWindow)              (* already running at startup *)
  | LogStarted (id : Z) (aw : activeWindow)
  | LogStopped (reason : string) (id : Z) (aw : activeWindow).

Definition same (a b : activeWindow) : bool := (awStart a =? awStart b) && (awEnd a =? awEnd b).

Definition active_set (windows : list MaintenanceWindow) (now : Z) : gmap Z activeWindow :=
  build_map wID (fun w => match ActiveSpan w now with
                          | Some (s, e) => Some (mkAW (wName w) s e)
                          | None => None
                          end) ∅ windows.

Definition byID (windows : list MaintenanceWindow) : gmap Z MaintenanceWindow :=
  build_map wID Some ∅ windows.

Definition logMaintenanceTransitions (prev : gmap Z activeWindow) (windows : list MaintenanceWindow)
    (now : Z) (first : bool) : gmap Z activeWindow * list LogLine :=
  let cur := active_set windows now in
  let started := omap (M := list) (fun '(id, a) =>
      match prev !! id with
      | Some p => if same p a then None else Some (if first : bool then LogActive id a else LogStarted id a)
      | None => Some (if first then LogActive id a else LogStarted id a)
      end) (map_to_list cur) in
  let stopped := omap (M := list) (fun '(id, a) =>
      let line := match byID windows !! id with
                  | None => LogStopped "removed" id a
                  | Some w => LogStopped (if Ended w then "ended early" else "ended") id a
                  end in
      match cur !! id with
      | Some c => if same c a then None else Some line
      | None => Some line
      end) (map_to_list prev) in
  (cur, started ++ stopped).
End Schedule.

(** ** Properties *)

(** The occurrence that day [day] of the schedule produces: [s, e). *)
Definition occurrence (tzdb : string -> option Location) (w : MaintenanceWindow) (day s e : Z) : Prop :=
  let loc := zone tzdb (Timezone w) in
  exists hh mm, parseTimeOfDay (TimeOfDay w) = Some (hh, mm) /\
    weekday day ∈ Weekdays w /\
    Date loc (civil_day loc (StartsAt w)) 0 0 <= Date loc day 0 0 /\
    s = Date loc day hh mm /\ e = s + dur_mul (DurationMin w) minute.

(** The series covers [now]: it has begun and has not stopped recurring. *)
Definition series_open (tzdb : string -> option Location) (w : MaintenanceWindow) (now : Z) : Prop :=
  let loc := zone tzdb (Timezone w) in
  Date loc (civil_day loc (StartsAt w)) 0 0 <= now /\ (EndsAt w = 0 \/ now < EndsAt w).

Lemma weekdayIn_elem l d : weekdayIn l d = true <-> d ∈ l.
Proof.
  unfold weekdayIn. rewrite existsb_exists, list_elem_of_In. split.
  - intros (x & ? & ->%Z.eqb_eq). done.
  - intros. exists d. by rewrite Z.eqb_refl.
Qed.

Section Spans.
Context (tzdb : string -> option Location) (w : MaintenanceWindow).
Let loc := zone tzdb (Timezone w).

Lemma occurrence_on_spec seriesStart now hh mm day s e :
  occurrence_on w loc seriesStart now hh mm day = Some (s, e) <->
    seriesStart <= Date loc day 0 0 /\ weekday day ∈ Weekdays w /\
    s = Date loc day hh mm /\ e = s + dur_mul (DurationMin w) minute /\ s <= now < e.
Proof.
  unfold occurrence_on, Before. rewrite <- weekdayIn_elem.
  destruct (_ <? seriesStart) eqn:E1; bsimp; [split; [done|lia]|].
  destruct (weekdayIn _ _); simpl; [|split; [done|tauto || by intros (_ & ? & _)]].
  destruct (_ && _) eqn:E2.
  - bsimp. split; [intros [= <- <-]; repeat split; lia|]. by intros (_ & _ & -> & -> & _).
  - split; [done|]. intros (_ & _ & -> & -> & ?). apply andb_false_iff in E2 as [E2|E2]; bsimp; lia.
Qed.

(** What is reported is an occurrence of the schedule that covers the instant. *)
Lemma recurringSpanAt_sound now s e :
  recurringSpanAt tzdb w now = Some (s, e) ->
  series_open tzdb w now /\ (exists day, occurrence tzdb w day s e) /\ s <= now < e.
Proof.
  unfold recurringSpanAt, series_open, occurrence. fold loc.
  destruct (parseTimeOfDay _) as [[hh mm]|]; [|done].
  destruct (_ <=? 0); [done|]. destruct (Before now _) eqn:E1; [done|].
  destruct (_ && _) eqn:E2; [done|]. unfold Before, IsZero in *. bsimp. intros H.
  split; [split; [lia|]|].
  { apply andb_false_iff in E2 as [E2|E2]; bsimp; lia. }
  destruct (occurrence_on _ _ _ _ _ _ (civil_day loc (AddDays loc now 0))) as [[s0 e0]|] eqn:E0;
    [injection H as <- <-; apply occurrence_on_spec in E0 as (? & ? & -> & -> & ?)
    |apply occurrence_on_spec in H as (? & ? & -> & -> & ?)];
    (split; [eexists _, hh, mm; repeat split; eauto|done]).
Qed.
End Spans.

(** the two-day lookback finds every occurrence, away from clock changes.  For
    a recurring window of at most 24 hours, at an instant whose zone keeps one
    offset for four days around it, the window is active exactly when it is not
    ended, its series is open and SOME occurrence of its schedule, on whatever
    day it started, covers the instant; in particular one that began before
    midnight is still found after it. *)
Theorem recurring_active_exact tzdb w now off :
  Recurring w = true -> 0 < DurationMin w <= MaxRecurringDurationMin ->
  (forall t, - day_ns < offset_at (zone tzdb (Timezone w)) t < day_ns) ->
  quiet (zone tzdb (Timezone w)) off (now - 4 * day_ns) (now + 4 * day_ns) ->
  Active tzdb w now = true <->
    Ended w = false /\ series_open tzdb w now /\
    exists day s e, occurrence tzdb w day s e /\ s <= now < e.
Proof.
  intros Hrec Hdur Hoff Hq. unfold Active, ActiveSpan. rewrite Hrec. simpl.
  destruct (Ended w); [split; [done|by intros [? _]]|].
  destruct (recurringSpanAt tzdb w now) as [[s e]|] eqn:E.
  { apply recurringSpanAt_sound in E as (? & [day ?] & ?). split; [intros _|done]. split; [done|]. eauto 10. }
  split; [done|]. intros (_ & Hopen & day & s & e & Hocc & Hs). exfalso.
  set (loc := zone tzdb (Timezone w)) in *.
  destruct Hocc as (hh & mm & Hp & Hwd & Hser & Hst & He). fold loc in Hser, Hst.
  pose proof (parseTimeOfDay_range _ _ _ Hp) as [Hhh Hmm].
  unfold MaxRecurringDurationMin in Hdur.
  rewrite dur_mul_small in He by (unfold minute, second, int64_max; lia).
  assert (off = offset_at loc now) as Ho by (symmetry; apply Hq; unfold day_ns, hour, minute, second; lia).
  pose proof (Hoff now) as Hon. rewrite <- Ho in Hon.
  set (wl := day * day_ns + hh * hour + mm * minute) in *.
  assert (Hst' : s = wl - off).
  { assert (exists o, - day_ns < o < day_ns /\ s = wl - o) as (o & Hor & Hso).
    { rewrite Hst. unfold Date. fold wl. unfold from_wall. pose proof (Hoff wl) as Hw. unfold offset_at in Hw.
      destruct (lookup loc wl) as [[o s0] e0]. simpl in Hw.
      destruct (o =? 0) eqn:E0; bsimp; [exists 0; lia|]. destruct (_ || _); eexists; (split; [|reflexivity]); [apply Hoff|done]. }
    rewrite Hst. unfold Date. fold wl.
    rewrite (quiet_from_wall loc off (now - 4 * day_ns) (now + 4 * day_ns)); [done|done|..];
      unfold day_ns, hour, minute, second in *; lia. }
  unfold recurringSpanAt in E. fold loc in E. rewrite Hp in E.
  destruct Hopen as [Hbeg Hend]. fold loc in Hbeg. unfold Before, IsZero in E.
  destruct (DurationMin w <=? 0) eqn:Ed; bsimp; [lia|].
  destruct (now <? _) eqn:Eb; bsimp; [lia|].
  assert (negb (EndsAt w =? 0) && negb (now <? EndsAt w) = false) as Hend'.
  { destruct Hend as [->|?%Z.ltb_lt]; [done|]. rewrite H. apply andb_false_r. }
  rewrite Hend' in E.
  assert (Hday : forall n, n = 0 \/ n = -1 -> civil_day loc (AddDays loc now n) = (now + off) / day_ns + n).
  { intros n Hn. rewrite (quiet_AddDays loc off (now - 4 * day_ns) (now + 4 * day_ns)) by
      (try done; unfold day_ns, hour, minute, second in *; lia).
    unfold civil_day, wall. rewrite Hq by (unfold day_ns, hour, minute, second in *; lia).
    replace (now + n * day_ns + off) with (now + off + n * day_ns) by lia.
    apply Z.div_add. unfold day_ns, hour, minute, second. lia. }
  rewrite !Hday in E by lia.
  assert (Hc : (now + off) / day_ns = day \/ (now + off) / day_ns = day + 1).
  { assert (day * day_ns <= now + off < (day + 2) * day_ns)
      by (unfold day_ns, hour, minute, second in *; lia).
    assert (day <= (now + off) / day_ns < day + 2); [|lia]. split.
    - apply Z.div_le_lower_bound; [unfold day_ns, hour, minute, second|]; lia.
    - apply Z.div_lt_upper_bound; [unfold day_ns, hour, minute, second|]; lia. }
  assert (Hon' : occurrence_on w loc (Date loc (civil_day loc (StartsAt w)) 0 0) now hh mm day = Some (s, e)).
  { apply occurrence_on_spec. rewrite dur_mul_small by (unfold minute, second, int64_max; lia). done. }
  destruct Hc as [Hc|Hc]; rewrite Hc in E.
  - rewrite Z.add_0_r, Hon' in E. done.
  - replace (day + 1 + -1) with day in E by lia. rewrite Hon' in E. by destruct (occurrence_on _ _ _ _ _ _ (day + 1 + 0)).
Qed.

(** Saturdays at 23:00 for two hours, in UTC+2, from day 738000 on. *)
Definition night_window : MaintenanceWindow :=
  mkWin 1 "night" "backup" 1 [] "" "" None [] true (738000 * day_ns) 0 [6] "23:00" 120 "X" false 0.
Definition plus2 : string -> option Location := fun _ => Some (fixed_zone (2 * hour)).

(** Day 738008 is a Saturday; 00:30 on the Sunday after it is 22:30 UTC. *)
Example recurring_active_exact_witness :
  Active plus2 night_window (738008 * day_ns + 22 * hour + 30 * minute) = true.
Proof.
  apply (recurring_active_exact plus2 night_window _ (2 * hour)).
  - reflexivity.
  - cbn; unfold MaxRecurringDurationMin; lia.
  - intros t. vm_compute. split; reflexivity.
  - apply fixed_zone_quiet.
  - split; [reflexivity|]. split; [split; [vm_compute; discriminate|by left]|].
    exists 738008, (738008 * day_ns + 21 * hour), (738008 * day_ns + 23 * hour). split.
    + exists 23, 0. split; [reflexivity|]. split; [by apply list_elem_of_singleton|]. split; [vm_compute; discriminate|].
      split; reflexivity.
    + vm_compute. split; [discriminate|reflexivity].
Defined.

(** A zone at UTC+1 that moves to UTC+2 at [t0]. *)
Definition spring_forward (t0 : Z) : Location :=
  mkLoc (fun t => if t <? t0 then (hour, int64_min * second, t0) else (2 * hour, t0, int64_max * second)).

(** Saturdays at 23:59, for the longest duration the API accepts. *)
Definition saturday_window : MaintenanceWindow :=
  mkWin 1 "long" "upgrade" 1 [] "" "" None [] true (738000 * day_ns) 0 [6] "23:59" 1440 "X" false 0.

(** across a clock change the two-day lookback is not sufficient, although the
    comment on recurringSpanAt says a cap of 24 hours makes it so.  Where Sunday
    has 23 hours, the occurrence that began on Saturday at 23:59 and lasts 24
    hours still covers Monday 00:30, but the window is reported inactive there. *)
Theorem lookback_misses_short_day :
  let tzdb := fun _ => Some (spring_forward (738009 * day_ns + hour)) in
  let now := 738009 * day_ns + 22 * hour + 30 * minute in
  let w := saturday_window in
  DurationMin w <= MaxRecurringDurationMin /\ Ended w = false /\ series_open tzdb w now /\
  (exists day s e, occurrence tzdb w day s e /\ s <= now < e) /\
  Active tzdb w now = false.
Proof.
  intros tzdb now w. split; [vm_compute; discriminate|]. split; [reflexivity|].
  split; [split; [vm_compute; discriminate|by left]|]. split; [|vm_compute; reflexivity].
  exists 738008, (738008 * day_ns + 22 * hour + 59 * minute), (738009 * day_ns + 22 * hour + 59 * minute).
  split; [|vm_compute; split; [discriminate|reflexivity]].
  exists 23, 59. split; [reflexivity|]. split; [by apply list_elem_of_singleton|]. split; [vm_compute; discriminate|].
  split; reflexivity.
Qed.

(** Every active window survives the WHERE clause. *)
Lemma Active_candidate tzdb w now : 0 <= now -> Active tzdb w now = true -> candidate now w = true.
Proof.
  intros Hnow. unfold Active, ActiveSpan, candidate. destruct (Ended w); [done|].
  destruct (Recurring w); simpl; [done|]. destruct (_ && _) eqn:E; [|done]. intros _.
  unfold Before, IsZero in *. bsimp. pose proof (rfc3339_le now).
  rewrite andb_true_iff, negb_true_iff, Z.eqb_neq, Z.ltb_lt. lia.
Qed.

(** What the lookup answers. *)
Lemma find_active_cases tzdb lower fault wfault db t h project container rule sev now :
  0 <= now -> wfault WCandidates = false ->
  exists r, FindActiveMaintenanceWindow tzdb lower fault wfault db t h project container rule sev now = Ok r /\
    let covers w := Active tzdb w now = true /\
      Matches lower w (NormalizeHostID fault h db) project container rule sev = true in
    match r with
    | Some w => w ∈ rows t /\ covers w
    | None => forall w, w ∈ rows t -> ~ covers w
    end.
Proof.
  intros Hnow Hw. unfold FindActiveMaintenanceWindow, activeCandidateMaintenanceWindows. rewrite Hw. simpl.
  eexists. split; [reflexivity|]. cbv zeta.
  destruct (list_find _ _) as [[i w]|] eqn:E; simpl.
  - apply list_find_Some in E as (Hi & Hp & _). apply list_elem_of_lookup_2 in Hi.
    apply list_elem_of_filter in Hi as [_ ?]. by apply andb_true_iff in Hp.
  - intros w Hin [Ha Hm]. apply list_find_None in E. rewrite Forall_forall in E.
    apply (E w).
    + apply list_elem_of_filter. split; [by eapply Active_candidate|done].
    + by rewrite Ha, Hm.
Qed.



(** *** The transition log *)

Lemma byID_None ws id : byID ws !! id = None <-> id ∉ wID <$> ws.
Proof.
  unfold byID. rewrite build_map_None, list_elem_of_fmap. split.
  - intros Hn (w & -> & Hw). by specialize (Hn w Hw eq_refl).
  - intros Hn w Hw Hid. exfalso. apply Hn. eauto.
Qed.

Lemma same_true a b : same a b = true <-> awStart a = awStart b /\ awEnd a = awEnd b.
Proof. unfold same. by rewrite andb_true_iff, !Z.eqb_eq. Qed.

(** The occurrence [a] of window [id] is in the set, under whatever name. *)
Definition has_occurrence (m : gmap Z activeWindow) (id : Z) (a : activeWindow) : Prop :=
  exists p, m !! id = Some p /\ awStart p = awStart a /\ awEnd p = awEnd a.

(** the maintenance log misses no transition and invents none.  The set it
    keeps holds exactly the windows active now, with the bounds of the occurrence
    covering this instant; a line says "started" exactly for an occurrence that
    was not in the previous set, even when the same window was active before under
    another occurrence, and a line says it stopped exactly for one that is no
    longer active, as "removed" only when the window is gone. *)
Theorem maintenance_log_exact tzdb prev windows now :
  NoDup (wID <$> windows) ->
  let '(cur, lines) := logMaintenanceTransitions tzdb prev windows now false in
  (forall id a, cur !! id = Some a <->
     exists w, w ∈ windows /\ wID w = id /\ wName w = awName a /\
       ActiveSpan tzdb w now = Some (awStart a, awEnd a)) /\
  (forall id a, LogStarted id a ∈ lines <-> cur !! id = Some a /\ ~ has_occurrence prev id a) /\
  (forall id a reason, LogStopped reason id a ∈ lines ->
     prev !! id = Some a /\ ~ has_occurrence cur id a /\
     (reason = "removed" <-> id ∉ wID <$> windows)) /\
  (forall id a, prev !! id = Some a -> ~ has_occurrence cur id a ->
     exists reason, LogStopped reason id a ∈ lines).
Proof.
  intros Hnd. unfold logMaintenanceTransitions. set (cur := active_set tzdb windows now).
  assert (Hocc : forall m id a, (match m !! id with Some p => same p a | None => false end) = true
            <-> has_occurrence m id a).
  { intros m id a. unfold has_occurrence. destruct (m !! id) as [p|].
    - rewrite same_true. naive_solver.
    - naive_solver. }
  split; [|split; [|split]].
  - intros id [n s e]. unfold cur, active_set. rewrite build_map_lookup by done. rewrite lookup_empty. split.
    + intros [(w & ? & ? & Hw)|[? _]]; [|done].
      exists w. destruct (ActiveSpan tzdb w now) as [[]|]; [|done]. by injection Hw as <- <- <-.
    + intros (w & ? & ? & Hn & Hw). left. exists w. simpl in *. rewrite Hw, Hn. done.
  - intros id a. rewrite elem_of_app, !list_elem_of_omap. rewrite <- Hocc. split.
    + intros [([id' a'] & Hin%elem_of_map_to_list & Hf)|([id' a'] & _ & Hf)].
      * destruct (prev !! id') as [p|] eqn:Ep; [destruct (same p a') eqn:Es; [done|]|];
          injection Hf as -> ->; rewrite Ep; (split; [done|]); congruence.
      * destruct (byID windows !! id') as [w|]; [destruct (Ended w)|];
          destruct (cur !! id') as [c|]; try destruct (same c a'); done.
    + intros [Hc Hn]. left. exists (id, a). rewrite elem_of_map_to_list. split; [done|].
      destruct (prev !! id) as [p|]; [|done]. by destruct (same p a).
  - intros id a reason. rewrite elem_of_app, !list_elem_of_omap, <- Hocc, <- byID_None.
    intros [([id' a'] & _ & Hf)|([id' a'] & Hin%elem_of_map_to_list & Hf)].
    + destruct (prev !! id') as [p|]; [destruct (same p a')|]; done.
    + assert (Hf' : (match cur !! id' with Some c => same c a' | None => false end) = false /\
        Some (match byID windows !! id' with
              | None => LogStopped "removed" id' a'
              | Some w => LogStopped (if Ended w then "ended early" else "ended") id' a' end)
        = Some (LogStopped reason id a)) by (destruct (cur !! id') as [c|]; [destruct (same c a')|]; done).
      destruct Hf' as [Hc Hl].
      destruct (byID windows !! id') as [w|] eqn:Eb; [destruct (Ended w)|]; injection Hl as <- -> ->;
        rewrite Eb, Hc; done.
  - intros id a Hp Hn. rewrite <- Hocc in Hn. setoid_rewrite elem_of_app. setoid_rewrite list_elem_of_omap.
    exists (match byID windows !! id with
            | None => "removed" | Some w => if Ended w then "ended early" else "ended" end).
    right. exists (id, a). rewrite elem_of_map_to_list. split; [done|].
    assert (forall x, match cur !! id with Some c => if same c a then None else Some x | None => Some x end
              = Some (x : LogLine)) as ->.
    { intros x. destruct (cur !! id) as [c|]; [|done]. by destruct (same c a). }
    by destruct (byID windows !! id).
Qed.

Example maintenance_log_exact_witness :
  LogStarted 1 (mkAW "night" (738008 * day_ns + 21 * hour) (738008 * day_ns + 23 * hour)) ∈
    (logMaintenanceTransitions plus2 ∅ [night_window] (738008 * day_ns + 22 * hour) false).2.
Proof.
  pose proof (maintenance_log_exact plus2 ∅ [night_window] (738008 * day_ns + 22 * hour)) as H.
  assert (NoDup (wID <$> [night_window])) as Hnd by apply NoDup_singleton.
  specialize (H Hnd). destruct (logMaintenanceTransitions _ _ _ _ _) as [cur lines].
  destruct H as (Hc & Hs & _). apply Hs. split.
  - apply Hc. exists night_window. split; [left|]. repeat split; reflexivity.
  - intros (p & Hp & _). by rewrite lookup_empty in Hp.
Defined.
