(* ===== verification/MaintenanceHandlers.v ===== *)
(** * The maintenance window handlers (internal/api/maintenance_handlers.go)

    Validation, the caller's reach over a window's hosts, and the handlers that
    create, edit, end and delete windows, with their audit lines. *)
From S2P Require Import Prelude GoStrings Users Roles Access Calendar Maintenance.

(** ** Data *)

(** The decoded body: the fields of a window the caller decides. *)
Record maintenanceWindowBody := mkWBody {
  bwName : string; bwReason : string; bwHostIDs : list Z; bwProject : string; bwContainer : string;
  bwRuleID : option Z; bwSeverities : list string; bwRecurring : bool; bwStartsAt : Z; bwEndsAt : Z;
  bwWeekdays : list Z; bwTimeOfDay : string; bwDurationMin : Z; bwTimezone : string
}.

Definition toWindow (b : maintenanceWindowBody) : MaintenanceWindow :=
  mkWin 0 (bwName b) (bwReason b) 0 (bwHostIDs b) (bwProject b) (bwContainer b) (bwRuleID b) (bwSeverities b)
    (bwRecurring b) (bwStartsAt b) (bwEndsAt b) (bwWeekdays b) (bwTimeOfDay b) (bwDurationMin b)
    (bwTimezone b) false 0.

Inductive WResp := WErr (status : Z) | WOK | WOKid (id : Z).

(** An audit entry: host, action, target, detail. *)
Record AuditLine := mkAudit { auHost : Z; auAction : string; auTarget : string; auDetail : string }.
Record WState := mkWState { swin : Windows; saud : list AuditLine }.

Definition AuditHostSeveral : Z := -1.

(** ** Validation *)
Section Validate.
Context (LoadLocation : string -> option Location).

Definition validSeverities (s : string) : bool := one_of s ["info"; "warning"; "critical"].

(** [true] when there is no error. *)
Definition validateMaintenanceWindow (b : maintenanceWindowBody) : bool :=
  if String.eqb (bwName b) "" then false
  else if String.eqb (bwReason b) "" then false
  else if negb (forallb validSeverities (bwSeverities b)) then false
  else if bwRecurring b then
    match bwWeekdays b with [] => false | _ =>
      if negb (forallb (fun d => (0 <=? d) && (d <=? 6)) (bwWeekdays b)) then false
      else match parseTimeOfDay (bwTimeOfDay b) with
      | None => false
      | Some _ =>
          if bwDurationMin b <=? 0 then false
          else if MaxRecurringDurationMin <? bwDurationMin b then false
          else if IsZero (bwStartsAt b) then false
          else if negb (IsZero (bwEndsAt b)) && negb (After (bwEndsAt b) (bwStartsAt b)) then false
          else if negb (String.eqb (bwTimezone b) "") then
            match LoadLocation (bwTimezone b) with Some _ => true | None => false end
          else true
      end
    end
  else if IsZero (bwStartsAt b) || IsZero (bwEndsAt b) then false
  else After (bwEndsAt b) (bwStartsAt b).
End Validate.

(** ** Reach *)
Section Handlers.
Context `{GS : GrantStore} (LoadLocation : string -> option Location).
(** store.LocalHostID *)
Context (LocalHostID : result StoreErr Z) (wfault : WQuery -> bool).

(** [None] when it could not be resolved; [Some None] for an admin. *)
Definition resolveMaintenanceWindowGrant (claims : option Z) : option (option Grant) :=
  match claims with
  | None => None
  | Some uid =>
      match gsUserByID uid with
      | Err _ => None
      | Ok u =>
          if IsAdmin u then Some None
          else match gsEffectiveGrants u with
               | Err _ => None
               | Ok grants => Some (Some (default zero_grant (grants !! "alerts")))
               end
      end
  end.

Definition hostsAllowedByGrant (g : option (option Grant)) (hostIDs : list Z) : bool :=
  match g with
  | None => false
  | Some None => true
  | Some (Some grant) =>
      match hostIDs with
      | [] => AllHosts grant
      | _ => forallb (fun id => HasHost grant (gsNormalizeHostID id)) hostIDs
      end
  end.

Definition maintenanceWindowHostsAllowed (claims : option Z) (hostIDs : list Z) : bool :=
  hostsAllowedByGrant (resolveMaintenanceWindowGrant claims) hostIDs.

Definition normalizeHostIDs (ids : list Z) : list Z := gsNormalizeHostID <$> ids.

Definition maintenanceWindowInReach (claims : option Z) (t : Windows) (id : Z) : result StoreErr MaintenanceWindow :=
  win ← MaintenanceWindowByID wfault t id;
  if maintenanceWindowHostsAllowed claims (HostIDs win) then Ok win else Err ErrNotFound.

(** store.AuditHostOf *)
Definition AuditHostOf (hostIDs : list Z) : Z :=
  match hostIDs with
  | [h] => if negb (gsNormalizeHostID h =? 0) then h
           else match LocalHostID with Ok local => local | Err _ => AuditHostSeveral end
  | _ => AuditHostSeveral
  end.

Fixpoint dedup (seen : list Z) (l : list Z) : list Z :=
  match l with
  | [] => []
  | id :: rest => if containsInt64 seen id then dedup seen rest else id :: dedup (id :: seen) rest
  end.

Definition unionHostIDs (a b : list Z) : list Z :=
  match a, b with
  | [], _ => []
  | _, [] => []
  | _, _ => dedup [] (a ++ b)
  end.

Definition auditOn (host : Z) (action target detail : string) (s : WState) : WState :=
  mkWState (swin s) (saud s ++ [mkAudit host action target detail]).

(** ** Handlers *)

(** The windows a caller sees. *)
Definition handleListMaintenanceWindows (claims : option Z) (s : WState) : list MaintenanceWindow :=
  let g := resolveMaintenanceWindowGrant claims in
  filter (fun w => hostsAllowedByGrant g (HostIDs w) = true) (rows (swin s)).

Definition with_hosts (b : maintenanceWindowBody) (hs : list Z) : maintenanceWindowBody :=
  mkWBody (bwName b) (bwReason b) hs (bwProject b) (bwContainer b) (bwRuleID b) (bwSeverities b) (bwRecurring b)
    (bwStartsAt b) (bwEndsAt b) (bwWeekdays b) (bwTimeOfDay b) (bwDurationMin b) (bwTimezone b).

Definition with_author (w : MaintenanceWindow) (uid : Z) : MaintenanceWindow :=
  mkWin (wID w) (wName w) (wReason w) uid (HostIDs w) (Project w) (Container w) (RuleID w) (Severities w)
    (Recurring w) (StartsAt w) (EndsAt w) (Weekdays w) (TimeOfDay w) (DurationMin w) (Timezone w) (Ended w) (wCreatedAt w).

Definition handleCreateMaintenanceWindow (claims : option Z) (body : option maintenanceWindowBody) (now : Z)
    (s : WState) : WState * WResp :=
  match body with
  | None => (s, WErr 400)
  | Some b =>
      let b := with_hosts b (normalizeHostIDs (bwHostIDs b)) in
      if negb (validateMaintenanceWindow LoadLocation b) then (s, WErr 400)
      else if negb (maintenanceWindowHostsAllowed claims (bwHostIDs b)) then (s, WErr 403)
      else
        let win := toWindow b in
        let win := match claims with Some uid => with_author win uid | None => win end in
        match CreateMaintenanceWindow wfault win now (swin s) with
        | (t, Err _) => (mkWState t (saud s), WErr 500)
        | (t, Ok id) =>
            (auditOn (AuditHostOf (HostIDs win)) "maintenance_window.create" (bwName b) (bwReason b)
               (mkWState t (saud s)), WOKid id)
        end
  end.

(** [id] is what strconv.ParseInt leaves for the path parameter, its error ignored. *)
Definition handleUpdateMaintenanceWindow (claims : option Z) (id : Z) (body : option maintenanceWindowBody)
    (now : Z) (s : WState) : WState * WResp :=
  match body with
  | None => (s, WErr 400)
  | Some b =>
      let b := with_hosts b (normalizeHostIDs (bwHostIDs b)) in
      if negb (validateMaintenanceWindow LoadLocation b) then (s, WErr 400)
      else match maintenanceWindowInReach claims (swin s) id with
      | Err _ => (s, WErr 404)
      | Ok existing =>
          if Closed existing now then (s, WErr 409)
          else if negb (maintenanceWindowHostsAllowed claims (bwHostIDs b)) then (s, WErr 403)
          else
            let updated := toWindow b in
            match UpdateMaintenanceWindow wfault id updated (swin s) with
            | (t, Err ErrNotFound) => (mkWState t (saud s), WErr 404)
            | (t, Err _) => (mkWState t (saud s), WErr 500)
            | (t, Ok _) =>
                (auditOn (AuditHostOf (unionHostIDs (HostIDs existing) (HostIDs updated)))
                   "maintenance_window.update" (bwName b) (bwReason b) (mkWState t (saud s)), WOK)
            end
      end
  end.

Definition handleEndMaintenanceWindow (claims : option Z) (id : Z) (param : string) (s : WState) : WState * WResp :=
  match maintenanceWindowInReach claims (swin s) id with
  | Err _ => (s, WErr 404)
  | Ok win =>
      match EndMaintenanceWindow wfault id (swin s) with
      | (t, Err _) => (mkWState t (saud s), WErr 500)
      | (t, Ok _) =>
          (auditOn (AuditHostOf (HostIDs win)) "maintenance_window.end" param "" (mkWState t (saud s)), WOK)
      end
  end.

Definition handleDeleteMaintenanceWindow (claims : option Z) (id : Z) (param : string) (now : Z) (s : WState)
    : WState * WResp :=
  match maintenanceWindowInReach claims (swin s) id with
  | Err _ => (s, WErr 404)
  | Ok win =>
      if negb (Before now (StartsAt win)) && negb (Closed win now) then (s, WErr 409)
      else match DeleteMaintenanceWindow wfault id (swin s) with
      | (t, Err _) => (mkWState t (saud s), WErr 500)
      | (t, Ok _) =>
          (auditOn (AuditHostOf (HostIDs win)) "maintenance_window.delete" param "" (mkWState t (saud s)), WOK)
      end
  end.
End Handlers.

(** ** Lemmas *)

Lemma containsInt64_elem l v : containsInt64 l v = true <-> v ∈ l.
Proof.
  unfold containsInt64. rewrite existsb_exists, list_elem_of_In. split.
  - intros (x & ? & ->%Z.eqb_eq). done.
  - intros. exists v. by rewrite Z.eqb_refl.
Qed.

Lemma normalize_idem {S : GrantStore} {GSL : GrantStoreLaws S} h : gsNormalizeHostID (gsNormalizeHostID h) = gsNormalizeHostID h.
Proof.
  destruct (gs_normalize_id h) as [E|E]; rewrite E; [apply gs_normalize_0|done].
Qed.

(** What passing the host check means for the events the window can match. *)
Lemma allowed_hosts_cover {S : GrantStore} {GSL : GrantStoreLaws S} lower claims w h project container rule sev :
  maintenanceWindowHostsAllowed claims (HostIDs w) = true ->
  (forall id, id ∈ HostIDs w -> gsNormalizeHostID id = id) ->
  Matches lower w (gsNormalizeHostID h) project container rule sev = true ->
  resolveMaintenanceWindowGrant claims = Some None \/
  exists g, resolveMaintenanceWindowGrant claims = Some (Some g) /\ HasHost g (gsNormalizeHostID h) = true.
Proof.
  unfold maintenanceWindowHostsAllowed, hostsAllowedByGrant. intros Ha Hn Hm.
  destruct (resolveMaintenanceWindowGrant claims) as [[g|]|]; [|by left|done].
  right. exists g. split; [done|]. unfold Matches in Hm.
  destruct (HostIDs w) as [|h0 hs] eqn:Eh.
  - unfold HasHost. rewrite Ha. by rewrite orb_true_r.
  - destruct (negb (containsInt64 _ _)) eqn:Ec; [done|]. bsimp. apply containsInt64_elem in Ec.
    rewrite forallb_forall in Ha. rewrite <- (Hn _ Ec). apply Ha. by apply list_elem_of_In.
Qed.

Lemma MaintenanceWindowByID_ok wfault t id w :
  MaintenanceWindowByID wfault t id = Ok w -> w ∈ rows t /\ wID w = id.
Proof.
  unfold MaintenanceWindowByID. destruct (wfault _); [done|].
  destruct (list_find _ _) as [[i w']|] eqn:E; [|done]. intros [= ->].
  apply list_find_Some in E as (Hi & Hid & _). split; [by eapply list_elem_of_lookup_2|done].
Qed.

(** With unique ids, the row looked up is the one of that id. *)
Lemma same_row t w w' : NoDup (wID <$> rows t) -> w ∈ rows t -> w' ∈ rows t -> wID w = wID w' -> w = w'.
Proof.
  intros Hnd [i Hi]%list_elem_of_lookup [j Hj]%list_elem_of_lookup Hid.
  assert (i = j) as ->; [|congruence].
  eapply NoDup_lookup; [exact Hnd|..]; rewrite list_lookup_fmap; [by rewrite Hi|].
  rewrite Hj. simpl. by rewrite Hid.
Qed.

(** ** Properties *)

(** holding the alerts section is not a way to go deaf about a host out of
    reach.  A window that the create handler stores can only silence events of
    hosts the caller's own alerts grant covers (hosts named by alias or by real
    id alike), unless the caller is an admin; an unscoped window needs a grant
    over every host. *)
Theorem created_window_within_reach {S : GrantStore} {GSL : GrantStoreLaws S} tzdb lower local wfault claims b now s s' id :
  handleCreateMaintenanceWindow tzdb local wfault claims (Some b) now s = (s', WOKid id) ->
  exists w, rows (swin s') = rows (swin s) ++ [w] /\ wID w = id /\
    forall h project container rule sev,
      Matches lower w (gsNormalizeHostID h) project container rule sev = true ->
      resolveMaintenanceWindowGrant claims = Some None \/
      exists g, resolveMaintenanceWindowGrant claims = Some (Some g) /\ HasHost g (gsNormalizeHostID h) = true.
Proof.
  unfold handleCreateMaintenanceWindow. cbv zeta.
  destruct (validateMaintenanceWindow _ _); [|done]. simpl.
  destruct (maintenanceWindowHostsAllowed _ _) eqn:Ea; [|done]. simpl.
  unfold CreateMaintenanceWindow. destruct (wfault WInsert); [done|]. intros [= <- <-].
  eexists. split; [reflexivity|]. split; [reflexivity|].
  intros h p c r sev Hm. eapply allowed_hosts_cover; [| |exact Hm].
  - by destruct claims.
  - assert (forall w, HostIDs w = normalizeHostIDs (bwHostIDs b) ->
      forall id, id ∈ HostIDs w -> gsNormalizeHostID id = id) as H; [|apply H; by destruct claims].
    intros w -> x (y & -> & _)%list_elem_of_fmap. apply normalize_idem.
Qed.

(** Accounts for the examples: 5 may use alerts on host 7 only. *)
Definition alert_db : DB :=
  mkDB {[3 := mkRow "Alerts" "" false]} 3 {[(3, "alerts") := true]} {[(3, 7)]} {[(5, 3)]}
    {[1 := "local"; 7 := "ssh"; 8 := "ssh"]} [] 0.
Definition alert_store : GrantStore :=
  db_store no_fault {[5 := zero_user 5 "dora" "user"]} alert_db false.

Definition one_off (hs : list Z) : maintenanceWindowBody :=
  mkWBody "deploy" "release" hs "" "" None [] false (738000 * day_ns) (738000 * day_ns + hour) [] "" 0 "".

Example created_window_within_reach_witness :
  let GS := alert_store in let s := mkWState (mkWindows [] 0) [] in
  (handleCreateMaintenanceWindow (fun _ => None) (Ok 1) (fun _ => false) (Some 5) (Some (one_off [8])) 0 s).2 = WErr 403 /\
  exists s', handleCreateMaintenanceWindow (fun _ => None) (Ok 1) (fun _ => false) (Some 5) (Some (one_off [7])) 0 s
    = (s', WOKid 1) /\ exists w, rows (swin s') = [w] /\ Matches (fun s => s) w 8 "" "web" 1 "info" = false.
Proof.
  intros GS s. split; [vm_compute; reflexivity|].
  set (r := handleCreateMaintenanceWindow (fun _ => None) (Ok 1) (fun _ => false) (Some 5) (Some (one_off [7])) 0 s).
  assert (r = (r.1, WOKid 1)) as E.
  { rewrite (surjective_pairing r) at 1. apply (f_equal2 pair); [reflexivity|vm_compute; reflexivity]. }
  exists r.1. split; [exact E|].
  destruct (created_window_within_reach (S := alert_store) (GSL := db_store_laws _ _ _ _) (fun _ => None) (fun s => s)
    (Ok 1) (fun _ => false) (Some 5) (one_off [7]) 0 s r.1 1 E) as (w & Hw & _ & _).
  exists w. split; [exact Hw|].
  assert (HostIDs <$> rows (swin r.1) = [[7]]) as Hh by (vm_compute; reflexivity).
  rewrite Hw in Hh. injection Hh as Hh. unfold Matches. by rewrite Hh.
Defined.

(** a closed window is history.  Whatever the caller sends, the update handler
    leaves every window that is closed at that moment (ended early, past its end,
    or a series that stopped recurring) exactly as it was. *)
Theorem closed_window_immutable {GS : GrantStore} tzdb local wfault claims id body now s w :
  NoDup (wID <$> rows (swin s)) -> w ∈ rows (swin s) -> Closed w now = true ->
  w ∈ rows (swin (handleUpdateMaintenanceWindow tzdb local wfault claims id body now s).1).
Proof.
  intros Hnd Hin Hc. unfold handleUpdateMaintenanceWindow, maintenanceWindowInReach. cbv zeta.
  destruct body as [b|]; [|done]. destruct (negb (validateMaintenanceWindow _ _)); [done|].
  destruct (MaintenanceWindowByID _ _ _) as [e|] eqn:E; simpl; [|done].
  destruct (maintenanceWindowHostsAllowed claims (HostIDs e)); simpl; [|done].
  apply MaintenanceWindowByID_ok in E as [He Hid].
  destruct (Closed e now) eqn:Ec; [done|].
  destruct (negb (maintenanceWindowHostsAllowed _ _)); simpl; [done|].
  unfold UpdateMaintenanceWindow, on_row. destruct (wfault _); [done|].
  destruct (bool_decide _); [|done]. simpl. apply list_elem_of_fmap. exists w. split; [|done].
  destruct (wID w =? id) eqn:Ew; [|done]. bsimp. exfalso.
  assert (w = e) as -> by (eapply same_row; eauto; congruence). congruence.
Qed.

Example closed_window_immutable_witness :
  let GS := alert_store in
  let w := mkWin 1 "a" "b" 5 [7] "" "" None [] false 10 20 [] "" 0 "" false 0 in
  w ∈ rows (swin (handleUpdateMaintenanceWindow (fun _ => None) (Ok 1) (fun _ => false) (Some 5) 1
    (Some (one_off [7])) 20 (mkWState (mkWindows [w] 1) [])).1).
Proof.
  intros GS w. apply (closed_window_immutable (GS := alert_store)).
  - apply NoDup_singleton.
  - by left.
  - reflexivity.
Defined.

(** a one-off window that is running cannot be made to vanish.  Deleting, by any
    caller and for any id, keeps every one-off window that is silencing alerts at
    that moment; it has to be ended first, which leaves its row. *)
Theorem running_window_not_deleted {GS : GrantStore} tzdb local wfault claims id param now s w :
  NoDup (wID <$> rows (swin s)) -> w ∈ rows (swin s) -> Recurring w = false -> 0 <= now ->
  Active tzdb w now = true ->
  w ∈ rows (swin (handleDeleteMaintenanceWindow local wfault claims id param now s).1).
Proof.
  intros Hnd Hin Hrec Hnow Ha. unfold handleDeleteMaintenanceWindow, maintenanceWindowInReach.
  destruct (MaintenanceWindowByID _ _ _) as [e|] eqn:E; simpl; [|done].
  destruct (maintenanceWindowHostsAllowed claims (HostIDs e)); simpl; [|done].
  apply MaintenanceWindowByID_ok in E as [He Hid].
  destruct (_ && _) eqn:Ec; [done|].
  unfold DeleteMaintenanceWindow, on_row. destruct (wfault _); [done|].
  destruct (bool_decide _); [|done]. simpl. apply list_elem_of_filter. split; [|done].
  intros Hw. assert (w = e) as -> by (eapply same_row; eauto; congruence).
  unfold Active, ActiveSpan in Ha. unfold Closed, IsZero, Before in *.
  destruct (Ended e); [done|]. rewrite Hrec in Ha. simpl in Ha.
  destruct (now <? StartsAt e) eqn:E1, (now <? EndsAt e) eqn:E2; simpl in *; bsimp; done.
Qed.

Example running_window_not_deleted_witness :
  let GS := alert_store in
  let w := mkWin 1 "a" "b" 5 [7] "" "" None [] false 10 20 [] "" 0 "" false 0 in
  w ∈ rows (swin (handleDeleteMaintenanceWindow (Ok 1) (fun _ => false) (Some 5) 1 "1" 15
    (mkWState (mkWindows [w] 1) [])).1).
Proof.
  intros GS w. apply (running_window_not_deleted (GS := alert_store) (fun _ => None)).
  - apply NoDup_singleton.
  - by left.
  - reflexivity.
  - lia.
  - reflexivity.
Defined.

(** A series from day 738008 (a Saturday) on, created at 18:00; it runs at 10:00. *)
Definition morning_window : MaintenanceWindow :=
  mkWin 1 "morning" "backup" 5 [7] "" "" None [] true (738008 * day_ns + 18 * hour) 0 [6] "10:00" 120 "" false 0.

(** the guard does not hold for recurring windows.  Their StartsAt counts by its
    date only, but the delete handler compares its time of day too, so on the
    first day of a series a window that is silencing alerts right now is deleted
    without having been ended. *)
Theorem running_recurring_window_deleted :
  let GS := alert_store in
  let now := 738008 * day_ns + 11 * hour in
  let s := mkWState (mkWindows [morning_window] 1) [] in
  Active (fun _ => None) morning_window now = true /\
  exists s', handleDeleteMaintenanceWindow (Ok 1) (fun _ => false) (Some 5) 1 "1" now s = (s', WOK) /\
    rows (swin s') = [].
Proof.
  intros GS now s. split; [vm_compute; reflexivity|].
  exists (handleDeleteMaintenanceWindow (Ok 1) (fun _ => false) (Some 5) 1 "1" now s).1.
  split; [|vm_compute; reflexivity].
  rewrite (surjective_pairing (handleDeleteMaintenanceWindow _ _ _ _ _ _ _)).
  apply (f_equal2 pair); [reflexivity|vm_compute; reflexivity].
Qed.
