(* ===== verification/Alerts.v ===== *)
(** * Alert rules, events and condition states (internal/store/alerts.go)

    The tables the alert engine reads and writes, the filter behind the event
    feed and behind "acknowledge everything I can see", and its LIKE patterns. *)
From S2P Require Import Prelude GoStrings Floats Users Roles Calendar.

(** ** Data *)
Record AlertRule := mkRule {
  aID : Z; aName : string; aEnabled : bool; aType : string; aTarget : string; aConfig : string;
  aSeverity : string; aWebhookID : option Z; aEmail : bool; aEmails : list string; aCooldownSec : Z
}.

Definition KindFiring : string := "firing".
Definition KindEscalated : string := "escalated".
Definition KindEased : string := "eased".
Definition KindRepeat : string := "repeat".
Definition KindResolved : string := "resolved".

Record AlertEvent := mkEvent {
  eID : Z; eRuleID : Z; eRuleName : string; eType : string; eSeverity : string; eHostID : Z; eHostName : string;
  eContainerID : string; eContainerName : string; eProject : string; eMessage : string; eValue : option float64;
  eAcknowledged : bool; eCreatedAt : Z; eKind : string; eDurationSec : Z; eAcknowledgedBy : string;
  eAcknowledgedAt : option Z; eSuppressed : bool; eSuppressedBy : Z
}.

Record AlertState := mkAState {
  tHostID : Z; tHostName : string; tContainerID : string; tContainerName : string; tMetric : string;
  tRuleID : Z; tRuleName : string; tSeverity : string; tLastValue : option float64; tStartedAt : Z; tNotifiedAt : Z
}.

Record AlertDelivery := mkDelivery {
  dEventID : Z; dChannel : string; dTarget : string; dOK : bool; dStatus : Z; dDetail : string; dAttempted : Z
}.

(** [qHostIDs]: [None] is no restriction, [Some []] lets nothing through. *)
Record AlertQuery := mkQuery {
  qSeverity : string; qSeverities : list string; qKind : string; qHideRepeats : bool; qHostID : option Z;
  qContainer : string; qRule : string; qText : string; qUnacked : bool; qHostIDs : option (list Z);
  qLimit : Z; qOffset : Z; qSort : string; qDesc : bool
}.

(** ** LIKE *)

(** The ASCII case folding of SQLite's LIKE. *)
Definition fold_ascii (c : Ascii.ascii) : Ascii.ascii :=
  let n := code c in if (65 <=? n) && (n <=? 90) then Ascii.ascii_of_nat (Z.to_nat (n + 32)) else c.

Definition same_char (a b : Ascii.ascii) : bool := Ascii.eqb (fold_ascii a) (fold_ascii b).

Definition backslash : Ascii.ascii := "\"%char.

(** [pat LIKE … ESCAPE '\'] on bytes.  The patterns built here hold no unescaped
    underscore, the only place where bytes and characters would differ. *)
Fixpoint like (pat s : list Ascii.ascii) {struct pat} : bool :=
  match pat with
  | [] => match s with [] => true | _ => false end
  | c :: p =>
      if Ascii.eqb c backslash then
        match p, s with
        | c' :: p', x :: s' => same_char c' x && like p' s'
        | _, _ => false
        end
      else if Ascii.eqb c "%" then
        (fix any (s : list Ascii.ascii) : bool :=
           like p s || match s with [] => false | _ :: s' => any s' end) s
      else match s with
           | [] => false
           | x :: s' => (Ascii.eqb c "_" || same_char c x) && like p s'
           end
  end.

(** strings.NewReplacer(`\`, `\\`, `%`, `\%`, `_`, `\_`) *)
Fixpoint escape_bytes (l : list Ascii.ascii) : list Ascii.ascii :=
  match l with
  | [] => []
  | c :: l' =>
      if Ascii.eqb c backslash || Ascii.eqb c "%" || Ascii.eqb c "_"
      then backslash :: c :: escape_bytes l' else c :: escape_bytes l'
  end.
Definition escapeLike (s : string) : string := of_bytes (escape_bytes (bytes s)).

(** [col LIKE '%' || escapeLike(needle) || '%' ESCAPE '\'] *)
Definition like_contains (col needle : string) : bool :=
  like (["%"%char] ++ escape_bytes (bytes needle) ++ ["%"%char]) (bytes col).

(** ** The filter *)

(** The conjunction (q AlertQuery) where builds, as a predicate on a row. *)
Definition where_ (q : AlertQuery) (e : AlertEvent) : bool :=
  (if String.eqb (qSeverity q) "" then true else String.eqb (eSeverity e) (qSeverity q)) &&
  (match qSeverities q with [] => true | l => one_of (eSeverity e) l end) &&
  (if String.eqb (qKind q) "" then true else String.eqb (eKind e) (qKind q)) &&
  (if qHideRepeats q then negb (String.eqb (eKind e) KindRepeat) else true) &&
  (match qHostID q with Some h => eHostID e =? h | None => true end) &&
  (if String.eqb (qContainer q) "" then true else like_contains (eContainerName e) (qContainer q)) &&
  (if String.eqb (qRule q) "" then true else like_contains (eRuleName e) (qRule q)) &&
  (if String.eqb (qText q) "" then true else like_contains (eMessage e) (qText q)) &&
  (if qUnacked q then negb (eAcknowledged e) else true) &&
  (match qHostIDs q with
   | None => true
   | Some [] => false
   | Some l => existsb (Z.eqb (eHostID e)) l
   end).

Definition severity_order (s : string) : Z :=
  if String.eqb s "critical" then 3 else if String.eqb s "warning" then 2 else if String.eqb s "info" then 1 else 0.

(** COLLATE NOCASE *)
Definition nocase (s : string) : string := of_bytes (fold_ascii <$> bytes s).

(** The ORDER BY clause as a comparison: [a] may come before [b]. *)
Definition orderBy (q : AlertQuery) (a b : AlertEvent) : Prop :=
  let newest := eID b <= eID a in
  let by_key {K} `{EqDecision K} (R : K -> K -> Prop) (key : AlertEvent -> K) :=
    (key a = key b /\ newest) \/ (key a <> key b /\ if qDesc q then R (key b) (key a) else R (key a) (key b)) in
  if String.eqb (qSort q) "time" then (if qDesc q then eID b <= eID a else eID a <= eID b)
  else if String.eqb (qSort q) "severity" then by_key Z.le (fun e => severity_order (eSeverity e))
  else if String.eqb (qSort q) "rule" then by_key String.le (fun e => nocase (eRuleName e))
  else if String.eqb (qSort q) "host" then by_key String.le (fun e => nocase (eHostName e))
  else if String.eqb (qSort q) "container" then by_key String.le (fun e => nocase (eContainerName e))
  else newest.
#[export] Instance orderBy_dec q : RelDecision (orderBy q).
Proof. intros a b. unfold orderBy. cbv zeta. repeat case_match; apply _. Defined.

(** ** Tables *)
Record AlertDB := mkADB {
  arules : list AlertRule;
  arule_seq : Z;
  aevents : list AlertEvent;
  aevent_seq : Z;
  astates : gmap (Z * string * string) AlertState;
  adeliveries : list AlertDelivery
}.
Definition set_arules l a := mkADB l (arule_seq a) (aevents a) (aevent_seq a) (astates a) (adeliveries a).
Definition set_aevents l a := mkADB (arules a) (arule_seq a) l (aevent_seq a) (astates a) (adeliveries a).
Definition set_astates s a := mkADB (arules a) (arule_seq a) (aevents a) (aevent_seq a) s (adeliveries a).

Inductive AQuery :=
  | QListRules | QInsertRule | QEnableRule (id : Z) | QUpdateRuleRow (id : Z) | QDeleteRule (id : Z)
  | QInsertEvent | QCountEvents | QSelectEvents | QAckMatching | QAckOne (id : Z) | QEventByID (id : Z)
  | QListStates | QUpsertState (key : Z * string * string) | QDeleteState (key : Z * string * string)
  | QInsertDelivery (event : Z) | QListDeliveries (event : Z).

Definition defaultInt (v d : Z) : Z := if v =? 0 then d else v.

Section Ops.
Context (fault : AQuery -> bool).

Definition aexec (q : AQuery) (f : AlertDB -> AlertDB) : stM AlertDB StoreErr () := fun a =>
  if fault q then (a, Err ErrDB) else (f a, Ok ()).

(** *** Rules *)

(** strings.ToLower on the addresses *)
Context (ToLower : string -> string).

Fixpoint clean_emails (seen : list string) (l : list string) : list string :=
  match l with
  | [] => []
  | e :: rest =>
      let e := TrimSpace e in
      if String.eqb e "" || one_of (ToLower e) seen then clean_emails seen rest
      else e :: clean_emails (ToLower e :: seen) rest
  end.

(** What a list of recipients is stored and read back as. *)
Definition marshalEmails (l : list string) : list string := clean_emails [] l.

Definition ListAlertRules (a : AlertDB) : result StoreErr (list AlertRule) :=
  if fault QListRules then Err ErrDB else Ok (arules a).

Definition CreateAlertRule (r : AlertRule) : stM AlertDB StoreErr Z := fun a =>
  if fault QInsertRule then (a, Err ErrDB)
  else
    let id := arule_seq a + 1 in
    (mkADB (arules a ++ [mkRule id (aName r) (aEnabled r) (aType r) (aTarget r) (orDefault (aConfig r) "{}")
                          (orDefault (aSeverity r) "warning") (aWebhookID r) (aEmail r) (marshalEmails (aEmails r))
                          (defaultInt (aCooldownSec r) 60)])
       id (aevents a) (aevent_seq a) (astates a) (adeliveries a), Ok id).

Definition on_rule (id : Z) (f : AlertRule -> AlertRule) (a : AlertDB) : AlertDB :=
  set_arules ((fun r => if aID r =? id then f r else r) <$> arules a) a.

Definition SetAlertRuleEnabled (id : Z) (enabled : bool) : stM AlertDB StoreErr () :=
  aexec (QEnableRule id) (on_rule id (fun r => mkRule (aID r) (aName r) enabled (aType r) (aTarget r) (aConfig r)
    (aSeverity r) (aWebhookID r) (aEmail r) (aEmails r) (aCooldownSec r))).

Definition UpdateAlertRule (id : Z) (n : AlertRule) : stM AlertDB StoreErr () :=
  aexec (QUpdateRuleRow id) (on_rule id (fun r => mkRule (aID r) (aName n) (aEnabled r) (aType n) (aTarget n)
    (orDefault (aConfig n) "{}") (orDefault (aSeverity n) "warning") (aWebhookID n) (aEmail n)
    (marshalEmails (aEmails n)) (defaultInt (aCooldownSec n) 60))).

Definition DeleteAlertRule (id : Z) : stM AlertDB StoreErr () :=
  aexec (QDeleteRule id) (fun a => set_arules (filter (fun r => aID r <> id) (arules a)) a).

(** *** Events *)
Definition InsertAlertEvent (e : AlertEvent) (now : Z) : stM AlertDB StoreErr Z := fun a =>
  if fault QInsertEvent then (a, Err ErrDB)
  else
    let id := aevent_seq a + 1 in
    let kind := orDefault (eKind e) KindFiring in
    let settled := eAcknowledged e || String.eqb kind KindResolved in
    (mkADB (arules a) (arule_seq a)
       (aevents a ++ [mkEvent id (eRuleID e) (eRuleName e) (eType e) (eSeverity e) (eHostID e) (eHostName e)
          (eContainerID e) (eContainerName e) (eProject e) (eMessage e) (eValue e) settled (rfc3339 now) kind
          (eDurationSec e) "" None (eSuppressed e) (eSuppressedBy e)])
       id (astates a) (adeliveries a), Ok id).

(** The page and the total (the condition summary it is decorated with is left out). *)
Definition ListAlertEvents (q : AlertQuery) (a : AlertDB) : result StoreErr (list AlertEvent * Z) :=
  let limit := if (qLimit q <=? 0) || (500 <? qLimit q) then 50 else qLimit q in
  let offset := if qOffset q <? 0 then 0 else qOffset q in
  if fault QCountEvents || fault QSelectEvents then Err ErrDB
  else
    let matching := filter (fun e => where_ q e = true) (aevents a) in
    Ok (take (Z.to_nat limit) (drop (Z.to_nat offset) (merge_sort (orderBy q) matching)),
        Z.of_nat (length matching)).

Definition ack (by_ : string) (now : Z) (e : AlertEvent) : AlertEvent :=
  mkEvent (eID e) (eRuleID e) (eRuleName e) (eType e) (eSeverity e) (eHostID e) (eHostName e)
    (eContainerID e) (eContainerName e) (eProject e) (eMessage e) (eValue e) true (eCreatedAt e) (eKind e)
    (eDurationSec e) by_ (Some (rfc3339 now)) (eSuppressed e) (eSuppressedBy e).

Definition unacked_only (q : AlertQuery) : AlertQuery :=
  mkQuery (qSeverity q) (qSeverities q) (qKind q) (qHideRepeats q) (qHostID q) (qContainer q) (qRule q) (qText q)
    true (qHostIDs q) (qLimit q) (qOffset q) (qSort q) (qDesc q).

Definition AckMatchingAlertEvents (q : AlertQuery) (by_ : string) (now : Z) : stM AlertDB StoreErr Z := fun a =>
  let q := unacked_only q in
  if fault QAckMatching then (a, Err ErrDB)
  else (set_aevents ((fun e => if where_ q e then ack by_ now e else e) <$> aevents a) a,
        Ok (Z.of_nat (length (filter (fun e => where_ q e = true) (aevents a))))).

Definition AckAlertEvent (id : Z) (by_ : string) (now : Z) : stM AlertDB StoreErr () :=
  aexec (QAckOne id) (fun a => set_aevents ((fun e => if eID e =? id then ack by_ now e else e) <$> aevents a) a).

Definition CountUnacknowledged (a : AlertDB) : result StoreErr Z :=
  if fault QCountEvents then Err ErrDB
  else Ok (Z.of_nat (length (filter (fun e => eAcknowledged e = false) (aevents a)))).

Definition AlertEventByID (id : Z) (a : AlertDB) : result StoreErr AlertEvent :=
  if fault (QEventByID id) then Err ErrDB
  else match list_find (fun e => eID e = id) (aevents a) with
       | Some (_, e) => Ok e
       | None => Err ErrNotFound
       end.

Definition AlertEventHost (id : Z) (a : AlertDB) : result StoreErr Z :=
  e ← AlertEventByID id a; Ok (eHostID e).

(** *** Deliveries *)

(** s[:max] + "…" for a longer detail *)
Definition truncateDetail (s : string) : string :=
  let s := TrimSpace s in
  if (500 <? String.length s)%nat then stake 500 s +:+ "…" else s.

Definition RecordAlertDelivery (d : AlertDelivery) (now : Z) : stM AlertDB StoreErr () :=
  aexec (QInsertDelivery (dEventID d)) (fun a => mkADB (arules a) (arule_seq a) (aevents a) (aevent_seq a) (astates a)
    (adeliveries a ++ [mkDelivery (dEventID d) (dChannel d) (dTarget d) (dOK d) (dStatus d)
                         (truncateDetail (dDetail d)) (rfc3339 now)])).

(** *** Condition states *)
Definition state_pk (s : AlertState) : Z * string * string := (tHostID s, tContainerID s, tMetric s).

Definition ListAlertStates (a : AlertDB) : result StoreErr (list AlertState) :=
  if fault QListStates then Err ErrDB else Ok (snd <$> map_to_list (astates a)).

(** ON CONFLICT keeps started_at. *)
Definition UpsertAlertState (s : AlertState) : stM AlertDB StoreErr () :=
  aexec (QUpsertState (state_pk s)) (fun a =>
    let started := match astates a !! state_pk s with
                   | Some old => tStartedAt old
                   | None => rfc3339 (tStartedAt s)
                   end in
    set_astates (<[state_pk s := mkAState (tHostID s) (tHostName s) (tContainerID s) (tContainerName s) (tMetric s)
      (tRuleID s) (tRuleName s) (tSeverity s) (tLastValue s) started (rfc3339 (tNotifiedAt s))]> (astates a)) a).

Definition DeleteAlertState (hostID : Z) (containerID metric : string) : stM AlertDB StoreErr () :=
  aexec (QDeleteState (hostID, containerID, metric))
    (fun a => set_astates (delete (hostID, containerID, metric) (astates a)) a).
End Ops.

(** ** Lemmas on LIKE *)

Lemma same_char_eq a b : same_char a b = true <-> fold_ascii a = fold_ascii b.
Proof. unfold same_char. apply Ascii.eqb_eq. Qed.

Lemma like_trailing s : like ["%"%char] s = true.
Proof. simpl. induction s as [|x s IH]; simpl; [done|exact IH]. Qed.

(** The leading % tries every suffix. *)
Lemma like_any p s : like ("%"%char :: p) s = true <-> exists pre post, s = pre ++ post /\ like p post = true.
Proof.
  change (like ("%"%char :: p) s) with
    ((fix any (s : list Ascii.ascii) : bool := like p s || match s with [] => false | _ :: s' => any s' end) s).
  induction s as [|x s IH].
  - rewrite orb_false_r. split; [intros; by exists [], []|].
    intros (pre & post & Heq & ?). symmetry in Heq. by apply app_eq_nil in Heq as [_ ->].
  - rewrite orb_true_iff, IH. split.
    + intros [?|(pre & post & -> & ?)]; [by exists [], (x :: s)|by exists (x :: pre), post].
    + intros ([|y pre] & post & Heq & ?); simpl in Heq; [left; congruence|right].
      injection Heq as -> ->. eauto.
Qed.

(** An escaped needle matches only itself, whatever characters it holds. *)
Lemma like_escaped needle s :
  like (escape_bytes needle ++ ["%"%char]) s = true <->
  exists mid post, s = mid ++ post /\ fold_ascii <$> mid = fold_ascii <$> needle.
Proof.
  revert s. induction needle as [|c needle IH]; intros s.
  { simpl app. rewrite like_trailing. split; [intros _; by exists [], s|done]. }
  assert (Hstep : forall s, (exists x s', s = x :: s' /\ same_char c x = true /\
      like (escape_bytes needle ++ ["%"%char]) s' = true) <->
      exists mid post, s = mid ++ post /\ fold_ascii <$> mid = fold_ascii <$> c :: needle).
  { intros t. split.
    - intros (x & s' & -> & Hc%same_char_eq & (mid & post & -> & Hm)%IH). exists (x :: mid), post.
      split; [done|]. rewrite !fmap_cons. congruence.
    - intros (mid & post & -> & Hm). destruct mid as [|x mid]; [done|]. rewrite !fmap_cons in Hm.
      injection Hm as Hx Hm. exists x, (mid ++ post). split; [done|]. split; [by apply same_char_eq|].
      apply IH. eauto. }
  rewrite <- Hstep. cbn [escape_bytes].
  destruct (Ascii.eqb c backslash || Ascii.eqb c "%" || Ascii.eqb c "_") eqn:Es.
  - cbn [app like]. rewrite Ascii.eqb_refl. destruct s as [|x s]; [naive_solver|].
    rewrite andb_true_iff. naive_solver.
  - apply orb_false_iff in Es as [[E1 E2]%orb_false_iff E3]. cbn [app like]. rewrite E1, E2, E3.
    destruct s as [|x s]; [naive_solver|]. rewrite andb_true_iff. naive_solver.
Qed.

(** ** Properties *)

(** searching the feed for a text finds that text.  Whatever characters the
    needle holds (a "%", a "_" or a backslash included), the LIKE pattern built
    from it matches a column exactly when the column contains the needle as a
    substring up to ASCII case: no wildcard reaches SQLite. *)
Theorem like_contains_exact col needle :
  like_contains col needle = true <->
  exists pre mid post, bytes col = pre ++ mid ++ post /\ fold_ascii <$> mid = fold_ascii <$> bytes needle.
Proof.
  unfold like_contains. change (["%"%char] ++ ?l) with ("%"%char :: l).
  rewrite like_any. setoid_rewrite like_escaped. split.
  - intros (pre & ? & Hs & mid & post & -> & Hm). eauto 10.
  - intros (pre & mid & post & Hs & Hm). exists pre, (mid ++ post). eauto 10.
Qed.

Lemma where_unacked q e : where_ (unacked_only q) e = where_ q e && negb (eAcknowledged e).
Proof.
  unfold where_, unacked_only. simpl. destruct (eAcknowledged e); simpl.
  - rewrite !andb_false_r. done.
  - destruct (qUnacked q); by rewrite !andb_true_r.
Qed.

Lemma where_host q e l : where_ q e = true -> qHostIDs q = Some l -> eHostID e ∈ l.
Proof.
  unfold where_. intros H Hq. rewrite Hq in H. repeat (apply andb_true_iff in H as [H ?]).
  destruct l as [|h l]; [done|]. match goal with Hx : existsb _ _ = true |- _ => rename Hx into Hl end.
  apply existsb_exists in Hl as (x & Hx & Heq). apply Z.eqb_eq in Heq. subst x. by apply list_elem_of_In.
Qed.

(** "acknowledge everything I can see" touches exactly that.  The rows it
    changes are the unacknowledged rows the feed's own filter shows, on hosts in
    the caller's scope; each keeps everything but its acknowledgement, nothing
    already acknowledged is re-stamped, no matching row is left outstanding, and
    the count reported is the number of rows changed. *)
Theorem ack_matching_exact fault q by_ now a :
  match AckMatchingAlertEvents fault q by_ now a with
  | (a', Err _) => a' = a
  | (a', Ok n) =>
      length (aevents a') = length (aevents a) /\
      (forall i e, aevents a !! i = Some e ->
         if where_ q e && negb (eAcknowledged e)
         then aevents a' !! i = Some (ack by_ now e) /\
              (forall l, qHostIDs q = Some l -> eHostID e ∈ l)
         else aevents a' !! i = Some e) /\
      n = Z.of_nat (length (filter (fun e => where_ q e = true /\ eAcknowledged e = false) (aevents a))) /\
      arules a' = arules a /\ astates a' = astates a
  end.
Proof.
  unfold AckMatchingAlertEvents. cbv zeta. destruct (fault QAckMatching); [done|].
  split; [apply length_fmap|]. split; [|split; [|done]].
  - intros i e Hi. simpl. rewrite list_lookup_fmap, Hi. simpl. rewrite where_unacked.
    destruct (where_ q e && negb (eAcknowledged e)) eqn:E; [|done]. split; [done|].
    intros l. apply andb_true_iff in E as [E _]. by apply where_host.
  - do 2 f_equal. apply list_filter_iff. intros e. rewrite where_unacked.
    destruct (where_ q e), (eAcknowledged e); simpl; naive_solver.
Qed.
