(* ===== verification/History.v ===== *)
(** * Metric history (internal/history: history.go, memory.go, rate.go)

    The interface the alert engine and the API read history through, its
    in-memory implementation, and the reset-safe increase of a counter. *)
From S2P Require Import Prelude GoStrings Floats.

(** ** Data *)
Record Sample := mkSample {
  sContainerID : string; sHostID : Z; sTime : Z; CPU : float64; sMemPercent : float64; sMemBytes : float64;
  sNetRx : float64; sNetTx : float64; sNetDrops : float64; sNetErrors : float64
}.

(** Milliseconds since the Unix epoch, and a value. *)
Record Point := mkPoint { T : Z; V : float64 }.

Definition MetricNetDrops : string := "netdrops".
Definition MetricNetErrors : string := "neterrors".

Definition allMetrics : list string :=
  ["cpu"; "mem"; "membytes"; "netrx"; "nettx"; MetricNetDrops; MetricNetErrors].

Definition metricValue (s : Sample) (metric : string) : option float64 :=
  if String.eqb metric "cpu" then Some (CPU s)
  else if String.eqb metric "mem" then Some (sMemPercent s)
  else if String.eqb metric "membytes" then Some (sMemBytes s)
  else if String.eqb metric "netrx" then Some (sNetRx s)
  else if String.eqb metric "nettx" then Some (sNetTx s)
  else if String.eqb metric MetricNetDrops then Some (sNetDrops s)
  else if String.eqb metric MetricNetErrors then Some (sNetErrors s)
  else None.

(** t.UnixMilli() *)
Definition UnixMilli (t : Z) : Z := (t - 62135596800 * second) / 10 ^ 6.

(** ** Rates (rate.go) *)

Fixpoint sum_steps (acc : float64) (prev : float64) (l : list Point) : float64 :=
  match l with
  | [] => acc
  | p :: l' =>
      let d := fsub (V p) prev in
      sum_steps (if fgt d fzero then fadd acc d else acc) (V p) l'
  end.

(** [None] with fewer than two points. *)
Definition Increase (points : list Point) : option float64 :=
  match points with
  | p :: (_ :: _) as rest => Some (sum_steps fzero (V p) rest)
  | _ => None
  end.

Definition RateOverWindow (points : list Point) : option float64 :=
  delta ← Increase points;
  let elapsed := fdiv (of_Z (T (List.last points (mkPoint 0 fzero)) - T (List.hd (mkPoint 0 fzero) points))) (of_Z 1000) in
  if fle elapsed fzero then None else Some (fdiv delta elapsed).

(** ** The interface *)

(** store.QueryAll: [None] for a failed query; a container without points in the
    window is absent from the result. *)
Class HistoryReader := {
  QueryAll : string -> Z -> list string -> option (gmap string (list Point))
}.

(** ** The in-memory store (memory.go) *)
Record memoryStore := mkMem {
  series : gmap string (gmap string (list Point));
  hostsOf : gmap string Z;
  retention : Z
}.

(** Trim from the front while older than the cutoff. *)
Fixpoint trim_front (cutoff : Z) (l : list Point) : list Point :=
  match l with
  | p :: l' => if T p <? cutoff then trim_front cutoff l' else l
  | [] => []
  end.

Definition newest (byMetric : gmap string (list Point)) : Z :=
  map_fold (fun _ pts acc => match last pts with Some p => if acc <? T p then T p else acc | None => acc end) 0 byMetric.

Definition forgetStale (cutoff : Z) (m : memoryStore) : memoryStore :=
  let stale cid := match series m !! cid with Some bm => newest bm <? cutoff | None => false end in
  mkMem (filter (fun kv => negb (newest kv.2 <? cutoff) = true) (series m))
    (filter (fun kv => negb (stale kv.1) = true) (hostsOf m)) (retention m).

Definition record_metric (cutoff t : Z) (s : Sample) (bm : gmap string (list Point)) (metric : string)
    : gmap string (list Point) :=
  let v := default fzero (metricValue s metric) in
  <[metric := trim_front cutoff (default [] (bm !! metric) ++ [mkPoint t v])]> bm.

Definition record_one (cutoff : Z) (m : memoryStore) (s : Sample) : memoryStore :=
  let bm := default ∅ (series m !! sContainerID s) in
  mkMem (<[sContainerID s := foldl (record_metric cutoff (UnixMilli (sTime s)) s) bm allMetrics]> (series m))
    (<[sContainerID s := sHostID s]> (hostsOf m)) (retention m).

(** [now] is time.Now() *)
Definition mem_Record (now : Z) (samples : list Sample) (m : memoryStore) : memoryStore :=
  let cutoff := UnixMilli (now + wrap64 (- retention m)) in
  foldl (record_one cutoff) (forgetStale cutoff m) samples.

Definition point_le (a b : Point) : Prop := T a <= T b.
#[export] Instance point_le_dec : RelDecision point_le.
Proof. intros a b. unfold point_le. apply _. Defined.

Definition points_of (m : memoryStore) (cid metric : string) : list Point :=
  default [] (bm ← series m !! cid; bm !! metric).

Definition mem_Query (m : memoryStore) (cid metric : string) (since : Z) : list Point :=
  merge_sort point_le (filter (fun p => UnixMilli since <= T p) (points_of m cid metric)).

Definition mem_QueryAll (m : memoryStore) (metric : string) (since : Z) (ids : list string)
    : gmap string (list Point) :=
  build_map (fun cid : string => cid) (fun cid =>
    match points_of m cid metric with
    | [] => None
    | pts => match filter (fun p => UnixMilli since <= T p) pts with
             | [] => None
             | l => Some (merge_sort point_le l)
             end
    end) ∅ ids.

Definition HostFor (m : memoryStore) (cid : string) : option Z := hostsOf m !! cid.

#[export] Instance memory_reader (m : memoryStore) : HistoryReader := {
  QueryAll metric since ids := Some (mem_QueryAll m metric since ids)
}.

(** ** Properties *)

(** reading several series at once is reading each of them.  For every id asked
    for, the batched read holds what the single read returns, in time order,
    except that an empty answer is an absent key; ids not asked for are absent. *)
Theorem query_all_is_query m metric since ids cid :
  NoDup ids ->
  mem_QueryAll m metric since ids !! cid =
    if bool_decide (cid ∈ ids)
    then match mem_Query m cid metric since with [] => None | l => Some l end
    else None.
Proof.
  intros Hnd. unfold mem_QueryAll, mem_Query.
  set (f := fun cid => match points_of m cid metric with
    | [] => None
    | pts => match filter (fun p => UnixMilli since <= T p) pts with
             | [] => None | l => Some (merge_sort point_le l) end end).
  assert (Hf : f cid = match merge_sort point_le (filter (fun p => UnixMilli since <= T p) (points_of m cid metric))
                       with [] => None | l => Some l end).
  { unfold f. destruct (points_of m cid metric) as [|p l]; [done|].
    destruct (filter _ (p :: l)) as [|q l'] eqn:E; [done|].
    destruct (merge_sort point_le (q :: l')) as [|x r] eqn:E2; [|done].
    pose proof (merge_sort_Permutation point_le (q :: l')) as Hp. rewrite E2 in Hp.
    by apply Permutation_nil_cons in Hp. }
  rewrite <- Hf. apply option_eq. intros l.
  rewrite build_map_lookup by (by rewrite list_fmap_id). rewrite lookup_empty. split.
  - intros [(x & Hx & <- & Hl)|[? _]]; [|done]. by rewrite bool_decide_eq_true_2.
  - case_bool_decide as Hin; [|done]. intros Hl. left. eauto.
Qed.
