(* ===== verification/Delivery.v ===== *)
(** * Deliveries and their retries (internal/monitor/webhook.go, email.go,
    delivery_retry.go, store/delivery_retry.go)

    One attempt per channel with its classification, the queue of failed
    deliveries, and the sweep that drives it.  What the network answers is a
    parameter: an endpoint's response, an SMTP dialog. *)
From S2P Require Import Prelude GoStrings Floats Roles Calendar Maintenance Alerts.

(** ** Data *)
Record Webhook := mkWebhook { whID : Z; whName : string; whURL : string; whMethod : string }.

(** What building and sending one request came to. *)
Inductive HttpOutcome :=
  | BadRequest (msg : string)
  | TransportError (msg : string)
  | Response (status : Z) (excerpt : string).

Record SMTPConfig := mkSMTP { smtpHost : string; smtpFrom : string; smtpTo : string }.

Record AlertDeliveryRetry := mkRetry {
  rtID : Z; rtEventID : Z; rtChannel : string; rtWebhookID : option Z; rtRuleEmails : list string;
  Attempt : Z; NextAttemptAt : Z; LastError : string
}.

(** ok, status, target, detail, retriable *)
Record Outcome := mkOutcome { oOK : bool; oStatus : Z; oTarget : string; oDetail : string; oRetriable : bool }.

Definition maxDeliveryRetries : Z := 5.
Definition deliveryRetryBase : Z := minute.
Definition deliveryRetryMaxGap : Z := 30 * minute.
Definition retrySweepBatch : nat := 20.

Definition backoffFor (attempt : Z) : Z :=
  if (attempt <? 0) || (20 <? attempt) then deliveryRetryMaxGap
  else
    let d := wrap64 (Z.shiftl deliveryRetryBase attempt) in
    if (d <=? 0) || (deliveryRetryMaxGap <? d) then deliveryRetryMaxGap else d.

(** ** State *)
Record DState := mkDState {
  dadb : AlertDB;
  queue : list AlertDeliveryRetry;        (* rows in insertion order *)
  queue_seq : Z;
  dticks : nat;
  sends : list (Z * string)               (* what left: event id and channel, oldest first *)
}.
Definition set_dadb a s := mkDState a (queue s) (queue_seq s) (dticks s) (sends s).
Definition set_queue q s := mkDState (dadb s) q (queue_seq s) (dticks s) (sends s).

Class Network := {
  dclock : nat -> Z;
  webhooks : list Webhook;
  post : nat -> Webhook -> AlertEvent -> HttpOutcome;
  hostOf : string -> string;                       (* net/url's host of a URL, "unknown host" *)
  smtp : option SMTPConfig;                        (* GetSMTP, None for an error *)
  host_alert_email : Z -> option string;           (* HostByID's AlertEmail *)
  send_mail : nat -> string -> AlertEvent -> option string;  (* the error of SendMail to a recipient list *)
  dwindows : nat -> Windows;
  ddb : DB;
  dtzdb : string -> option Location;
  dToLower : string -> string;
  qfault : Query -> bool;
  wfault : WQuery -> bool;
  afault : AQuery -> bool;
  rfault : string -> bool;                         (* the queue's own statements and the webhook's *)
  error_text : StoreErr -> string                (* what err.Error() says *)
}.

Section Delivery.
Context `{N : Network}.

Definition DNow (s : DState) : DState * Z :=
  (mkDState (dadb s) (queue s) (queue_seq s) (S (dticks s)) (sends s), dclock (dticks s)).

Definition sent (ev : AlertEvent) (channel : string) (s : DState) : DState :=
  mkDState (dadb s) (queue s) (queue_seq s) (S (dticks s)) (sends s ++ [(eID ev, channel)]).

(** ** One attempt *)

(** (s *Store) WebhookByID *)
Definition WebhookByID (id : Z) : result StoreErr Webhook :=
  if rfault "WebhookByID" then Err ErrDB
  else match list_find (fun w => whID w = id) webhooks with
       | Some (_, wh) => Ok wh
       | None => Err ErrNotFound
       end.

(** (d *dispatcher) attempt *)
Definition attempt (webhookID : Z) (ev : AlertEvent) (s : DState) : DState * Outcome :=
  match WebhookByID webhookID with
  | Err e => (s, mkOutcome false 0 ("webhook #" +:+ FormatInt webhookID) ("webhook not found: " +:+ error_text e) false)
  | Ok wh =>
      let target := whName wh +:+ " (" +:+ hostOf (whURL wh) +:+ ")" in
      match post (dticks s) wh ev with
      | BadRequest msg => (s, mkOutcome false 0 target ("bad request: " +:+ msg) false)
      | TransportError msg => (sent ev "webhook" s, mkOutcome false 0 target msg true)
      | Response status excerpt =>
          (sent ev "webhook" s,
           mkOutcome (status <? 300) status target excerpt ((status =? 429) || (500 <=? status)))
      end
  end.

(** (m *Monitor) attemptEmail: recipients from the rule, the host, the instance. *)
Definition recipients (cfg : SMTPConfig) (ev : AlertEvent) (ruleEmails : list string) : string :=
  match ruleEmails with
  | _ :: _ => Join ruleEmails ", "
  | [] =>
      if negb (eHostID ev =? 0) then
        match host_alert_email (eHostID ev) with
        | Some a => if String.eqb a "" then smtpTo cfg else a
        | None => smtpTo cfg
        end
      else smtpTo cfg
  end.

Definition attemptEmail (ev : AlertEvent) (ruleEmails : list string) (s : DState) : DState * Outcome :=
  let unconfigured := (s, mkOutcome false 0 "" "SMTP is not configured, so this alert was not e-mailed" false) in
  match smtp with
  | None => unconfigured
  | Some cfg =>
      if String.eqb (smtpHost cfg) "" || String.eqb (smtpFrom cfg) "" then unconfigured
      else
        let to := recipients cfg ev ruleEmails in
        if String.eqb to "" then
          (s, mkOutcome false 0 "" "no recipient: the rule, the host and the SMTP settings all leave it empty" false)
        else match send_mail (dticks s) to ev with
        | Some err => (sent ev "email" s, mkOutcome false 0 to err true)
        | None => (sent ev "email" s, mkOutcome true 0 to "" false)
        end
  end.

(** record / recordDelivery *)
Definition record (channel : string) (ev : AlertEvent) (o : Outcome) (s : DState) : DState :=
  if eID ev =? 0 then s
  else
    let target := if String.eqb channel "email" && String.eqb (oTarget o) "" then "(no recipient)" else oTarget o in
    let '(s, now) := DNow s in
    set_dadb (RecordAlertDelivery afault (mkDelivery (eID ev) channel target (oOK o) (oStatus o) (oDetail o) 0) now (dadb s)).1 s.

(** ** The queue (store/delivery_retry.go) *)
Definition EnqueueAlertDeliveryRetry (r : AlertDeliveryRetry) (s : DState) : DState :=
  if rfault "enqueue" then s
  else
    let id := queue_seq s + 1 in
    mkDState (dadb s)
      (queue s ++ [mkRetry id (rtEventID r) (rtChannel r) (rtWebhookID r) (marshalEmails dToLower (rtRuleEmails r)) 0
                     (rfc3339 (NextAttemptAt r)) (LastError r)])
      id (dticks s) (sends s).

Definition retry_le (a b : AlertDeliveryRetry) : Prop := NextAttemptAt a <= NextAttemptAt b.
#[export] Instance retry_le_dec : RelDecision retry_le.
Proof. intros a b. unfold retry_le. apply _. Defined.

Definition DueAlertDeliveryRetries (now : Z) (limit : nat) (s : DState) : option (list AlertDeliveryRetry) :=
  if rfault "due" then None
  else Some (take limit (merge_sort retry_le (filter (fun r => NextAttemptAt r <= rfc3339 now) (queue s)))).

Definition RescheduleAlertDeliveryRetry (id : Z) (incrementAttempt : bool) (next : Z) (lastError : string)
    (s : DState) : DState :=
  if rfault "reschedule" then s
  else set_queue ((fun r => if rtID r =? id then
         mkRetry (rtID r) (rtEventID r) (rtChannel r) (rtWebhookID r) (rtRuleEmails r)
           (if incrementAttempt then Attempt r + 1 else Attempt r) (rfc3339 next) lastError else r) <$> queue s) s.

Definition DeleteAlertDeliveryRetry (id : Z) (s : DState) : DState :=
  if rfault "delete" then s else set_queue (filter (fun r => rtID r <> id) (queue s)) s.

(** enqueueRetry / enqueueEmailRetry *)
Definition enqueue (channel : string) (ev : AlertEvent) (webhookID : option Z) (emails : list string) (detail : string)
    (s : DState) : DState :=
  let '(s, now) := DNow s in
  EnqueueAlertDeliveryRetry (mkRetry 0 (eID ev) channel webhookID emails 0 (now + backoffFor 0) detail) s.

(** ** The first attempt of a delivery *)
Definition dispatch (webhookID : Z) (ev : AlertEvent) (s : DState) : DState :=
  let '(s, o) := attempt webhookID ev s in
  let s := record "webhook" ev o s in
  if negb (oOK o) && oRetriable o then enqueue "webhook" ev (Some webhookID) [] (oDetail o) s else s.

Definition emailNotify (ev : AlertEvent) (ruleEmails : list string) (s : DState) : DState :=
  let '(s, o) := attemptEmail ev ruleEmails s in
  let s := record "email" ev o s in
  if negb (oOK o) && oRetriable o then enqueue "email" ev None ruleEmails (oDetail o) s else s.

(** ** The sweep *)

(** The final switch of retryOne. *)
Definition settle (r : AlertDeliveryRetry) (o : Outcome) (s : DState) : DState :=
  if oOK o then DeleteAlertDeliveryRetry (rtID r) s
  else if negb (oRetriable o) || (maxDeliveryRetries <=? Attempt r + 1) then DeleteAlertDeliveryRetry (rtID r) s
  else
    let '(s, now) := DNow s in
    RescheduleAlertDeliveryRetry (rtID r) true (now + backoffFor (Attempt r + 1)) (oDetail o) s.

Definition retryOne (r : AlertDeliveryRetry) (s : DState) : DState :=
  match AlertEventByID afault (rtEventID r) (dadb s) with
  | Err _ => DeleteAlertDeliveryRetry (rtID r) s
  | Ok ev =>
      let '(s, now) := DNow s in
      match FindActiveMaintenanceWindow dtzdb dToLower qfault wfault ddb (dwindows (dticks s)) (eHostID ev)
              (eProject ev) (eContainerName ev) (eRuleID ev) (eSeverity ev) now with
      | Ok (Some _) =>
          let '(s, now) := DNow s in
          RescheduleAlertDeliveryRetry (rtID r) false (now + backoffFor (Attempt r)) (LastError r) s
      | _ =>
          match rtWebhookID r with
          | Some webhookID =>
              if String.eqb (rtChannel r) "webhook" then
                let '(s, o) := attempt webhookID ev s in settle r o (record "webhook" ev o s)
              else if String.eqb (rtChannel r) "email" then
                let '(s, o) := attemptEmail ev (rtRuleEmails r) s in settle r o (record "email" ev o s)
              else DeleteAlertDeliveryRetry (rtID r) s
          | None =>
              if String.eqb (rtChannel r) "email" then
                let '(s, o) := attemptEmail ev (rtRuleEmails r) s in settle r o (record "email" ev o s)
              else DeleteAlertDeliveryRetry (rtID r) s
          end
      end
  end.

Definition sweepDeliveryRetries (s : DState) : DState :=
  let '(s, now) := DNow s in
  match DueAlertDeliveryRetries now retrySweepBatch s with
  | None => s
  | Some due => foldl (fun s r => retryOne r s) s due
  end.
End Delivery.

(** ** Lemmas *)

Lemma backoffFor_small n : 0 <= n <= 20 ->
  backoffFor n = if 5 <=? n then deliveryRetryMaxGap else minute * 2 ^ n.
Proof.
  intros Hn. unfold backoffFor. rewrite (proj2 (Z.ltb_ge n 0)), (proj2 (Z.ltb_ge 20 n)) by lia. simpl.
  rewrite Z.shiftl_mul_pow2 by lia. unfold deliveryRetryBase, deliveryRetryMaxGap.
  assert (2 ^ n <= 2 ^ 20) by (apply Z.pow_le_mono_r; lia).
  assert (0 < 2 ^ n) by (apply Z.pow_pos_nonneg; lia).
  rewrite wrap64_id by (unfold in_int64, int64_min, int64_max, minute, second; lia).
  destruct (5 <=? n) eqn:E; bsimp.
  - assert (2 ^ 5 <= 2 ^ n) by (apply Z.pow_le_mono_r; lia).
    rewrite (proj2 (Z.leb_gt _ _)) by (unfold minute, second; lia).
    by rewrite (proj2 (Z.ltb_lt _ _)) by (unfold minute, second in *; lia).
  - assert (2 ^ n <= 2 ^ 4) by (apply Z.pow_le_mono_r; lia).
    rewrite (proj2 (Z.leb_gt _ _)) by (unfold minute, second; lia).
    by rewrite (proj2 (Z.ltb_ge _ _)) by (unfold minute, second in *; lia).
Qed.

(** the gaps between retries are 1, 2, 4, 8 and 16 minutes, and whatever attempt
    count the queue holds, negative or huge included, the next one is never less
    than a minute nor more than half an hour away. *)
Theorem backoff_schedule :
  map backoffFor [0; 1; 2; 3; 4] = map (Z.mul minute) [1; 2; 4; 8; 16] /\
  forall n, minute <= backoffFor n <= 30 * minute.
Proof.
  split; [reflexivity|]. intros n.
  destruct (decide (0 <= n <= 20)) as [Hn|Hn].
  - rewrite backoffFor_small by done. unfold deliveryRetryMaxGap.
    destruct (5 <=? n) eqn:E; bsimp; [unfold minute, second; lia|].
    assert (2 ^ n <= 2 ^ 4) by (apply Z.pow_le_mono_r; lia).
    assert (0 < 2 ^ n) by (apply Z.pow_pos_nonneg; lia). unfold minute, second; lia.
  - unfold backoffFor. assert ((n <? 0) || (20 <? n) = true) as ->.
    { apply orb_true_iff. rewrite !Z.ltb_lt. lia. }
    unfold deliveryRetryMaxGap, minute, second. lia.
Qed.

(** *** The retry budget *)

(** The attempts a queue still has left. *)
Definition budget (q : list AlertDeliveryRetry) : Z := foldr (fun r acc => maxDeliveryRetries - Attempt r + acc) 0 q.

Record queue_ok (s : DState) : Prop := {
  q_ids : NoDup (rtID <$> queue s);
  q_seq r : r ∈ queue s -> rtID r <= queue_seq s;
  q_attempt r : r ∈ queue s -> 0 <= Attempt r < maxDeliveryRetries
}.

(** What is out and what may still go out. *)
Definition spent (s : DState) : Z := Z.of_nat (length (sends s)) + budget (queue s).

(** Changing the row with the id of [r] by [f]. *)
Definition change (r : AlertDeliveryRetry) (f : AlertDeliveryRetry -> AlertDeliveryRetry) (q : list AlertDeliveryRetry) :=
  (fun x => if rtID x =? rtID r then f x else x) <$> q.

Lemma budget_app q1 q2 : budget (q1 ++ q2) = budget q1 + budget q2.
Proof. induction q1 as [|x q1 IH]; [done|]. cbn [app budget foldr]. fold (budget (q1 ++ q2)) (budget q1). lia. Qed.

Lemma others_filtered (q : list AlertDeliveryRetry) (r : AlertDeliveryRetry) : rtID r ∉ rtID <$> q -> filter (fun x => rtID x <> rtID r) q = q.
Proof.
  induction q as [|y q IH]; [done|]. rewrite fmap_cons, not_elem_of_cons. intros [Hy Hq].
  rewrite filter_cons_True by congruence. by rewrite IH.
Qed.

Lemma others_unchanged (q : list AlertDeliveryRetry) r f : rtID r ∉ rtID <$> q -> change r f q = q.
Proof.
  unfold change. induction q as [|y q IH]; [done|]. rewrite !fmap_cons, not_elem_of_cons. intros [Hy Hq].
  rewrite (proj2 (Z.eqb_neq _ _)) by congruence. by rewrite IH.
Qed.

Lemma change_row q r f : NoDup (rtID <$> q) -> r ∈ q ->
  exists q1 q2, q = q1 ++ r :: q2 /\ rtID r ∉ rtID <$> q1 /\ rtID r ∉ rtID <$> q2 /\
    change r f q = q1 ++ f r :: q2 /\ filter (fun x => rtID x <> rtID r) q = q1 ++ q2.
Proof.
  intros Hnd (q1 & q2 & ->)%list_elem_of_split. exists q1, q2.
  rewrite fmap_app, fmap_cons in Hnd. apply NoDup_app in Hnd as (_ & Hd & H2).
  apply NoDup_cons in H2 as [H2 _].
  assert (H1 : rtID r ∉ rtID <$> q1) by (intros H; by apply (Hd _ H), list_elem_of_here).
  split; [done|]. split; [done|]. split; [done|]. split.
  - unfold change. rewrite fmap_app, fmap_cons, Z.eqb_refl. fold (change r f q1) (change r f q2).
    by rewrite !others_unchanged.
  - rewrite filter_app, filter_cons_False by tauto. by rewrite !others_filtered.
Qed.

Lemma change_ids q r f : (forall x, rtID (f x) = rtID x) -> rtID <$> change r f q = rtID <$> q.
Proof.
  intros Hf. unfold change. rewrite <- list_fmap_compose. apply list_fmap_ext. intros i x _. simpl.
  destruct (rtID x =? rtID r); [apply Hf|done].
Qed.

(** A step on row [r]: every other row stays, and each send is paid for. *)
Record row_step (r : AlertDeliveryRetry) (s s' : DState) : Prop := {
  rs_ok : queue_ok s';
  rs_spent : spent s' <= spent s;
  rs_rows r' : rtID r' <> rtID r -> r' ∈ queue s -> r' ∈ queue s'
}.

Lemma drop_step r s s' : queue_ok s -> r ∈ queue s -> queue_seq s' = queue_seq s ->
  queue s' = filter (fun x => rtID x <> rtID r) (queue s) ->
  (length (sends s') <= length (sends s) + 1)%nat -> row_step r s s'.
Proof.
  intros [Hn Hq Ha] Hin Hseq E Hs. pose proof (Ha r Hin) as Hr.
  destruct (change_row _ r id Hn Hin) as (q1 & q2 & Eq & _ & _ & _ & Ef). split.
  - split.
    + rewrite E. by apply (NoDup_fmap_filter rtID _ _ Hn).
    + intros r'. rewrite E, list_elem_of_filter, Hseq. intros [_ Hr']. by apply Hq.
    + intros r'. rewrite E, list_elem_of_filter. intros [_ Hr']. by apply Ha.
  - unfold spent. rewrite E, Ef, Eq, !budget_app. cbn [budget foldr]. fold (budget q2). lia.
  - intros r' Hne Hr'. rewrite E. by apply list_elem_of_filter.
Qed.

Lemma change_step r f s s' : queue_ok s -> r ∈ queue s -> queue_seq s' = queue_seq s ->
  (forall x, rtID (f x) = rtID x) -> 0 <= Attempt (f r) < maxDeliveryRetries ->
  queue s' = change r f (queue s) ->
  Z.of_nat (length (sends s')) - Z.of_nat (length (sends s)) <= Attempt (f r) - Attempt r -> row_step r s s'.
Proof.
  intros [Hn Hq Ha] Hin Hseq Hf Hr E Hs.
  destruct (change_row _ r f Hn Hin) as (q1 & q2 & Eq & _ & _ & Ec & _).
  assert (Hmem : forall r', r' ∈ queue s' -> r' = f r \/ r' ∈ queue s).
  { intros r'. rewrite E, Ec, Eq, !elem_of_app, !elem_of_cons. tauto. }
  split.
  - split.
    + by rewrite E, change_ids.
    + intros r' [->|Hr']%Hmem; rewrite Hseq; [rewrite Hf|]; by apply Hq.
    + intros r' [->|Hr']%Hmem; [done|]. by apply Ha.
  - unfold spent. rewrite E, Ec, Eq, !budget_app. cbn [budget foldr]. fold (budget q2). lia.
  - intros r' Hne. rewrite E, Ec, Eq, !elem_of_app, !elem_of_cons. intros [H|[->|H]]; tauto.
Qed.

(** *** What each part of a delivery touches *)

Section Delivery_facts.
Context `{N : Network}.

(** [s'] has the rows of [s] and at most one more send. *)
Definition one_send (s s' : DState) : Prop :=
  queue s' = queue s /\ queue_seq s' = queue_seq s /\ (length (sends s') <= length (sends s) + 1)%nat.

Lemma record_frame channel ev o s :
  queue (record channel ev o s) = queue s /\ queue_seq (record channel ev o s) = queue_seq s /\
  sends (record channel ev o s) = sends s.
Proof. unfold record. by destruct (eID ev =? 0). Qed.

Lemma one_send_refl s : one_send s s.
Proof. unfold one_send. repeat split; lia. Qed.

Lemma one_send_sent ev c s : one_send s (sent ev c s).
Proof. unfold one_send. cbn [sent queue queue_seq sends]. rewrite length_app. cbn [length]. repeat split; lia. Qed.

#[local] Hint Resolve one_send_refl one_send_sent : core.

Lemma attempt_one_send id ev s : one_send s (attempt id ev s).1.
Proof. unfold attempt. destruct (WebhookByID id) as [wh|e]; [|done]. by destruct (post _ _ _); cbn [fst]. Qed.

Lemma attemptEmail_one_send ev emails s : one_send s (attemptEmail ev emails s).1.
Proof.
  unfold attemptEmail. destruct smtp as [cfg|]; [|done]. destruct (_ || _); [done|].
  destruct (String.eqb _ _); [done|]. by destruct (send_mail _ _ _); cbn [fst].
Qed.

Lemma one_send_record channel ev o s s1 : one_send s s1 -> one_send s (record channel ev o s1).
Proof. intros (H1 & H2 & H3). unfold one_send. by destruct (record_frame channel ev o s1) as (-> & -> & ->). Qed.

(** *** One retry *)
Context (Hdel : rfault "delete" = false) (Hres : rfault "reschedule" = false).

Lemma delete_row r s s1 : queue_ok s -> r ∈ queue s -> one_send s s1 ->
  row_step r s (DeleteAlertDeliveryRetry (rtID r) s1).
Proof using Hdel.
  intros Hok Hin (Hq & Hs & Hl). unfold DeleteAlertDeliveryRetry. rewrite Hdel.
  apply drop_step; [done..| |]; cbn; [by rewrite Hq|done].
Qed.

Lemma settle_step r o s s1 : queue_ok s -> r ∈ queue s -> one_send s s1 -> row_step r s (settle r o s1).
Proof using Hdel Hres.
  intros Hok Hin Hone. unfold settle. destruct (oOK o); [by apply delete_row|].
  destruct (_ || _) eqn:E; [by apply delete_row|]. apply orb_false_iff in E as [_ E]. bsimp.
  destruct Hone as (Hq & Hs & Hl). pose proof (q_attempt _ Hok r Hin). cbn [DNow].
  unfold RescheduleAlertDeliveryRetry. rewrite Hres.
  apply (change_step r (fun x => mkRetry (rtID x) (rtEventID x) (rtChannel x) (rtWebhookID x) (rtRuleEmails x)
    (Attempt x + 1) (rfc3339 (dclock (dticks s1) + backoffFor (Attempt r + 1))) (oDetail o)));
    [done..|cbn; lia| |cbn; lia]. cbn. by rewrite Hq.
Qed.

Lemma retryOne_step r s : queue_ok s -> r ∈ queue s -> row_step r s (retryOne r s).
Proof using Hdel Hres.
  intros Hok Hin. unfold retryOne.
  assert (Hnone : forall s1, queue s1 = queue s -> queue_seq s1 = queue_seq s -> sends s1 = sends s -> one_send s s1).
  { intros s1 Hq Hs Hl. unfold one_send. rewrite Hl. repeat split; [done..|lia]. }
  destruct (AlertEventByID _ _ _) as [ev|e]; [|by apply delete_row, Hnone]. cbn [DNow].
  set (s1 := mkDState _ _ _ _ _). assert (Hs1 : one_send s s1) by by apply Hnone.
  assert (Hsend : forall c sf, one_send s1 sf.1 ->
    row_step r s (let '(s2, o) := sf in settle r o (record c ev o s2))).
  { intros c [s2 o] Hone. apply settle_step; [done..|]. apply one_send_record. exact Hone. }
  assert (Hmail : row_step r s (if String.eqb (rtChannel r) "email"
      then let '(s2, o) := attemptEmail ev (rtRuleEmails r) s1 in settle r o (record "email" ev o s2)
      else DeleteAlertDeliveryRetry (rtID r) s1)).
  { destruct (String.eqb _ _); [apply Hsend, attemptEmail_one_send|by apply delete_row]. }
  assert (Hgo : row_step r s match rtWebhookID r with
     | Some webhookID => if String.eqb (rtChannel r) "webhook" then
           let '(s2, o) := attempt webhookID ev s1 in settle r o (record "webhook" ev o s2)
         else if String.eqb (rtChannel r) "email"
           then let '(s2, o) := attemptEmail ev (rtRuleEmails r) s1 in settle r o (record "email" ev o s2)
           else DeleteAlertDeliveryRetry (rtID r) s1
     | None => if String.eqb (rtChannel r) "email"
           then let '(s2, o) := attemptEmail ev (rtRuleEmails r) s1 in settle r o (record "email" ev o s2)
           else DeleteAlertDeliveryRetry (rtID r) s1
     end).
  { destruct (rtWebhookID r) as [w|]; [|exact Hmail].
    destruct (String.eqb (rtChannel r) "webhook"); [apply Hsend, attempt_one_send|exact Hmail]. }
  destruct (FindActiveMaintenanceWindow _ _ _ _ _ _ _ _ _ _ _ _) as [[w|]|e]; [|exact Hgo..].
  pose proof (q_attempt _ Hok r Hin). cbn [DNow]. unfold RescheduleAlertDeliveryRetry. rewrite Hres.
  apply (change_step r (fun x => mkRetry (rtID x) (rtEventID x) (rtChannel x) (rtWebhookID x) (rtRuleEmails x)
    (Attempt x) (rfc3339 (dclock (dticks s1) + backoffFor (Attempt r))) (LastError r)));
    try done; cbn; lia.
Qed.

Lemma retry_all due : forall s, queue_ok s -> NoDup (rtID <$> due) -> (forall r, r ∈ due -> r ∈ queue s) ->
  queue_ok (foldl (fun s r => retryOne r s) s due) /\ spent (foldl (fun s r => retryOne r s) s due) <= spent s.
Proof using Hdel Hres.
  induction due as [|r due IH]; intros s Hok Hnd Hin; [cbn; split; [done|lia]|].
  rewrite fmap_cons in Hnd. apply NoDup_cons in Hnd as [Hr Hnd].
  destruct (retryOne_step r s Hok (Hin r (list_elem_of_here _ _))) as [Hok' Hsp Hrows]. cbn [foldl].
  destruct (IH (retryOne r s) Hok' Hnd) as [H1 H2].
  - intros r' Hr'. apply Hrows; [|by apply Hin, list_elem_of_further]. intros E. apply Hr. rewrite <- E.
    by apply list_elem_of_fmap_2.
  - split; [done|lia].
Qed.

Lemma sweep_step s : queue_ok s -> queue_ok (sweepDeliveryRetries s) /\ spent (sweepDeliveryRetries s) <= spent s.
Proof using Hdel Hres.
  intros Hok. unfold sweepDeliveryRetries. cbn [DNow]. set (s1 := mkDState _ _ _ _ _).
  assert (Hok1 : queue_ok s1) by (destruct Hok; by split).
  unfold DueAlertDeliveryRetries. destruct (rfault "due"); [split; [done|reflexivity]|].
  set (due := take _ _).
  assert (exists l, l ≡ₚ filter (fun r => NextAttemptAt r <= rfc3339 (dclock (dticks s))) (queue s1)
    /\ due `sublist_of` l) as (l & Hl & Hsub).
  { eexists. split; [apply (merge_sort_Permutation retry_le)|apply sublist_take]. }
  assert (H12 : NoDup (rtID <$> due) /\ forall r, r ∈ due -> r ∈ queue s1).
  { split.
  - eapply sublist_NoDup; [|by apply fmap_sublist]. rewrite Hl. apply NoDup_fmap_filter, Hok1.
  - intros r Hr. eapply sublist_subseteq in Hr; [|exact Hsub]. rewrite Hl in Hr.
    by apply list_elem_of_filter in Hr as [_ Hr]. }
  destruct H12 as [Hnd Hin]. exact (retry_all due s1 Hok1 Hnd Hin).
Qed.
End Delivery_facts.

(** *** A run of the delivery engine *)
Inductive action :=
  | ADeliver (webhookID : Z) (ev : AlertEvent)
  | AMail (ev : AlertEvent) (ruleEmails : list string)
  | ASweep.

Definition perform `{N : Network} (s : DState) (a : action) : DState :=
  match a with
  | ADeliver id ev => dispatch id ev s
  | AMail ev emails => emailNotify ev emails s
  | ASweep => sweepDeliveryRetries s
  end.

(** The alerts handed to a channel in a run. *)
Definition deliveries (acts : list action) : Z :=
  foldr (fun a n => match a with ASweep => n | _ => 1 + n end) 0 acts.

Section Runs.
Context `{N : Network} (Hdel : rfault "delete" = false) (Hres : rfault "reschedule" = false).

Lemma queue_ok_one_send s s' : one_send s s' -> queue_ok s -> queue_ok s'.
Proof using. intros (Hq & Hs & _) [H1 H2 H3]. split; rewrite Hq; [done| |done]. by rewrite Hs. Qed.

Lemma enqueue_step channel ev w emails detail s : queue_ok s ->
  queue_ok (enqueue channel ev w emails detail s) /\
  spent (enqueue channel ev w emails detail s) <= spent s + maxDeliveryRetries.
Proof using.
  intros [H1 H2 H3]. unfold enqueue, EnqueueAlertDeliveryRetry. cbn [DNow].
  destruct (rfault "enqueue"); [split; [by split|change (spent s <= spent s + 5); lia]|].
  split; [|unfold spent; cbn [sends queue]; rewrite budget_app; cbn [budget foldr Attempt]; lia].
  split; cbn [queue queue_seq]; [rewrite fmap_app; apply NoDup_app; split; [done|split; [|apply NoDup_singleton]]|..].
  - intros i (r & -> & Hr)%list_elem_of_fmap [E|[]%not_elem_of_nil]%elem_of_cons.
    cbn in E. pose proof (H2 r Hr). lia.
  - intros r [Hr| [->|[]%not_elem_of_nil]%elem_of_cons]%elem_of_app; [pose proof (H2 r Hr); lia|cbn; lia].
  - intros r [Hr| [->|[]%not_elem_of_nil]%elem_of_cons]%elem_of_app; [by apply H3|cbn; unfold maxDeliveryRetries; lia].
Qed.

(** An attempt, its record and, if need be, its place in the queue. *)
Lemma first_attempt_step channel ev w emails s s1 o : queue_ok s -> one_send s s1 ->
  let s2 := record channel ev o s1 in
  let s3 := if negb (oOK o) && oRetriable o then enqueue channel ev w emails (oDetail o) s2 else s2 in
  queue_ok s3 /\ spent s3 <= spent s + 1 + maxDeliveryRetries.
Proof using.
  intros Hok Hone s2 s3. assert (H2 : one_send s s2) by by apply one_send_record.
  pose proof (queue_ok_one_send _ _ H2 Hok) as Hok2.
  assert (spent s2 <= spent s + 1) by (destruct H2 as (Hq & _ & Hl); unfold spent; rewrite Hq; lia).
  subst s3. destruct (_ && _); [|split; [done|unfold maxDeliveryRetries; lia]].
  destruct (enqueue_step channel ev w emails (oDetail o) s2 Hok2). split; [done|lia].
Qed.

Lemma perform_step s a : queue_ok s ->
  queue_ok (perform s a) /\ spent (perform s a) <= spent s + (1 + maxDeliveryRetries) * deliveries [a].
Proof using Hdel Hres.
  intros Hok. destruct a as [id ev|ev emails|]; cbn [perform].
  - unfold dispatch. pose proof (attempt_one_send id ev s) as H1. destruct (attempt id ev s) as [s1 o].
    destruct (first_attempt_step "webhook" ev (Some id) [] s s1 o Hok H1) as [H2 H3].
    split; [exact H2|]. change (deliveries [_]) with 1. lia.
  - unfold emailNotify. pose proof (attemptEmail_one_send ev emails s) as H1. destruct (attemptEmail ev emails s) as [s1 o].
    destruct (first_attempt_step "email" ev None emails s s1 o Hok H1) as [H2 H3].
    split; [exact H2|]. change (deliveries [_]) with 1. lia.
  - destruct (sweep_step Hdel Hres s Hok) as [H1 H2]. split; [done|]. change (deliveries [_]) with 0. lia.
Qed.
End Runs.


(** a first attempt leaves a row in the queue exactly when something went out and
    came back undelivered for a reason that may pass: no response at all, a 429 or a
    5xx.  A missing webhook, a request that cannot be built, any other status, and
    everything delivered, leave the queue as it was. *)
Theorem retry_only_transient `{N : Network} id ev s :
  rfault "enqueue" = false ->
  let queued := length (queue (dispatch id ev s)) = S (length (queue s)) in
  let untouched := queue (dispatch id ev s) = queue s in
  match WebhookByID id with
  | Err _ => untouched
  | Ok wh =>
      match post (dticks s) wh ev with
      | BadRequest _ => untouched
      | TransportError _ => queued
      | Response status _ => if (status =? 429) || (500 <=? status) then queued else untouched
      end
  end.
Proof.
  intros Hq queued untouched.
  assert (H : forall s1 o, queue s1 = queue s ->
    queue (if negb (oOK o) && oRetriable o then enqueue "webhook" ev (Some id) [] (oDetail o) (record "webhook" ev o s1)
           else record "webhook" ev o s1)
    = if negb (oOK o) && oRetriable o then queue (enqueue "webhook" ev (Some id) [] (oDetail o) (record "webhook" ev o s1))
      else queue s) by (intros s1 o E; destruct (record_frame "webhook" ev o s1) as (E' & _); destruct (_ && _); congruence).
  assert (Hlen : forall s1 d, queue s1 = queue s -> length (queue (enqueue "webhook" ev (Some id) [] d s1)) = S (length (queue s))).
  { intros s1 d E. unfold enqueue, EnqueueAlertDeliveryRetry. cbn [DNow]. rewrite Hq. cbn [queue].
    rewrite length_app, E. cbn [length]. lia. }
  unfold queued, untouched, dispatch, attempt.
  destruct (WebhookByID id) as [wh|e]; [|by rewrite H].
  destruct (post (dticks s) wh ev) as [m|m|status x]; rewrite H by done; cbn [oOK oRetriable negb andb]; [done|..].
  - apply Hlen. by destruct (record_frame "webhook" ev (mkOutcome false 0 (whName wh +:+ " (" +:+ hostOf (whURL wh) +:+ ")") m true) (sent ev "webhook" s)) as (-> & _).
  - destruct (_ || _) eqn:E; [|by rewrite andb_false_r].
    rewrite (proj2 (Z.ltb_ge status 300)) by (apply orb_true_iff in E as [E|E]; bsimp; lia). cbn [negb andb].
    apply Hlen. match goal with |- queue (record _ _ ?o _) = _ => by destruct (record_frame "webhook" ev o (sent ev "webhook" s)) as (-> & _) end.
Qed.

(** a retry that comes due while a window in force covers its alert is put off,
    not made: nothing goes out and no try is used up, the row stays with its count and
    its last error and a later due time; once no window covers the alert the try is
    made. Silence has no hole a delivery that failed before it could slip through. *)
Theorem silenced_retry_waits `{N : Network} r ev s :
  let now := dclock (dticks s) in
  let covers w := Active dtzdb w now = true /\
    Matches dToLower w (NormalizeHostID qfault (eHostID ev) ddb) (eProject ev) (eContainerName ev) (eRuleID ev)
      (eSeverity ev) = true in
  rfault "reschedule" = false -> wfault WCandidates = false -> 0 <= now ->
  AlertEventByID afault (rtEventID r) (dadb s) = Ok ev ->
  (exists w, w ∈ rows (dwindows (S (dticks s))) /\ covers w) ->
  sends (retryOne r s) = sends s /\
  queue (retryOne r s) = (fun x => if rtID x =? rtID r then
    mkRetry (rtID x) (rtEventID x) (rtChannel x) (rtWebhookID x) (rtRuleEmails x) (Attempt x)
      (rfc3339 (dclock (S (dticks s)) + backoffFor (Attempt r))) (LastError r) else x) <$> queue s.
Proof.
  intros now covers Hres Hwf Hnow Hev (w & Hw & Hc). unfold retryOne. rewrite Hev. cbn [DNow].
  destruct (find_active_cases dtzdb dToLower qfault wfault ddb (dwindows (S (dticks s))) (eHostID ev) (eProject ev)
    (eContainerName ev) (eRuleID ev) (eSeverity ev) now Hnow Hwf) as (o & Ho & Hcase).
  cbn [dticks]. fold now. rewrite Ho. destruct o as [w'|]; [|by destruct (Hcase w Hw)].
  unfold RescheduleAlertDeliveryRetry. by rewrite Hres.
Qed.

(** ** A concrete network

    One endpoint that is down and no mail server. *)
Definition down_hook : Webhook := mkWebhook 2 "ops" "https://ops.example/hook?token=x" "".
Definition demo_window : MaintenanceWindow :=
  mkWin 1 "hush" "" 0 [] "" "" None [] false (738000 * day_ns) (738000 * day_ns + hour) [] "" 0 "" false 0.

Definition demo_net (status : Z) (ws : list MaintenanceWindow) : Network := {|
  dclock n := 738000 * day_ns + Z.of_nat n * minute;
  webhooks := [down_hook];
  post n wh ev := Response status "try later";
  hostOf u := "ops.example";
  smtp := None;
  host_alert_email h := None;
  send_mail n to ev := None;
  dwindows n := mkWindows ws 1;
  ddb := mkDB ∅ 0 ∅ ∅ ∅ ∅ [] 0;
  dtzdb s := None;
  dToLower s := s;
  qfault _ := false; wfault _ := false; afault _ := false; rfault _ := false;
  error_text e := "not found"
|}.

Definition demo_event : AlertEvent :=
  mkEvent 5 3 "died" "state" "critical" 0 "local" "c1" "web" "shop" "it died" None false 0 "firing" 0 "" None false 0.
Definition demo_state : DState := mkDState (mkADB [] 0 [demo_event] 5 ∅ []) [] 0 0 [].
Definition demo_row : AlertDeliveryRetry := mkRetry 1 5 "webhook" (Some 2) [] 1 (738000 * day_ns) "503".
Definition demo_queued : DState := mkDState (mkADB [] 0 [demo_event] 5 ∅ []) [demo_row] 1 0 [].


Example retry_only_transient_witness :
  length (queue (dispatch (N := demo_net 503 []) 2 demo_event demo_state)) = 1%nat /\
  queue (dispatch (N := demo_net 404 []) 2 demo_event demo_state) = [].
Proof.
  split.
  - exact (retry_only_transient (N := demo_net 503 []) 2 demo_event demo_state eq_refl).
  - exact (retry_only_transient (N := demo_net 404 []) 2 demo_event demo_state eq_refl).
Defined.

Example silenced_retry_waits_witness :
  sends (retryOne (N := demo_net 503 [demo_window]) demo_row demo_queued) = [].
Proof.
  apply (silenced_retry_waits (N := demo_net 503 [demo_window]) demo_row demo_event demo_queued);
    [reflexivity|reflexivity|vm_compute; discriminate|reflexivity|].
  exists demo_window. split; [left|]. split; vm_compute; reflexivity.
Defined.
