(* ===== verification/Monitor.v ===== *)
(** * The alert engine (internal/monitor/monitor.go, config.go)

    Rule configurations, the resource conditions with their lifetimes, the
    edge-triggered rules with their cooldowns, and the recording and silencing of
    events.  The engine's maps are the fields of [Mon].  Every reading of the
    clock and every range over a Go map draws from an oracle, so the theorems hold
    for any clock behaviour and any iteration order. *)
From S2P Require Import Prelude GoStrings Floats Users Roles Calendar Maintenance Alerts History.

(** ** Rule configurations (monitor/config.go) *)
Record resourceConfig := mkRC { Metric : string; Op : string; Threshold : float64; DurationSec : Z }.
Record stateConfig := mkSC { Events : list string }.
Record restartConfig := mkRestartC { rcWindowSec : Z; Count : Z }.
Record networkConfig := mkNC { ncMetric : string; ncThreshold : float64; ncWindowSec : Z }.

Definition metricKey (c : resourceConfig) : string :=
  if String.eqb (Metric c) "cpu_total" then "cpu" else Metric c.

Definition exceeds (c : resourceConfig) (v : float64) : bool :=
  if String.eqb (Op c) "<" then flt v (Threshold c) else fgt v (Threshold c).

(** encoding/json on a rule's Config column: the zero value for an absent field,
    [None] for text that does not decode. *)
Class Decoder := {
  json_resource : string -> option resourceConfig;
  json_state : string -> option stateConfig;
  json_restart : string -> option restartConfig;
  json_network : string -> option networkConfig
}.

Section Config.
Context `{Decoder}.

Definition parseResource (s : string) : option resourceConfig :=
  c ← json_resource s;
  Some (mkRC (orDefault (Metric c) "cpu") (orDefault (Op c) ">") (Threshold c)
          (if DurationSec c <=? 0 then 30 else DurationSec c)).

Definition parseState (s : string) : option stateConfig := json_state s.

Definition parseRestart (s : string) : option restartConfig :=
  c ← json_restart s;
  Some (mkRestartC (if rcWindowSec c <=? 0 then 60 else rcWindowSec c) (if Count c <=? 0 then 3 else Count c)).

Definition parseNetwork (s : string) : option networkConfig :=
  c ← json_network s;
  Some (mkNC (orDefault (ncMetric c) "netdrops") (if fle (ncThreshold c) fzero then of_Z 1 else ncThreshold c)
          (if ncWindowSec c <=? 0 then 300 else ncWindowSec c)).
End Config.

Definition matches (c : stateConfig) (action : string) : bool := one_of action (Events c).

(** ** Samples *)
Record ContainerStat := mkCS {
  HostID : Z; HostName : string; csID : string; csName : string; csState : string; csProject : string;
  CPUPercent : float64; CPUCores : float64; MemBytes : Z; MemLimit : Z; MemPercent : float64;
  NetRx : Z; NetTx : Z; NetDrops : Z; NetErrors : Z;
  NetRxRate : float64; NetTxRate : float64; NetRxRateOK : bool; NetTxRateOK : bool; Sampled : bool
}.

(** The value a rule's metric names; [None] when it is not available. *)
Definition metric (cs : ContainerStat) (name : string) : option float64 :=
  if String.eqb name "mem" then Some (MemPercent cs)
  else if String.eqb name "cpu_total" then
    (if fle (CPUCores cs) fzero then None else Some (fdiv (CPUPercent cs) (CPUCores cs)))
  else if String.eqb name "netrx_rate" then (if NetRxRateOK cs then Some (NetRxRate cs) else None)
  else if String.eqb name "nettx_rate" then (if NetTxRateOK cs then Some (NetTxRate cs) else None)
  else Some (CPUPercent cs).

(** One container's throughput from its previous sample, over [elapsed] seconds. *)
Definition net_rate (elapsed : float64) (p cs : ContainerStat) : ContainerStat :=
  let rx := NetRx p <=? NetRx cs in
  let tx := NetTx p <=? NetTx cs in
  mkCS (HostID cs) (HostName cs) (csID cs) (csName cs) (csState cs) (csProject cs) (CPUPercent cs) (CPUCores cs)
    (MemBytes cs) (MemLimit cs) (MemPercent cs) (NetRx cs) (NetTx cs) (NetDrops cs) (NetErrors cs)
    (if rx then fdiv (of_Z (NetRx cs - NetRx p)) elapsed else NetRxRate cs)
    (if tx then fdiv (of_Z (NetTx cs - NetTx p)) elapsed else NetTxRate cs)
    (rx || NetRxRateOK cs) (tx || NetTxRateOK cs) (Sampled cs).

Definition applyNetRates (next prev : gmap string ContainerStat) (elapsed : float64)
    : gmap string ContainerStat :=
  if fle elapsed fzero then next
  else map_imap (fun id cs => Some
    (if negb (Sampled cs) then cs
     else match prev !! id with
          | Some p => if Sampled p then net_rate elapsed p cs else cs
          | None => cs
          end)) next.

(** ** Formatting *)

Definition humanDuration (sec : Z) : string :=
  if sec <? 60 then FormatInt sec +:+ "s"
  else if sec <? 3600 then FormatInt (sec / 60) +:+ "m " +:+ FormatInt (sec mod 60) +:+ "s"
  else FormatInt (sec / 3600) +:+ "h " +:+ FormatInt (sec mod 3600 / 60) +:+ "m".

Fixpoint scale_bytes (f : float64) (units : list string) : string :=
  match units with
  | [] => FormatFixed 1 f +:+ " EiB"
  | u :: rest =>
      let f := fdiv f (of_Z 1024) in
      if flt f (of_Z 1024) then FormatFixed 1 f +:+ " " +:+ u else scale_bytes f rest
  end.

Definition humanBytes (b : Z) : string :=
  if flt (of_Z b) (of_Z 1024) then FormatInt b +:+ " B"
  else scale_bytes (of_Z b) ["KiB"; "MiB"; "GiB"; "TiB"; "PiB"].

Definition resourceMessage (cfg : resourceConfig) (cs : ContainerStat) (val : float64) : string :=
  let tail := " " +:+ Op cfg +:+ " " +:+ FormatFixed 0 (Threshold cfg) +:+ "% for " +:+ FormatInt (DurationSec cfg) +:+ "s" in
  if String.eqb (Metric cfg) "mem" then
    if 0 <? MemLimit cs then
      "MEM " +:+ humanBytes (MemBytes cs) +:+ " / " +:+ humanBytes (MemLimit cs) +:+ " (" +:+ FormatFixed 1 val
        +:+ "% of limit)" +:+ tail
    else "MEM " +:+ humanBytes (MemBytes cs) +:+ " (" +:+ FormatFixed 1 val +:+ "%)" +:+ tail
  else if String.eqb (Metric cfg) "cpu_total" then
    "CPU " +:+ FormatFixed 1 val +:+ "% of " +:+ FormatFixed 0 (CPUCores cs) +:+ " cores" +:+ tail
  else if one_of (Metric cfg) ["netrx_rate"; "nettx_rate"] then
    (if String.eqb (Metric cfg) "nettx_rate" then "TX" else "RX") +:+ " " +:+ humanBytes (to_uint64 val) +:+ "/s "
      +:+ Op cfg +:+ " " +:+ humanBytes (to_uint64 (Threshold cfg)) +:+ "/s for " +:+ FormatInt (DurationSec cfg) +:+ "s"
  else
    "CPU " +:+ FormatFixed 1 val +:+ "% of one core (" +:+ FormatFixed 0 (CPUCores cs) +:+ " cores available)" +:+ tail.

Definition networkMetricLabel (m : string) : string :=
  if String.eqb m "neterrors" then "interface errors" else "dropped packets".

(** ** Keys and helpers *)
Definition matchTarget (target name : string) : bool :=
  let target := TrimSpace target in
  if String.eqb target "" || String.eqb target "*" then true else Contains name target.

Definition ruleKey (ruleID : Z) (cid : string) : string := FormatInt ruleID +:+ ":" +:+ cid.
Definition stateKey (hostID : Z) (cid metric : string) : string :=
  FormatInt hostID +:+ ":" +:+ cid +:+ ":" +:+ metric.

Definition severityRank (s : string) : Z :=
  if String.eqb s "critical" then 3 else if String.eqb s "warning" then 2 else if String.eqb s "info" then 1 else 0.

Definition orNow (t fallback : Z) : Z := if IsZero t then fallback else t.

(** int(d.Seconds()) *)
Definition int_seconds (d : Z) : Z := trunc (Seconds d).

Definition truncate (s : string) (n : nat) : string :=
  if (n <? String.length s)%nat then stake n s +:+ "…" else s.

(** ** State *)
Record HostHealth := mkHealth { Reachable : bool; Since : Z; LastCheck : Z; hErr : string }.

(** A delivery handed to a goroutine. *)
Inductive Outgoing :=
  | DWebhook (webhook : Z) (ev : AlertEvent)
  | DEmail (ruleEmails : list string) (ev : AlertEvent).

Record Mon := mkMon {
  ticks : nat;                               (* oracle readings so far *)
  cooldowns : gmap string Z;
  overSince : gmap string Z;
  restarts : gmap string (list Z);
  health : gmap Z HostHealth;
  adb : AlertDB;
  outbox : list Outgoing;
  snapshot : gmap string ContainerStat;
  snapshotAt : Z;
  hist : option memoryStore                  (* nil when recording is off *)
}.

Definition set_ticks x m := mkMon x (cooldowns m) (overSince m) (restarts m) (health m) (adb m) (outbox m) (snapshot m) (snapshotAt m) (hist m).
Definition set_cooldowns x m := mkMon (ticks m) x (overSince m) (restarts m) (health m) (adb m) (outbox m) (snapshot m) (snapshotAt m) (hist m).
Definition set_overSince x m := mkMon (ticks m) (cooldowns m) x (restarts m) (health m) (adb m) (outbox m) (snapshot m) (snapshotAt m) (hist m).
Definition set_restarts x m := mkMon (ticks m) (cooldowns m) (overSince m) x (health m) (adb m) (outbox m) (snapshot m) (snapshotAt m) (hist m).
Definition set_health x m := mkMon (ticks m) (cooldowns m) (overSince m) (restarts m) x (adb m) (outbox m) (snapshot m) (snapshotAt m) (hist m).
Definition set_adb x m := mkMon (ticks m) (cooldowns m) (overSince m) (restarts m) (health m) x (outbox m) (snapshot m) (snapshotAt m) (hist m).
Definition set_outbox x m := mkMon (ticks m) (cooldowns m) (overSince m) (restarts m) (health m) (adb m) x (snapshot m) (snapshotAt m) (hist m).
Definition set_hist x m := mkMon (ticks m) (cooldowns m) (overSince m) (restarts m) (health m) (adb m) (outbox m) (snapshot m) (snapshotAt m) x.
Definition set_snapshot sn at_ m := mkMon (ticks m) (cooldowns m) (overSince m) (restarts m) (health m) (adb m) (outbox m) sn at_ (hist m).

(** What surrounds the engine.  The [n]-th reading of the clock is [clock n], the
    maintenance windows it then finds are [windows n], and the [n]-th range over a
    map visits its entries in the order [shuffle n] puts them. *)
Class Env := {
  clock : nat -> Z;
  windows : nat -> Windows;
  shuffle : forall {A : Type}, nat -> list A -> list A;
  shuffle_perm : forall A n (l : list A), shuffle n l ≡ₚ l;
  hostdb : DB;
  qfault : Query -> bool;
  wfault : WQuery -> bool;
  afault : AQuery -> bool;
  tzdb : string -> option Location;
  ToLower : string -> string;
  ToUpper : string -> string;
  env_decoder :: Decoder
}.

Section Engine.
Context `{E : Env}.

Definition tick (m : Mon) : Mon := set_ticks (S (ticks m)) m.
(** time.Now() *)
Definition Now (m : Mon) : Mon * Z := (tick m, clock (ticks m)).
(** for … := range map *)
Definition Range {A} (l : list A) (m : Mon) : Mon * list A := (tick m, shuffle (ticks m) l).

(** store.FindActiveMaintenanceWindow(…, time.Now()) *)
Definition active_window (hostID : Z) (project name : string) (ruleID : Z) (severity : string) (m : Mon)
    : Mon * option MaintenanceWindow :=
  let '(m', now) := Now m in
  (m', match FindActiveMaintenanceWindow tzdb ToLower qfault wfault hostdb (windows (ticks m)) hostID project name
               ruleID severity now with
       | Ok w => w
       | Err _ => None
       end).

(** ** Emitting *)

(** A store call whose error is only logged. *)
Definition store_call {A} (op : stM AlertDB StoreErr A) (m : Mon) : Mon * option A :=
  match op (adb m) with
  | (a, Ok v) => (set_adb a m, Some v)
  | (a, Err _) => (set_adb a m, None)
  end.

Definition suppress (win : option MaintenanceWindow) (ev : AlertEvent) : AlertEvent :=
  match win with
  | None => ev
  | Some w => mkEvent (eID ev) (eRuleID ev) (eRuleName ev) (eType ev) (eSeverity ev) (eHostID ev) (eHostName ev)
      (eContainerID ev) (eContainerName ev) (eProject ev) (eMessage ev) (eValue ev) (eAcknowledged ev) (eCreatedAt ev)
      (eKind ev) (eDurationSec ev) (eAcknowledgedBy ev) (eAcknowledgedAt ev) true (wID w)
  end.

Definition with_id (id : option Z) (ev : AlertEvent) : AlertEvent :=
  match id with
  | None => ev
  | Some id => mkEvent id (eRuleID ev) (eRuleName ev) (eType ev) (eSeverity ev) (eHostID ev) (eHostName ev)
      (eContainerID ev) (eContainerName ev) (eProject ev) (eMessage ev) (eValue ev) (eAcknowledged ev) (eCreatedAt ev)
      (eKind ev) (eDurationSec ev) (eAcknowledgedBy ev) (eAcknowledgedAt ev) (eSuppressed ev) (eSuppressedBy ev)
  end.

Definition insert_event (ev : AlertEvent) (m : Mon) : Mon * option Z :=
  let '(m, now) := Now m in store_call (InsertAlertEvent afault ev now) m.

(** Returns whether an active maintenance window suppressed the delivery. *)
Definition emit (r : AlertRule) (hostID : Z) (hostName cid name project message : string)
    (value : option float64) (kind : string) (durationSec : Z) (m : Mon) : Mon * bool :=
  let severity := orDefault (aSeverity r) "info" in
  let ev := mkEvent 0 (aID r) (aName r) (aType r) (aSeverity r) hostID hostName cid name project message value
              false 0 kind durationSec "" None false 0 in
  let '(m, win) := active_window hostID project name (aID r) severity m in
  let ev := suppress win ev in
  if eSuppressed ev && String.eqb kind KindRepeat then (m, true)
  else
    let '(m, id) := insert_event ev m in
    let ev := with_id id ev in
    if eSuppressed ev then (m, true)
    else
      let hook := match aWebhookID r with Some w => [DWebhook w ev] | None => [] end in
      let mail := if aEmail r then [DEmail (aEmails r) ev] else [] in
      (set_outbox (outbox m ++ hook ++ mail) m, false).

Definition silencedNow (hostID : Z) (project name : string) (r : AlertRule) (m : Mon) : Mon * bool :=
  let severity := orDefault (aSeverity r) "info" in
  let '(m, win) := active_window hostID project name (aID r) severity m in
  (m, match win with Some _ => true | None => false end).

(** The edge-triggered path: a cooldown per rule and container. *)
Definition fire (r : AlertRule) (hostID : Z) (hostName cid name project message : string)
    (value : option float64) (m : Mon) : Mon :=
  let key := ruleKey (aID r) cid in
  let cooldown := dur_mul (aCooldownSec r) second in
  let '(m, blocked) := match cooldowns m !! key with
    | Some last => let '(m, now) := Now m in (m, time_sub now last <? cooldown)
    | None => (m, false)
    end in
  if blocked : bool then m
  else
    let '(m, suppressed) := emit r hostID hostName cid name project message value KindFiring 0 m in
    if suppressed : bool then m
    else let '(m, now) := Now m in set_cooldowns (<[key := now]> (cooldowns m)) m.

(** A system event: no rule, so no webhook and the instance's recipients. *)
Definition NotifySystem (ev : AlertEvent) (m : Mon) : Mon * bool :=
  let '(m, win) := active_window (eHostID ev) (eProject ev) (eContainerName ev) 0 (eSeverity ev) m in
  let ev := suppress win ev in
  let '(m, id) := insert_event ev m in
  let ev := with_id id ev in
  let m := if eSuppressed ev then m else set_outbox (outbox m ++ [DEmail [] ev]) m in
  (m, match id with Some _ => true | None => false end).

(** ** Resource conditions *)
Record candidate := mkCand { cRule : AlertRule; cCfg : resourceConfig; cStat : ContainerStat; cValue : float64 }.

Definition saveState (cs : ContainerStat) (cfg : resourceConfig) (r : AlertRule) (value : option float64)
    (startedAt notifiedAt : Z) (m : Mon) : Mon :=
  let '(m, startedAt) := if IsZero startedAt then Now m else (m, startedAt) in
  (store_call (UpsertAlertState afault (mkAState (HostID cs) (HostName cs) (csID cs) (csName cs) (metricKey cfg)
     (aID r) (aName r) (aSeverity r) value startedAt notifiedAt)) m).1.

(** The winners of the conditions and the conditions whose metric was unreadable. *)
Record Scan := mkScan { winners : gmap string candidate; unmeasured : gset string }.

(** One rule against one sample. *)
Definition scan_one (r : AlertRule) (cfg : resourceConfig) (cs : ContainerStat) (mw : Mon * Scan) : Mon * Scan :=
  let '(m, sc) := mw in
  if negb (String.eqb (csState cs) "running") || negb (matchTarget (aTarget r) (csName cs)) then (m, sc)
  else match metric cs (Metric cfg) with
  | None => (m, mkScan (winners sc) ({[stateKey (HostID cs) (csID cs) (metricKey cfg)]} ∪ unmeasured sc))
  | Some val =>
      let key := ruleKey (aID r) (csID cs) in
      if negb (exceeds cfg val) then (set_overSince (delete key (overSince m)) m, sc)
      else
        let '(m, now) := Now m in
        let since := default now (overSince m !! key) in
        let m := set_overSince (<[key := since]> (overSince m)) m in
        let '(m, now) := Now m in
        if time_sub now since <? dur_mul (DurationSec cfg) second then (m, sc)
        else
          let ck := stateKey (HostID cs) (csID cs) (metricKey cfg) in
          if match winners sc !! ck with
             | Some cur => severityRank (aSeverity r) <=? severityRank (aSeverity (cRule cur))
             | None => false
             end
          then (m, sc)
          else (m, mkScan (<[ck := mkCand r cfg cs val]> (winners sc)) (unmeasured sc))
  end.

Definition scan_rule (snap : list ContainerStat) (mw : Mon * Scan) (r : AlertRule) : Mon * Scan :=
  if negb (aEnabled r) || negb (String.eqb (aType r) "resource") then mw
  else match parseResource (aConfig r) with
  | None => mw
  | Some cfg =>
      let '(m, sc) := mw in
      let '(m, order) := Range snap m in
      foldl (fun mw cs => scan_one r cfg cs mw) (m, sc) order
  end.

Definition scan (rules : list AlertRule) (snap : list ContainerStat) (m : Mon) : Mon * Scan :=
  foldl (scan_rule snap) (m, mkScan ∅ ∅) rules.

(** emit for a condition's winner *)
Definition emit_for (c : candidate) (kind : string) (dur : Z) (m : Mon) : Mon * bool :=
  let cs := cStat c in
  emit (cRule c) (HostID cs) (HostName cs) (csID cs) (csName cs) (csProject cs)
    (resourceMessage (cCfg c) cs (cValue c)) (Some (cValue c)) kind dur m.

Definition save_for (c : candidate) (startedAt notifiedAt : Z) (m : Mon) : Mon :=
  saveState (cStat c) (cCfg c) (cRule c) (Some (cValue c)) startedAt notifiedAt m.

(** The state stored after an emit: a suppressed one keeps the old NotifiedAt,
    unless it only repeated something that was delivered before. *)
Definition after_emit (c : candidate) (now started notified : Z) (suppressed repeated : bool) (m : Mon) : Mon :=
  let notifiedAt := if suppressed && negb (repeated && negb (IsZero notified)) then notified else now in
  save_for c (orNow started now) notifiedAt m.

(** The [switch] over a winner. *)
Definition announce (now : Z) (prev : gmap string AlertState) (ck : string) (c : candidate) (m : Mon) : Mon :=
  let rank := severityRank (aSeverity (cRule c)) in
  match prev !! ck with
  | None =>
      let '(m, sup) := emit_for c KindFiring 0 m in after_emit c now now 0 sup false m
  | Some st =>
      let dur := int_seconds (time_sub now (tStartedAt st)) in
      if severityRank (tSeverity st) <? rank then
        let '(m, sup) := emit_for c KindEscalated dur m in
        after_emit c now (tStartedAt st) (tNotifiedAt st) sup false m
      else if rank <? severityRank (tSeverity st) then
        let '(m, sup) := emit_for c KindEased dur m in
        after_emit c now (tStartedAt st) (tNotifiedAt st) sup false m
      else if (0 <? aCooldownSec (cRule c)) &&
              (dur_mul (aCooldownSec (cRule c)) second <=? time_sub now (tNotifiedAt st)) then
        let first := IsZero (tNotifiedAt st) in
        let '(m, quiet) := if first then silencedNow (HostID (cStat c)) (csProject (cStat c)) (csName (cStat c)) (cRule c) m
                           else (m, false) in
        if quiet : bool then save_for c (tStartedAt st) (tNotifiedAt st) m
        else
          let '(m, sup) := emit_for c (if first then KindFiring else KindRepeat) dur m in
          after_emit c now (tStartedAt st) (tNotifiedAt st) sup (negb first) m
      else save_for c (tStartedAt st) (tNotifiedAt st) m
  end.

(** The rule a resolution is emitted under: no webhook, no e-mail. *)
Definition resolved_rule (st : AlertState) : AlertRule :=
  mkRule (tRuleID st) (tRuleName st) false "resource" "" "" "info" None false [] 0.

Definition resolve (now : Z) (snap : gmap string ContainerStat) (sampled : gset Z) (sc : Scan)
    (m : Mon) (kst : string * AlertState) : Mon :=
  let '(ck, st) := kst in
  match winners sc !! ck with
  | Some _ => m
  | None =>
      if negb (bool_decide (tHostID st ∈ sampled)) then m
      else if bool_decide (ck ∈ unmeasured sc) then m
      else
        let dur := int_seconds (time_sub now (tStartedAt st)) in
        let project := match snap !! tContainerID st with Some cs => csProject cs | None => "" end in
        let '(m, _) := emit (resolved_rule st) (tHostID st) (tHostName st) (tContainerID st) (tContainerName st) project
          (ToUpper (tMetric st) +:+ " back to normal after " +:+ humanDuration dur) None KindResolved dur m in
        (store_call (DeleteAlertState afault (tHostID st) (tContainerID st) (tMetric st)) m).1
  end.

Definition prev_states (states : list AlertState) : gmap string AlertState :=
  build_map (fun st => stateKey (tHostID st) (tContainerID st) (tMetric st)) Some ∅ states.

Definition evalResourceRules (snap : gmap string ContainerStat) (sampled : gset Z) (m : Mon) : Mon :=
  match ListAlertRules afault (adb m), ListAlertStates afault (adb m) with
  | Ok rules, Ok states =>
      let prev := prev_states states in
      let '(m, sc) := scan rules ((map_to_list snap).*2) m in
      let '(m, now) := Now m in
      let '(m, order) := Range (map_to_list (winners sc)) m in
      let m := foldl (fun m kc => announce now prev kc.1 kc.2 m) m order in
      let '(m, order) := Range (map_to_list prev) m in
      foldl (resolve now snap sampled sc) m order
  | _, _ => m
  end.

(** ** Network rules *)
Definition net_key (cfg : networkConfig) : string * Z :=
  (if String.eqb (ncMetric cfg) "neterrors" then MetricNetErrors else MetricNetDrops, ncWindowSec cfg).

(** The queries already tried this poll and the answers of those that worked. *)
Record NetScan := mkNetScan {
  attempted : gset (string * Z);
  net_series : gmap (string * Z) (gmap string (list Point))
}.

Definition net_one (r : AlertRule) (cfg : networkConfig) (byContainer : gmap string (list Point))
    (m : Mon) (cs : ContainerStat) : Mon :=
  if negb (String.eqb (csState cs) "running") || negb (matchTarget (aTarget r) (csName cs)) then m
  else match Increase (default [] (byContainer !! csID cs)) with
  | None => m
  | Some inc =>
      if flt inc (ncThreshold cfg) then m
      else fire r (HostID cs) (HostName cs) (csID cs) (csName cs) (csProject cs)
             (networkMetricLabel (ncMetric cfg) +:+ " increased by " +:+ FormatFixed 0 inc +:+ " in the last "
                +:+ humanDuration (ncWindowSec cfg)) (Some inc) m
  end.

Definition query_once {HR : HistoryReader} (now : Z) (ids : list string) (key : string * Z) (ns : NetScan) : NetScan :=
  if bool_decide (key ∈ attempted ns) then ns
  else mkNetScan ({[key]} ∪ attempted ns)
         (match QueryAll key.1 (now + wrap64 (- dur_mul key.2 second)) ids with
          | Some pts => <[key := pts]> (net_series ns)
          | None => net_series ns
          end).

Definition net_rule {HR : HistoryReader} (now : Z) (snap : list ContainerStat) (ids : list string)
    (mn : Mon * NetScan) (r : AlertRule) : Mon * NetScan :=
  if negb (aEnabled r) || negb (String.eqb (aType r) "network") then mn
  else match parseNetwork (aConfig r) with
  | None => mn
  | Some cfg =>
      let '(m, ns) := mn in
      let ns := query_once now ids (net_key cfg) ns in
      match net_series ns !! net_key cfg with
      | None => (m, ns)
      | Some byContainer =>
          let '(m, order) := Range snap m in
          (foldl (net_one r cfg byContainer) m order, ns)
      end
  end.

Definition running_ids (snap : list ContainerStat) : list string :=
  csID <$> filter (fun cs => csState cs = "running") snap.

Definition evalNetworkRules {HR : HistoryReader} (snap : gmap string ContainerStat) (m : Mon) : Mon :=
  match ListAlertRules afault (adb m) with
  | Err _ => m
  | Ok rules =>
      let '(m, now) := Now m in
      let all := (map_to_list snap).*2 in
      let '(m, order) := Range all m in
      (foldl (net_rule now all (running_ids order)) (m, mkNetScan ∅ ∅) rules).1
  end.

(** ** A poll *)

Definition history_sample (now : Z) (cs : ContainerStat) : Sample :=
  mkSample (csID cs) (HostID cs) now (CPUPercent cs) (MemPercent cs) (of_Z (MemBytes cs))
    (of_Z (NetRx cs)) (of_Z (NetTx cs)) (of_Z (NetDrops cs)) (of_Z (NetErrors cs)).

Definition recordHistory (snap : gmap string ContainerStat) (m : Mon) : Mon :=
  match hist m with
  | None => m
  | Some h =>
      let '(m, now) := Now m in
      let '(m, order) := Range ((map_to_list snap).*2) m in
      match history_sample now <$> filter (fun cs => csState cs = "running" /\ Sampled cs = true) order with
      | [] => m
      | samples => let '(m, now) := Now m in set_hist (Some (mem_Record now samples h)) m
      end
  end.

(** pollStats, once the daemons have answered: [next] is what was sampled and
    [sampled] the hosts whose container list came back. *)
Definition pollStats (next : gmap string ContainerStat) (sampled : gset Z) (m : Mon) : Mon :=
  let '(m, now) := Now m in
  let next := if IsZero (snapshotAt m) then next
              else applyNetRates next (snapshot m) (Seconds (time_sub now (snapshotAt m))) in
  let m := set_snapshot next now m in
  let m := recordHistory next m in
  let m := evalResourceRules next sampled m in
  match hist m with
  | None => m
  | Some h => evalNetworkRules (HR := memory_reader h) next m
  end.

(** ** Restarts and container events *)
Definition restartRetention : Z := hour.

Definition recordRestart (cid : string) (m : Mon) : Mon :=
  let '(m, now) := Now m in
  let cutoff := now - restartRetention in
  let kept := filter (fun t => After t cutoff = true) (default [] (restarts m !! cid)) in
  set_restarts (<[cid := kept ++ [now]]> (restarts m)) m.

Definition restartCount (cid : string) (windowSec : Z) (m : Mon) : Mon * Z :=
  let '(m, now) := Now m in
  let cutoff := now + wrap64 (- dur_mul windowSec second) in
  let kept := filter (fun t => After t cutoff = true) (default [] (restarts m !! cid)) in
  (set_restarts (<[cid := kept]> (restarts m)) m, Z.of_nat (length kept)).

(** docker.Event *)
Record Event := mkDEvent { evAction : string; evContainerID : string; evContainerName : string; evProject : string }.

Definition is_start (action : string) : bool := one_of action ["start"; "restart"].

Definition handle_rule (hostID : Z) (hostName : string) (e : Event) (m : Mon) (r : AlertRule) : Mon :=
  if negb (aEnabled r) || negb (matchTarget (aTarget r) (evContainerName e)) then m
  else if String.eqb (aType r) "state" then
    match parseState (aConfig r) with
    | Some cfg =>
        if matches cfg (evAction e)
        then fire r hostID hostName (evContainerID e) (evContainerName e) (evProject e)
               ("container event: " +:+ evAction e) None m
        else m
    | None => m
    end
  else if String.eqb (aType r) "restart" then
    if is_start (evAction e) then
      match parseRestart (aConfig r) with
      | Some cfg =>
          let '(m, n) := restartCount (evContainerID e) (rcWindowSec cfg) m in
          if Count cfg <=? n
          then fire r hostID hostName (evContainerID e) (evContainerName e) (evProject e)
                 ("restarted " +:+ FormatInt n +:+ " times in " +:+ FormatInt (rcWindowSec cfg) +:+ "s (possible crash loop)")
                 (Some (of_Z n)) m
          else m
      | None => m
      end
    else m
  else m.

Definition handleEvent (hostID : Z) (hostName : string) (e : Event) (m : Mon) : Mon :=
  let m := if is_start (evAction e) then recordRestart (evContainerID e) m else m in
  match ListAlertRules afault (adb m) with
  | Err _ => m
  | Ok rules => foldl (handle_rule hostID hostName e) m rules
  end.

(** ** Host reachability *)

(** fmt's %q and the rounding of a downtime, left to the caller's rendering. *)
Context (host_message : string -> option Z -> string).

Definition fireHostAlert (hostID : Z) (hostName : string) (online : bool) (downtime : Z) (m : Mon) : Mon :=
  (NotifySystem (mkEvent 0 0 "Host reachability" "host" (if online then "info" else "critical") hostID hostName "" "" ""
     (host_message hostName (if online then Some downtime else None)) None false 0 "" 0 "" None false 0) m).1.

(** [pingErr]: the ping's error text, [None] when it answered. *)
Definition recordHealth (hostID : Z) (hostName : string) (pingErr : option string) (now : Z) (m : Mon) : Mon :=
  let reachable := match pingErr with None => true | Some _ => false end in
  let prev := health m !! hostID in
  let since := match prev with
    | Some p => if Bool.eqb (Reachable p) reachable then Since p else now
    | None => now
    end in
  let m := set_health (<[hostID := mkHealth reachable since now (default "" pingErr)]> (health m)) m in
  match prev with
  | Some p => if Bool.eqb (Reachable p) reachable then m
              else fireHostAlert hostID hostName reachable (time_sub now (Since p)) m
  | None => m
  end.
End Engine.
