(* ===== verification/MonitorSpec.v ===== *)
(** * What the alert engine guarantees

    Effects of the engine's primitives, then the theorems about delivery and
    silence, the conditions of resource rules, the cooldown of edge-triggered
    rules, and host reachability. *)
From S2P Require Import Prelude GoStrings Floats Users Roles Calendar Maintenance Alerts History Monitor.

(** ** Effects of the primitives *)
Section Effects.
Context `{E : Env}.

(** Everything but the clock, the event log and the outbox. *)
Record same_engine (m m' : Mon) : Prop := {
  se_cooldowns : cooldowns m' = cooldowns m;
  se_overSince : overSince m' = overSince m;
  se_restarts : restarts m' = restarts m;
  se_health : health m' = health m;
  se_rules : arules (adb m') = arules (adb m);
  se_states : astates (adb m') = astates (adb m);
  se_ticks : (ticks m <= ticks m')%nat
}.

Lemma same_engine_refl m : same_engine m m.
Proof. by split. Qed.

Lemma same_engine_trans m1 m2 m3 : same_engine m1 m2 -> same_engine m2 m3 -> same_engine m1 m3.
Proof. intros [] []. split; try congruence. lia. Qed.

(** The events appended between two states. *)
Definition appended (m m' : Mon) (evs : list AlertEvent) : Prop :=
  aevents (adb m') = aevents (adb m) ++ evs.

Lemma appended_nil m m' : aevents (adb m') = aevents (adb m) -> appended m m' [].
Proof. unfold appended. by rewrite app_nil_r. Qed.

Lemma appended_trans m1 m2 m3 e1 e2 : appended m1 m2 e1 -> appended m2 m3 e2 -> appended m1 m3 (e1 ++ e2).
Proof. unfold appended. intros -> ->. by rewrite (assoc_L (++)). Qed.

(** Whether a window covers the scope of an alert at the reading [n] of the clock. *)
Definition covered (n : nat) (hostID : Z) (project name : string) (ruleID : Z) (severity : string) : bool :=
  match FindActiveMaintenanceWindow tzdb ToLower qfault wfault hostdb (windows n) hostID project name ruleID severity (clock n) with
  | Ok (Some _) => true
  | _ => false
  end.

(** The event [emit] builds, as far as callers depend on it. *)
Definition event_of (r : AlertRule) (hostID : Z) (cid name : string) (kind : string) (sup : bool) (e : AlertEvent) : Prop :=
  eHostID e = hostID /\ eContainerID e = cid /\ eContainerName e = name /\ eRuleID e = aID r /\
  eKind e = orDefault kind KindFiring /\ eSuppressed e = sup /\ eType e = aType r.

Lemma store_call_event ev m :
  let '(m', id) := insert_event ev m in
  same_engine m m' /\ outbox m' = outbox m /\
  exists evs, appended m m' evs /\
    if afault QInsertEvent then evs = [] /\ id = None
    else exists e, evs = [e] /\ id = Some (eID e) /\ eHostID e = eHostID ev /\ eContainerID e = eContainerID ev /\
      eContainerName e = eContainerName ev /\ eRuleID e = eRuleID ev /\ eKind e = orDefault (eKind ev) KindFiring /\
      eSuppressed e = eSuppressed ev /\ eType e = eType ev.
Proof.
  unfold insert_event, store_call, InsertAlertEvent, Now. simpl.
  destruct (afault QInsertEvent); simpl.
  - split; [by split; simpl; try lia|]. split; [done|]. exists []. split; [by apply appended_nil|done].
  - split; [by split; simpl; try lia|]. split; [done|]. eexists. split; [reflexivity|].
    eexists. split; [reflexivity|]. done.
Qed.

Lemma emit_effect r hostID hostName cid name project message value kind dur m :
  let sup := covered (ticks m) hostID project name (aID r) (orDefault (aSeverity r) "info") in
  let '(m', b) := emit r hostID hostName cid name project message value kind dur m in
  b = sup /\ same_engine m m' /\ (ticks m < ticks m')%nat /\
  (exists evs, appended m m' evs /\
     if (sup && String.eqb kind KindRepeat) || afault QInsertEvent then evs = []
     else exists e, evs = [e] /\ event_of r hostID cid name kind sup e) /\
  (if sup then outbox m' = outbox m
   else exists ev, outbox m' = outbox m ++
          (match aWebhookID r with Some w => [DWebhook w ev] | None => [] end) ++
          (if aEmail r then [DEmail (aEmails r) ev] else []) /\ eSuppressed ev = false).
Proof.
  unfold emit, covered. cbv zeta. destruct (active_window _ _ _ _ _ m) as [m1 win] eqn:Ew.
  unfold active_window, Now in Ew. injection Ew as <- Ew.
  assert (Hsup : match FindActiveMaintenanceWindow tzdb ToLower qfault wfault hostdb (windows (ticks m)) hostID project
      name (aID r) (orDefault (aSeverity r) "info") (clock (ticks m)) with Ok (Some _) => true | _ => false end
    = match win with Some _ => true | None => false end) by (rewrite <- Ew; by case_match; [case_match|]).
  rewrite Hsup. clear Hsup Ew.
  set (ev := mkEvent 0 _ _ _ _ _ _ _ _ _ _ _ _ _ _ _ _ _ _ _).
  assert (Hev : eSuppressed (suppress win ev) = match win with Some _ => true | None => false end) by (by destruct win).
  rewrite Hev. destruct (match win with Some _ => true | None => false end && String.eqb kind KindRepeat) eqn:Er.
  { apply andb_true_iff in Er as [Hw ?]. rewrite Hw.
    split; [done|]. split; [by split; simpl; try lia|]. split; [simpl; lia|].
    split; [|done]. exists []. split; [by apply appended_nil|]. done. }
  pose proof (store_call_event (suppress win ev) (tick m)) as Hi.
  destruct (insert_event _ _) as [m2 id]. destruct Hi as (Hse & Hout & evs & Happ & Hid).
  assert (Hse' : same_engine m m2).
  { eapply same_engine_trans; [|exact Hse]. by split; simpl; try lia. }
  assert (Hlt : (ticks m < ticks m2)%nat) by (destruct Hse; simpl in *; lia).
  assert (Hevs : exists evs, appended m m2 evs /\
     if false || afault QInsertEvent then evs = []
     else exists e, evs = [e] /\ event_of r hostID cid name kind (match win with Some _ => true | None => false end) e).
  { exists evs. split; [exact Happ|]. simpl. destruct (afault QInsertEvent); [by destruct Hid|].
    destruct Hid as (e & -> & _ & ?). exists e. split; [done|].
    unfold event_of. destruct win; simpl in *; intuition. }
  assert (Hs : eSuppressed (with_id id (suppress win ev)) = match win with Some _ => true | None => false end)
    by (by destruct id, win).
  rewrite Hs. destruct win as [w|].
  - split; [done|]. split; [done|]. split; [done|]. split; [done|]. done.
  - split; [done|]. split; [|split; [simpl; done|split; [exact Hevs|]]].
    + destruct Hse'. by split.
    + simpl. eexists. split; [by rewrite Hout|done].
Qed.
End Effects.

(** ** Delivery and silence *)

(** Some stored window is active and covers the alert, at reading [n]. *)
Definition silenced_at `{E : Env} (n : nat) (hostID : Z) (project name : string) (ruleID : Z) (severity : string) : Prop :=
  exists w, w ∈ rows (windows n) /\ Active tzdb w (clock n) = true /\
    Matches ToLower w (NormalizeHostID qfault hostID hostdb) project name ruleID severity = true.

Lemma covered_iff `{E : Env} n h project name rule sev :
  0 <= clock n -> wfault WCandidates = false ->
  covered n h project name rule sev = true <-> silenced_at n h project name rule sev.
Proof.
  intros Hn Hw. unfold covered, silenced_at.
  destruct (find_active_cases tzdb ToLower qfault wfault hostdb (windows n) h project name rule sev (clock n) Hn Hw)
    as (r & Hr1 & Hr).
  rewrite Hr1. destruct r as [w|]; [split; [intros _; by exists w|done]|].
  split; [done|]. intros (w & Hin & Ha & Hm). exfalso. by apply (Hr w).
Qed.

(** C21: a maintenance window stops the paging, not the observing, and nothing else
    stops it.  When the tables can be read and written, an alert is handed to its
    rule's webhook and e-mail recipients exactly when no stored window is active
    and covers its host, project, container, rule and severity at that instant;
    an alert is recorded either way, flagged as silenced when it was, with the one
    exception of a silenced repeat, which is neither delivered nor stored. *)
Theorem alert_delivered_or_silenced `{E : Env} r hostID hostName cid name project message value kind dur m m' b :
  0 <= clock (ticks m) -> wfault WCandidates = false -> afault QInsertEvent = false ->
  emit r hostID hostName cid name project message value kind dur m = (m', b) ->
  let silenced := silenced_at (ticks m) hostID project name (aID r) (orDefault (aSeverity r) "info") in
  (b = true <-> silenced) /\
  (silenced -> outbox m' = outbox m) /\
  (~ silenced -> exists ev, outbox m' = outbox m ++
      (match aWebhookID r with Some w => [DWebhook w ev] | None => [] end) ++
      (if aEmail r then [DEmail (aEmails r) ev] else [])) /\
  exists evs, aevents (adb m') = aevents (adb m) ++ evs /\
    ((silenced /\ kind = KindRepeat /\ evs = []) \/
     (~ (silenced /\ kind = KindRepeat) /\ exists e, evs = [e] /\ (eSuppressed e = true <-> silenced) /\
        eHostID e = hostID /\ eContainerID e = cid /\ eKind e = orDefault kind KindFiring)).
Proof.
  intros Hn Hw Hi He. cbv zeta.
  pose proof (emit_effect r hostID hostName cid name project message value kind dur m) as H. cbv zeta in H.
  rewrite He in H. destruct H as (-> & _ & _ & (evs & Happ & Hevs) & Hout).
  pose proof (covered_iff (ticks m) hostID project name (aID r) (orDefault (aSeverity r) "info") Hn Hw) as Hc.
  set (silenced := silenced_at _ _ _ _ _ _) in *.
  destruct (covered _ _ _ _ _ _) eqn:Ec; simpl in Hevs, Hout.
  - assert silenced as Hs by (by apply Hc).
    split; [done|]. split; [done|]. split; [done|]. exists evs. split; [done|]. rewrite Hi, orb_false_r in Hevs.
    destruct (String.eqb kind KindRepeat) eqn:Ek.
    + apply String.eqb_eq in Ek. by left.
    + apply String.eqb_neq in Ek. right. split; [intros [_ Hk]; by apply Ek|]. destruct Hevs as (e & -> & Hev).
      exists e. unfold event_of in Hev. split; [done|]. intuition congruence.
  - assert (~ silenced) as Hs by (intros Hs; apply Hc in Hs; done).
    split; [done|]. split; [done|]. split; [intros _; destruct Hout as (ev & -> & _); eauto|].
    exists evs. split; [done|]. rewrite Hi in Hevs. destruct Hevs as (e & -> & Hev).
    right. split; [by intros [? _]|]. exists e. unfold event_of in Hev. split; [done|]. intuition congruence.
Qed.

(** ** The cooldown of edge-triggered rules *)

(** The outcome of emitting at clock reading [n], as [fire] leaves it. *)
Definition fired `{E : Env} (sup : bool) (n : nat) (key : string) (m m' : Mon) : Prop :=
  if sup then cooldowns m' = cooldowns m /\ outbox m' = outbox m
  else exists n', (n < n')%nat /\ cooldowns m' = <[key := clock n']> (cooldowns m).

(** only a real delivery consumes the cooldown.  While an earlier delivery of
    the rule for this container is more recent than its cooldown, firing changes
    nothing but the reading of the clock.  Otherwise the alert is emitted: if a
    maintenance window silenced it, no cooldown starts, so the next event after
    the window is not swallowed; if it was delivered, the rule's cooldown for
    this container, and no other, restarts at a clock reading taken after it. *)
Theorem fire_cooldown `{E : Env} r hostID hostName cid name project message value m :
  let key := ruleKey (aID r) cid in
  let cooldown := dur_mul (aCooldownSec r) second in
  let sup n := covered n hostID project name (aID r) (orDefault (aSeverity r) "info") in
  let m' := fire r hostID hostName cid name project message value m in
  match cooldowns m !! key with
  | Some last =>
      if time_sub (clock (ticks m)) last <? cooldown then m' = tick m
      else fired (sup (S (ticks m))) (S (ticks m)) key m m'
  | None => fired (sup (ticks m)) (ticks m) key m m'
  end.
Proof.
  cbv zeta. unfold fire, Now. cbv zeta.
  assert (Hem : forall m0, cooldowns m0 = cooldowns m -> outbox m0 = outbox m ->
    fired (covered (ticks m0) hostID project name (aID r) (orDefault (aSeverity r) "info")) (ticks m0)
      (ruleKey (aID r) cid) m
      (let '(m1, sup) := emit r hostID hostName cid name project message value KindFiring 0 m0 in
       if sup then m1 else set_cooldowns (<[ruleKey (aID r) cid := clock (ticks m1)]> (cooldowns (tick m1))) (tick m1))).
  { intros m0 Hc Ho.
    pose proof (emit_effect r hostID hostName cid name project message value KindFiring 0 m0) as H. cbv zeta in H.
    destruct (emit _ _ _ _ _ _ _ _ _ _ _) as [m1 b]. destruct H as (-> & Hse & Hlt & _ & Hout).
    destruct (covered _ _ _ _ _ _); simpl.
    - destruct Hse. split; congruence.
    - exists (ticks m1). split; [done|]. simpl. by rewrite (se_cooldowns _ _ Hse), Hc. }
  destruct (cooldowns m !! ruleKey (aID r) cid) as [last|].
  - destruct (_ <? _); [done|]. by apply (Hem (tick m)).
  - by apply (Hem m).
Qed.

(** ** Scanning the rules *)
Section Scan.
Context `{E : Env} (rules : list AlertRule) (snap : list ContainerStat).

(** The rule applies to the container, under its parsed configuration. *)
Definition applies (r : AlertRule) (cfg : resourceConfig) (cs : ContainerStat) : Prop :=
  r ∈ rules /\ aEnabled r = true /\ aType r = "resource" /\ parseResource (aConfig r) = Some cfg /\
  cs ∈ snap /\ csState cs = "running" /\ matchTarget (aTarget r) (csName cs) = true.

Definition condition_key (cfg : resourceConfig) (cs : ContainerStat) : string :=
  stateKey (HostID cs) (csID cs) (metricKey cfg).

(** What a scan may hold: winners that are over threshold, unmeasured conditions
    some rule could not read, and nothing changed but the dwell times. *)
Record scan_ok (m0 : Mon) (mw : Mon * Scan) : Prop := {
  so_adb : adb mw.1 = adb m0;
  so_outbox : outbox mw.1 = outbox m0;
  so_ticks : (ticks m0 <= ticks mw.1)%nat;
  so_winner ck c : winners mw.2 !! ck = Some c ->
    applies (cRule c) (cCfg c) (cStat c) /\ metric (cStat c) (Metric (cCfg c)) = Some (cValue c) /\
    exceeds (cCfg c) (cValue c) = true /\ ck = condition_key (cCfg c) (cStat c);
  so_unmeasured ck : ck ∈ unmeasured mw.2 ->
    exists r cfg cs, applies r cfg cs /\ metric cs (Metric cfg) = None /\ ck = condition_key cfg cs
}.

Lemma scan_one_ok m0 mw r cfg cs :
  r ∈ rules -> aEnabled r = true -> aType r = "resource" -> parseResource (aConfig r) = Some cfg -> cs ∈ snap ->
  scan_ok m0 mw -> scan_ok m0 (scan_one r cfg cs mw).
Proof.
  intros Hr He Ht Hp Hin Hok. destruct mw as [m sc]. unfold scan_one.
  destruct (_ || _) eqn:Eg; [done|]. bsimp.
  assert (Happ : applies r cfg cs) by done.
  destruct (metric cs (Metric cfg)) as [val|] eqn:Em.
  - destruct (exceeds cfg val) eqn:Ex; simpl.
    + destruct (_ <? dur_mul _ _); simpl; [destruct Hok; split; simpl in *; eauto; lia|].
      match goal with |- context [if ?b then (_, sc) else _] => destruct b end;
        [destruct Hok; split; simpl in *; eauto; lia|].
      destruct Hok. split; simpl in *; eauto; try lia.
      intros ck c [[<- <-]|[? ?]]%lookup_insert_Some; simpl; eauto.
    + destruct Hok. split; simpl in *; eauto.
  - destruct Hok. split; simpl in *; eauto.
    intros ck [->%elem_of_singleton|?]%elem_of_union; eauto 10.
Qed.

Lemma scan_rule_ok m0 mw r : r ∈ rules -> scan_ok m0 mw -> scan_ok m0 (scan_rule snap mw r).
Proof.
  intros Hr Hok. unfold scan_rule. destruct (_ || _) eqn:Eg; [done|]. bsimp.
  destruct (parseResource (aConfig r)) as [cfg|] eqn:Ep; [|done]. destruct mw as [m sc]. simpl.
  apply foldl_invariant.
  - destruct Hok. split; simpl in *; eauto.
  - intros mw cs Hcs Hmw. apply scan_one_ok; try done. by rewrite shuffle_perm in Hcs.
Qed.

Lemma scan_all_ok m : scan_ok m (scan rules snap m).
Proof.
  unfold scan. apply foldl_invariant.
  - by split.
  - intros mw r Hr Hmw. by apply scan_rule_ok.
Qed.
End Scan.

(** *** Effects on one host *)
Section Hosts.
Context `{E : Env}.

(** Between [m] and [m'], every event and every condition state that appeared,
    changed or went is of a host satisfying [P]; deliveries only grow. *)
Record only_hosts (P : Z -> Prop) (m m' : Mon) : Prop := {
  oh_rules : arules (adb m') = arules (adb m);
  oh_states k : ~ P k.1.1 -> astates (adb m') !! k = astates (adb m) !! k;
  oh_events : exists evs, aevents (adb m') = aevents (adb m) ++ evs /\ Forall (fun e => P (eHostID e)) evs
}.

Lemma only_hosts_refl P m m' :
  arules (adb m') = arules (adb m) -> astates (adb m') = astates (adb m) ->
  aevents (adb m') = aevents (adb m) -> only_hosts P m m'.
Proof. intros H1 H2 H3. split; [done|intros; by rewrite H2|]. exists []. by rewrite app_nil_r. Qed.

Lemma only_hosts_trans P m1 m2 m3 : only_hosts P m1 m2 -> only_hosts P m2 m3 -> only_hosts P m1 m3.
Proof.
  intros [Hr1 Hs1 (e1 & He1 & Hp1)] [Hr2 Hs2 (e2 & He2 & Hp2)]. split; [congruence| |].
  - intros k Hk. by rewrite Hs2, Hs1.
  - exists (e1 ++ e2). rewrite He2, He1, (assoc_L (++)). split; [done|]. by apply Forall_app.
Qed.

Lemma emit_only_hosts (P : Z -> Prop) r h hn cid name project msg v kind dur m :
  P h -> only_hosts P m (emit r h hn cid name project msg v kind dur m).1.
Proof.
  intros HP. pose proof (emit_effect r h hn cid name project msg v kind dur m) as H. cbv zeta in H.
  destruct (emit _ _ _ _ _ _ _ _ _ _ _) as [m' b]. destruct H as (_ & Hse & _ & (evs & Happ & Hevs) & _).
  split; simpl; [by apply se_rules|intros; by rewrite (se_states _ _ Hse)|].
  exists evs. split; [done|]. destruct (_ || _); [by subst|].
  destruct Hevs as (e & -> & Hev). apply Forall_singleton. by destruct Hev as (-> & _).
Qed.

Lemma saveState_only_hosts (P : Z -> Prop) cs cfg r v s n m :
  P (HostID cs) -> only_hosts P m (saveState cs cfg r v s n m).
Proof.
  intros HP. unfold saveState.
  assert (H : forall m0 s0, adb m0 = adb m -> only_hosts P m
    (store_call (UpsertAlertState afault (mkAState (HostID cs) (HostName cs) (csID cs) (csName cs) (metricKey cfg)
     (aID r) (aName r) (aSeverity r) v s0 n)) m0).1).
  { intros m0 s0 H0. unfold store_call, UpsertAlertState, aexec. destruct (afault _); simpl.
    - apply only_hosts_refl; simpl; by rewrite ?H0.
    - split; simpl; rewrite H0; [done| |].
      + intros k Hk. rewrite lookup_insert_ne; [done|]. unfold state_pk. simpl. intros <-. by apply Hk.
      + exists []. by rewrite app_nil_r. }
  destruct (IsZero s); simpl; by apply H.
Qed.

Lemma announce_only_hosts (P : Z -> Prop) now prev ck c m :
  P (HostID (cStat c)) -> only_hosts P m (announce now prev ck c m).
Proof.
  intros HP. unfold announce.
  assert (Hem : forall k d m0 f, (forall m1 b, only_hosts P m1 (f m1 b)) -> only_hosts P m m0 ->
    only_hosts P m (let '(m1, sup) := emit_for c k d m0 in f m1 sup)).
  { intros k d m0 f Hf H0. unfold emit_for.
    pose proof (emit_only_hosts P (cRule c) (HostID (cStat c)) (HostName (cStat c)) (csID (cStat c)) (csName (cStat c))
      (csProject (cStat c)) (resourceMessage (cCfg c) (cStat c) (cValue c)) (Some (cValue c)) k d m0 HP) as He.
    destruct (emit _ _ _ _ _ _ _ _ _ _ m0) as [m1 b]. simpl in He.
    eapply only_hosts_trans; [exact H0|]. eapply only_hosts_trans; [exact He|]. apply Hf. }
  assert (Hsv : forall s n m1, only_hosts P m1 (save_for c s n m1)) by (intros; by apply saveState_only_hosts).
  assert (Hrefl : only_hosts P m m) by (by apply only_hosts_refl).
  destruct (prev !! ck) as [st|]; [|apply Hem; [intros; apply Hsv|done]].
  destruct (_ <? _); [apply Hem; [intros; apply Hsv|done]|].
  destruct (_ <? _); [apply Hem; [intros; apply Hsv|done]|].
  destruct (_ && _); [|apply Hsv].
  destruct (IsZero (tNotifiedAt st)).
  - destruct (silencedNow _ _ _ _ m) as [m1 b] eqn:Eq.
    assert (only_hosts P m m1) as H1.
    { unfold silencedNow, active_window, Now in Eq. simpl in Eq. injection Eq as <- _. by apply only_hosts_refl. }
    destruct b; [eapply only_hosts_trans; [exact H1|apply Hsv]|apply Hem; [intros; apply Hsv|done]].
  - apply Hem; [intros; apply Hsv|done].
Qed.

Lemma resolve_only_hosts (P : Z -> Prop) now snap sampled sc m kst :
  (forall h, h ∈ sampled -> P h) -> only_hosts P m (resolve now snap sampled sc m kst).
Proof.
  intros HP. unfold resolve. destruct kst as [ck st].
  destruct (winners sc !! ck); [by apply only_hosts_refl|].
  destruct (bool_decide (tHostID st ∈ sampled)) eqn:Es; simpl; [|by apply only_hosts_refl]. bsimp.
  destruct (bool_decide (ck ∈ unmeasured sc)); [by apply only_hosts_refl|].
  match goal with |- context [emit _ _ _ _ _ ?p ?msg None KindResolved ?d m] =>
    pose proof (emit_only_hosts P (resolved_rule st) (tHostID st) (tHostName st) (tContainerID st)
      (tContainerName st) p msg None KindResolved d m (HP _ Es)) as He end.
  destruct (emit _ _ _ _ _ _ _ _ _ _ m) as [m1 b]. simpl in He.
  eapply only_hosts_trans; [exact He|]. unfold store_call, DeleteAlertState, aexec. destruct (afault _); simpl.
  - by apply only_hosts_refl.
  - split; simpl; [done| |exists []; by rewrite app_nil_r].
    intros k Hk. rewrite lookup_delete_ne; [done|]. intros <-. apply Hk. simpl. by apply HP.
Qed.
End Hosts.

(** silence is not recovery.  When a host's container list did not come back,
    an evaluation of the resource rules leaves every condition of that host as it
    was and records no event about it: nothing is announced, escalated, repeated
    or resolved for a host that was not observed. *)
Theorem unobserved_host_untouched `{E : Env} snap sampled m h :
  (forall cid cs, snap !! cid = Some cs -> HostID cs ∈ sampled) -> h ∉ sampled ->
  let m' := evalResourceRules snap sampled m in
  (forall cid metric, astates (adb m') !! (h, cid, metric) = astates (adb m) !! (h, cid, metric)) /\
  exists evs, aevents (adb m') = aevents (adb m) ++ evs /\ forall e, e ∈ evs -> eHostID e <> h.
Proof.
  intros Hsnap Hh. cbv zeta.
  assert (H : only_hosts (fun x => x ∈ sampled) m (evalResourceRules snap sampled m)).
  { unfold evalResourceRules.
    destruct (ListAlertRules _ _) as [rules|] eqn:Er; [|by apply only_hosts_refl].
    destruct (ListAlertStates _ _) as [states|]; [|by apply only_hosts_refl].
    pose proof (scan_all_ok rules ((map_to_list snap).*2) m) as Hok.
    destruct (scan rules _ m) as [m1 sc]. simpl.
    destruct Hok as [Ha _ _ Hwin _]. simpl in *.
    eapply only_hosts_trans with (m2 := tick (tick m1)); [by apply only_hosts_refl; simpl; rewrite Ha|].
    assert (Hfold : forall m2, only_hosts (fun x => x ∈ sampled) (tick (tick m1)) m2 ->
      only_hosts (fun x => x ∈ sampled) (tick (tick m1))
        (foldl (fun m kc => announce (clock (ticks m1)) (prev_states states) kc.1 kc.2 m) m2
          (shuffle (S (ticks m1)) (map_to_list (winners sc))))).
    { intros m2 H2. apply foldl_invariant; [done|]. intros m3 [ck c] Hin H3. simpl.
      eapply only_hosts_trans; [exact H3|]. apply announce_only_hosts.
      rewrite shuffle_perm, elem_of_map_to_list in Hin. apply Hwin in Hin as ((_ & _ & _ & _ & Hcs & _) & _).
      apply list_elem_of_fmap in Hcs as ([k cs] & -> & Hk%elem_of_map_to_list). by eapply Hsnap. }
    apply foldl_invariant.
    - eapply only_hosts_trans; [apply Hfold, only_hosts_refl; done|by apply only_hosts_refl].
    - intros m3 kst _ H3. eapply only_hosts_trans; [exact H3|]. by apply resolve_only_hosts. }
  destruct H as [_ Hs (evs & Hevs & Hp)]. split.
  - intros cid mt. by apply (Hs (h, cid, mt)).
  - exists evs. split; [done|]. rewrite Forall_forall in Hp. intros e He Heq. apply Hh. rewrite <- Heq. by apply Hp.
Qed.

(** ** Keys *)

(** No ':' in a string. *)
Definition colon_free (s : string) : Prop := ":"%char ∉ bytes s.

Lemma bytes_inj s t : bytes s = bytes t -> s = t.
Proof.
  intros H. unfold bytes in H. apply (f_equal String.string_of_list_ascii) in H.
  by rewrite !String.string_of_list_ascii_of_string in H.
Qed.

Lemma split_at_colon (l1 l2 r1 r2 : list Ascii.ascii) :
  ":"%char ∉ l1 -> ":"%char ∉ l2 -> l1 ++ ":"%char :: r1 = l2 ++ ":"%char :: r2 -> l1 = l2 /\ r1 = r2.
Proof.
  revert l2. induction l1 as [|c l1 IH]; intros [|d l2] H1 H2 Heq; simpl in Heq; injection Heq.
  - by intros ->.
  - intros _ <-. exfalso. apply H2. left.
  - intros _ ->. exfalso. apply H1. left.
  - intros Hr ->. destruct (IH l2) as [-> ->]; [by intros ?; apply H1; right|by intros ?; apply H2; right|done|done].
Qed.

Lemma FormatInt_colon_free n : in_int64 n -> colon_free (FormatInt n).
Proof.
  intros Hn Hc. apply FormatInt_chars in Hc as [Hc|Hc]; [|done|done].
  unfold is_digit in Hc. vm_compute in Hc. by destruct Hc as [? []].
Qed.

Lemma FormatInt_inj n m : in_int64 n -> in_int64 m -> FormatInt n = FormatInt m -> n = m.
Proof.
  intros Hn Hm H. apply (f_equal ParseInt) in H. rewrite !ParseInt_FormatInt in H by done. congruence.
Qed.

Lemma keyed_inj n m s t : in_int64 n -> in_int64 m ->
  FormatInt n +:+ ":" +:+ s = FormatInt m +:+ ":" +:+ t -> n = m /\ s = t.
Proof.
  intros Hn Hm H. apply (f_equal bytes) in H. rewrite !bytes_app in H.
  apply split_at_colon in H as [H1 H2]; [|by apply FormatInt_colon_free..].
  apply bytes_inj in H1, H2. split; [by apply FormatInt_inj|done].
Qed.

(** the engine's map keys identify what they stand for.  A rule key determines
    its rule and container, and a condition key its host, container and metric,
    for every metric name, as long as container ids hold no ':'. *)
Theorem keys_injective :
  (forall r1 r2 c1 c2, in_int64 r1 -> in_int64 r2 -> ruleKey r1 c1 = ruleKey r2 c2 -> r1 = r2 /\ c1 = c2) /\
  (forall h1 h2 c1 c2 m1 m2, in_int64 h1 -> in_int64 h2 -> colon_free c1 -> colon_free c2 ->
     stateKey h1 c1 m1 = stateKey h2 c2 m2 -> h1 = h2 /\ c1 = c2 /\ m1 = m2).
Proof.
  split; [intros; by apply keyed_inj|].
  intros h1 h2 c1 c2 m1 m2 H1 H2 Hc1 Hc2 Hk. apply keyed_inj in Hk as [-> H]; [|done|done]. split; [done|].
  apply (f_equal bytes) in H. rewrite !bytes_app in H. apply split_at_colon in H as [Ha Hb]; [|done|done].
  by apply bytes_inj in Ha, Hb.
Qed.

Lemma stateKey_inj h1 h2 c1 c2 m1 m2 : in_int64 h1 -> in_int64 h2 -> colon_free c1 -> colon_free c2 ->
  stateKey h1 c1 m1 = stateKey h2 c2 m2 -> (h1, c1, m1) = (h2, c2, m2).
Proof.
  intros H1 H2 Hc1 Hc2 Hk. apply keyed_inj in Hk as [-> H]; [|done|done].
  apply (f_equal bytes) in H. rewrite !bytes_app in H. apply split_at_colon in H as [Ha Hb]; [|done|done].
  apply bytes_inj in Ha, Hb. congruence.
Qed.

(** ** The life of a condition *)

(** Condition keys that the engine's string keys tell apart. *)
Definition key_ok (k : Z * string * string) : Prop := in_int64 k.1.1 /\ colon_free k.1.2.
Definition skey (k : Z * string * string) : string := stateKey k.1.1 k.1.2 k.2.

Lemma skey_inj k1 k2 : key_ok k1 -> key_ok k2 -> skey k1 = skey k2 -> k1 = k2.
Proof.
  destruct k1 as [[h1 c1] m1], k2 as [[h2 c2] m2]. intros [? ?] [? ?] Heq. by apply stateKey_inj in Heq.
Qed.

Definition cand_pk (c : candidate) : Z * string * string :=
  (HostID (cStat c), csID (cStat c), metricKey (cCfg c)).

Section Lifecycle.
Context `{E : Env} (Hnf : forall q, afault q = false).

(** Between two states one row was stored under [k], with its start kept. *)
Definition stored (k : Z * string * string) (m m' : Mon) : Prop :=
  arules (adb m') = arules (adb m) /\
  exists st, astates (adb m') = <[k := st]> (astates (adb m)) /\ state_pk st = k /\
    forall old, astates (adb m) !! k = Some old -> tStartedAt st = tStartedAt old.

Lemma saveState_stored cs cfg r v s n m0 m :
  astates (adb m0) = astates (adb m) -> arules (adb m0) = arules (adb m) ->
  stored (HostID cs, csID cs, metricKey cfg) m (saveState cs cfg r v s n m0).
Proof using Hnf.
  intros H1 H2. unfold saveState.
  assert (forall m1 s1, astates (adb m1) = astates (adb m) -> arules (adb m1) = arules (adb m) ->
    stored (HostID cs, csID cs, metricKey cfg) m
    (store_call (UpsertAlertState afault (mkAState (HostID cs) (HostName cs) (csID cs) (csName cs) (metricKey cfg)
     (aID r) (aName r) (aSeverity r) v s1 n)) m1).1) as H.
  { intros m1 s1 Hm1 Hm2. unfold store_call, UpsertAlertState, aexec. rewrite Hnf. simpl. split; [done|].
    eexists. split; [by rewrite Hm1|]. split; [done|]. simpl. unfold state_pk. simpl. by intros old ->. }
  destruct (IsZero s); by apply H.
Qed.

Lemma announce_stored now prev ck c m : stored (cand_pk c) m (announce now prev ck c m).
Proof using Hnf.
  assert (Hem : forall k d m0 f, astates (adb m0) = astates (adb m) -> arules (adb m0) = arules (adb m) ->
    (forall m1 b, exists s n, f m1 b = save_for c s n m1) ->
    stored (cand_pk c) m (let '(m1, sup) := emit_for c k d m0 in f m1 sup)).
  { intros k d m0 f H1 H2 Hf. unfold emit_for.
    pose proof (emit_effect (cRule c) (HostID (cStat c)) (HostName (cStat c)) (csID (cStat c)) (csName (cStat c))
      (csProject (cStat c)) (resourceMessage (cCfg c) (cStat c) (cValue c)) (Some (cValue c)) k d m0) as He.
    cbv zeta in He. destruct (emit _ _ _ _ _ _ _ _ _ _ m0) as [m1 b]. destruct He as (_ & Hse & _).
    destruct (Hf m1 b) as (s & n & ->). apply saveState_stored;
      [rewrite (se_states _ _ Hse)|rewrite (se_rules _ _ Hse)]; done. }
  assert (Hsv : forall s n m1, astates (adb m1) = astates (adb m) -> arules (adb m1) = arules (adb m) ->
    stored (cand_pk c) m (save_for c s n m1)) by (intros; by apply saveState_stored).
  unfold announce. destruct (prev !! ck) as [st|]; [|apply Hem; unfold after_emit; eauto].
  destruct (_ <? _); [apply Hem; unfold after_emit; eauto|].
  destruct (_ <? _); [apply Hem; unfold after_emit; eauto|].
  destruct (_ && _); [|by apply Hsv].
  destruct (IsZero (tNotifiedAt st)).
  - destruct (silencedNow _ _ _ _ m) as [m1 b] eqn:Eq.
    assert (adb m1 = adb m) as H1.
    { unfold silencedNow, active_window, Now in Eq. simpl in Eq. by injection Eq as <- _. }
    destruct b; [apply Hsv; by rewrite H1|apply Hem; rewrite ?H1; unfold after_emit; eauto].
  - apply Hem; unfold after_emit; eauto.
Qed.

(** What the announcements of a list of winners leave. *)
Lemma announce_all_states now prev l : forall m,
  let m' := foldl (fun m kc => announce now prev kc.1 kc.2 m) m l in
  (forall k, is_Some (astates (adb m') !! k) <->
     is_Some (astates (adb m) !! k) \/ exists ck c, (ck, c) ∈ l /\ cand_pk c = k) /\
  (forall k st, astates (adb m') !! k = Some st ->
     (astates (adb m) !! k = Some st \/ state_pk st = k) /\
     forall old, astates (adb m) !! k = Some old -> tStartedAt st = tStartedAt old).
Proof using Hnf.
  induction l as [|[ck c] l IH]; intros m; simpl.
  { split; [|naive_solver]. intros k. split; [by left|].
    intros [?|(? & ? & ?%not_elem_of_nil & _)]; done. }
  destruct (announce_stored now prev ck c m) as (_ & st0 & Hst0 & Hpk0 & Hold0).
  set (m1 := announce _ _ _ _ m) in *. destruct (IH m1) as [Hk Hs]. split.
  - intros k. rewrite Hk, Hst0. rewrite lookup_insert_is_Some'. setoid_rewrite elem_of_cons.
    split.
    + intros [[Hc|?]|(ck' & c' & ? & ?)]; [right; exists ck, c; split; [by left|done]|by left|right; eauto 10].
    + intros [?|(ck' & c' & [[= -> ->]|?] & ?)]; [by left; right|by left; left|right; eauto].
  - intros k st Hst. destruct (Hs k st Hst) as [Hor Ho]. rewrite Hst0 in Hor, Ho.
    destruct (decide (cand_pk c = k)) as [<-|Hne].
    + rewrite lookup_insert_eq in Hor, Ho. split; [right; destruct Hor as [[= <-]|?]; done|].
      intros old Hold. rewrite (Ho _ eq_refl). by apply Hold0.
    + rewrite lookup_insert_ne in Hor, Ho by done. done.
Qed.

(** What the resolve sweep deletes. *)
Definition ended (sampled : gset Z) (sc : Scan) (ck : string) (st : AlertState) : Prop :=
  winners sc !! ck = None /\ tHostID st ∈ sampled /\ ck ∉ unmeasured sc.

Lemma resolve_states now snap sampled sc m ck st :
  let m' := resolve now snap sampled sc m (ck, st) in
  (ended sampled sc ck st -> astates (adb m') = delete (state_pk st) (astates (adb m))) /\
  (~ ended sampled sc ck st -> m' = m).
Proof using Hnf.
  cbv zeta. unfold resolve, ended. destruct (winners sc !! ck); [naive_solver|].
  case_bool_decide as Hs; simpl; [|naive_solver]. case_bool_decide as Hu; [naive_solver|].
  split; [intros _|intros H; exfalso; by apply H].
  match goal with |- context [emit ?a ?b ?c ?d ?e ?p ?msg None KindResolved ?du m] =>
    pose proof (emit_effect a b c d e p msg None KindResolved du m) as He end.
  cbv zeta in He. destruct (emit _ _ _ _ _ _ _ _ _ _ m) as [m1 b]. destruct He as (_ & Hse & _).
  unfold store_call, DeleteAlertState, aexec. rewrite Hnf. simpl. by rewrite (se_states _ _ Hse).
Qed.

Lemma resolve_all_states now snap sampled sc l : forall m k,
  astates (adb (foldl (resolve now snap sampled sc) m l)) !! k =
    if bool_decide (Exists (fun kst => ended sampled sc kst.1 kst.2 /\ state_pk kst.2 = k) l) then None
    else astates (adb m) !! k.
Proof using Hnf.
  induction l as [|[ck st] l IH]; intros m k; cbn [foldl]; [done|].
  rewrite IH. destruct (resolve_states now snap sampled sc m ck st) as [Hd Hn].
  assert (Decision (ended sampled sc ck st)) as Hdec by (unfold ended; apply _).
  destruct Hdec as [He|He].
  - rewrite (Hd He). case_bool_decide as H1; case_bool_decide as H2; try done.
    + by destruct H2; right.
    + destruct (decide (state_pk st = k)) as [<-|?].
      * by rewrite lookup_delete_eq.
      * rewrite Exists_cons in H2. naive_solver.
    + destruct (decide (state_pk st = k)) as [<-|?].
      * destruct H2. left. done.
      * by rewrite lookup_delete_ne.
  - rewrite (Hn He). case_bool_decide as H1; case_bool_decide as H2; try done.
    + by destruct H2; right.
    + rewrite Exists_cons in H2. naive_solver.
Qed.
End Lifecycle.

(** C22: the condition table tracks reality.  After an evaluation in which no store
    call fails, a condition is held exactly when some rule is over threshold for it
    now (it has a winner), or it was held before and nothing was learned about it:
    its host was not observed, or its metric could not be read.  A condition that
    goes on keeps the moment it started, whichever rule or severity speaks for
    it. *)
Theorem conditions_track_reality `{E : Env} snap sampled m :
  (forall q, afault q = false) ->
  (forall k st, astates (adb m) !! k = Some st -> state_pk st = k /\ key_ok k) ->
  (forall cid cs, snap !! cid = Some cs -> in_int64 (HostID cs) /\ colon_free (csID cs)) ->
  let sc := (scan (arules (adb m)) ((map_to_list snap).*2) m).2 in
  let m' := evalResourceRules snap sampled m in
  (forall k, is_Some (astates (adb m') !! k) <->
     (exists c, winners sc !! skey k = Some c /\ cand_pk c = k) \/
     (is_Some (astates (adb m) !! k) /\ winners sc !! skey k = None /\
        (k.1.1 ∉ sampled \/ skey k ∈ unmeasured sc))) /\
  (forall k st st', astates (adb m) !! k = Some st -> astates (adb m') !! k = Some st' ->
     tStartedAt st' = tStartedAt st).
Proof.
  intros Hnf Hpk Hsnap. unfold evalResourceRules, ListAlertRules, ListAlertStates. rewrite !Hnf.
  pose proof (scan_all_ok (arules (adb m)) ((map_to_list snap).*2) m) as Hok.
  destruct (scan (arules (adb m)) ((map_to_list snap).*2) m) as [m1 sc]. simpl.
  destruct Hok as [Ha _ _ Hwin _]. simpl in *.
  set (prev := prev_states ((map_to_list (astates (adb m))).*2)).
  assert (Hprev : forall ck st, prev !! ck = Some st <-> exists k, ck = skey k /\ astates (adb m) !! k = Some st).
  { intros ck st. unfold prev, prev_states. rewrite build_map_lookup.
    - rewrite lookup_empty. setoid_rewrite list_elem_of_fmap. split.
      + intros [(x & ([k x'] & -> & Hk%elem_of_map_to_list) & <- & [= <-])|[? _]]; [|done].
        exists k. split; [|done]. simpl in *. destruct (Hpk _ _ Hk) as [<- _]. done.
      + intros (k & -> & Hk). left. exists st. destruct (Hpk _ _ Hk) as [Hkk _]. split; [|split; [|done]].
        * exists (k, st). by rewrite elem_of_map_to_list.
        * by rewrite <- Hkk.
    - rewrite <- list_fmap_compose. apply NoDup_fmap_2_strong; [|apply NoDup_map_to_list].
      intros [k1 s1] [k2 s2] H1%elem_of_map_to_list H2%elem_of_map_to_list Heq. simpl in Heq.
      destruct (Hpk _ _ H1) as [E1 K1], (Hpk _ _ H2) as [E2 K2].
      assert (k1 = k2) as -> by (apply skey_inj; [done|done|]; rewrite <- E1, <- E2; done).
      congruence. }
  set (m2 := tick (tick m1)).
  set (order := shuffle (S (ticks m1)) (map_to_list (winners sc))).
  pose proof (announce_all_states Hnf (clock (ticks m1)) prev order m2) as [Hk Hs]. cbv zeta in Hk, Hs.
  set (m3 := foldl _ m2 order) in *.
  assert (Hm2 : astates (adb m2) = astates (adb m)) by (unfold m2; simpl; by rewrite Ha).
  rewrite Hm2 in Hk, Hs.
  assert (Hcand : forall k, (exists ck c, (ck, c) ∈ order /\ cand_pk c = k) <->
    exists c, winners sc !! skey k = Some c /\ cand_pk c = k).
  { intros k. unfold order. setoid_rewrite shuffle_perm. setoid_rewrite elem_of_map_to_list. split.
    - intros (ck & c & Hc & <-). exists c. split; [|done]. destruct (Hwin _ _ Hc) as (_ & _ & _ & ->). done.
    - intros (c & Hc & Hpc). eauto. }
  setoid_rewrite Hcand in Hk.
  assert (Hswp : forall h c m, skey (h, c, m) = stateKey h c m) by done.
  pose proof (resolve_all_states Hnf (clock (ticks m1)) snap sampled sc) as Hres.
  assert (Hex : forall k, Exists (fun kst => ended sampled sc kst.1 kst.2 /\ state_pk kst.2 = k)
      (shuffle (ticks m3) (map_to_list prev)) <->
    exists st, astates (adb m) !! k = Some st /\ ended sampled sc (skey k) st).
  { intros k. rewrite Exists_exists. split.
    - intros ([ck st] & Hin & He & Hst). rewrite shuffle_perm, elem_of_map_to_list in Hin.
      apply Hprev in Hin as (k' & -> & Hk'). destruct (Hpk _ _ Hk') as [E1 _]. simpl in *.
      assert (k' = k) as -> by congruence. eauto.
    - intros (st & Hst & He). exists (skey k, st). rewrite shuffle_perm, elem_of_map_to_list.
      split; [apply Hprev; eauto|]. split; [done|]. by destruct (Hpk _ _ Hst). }
  assert (Hhost : forall k st, astates (adb m) !! k = Some st -> tHostID st = k.1.1).
  { intros k st Hst. destruct (Hpk _ _ Hst) as [<- _]. done. }
  split.
  - intros k. rewrite Hres. case_bool_decide as Hd; rewrite Hex in Hd.
    + destruct Hd as (st & Hst & Hw & Hsam & Hun). split; [by intros []|].
      intros [(c & Hc & _)|(_ & _ & [Hns|Hu])]; [congruence|by rewrite <- (Hhost _ _ Hst) in Hns|done].
    + simpl. rewrite Hk. split; [|naive_solver].
      intros [[st Hst]|Hc]; [|by left].
      destruct (winners sc !! skey k) as [c|] eqn:Ec.
      * left. exists c. split; [done|]. destruct (Hwin _ _ Ec) as ((_ & _ & _ & _ & Hcs & _) & _ & _ & Hck).
        apply list_elem_of_fmap in Hcs as ([cid cs] & Hceq & Hcs%elem_of_map_to_list).
        apply skey_inj; [|by eapply Hpk|done]. unfold cand_pk, key_ok. simpl. rewrite Hceq. simpl. by eapply Hsnap.
      * right. split; [eauto|]. split; [done|].
        destruct (decide (k.1.1 ∈ sampled)); [|by left]. destruct (decide (skey k ∈ unmeasured sc)); [by right|].
        exfalso. apply Hd. exists st. split; [done|]. split; [done|]. by rewrite (Hhost _ _ Hst).
  - intros k st st' Hst Hst'. rewrite Hres in Hst'. destruct (bool_decide _); [done|]. simpl in Hst'.
    destruct (Hs k st' Hst') as [_ Ho]. by apply Ho.
Qed.

(** ** The winner of a condition *)
Section Winner.
Context `{E : Env} (rules : list AlertRule) (snap : list ContainerStat).

(** Where the dwell times come from: an earlier poll, or this scan's clock. *)
Definition since_from (m0 : Mon) (key : string) (since : Z) : Prop :=
  overSince m0 !! key = Some since \/ exists n, (ticks m0 <= n)%nat /\ since = clock n.

(** The rule has been over threshold for its duration, by some reading of the clock. *)
Definition dwelt (m0 : Mon) (c : candidate) : Prop :=
  exists since n, since_from m0 (ruleKey (aID (cRule c)) (csID (cStat c))) since /\ (ticks m0 <= n)%nat /\
    dur_mul (DurationSec (cCfg c)) second <= time_sub (clock n) since.

Record dwell_ok (m0 : Mon) (mw : Mon * Scan) : Prop := {
  do_ticks : (ticks m0 <= ticks mw.1)%nat;
  do_since key since : overSince mw.1 !! key = Some since -> since_from m0 key since;
  do_winner ck c : winners mw.2 !! ck = Some c -> dwelt m0 c
}.

Lemma scan_one_dwell m0 mw r cfg cs : dwell_ok m0 mw -> dwell_ok m0 (scan_one r cfg cs mw).
Proof.
  intros Hok. destruct mw as [m sc]. unfold scan_one. destruct (_ || _); [done|].
  destruct Hok as [Ht Hs Hw]. simpl in *.
  destruct (metric cs (Metric cfg)) as [val|]; [|by split].
  destruct (exceeds cfg val); simpl.
  - set (key := ruleKey (aID r) (csID cs)). set (since := default _ _).
    assert (Hsince : since_from m0 key since).
    { unfold since. destruct (overSince m !! key) as [s|] eqn:Es; simpl; [by apply Hs|right; eauto]. }
    assert (Hs' : forall k s, <[key := since]> (overSince m) !! k = Some s -> since_from m0 k s).
    { intros k s [[<- <-]|[? ?]]%lookup_insert_Some; eauto. }
    destruct (_ <? dur_mul _ _) eqn:Ed; [split; simpl; eauto; lia|]. bsimp.
    match goal with |- context [if ?b then (_, sc) else _] => destruct b end; [split; simpl; eauto; lia|].
    split; simpl; eauto; try lia. intros ck c [[<- <-]|[? ?]]%lookup_insert_Some; eauto.
    exists since, (S (ticks m)). split; [done|]. split; [lia|done].
  - split; simpl; eauto. intros k s [_ ?]%lookup_delete_Some. eauto.
Qed.

Lemma scan_rule_dwell m0 mw r : dwell_ok m0 mw -> dwell_ok m0 (scan_rule snap mw r).
Proof.
  intros Hok. unfold scan_rule. destruct (_ || _); [done|].
  destruct (parseResource (aConfig r)) as [cfg|]; [|done]. destruct mw as [m sc]. simpl.
  apply foldl_invariant; [|intros; by apply scan_one_dwell].
  destruct Hok. split; simpl in *; eauto.
Qed.

(** *** Maximality *)
Context (Hids : NoDup (aID <$> rules)) (Hcs : NoDup (csID <$> snap))
  (Hint : forall r, r ∈ rules -> in_int64 (aID r)).
Context (r : AlertRule) (cfg : resourceConfig) (cs : ContainerStat) (val : float64) (t0 : Z) (m0 : Mon).
Context (Happ : applies rules snap r cfg cs) (Hval : metric cs (Metric cfg) = Some val)
  (Hex : exceeds cfg val = true)
  (Hdw : forall n, (ticks m0 <= n)%nat -> dur_mul (DurationSec cfg) second <= time_sub (clock n) t0).

Definition spoken (mw : Mon * Scan) : Prop :=
  exists c, winners mw.2 !! condition_key cfg cs = Some c /\
    severityRank (aSeverity r) <= severityRank (aSeverity (cRule c)).

Definition pending (mw : Mon * Scan) : Prop :=
  (ticks m0 <= ticks mw.1)%nat /\
  (spoken mw \/ overSince mw.1 !! ruleKey (aID r) (csID cs) = Some t0).

Lemma spoken_scan_one mw r' cfg' cs' : spoken mw -> spoken (scan_one r' cfg' cs' mw).
Proof using.
  intros (c & Hc & Hle). destruct mw as [m sc]. unfold scan_one, spoken. destruct (_ || _); [eauto|].
  destruct (metric cs' (Metric cfg')) as [v|]; [|simpl; eauto]. destruct (exceeds cfg' v); simpl; [|eauto].
  destruct (_ <? dur_mul _ _); simpl; [eauto|].
  set (ck := stateKey _ _ _). destruct (decide (condition_key cfg cs = ck)) as [Heq|Hne].
  - simpl in Hc. rewrite <- Heq. rewrite Hc. destruct (_ <=? _) eqn:El; simpl; [eauto|]. bsimp.
    eexists. rewrite lookup_insert_eq. split; [done|]. simpl. lia.
  - match goal with |- context [if ?b then (_, sc) else _] => destruct b end; simpl; [eauto|].
    exists c. rewrite lookup_insert_ne by done. done.
Qed.

Lemma same_pair r' cs' : r' ∈ rules -> cs' ∈ snap ->
  ruleKey (aID r') (csID cs') = ruleKey (aID r) (csID cs) -> r' = r /\ cs' = cs.
Proof using Hids Hcs Hint Happ.
  intros Hr' Hc' Hk. destruct Happ as (Hr & _ & _ & _ & Hc & _).
  apply keyed_inj in Hk as [Hi Hj]; [|by apply Hint..].
  assert (Hinj : forall A (f : A -> Z) l (x y : A), NoDup (f <$> l) -> x ∈ l -> y ∈ l -> f x = f y -> x = y).
  { intros A f l x y Hnd [i Hx]%list_elem_of_lookup [j Hy]%list_elem_of_lookup Hf.
    assert (i = j) as ->; [|congruence].
    eapply NoDup_lookup; [exact Hnd|..]; rewrite list_lookup_fmap; [by rewrite Hx|]. rewrite Hy. simpl. by rewrite Hf. }
  assert (Hinj' : forall (l : list ContainerStat) x y, NoDup (csID <$> l) -> x ∈ l -> y ∈ l -> csID x = csID y -> x = y).
  { intros l x y Hnd [i Hx]%list_elem_of_lookup [j Hy]%list_elem_of_lookup Hf.
    assert (i = j) as ->; [|congruence].
    eapply NoDup_lookup; [exact Hnd|..]; rewrite list_lookup_fmap; [by rewrite Hx|]. rewrite Hy. simpl. by rewrite Hf. }
  split; [by eapply Hinj|by eapply Hinj'].
Qed.

Lemma pending_scan_one mw r' cfg' cs' :
  r' ∈ rules -> parseResource (aConfig r') = Some cfg' -> cs' ∈ snap -> pending mw ->
  pending (scan_one r' cfg' cs' mw) /\ (r' = r -> cs' = cs -> spoken (scan_one r' cfg' cs' mw)).
Proof using Hids Hcs Hint Happ Hval Hex Hdw.
  intros Hr' Hp' Hc' [Ht Hor].
  assert (Hticks : (ticks m0 <= ticks (scan_one r' cfg' cs' mw).1)%nat).
  { destruct mw as [m sc]. unfold scan_one. destruct (_ || _); [done|]. destruct (metric cs' (Metric cfg')) as [v|]; [|done].
    destruct (exceeds cfg' v); simpl in *; [|done]. destruct (_ <? dur_mul _ _); simpl; [lia|].
    match goal with |- context [if ?b then (_, sc) else _] => destruct b end; simpl; lia. }
  destruct Hor as [Hs|Hk].
  { pose proof (spoken_scan_one mw r' cfg' cs' Hs). split; [|done]. split; [done|by left]. }
  destruct (decide (ruleKey (aID r') (csID cs') = ruleKey (aID r) (csID cs))) as [Heq|Hne].
  - destruct (same_pair r' cs' Hr' Hc' Heq) as [-> ->].
    assert (spoken (scan_one r cfg' cs mw)) as Hsp; [|split; [split; [done|by left]|done]].
    destruct Happ as (_ & _ & _ & Hp & _ & Hrun & Hmt). assert (cfg' = cfg) as -> by congruence.
    destruct mw as [m sc]. unfold scan_one, spoken. rewrite Hrun, Hmt, Hval, Hex. simpl in *. rewrite Hk. simpl.
    pose proof (Hdw (S (ticks m)) ltac:(lia)) as Hd.
    rewrite (proj2 (Z.ltb_ge _ _) Hd).
    fold (condition_key cfg cs). destruct (winners sc !! condition_key cfg cs) as [cur|] eqn:Ec.
    + destruct (_ <=? _) eqn:El; bsimp; [eexists; split; [exact Ec|done]|].
      eexists. simpl. rewrite lookup_insert_eq. split; [done|]. simpl. lia.
    + eexists. simpl. rewrite lookup_insert_eq. split; [done|]. simpl. lia.
  - split; [|intros -> ->; done]. split; [done|]. right.
    destruct mw as [m sc]. unfold scan_one. destruct (_ || _); [done|]. destruct (metric cs' (Metric cfg')) as [v|]; [|done].
    destruct (exceeds cfg' v); simpl in *; [|by rewrite lookup_delete_ne].
    destruct (_ <? dur_mul _ _); simpl; [by rewrite lookup_insert_ne|].
    match goal with |- context [if ?b then (_, sc) else _] => destruct b end; simpl; by rewrite lookup_insert_ne.
Qed.

Lemma pending_scan_rule mw r' : r' ∈ rules -> pending mw ->
  pending (scan_rule snap mw r') /\ (r' = r -> spoken (scan_rule snap mw r')).
Proof using Hids Hcs Hint Happ Hval Hex Hdw.
  intros Hr' Hpend. unfold scan_rule.
  destruct (negb (aEnabled r') || negb (String.eqb (aType r') "resource")) eqn:Eg.
  { split; [done|]. intros ->. destruct Happ as (_ & He & Hty & _). rewrite He, Hty in Eg. done. }
  destruct (parseResource (aConfig r')) as [cfg'|] eqn:Ep.
  2: { split; [done|]. intros ->. destruct Happ as (_ & _ & _ & Hp & _). congruence. }
  destruct mw as [m sc]. simpl.
  assert (H0 : pending (tick m, sc)).
  { destruct Hpend as [Ht Hor]. split; [simpl in *; lia|done]. }
  assert (Hfold : forall l mw, (forall x, x ∈ l -> x ∈ snap) -> pending mw ->
    let mw' := foldl (fun mw cs => scan_one r' cfg' cs mw) mw l in
    pending mw' /\ (spoken mw -> spoken mw') /\ (r' = r -> cs ∈ l -> spoken mw')).
  { induction l as [|c l IH]; intros mw Hl Hp; cbn [foldl].
    { split; [done|]. split; [done|]. by intros _ ?%not_elem_of_nil. }
    destruct (pending_scan_one mw r' cfg' c) as [Hp1 Hsp]; [done|done|apply Hl; left|done|].
    destruct (IH (scan_one r' cfg' c mw)) as (Hp2 & Hk & Hd); [intros; apply Hl; by right|done|].
    split; [done|]. split; [intros; by apply Hk, spoken_scan_one|].
    intros Hrr [<-|Hin]%elem_of_cons; [apply Hk; by apply Hsp|by apply Hd]. }
  destruct (Hfold (shuffle (ticks m) snap) (tick m, sc)) as (Hp & _ & Hd); [intros x; by rewrite shuffle_perm|done|].
  split; [done|]. intros Hrr. apply Hd; [done|]. rewrite shuffle_perm. by destruct Happ as (_ & _ & _ & _ & ? & _).
Qed.

Lemma spoken_scan_rule mw r' : spoken mw -> spoken (scan_rule snap mw r').
Proof using.
  intros Hs. unfold scan_rule. destruct (_ || _); [done|]. destruct (parseResource _); [|done].
  destruct mw as [m sc]. simpl. apply foldl_invariant; [done|]. intros. by apply spoken_scan_one.
Qed.

Lemma scan_spoken : overSince m0 !! ruleKey (aID r) (csID cs) = Some t0 -> spoken (scan rules snap m0).
Proof using Hids Hcs Hint Happ Hval Hex Hdw.
  intros Hk. unfold scan.
  assert (Hfold : forall l mw, (forall x, x ∈ l -> x ∈ rules) -> pending mw ->
    (spoken mw -> spoken (foldl (scan_rule snap) mw l)) /\ (r ∈ l -> spoken (foldl (scan_rule snap) mw l))).
  { induction l as [|r' l IH]; intros mw Hl Hp; cbn [foldl].
    { split; [done|]. by intros ?%not_elem_of_nil. }
    destruct (pending_scan_rule mw r') as [Hp1 Hsp]; [apply Hl; left|done|].
    destruct (IH (scan_rule snap mw r')) as (Hkeep & Hd); [intros; apply Hl; by right|done|].
    split; [intros; by apply Hkeep, spoken_scan_rule|].
    intros [<-|Hin]%elem_of_cons; [apply Hkeep; by apply Hsp|by apply Hd]. }
  apply (Hfold rules (m0, mkScan ∅ ∅)); [done| |by destruct Happ].
  split; [simpl; lia|by right].
Qed.
End Winner.

(** of the rules over threshold for a condition, the most severe speaks.  Every
    winner of a scan is an enabled resource rule whose target matches a running
    container, whose metric was readable and over its threshold, and which has
    been so for its own duration; and a rule that has been over threshold for its
    duration is never outspoken by a less severe one: its condition has a winner
    at least as severe, in whatever order rules and containers are visited. *)
Theorem most_severe_speaks `{E : Env} rules snap m :
  NoDup (aID <$> rules) -> NoDup (csID <$> snap) -> (forall r, r ∈ rules -> in_int64 (aID r)) ->
  let won := winners (scan rules snap m).2 in
  (forall ck c, won !! ck = Some c ->
     applies rules snap (cRule c) (cCfg c) (cStat c) /\ metric (cStat c) (Metric (cCfg c)) = Some (cValue c) /\
     exceeds (cCfg c) (cValue c) = true /\ ck = condition_key (cCfg c) (cStat c) /\ dwelt m c) /\
  (forall r cfg cs val t0, applies rules snap r cfg cs ->
     metric cs (Metric cfg) = Some val -> exceeds cfg val = true ->
     overSince m !! ruleKey (aID r) (csID cs) = Some t0 ->
     (forall n, (ticks m <= n)%nat -> dur_mul (DurationSec cfg) second <= time_sub (clock n) t0) ->
     exists c, won !! condition_key cfg cs = Some c /\
       severityRank (aSeverity r) <= severityRank (aSeverity (cRule c))).
Proof.
  intros Hids Hcs Hint. cbv zeta. split.
  - intros ck c Hc.
    assert (Hd : dwell_ok m (scan rules snap m)).
    { unfold scan. apply foldl_invariant; [split; simpl; try done; by left|intros; by apply scan_rule_dwell]. }
    destruct (scan_all_ok rules snap m) as [_ _ _ Hw _]. destruct (Hw _ _ Hc) as (? & ? & ? & ?).
    split; [done|]. split; [done|]. split; [done|]. split; [done|]. by eapply do_winner.
  - intros r cfg cs val t0 Happ Hval Hex Hk Hdw.
    by eapply (scan_spoken rules snap Hids Hcs Hint r cfg cs val t0 m).
Qed.

(** ** Silence while nothing changes *)

(** silence means unchanged.  A condition whose winner has the severity already
    announced, and whose re-notify interval has not elapsed (or is off), produces
    no event and no delivery; and it is stored with the start and the notification
    time it had, so the interval keeps running from the last real delivery instead
    of being pushed back by every poll. *)
Theorem steady_condition_silent `{E : Env} now prev ck c m st :
  (forall q, afault q = false) -> prev !! ck = Some st ->
  astates (adb m) !! cand_pk c = Some st ->
  severityRank (aSeverity (cRule c)) = severityRank (tSeverity st) ->
  aCooldownSec (cRule c) <= 0 \/
    time_sub now (tNotifiedAt st) < dur_mul (aCooldownSec (cRule c)) second ->
  let m' := announce now prev ck c m in
  aevents (adb m') = aevents (adb m) /\ outbox m' = outbox m /\
  exists st', astates (adb m') !! cand_pk c = Some st' /\
    tStartedAt st' = tStartedAt st /\ tNotifiedAt st' = rfc3339 (tNotifiedAt st).
Proof.
  intros Hnf Hp Hst Hrank Hq. cbv zeta. unfold announce. rewrite Hp, Hrank, Z.ltb_irrefl.
  assert ((0 <? aCooldownSec (cRule c)) &&
     (dur_mul (aCooldownSec (cRule c)) second <=? time_sub now (tNotifiedAt st)) = false) as ->.
  { apply andb_false_iff. rewrite Z.ltb_ge, Z.leb_gt. lia. }
  unfold save_for, saveState.
  destruct (IsZero (tStartedAt st)); unfold Now; cbv iota beta; unfold store_call, UpsertAlertState, aexec;
    rewrite Hnf; simpl;
    (split; [done|]; split; [done|]); unfold state_pk, cand_pk in *; simpl; rewrite lookup_insert_eq;
    eexists; (split; [done|]); simpl; by rewrite Hst.
Qed.

(** a resolution reaches the feed only.  The rule it is emitted under carries no
    webhook and no e-mail flag, so whatever delivery the rule that opened the
    incident asked for, and whether or not a window is active, the end of a
    condition is never sent to anyone. *)
Theorem resolution_never_delivered `{E : Env} now snap sampled sc m kst :
  outbox (resolve now snap sampled sc m kst) = outbox m.
Proof.
  destruct kst as [ck st]. unfold resolve. destruct (winners sc !! ck); [done|].
  destruct (negb _); [done|]. destruct (bool_decide (ck ∈ unmeasured sc)); [done|].
  match goal with |- context [emit ?a ?b ?c ?d ?e ?p ?msg None KindResolved ?du m] =>
    pose proof (emit_effect a b c d e p msg None KindResolved du m) as He end.
  cbv zeta in He. destruct (emit _ _ _ _ _ _ _ _ _ _ m) as [m1 b]. destruct He as (_ & _ & _ & _ & Hout).
  unfold store_call, DeleteAlertState, aexec. destruct (afault _); simpl;
    (destruct (covered _ _ _ _ _ _); [done|]; destruct Hout as (ev & -> & _); simpl; by rewrite app_nil_r).
Qed.

(** ** Rates *)

(** a rate is only reported when it was measured.  For a snapshot whose rates
    are not yet filled in, a container's direction is marked as measured exactly
    when both this sample and the previous one are real readings and its counter
    did not go backwards; its rate is then the difference over the elapsed time.
    No container appears or disappears, and a failed sample, a first sample or a
    counter reset leaves the rate unset rather than zero-as-measured. *)
Theorem net_rates_measured next prev elapsed id :
  fle elapsed fzero = false ->
  (forall cs, next !! id = Some cs -> NetRxRateOK cs = false /\ NetTxRateOK cs = false) ->
  match next !! id, applyNetRates next prev elapsed !! id with
  | None, None => True
  | Some cs, Some cs' =>
      let baseline := match prev !! id with
                      | Some p => if Sampled p && Sampled cs then Some p else None
                      | None => None
                      end in
      (NetRxRateOK cs' = true <-> exists p, baseline = Some p /\ NetRx p <= NetRx cs) /\
      (NetTxRateOK cs' = true <-> exists p, baseline = Some p /\ NetTx p <= NetTx cs) /\
      (forall p, baseline = Some p -> NetRx p <= NetRx cs ->
         NetRxRate cs' = fdiv (of_Z (NetRx cs - NetRx p)) elapsed) /\
      (forall p, baseline = Some p -> NetTx p <= NetTx cs ->
         NetTxRate cs' = fdiv (of_Z (NetTx cs - NetTx p)) elapsed) /\
      (baseline = None -> cs' = cs) /\ Sampled cs' = Sampled cs /\ NetRx cs' = NetRx cs /\ NetTx cs' = NetTx cs
  | _, _ => False
  end.
Proof.
  intros He Hok. unfold applyNetRates. rewrite He, map_lookup_imap.
  destruct (next !! id) as [cs|]; simpl; [|done]. destruct (Hok cs eq_refl) as [Hrx Htx].
  destruct (Sampled cs) eqn:Es; simpl; [|rewrite Hrx, Htx; destruct (prev !! id) as [p|]; [rewrite andb_false_r|]; naive_solver].
  destruct (prev !! id) as [p|]; [|rewrite Hrx, Htx; naive_solver].
  destruct (Sampled p); simpl; [|rewrite Hrx, Htx; naive_solver].
  rewrite Hrx, Htx, !orb_false_r, !Z.leb_le.
  split; [naive_solver|]. split; [naive_solver|].
  split; [intros ? [= <-] Hle; by rewrite (proj2 (Z.leb_le _ _) Hle)|].
  split; [intros ? [= <-] Hle; by rewrite (proj2 (Z.leb_le _ _) Hle)|]. done.
Qed.

(** ** Host reachability *)

(** The pings of one host, oldest first: the error text if any, and the time. *)
Definition observe `{E : Env} msg (hostID : Z) (hostName : string) (obs : list (option string * Z)) (m : Mon) : Mon :=
  foldl (fun m o => recordHealth msg hostID hostName o.1 o.2 m) m obs.

Definition is_up (o : option string * Z) : bool := match o.1 with None => true | Some _ => false end.

(** How often reachability changed along a list of pings, from a known state. *)
Fixpoint flips (up : bool) (obs : list (option string * Z)) : nat :=
  match obs with
  | [] => 0
  | o :: rest => (if Bool.eqb up (is_up o) then 0 else 1) + flips (is_up o) rest
  end.

(** The time of the ping that began the current run. *)
Fixpoint run_start (up : bool) (since : Z) (obs : list (option string * Z)) : Z :=
  match obs with
  | [] => since
  | o :: rest => run_start (is_up o) (if Bool.eqb up (is_up o) then since else o.2) rest
  end.

Lemma recordHealth_known `{E : Env} msg hostID hostName o m p :
  afault QInsertEvent = false -> health m !! hostID = Some p ->
  let m' := recordHealth msg hostID hostName o.1 o.2 m in
  let same := Bool.eqb (Reachable p) (is_up o) in
  health m' !! hostID = Some (mkHealth (is_up o) (if same then Since p else o.2) o.2 (default "" o.1)) /\
  length (aevents (adb m')) = (length (aevents (adb m)) + if same then 0 else 1)%nat.
Proof.
  intros Hnf Hp. cbv zeta. unfold recordHealth. rewrite Hp. fold (is_up o).
  destruct (Bool.eqb (Reachable p) (is_up o)) eqn:Eq.
  - simpl. rewrite lookup_insert_eq. split; [done|lia].
  - unfold fireHostAlert, NotifySystem. set (m1 := set_health _ m).
    set (ev := mkEvent _ _ _ _ _ _ _ _ _ _ _ _ _ _ _ _ _ _ _ _).
    destruct (active_window _ _ _ _ _ m1) as [m2 win] eqn:Ew.
    unfold active_window, Now in Ew. injection Ew as <- _.
    pose proof (store_call_event (suppress win ev) (tick m1)) as Hi.
    destruct (insert_event _ _) as [m3 id]. destruct Hi as (Hse & _ & evs & Happ & Hid).
    rewrite Hnf in Hid. destruct Hid as (e & -> & _).
    assert (forall b : bool, let m4 := if b then m3 else set_outbox (outbox m3 ++ [DEmail [] (with_id id (suppress win ev))]) m3 in
      health m4 !! hostID = Some (mkHealth (is_up o) o.2 o.2 (default "" o.1)) /\
      length (aevents (adb m4)) = (length (aevents (adb m)) + 1)%nat) as H; [|by apply H].
    intros b. assert (health m3 !! hostID = Some (mkHealth (is_up o) o.2 o.2 (default "" o.1))) as Hh.
    { rewrite (se_health _ _ Hse). simpl. by rewrite lookup_insert_eq. }
    assert (length (aevents (adb m3)) = (length (aevents (adb m)) + 1)%nat) as Hl
      by (rewrite Happ, length_app; done).
    by destruct b.
Qed.

(** a host alert marks a change, never a state.  Over any sequence of pings of a
    host seen for the first time, the alerts recorded are exactly as many as its
    changes between reachable and unreachable, the first ping raising none even
    when the host is down; and the time kept as "since" is that of the ping that
    began the current run. *)
Theorem host_alerts_are_transitions `{E : Env} msg hostID hostName o obs m :
  afault QInsertEvent = false -> health m !! hostID = None ->
  let m' := observe msg hostID hostName (o :: obs) m in
  length (aevents (adb m')) = (length (aevents (adb m)) + flips (is_up o) obs)%nat /\
  exists h, health m' !! hostID = Some h /\ Reachable h = is_up (List.last obs o) /\
    Since h = run_start (is_up o) o.2 obs.
Proof.
  intros Hnf Hnone. cbv zeta. unfold observe. cbn [foldl].
  set (m1 := recordHealth msg hostID hostName o.1 o.2 m).
  assert (Hm1 : health m1 !! hostID = Some (mkHealth (is_up o) o.2 o.2 (default "" o.1)) /\ adb m1 = adb m).
  { unfold m1, recordHealth. rewrite Hnone. simpl. by rewrite lookup_insert_eq. }
  destruct Hm1 as [Hh Ha]. rewrite <- Ha. clear Ha Hnone.
  assert (Hgen : forall obs m1 p, health m1 !! hostID = Some p ->
    length (aevents (adb (observe msg hostID hostName obs m1))) =
      (length (aevents (adb m1)) + flips (Reachable p) obs)%nat /\
    exists h, health (observe msg hostID hostName obs m1) !! hostID = Some h /\
      Reachable h = match last obs with Some x => is_up x | None => Reachable p end /\
      Since h = run_start (Reachable p) (Since p) obs).
  { clear -Hnf. induction obs as [|x obs IH]; intros m1 p Hp; simpl.
    - split; [lia|]. eauto.
    - destruct (recordHealth_known msg hostID hostName x m1 p Hnf Hp) as [Hh Hl].
      destruct (IH _ _ Hh) as [Hlen (h & Hh' & Hr & Hs)]. simpl in *. split; [rewrite Hlen, Hl; destruct (Bool.eqb _ _); lia|].
      exists h. split; [done|]. split; [|done]. rewrite Hr. clear. destruct obs as [|y obs]; [done|]. rewrite last_cons_cons. by destruct (last (y :: obs)) eqn:El; [|apply last_None in El]. }
  destruct (Hgen obs m1 _ Hh) as [Hlen (h & Hh' & Hr & Hs)]. split; [done|].
  exists h. split; [done|]. split; [|done]. rewrite Hr. clear. revert o.
  induction obs as [|x obs IH]; intros o; [done|]. destruct obs as [|y obs]; [done|]. apply (IH o).
Qed.
