(* ===== verification/MonitorExamples.v ===== *)
(** * Concrete runs of the alert engine

    An environment the theorems of [MonitorSpec] are applied in, and two restart
    rules that get in each other's way. *)
From S2P Require Import Prelude GoStrings Floats Users Roles Calendar Maintenance Alerts History Monitor MonitorSpec.

(** Rule configurations by a short name instead of JSON. *)
Definition demo_decoder : Decoder := {|
  json_resource s := if String.eqb s "cpu>80" then Some (mkRC "" "" (of_Z 80) 0)
                     else if String.eqb s "cpu>10" then Some (mkRC "cpu" ">" (of_Z 10) 30) else None;
  json_state s := if String.eqb s "die" then Some (mkSC ["die"]) else None;
  json_restart s := if String.eqb s "2 in 60s" then Some (mkRestartC 60 2)
                    else if String.eqb s "3 in 600s" then Some (mkRestartC 600 3) else None;
  json_network s := if String.eqb s "drops" then Some (mkNC "netdrops" fzero 0) else None
|}.

Definition base : Z := 738000 * day_ns.

(** A clock that advances [step] between readings, the given windows throughout,
    maps visited in table order, a store that never fails. *)
Definition demo_env (step : Z) (ws : list MaintenanceWindow) : Env := {|
  clock n := base + Z.of_nat n * step;
  windows _ := mkWindows ws 1;
  shuffle A n l := l;
  shuffle_perm A n l := reflexivity l;
  hostdb := mkDB ∅ 0 ∅ ∅ ∅ {[1 := "local"; 7 := "ssh"]} [] 0;
  qfault _ := false; wfault _ := false; afault _ := false;
  tzdb _ := None; ToLower s := s; ToUpper s := s;
  env_decoder := demo_decoder
|}.

Definition fresh (rules : list AlertRule) : Mon :=
  mkMon 0 ∅ ∅ ∅ ∅ (mkADB rules 9 [] 0 ∅ []) [] ∅ 0 None.

Definition die_rule : AlertRule := mkRule 4 "died" true "state" "" "die" "critical" (Some 2) true [] 60.

(** Everything is silenced for the first hour. *)
Definition hush : MaintenanceWindow :=
  mkWin 1 "hush" "deploy" 1 [] "" "" None [] false base (base + hour) [] "" 0 "" false base.

Example alert_delivered_or_silenced_witness :
  outbox (emit (E := demo_env second [hush]) die_rule 7 "edge" "c1" "web" "" "died" None KindFiring 0 (fresh [])).1 = [] /\
  exists ev, outbox (emit (E := demo_env second []) die_rule 7 "edge" "c1" "web" "" "died" None KindFiring 0 (fresh [])).1
    = [DWebhook 2 ev; DEmail [] ev].
Proof.
  split.
  - pose proof (alert_delivered_or_silenced (E := demo_env second [hush]) die_rule 7 "edge" "c1" "web" "" "died" None
      KindFiring 0 (fresh []) _ _ ltac:(vm_compute; discriminate) eq_refl eq_refl (surjective_pairing _))
      as (_ & H & _ & _).
    apply H. exists hush. split; [by left|]. split; vm_compute; reflexivity.
  - pose proof (alert_delivered_or_silenced (E := demo_env second []) die_rule 7 "edge" "c1" "web" "" "died" None
      KindFiring 0 (fresh []) _ _ ltac:(vm_compute; discriminate) eq_refl eq_refl (surjective_pairing _))
      as (_ & _ & H & _).
    apply H. intros (w & Hw & _). by apply not_elem_of_nil in Hw.
Defined.

(** One running container on host 7, and a condition held on host 8. *)
Definition busy : ContainerStat :=
  mkCS 7 "edge" "c1" "web" "running" "" (of_Z 90) (of_Z 4) 0 0 (of_Z 0) 0 0 0 0 fzero fzero false false true.
Definition remote_state : AlertState :=
  mkAState 8 "far" "c9" "db" "cpu" 1 "cpu" "warning" None base base.
Definition cpu_rules : list AlertRule :=
  [mkRule 1 "busy" true "resource" "" "cpu>10" "warning" None false [] 60;
   mkRule 2 "very busy" true "resource" "" "cpu>80" "critical" None false [] 60].

(** Both rules have been over threshold for a minute. *)
Definition engine : Mon :=
  mkMon 60 ∅ {[ruleKey 1 "c1" := base; ruleKey 2 "c1" := base]} ∅ ∅
    (mkADB cpu_rules 2 [] 0 {[(8, "c9", "cpu") := remote_state]} []) [] ∅ 0 None.

Example unobserved_host_untouched_witness :
  astates (adb (evalResourceRules (E := demo_env second []) {["c1" := busy]} {[7]} engine)) !! (8, "c9", "cpu")
    = Some remote_state.
Proof.
  pose proof (unobserved_host_untouched (E := demo_env second []) {["c1" := busy]} {[7]} engine 8) as H.
  destruct H as [H _].
  - intros cid cs [<- <-]%lookup_singleton_Some. by apply elem_of_singleton.
  - by rewrite elem_of_singleton.
  - rewrite H. vm_compute. reflexivity.
Defined.

Example conditions_track_reality_witness :
  is_Some (astates (adb (evalResourceRules (E := demo_env second []) {["c1" := busy]} {[7]} engine)) !! (7, "c1", "cpu")).
Proof.
  pose proof (conditions_track_reality (E := demo_env second []) {["c1" := busy]} {[7]} engine) as H.
  destruct H as [H _].
  - done.
  - intros k st Hk. change (astates (adb engine)) with ({[(8, "c9", "cpu") := remote_state]} : gmap _ AlertState) in Hk.
    apply lookup_singleton_Some in Hk as [<- <-]. split; [done|]. split; [by split|].
    by apply (bool_decide_unpack _).
  - intros cid cs [<- <-]%lookup_singleton_Some. split; [by split|]. by apply (bool_decide_unpack _).
  - apply H. left. eexists. split; vm_compute; reflexivity.
Defined.

Example most_severe_speaks_witness :
  exists c, winners (scan (E := demo_env second []) cpu_rules [busy] engine).2 !! stateKey 7 "c1" "cpu" = Some c /\
    3 <= severityRank (aSeverity (cRule c)).
Proof.
  pose proof (most_severe_speaks (E := demo_env second []) cpu_rules [busy] engine) as H.
  destruct H as [_ H].
  - by apply (bool_decide_unpack (NoDup [1; 2])).
  - apply NoDup_singleton.
  - intros r [->|[->|[]%not_elem_of_nil]%elem_of_cons]%elem_of_cons; by split.
  - apply (H (mkRule 2 "very busy" true "resource" "" "cpu>80" "critical" None false [] 60)
             (mkRC "cpu" ">" (of_Z 80) 30) busy (of_Z 90) base).
    + split; [right; left|]. repeat split; try reflexivity. left.
    + reflexivity.
    + vm_compute. reflexivity.
    + vm_compute. reflexivity.
    + intros n Hn. change (dur_mul _ second) with (30 * second). unfold time_sub. simpl in *.
      unfold base, int64_min, int64_max, second in *. lia.
Defined.

(** ** Restart rules with different windows *)

Definition started (cid name : string) : Event := mkDEvent "start" cid name "".
Definition narrow_rule : AlertRule := mkRule 1 "flapping" true "restart" "" "2 in 60s" "warning" None false [] 60.
Definition wide_rule : AlertRule := mkRule 2 "crash loop" true "restart" "" "3 in 600s" "critical" None false [] 60.

(** Three starts of one container. *)
Definition three_starts (rules : list AlertRule) : Mon :=
  let E := demo_env (50 * second) [] in
  foldl (fun m e => handleEvent 7 "edge" e m) (fresh rules) (repeat (started "c1" "web") 3).

(** one restart rule can blind another.  Counting restarts for a rule drops the
    timestamps older than THAT rule's window for good, so with a 60-second rule
    evaluated first, a rule for 3 restarts in 600 seconds never sees three: on the
    same three starts within 600 seconds it fires when it is alone and stays
    silent when the narrower rule exists beside it. *)
Theorem narrow_restart_rule_blinds_wide_one :
  (eRuleID <$> aevents (adb (three_starts [wide_rule]))) = [2] /\
  (eRuleID <$> aevents (adb (three_starts [narrow_rule; wide_rule]))) = [] /\
  time_sub (clock (Env := demo_env (50 * second) []) (ticks (three_starts [narrow_rule; wide_rule]))) base < 600 * second.
Proof. repeat split; vm_compute; reflexivity. Qed.

Definition held : AlertState := mkAState 7 "edge" "c1" "web" "cpu" 2 "very busy" "critical" None base base.
Definition holding : Mon := mkMon 0 ∅ ∅ ∅ ∅ (mkADB [] 0 [] 0 {[(7, "c1", "cpu") := held]} []) [] ∅ 0 None.
Definition winning : candidate :=
  mkCand (mkRule 2 "very busy" true "resource" "" "" "critical" None false [] 60) (mkRC "cpu" ">" (of_Z 80) 30) busy (of_Z 90).

(** Half a minute after the last notification, with a one minute interval. *)
Example steady_condition_silent_witness :
  aevents (adb (announce (E := demo_env second []) (base + 30 * second) {["k" := held]} "k" winning holding)) = [].
Proof.
  apply (steady_condition_silent (E := demo_env second []) (base + 30 * second) {["k" := held]} "k" winning holding held).
  - done.
  - reflexivity.
  - reflexivity.
  - reflexivity.
  - right. vm_compute. reflexivity.
Defined.

(** The counter of the previous sample was higher: the container was recreated. *)
Definition counted (rx : Z) : ContainerStat :=
  mkCS 7 "edge" "c1" "web" "running" "" fzero fzero 0 0 fzero rx 5 0 0 fzero fzero false false true.

Example net_rates_measured_witness :
  match applyNetRates {["c1" := counted 10]} {["c1" := counted 400]} (of_Z 15) !! "c1" with
  | Some cs => NetRxRateOK cs = false /\ NetTxRateOK cs = true
  | None => False
  end.
Proof.
  pose proof (net_rates_measured {["c1" := counted 10]} {["c1" := counted 400]} (of_Z 15) "c1") as H.
  assert (fle (of_Z 15) fzero = false) as H1 by (vm_compute; reflexivity).
  assert (forall cs, ({["c1" := counted 10]} : gmap string ContainerStat) !! "c1" = Some cs ->
    NetRxRateOK cs = false /\ NetTxRateOK cs = false) as H2 by (by intros cs [_ <-]%lookup_singleton_Some).
  specialize (H H1 H2). rewrite lookup_singleton_eq in H.
  destruct (applyNetRates _ _ _ !! "c1") as [cs|]; [|done].
  rewrite lookup_singleton_eq in H. simpl in H. destruct H as (Hr & Ht & _).
  split; [|apply Ht; exists (counted 400); split; [reflexivity|simpl; lia]].
  apply not_true_iff_false. rewrite Hr. intros (p & [= <-] & Hle). simpl in Hle. lia.
Defined.

(** Down at startup, up, down again: two alerts. *)
Example host_alerts_are_transitions_witness :
  length (aevents (adb (observe (E := demo_env second []) (fun h _ => h) 7 "edge"
    [(Some "refused", base); (None, base + 30); (Some "refused", base + 60)] (fresh [])))) = 2%nat.
Proof.
  destruct (host_alerts_are_transitions (E := demo_env second []) (fun h _ => h) 7 "edge" (Some "refused", base)
    [(None, base + 30); (Some "refused", base + 60)] (fresh [])) as [H _]; [reflexivity|reflexivity|].
  rewrite H. reflexivity.
Defined.

Example query_all_is_query_witness :
  mem_QueryAll (mkMem {["c1" := {["cpu" := [mkPoint 5 fzero]]}]} ∅ 0) "cpu" base ["c1"; "c2"] !! "c2" = None.
Proof.
  rewrite (query_all_is_query (mkMem {["c1" := {["cpu" := [mkPoint 5 fzero]]}]} ∅ 0) "cpu" base ["c1"; "c2"] "c2");
    [vm_compute; reflexivity|by apply (bool_decide_unpack _)].
Defined.
