(* ===== verification/Compose.v ===== *)
(** * The resolved compose model (internal/docker/deployfields.go, registry.go, registry_tags.go)

    What the program reads of [docker compose config --format json], and the
    reading of an image reference. Decoding the JSON itself is encoding/json's. *)
From S2P Require Import Prelude GoStrings Floats Paths.

(** ** Strings in Go's order *)
Lemma str_app_assoc (a b c : string) : (a +:+ b) +:+ c = a +:+ (b +:+ c).
Proof. induction a as [|d a IH]; [done|]. change (String d ((a +:+ b) +:+ c) = String d (a +:+ (b +:+ c))). by rewrite IH. Qed.

Lemma Join_app a b sep : a <> [] -> b <> [] -> Join (a ++ b) sep = Join a sep +:+ sep +:+ Join b sep.
Proof.
  intros Ha Hb. induction a as [|x a IH]; [done|]. destruct a as [|y a]; [by destruct b|].
  change (Join ((x :: y :: a) ++ b) sep) with (x +:+ sep +:+ Join ((y :: a) ++ b) sep). rewrite IH by done.
  change (Join (x :: y :: a) sep) with (x +:+ sep +:+ Join (y :: a) sep). by rewrite !str_app_assoc.
Qed.

Lemma unsplit_inj cs ds : Forall plain cs -> Forall plain ds -> unsplit true cs = unsplit true ds <-> cs = ds.
Proof.
  intros Hc Hd. split; [|by intros ->]. intros H.
  destruct (components_unsplit true cs) as [_ <-]; [by exists 0%nat, cs|].
  destruct (components_unsplit true ds) as [_ <-]; [by exists 0%nat, ds|]. by rewrite H.
Qed.

(** A path is an ancestor of another when its components are a proper prefix. *)
Lemma ancestor_prefix cs ds : cs <> [] -> Forall plain cs -> Forall plain ds ->
  HasPrefix (unsplit true ds) (unsplit true cs +:+ "/") = true <-> exists rest, rest <> [] /\ ds = cs ++ rest.
Proof.
  intros Hne Hc Hd. rewrite HasPrefix_spec. unfold unsplit. split.
  - intros [r Hr].
    assert (Join ds "/" = Join cs "/" +:+ String slash r) as E.
    { rewrite !str_app_assoc in Hr. injection Hr as Hr. exact Hr. }
    assert (ds <> []) as Hds.
    { intros ->. destruct (Join cs "/"); discriminate E. }
    pose proof (Split_Join ds Hds (plain_free _ Hd)) as Hsp. rewrite E, Split_app, (Split_Join cs Hne (plain_free _ Hc)) in Hsp.
    exists (Split r slash). split; [|done]. by destruct (Split_cons r slash) as (? & ? & ->).
  - intros (rest & Hr & ->). exists (Join rest "/"). destruct rest as [|w ws]; [done|]. clear Hd Hc Hr.
    rewrite Join_app by done. by rewrite !str_app_assoc.
Qed.

Lemma names_plain l : forallb (fun w => negb (one_of w [""; "."; ".."]) && forallb (fun c => negb (Ascii.eqb c slash)) (bytes w)) l = true -> Forall plain l.
Proof.
  rewrite forallb_forall, Forall_forall. intros H w Hw%list_elem_of_In. specialize (H w Hw). bsimp.
  match goal with H : one_of _ _ = false |- _ => apply one_of_false in H; rename H into Hn end.
  split; [set_solver|]. split; [set_solver|]. split; [set_solver|]. intros Hin%list_elem_of_In.
  match goal with H : forallb _ _ = true |- _ => rewrite forallb_forall in H; specialize (H _ Hin) end. by rewrite Ascii.eqb_refl in *.
Qed.

(** [sort.Strings] *)
Definition sort_strings : list string -> list string := merge_sort String.le.

Lemma sort_strings_perm l : sort_strings l ≡ₚ l.
Proof. apply merge_sort_Permutation. Qed.

Lemma sort_strings_sorted l : StronglySorted String.le (sort_strings l).
Proof. apply (StronglySorted_merge_sort _). Qed.

Lemma elem_of_sort_strings x l : x ∈ sort_strings l <-> x ∈ l.
Proof. by rewrite sort_strings_perm. Qed.

(** ** One service, as compose resolves it *)
Record ServicePort := mkPort { Target : Z; Published : string; Protocol : string }.
Record VolumeSpec := mkVol { vType : string; vSource : string; vTarget : string }.

#[export] Instance ServicePort_eq_dec : EqDecision ServicePort. Proof. solve_decision. Defined.
#[export] Instance VolumeSpec_eq_dec : EqDecision VolumeSpec. Proof. solve_decision. Defined.

Record HealthDoc := mkHealthDoc { hdTest : list string; hdInterval : string; hdTimeout : string; hdRetries : Z; hdDisable : bool }.

(** [cpus] and [memory] are those of deploy.resources.limits, [CPUs] and
    [MemLimit] the short syntax. *)
Record ServiceDoc := mkService {
  dImage : string; dEnv : gmap string string; dPorts : list ServicePort; dVolumes : list VolumeSpec; dNetworks : gset string;
  dRestart : string; Privileged : bool; NetworkMode : string; Pid : string; LimitCPUs : float64; LimitMemory : Z;
  CPUs : float64; MemLimit : Z; dHealth : option HealthDoc
}.

(** [Networks] and [Volumes]: the real, project-prefixed name of each local one. *)
Record composeConfigDoc := mkDoc { docNetworks : gmap string string; docVolumes : gmap string string; Services : gmap string ServiceDoc }.

Definition service_names (cfg : composeConfigDoc) : list string := sort_strings (map_to_list (Services cfg)).*1.

Lemma elem_of_service_names cfg n : n ∈ service_names cfg <-> exists svc, Services cfg !! n = Some svc.
Proof.
  unfold service_names. rewrite elem_of_sort_strings, list_elem_of_fmap. split.
  - intros ([m svc] & -> & H%elem_of_map_to_list). eauto.
  - intros [svc H]. exists (n, svc). by rewrite elem_of_map_to_list.
Qed.

Lemma NoDup_service_names cfg : NoDup (service_names cfg).
Proof. unfold service_names. rewrite sort_strings_perm. apply NoDup_fst_map_to_list. Qed.

(** ** Image references *)
Definition ContainsAny (s : string) (chars : list Ascii.ascii) : bool := existsb (fun c => bool_decide (c ∈ chars)) (bytes s).
Definition cut_digest (ref : string) : string := match IndexByte ref "@"%char with Some i => stake i ref | None => ref end.

Definition registryHost (ref : string) : string :=
  let ref := cut_digest ref in
  match IndexByte ref slash with
  | None => "docker.io"
  | Some i =>
      let first := stake i ref in
      if ContainsAny first ["."%char; ":"%char] || String.eqb first "localhost" then first else "docker.io"
  end.

Definition isLatestTag (ref : string) : bool :=
  if String.eqb ref "" then false
  else if Contains ref "@" then false
  else
    let rest := match LastIndexByte ref slash with Some i => sdrop (S i) ref | None => ref end in
    match LastIndexByte rest ":"%char with
    | None => true
    | Some i => String.eqb (sdrop (S i) rest) "latest"
    end.

Example latest_ex : isLatestTag "registry:5000/app" = true /\ isLatestTag "registry:5000/app:1.2" = false /\
  isLatestTag "nginx:latest" = true /\ isLatestTag "nginx:latest@sha256:ab" = false /\ isLatestTag "" = false /\
  registryHost "localhost/app" = "localhost" /\ registryHost "library/nginx" = "docker.io" /\ registryHost "r.io:5000/a/b@sha256:c" = "r.io:5000".
Proof. repeat split. Qed.
