(* ===== verification/Policy.v ===== *)
(** * Deploy policy (internal/docker/policy.go, internal/store/policy_rules.go, internal/api/policy_handlers.go)

    Which services of the resolved compose model break which rules, what a mount
    of the Docker socket is, how the rules are stored, and when a deploy is refused. *)
From S2P Require Import Prelude GoStrings Floats Paths Compose.

(** ** Rules *)
Definition RulePrivileged : string := "privileged".
Definition RuleHostNetwork : string := "host_network".
Definition RuleHostPID : string := "host_pid".
Definition RuleDockerSocket : string := "docker_socket_mount".
Definition RuleLatestTag : string := "latest_tag".
Definition RuleMissingLimits : string := "missing_resource_limits".
Definition RuleMissingHealthcheck : string := "missing_healthcheck".

Definition AllPolicyRules : list string :=
  [RulePrivileged; RuleHostNetwork; RuleHostPID; RuleDockerSocket; RuleLatestTag; RuleMissingLimits; RuleMissingHealthcheck].

Definition ModeOff : string := "off".
Definition ModeWarn : string := "warn".
Definition ModeBlock : string := "block".

Record PolicyViolation := mkViolation { pvRule : string; pvService : string; pvMode : string; pvDetail : string }.

(** ** The Docker socket *)
Definition dockerSocketCandidatePaths : list string := ["/var/run/docker.sock"; "/run/docker.sock"].

Definition all_digits (s : string) : bool := forallb (fun c => (48 <=? code c) && (code c <=? 57)) (bytes s).

(** [^/(?:var/)?run/user(?:/[0-9]+)?$] *)
Definition rootlessRuntimeDir (s : string) : bool :=
  existsb (fun p => String.eqb s p ||
    (HasPrefix s (p +:+ "/") && negb (String.eqb (TrimPrefix s (p +:+ "/")) "") && all_digits (TrimPrefix s (p +:+ "/"))))
    ["/run/user"; "/var/run/user"].

Definition mountsDockerSocket (source target : string) : bool :=
  let source := Clean source in
  let target := Clean target in
  if HasSuffix source "docker.sock" || HasSuffix target "docker.sock" then true
  else if String.eqb source "/" then true
  else if rootlessRuntimeDir source then true
  else existsb (fun candidate => String.eqb source candidate || HasPrefix candidate (source +:+ "/")) dockerSocketCandidatePaths.

(** ** Evaluation *)

(** [modes[rule]]: an unset rule is off, and so is the empty mode. *)
Definition mode_of (modes : gmap string string) (rule : string) : string :=
  let mode := default "" (modes !! rule) in if String.eqb mode "" then ModeOff else mode.

Definition add_violation (modes : gmap string string) (rule service detail : string) : list PolicyViolation :=
  let mode := mode_of modes rule in
  if String.eqb mode ModeOff then [] else [mkViolation rule service mode detail].

Definition binds_socket (v : VolumeSpec) : bool := String.eqb (vType v) "bind" && mountsDockerSocket (vSource v) (vTarget v).

Definition fne (a b : float64) : bool := negb (SpecFloat.SFeqb a b).
Definition hasLimits (svc : ServiceDoc) : bool :=
  fne (LimitCPUs svc) fzero || negb (LimitMemory svc =? 0) || fne (CPUs svc) fzero || negb (MemLimit svc =? 0).

Definition service_violations (modes : gmap string string) (name : string) (svc : ServiceDoc) : list PolicyViolation :=
  let add := add_violation modes in
  (if Privileged svc then add RulePrivileged name "runs as a privileged container" else [])
  ++ (if String.eqb (NetworkMode svc) "host" then add RuleHostNetwork name "uses the host's network namespace" else [])
  ++ (if String.eqb (Pid svc) "host" then add RuleHostPID name "uses the host's PID namespace" else [])
  ++ (if existsb binds_socket (dVolumes svc) then add RuleDockerSocket name "mounts the Docker socket" else [])
  ++ (if isLatestTag (dImage svc)
      then add RuleLatestTag name ("image " +:+ String (Ascii.ascii_of_nat 34) (dImage svc) +:+ String (Ascii.ascii_of_nat 34) " has no pinned tag or digest") else [])
  ++ (if hasLimits svc then [] else add RuleMissingLimits name "has no CPU or memory limit")
  ++ (if match dHealth svc with None => true | Some h => hdDisable h end then add RuleMissingHealthcheck name "has no healthcheck" else []).

(** [cfg]: what encoding/json makes of the document, [None] for its error. *)
Definition EvaluatePolicy (cfg : option composeConfigDoc) (modes : gmap string string) : option (list PolicyViolation) :=
  cfg ← cfg;
  Some (flat_map (fun name => match Services cfg !! name with Some svc => service_violations modes name svc | None => [] end)
                 (service_names cfg)).

(** ** The stored modes (store/policy_rules.go) *)
Definition PolicyRuleIDs : list string :=
  ["privileged"; "host_network"; "host_pid"; "docker_socket_mount"; "latest_tag"; "missing_resource_limits"; "missing_healthcheck"].
Definition PolicyModes : list string := ["off"; "warn"; "block"].
Definition validPolicyRuleID (id : string) : bool := one_of id PolicyRuleIDs.
Definition validPolicyMode (mode : string) : bool := one_of mode PolicyModes.

(** The setting's text as the reader finds it: nothing, not a JSON object of
    strings, JSON's null, or such an object. *)
Inductive policy_row := PRNone | PRUnreadable | PRNull | PRModes (m : gmap string string).
Inductive PolicyErr := EPolicyDB | ErrPolicyRulesCorrupt | EPolicyResolve | EPolicyEvaluate.
#[export] Instance PolicyErr_eq_dec : EqDecision PolicyErr. Proof. solve_decision. Defined.

Definition off_modes : gmap string string := list_to_map ((fun id => (id, "off")) <$> PolicyRuleIDs).
Definition valid_modes (m : gmap string string) : gmap string string :=
  filter (fun '(id, mode) => validPolicyRuleID id = true /\ validPolicyMode mode = true) m.

(** The map is returned with an error too, every rule off. [fault] is the database's. *)
Definition PolicyRuleModes (fault : bool) (row : policy_row) : gmap string string * option PolicyErr :=
  if fault then (off_modes, Some EPolicyDB)
  else match row with
       | PRNone => (off_modes, None)
       | PRUnreadable | PRNull => (off_modes, Some ErrPolicyRulesCorrupt)
       | PRModes m => (valid_modes m ∪ off_modes, None)
       end.

Definition SetPolicyRuleModes (fault : bool) (modes : gmap string string) (row : policy_row) : policy_row * option PolicyErr :=
  if fault then (row, Some EPolicyDB) else (PRModes (valid_modes modes), None).

(** ** The gate every deploy passes (api/policy_handlers.go) *)

(** [resolve]: ComposeConfigJSONFiles, the CLI's answer, [None] for its failure. It
    is not asked for when every rule is off. *)
Definition evaluateDeployPolicy (fault : bool) (row : policy_row) (resolve : option (option composeConfigDoc))
    : result PolicyErr (list PolicyViolation * list PolicyViolation) :=
  let '(modes, err) := PolicyRuleModes fault row in
  match err with
  | Some e => Err e
  | None =>
      let in_mode (m : string) := existsb (fun kv : string * string => String.eqb kv.2 m) (map_to_list modes) in
      let anyEnabled := existsb (fun kv : string * string => negb (String.eqb kv.2 ModeOff)) (map_to_list modes) in
      let anyBlock := in_mode ModeBlock in
      if negb anyEnabled then Ok ([], [])
      else match resolve with
           | None => if anyBlock then Err EPolicyResolve else Ok ([], [])
           | Some cfg =>
               match EvaluatePolicy cfg modes with
               | None => if anyBlock then Err EPolicyEvaluate else Ok ([], [])
               | Some vs => Ok (filter (fun v => pvMode v = ModeBlock) vs, filter (fun v => pvMode v = ModeWarn) vs)
               end
           end
  end.

Definition policyViolationSummary (vs : list PolicyViolation) : string :=
  Join ((fun v => pvRule v +:+ ":" +:+ pvService v) <$> vs) ", ".

(** What the response carries, and the audit lines: the action's suffix and its detail. *)
Inductive PolicyReply :=
  | PolicyFailed (corrupt : bool)
  | PolicyBlocked (vs : list PolicyViolation)
  | PolicyNeedsConfirmation (vs : list PolicyViolation).

Definition policyKindDeploy : string := "deploy".
Definition policyKindRestore : string := "restore".
Definition policy_action (kind what : string) : string :=
  (if String.eqb kind policyKindRestore then "project.revision.restore." else "project.deploy.") +:+ what.

(** How the error's text starts; what it wraps is the database's or the CLI's own. *)
Definition policy_error_prefix (e : PolicyErr) : string :=
  match e with
  | ErrPolicyRulesCorrupt => "policy check: the stored policy rules are unreadable"
  | EPolicyDB => "policy check: could not load policy rules: "
  | EPolicyResolve => "policy check: could not resolve compose config: "
  | EPolicyEvaluate => "policy check: could not evaluate policy: "
  end.

Definition policyCheckOrRefuse (verdict : result PolicyErr (list PolicyViolation * list PolicyViolation)) (confirmed : bool) (kind : string)
    : list (string * string) * option PolicyReply :=
  match verdict with
  | Err e =>
      ([(policy_action kind "policy_check_failed", policy_error_prefix e)],
       Some (PolicyFailed (bool_decide (e = ErrPolicyRulesCorrupt))))
  | Ok (blocked, warned) =>
      match blocked, warned with
      | _ :: _, _ => ([(policy_action kind "policy_block", policyViolationSummary blocked)], Some (PolicyBlocked blocked))
      | [], _ :: _ =>
          if confirmed then ([(policy_action kind "policy_warn_ack", policyViolationSummary warned)], None)
          else ([], Some (PolicyNeedsConfirmation warned))
      | [], [] => ([], None)
      end
  end.

(** GET and PUT of the settings page: the modes shown and whether the value is corrupt; [None] for the 500. *)
Definition handleGetPolicyRules (fault : bool) (row : policy_row) : option (gmap string string * bool) :=
  match PolicyRuleModes fault row with
  | (modes, None) => Some (modes, false)
  | (modes, Some ErrPolicyRulesCorrupt) => Some (modes, true)
  | (_, Some _) => None
  end.

Inductive PolicySaved := PSBadBody | PSFailed | PSSaved.
Definition handleSetPolicyRules (fault : bool) (body : option (gmap string string)) (row : policy_row)
    : policy_row * list (string * string) * PolicySaved :=
  match body with
  | None => (row, [], PSBadBody)
  | Some m => match SetPolicyRuleModes fault m row with
              | (row', None) => (row', [("policy.rules.update", "")], PSSaved)
              | (row', Some _) => (row', [], PSFailed)
              end
  end.

(** ** What the rules mean *)
Inductive breaks (svc : ServiceDoc) : string -> Prop :=
  | breaks_privileged : Privileged svc = true -> breaks svc RulePrivileged
  | breaks_network : NetworkMode svc = "host" -> breaks svc RuleHostNetwork
  | breaks_pid : Pid svc = "host" -> breaks svc RuleHostPID
  | breaks_socket v : v ∈ dVolumes svc -> vType v = "bind" -> mountsDockerSocket (vSource v) (vTarget v) = true -> breaks svc RuleDockerSocket
  | breaks_tag : isLatestTag (dImage svc) = true -> breaks svc RuleLatestTag
  | breaks_limits : hasLimits svc = false -> breaks svc RuleMissingLimits
  | breaks_health : (forall h, dHealth svc = Some h -> hdDisable h = true) -> breaks svc RuleMissingHealthcheck.

(** The rules a service breaks, in the order they are reported. *)
Definition broken (svc : ServiceDoc) : list string :=
  (if Privileged svc then [RulePrivileged] else []) ++ (if String.eqb (NetworkMode svc) "host" then [RuleHostNetwork] else [])
  ++ (if String.eqb (Pid svc) "host" then [RuleHostPID] else []) ++ (if existsb binds_socket (dVolumes svc) then [RuleDockerSocket] else [])
  ++ (if isLatestTag (dImage svc) then [RuleLatestTag] else []) ++ (if hasLimits svc then [] else [RuleMissingLimits])
  ++ (if match dHealth svc with None => true | Some h => hdDisable h end then [RuleMissingHealthcheck] else []).

Lemma elem_of_opt {A} (x y : A) (b : bool) : x ∈ (if b then [y] else []) <-> b = true /\ x = y.
Proof. destruct b; [rewrite list_elem_of_singleton|rewrite elem_of_nil]; naive_solver. Qed.

Lemma elem_of_opt_not {A} (x y : A) (b : bool) : x ∈ (if b then [] else [y]) <-> b = false /\ x = y.
Proof. destruct b; [rewrite elem_of_nil|rewrite list_elem_of_singleton]; naive_solver. Qed.

Lemma binds_socket_exact svc : existsb binds_socket (dVolumes svc) = true <->
  exists v, v ∈ dVolumes svc /\ vType v = "bind" /\ mountsDockerSocket (vSource v) (vTarget v) = true.
Proof.
  rewrite existsb_exists. setoid_rewrite <- list_elem_of_In. unfold binds_socket.
  split; intros (v & Hv & H); exists v; [bsimp; naive_solver|]. destruct H as [-> ->]. done.
Qed.

Lemma broken_exact svc rule : rule ∈ broken svc <-> breaks svc rule.
Proof.
  unfold broken. rewrite !elem_of_app, !elem_of_opt, elem_of_opt_not, !String.eqb_eq, binds_socket_exact. split.
  - intros [[H ->]|[[H ->]|[[H ->]|[[H ->]|[[H ->]|[[H ->]|[H ->]]]]]]]; try by constructor.
    + destruct H as (v & ? & ? & ?). by eapply breaks_socket.
    + constructor. intros h E. by rewrite E in H.
  - destruct 1; [by left|by (right; left)|by (do 2 right; left)| |by (do 4 right; left)|by (do 5 right; left)|].
    + do 3 right. left. eauto 10.
    + do 6 right. split; [|done]. destruct (dHealth svc) as [h|]; [by apply H|done].
Qed.

Lemma NoDup_opt_app {A} (b : bool) (x : A) (l : list A) : NoDup l -> x ∉ l -> NoDup ((if b then [x] else []) ++ l).
Proof. intros. destruct b; [by apply NoDup_cons|done]. Qed.

Lemma NoDup_broken svc : NoDup (broken svc).
Proof.
  assert (sublist (broken svc) AllPolicyRules) as Hs.
  { unfold broken, AllPolicyRules. repeat (case_match; simpl); repeat (apply sublist_skip || apply sublist_cons); apply sublist_nil_l. }
  eapply sublist_NoDup; [|exact Hs]. apply (bool_decide_unpack _). vm_compute. exact I.
Qed.

Definition violation_key (v : PolicyViolation) : string * string * string := (pvRule v, pvService v, pvMode v).

Lemma add_violation_keys modes rule name d : violation_key <$> add_violation modes rule name d =
  if String.eqb (mode_of modes rule) ModeOff then [] else [(rule, name, mode_of modes rule)].
Proof. unfold add_violation. by case_match. Qed.

(** The violations of one service, up to their wording. *)
Lemma service_violations_keys modes name svc :
  violation_key <$> service_violations modes name svc =
  (fun rule => (rule, name, mode_of modes rule)) <$> filter (fun rule => mode_of modes rule <> ModeOff) (broken svc).
Proof.
  unfold service_violations, broken.
  rewrite !fmap_app, !filter_app, !fmap_app.
  assert (forall (b : bool) rule d, fmap (M := list) violation_key (if b then add_violation modes rule name d else [])
    = (fun r => (r, name, mode_of modes r)) <$> filter (fun r => mode_of modes r <> ModeOff) (if b then [rule] else [])) as Hon.
  { intros [] rule d; [|done]. rewrite add_violation_keys, filter_cons, filter_nil.
    destruct (String.eqb (mode_of modes rule) ModeOff) eqn:E; bsimp; case_decide; done. }
  assert (forall (b : bool) rule d, fmap (M := list) violation_key (if b then [] else add_violation modes rule name d)
    = (fun r => (r, name, mode_of modes r)) <$> filter (fun r => mode_of modes r <> ModeOff) (if b then [] else [rule])) as Hoff.
  { intros b rule d. specialize (Hon (negb b) rule d). by destruct b. }
  by rewrite !Hon, Hoff.
Qed.

Lemma elem_of_violations cfg modes vs rule name mode : EvaluatePolicy (Some cfg) modes = Some vs ->
  (rule, name, mode) ∈ (violation_key <$> vs) <->
  exists svc, Services cfg !! name = Some svc /\ breaks svc rule /\ mode = mode_of modes rule /\ mode <> ModeOff.
Proof.
  intros [= <-]. rewrite list_elem_of_fmap. setoid_rewrite list_elem_of_In. setoid_rewrite in_flat_map.
  setoid_rewrite <- list_elem_of_In. setoid_rewrite elem_of_service_names. split.
  - intros (v & E & n & (svc & Hn) & Hv). rewrite Hn in Hv.
    assert ((rule, name, mode) ∈ (violation_key <$> service_violations modes n svc)) as H
      by (apply list_elem_of_fmap; eauto).
    rewrite service_violations_keys, list_elem_of_fmap in H. destruct H as (r & [= -> -> ->] & [Hm Hb]%list_elem_of_filter).
    exists svc. by rewrite <- broken_exact.
  - intros (svc & Hn & Hb & -> & Hm).
    assert ((rule, name, mode_of modes rule) ∈ (violation_key <$> service_violations modes name svc)) as H.
    { rewrite service_violations_keys, list_elem_of_fmap. exists rule. split; [done|]. apply list_elem_of_filter. by rewrite broken_exact. }
    apply list_elem_of_fmap in H as (v & E & Hv). exists v. split; [done|]. exists name. split; [eauto|]. by rewrite Hn.
Qed.


(** ** The stored rules *)
Lemma valid_modes_lookup m id mode :
  valid_modes m !! id = Some mode <-> m !! id = Some mode /\ id ∈ PolicyRuleIDs /\ mode ∈ PolicyModes.
Proof. unfold valid_modes, validPolicyRuleID, validPolicyMode. by rewrite map_lookup_filter_Some, !one_of_true. Qed.

Lemma off_modes_lookup id mode : off_modes !! id = Some mode <-> id ∈ PolicyRuleIDs /\ mode = ModeOff.
Proof.
  unfold off_modes. rewrite <- elem_of_list_to_map by (apply (bool_decide_unpack _); vm_compute; exact I).
  rewrite list_elem_of_fmap. naive_solver.
Qed.

Lemma modes_lookup fault row modes : PolicyRuleModes fault row = (modes, None) ->
  (forall id, is_Some (modes !! id) <-> id ∈ PolicyRuleIDs) /\ forall id mode, modes !! id = Some mode -> mode ∈ PolicyModes.
Proof.
  assert (ModeOff ∈ PolicyModes) as Hoff by left.
  unfold PolicyRuleModes. destruct fault; [done|]. destruct row as [| | |m]; intros [= <-].
  - split; [intros id; split; [intros [x H%off_modes_lookup]; tauto|intros H; exists ModeOff; by apply off_modes_lookup]|].
    by intros id mode [_ ->]%off_modes_lookup.
  - split.
    + intros id. rewrite lookup_union_is_Some. split.
      * intros [[x H%valid_modes_lookup]|[x H%off_modes_lookup]]; tauto.
      * intros H. right. exists ModeOff. by apply off_modes_lookup.
    + intros id mode [[_ [_ ?]]%valid_modes_lookup|[_ [_ ->]%off_modes_lookup]]%lookup_union_Some_raw; done.
Qed.

Lemma mode_of_lookup fault row modes rule : PolicyRuleModes fault row = (modes, None) ->
  (mode_of modes rule <> ModeOff <-> exists mode, modes !! rule = Some mode /\ mode <> ModeOff) /\
  (mode_of modes rule <> ModeOff -> modes !! rule = Some (mode_of modes rule) /\ (mode_of modes rule = ModeWarn \/ mode_of modes rule = ModeBlock)).
Proof.
  intros H. pose proof (modes_lookup _ _ _ H) as [_ Hv]. unfold mode_of. destruct (modes !! rule) as [mode|] eqn:E; simpl; [|naive_solver].
  specialize (Hv rule mode E). apply elem_of_cons in Hv as [->|[->|[->|[]%not_elem_of_nil]%elem_of_cons]%elem_of_cons];
    simpl; naive_solver.
Qed.

(** the rules an administrator saves are read back as saved, unknown rules and
    modes dropped and every other rule off, whatever was stored before; an
    unreadable value is never read as a set of rules. *)
Theorem policy_rules_round_trip m row :
  (let read := PolicyRuleModes false (SetPolicyRuleModes false m row).1 in
   read.2 = None /\ forall id, read.1 !! id =
       if validPolicyRuleID id then Some (match m !! id with Some mode => if validPolicyMode mode then mode else ModeOff | None => ModeOff end)
       else None) /\
  (PolicyRuleModes false PRUnreadable).2 = Some ErrPolicyRulesCorrupt /\ (PolicyRuleModes false PRNull).2 = Some ErrPolicyRulesCorrupt.
Proof.
  split; [|done]. split; [done|]. intros id. simpl.
  assert (valid_modes (valid_modes m) = valid_modes m) as ->.
  { apply map_eq. intros i. apply option_eq. intros x. rewrite !valid_modes_lookup. tauto. }
  destruct (validPolicyRuleID id) eqn:Hid.
  - apply one_of_true in Hid. destruct (m !! id) as [mode|] eqn:E.
    + destruct (validPolicyMode mode) eqn:Hm.
      * apply one_of_true in Hm. apply lookup_union_Some_l. by apply valid_modes_lookup.
      * apply one_of_false in Hm. rewrite lookup_union_r; [by apply off_modes_lookup|].
        apply eq_None_not_Some. intros [x Hx%valid_modes_lookup]. naive_solver.
    + rewrite lookup_union_r; [by apply off_modes_lookup|]. apply eq_None_not_Some. intros [x Hx%valid_modes_lookup]. naive_solver.
  - apply one_of_false in Hid. apply eq_None_not_Some. intros [x [[_ [? _]]%valid_modes_lookup|[_ [? _]%off_modes_lookup]]%lookup_union_Some_raw]; done.
Qed.

(** ** The gate *)

(** What the gate must establish before it lets a deploy of [resolve] through. *)
Definition deploy_allowed (modes : gmap string string) (resolve : option (option composeConfigDoc)) (confirmed : bool) : Prop :=
  match resolve with
  | Some (Some cfg) => forall name svc rule, Services cfg !! name = Some svc -> breaks svc rule ->
      mode_of modes rule <> ModeBlock /\ (mode_of modes rule = ModeWarn -> confirmed = true)
  | _ => forall rule, mode_of modes rule <> ModeBlock
  end.

Lemma some_mode fault row modes mode : PolicyRuleModes fault row = (modes, None) -> mode <> ModeOff ->
  existsb (fun kv : string * string => String.eqb kv.2 mode) (map_to_list modes) = true <-> exists rule, mode_of modes rule = mode.
Proof.
  intros H Hoff. rewrite existsb_exists. setoid_rewrite <- list_elem_of_In. split.
  - intros ([rule x] & Hin%elem_of_map_to_list & Hx%String.eqb_eq). simpl in Hx. subst x. exists rule.
    destruct (proj1 (mode_of_lookup fault row modes rule H)) as [_ Hl]. specialize (Hl (ex_intro _ mode (conj Hin Hoff))).
    pose proof (proj1 (proj2 (mode_of_lookup fault row modes rule H) Hl)). congruence.
  - intros (rule & Hr). assert (mode_of modes rule <> ModeOff) as Hne by congruence.
    apply (mode_of_lookup fault row modes rule H) in Hne as [Hl _]. rewrite Hr in Hl.
    exists (rule, mode). rewrite elem_of_map_to_list. split; [done|]. apply String.eqb_refl.
Qed.

Lemma none_enabled fault row modes : PolicyRuleModes fault row = (modes, None) ->
  existsb (fun kv : string * string => negb (String.eqb kv.2 ModeOff)) (map_to_list modes) = false -> forall rule, mode_of modes rule = ModeOff.
Proof.
  intros H Hn rule. destruct (decide (mode_of modes rule = ModeOff)) as [|Hne]; [done|exfalso].
  apply (mode_of_lookup fault row modes rule H) in Hne as [Hl Hm]. apply not_true_iff_false in Hn. apply Hn, existsb_exists.
  exists (rule, mode_of modes rule). rewrite <- list_elem_of_In, elem_of_map_to_list. split; [done|]. simpl. by destruct Hm as [-> | ->].
Qed.

Lemma filter_mode_nil cfg modes vs mode : EvaluatePolicy (Some cfg) modes = Some vs -> mode <> ModeOff ->
  filter (fun v => pvMode v = mode) vs = [] <-> forall name svc rule, Services cfg !! name = Some svc -> breaks svc rule -> mode_of modes rule <> mode.
Proof.
  intros H Hoff. split.
  - intros Hf name svc rule Hs Hb Hm.
    assert ((rule, name, mode) ∈ (violation_key <$> vs)) as (v & [= _ _ Hv] & Hin)%list_elem_of_fmap.
    { apply (elem_of_violations cfg modes vs rule name mode H). by exists svc. }
    assert (v ∈ filter (fun v => pvMode v = mode) vs) as Hx by (by apply list_elem_of_filter).
    rewrite Hf in Hx. by apply not_elem_of_nil in Hx.
  - intros Hn. destruct (filter _ vs) as [|v l] eqn:E; [done|exfalso].
    assert (v ∈ filter (fun v => pvMode v = mode) vs) as [Hm Hin]%list_elem_of_filter by (rewrite E; left).
    apply (list_elem_of_fmap_2 violation_key) in Hin. unfold violation_key in Hin.
    apply (elem_of_violations cfg modes vs _ _ _ H) in Hin as (svc & Hs & Hb & Hmo & _). apply (Hn _ _ _ Hs Hb). congruence.
Qed.

(** the gate lets a deploy through exactly when it could read the rules and,
    under them, no service breaks a blocking rule and every broken warning rule
    was confirmed; when the model itself cannot be resolved, exactly when no rule
    blocks. A database error or an unreadable value always refuses. *)
Theorem policy_gate_exact fault row resolve confirmed kind :
  (policyCheckOrRefuse (evaluateDeployPolicy fault row resolve) confirmed kind).2 = None <->
  exists modes, PolicyRuleModes fault row = (modes, None) /\ deploy_allowed modes resolve confirmed.
Proof.
  unfold evaluateDeployPolicy. destruct (PolicyRuleModes fault row) as [modes [e|]] eqn:H; [naive_solver|].
  transitivity (deploy_allowed modes resolve confirmed); [|naive_solver].
  destruct (existsb (fun kv : string * string => negb (String.eqb kv.2 ModeOff)) (map_to_list modes)) eqn:En; simpl; cycle 1.
  { pose proof (none_enabled fault row modes H En) as Hoff. split; [intros _|done].
    unfold deploy_allowed. repeat case_match; intros; rewrite !Hoff; done. }
  assert (existsb (fun kv : string * string => String.eqb kv.2 ModeBlock) (map_to_list modes) = false <-> forall rule, mode_of modes rule <> ModeBlock) as Hb.
  { rewrite <- not_true_iff_false, (some_mode fault row modes ModeBlock H) by done. naive_solver. }
  destruct resolve as [[cfg|]|]; simpl; [|by case_match; simpl; rewrite <- Hb..].
  set (vs := flat_map _ _). assert (EvaluatePolicy (Some cfg) modes = Some vs) as He by done.
  pose proof (filter_mode_nil cfg modes vs ModeBlock He ltac:(done)) as Hblk.
  pose proof (filter_mode_nil cfg modes vs ModeWarn He ltac:(done)) as Hwarn.
  destruct (filter (fun v => pvMode v = ModeBlock) vs) as [|b bs]; simpl; cycle 1.
  { split; [done|]. intros Ha. exfalso. assert (b :: bs = []); [|done]. apply Hblk. intros name svc rule Hs Hbr. by destruct (Ha name svc rule Hs Hbr). }
  pose proof (proj1 Hblk eq_refl) as Hok.
  destruct (filter (fun v => pvMode v = ModeWarn) vs) as [|w ws]; simpl.
  { split; [|done]. intros _ name svc rule Hs Hbr. split; [by eapply Hok|]. intros Hm. by destruct (proj1 Hwarn eq_refl name svc rule Hs Hbr). }
  destruct confirmed; simpl.
  { split; [|done]. intros _ name svc rule Hs Hbr. split; [by eapply Hok|done]. } split; [done|]. intros Ha. exfalso.
  destruct Hwarn as [_ Hw]. assert (w :: ws = []) by (apply Hw; intros name svc rule Hs Hbr Hm; destruct (Ha name svc rule Hs Hbr) as [_ Hc]; by specialize (Hc Hm)). done.
Qed.

(** ** Mounts of the socket *)
Lemma digits_plain s : s <> "" -> all_digits s = true -> plain s.
Proof.
  intros Hs Hd. unfold all_digits in Hd. rewrite forallb_forall in Hd.
  assert (forall c, c ∈ bytes s -> 48 <= code c <= 57) as Hc.
  { intros c Hc%list_elem_of_In. specialize (Hd c Hc). bsimp. lia. }
  split; [done|]. split; [|split].
  - intros ->. specialize (Hc "."%char ltac:(left)). vm_compute in Hc. naive_solver.
  - intros ->. specialize (Hc "."%char ltac:(left)). vm_compute in Hc. naive_solver.
  - intros Hin. specialize (Hc _ Hin). vm_compute in Hc. naive_solver.
Qed.

Definition run_user : list (list string) := [["run"; "user"]; ["var"; "run"; "user"]].
Definition socket_paths : list (list string) := [["var"; "run"; "docker.sock"]; ["run"; "docker.sock"]].

Lemma rootless_exact cs : Forall plain cs -> rootlessRuntimeDir (unsplit true cs) = true <->
  exists dir, dir ∈ run_user /\ (cs = dir \/ exists uid, uid <> "" /\ all_digits uid = true /\ cs = dir ++ [uid]).
Proof.
  intros Hc. unfold rootlessRuntimeDir. rewrite existsb_exists.
  assert (forall dir, dir ∈ run_user -> Forall plain dir /\ dir <> []) as Hrun.
  { intros dir Hd. repeat (apply elem_of_cons in Hd as [->|Hd]; [by split; [apply names_plain|]|]). by apply not_elem_of_nil in Hd. }
  assert (["/run/user"; "/var/run/user"] = unsplit true <$> run_user) as -> by done.
  split.
  - intros (p & Hp%list_elem_of_In & H). apply list_elem_of_fmap in Hp as (dir & -> & Hd). destruct (Hrun dir Hd) as [Hpl Hne].
    exists dir. split; [done|]. apply orb_true_iff in H as [H|H]; [left; apply String.eqb_eq in H; by apply (unsplit_inj cs dir Hc Hpl)|right].
    bsimp. match goal with H : HasPrefix _ _ = true |- _ => apply HasPrefix_spec in H as [r E] end. rewrite E, TrimPrefix_app in *.
    exists r. split; [done|]. split; [done|]. apply unsplit_inj; [done|by apply Forall_app; split; [|apply Forall_singleton, digits_plain]|].
    rewrite E. unfold unsplit. clear E.
    repeat (apply elem_of_cons in Hd as [->|Hd]; [done|]). by apply not_elem_of_nil in Hd.
  - intros (dir & Hd & H). exists (unsplit true dir). split; [by apply list_elem_of_In, list_elem_of_fmap_2|].
    apply orb_true_iff. destruct H as [->|(uid & Hu & Hdig & ->)]; [left; apply String.eqb_refl|right].
    assert (unsplit true (dir ++ [uid]) = (unsplit true dir +:+ "/") +:+ uid) as ->.
    { repeat (apply elem_of_cons in Hd as [->|Hd]; [done|]). by apply not_elem_of_nil in Hd. }
    rewrite HasPrefix_app, TrimPrefix_app, Hdig. apply String.eqb_neq in Hu. by rewrite Hu.
Qed.

(** a bind of an absolute path is reported as exposing the Docker socket exactly
    when its source or target names a docker.sock, when its source (cleaned) is a
    default socket or a directory above one, the root included, or when it is a
    rootless runtime directory. *)
Theorem socket_mount_exact source target : IsAbs source = true ->
  mountsDockerSocket source target = true <->
  HasSuffix (Clean source) "docker.sock" = true \/ HasSuffix (Clean target) "docker.sock" = true \/
  (exists sock rest, sock ∈ socket_paths /\ sock = components source ++ rest) \/
  (exists dir, dir ∈ run_user /\ (components source = dir \/
     exists uid, uid <> "" /\ all_digits uid = true /\ components source = dir ++ [uid])).
Proof.
  intros Habs. unfold mountsDockerSocket. destruct (HasSuffix (Clean source) "docker.sock") eqn:Hs; [naive_solver|].
  destruct (HasSuffix (Clean target) "docker.sock") eqn:Ht; [naive_solver|]. cbn [orb].
  assert (Forall plain (components source)) as Hpl.
  { destruct (components_normal source) as (n & names & E & Hp & Hn). rewrite E, Hn by done. done. }
  assert (Clean source = unsplit true (components source)) as -> by (unfold Clean; by rewrite Habs).
  revert Hpl. generalize (components source) as cs. intros cs Hpl.
  assert (String.eqb (unsplit true cs) "/" = true <-> cs = []) as Hroot.
  { rewrite String.eqb_eq. change "/" with (unsplit true []). rewrite unsplit_inj by (done || constructor). done. }
  destruct (String.eqb (unsplit true cs) "/").
  { split; [|done]. intros _. rewrite (proj1 Hroot eq_refl). right. right. left. eexists _, _. split; [left|]. done. }
  assert (cs <> []) as Hne by (intros ->; by destruct Hroot as [_ Hroot]; specialize (Hroot eq_refl)).
  pose proof (rootless_exact cs Hpl) as Hrl. destruct (rootlessRuntimeDir (unsplit true cs)).
  { split; [intros _; right; right; right; by apply Hrl|done]. }
  cbv iota. rewrite existsb_exists. assert (dockerSocketCandidatePaths = unsplit true <$> socket_paths) as -> by done.
  assert (forall sock, sock ∈ socket_paths -> Forall plain sock) as Hsock.
  { intros dir Hd. repeat (apply elem_of_cons in Hd as [->|Hd]; [by apply names_plain|]). by apply not_elem_of_nil in Hd. }
  split.
  - intros (p & Hp%list_elem_of_In & H). apply list_elem_of_fmap in Hp as (sock & -> & Hin). right. right. left. exists sock.
    apply orb_true_iff in H as [H|H].
    + apply String.eqb_eq in H. apply (unsplit_inj cs sock Hpl (Hsock sock Hin)) in H as ->. exists []. by rewrite app_nil_r.
    + apply ancestor_prefix in H as (rest & _ & ->); [|done|done|by apply Hsock]. by exists rest.
  - intros [?|[?|[(sock & rest & Hin & E)|H]]]; [done|done| |by apply Hrl in H]. exists (unsplit true sock).
    split; [by apply list_elem_of_In, list_elem_of_fmap_2|]. apply orb_true_iff. destruct rest as [|w rest].
    + left. rewrite app_nil_r in E. subst. apply String.eqb_refl.
    + right. apply ancestor_prefix; [done|done|by apply Hsock|]. by exists (w :: rest).
Qed.

(** ** Concrete inputs *)
Definition demo_svc : ServiceDoc := mkService "nginx" ∅ [] [mkVol "bind" "/var/run/" "/host"] ∅ "" false "" "" fzero 0 fzero 0 None.
Definition demo_doc : composeConfigDoc := mkDoc ∅ ∅ {["web" := demo_svc]}.
Definition demo_rules : gmap string string := {["docker_socket_mount" := "block"; "latest_tag" := "warn"; "bogus" := "block"]}.

Example demo_gate : forall confirmed, (policyCheckOrRefuse (evaluateDeployPolicy false (PRModes demo_rules) (Some (Some demo_doc))) confirmed policyKindDeploy).2 =
  Some (PolicyBlocked [mkViolation RuleDockerSocket "web" "block" "mounts the Docker socket"]).
Proof. by intros []; vm_compute. Qed.


Lemma socket_mount_exact_witness : mountsDockerSocket "/var/lib/../run/" "/x" = true.
Proof.
  apply (socket_mount_exact "/var/lib/../run/" "/x"); [reflexivity|]. right. right. left.
  exists ["var"; "run"; "docker.sock"], ["docker.sock"]. split; [apply list_elem_of_here|reflexivity].
Defined.
