(* ===== verification/Preview.v ===== *)
(** * What a deploy would change (internal/docker/preview.go, deployfields.go)

    The resolved compose model and the running containers, reduced to the same
    shape and compared field by field; reviewed drift; and the rewriting of bind
    sources between a snapshot's directory and the project's. *)
From S2P Require Import Prelude GoStrings Floats Paths Config Compose.

(** What the comparison takes from packages unicode, strconv and crypto/sha256:
    [Quote] is the %q verb, [Sha256Hex] the digest in hexadecimal. *)
Class TextEnv := { ToLower : string -> string; Quote : string -> string; Sha256Hex : string -> string }.

(** ** time.Duration.String *)
Fixpoint drop_zeros (rl : list Ascii.ascii) : list Ascii.ascii :=
  match rl with c :: l => if Ascii.eqb c "0"%char then drop_zeros l else rl | [] => [] end.
(** fmtFrac: the fraction of v/10^prec, no trailing zeros, no point when it is zero *)
Definition fmtFrac (v : Z) (prec : nat) : string :=
  match rev (drop_zeros (rev (bytes (pad_left prec (FormatInt (v mod 10 ^ Z.of_nat prec)))))) with
  | [] => ""
  | l => "." +:+ of_bytes l
  end.
Definition micro : string := String (Ascii.ascii_of_nat 194) (String (Ascii.ascii_of_nat 181) "").
Definition DurationString (d : Z) : string :=
  let u := Z.abs d in
  let body :=
    if u <? second then
      if u =? 0 then "0s"
      else if u <? 1000 then FormatInt u +:+ "ns"
      else if u <? 1000000 then FormatInt (u / 1000) +:+ fmtFrac u 3 +:+ micro +:+ "s"
      else FormatInt (u / 1000000) +:+ fmtFrac u 6 +:+ "ms"
    else
      let s := u / second in
      let m := s / 60 in
      (if m =? 0 then "" else if m / 60 =? 0 then FormatInt (m mod 60) +:+ "m" else FormatInt (m / 60) +:+ "h" +:+ FormatInt (m mod 60) +:+ "m")
      +:+ FormatInt (s mod 60) +:+ fmtFrac u 9 +:+ "s" in
  (if d <? 0 then "-" else "") +:+ body.

Example durations : DurationString (90 * second) = "1m30s" /\ DurationString (1500 * 10 ^ 6) = "1.5s" /\ DurationString (3600 * second) = "1h0m0s" /\
  DurationString 0 = "0s" /\ DurationString (2500 * 1000) = "2.5ms" /\ DurationString (-7) = "-7ns".
Proof. repeat split; vm_compute; reflexivity. Qed.

(** ** Services *)
Record HealthcheckSpec := mkHC { hcTest : list string; hcInterval : Z; hcTimeout : Z; hcRetries : Z }.
Record ServiceSpec := mkSpec {
  sName : string; sImage : string; Detailed : bool; sEnv : gmap string string; sPorts : list ServicePort; sVolumes : list VolumeSpec;
  sNetworks : list string; sRestart : string; CPULimit : float64; MemoryLimit : Z; sHealth : option HealthcheckSpec
}.

Definition port_le (a b : ServicePort) : Prop :=
  if decide (Target a = Target b) then
    if decide (Protocol a = Protocol b) then String.le (Published a) (Published b) else String.le (Protocol a) (Protocol b)
  else Target a <= Target b.
#[export] Instance port_le_dec : RelDecision port_le.
Proof. intros a b. unfold port_le. repeat case_decide; apply _. Defined.
Definition sortPorts : list ServicePort -> list ServicePort := merge_sort port_le.

(** Mounts of one target keep their order (sort.Slice's insertion sort, for the
    dozen mounts a service has). *)
Definition volume_le (a b : VolumeSpec) : Prop := String.le (vTarget a) (vTarget b).
#[export] Instance volume_le_dec : RelDecision volume_le.
Proof. intros a b. unfold volume_le. apply _. Defined.
Definition sortVolumes : list VolumeSpec -> list VolumeSpec := merge_sort volume_le.

(** The name a local network or volume has outside the project. *)
Definition real_name (names : gmap string string) (local : string) : string :=
  match names !! local with Some n => if String.eqb n "" then local else n | None => local end.

Definition serviceSpecFromComposeDoc (cfg : composeConfigDoc) (name : string) (svc : ServiceDoc) : ServiceSpec :=
  mkSpec name (dImage svc) true (dEnv svc) (sortPorts (dPorts svc))
    (sortVolumes ((fun v => mkVol (vType v) (if String.eqb (vType v) "volume" then real_name (docVolumes cfg) (vSource v) else vSource v) (vTarget v))
                  <$> dVolumes svc))
    (sort_strings (real_name (docNetworks cfg) <$> elements (dNetworks svc)))
    (dRestart svc)
    (if fgt (LimitCPUs svc) fzero then LimitCPUs svc else fzero)
    (if 0 <? LimitMemory svc then LimitMemory svc else 0)
    (h ← dHealth svc;
     match hdTest h with
     | [] => None
     | _ => Some (mkHC (hdTest h) (default 0 (ParseDuration (hdInterval h))) (default 0 (ParseDuration (hdTimeout h))) (hdRetries h))
     end).

Definition ParseComposeServices (cfg : option composeConfigDoc) : option (list ServiceSpec) :=
  cfg ← cfg; Some (omap (fun n => serviceSpecFromComposeDoc cfg n <$> Services cfg !! n) (service_names cfg)).

(** One container of a stack (docker/stacks.go) as the comparison reads it. *)
Record StackContainer := mkStackC { scID : string; scService : string; scImage : string }.

Definition spec_le (a b : ServiceSpec) : Prop := String.le (sName a) (sName b).
#[export] Instance spec_le_dec : RelDecision spec_le.
Proof. intros a b. unfold spec_le. apply _. Defined.

(** The first container of each service. *)
Fixpoint first_per_service (seen : gset string) (cs : list StackContainer) : list StackContainer :=
  match cs with
  | [] => []
  | c :: cs =>
      if String.eqb (scService c) "" || bool_decide (scService c ∈ seen) then first_per_service seen cs
      else c :: first_per_service ({[scService c]} ∪ seen) cs
  end.
Definition RunningServices (cs : list StackContainer) : list ServiceSpec :=
  merge_sort spec_le ((fun c => mkSpec (scService c) (scImage c) false ∅ [] [] [] "" fzero 0 None) <$> first_per_service ∅ cs).
(** [inspect]: LiveServiceSpec; a service whose inspect fails is left out. *)
Definition LiveServices (inspect : string -> option ServiceSpec) (cs : list StackContainer) : list ServiceSpec :=
  merge_sort spec_le (omap (fun c => (fun s => mkSpec (scService c) (scImage c) (Detailed s) (sEnv s) (sPorts s) (sVolumes s) (sNetworks s)
                                       (sRestart s) (CPULimit s) (MemoryLimit s) (sHealth s)) <$> inspect (scID c)) (first_per_service ∅ cs)).

(** ** Images *)
Section Compare.
Context `{TE : TextEnv}.

Definition repo_char (c : Ascii.ascii) : bool := (97 <=? code c) && (code c <=? 122) || (48 <=? code c) && (code c <=? 57).
Definition repo_punct (c : Ascii.ascii) : bool := one_of (String c "") ["."; "_"; "-"].
(** [[a-z0-9]+(?:[._-][a-z0-9]+)*], [prev] after a separator or at the start *)
Fixpoint repo_segment (prev : bool) (l : list Ascii.ascii) : bool :=
  match l with
  | [] => negb prev
  | c :: l => if repo_char c then repo_segment false l else repo_punct c && negb prev && repo_segment true l
  end.
Definition dockerRepo (s : string) : bool := forallb (fun w => repo_segment true (bytes w)) (Split s slash).

Definition repoPathForRef (ref host : string) : option string :=
  let ref := TrimSpace (ToLower ref) in
  let ref := cut_digest ref in
  let ref := TrimPrefix ref (ToLower host +:+ "/") in
  let ref := match LastIndexByte ref ":"%char with Some i => stake i ref | None => ref end in
  if String.eqb ref "" || negb (dockerRepo ref) then None else Some ref.

Definition ImageRepoKey (ref : string) : string :=
  let host := registryHost ref in
  match repoPathForRef ref host with None => ToLower ref | Some repo => host +:+ "/" +:+ repo end.

Definition imagesDiffer (want have : string) : bool :=
  if String.eqb want have then false
  else if negb (Contains have "@") then true
  else negb (String.eqb (ImageRepoKey want) (ImageRepoKey have)).

(** ** Changes *)
Record ServiceChange := mkChange {
  chService : string; chKind : string; chFrom : string; chTo : string; chDetail : string; Existing : bool; Recreates : bool; Ignored : bool
}.

Definition nul : string := String (Ascii.ascii_of_nat 0) "".
Definition fingerprint_text (c : ServiceChange) : string := chKind c +:+ nul +:+ chFrom c +:+ nul +:+ chTo c +:+ nul +:+ chDetail c.
Definition ChangeFingerprint (c : ServiceChange) : string := stake 16 (Sha256Hex (fingerprint_text c)).

Definition ignore_key (c : ServiceChange) : string * string * string := (chService c, chKind c, ChangeFingerprint c).
Definition MarkIgnoredChanges (changes : list ServiceChange) (ignored : gset (string * string * string)) : list ServiceChange :=
  (fun c => if bool_decide (ignore_key c ∈ ignored)
            then mkChange (chService c) (chKind c) (chFrom c) (chTo c) (chDetail c) (Existing c) (Recreates c) true else c) <$> changes.
Definition ActiveChanges (changes : list ServiceChange) : Z := Z.of_nat (length (filter (fun c => Ignored c = false) changes)).

Record DeployPreview := mkPreview { pServices : list ServiceSpec; pRunning : list ServiceSpec; Changes : list ServiceChange; Unchanged : Z }.

Definition change_le (a b : ServiceChange) : Prop :=
  if decide (chKind a = chKind b) then String.le (chService a) (chService b) else String.le (chKind a) (chKind b).
#[global] Instance change_le_dec : RelDecision change_le.
Proof. intros a b. unfold change_le. repeat case_decide; apply _. Defined.
Definition sort_changes : list ServiceChange -> list ServiceChange := merge_sort change_le.

(** A map by name, a later entry replacing an earlier one. *)
Definition by_name (l : list ServiceSpec) : gmap string ServiceSpec := foldl (fun m s => <[sName s := s]> m) ∅ l.

(** What the first loop appends for one resolved service; nothing means it is counted. *)
Definition image_changes (runningBy : gmap string ServiceSpec) (want : ServiceSpec) : list ServiceChange :=
  match runningBy !! sName want with
  | None => [mkChange (sName want) "added" "" (sImage want) "not running; a deploy would create it" false false false]
  | Some have =>
      if negb (String.eqb (sImage want) "") && negb (String.eqb (sImage have) "") && imagesDiffer (sImage want) (sImage have)
      then [mkChange (sName want) "image" (sImage have) (sImage want) "running a different image; a deploy would recreate it" true true false]
      else []
  end.

Definition removed_changes (resolvedBy : gmap string ServiceSpec) (have : ServiceSpec) : list ServiceChange :=
  match resolvedBy !! sName have with
  | Some _ => []
  | None => [mkChange (sName have) "removed" (sImage have) ""
               "running but no longer in the compose file; a deploy leaves it running (orphans are not removed)" true false false]
  end.

Definition BuildDeployPreview (resolved running : list ServiceSpec) : DeployPreview :=
  let '(changes, unchanged) := foldl (fun '(cs, n) want =>
      match image_changes (by_name running) want with [] => (cs, n + 1) | l => (cs ++ l, n) end) ([], 0) resolved in
  mkPreview resolved running (sort_changes (changes ++ flat_map (removed_changes (by_name resolved)) running)) unchanged.

Definition changed_services (cs : list ServiceChange) : gset string := list_to_set (chService <$> cs).

(** The loops that extend a preview: what each adds for a service, one less
    unchanged when it adds something. *)
Definition extend_with (add : ServiceSpec -> list ServiceChange) (l : list ServiceSpec) (p : DeployPreview) : DeployPreview :=
  let '(changes, unchanged) := foldl (fun '(cs, n) want => match add want with [] => (cs, n) | l => (cs ++ l, n - 1) end)
    (Changes p, Unchanged p) l in
  mkPreview (pServices p) (pRunning p) (sort_changes changes) unchanged.

(** *** The digest a mutable tag resolves to *)
Section Digests.
(** ResolveImageDigest and RunningImageDigest, [None] for an error or "". *)
Variables (remote : string -> option string) (running_digest : string -> string -> option string).

Definition container_of (cs : list StackContainer) : gmap string string :=
  foldl (fun m c => if String.eqb (scService c) "" then m else <[scService c := scID c]> m) ∅ cs.

(** The two digests of a service not yet flagged: running, then the registry's. *)
Definition digests_of (containers : list StackContainer) (changed : gset string) (svc : ServiceSpec) : option (string * string) :=
  if String.eqb (sImage svc) "" || bool_decide (sName svc ∈ changed) then None
  else
    cid ← container_of containers !! sName svc;
    r ← remote (sImage svc);
    l ← running_digest cid (sImage svc);
    Some (l, r).

Definition digest_changes (containers : list StackContainer) (changed : gset string) (svc : ServiceSpec) : list ServiceChange :=
  match digests_of containers changed svc with
  | Some (l, r) =>
      if String.eqb l r then []
      else [mkChange (sName svc) "digest" l r (sImage svc +:+ " now resolves to a different image digest; a deploy would recreate it") true true false]
  | None => []
  end.

Definition same_digest (d : option (string * string)) : bool := match d with Some (l, r) => String.eqb l r | None => false end.

Definition AugmentDigestDriftChecked (containers : list StackContainer) (p : DeployPreview) : DeployPreview * gset string :=
  let changed := changed_services (Changes p) in
  (extend_with (digest_changes containers changed) (pServices p) p,
   list_to_set (sName <$> filter (fun s => same_digest (digests_of containers changed s) = true) (pServices p))).
Definition AugmentDigestDrift (containers : list StackContainer) (p : DeployPreview) : DeployPreview :=
  (AugmentDigestDriftChecked containers p).1.
End Digests.

(** *** Field by field *)
Definition envDiff (want have : gmap string string) : string :=
  let entries := map_to_list want in
  let added := omap (fun '(k, wv) => match have !! k with None => Some (k +:+ "=" +:+ wv) | Some _ => None end) entries in
  let changed := omap (fun '(k, wv) => match have !! k with
    | Some hv => if String.eqb hv wv then None else Some (k +:+ ": " +:+ Quote hv +:+ " → " +:+ Quote wv)
    | None => None end) entries in
  Join ((match added with [] => [] | _ => ["missing " +:+ Join (sort_strings added) ", "] end)
        ++ (match changed with [] => [] | _ => ["changed " +:+ Join (sort_strings changed) ", "] end)) "; ".

Definition portsString (p : list ServicePort) : string :=
  match p with [] => "none" | _ => Join ((fun x => Published x +:+ ":" +:+ FormatInt (Target x) +:+ "/" +:+ Protocol x) <$> p) ", " end.
Definition volumesString (v : list VolumeSpec) : string :=
  match v with [] => "none" | _ => Join ((fun x => (if String.eqb (vSource x) "" then vType x else vSource x) +:+ ":" +:+ vTarget x) <$> v) ", " end.

Definition humanBytes (n : Z) : string :=
  if 2 ^ 30 <=? n then FormatFixed 1 (fdiv (of_Z n) (of_Z (2 ^ 30))) +:+ "G"
  else if 2 ^ 20 <=? n then FormatFixed 0 (fdiv (of_Z n) (of_Z (2 ^ 20))) +:+ "M"
  else if 2 ^ 10 <=? n then FormatFixed 0 (fdiv (of_Z n) (of_Z (2 ^ 10))) +:+ "K"
  else FormatInt n +:+ "B".
Definition cpuLabel (v : float64) : string := if fle v fzero then "none" else FormatFixed 2 v.
Definition memLabel (v : Z) : string := if v <=? 0 then "none" else humanBytes v.
Definition feq (a b : float64) : bool := SpecFloat.SFeqb a b.

Definition resourcesDiff (want have : ServiceSpec) : string :=
  Join ((if fgt (CPULimit want) fzero && negb (feq (CPULimit want) (CPULimit have))
         then ["cpu " +:+ cpuLabel (CPULimit have) +:+ " → " +:+ FormatFixed 2 (CPULimit want)] else [])
        ++ (if (0 <? MemoryLimit want) && negb (MemoryLimit want =? MemoryLimit have)
            then ["memory " +:+ memLabel (MemoryLimit have) +:+ " → " +:+ humanBytes (MemoryLimit want)] else [])) ", ".

Definition healthcheckDiff (want have : option HealthcheckSpec) : string :=
  match want, have with
  | None, _ => ""
  | Some _, None => "declared in compose but not currently running any healthcheck"
  | Some w, Some h =>
      if negb (bool_decide (hcTest w = hcTest h)) then "test command changed"
      else if (0 <? hcInterval w) && negb (hcInterval w =? hcInterval h)
      then "interval " +:+ DurationString (hcInterval h) +:+ " → " +:+ DurationString (hcInterval w)
      else if (0 <? hcTimeout w) && negb (hcTimeout w =? hcTimeout h)
      then "timeout " +:+ DurationString (hcTimeout h) +:+ " → " +:+ DurationString (hcTimeout w)
      else if (0 <? hcRetries w) && negb (hcRetries w =? hcRetries h)
      then "retries " +:+ FormatInt (hcRetries h) +:+ " → " +:+ FormatInt (hcRetries w)
      else ""
  end.

(** One entry when the comparison has something to say. *)
Definition detailed_change (name kind detail : string) : list ServiceChange :=
  if String.eqb detail "" then [] else [mkChange name kind "" "" detail true true false].
Definition moved_change (b : bool) (name kind from to : string) : list ServiceChange :=
  if b then [mkChange name kind from to "" true true false] else [].

Definition declares {A} (l : list A) : bool := match l with [] => false | _ => true end.
Definition field_changes (want have : ServiceSpec) : list ServiceChange :=
  let n := sName want in
  detailed_change n "env" (envDiff (sEnv want) (sEnv have))
  ++ moved_change (declares (sPorts want) && negb (bool_decide (sPorts want = sPorts have))) n "ports" (portsString (sPorts have)) (portsString (sPorts want))
  ++ moved_change (declares (sVolumes want) && negb (bool_decide (sVolumes want = sVolumes have))) n "volumes"
       (volumesString (sVolumes have)) (volumesString (sVolumes want))
  ++ moved_change (declares (sNetworks want) && negb (bool_decide (sNetworks want = sNetworks have))) n "networks"
       (Join (sNetworks have) ", ") (Join (sNetworks want) ", ")
  ++ moved_change (negb (String.eqb (sRestart want) "") && negb (String.eqb (sRestart want) (sRestart have))) n "restart" (sRestart have) (sRestart want)
  ++ detailed_change n "resources" (resourcesDiff want have)
  ++ detailed_change n "healthcheck" (healthcheckDiff (sHealth want) (sHealth have)).

Definition detail_changes (runningBy : gmap string ServiceSpec) (flagged : gset string) (want : ServiceSpec) : list ServiceChange :=
  if bool_decide (sName want ∈ flagged) || negb (Detailed want) then []
  else match runningBy !! sName want with
       | None => []
       | Some have => if Detailed have then field_changes want have else []
       end.

Definition ExtendServiceComparison (resolved running : list ServiceSpec) (p : DeployPreview) : DeployPreview :=
  extend_with (detail_changes (by_name running) (changed_services (Changes p))) resolved p.
End Compare.

(** ** Bind sources *)
Definition rebase_volume (fromDir toDir : string) (v : VolumeSpec) : VolumeSpec :=
  if negb (String.eqb (vType v) "bind") || negb (IsAbs (vSource v)) then v
  else
    let rel := Rel fromDir (vSource v) in
    if HasPrefix rel ".." then v else mkVol (vType v) (path_Join [toDir; rel]) (vTarget v).
(** [fromDir] is absolute, so a relative source is filepath.Rel's error. *)
Definition RebaseBindSources (fromDir toDir : string) (specs : list ServiceSpec) : list ServiceSpec :=
  (fun s => mkSpec (sName s) (sImage s) (Detailed s) (sEnv s) (sPorts s) (rebase_volume fromDir toDir <$> sVolumes s) (sNetworks s) (sRestart s)
              (CPULimit s) (MemoryLimit s) (sHealth s)) <$> specs.

(** ** The count of unchanged services *)
Section Counts.
Context `{TE : TextEnv}.

(** Everything a loop adds for a service is about that service. *)
Definition about_itself (add : ServiceSpec -> list ServiceChange) : Prop := forall s c, c ∈ add s -> chService c = sName s.
Definition silent {X} (add : ServiceSpec -> list X) (s : ServiceSpec) : bool := match add s with [] => true | _ => false end.
Definition count_unchanged (cs : list ServiceChange) (l : list ServiceSpec) : Z :=
  Z.of_nat (length (filter (fun s => sName s ∉ changed_services cs) l)).

Lemma elem_of_changed n cs : n ∈ changed_services cs <-> exists c, c ∈ cs /\ chService c = n.
Proof. unfold changed_services. rewrite elem_of_list_to_set, list_elem_of_fmap. naive_solver. Qed.

Lemma filter_iff_in {X} (P Q : X -> Prop) `{!forall x, Decision (P x)} `{!forall x, Decision (Q x)} (l : list X) :
  (forall x, x ∈ l -> (P x <-> Q x)) -> filter P l = filter Q l.
Proof.
  induction l as [|x l IH]; intros Hpq; [done|]. rewrite !filter_cons, (IH (fun x Hx => Hpq x (list_elem_of_further _ _ _ Hx))).
  specialize (Hpq x ltac:(left)). repeat case_decide; naive_solver.
Qed.

Lemma count_ext cs cs' l : (forall s, s ∈ l -> (sName s ∈ changed_services cs <-> sName s ∈ changed_services cs')) ->
  count_unchanged cs l = count_unchanged cs' l.
Proof.
  unfold count_unchanged. intros H. do 2 f_equal. apply filter_iff_in. intros s Hs. by rewrite (H s Hs).
Qed.

Lemma changed_sorted cs : forall n, n ∈ changed_services (sort_changes cs) <-> n ∈ changed_services cs.
Proof. intros n. rewrite !elem_of_changed. unfold sort_changes. by setoid_rewrite merge_sort_Permutation. Qed.

Lemma silent_spec {X} (add : ServiceSpec -> list X) s : silent add s = true <-> add s = [].
Proof. unfold silent. by destruct (add s). Qed.

(** The services a loop over [l] adds changes for are those it is not silent on. *)
Lemma changed_flat_map add l s : about_itself add -> NoDup (sName <$> l) -> s ∈ l ->
  sName s ∈ changed_services (flat_map add l) <-> silent add s = false.
Proof.
  intros Ha Hnd Hs. rewrite elem_of_changed. split.
  - intros (c & (s' & Hs' & Hc)%list_elem_of_In%in_flat_map & E). apply list_elem_of_In in Hs', Hc.
    assert (s' = s) as -> by (apply (NoDup_fmap_elem sName l s' s Hnd Hs' Hs); by rewrite <- (Ha s' c Hc)).
    apply not_true_iff_false. intros H%silent_spec. rewrite H in Hc. by apply not_elem_of_nil in Hc.
  - unfold silent. destruct (add s) as [|c cs] eqn:E; [done|]. intros _. exists c.
    assert (c ∈ add s) as Hc by (rewrite E; left). split; [|by apply Ha].
    apply list_elem_of_In, in_flat_map. exists s. by rewrite <- !list_elem_of_In.
Qed.

Lemma foldl_changes (add : ServiceSpec -> list ServiceChange) (f g : Z -> Z) l cs n :
  foldl (fun '(cs, n) want => match add want with [] => (cs, f n) | l => (cs ++ l, g n) end) (cs, n) l =
  (cs ++ flat_map add l, foldl (fun n want => if silent add want then f n else g n) n l).
Proof.
  revert cs n. induction l as [|s l IH]; intros cs n; simpl; [by rewrite app_nil_r|].
  destruct (add s) as [|c l0] eqn:E; rewrite IH.
  - by assert (silent add s = true) as -> by (unfold silent; by rewrite E).
  - assert (silent add s = false) as -> by (unfold silent; by rewrite E). by rewrite <- app_assoc.
Qed.

Lemma foldl_count_up (P : ServiceSpec -> bool) l n :
  foldl (fun n s => if P s then n + 1 else n) n l = n + Z.of_nat (length (filter (fun s => P s = true) l)).
Proof.
  revert n. induction l as [|s l IH]; intros n; simpl; [lia|]. rewrite IH, filter_cons.
  destruct (P s); case_decide; try done; simpl; lia.
Qed.

Lemma foldl_count_down (P : ServiceSpec -> bool) l n :
  foldl (fun n s => if P s then n else n - 1) n l = n - Z.of_nat (length (filter (fun s => P s = false) l)).
Proof.
  revert n. induction l as [|s l IH]; intros n; simpl; [lia|]. rewrite IH, filter_cons.
  destruct (P s); case_decide; try done; simpl; lia.
Qed.

Lemma length_filter_split {X} (P Q : X -> Prop) `{!forall x, Decision (P x)} `{!forall x, Decision (Q x)} (l : list X) :
  (forall x, x ∈ l -> ~ Q x -> P x) ->
  length (filter P l) = (length (filter (fun x => P x /\ Q x) l) + length (filter (fun x => ~ Q x) l))%nat.
Proof.
  induction l as [|x l IH]; intros Hpq; [done|]. specialize (IH (fun y Hy => Hpq y (list_elem_of_further _ _ _ Hy))).
  specialize (Hpq x ltac:(left)). rewrite !filter_cons. repeat case_decide; simpl; naive_solver lia.
Qed.

(** The count of a preview is the number of services none of its changes is about. *)
Definition counted (l : list ServiceSpec) (p : DeployPreview) : Prop := Unchanged p = count_unchanged (Changes p) l.

(** An extension keeps the count true when it leaves alone what is already flagged. *)
Lemma extend_counted add l p : NoDup (sName <$> l) -> about_itself add ->
  (forall s, s ∈ l -> sName s ∈ changed_services (Changes p) -> add s = []) -> counted l p -> counted l (extend_with add l p).
Proof.
  intros Hnd Ha Hflag Hc. unfold counted, extend_with in *. rewrite (foldl_changes add (fun n => n) (fun n => n - 1)). simpl.
  rewrite foldl_count_down, Hc. unfold count_unchanged.
  rewrite (length_filter_split (fun s => sName s ∉ changed_services (Changes p)) (fun s => silent add s = true) l).
  - assert (forall a b c d, a = b -> c = d -> Z.of_nat (a + c) - Z.of_nat d = Z.of_nat b) as Hz by lia. apply Hz.
    + f_equal. apply filter_iff_in. intros s Hs. rewrite changed_sorted, !elem_of_changed. setoid_rewrite elem_of_app.
      pose proof (changed_flat_map add l s Ha Hnd Hs) as Hf. rewrite elem_of_changed in Hf. rewrite <- not_false_iff_true, <- Hf. naive_solver.
    + f_equal. apply filter_iff_in. intros s Hs. by destruct (silent add s).
  - intros s Hs Hn Hin. apply Hn, silent_spec. by apply Hflag.
Qed.
End Counts.

Lemma image_changes_about `{TE : TextEnv} m : about_itself (image_changes m).
Proof. intros s c. unfold image_changes. repeat case_match; rewrite ?list_elem_of_singleton, ?elem_of_nil; naive_solver. Qed.

Lemma digest_changes_about remote rd cs ch : about_itself (digest_changes remote rd cs ch).
Proof. intros s c. unfold digest_changes. repeat case_match; rewrite ?list_elem_of_singleton, ?elem_of_nil; naive_solver. Qed.

Lemma elem_of_detailed c n k d : c ∈ detailed_change n k d <-> d <> "" /\ c = mkChange n k "" "" d true true false.
Proof. unfold detailed_change. destruct (String.eqb d "") eqn:E; bsimp; rewrite ?list_elem_of_singleton, ?elem_of_nil; naive_solver. Qed.

Lemma elem_of_moved c b n k x y : c ∈ moved_change b n k x y <-> b = true /\ c = mkChange n k x y "" true true false.
Proof. unfold moved_change. destruct b; rewrite ?list_elem_of_singleton, ?elem_of_nil; naive_solver. Qed.

Lemma detail_changes_about `{TE : TextEnv} m f : about_itself (detail_changes m f).
Proof.
  intros s c. unfold detail_changes. repeat case_match; rewrite ?elem_of_nil; [done| |done..].
  unfold field_changes. rewrite !elem_of_app, !elem_of_detailed, !elem_of_moved. naive_solver.
Qed.

Lemma parse_names cfg resolved : ParseComposeServices (Some cfg) = Some resolved -> sName <$> resolved = service_names cfg.
Proof.
  intros [= <-]. assert (forall n, n ∈ service_names cfg -> is_Some (Services cfg !! n)) as H by (intros n Hn; by apply elem_of_service_names).
  induction (service_names cfg) as [|n ns IH]; [done|]. simpl.
  destruct (H n ltac:(left)) as [svc ->]. simpl. f_equal. apply IH. intros; apply H; by right.
Qed.

Lemma by_name_present s l : s ∈ l -> by_name l !! sName s <> None.
Proof.
  unfold by_name. generalize (∅ : gmap string ServiceSpec) as m. induction l as [|x l IH]; intros m; [by intros ?%not_elem_of_nil|].
  intros [->|Hs]%elem_of_cons; simpl; [|by apply IH].
  clear IH. assert (forall (l : list ServiceSpec) (m : gmap string ServiceSpec), is_Some (m !! sName x) -> is_Some (foldl (fun m s => <[sName s := s]> m) m l !! sName x)) as Hk.
  { clear. induction l as [|y l IH]; intros m Hm; simpl; [done|]. apply IH. apply lookup_insert_is_Some'. by right. }
  destruct (Hk l (<[sName x := x]> m)) as [y ->]; [|done]. apply lookup_insert_is_Some'. by left.
Qed.

Lemma build_counted `{TE : TextEnv} resolved running : NoDup (sName <$> resolved) -> counted resolved (BuildDeployPreview resolved running).
Proof.
  intros Hnd. unfold counted, BuildDeployPreview. rewrite (foldl_changes _ (fun n => n + 1) (fun n => n)). simpl.
  rewrite foldl_count_up. unfold count_unchanged. rewrite Z.add_0_l. do 2 f_equal. apply filter_iff_in. intros s Hs.
  rewrite changed_sorted, elem_of_changed. setoid_rewrite elem_of_app.
  pose proof (changed_flat_map _ resolved s (image_changes_about (by_name running)) Hnd Hs) as Hc. rewrite elem_of_changed in Hc.
  rewrite <- not_false_iff_true, <- Hc.
  assert (forall c, c ∈ flat_map (removed_changes (by_name resolved)) running -> chService c <> sName s) as Hr; [|naive_solver].
  intros c (have & _ & Hc')%list_elem_of_In%in_flat_map E. apply list_elem_of_In in Hc'. revert Hc'. unfold removed_changes.
  destruct (by_name resolved !! sName have) eqn:Hb; [by intros ?%not_elem_of_nil|]. intros ->%list_elem_of_singleton. simpl in E. rewrite E in Hb.
  by apply (by_name_present s resolved).
Qed.

(** however the running containers, the registry and the reviewed comparisons
    answer, the number of unchanged services a finished preview shows is the number
    of the compose file's services that no listed change is about. *)
Theorem unchanged_exact `{TE : TextEnv} cfg resolved running live remote rd containers :
  ParseComposeServices (Some cfg) = Some resolved ->
  let built := BuildDeployPreview resolved running in
  let digests := AugmentDigestDrift remote rd containers built in
  let full := ExtendServiceComparison resolved live digests in
  counted resolved built /\ counted resolved digests /\ counted resolved full.
Proof.
  intros Hp built digests full. assert (NoDup (sName <$> resolved)) as Hnd by (rewrite (parse_names _ _ Hp); apply NoDup_service_names).
  assert (counted resolved built) as H1 by (by apply build_counted).
  assert (pServices built = resolved) as Hs by (unfold built, BuildDeployPreview; by case_match).
  assert (counted resolved digests) as H2.
  { unfold digests, AugmentDigestDrift, AugmentDigestDriftChecked. simpl. rewrite Hs. apply extend_counted; [done|apply digest_changes_about| |done].
    intros s _ Hc. unfold digest_changes, digests_of. rewrite (bool_decide_eq_true_2 _ Hc), orb_true_r. done. }
  split; [done|]. split; [done|]. apply extend_counted; [done|apply detail_changes_about| |done].
  intros s _ Hc. unfold detail_changes. by rewrite (bool_decide_eq_true_2 _ Hc).
Qed.

(** ** What the field comparison reports *)

(** A declared field of the compose file that reality does not have. *)
Inductive disagrees (want have : ServiceSpec) : string -> Prop :=
  | dis_env k v : sEnv want !! k = Some v -> sEnv have !! k <> Some v -> disagrees want have "env"
  | dis_ports : sPorts want <> [] -> sPorts want <> sPorts have -> disagrees want have "ports"
  | dis_volumes : sVolumes want <> [] -> sVolumes want <> sVolumes have -> disagrees want have "volumes"
  | dis_networks : sNetworks want <> [] -> sNetworks want <> sNetworks have -> disagrees want have "networks"
  | dis_restart : sRestart want <> "" -> sRestart want <> sRestart have -> disagrees want have "restart"
  | dis_cpu : fgt (CPULimit want) fzero = true -> feq (CPULimit want) (CPULimit have) = false -> disagrees want have "resources"
  | dis_memory : 0 < MemoryLimit want -> MemoryLimit want <> MemoryLimit have -> disagrees want have "resources"
  | dis_no_check w : sHealth want = Some w -> sHealth have = None -> disagrees want have "healthcheck"
  | dis_check w h : sHealth want = Some w -> sHealth have = Some h ->
      hcTest w <> hcTest h \/ (0 < hcInterval w /\ hcInterval w <> hcInterval h) \/ (0 < hcTimeout w /\ hcTimeout w <> hcTimeout h) \/
      (0 < hcRetries w /\ hcRetries w <> hcRetries h) -> disagrees want have "healthcheck".

Lemma app_nonempty c s t : String c s +:+ t <> "".
Proof. by change (String c (s +:+ t) <> ""). Qed.

Lemma Join_empty l sep : Forall (fun x => x <> "") l -> Join l sep = "" <-> l = [].
Proof.
  intros Hl. destruct l as [|x l]; [done|]. apply Forall_cons in Hl as [Hx _]. split; [|done]. destruct x as [|c x]; [done|].
  destruct l as [|y l]; [done|]. intros E. by apply app_nonempty in E.
Qed.

Lemma omap_nil {A B} (f : A -> option B) (l : list A) : omap f l = [] <-> forall x, x ∈ l -> f x = None.
Proof.
  induction l as [|x l IH]; [split; [by intros _ x ?%not_elem_of_nil|done]|]. simpl. split.
  - destruct (f x) eqn:E; [done|]. intros Hl y [->|Hy]%elem_of_cons; [done|by apply IH].
  - intros H. rewrite (H x) by left. apply IH. intros y Hy. apply H. by right.
Qed.

Section Fields.
Context `{TE : TextEnv}.

Lemma envDiff_empty want have : envDiff want have = "" <-> forall k v, want !! k = Some v -> have !! k = Some v.
Proof.
  unfold envDiff. set (added := omap _ _). set (changed := omap _ (map_to_list want)).
  assert (forall c (s t : string), Forall (fun x => x <> "") [String c s +:+ t]) as Hne by (intros; apply Forall_singleton, app_nonempty).
  rewrite Join_empty; cycle 1.
  { apply Forall_app. split; [destruct added|destruct changed]; (apply Forall_nil_2 || apply Hne). }
  assert (forall a c : list string, match a with [] => [] | _ => ["missing " +:+ Join (sort_strings a) ", "] end
     ++ match c with [] => [] | _ => ["changed " +:+ Join (sort_strings c) ", "] end = [] <-> a = [] /\ c = []) as ->
    by (intros [] []; naive_solver).
  unfold added, changed. rewrite !omap_nil. split.
  - intros [Ha Hc] k v Hk. specialize (Ha (k, v) (proj2 (elem_of_map_to_list _ _ _) Hk)). specialize (Hc (k, v) (proj2 (elem_of_map_to_list _ _ _) Hk)).
    cbv beta iota in Ha, Hc. destruct (have !! k) as [hv|]; [|done]. destruct (String.eqb hv v) eqn:E; [by bsimp; subst|done].
  - intros H. split; intros [k v] Hk%elem_of_map_to_list; rewrite (H k v Hk); [done|]. by rewrite String.eqb_refl.
Qed.

Lemma resourcesDiff_empty want have : resourcesDiff want have = "" <->
  ~ (fgt (CPULimit want) fzero = true /\ feq (CPULimit want) (CPULimit have) = false) /\
  ~ (0 < MemoryLimit want /\ MemoryLimit want <> MemoryLimit have).
Proof.
  unfold resourcesDiff. rewrite Join_empty.
  - destruct (fgt _ _), (feq _ _), (0 <? MemoryLimit want) eqn:E1, (MemoryLimit want =? MemoryLimit have) eqn:E2; bsimp; simpl; naive_solver lia.
  - apply Forall_app. split; case_match; (apply Forall_nil_2 || apply Forall_singleton, app_nonempty).
Qed.

Lemma healthcheckDiff_empty want have : healthcheckDiff want have = "" <->
  forall w, want = Some w -> exists h, have = Some h /\ hcTest w = hcTest h /\ (0 < hcInterval w -> hcInterval w = hcInterval h) /\
    (0 < hcTimeout w -> hcTimeout w = hcTimeout h) /\ (0 < hcRetries w -> hcRetries w = hcRetries h).
Proof.
  destruct want as [w|]; [|by split]. destruct have as [h|]; simpl; [|split; [done|by intros H; destruct (H w eq_refl) as (? & ? & _)]].
  transitivity (hcTest w = hcTest h /\ (0 < hcInterval w -> hcInterval w = hcInterval h) /\
    (0 < hcTimeout w -> hcTimeout w = hcTimeout h) /\ (0 < hcRetries w -> hcRetries w = hcRetries h)); [|naive_solver].
  assert (forall a b : Z, (0 <? a) && negb (a =? b) = true <-> 0 < a /\ a <> b) as Hb.
  { intros a b. rewrite andb_true_iff, negb_true_iff, Z.ltb_lt, Z.eqb_neq. done. }
  destruct (bool_decide (hcTest w = hcTest h)) eqn:E0; bsimp; simpl; [|split; [done|naive_solver]].
  destruct (_ && negb (hcInterval w =? hcInterval h)) eqn:E1; [split; [by intros ?%app_nonempty|rewrite Hb in E1; naive_solver]|].
  destruct (_ && negb (hcTimeout w =? hcTimeout h)) eqn:E2; [split; [by intros ?%app_nonempty|rewrite Hb in E2; naive_solver]|].
  destruct (_ && negb (hcRetries w =? hcRetries h)) eqn:E3; [split; [by intros ?%app_nonempty|rewrite Hb in E3; naive_solver]|].
  rewrite <- not_true_iff_false, Hb in E1, E2, E3. split; [|done]. intros _. split; [done|]. naive_solver lia.
Qed.

Lemma declares_spec {A} (l : list A) : declares l = true <-> l <> [].
Proof. by destruct l. Qed.

Lemma moved_spec {A} `{EqDecision A} (l m : list A) : declares l && negb (bool_decide (l = m)) = true <-> l <> [] /\ l <> m.
Proof. rewrite andb_true_iff, declares_spec, negb_true_iff, bool_decide_eq_false. done. Qed.

(** the field comparison reports a kind of change exactly when the compose file
    declares that field and the running container disagrees with it; a field the
    file is silent on, and a variable it does not set, are never a difference. *)
Theorem field_changes_exact want have kind : (exists c, c ∈ field_changes want have /\ chKind c = kind) <-> disagrees want have kind.
Proof.
  unfold field_changes. setoid_rewrite elem_of_app. repeat setoid_rewrite elem_of_app.
  repeat setoid_rewrite elem_of_detailed. repeat setoid_rewrite elem_of_moved. repeat setoid_rewrite moved_spec. split.
  - intros (c & Hc & <-). destruct Hc as [[H ->]|[[[? ?] ->]|[[[? ?] ->]|[[[? ?] ->]|[[H ->]|[[H ->]|[H ->]]]]]]]; simpl; try (by constructor).
    + rewrite envDiff_empty in H.
      destruct (decide (map_Forall (fun k v => sEnv have !! k = Some v) (sEnv want))) as [Hall|(k & v & Hk & Hn)%map_not_Forall];
        [by destruct H; intros k v; apply Hall|by eapply dis_env|apply _].
    + bsimp. by constructor.
    + rewrite resourcesDiff_empty in H. destruct (fgt (CPULimit want) fzero && negb (feq (CPULimit want) (CPULimit have))) eqn:E.
      * bsimp. by apply dis_cpu.
      * apply dis_memory; destruct (decide (0 < MemoryLimit want /\ MemoryLimit want <> MemoryLimit have)) as [[? ?]|]; try done;
          destruct H; (split; [|done]); intros [H1 H2]; by rewrite H1, H2 in E.
    + destruct (sHealth want) as [w|] eqn:Ew; [|done]. destruct (sHealth have) as [h|] eqn:Eh; [|by eapply dis_no_check].
      apply (dis_check _ _ w h Ew Eh). rewrite healthcheckDiff_empty in H.
      destruct (decide (hcTest w = hcTest h)); [|by left]. destruct (decide (0 < hcInterval w /\ hcInterval w <> hcInterval h)); [naive_solver|].
      destruct (decide (0 < hcTimeout w /\ hcTimeout w <> hcTimeout h)); [naive_solver|]. do 3 right.
      destruct (decide (0 < hcRetries w /\ hcRetries w <> hcRetries h)); [done|]. destruct H. intros w' [= <-]. exists h. naive_solver lia.
  - destruct 1; eexists; (split; [|shelve]).
    + left. split; [|reflexivity]. rewrite envDiff_empty. naive_solver.
    + right. left. split; [done|reflexivity].
    + do 2 right. left. split; [done|reflexivity].
    + do 3 right. left. split; [done|reflexivity].
    + do 4 right. left. split; [|reflexivity]. apply andb_true_iff. by rewrite !negb_true_iff, !String.eqb_neq.
    + do 5 right. left. split; [|reflexivity]. rewrite resourcesDiff_empty. naive_solver.
    + do 5 right. left. split; [|reflexivity]. rewrite resourcesDiff_empty. naive_solver.
    + do 6 right. split; [|reflexivity]. rewrite healthcheckDiff_empty. intros Hw. destruct (Hw w) as (h' & ? & ?); [done|]. congruence.
    + do 6 right. split; [|reflexivity]. rewrite healthcheckDiff_empty. intros Hw. destruct (Hw w) as (h' & ? & ?); [done|]. naive_solver.
    Unshelve. all: reflexivity.
Qed.
End Fields.

(** ** Reviewed drift *)
Definition nul_free (s : string) : Prop := Ascii.ascii_of_nat 0 ∉ bytes s.

Lemma cut_at_nul a b r s : nul_free a -> nul_free b -> a +:+ nul +:+ r = b +:+ nul +:+ s -> a = b /\ r = s.
Proof.
  unfold nul_free. revert b. induction a as [|c a IH]; intros [|d b] Ha Hb E.
  - split; [done|]. by injection E.
  - exfalso. injection E as E _. apply Hb. rewrite E. left.
  - exfalso. injection E as E _. apply Ha. rewrite <- E. left.
  - injection E as -> E. destruct (IH b) as [-> ->]; [..|exact E|done]; intros Hin; [apply Ha|apply Hb]; by right.
Qed.

Definition content (c : ServiceChange) : string * string * string * string := (chKind c, chFrom c, chTo c, chDetail c).
Definition change_nul_free (c : ServiceChange) : Prop := nul_free (chKind c) /\ nul_free (chFrom c) /\ nul_free (chTo c).

Lemma fingerprint_text_inj c c' : change_nul_free c -> change_nul_free c' -> fingerprint_text c = fingerprint_text c' -> content c = content c'.
Proof.
  intros (Hk & Hf & Ht) (Hk' & Hf' & Ht'). unfold fingerprint_text, content.
  intros E. apply cut_at_nul in E as [-> E]; [|done..]. apply cut_at_nul in E as [-> E]; [|done..].
  apply cut_at_nul in E as [-> ->]; done.
Qed.

(** accepting one reviewed change marks that change and changes of the same
    service with the same content, and no other, unless two different contents
    share the truncated digest; nothing is removed from the list, and a mark
    already there stays. *)
Theorem ignore_is_scoped `{TE : TextEnv} changes c0 i c : changes !! i = Some c -> change_nul_free c -> change_nul_free c0 ->
  length (MarkIgnoredChanges changes {[ignore_key c0]}) = length changes /\
  exists c', MarkIgnoredChanges changes {[ignore_key c0]} !! i = Some c' /\ chService c' = chService c /\ content c' = content c /\
    (chService c = chService c0 -> content c = content c0 -> Ignored c' = true) /\
    (Ignored c' = true -> Ignored c = true \/
       chService c = chService c0 /\ chKind c = chKind c0 /\
       (content c = content c0 \/
        (fingerprint_text c <> fingerprint_text c0 /\ stake 16 (Sha256Hex (fingerprint_text c)) = stake 16 (Sha256Hex (fingerprint_text c0))))).
Proof.
  intros Hi Hc H0. unfold MarkIgnoredChanges. rewrite length_fmap, list_lookup_fmap, Hi. split; [done|]. simpl. eexists. split; [done|].
  case_bool_decide as Hk; rewrite elem_of_singleton in Hk.
  - split; [done|]. split; [done|]. split; [done|]. intros _. right. injection Hk as Hs Hkind Hf. split; [done|]. split; [done|].
    destruct (decide (fingerprint_text c = fingerprint_text c0)) as [E|]; [left; by apply fingerprint_text_inj|by right].
  - split; [done|]. split; [done|]. split; [|by left]. intros Hs He. destruct Hk. unfold ignore_key, ChangeFingerprint, fingerprint_text.
    injection He as -> -> -> ->. by rewrite Hs.
Qed.

(** ** Rebased mounts *)
(** rebasing moves a bind below the first directory to the same place below the
    second and leaves every other mount as it was: except that a path below it whose
    first name starts with two dots is taken for one outside. *)
Theorem rebase_exact fromDir toDir v : IsAbs toDir = true -> vType v = "bind" -> IsAbs (vSource v) = true ->
  vTarget (rebase_volume fromDir toDir v) = vTarget v /\
  ((forall r, components (vSource v) <> components fromDir ++ r) -> rebase_volume fromDir toDir v = v) /\
  (forall r, components (vSource v) = components fromDir ++ r ->
     if match r with [] => false | n :: _ => HasPrefix n ".." end then rebase_volume fromDir toDir v = v
     else IsAbs (vSource (rebase_volume fromDir toDir v)) = true /\
          components (vSource (rebase_volume fromDir toDir v)) = components toDir ++ r).
Proof.
  intros Hto Hty Hsrc. unfold rebase_volume. rewrite Hty, Hsrc. simpl. split; [by case_match|]. split.
  { intros Hout. by rewrite Rel_outside. }
  intros r Hr. rewrite (Rel_inside _ _ _ Hr). destruct r as [|n r].
  { simpl HasPrefix. cbv iota. simpl vSource. rewrite app_nil_r. destruct (Join_dot toDir Hto). done. }
  assert (HasPrefix (Join (n :: r) "/") ".." = HasPrefix n "..") as ->; [|].
  { destruct r as [|m r]; [done|]. assert (Join (n :: m :: r) "/" = n +:+ String slash (Join (m :: r) "/")) as -> by done.
    generalize (Join (m :: r) "/"). intros t. destruct n as [|c [|d n]]; [reflexivity| |by destruct n]. change (HasPrefix (String c (String slash t)) ".." = HasPrefix (String c "") ".."). cbn -[Ascii.eqb]. f_equal. }
  destruct (HasPrefix n ".."); [done|]. cbv beta iota. cbn [vSource].
  assert (Forall plain (n :: r)) as Hp.
  { destruct (components_normal (vSource v)) as (k & names & E & Hp & Hn). rewrite (Hn Hsrc) in E. simpl in E. rewrite Hr in E. rewrite <- E in Hp.
    by apply Forall_app in Hp as [_ ?]. }
  destruct (Join_below toDir (n :: r)) as [Ha Hc]; [by intros ->|done|done|]. rewrite Hto in Ha. by split.
Qed.

(** ** Concrete inputs *)
Definition ascii_text : TextEnv := {| ToLower s := of_bytes (lower_byte <$> bytes s); Quote s := s; Sha256Hex s := s |}.

(** Docker allows two underscores in a name and the repository pattern does not, so
    the tag an image was restored from and its digest pin read as two images. *)
Theorem restored_pin_reads_as_drift : imagesDiffer (TE := ascii_text) "app:1" "app@sha256:ab" = false /\
  imagesDiffer (TE := ascii_text) "my__app:1" "my__app@sha256:ab" = true.
Proof. split; vm_compute; reflexivity. Qed.

(** A bind of a snapshot's own directory whose name starts with two dots stays where
    the snapshot was extracted. *)
Theorem dotted_bind_not_rebased :
  rebase_volume "/tmp/rev" "/data/app" (mkVol "bind" "/tmp/rev/..conf" "/c") = mkVol "bind" "/tmp/rev/..conf" "/c" /\
  rebase_volume "/tmp/rev" "/data/app" (mkVol "bind" "/tmp/rev/conf" "/c") = mkVol "bind" "/data/app/conf" "/c".
Proof. split; vm_compute; reflexivity. Qed.

Definition demo_health : HealthDoc := mkHealthDoc ["CMD"; "true"] "30s" "bogus" 3 false.
Definition demo_web : ServiceDoc := mkService "nginx:1.27" {["A" := "1"]} [mkPort 80 "8080" "tcp"] [mkVol "volume" "data" "/d"] {["default"]} "always"
  false "" "" fzero 0 fzero 0 (Some demo_health).
Definition preview_doc : composeConfigDoc := mkDoc {["default" := "p_default"]} {["data" := "p_data"]} {["web" := demo_web; "db" := demo_web]}.
Definition demo_running : list StackContainer := [mkStackC "c1" "web" "nginx:1.27"; mkStackC "c2" "old" "redis"; mkStackC "c3" "web" "nginx"].

Lemma unchanged_exact_witness : exists resolved, ParseComposeServices (Some preview_doc) = Some resolved /\
  counted resolved (BuildDeployPreview (TE := ascii_text) resolved (RunningServices demo_running)).
Proof.
  eexists. split; [reflexivity|].
  exact (proj1 (unchanged_exact (TE := ascii_text) preview_doc _ (RunningServices demo_running) [] (fun _ => None) (fun _ _ => None) demo_running eq_refl)).
Defined.

Example preview_ex : exists resolved, ParseComposeServices (Some preview_doc) = Some resolved /\
  (fun c => (chService c, chKind c)) <$> Changes (BuildDeployPreview (TE := ascii_text) resolved (RunningServices demo_running)) =
    [("db", "added"); ("old", "removed")] /\ Unchanged (BuildDeployPreview (TE := ascii_text) resolved (RunningServices demo_running)) = 1.
Proof. eexists. split; [reflexivity|]. vm_compute. done. Qed.

Definition demo_change : ServiceChange := mkChange "web" "restart" "no" "always" "" true true false.
Lemma ignore_is_scoped_witness : length (MarkIgnoredChanges (TE := ascii_text) [demo_change] {[ignore_key (TE := ascii_text) demo_change]}) = 1%nat.
Proof.
  assert (change_nul_free demo_change) as H by (repeat split; unfold nul_free; apply (bool_decide_unpack _); vm_compute; exact I).
  exact (proj1 (ignore_is_scoped (TE := ascii_text) [demo_change] demo_change 0 demo_change eq_refl H H)).
Defined.

Lemma rebase_exact_witness : vTarget (rebase_volume "/tmp/rev" "/data/app" (mkVol "bind" "/tmp/rev/html" "/c")) = "/c" /\
  components (vSource (rebase_volume "/tmp/rev" "/data/app" (mkVol "bind" "/tmp/rev/html" "/c"))) = ["data"; "app"; "html"].
Proof.
  destruct (rebase_exact "/tmp/rev" "/data/app" (mkVol "bind" "/tmp/rev/html" "/c") eq_refl eq_refl eq_refl) as (H1 & _ & H2).
  split; [exact H1|]. exact (proj2 (H2 ["html"] eq_refl)).
Defined.
