(* ===== verification/Sandbox.v ===== *)
(** * Project folders (internal/api/rootfs.go, the file part of project_handlers.go)

    A folder is the map from the paths below it to the files and folders there.
    Symbolic links are seen where the program resolves them itself, in the check
    before every use (filepath.EvalSymlinks is a parameter); inside the folder, where
    os.Root follows or refuses them, the model has none. *)
From S2P Require Import Prelude GoStrings Paths Compose.

Definition maxProjectFiles : nat := 100.
Definition maxProjectFileBytes : nat := 2 ^ 20.
#[global] Opaque maxProjectFiles maxProjectFileBytes.

(** ** Names *)
Inductive FSErr := EMissingName | EAbsolute | ETraversal | EInvalidPath | EEscape | ENotExist | EIO | ETooLarge | ETooMany.
#[export] Instance FSErr_eq_dec : EqDecision FSErr. Proof. solve_decision. Defined.

Section Join.
(** filepath.EvalSymlinks of the file system as it is at the check *)
Variable EvalSymlinks : string -> result FSErr string.

(** The walk up to the deepest ancestor that exists; [None] when the fuel runs out. *)
Fixpoint within_root (fuel : nat) (realRoot cur : string) : option (result FSErr ()) :=
  match fuel with
  | O => None
  | S fuel =>
      match EvalSymlinks cur with
      | Ok resolved =>
          Some (if negb (String.eqb resolved realRoot) && negb (HasPrefix resolved (realRoot +:+ "/")) then Err EEscape else Ok tt)
      | Err ENotExist =>
          let parent := Dir cur in
          if String.eqb parent cur then Some (Err EEscape) else within_root fuel realRoot parent
      | Err e => Some (Err e)
      end
  end.

Definition path_fuel (p : string) : nat := S (length (components p)).
Definition assertWithinRoot (root p : string) : option (result FSErr ()) :=
  match EvalSymlinks root with
  | Err e => Some (Err e)
  | Ok realRoot => within_root (path_fuel p) realRoot p
  end.

Definition safeJoin (root name : string) : option (result FSErr string) :=
  let name := TrimSpace name in
  if String.eqb name "" then Some (Err EMissingName)
  else if IsAbs name then Some (Err EAbsolute)
  else
    let clean := Clean name in
    if String.eqb clean ".." || HasPrefix clean "../" then Some (Err ETraversal)
    else
      let full := path_Join [root; clean] in
      if negb (String.eqb full root) && negb (HasPrefix full (root +:+ "/")) then Some (Err EInvalidPath)
      else
        r ← assertWithinRoot root full;
        Some (match r with Ok _ => Ok full | Err e => Err e end).
End Join.

(** [rootRel(root, full)] as the components below the root *)
Definition rootRel (root full : string) : list string := (strip_common (components root) (components full)).2.

(** ** Folders *)
Inductive Node := NFile (data : string) | NDir.
#[export] Instance Node_eq_dec : EqDecision Node. Proof. solve_decision. Defined.
Notation Folder := (gmap (list string) Node).

(** filepath.EvalSymlinks, with the folder at the root as it is *)
Class Links := { eval_symlinks : Folder -> string -> result FSErr string }.

(** What is at a path, the root being a folder. *)
Definition node_at (f : Folder) (p : list string) : option Node := match p with [] => Some NDir | _ => f !! p end.

Definition is_file (n : Node) : bool := match n with NDir => false | _ => true end.
Definition countFiles (f : Folder) : nat := size (filter (fun kv : list string * Node => is_file kv.2 = true) f).

Section Ops.
Context `{L : Links}.

Fixpoint prefixes (p : list string) : list (list string) :=
  match p with [] => [] | c :: p => [c] :: (cons c <$> prefixes p) end.

(** [rt.MkdirAll(dir)]: the folders created before a failure stay. *)
Definition mkdir_one (st : Folder * bool) (p : list string) : Folder * bool :=
  let '(f, ok) := st in
  if negb ok then (f, false)
  else match f !! p with None => (<[p := NDir]> f, true) | Some NDir => (f, true) | Some (NFile _) => (f, false) end.
Definition MkdirAll (f : Folder) (p : list string) : Folder * bool := foldl mkdir_one (f, true) (prefixes p).

(** [rt.WriteFile(rel, data)] *)
Definition WriteFile (f : Folder) (p : list string) (data : string) : Folder * bool :=
  match node_at f p with
  | Some NDir => (f, false)
  | Some (NFile _) => (<[p := NFile data]> f, true)
  | None => if decide (node_at f (removelast p) = Some NDir) then (<[p := NFile data]> f, true) else (f, false)
  end.

Definition writeRootFile (f : Folder) (rel : list string) (data : string) : Folder * bool :=
  let '(f, ok) := MkdirAll f (removelast rel) in
  if ok then WriteFile f rel data else (f, false).
Definition writeInRoot : Folder -> list string -> string -> Folder * bool := writeRootFile.
Definition mkdirInRoot : Folder -> list string -> Folder * bool := MkdirAll.

Definition missingInRoot (f : Folder) (rel : list string) : bool := bool_decide (node_at f rel = None).

Definition openInRoot (f : Folder) (rel : list string) : option string :=
  match node_at f rel with Some (NFile data) => Some data | _ => None end.

(** [rt.Remove]: a folder only when it is empty, the root never. *)
Definition removeInRoot (f : Folder) (rel : list string) : result FSErr Folder :=
  match rel with
  | [] => Err EIO
  | _ =>
      match f !! rel with
      | None => Err ENotExist
      | Some NDir => if bool_decide (Exists (fun k => rel `prefix_of` k /\ k <> rel) (map_to_list f).*1) then Err EIO else Ok (delete rel f)
      | Some (NFile _) => Ok (delete rel f)
      end
  end.

(** ** Archives *)
(** An entry as the reader offers it: [zData] is [None] when it does not open. *)
Record ZipEntry := mkZip { zName : string; zIsDir : bool; zSize : Z; zData : option string }.

Definition extract_one (root : string) (st : Folder * nat) (e : ZipEntry) : Folder * nat :=
  let '(f, count) := st in
  if zIsDir e || (maxProjectFiles <=? count)%nat then (f, count)
  else
    match safeJoin (eval_symlinks f) root (zName e) with
    | Some (Ok full) =>
        if Z.of_nat maxProjectFileBytes <? zSize e then (f, count)
        else match zData e with
             | None => (f, count)
             | Some data =>
                 match writeRootFile f (rootRel root full) (stake maxProjectFileBytes data) with
                 | (f, true) => (f, S count)
                 | (f, false) => (f, count)
                 end
             end
    | _ => (f, count)
    end.
(** The folder is there already: every caller has just made it. *)
Definition extractZipToDir (zr : list ZipEntry) (root : string) (f : Folder) : Folder * nat := foldl (extract_one root) (f, 0%nat) zr.

(** zipDir: every regular file, under its path *)
Definition zipDir (f : Folder) : list ZipEntry :=
  omap (fun '(p, n) => match n with
                       | NFile data => Some (mkZip (Join p "/") false (Z.of_nat (String.length data)) (Some data))
                       | _ => None
                       end) (map_to_list f).

(** ** What the file routes do with the folder *)
Definition FM (A : Type) : Type := Folder * result FSErr A.

Definition joined (root name : string) (f : Folder) : result FSErr (list string) :=
  match safeJoin (eval_symlinks f) root name with
  | Some (Ok full) => Ok (rootRel root full)
  | Some (Err e) => Err e
  | None => Err EIO
  end.

Definition add_cap (f : Folder) (rel : list string) : bool := missingInRoot f rel && (maxProjectFiles <=? countFiles f)%nat.
Definition stored (w : Folder * bool) : FM () := let '(f, ok) := w in (f, if ok then Ok tt else Err EIO).

(** handleWriteProjectFile *)
Definition write_file (root name content : string) (f : Folder) : FM () :=
  if (maxProjectFileBytes <? String.length content)%nat then (f, Err ETooLarge)
  else match joined root name f with
       | Err e => (f, Err e)
       | Ok rel => if add_cap f rel then (f, Err ETooMany) else stored (writeInRoot f rel content)
       end.

(** handleUploadProjectFileRaw: [body] is [None] when it cannot be read *)
Definition upload_file (root name : string) (body : option string) (f : Folder) : FM () :=
  match joined root name f with
  | Err e => (f, Err e)
  | Ok rel =>
      if add_cap f rel then (f, Err ETooMany)
      else match body with
           | None => (f, Err EIO)
           | Some data =>
               let data := stake (S maxProjectFileBytes) data in
               if (maxProjectFileBytes <? String.length data)%nat then (f, Err ETooLarge) else stored (writeInRoot f rel data)
           end
  end.

(** handleDeleteProjectFile: a file that is not there is deleted already *)
Definition delete_file (root name : string) (f : Folder) : FM () :=
  match joined root name f with
  | Err e => (f, Err e)
  | Ok rel => match removeInRoot f rel with
              | Ok f' => (f', Ok tt)
              | Err ENotExist => (f, Ok tt)
              | Err e => (f, Err e)
              end
  end.

(** handleMakeProjectDir *)
Definition make_dir (root name : string) (f : Folder) : FM () :=
  match joined root name f with Err e => (f, Err e) | Ok rel => stored (mkdirInRoot f rel) end.

(** listFilesInRoot, one entry *)
Inductive Listed := LDir | LTooLarge (size : Z) | LBinary (size : Z) | LText (data : string).
(** utf8.Valid and the NUL byte *)
Definition list_node (looksBinary : string -> bool) (n : Node) : Listed :=
  match n with
  | NDir => LDir
  | NFile data =>
      (if (maxProjectFileBytes <? String.length data)%nat then LTooLarge (Z.of_nat (String.length data))
            else if looksBinary data then LBinary (Z.of_nat (String.length data)) else LText data)
  end.
Definition listFilesInRoot (looksBinary : string -> bool) (f : Folder) : list (list string * Listed) :=
  (fun '(p, n) => (p, list_node looksBinary n)) <$> map_to_list f.
End Ops.

(** The shape a folder has: whatever is there is in a folder that is there. *)
Definition tree_ok (f : Folder) : Prop := forall p, is_Some (f !! p) -> p <> [] /\ node_at f (removelast p) = Some NDir.

(** ** Joining a name to a root *)
Section JoinLaws.
Variable E : string -> result FSErr string.

Lemma components_name name : IsAbs name = false -> String.eqb (Clean name) ".." || HasPrefix (Clean name) "../" = false ->
  Forall plain (components name).
Proof.
  intros Ha Hb. destruct (components_normal name) as (n & names & Ec & Hp & _). rewrite Ec. destruct n as [|n]; [exact Hp|].
  exfalso. unfold Clean in Hb. rewrite Ha, Ec in Hb. destruct n as [|n].
  - destruct names as [|w ws]; [done|]. apply orb_false_iff in Hb as [_ Hb].
    change (unsplit false (replicate 1 ".." ++ w :: ws)) with (("../" +:+ Join (w :: ws) "/")) in Hb. by rewrite HasPrefix_app in Hb.
  - apply orb_false_iff in Hb as [_ Hb]. change (unsplit false (replicate (S (S n)) ".." ++ names)) with ("../" +:+ Join (".." :: replicate n ".." ++ names) "/") in Hb.
    by rewrite HasPrefix_app in Hb.
Qed.

Lemma Clean_name name : IsAbs name = false -> Clean name = match components name with [] => "." | cs => Join cs "/" end.
Proof. intros Ha. unfold Clean. rewrite Ha. by destruct (components name). Qed.

Lemma join_inside root name : IsAbs root = true -> IsAbs name = false -> Forall plain (components name) ->
  IsAbs (path_Join [root; Clean name]) = true /\ components (path_Join [root; Clean name]) = components root ++ components name.
Proof.
  intros Hr Ha Hp. rewrite Clean_name by done. destruct (components name) as [|c cs].
  - rewrite app_nil_r. destruct (Join_dot root Hr). done.
  - destruct (Join_below root (c :: cs)) as [H1 H2]; [by intros ->|done|done|]. rewrite Hr in H1. done.
Qed.
End JoinLaws.

(** *** The walk to an existing ancestor *)
Section Walk.
Variable E : string -> result FSErr string.

Lemma Dir_clean cs c : Forall plain (cs ++ [c]) -> Dir (unsplit true (cs ++ [c])) = unsplit true cs.
Proof.
  intros Hp. unfold Dir.
  assert (unsplit true (cs ++ [c]) = (match cs with [] => "" | _ => unsplit true cs end) +:+ String slash c) as ->.
  { destruct cs as [|x cs]; [done|]. unfold unsplit. rewrite Join_app by done. by rewrite !str_app_assoc. }
  set (a := match cs with [] => _ | _ => _ end). apply Forall_app in Hp as [Hcs [(_ & _ & _ & Hc) _]%Forall_cons].
  assert (LastIndexByte (a +:+ String slash c) slash = Some (String.length a)) as ->.
  { clear -Hc. induction a as [|d a IH].
    - change ("" +:+ String slash c) with (String slash c). simpl. assert (LastIndexByte c slash = None) as ->; [|done].
      unfold bytes in Hc. induction c as [|e c IH]; [done|]. simpl in *. apply not_elem_of_cons in Hc as [He Hc]. rewrite IH by done.
      destruct (Ascii.eqb e slash) eqn:Ee; [by apply Ascii.eqb_eq in Ee|done].
    - change (String d a +:+ String slash c) with (String d (a +:+ String slash c)). simpl. by rewrite IH. }
  assert (stake (S (String.length a)) (a +:+ String slash c) = a +:+ "/") as ->.
  { clear. induction a as [|d a IH]; [by destruct c|]. change (String d a +:+ String slash c) with (String d (a +:+ String slash c)).
    change (String d a +:+ "/") with (String d (a +:+ "/")). simpl. by f_equal. }
  unfold a. destruct cs as [|x cs]; [done|].
  destruct (components_unsplit true (x :: cs)) as [Ha Hco]; [by exists 0%nat, (x :: cs)|].
  assert (IsAbs (unsplit true (x :: cs) +:+ "/") = true) as Hab by (unfold IsAbs, unsplit; rewrite str_app_assoc; apply HasPrefix_app).
  unfold Clean. rewrite Hab. f_equal. unfold components in *. rewrite Hab. rewrite Ha in Hco.
  change "/" with (String slash ""). rewrite Split_app, clean_stack_app. simpl. exact Hco.
Qed.

(** From a path with [n] names below the root of the tree, [n + 1] looks are enough. *)
Lemma within_root_answers realRoot cs fuel : Forall plain cs -> (length cs < fuel)%nat -> is_Some (within_root E fuel realRoot (unsplit true cs)).
Proof.
  revert fuel. induction cs as [|c cs IH] using rev_ind; intros fuel Hp Hf; (destruct fuel as [|fuel]; [simpl in Hf; lia|]); cbn [within_root].
  - destruct (E (unsplit true [])) as [r|[]]; by eexists.
  - destruct (E (unsplit true (cs ++ [c]))) as [r|[]]; try by eexists. rewrite Dir_clean by done. case_match; [eauto|].
    apply Forall_app in Hp as [Hp _]. apply IH; [done|]. rewrite length_app in Hf. simpl in Hf. lia.
Qed.

(** The answer is the one for the longest existing prefix. *)
Lemma within_root_ok realRoot cs fuel : Forall plain cs -> within_root E fuel realRoot (unsplit true cs) = Some (Ok tt) ->
  exists k resolved, (k <= length cs)%nat /\ E (unsplit true (take k cs)) = Ok resolved /\
    (resolved = realRoot \/ HasPrefix resolved (realRoot +:+ "/") = true) /\
    forall j, (k < j <= length cs)%nat -> E (unsplit true (take j cs)) = Err ENotExist.
Proof.
  revert fuel. induction cs as [|c cs IH] using rev_ind; intros fuel Hp; (destruct fuel as [|fuel]; [done|]); cbn [within_root].
  - destruct (E (unsplit true [])) as [r|[]] eqn:Er; try done.
    intros H. exists 0%nat, r. split; [done|]. split; [done|]. split; [|intros j Hj; simpl in Hj; lia].
    destruct (String.eqb r realRoot) eqn:E1; [left; by apply String.eqb_eq|]. destruct (HasPrefix r (realRoot +:+ "/")); [by right|done].
  - destruct (E (unsplit true (cs ++ [c]))) as [r|[]] eqn:Er; try done.
    + intros H. exists (length (cs ++ [c])), r. rewrite take_ge by done. split; [done|]. split; [done|]. split; [|intros; lia].
      destruct (String.eqb r realRoot) eqn:E1; [left; by apply String.eqb_eq|]. destruct (HasPrefix r (realRoot +:+ "/")); [by right|done].
    + rewrite Dir_clean by done. apply Forall_app in Hp as [Hp _]. case_match; [done|]. intros Hw.
      apply IH in Hw as (k & r & Hk & Ek & Hr & Hj); [|done]. exists k, r. rewrite length_app. simpl. split; [lia|].
      rewrite take_app_le by lia. split; [done|]. split; [done|]. intros j Hj'.
      destruct (decide (j = length cs + 1)%nat) as [->|]; [|rewrite take_app_le by lia; apply Hj; lia].
      by rewrite take_ge by (rewrite length_app; simpl; lia).
Qed.
End Walk.

Lemma abs_names p : IsAbs p = true -> Forall plain (components p).
Proof. intros Ha. destruct (components_normal p) as (n & names & -> & Hp & Hn). rewrite (Hn Ha). exact Hp. Qed.

Lemma safeJoin_full E root name full : IsAbs root = true -> safeJoin E root name = Some (Ok full) ->
  IsAbs (TrimSpace name) = false /\ Forall plain (components (TrimSpace name)) /\ full = path_Join [root; Clean (TrimSpace name)] /\
  exists realRoot, E root = Ok realRoot /\ within_root E (path_fuel full) realRoot full = Some (Ok tt).
Proof.
  intros Hr. unfold safeJoin. case_match; [done|]. destruct (IsAbs (TrimSpace name)) eqn:Ha; [done|].
  destruct (String.eqb (Clean (TrimSpace name)) ".." || HasPrefix (Clean (TrimSpace name)) "../") eqn:Ht; [done|].
  cbv zeta. case_match; [done|]. unfold assertWithinRoot. destruct (E root) as [rr|e] eqn:Er; [|done].
  destruct (within_root _ _ rr _) as [[[]|e]|] eqn:Hw; simpl; [|done..]. intros [= <-].
  split; [done|]. split; [by apply (components_name _ Ha)|]. split; [done|]. by exists rr.
Qed.

(** a name a request joins to a project's folder gives a path made of the
    folder's own path and the name's plain parts, and the longest part of it that
    exists really lies in the folder once every symbolic link is followed. *)
Theorem safe_join_inside E root name full : IsAbs root = true -> Clean root = root -> safeJoin E root name = Some (Ok full) ->
  IsAbs full = true /\ Clean full = full /\ components full = components root ++ rootRel root full /\
  rootRel root full = components (TrimSpace name) /\ Forall plain (rootRel root full) /\
  exists realRoot anc resolved, E root = Ok realRoot /\ E anc = Ok resolved /\
    (resolved = realRoot \/ HasPrefix resolved (realRoot +:+ "/") = true) /\
    exists k, components anc = take k (components full) /\
      forall j, (k < j <= length (components full))%nat -> E (unsplit true (take j (components full))) = Err ENotExist.
Proof.
  intros Hr Hcl H. destruct (safeJoin_full E root name full Hr H) as (Ha & Hp & -> & rr & Er & Hw).
  destruct (join_inside root (TrimSpace name) Hr Ha Hp) as [Hfa Hfc].
  assert (Clean (path_Join [root; Clean (TrimSpace name)]) = path_Join [root; Clean (TrimSpace name)]) as Hidem.
  { cbn [path_Join]. destruct (String.eqb root "") eqn:E0; [by apply String.eqb_eq in E0; subst|]. apply Clean_idem. }
  revert Hw Hfa Hfc Hidem. generalize (path_Join [root; Clean (TrimSpace name)]) as full. intros full Hw Hfa Hfc Hidem.
  split; [done|]. split; [done|].
  assert (rootRel root full = components (TrimSpace name)) as Hrel by (unfold rootRel; by rewrite Hfc, strip_common_app).
  rewrite Hrel. split; [done|]. split; [done|]. split; [done|].
  assert (full = unsplit true (components full)) as Hu by (rewrite <- Hidem at 1; unfold Clean; by rewrite Hfa).
  rewrite Hu in Hw at 2. apply within_root_ok in Hw as (k & r & Hk & Ek & Hres & Hj); [|by apply abs_names].
  exists rr, (unsplit true (take k (components full))), r. split; [done|]. split; [done|]. split; [done|]. exists k. split; [|done].
  apply components_unsplit. exists 0%nat, (take k (components full)). split; [done|]. split; [|done]. apply Forall_take, abs_names, Hfa.
Qed.

(** C33: joining a name to a root always ends with an answer: the walk up to an
    existing ancestor takes at most one look per name of the path. *)
Theorem safe_join_answers E root name : IsAbs root = true -> is_Some (safeJoin E root name).
Proof.
  intros Hr. unfold safeJoin. case_match; [by eexists|]. destruct (IsAbs (TrimSpace name)) eqn:Ha; [by eexists|].
  destruct (String.eqb (Clean (TrimSpace name)) ".." || HasPrefix (Clean (TrimSpace name)) "../") eqn:Ht; [by eexists|].
  cbv zeta. case_match; [by eexists|]. unfold assertWithinRoot. destruct (E root) as [rr|e]; [|by eexists].
  destruct (join_inside root (TrimSpace name) Hr Ha (components_name _ Ha Ht)) as [Hfa Hfc].
  set (full := path_Join _) in *.
  assert (full = unsplit true (components full)) as Hu.
  { assert (Clean full = full) as Hid; [|rewrite <- Hid at 1; unfold Clean; by rewrite Hfa].
    unfold full. cbn [path_Join]. destruct (String.eqb root "") eqn:E0; [by apply String.eqb_eq in E0; subst|]. apply Clean_idem. }
  destruct (within_root_answers E rr (components full) (path_fuel full)) as [x Hx]; [by apply abs_names|unfold path_fuel; lia|].
  rewrite <- Hu in Hx. rewrite Hx. by destruct x; eexists.
Qed.

(** ** The shape and the caps *)
Definition small_files (f : Folder) : Prop := forall p d, f !! p = Some (NFile d) -> (String.length d <= maxProjectFileBytes)%nat.

Lemma countFiles_insert f q n : f !! q = None -> countFiles (<[q := n]> f) = (countFiles f + if is_file n then 1 else 0)%nat.
Proof.
  intros Hq. unfold countFiles. destruct (is_file n) eqn:E.
  - rewrite (map_filter_insert_True (M := gmap (list string))) by done. rewrite map_size_insert_None; [lia|]. apply map_lookup_filter_None. by left.
  - rewrite map_filter_insert_not' by (try (simpl; rewrite E); naive_solver). lia.
Qed.

Lemma countFiles_overwrite f q n n' : f !! q = Some n -> is_file n = true -> is_file n' = true -> countFiles (<[q := n']> f) = countFiles f.
Proof.
  intros Hq Hn Hn'. unfold countFiles. rewrite map_filter_insert_True by done. rewrite map_size_insert_Some; [done|].
  exists n. by apply map_lookup_filter_Some.
Qed.

Lemma countFiles_delete f q : (countFiles (delete q f) <= countFiles f)%nat.
Proof. unfold countFiles. rewrite map_filter_delete. rewrite map_size_delete. case_match; [apply Nat.le_pred_l|done]. Qed.

(** A new entry below a folder that is there keeps the shape. *)
Lemma tree_insert f p n : tree_ok f -> p <> [] -> f !! p = None \/ (is_file n = true /\ exists m, f !! p = Some m /\ is_file m = true) ->
  node_at f (removelast p) = Some NDir -> tree_ok (<[p := n]> f).
Proof.
  intros Ht Hp Hf Hd q Hq.
  assert (forall r, node_at f r = Some NDir -> node_at (<[p := n]> f) r = Some NDir) as Hkeep.
  { intros [|c r]; [done|]. unfold node_at. intros Hr. rewrite lookup_insert_ne; [done|]. intros ->.
    destruct Hf as [Hf|[_ (m & Hm & Hfm)]]; rewrite Hr in *; [done|by injection Hm as <-]. }
  destruct (decide (p = q)) as [<-|Hne]; [by auto|]. rewrite lookup_insert_ne in Hq by done. apply Ht in Hq as [??]. auto.
Qed.

Lemma removelast_snoc {A} (l : list A) x : removelast (l ++ [x]) = l.
Proof. apply removelast_last. Qed.

Lemma snoc_cases {A} (l : list A) : l = [] \/ exists l' x, l = l' ++ [x].
Proof. induction l as [|x l _] using rev_ind; eauto. Qed.

Lemma prefixes_snoc p c : prefixes (p ++ [c]) = prefixes p ++ [p ++ [c]].
Proof. induction p as [|x p IH]; [done|]. simpl. rewrite IH, fmap_app. done. Qed.

(** What making the folders of a path does. *)
Record mkdir_spec (f : Folder) (p : list string) (r : Folder * bool) : Prop := {
  ms_tree : tree_ok r.1;
  ms_count : countFiles r.1 = countFiles f;
  ms_keep q n : f !! q = Some n -> r.1 !! q = Some n;
  ms_new q n : r.1 !! q = Some n -> f !! q = Some n \/ (n = NDir /\ f !! q = None /\ q `prefix_of` p);
  ms_dir : r.2 = true -> node_at r.1 p = Some NDir
}.

Lemma MkdirAll_spec f p : tree_ok f -> mkdir_spec f p (MkdirAll f p).
Proof.
  intros Ht. unfold MkdirAll. induction p as [|c p IH] using rev_ind; [by split; try done; left|].
  rewrite prefixes_snoc, foldl_app. cbn [foldl]. destruct (foldl mkdir_one (f, true) (prefixes p)) as [g ok]. destruct IH as [H1 H2 H3 H4 H5]. simpl in *.
  assert (mkdir_spec f (p ++ [c]) (g, false)) as Hstay.
  { split; simpl; try done. intros q n Hq. destruct (H4 q n Hq) as [?|(? & ? & Hpre)]; [by left|right].
    split; [done|]. split; [done|]. by apply prefix_app_r. }
  destruct ok; simpl; [|done]. destruct (g !! (p ++ [c])) as [[]|] eqn:E.
  - done.
  - split; simpl; try done; [apply Hstay|]. intros _. by destruct p.
  - assert (node_at (<[p ++ [c] := NDir]> g) (p ++ [c]) = Some NDir) as Hn by (destruct p; simpl; by rewrite lookup_insert_eq).
    split; simpl; try done.
    + apply tree_insert; [done|by destruct p|by left|]. rewrite removelast_snoc. by apply H5.
    + rewrite countFiles_insert by done. simpl. lia.
    + intros q n Hq. rewrite lookup_insert_ne; [by apply H3|]. intros <-. apply H3 in Hq. congruence.
    + intros q n Hq. apply lookup_insert_Some in Hq as [[<- <-]|[Hne Hq]]; [|by apply Hstay].
      right. split; [done|]. split; [|done]. destruct (f !! (p ++ [c])) eqn:Ef; [|done]. apply H3 in Ef. congruence.
Qed.


Lemma WriteFile_cases f p data : tree_ok f ->
  WriteFile f p data = (f, false) \/
  (WriteFile f p data = (<[p := NFile data]> f, true) /\ p <> [] /\ node_at f (removelast p) = Some NDir /\
   (f !! p = None \/ exists d, f !! p = Some (NFile d))).
Proof.
  intros Ht. unfold WriteFile. destruct (node_at f p) as [[d|]|] eqn:E; [|by left|].
  - right. destruct p as [|c p]; [done|]. simpl in E. split; [done|]. split; [done|]. split; [|eauto]. by apply (Ht (c :: p)).
  - case_decide as Hd; [right|by left]. destruct p as [|c p]; [done|]. auto.
Qed.

Lemma WriteFile_tree f p data : tree_ok f -> tree_ok (WriteFile f p data).1.
Proof.
  intros Ht. destruct (WriteFile_cases f p data Ht) as [->|(-> & Hp & Hd & Hf)]; [done|]. apply tree_insert; [done|done| |done].
  destruct Hf as [?|[d Hf]]; [by left|right; naive_solver].
Qed.

Lemma WriteFile_small f p data : tree_ok f -> small_files f -> (String.length data <= maxProjectFileBytes)%nat -> small_files (WriteFile f p data).1.
Proof.
  intros Ht Hf Hd. destruct (WriteFile_cases f p data Ht) as [->|(-> & _)]; [done|]. intros q d Hq.
  simpl in Hq. apply lookup_insert_Some in Hq as [[_ [= <-]]|[_ Hq]]; [done|by eapply Hf].
Qed.

Lemma MkdirAll_small f p : tree_ok f -> small_files f -> small_files (MkdirAll f p).1.
Proof. intros Ht Hf q d Hq. by destruct (ms_new _ _ _ (MkdirAll_spec f p Ht) q _ Hq) as [?|[? _]]; [eapply Hf|]. Qed.

(** A write adds one file at most, and none where there was one. *)
Lemma writeInRoot_count f rel data : tree_ok f ->
  (countFiles (writeInRoot f rel data).1 <= countFiles f + if missingInRoot f rel then 1 else 0)%nat.
Proof.
  intros Ht. unfold writeInRoot, writeRootFile. pose proof (MkdirAll_spec f (removelast rel) Ht) as Hm.
  destruct (MkdirAll f (removelast rel)) as [f1 ok]. destruct Hm as [H1 H2 H3 H4 _]. simpl in *. destruct ok; [|simpl; lia].
  destruct (WriteFile_cases f1 rel data H1) as [->|(-> & Hp & _ & Hf)]; simpl; [lia|].
  destruct (f1 !! rel) as [m|] eqn:E.
  - rewrite (countFiles_overwrite f1 rel m) by (try done; destruct Hf as [?|[d Hf]]; naive_solver). lia.
  - rewrite countFiles_insert by done. simpl. unfold missingInRoot. rewrite bool_decide_eq_true_2; [lia|].
    destruct (f !! rel) as [m|] eqn:Ef; [apply H3 in Ef; congruence|by destruct rel].
Qed.

Record capped (f : Folder) : Prop := { cap_tree : tree_ok f; cap_count : (countFiles f <= maxProjectFiles)%nat; cap_small : small_files f }.

Lemma writeInRoot_tree f rel data : tree_ok f -> tree_ok (writeInRoot f rel data).1.
Proof.
  intros Ht. unfold writeInRoot, writeRootFile. pose proof (ms_tree _ _ _ (MkdirAll_spec f (removelast rel) Ht)) as H1.
  destruct (MkdirAll f (removelast rel)) as [f1 []]; [by apply WriteFile_tree|done].
Qed.

Lemma writeInRoot_small f rel data : tree_ok f -> small_files f -> (String.length data <= maxProjectFileBytes)%nat -> small_files (writeInRoot f rel data).1.
Proof.
  intros Ht Hf Hd. unfold writeInRoot, writeRootFile. pose proof (ms_tree _ _ _ (MkdirAll_spec f (removelast rel) Ht)) as H1.
  pose proof (MkdirAll_small f (removelast rel) Ht Hf) as H2.
  destruct (MkdirAll f (removelast rel)) as [f1 []]; [by apply WriteFile_small|done].
Qed.

Lemma writeInRoot_capped f rel data : capped f -> add_cap f rel = false -> (String.length data <= maxProjectFileBytes)%nat -> capped (writeInRoot f rel data).1.
Proof.
  intros [Ht Hc Hs] Ha Hd. split; [by apply writeInRoot_tree| |by apply writeInRoot_small].
  pose proof (writeInRoot_count f rel data Ht) as Hn. unfold add_cap in Ha. destruct (missingInRoot f rel); [|lia].
  cbn [andb] in Ha. apply Nat.leb_gt in Ha. lia.
Qed.

(** Nothing is below a file. *)
Lemma file_is_leaf f p d x r : tree_ok f -> f !! p = Some (NFile d) -> is_Some (f !! (p ++ x :: r)) -> False.
Proof.
  intros Ht Hp. revert x. induction r as [|y r IH] using rev_ind; intros x Hq.
  - apply Ht in Hq as [_ Hq]. rewrite removelast_snoc in Hq. destruct p; [by apply (proj1 (Ht [] ltac:(by eexists)))|]. simpl in Hq. congruence.
  - apply (IH x). change (p ++ x :: r ++ [y]) with (p ++ (x :: r) ++ [y]) in Hq. rewrite app_assoc in Hq. apply Ht in Hq as [_ Hq].
    rewrite removelast_snoc in Hq. destruct (p ++ x :: r) eqn:E; [by destruct p|]. by eexists.
Qed.

Lemma tree_delete f p : tree_ok f -> (forall q, is_Some (f !! q) -> p `prefix_of` q -> q = p) -> tree_ok (delete p f).
Proof.
  intros Ht Hl q [n Hq]. apply lookup_delete_Some in Hq as [Hne Hq]. destruct (Ht q) as [Hq0 Hd]; [by eexists|]. split; [done|].
  destruct (removelast q) as [|c r] eqn:E; [done|]. unfold node_at in *. rewrite lookup_delete_ne; [done|]. intros ->. apply Hne. symmetry.
  apply Hl; [by eexists|]. destruct (snoc_cases q) as [->|(l' & x & ->)]; [done|]. rewrite removelast_snoc in E. rewrite <- E. by apply prefix_app_r.
Qed.

Lemma stake_le n s : (String.length (stake n s) <= n)%nat.
Proof. revert s. induction n as [|n IH]; intros [|c s]; simpl; try lia. specialize (IH s). lia. Qed.

Section Caps.
Context `{L : Links}.

Lemma stored_capped w : capped w.1 -> capped (stored w).1.
Proof. by destruct w. Qed.

Lemma write_file_capped root name content f : capped f -> capped (write_file root name content f).1.
Proof.
  intros Hf. unfold write_file. destruct (Nat.ltb _ _) eqn:E; [done|]. apply Nat.ltb_ge in E. destruct (joined root name f) as [rel|]; [|done].
  destruct (add_cap f rel) eqn:Ea; [done|]. by apply stored_capped, writeInRoot_capped.
Qed.

Lemma upload_file_capped root name body f : capped f -> capped (upload_file root name body f).1.
Proof.
  intros Hf. unfold upload_file. destruct (joined root name f) as [rel|]; [|done]. destruct (add_cap f rel) eqn:Ea; [done|].
  destruct body as [data|]; [|done]. destruct (Nat.ltb _ _) eqn:E; [done|]. apply Nat.ltb_ge in E. by apply stored_capped, writeInRoot_capped.
Qed.

Lemma delete_file_capped root name f : capped f -> capped (delete_file root name f).1.
Proof.
  intros Hf. unfold delete_file. destruct (joined root name f) as [rel|]; [|done]. unfold removeInRoot. destruct rel as [|c rel]; [done|].
  destruct (f !! (c :: rel)) as [n|] eqn:E; [|done].
  assert ((forall q, is_Some (f !! q) -> (c :: rel) `prefix_of` q -> q = c :: rel) -> capped (delete (c :: rel) f)) as Hdel.
  { intros Hl. destruct Hf as [Ht Hc Hs]. split; [by apply tree_delete|pose proof (countFiles_delete f (c :: rel)); lia|].
    intros q d [_ Hq]%lookup_delete_Some. by eapply Hs. }
  destruct n.
  - apply Hdel. intros q Hq [r ->]. destruct r as [|x r]; [by rewrite app_nil_r|exfalso]. revert Hq.
    apply (file_is_leaf f (c :: rel) data x r (cap_tree _ Hf) E).
  - case_bool_decide as Hex; [done|]. apply Hdel. intros q [n Hq] Hpre. destruct (decide (q = c :: rel)); [done|exfalso]. apply Hex, Exists_exists.
    exists q. split; [|done]. apply list_elem_of_fmap. exists (q, n). by rewrite elem_of_map_to_list.
Qed.
End Caps.

Lemma writeRootFile_failed f rel data g : tree_ok f -> writeRootFile f rel data = (g, false) -> countFiles g = countFiles f.
Proof.
  intros Ht. unfold writeRootFile. destruct (MkdirAll_spec f (removelast rel) Ht) as [H1 H2 _ _ _].
  destruct (MkdirAll f (removelast rel)) as [f1 []]; [|by intros [= <-]]. simpl in *.
  destruct (WriteFile_cases f1 rel data H1) as [->|(-> & _)]; [by intros [= <-]|done].
Qed.

Section Archives.
Context `{L : Links}.

Lemma make_dir_capped root name f : capped f -> capped (make_dir root name f).1.
Proof.
  intros Hf. unfold make_dir. destruct (joined root name f) as [rel|]; [|done]. apply stored_capped. unfold mkdirInRoot.
  pose proof (MkdirAll_spec f rel (cap_tree _ Hf)) as [H1 H2 _ _ _]. split; [done|rewrite H2; apply Hf|apply MkdirAll_small; apply Hf].
Qed.

(** Extraction never holds more files than it has counted. *)
Definition extracted_ok (st : Folder * nat) : Prop :=
  tree_ok st.1 /\ small_files st.1 /\ (countFiles st.1 <= st.2)%nat /\ (st.2 <= maxProjectFiles)%nat.

Lemma extract_one_ok root st e : extracted_ok st -> extracted_ok (extract_one root st e).
Proof.
  destruct st as [f n]. intros (Ht & Hs & Hc & Hn). unfold extract_one. destruct (zIsDir e || _) eqn:E; [done|].
  destruct (safeJoin _ root (zName e)) as [[full|]|]; [|done..]. destruct (_ <? zSize e); [done|]. destruct (zData e) as [data|]; [|done].
  pose proof (writeInRoot_count f (rootRel root full) (stake maxProjectFileBytes data) Ht) as Hw.
  pose proof (writeInRoot_tree f (rootRel root full) (stake maxProjectFileBytes data) Ht) as Htr.
  pose proof (writeInRoot_small f (rootRel root full) (stake maxProjectFileBytes data) Ht Hs (stake_le _ _)) as Hsm.
  unfold writeInRoot in *. destruct (writeRootFile f (rootRel root full) (stake maxProjectFileBytes data)) as [g []] eqn:Eg; simpl in *.
  - split; [done|]. split; [done|]. apply orb_false_iff in E as [_ E%Nat.leb_gt]. simpl. destruct (missingInRoot f _); lia.
  - split; [done|]. split; [done|]. simpl. rewrite (writeRootFile_failed _ _ _ _ Ht Eg). lia.
Qed.

Lemma extract_capped zr root : capped (extractZipToDir zr root ∅).1.
Proof.
  assert (extracted_ok (extractZipToDir zr root ∅)) as (Ht & Hs & Hc & Hn); [|split; [done|lia|done]].
  unfold extractZipToDir. apply foldl_invariant; [|intros; by apply extract_one_ok].
  split; [by intros p [? ?]|]. split; [by intros p d ?|]. split; [done|]. simpl. lia.
Qed.

(** A project's folder as the program makes it: empty or unpacked from an archive,
    then changed through the file routes. *)
Inductive kept (root : string) : Folder -> Prop :=
  | kept_new : kept root ∅
  | kept_unpacked zr : kept root (extractZipToDir zr root ∅).1
  | kept_write name content f : kept root f -> kept root (write_file root name content f).1
  | kept_upload name body f : kept root f -> kept root (upload_file root name body f).1
  | kept_delete name f : kept root f -> kept root (delete_file root name f).1
  | kept_mkdir name f : kept root f -> kept root (make_dir root name f).1.


(** a file over one MiB that a revision's snapshot holds is not in the folder a
    restore unpacks from it, whatever else the folder and the snapshot hold. *)
Theorem restore_loses_large_files f p d root : f !! p = Some (NFile d) -> (maxProjectFileBytes < String.length d)%nat ->
  (exists e, e ∈ zipDir f /\ zName e = Join p "/" /\ zData e = Some d) /\ (extractZipToDir (zipDir f) root ∅).1 !! p <> Some (NFile d).
Proof.
  intros Hp Hd. split.
  - exists (mkZip (Join p "/") false (Z.of_nat (String.length d)) (Some d)). split; [|done]. unfold zipDir. apply list_elem_of_omap.
    exists (p, NFile d). by rewrite elem_of_map_to_list.
  - intros H. apply (cap_small _ (extract_capped (zipDir f) root)) in H. lia.
Qed.
End Archives.

(** ** A snapshot unpacked again *)
Lemma stake_all n s : (String.length s <= n)%nat -> stake n s = s.
Proof. revert s. induction n as [|n IH]; intros [|c s] H; simpl in *; try lia; [done..|]. by rewrite IH by lia. Qed.

(** Folders can be made where no file is in the way. *)
Lemma MkdirAll_free f p : tree_ok f -> (forall q d, f !! q = Some (NFile d) -> q `prefix_of` p -> False) -> (MkdirAll f p).2 = true.
Proof.
  intros Ht. induction p as [|c p IH] using rev_ind; intros Hf; [done|].
  assert ((MkdirAll f p).2 = true) as Hok by (apply IH; intros q d Hq Hpre; apply (Hf q d Hq); by apply prefix_app_r).
  pose proof (MkdirAll_spec f p Ht) as Hm. unfold MkdirAll in *. rewrite prefixes_snoc, foldl_app. cbn [foldl].
  destruct (foldl mkdir_one (f, true) (prefixes p)) as [g ok]. simpl in Hok. subst ok. simpl.
  destruct (g !! (p ++ [c])) as [[d|]|] eqn:E; try done. exfalso. destruct (ms_new _ _ _ Hm _ _ E) as [Hf'|[? _]]; [|done]. by apply (Hf _ d Hf').
Qed.

Section RoundTrip.
Context `{L : Links} (root : string) (rr : list string).
Hypothesis root_abs : IsAbs root = true.
Hypothesis root_clean : Clean root = root.
Hypothesis root_below : components root <> [].
Hypothesis rr_plain : Forall plain rr.
Hypothesis rr_below : rr <> [].
(** The folder has no links: what exists is found where it says, below where the root
    itself leads. *)
Hypothesis resolves : forall f rel, tree_ok f -> Forall plain rel ->
  eval_symlinks f (unsplit true (components root ++ rel)) =
  match node_at f rel with Some _ => Ok (unsplit true (rr ++ rel)) | None => Err ENotExist end.

Lemma root_comps : root = unsplit true (components root).
Proof. rewrite <- root_clean at 1. unfold Clean. by rewrite root_abs. Qed.

Lemma resolves_root f : tree_ok f -> eval_symlinks f root = Ok (unsplit true rr).
Proof. intros Ht. pose proof (resolves f [] Ht (Forall_nil_2 _)) as H. rewrite !app_nil_r, <- root_comps in H. exact H. Qed.

Lemma within_root_plain f rel fuel : tree_ok f -> Forall plain rel -> (length rel < fuel)%nat ->
  within_root (eval_symlinks f) fuel (unsplit true rr) (unsplit true (components root ++ rel)) = Some (Ok tt).
Proof.
  intros Ht. revert fuel. induction rel as [|c rel IH] using rev_ind; intros fuel Hp Hf; (destruct fuel as [|fuel]; [simpl in Hf; lia|]); cbn [within_root].
  - rewrite resolves by done. simpl node_at. cbv iota. rewrite app_nil_r. by rewrite String.eqb_refl.
  - rewrite resolves by done. destruct (node_at f (rel ++ [c])).
    + assert (HasPrefix (unsplit true (rr ++ rel ++ [c])) (unsplit true rr +:+ "/") = true) as ->; [|by rewrite andb_false_r].
      apply ancestor_prefix; [done|done|by apply Forall_app|]. exists (rel ++ [c]). split; [by destruct rel|done].
    + rewrite app_assoc, Dir_clean; [|rewrite <- app_assoc; apply Forall_app; split; [by apply abs_names|done]].
      assert (String.eqb (unsplit true (components root ++ rel)) (unsplit true ((components root ++ rel) ++ [c])) = false) as ->.
      { apply String.eqb_neq. intros E. apply unsplit_inj in E.
        - apply (f_equal length) in E. rewrite !length_app in E. simpl in E. lia.
        - apply Forall_app in Hp as [Hp _]. apply Forall_app. split; [by apply abs_names|done].
        - rewrite <- app_assoc. apply Forall_app. split; [by apply abs_names|done]. }
      apply Forall_app in Hp as [Hp _]. rewrite length_app in Hf. simpl in Hf. apply IH; [done|lia].
Qed.

Lemma safeJoin_plain f p : tree_ok f -> p <> [] -> Forall plain p -> TrimSpace (Join p "/") = Join p "/" ->
  exists full, safeJoin (eval_symlinks f) root (Join p "/") = Some (Ok full) /\ rootRel root full = p.
Proof.
  intros Ht Hne Hp Htrim. unfold safeJoin. rewrite Htrim.
  assert (IsAbs (Join p "/") = false /\ components (Join p "/") = p) as [Ha Hc].
  { destruct (components_unsplit false p) as [H1 H2]; [by exists 0%nat, p|]. by destruct p. }
  assert (Clean (Join p "/") = Join p "/") as Hcl by (rewrite Clean_name, Hc by done; by destruct p).
  assert (Join p "/" <> "") as Hnz by (intros E; rewrite E in Hc; by destruct p).
  apply String.eqb_neq in Hnz. rewrite Hnz, Ha, Hcl.
  assert (String.eqb (Join p "/") ".." || HasPrefix (Join p "/") "../" = false) as ->.
  { apply orb_false_iff. split.
    - apply String.eqb_neq. intros E. rewrite E in Hc. change (components "..") with [".."] in Hc. subst p.
      by apply Forall_singleton in Hp as (_ & _ & ? & _).
    - apply not_true_iff_false. intros [r E]%HasPrefix_spec. pose proof (Split_Join p Hne (plain_free _ Hp)) as Hs.
      rewrite E in Hs. change ("../" +:+ r) with (".." +:+ String slash r) in Hs. rewrite Split_app in Hs. change (Split ".." slash) with [".."] in Hs.
      rewrite <- Hs in Hp. apply Forall_cons in Hp as [(_ & _ & ? & _) _]. done. }
  destruct (join_inside root (Join p "/") root_abs Ha ltac:(by rewrite Hc)) as [Hfa Hfc]. rewrite Hcl, Hc in *.
  set (full := path_Join [root; Join p "/"]) in *. exists full.
  assert (full = unsplit true (components root ++ p)) as Hfull.
  { rewrite <- Hfc. assert (Clean full = full) as Hid; [|rewrite <- Hid at 1; unfold Clean; by rewrite Hfa].
    unfold full. cbn [path_Join]. destruct (String.eqb root "") eqn:E0; [apply String.eqb_eq in E0; by rewrite E0 in root_abs|]. apply Clean_idem. }
  assert (negb (String.eqb full root) && negb (HasPrefix full (root +:+ "/")) = false) as ->.
  { assert (HasPrefix full (root +:+ "/") = true) as ->; [|by rewrite andb_false_r]. rewrite Hfull.
    replace (root +:+ "/") with (unsplit true (components root) +:+ "/") by (by rewrite <- root_comps).
    apply ancestor_prefix; [done|by apply abs_names| |by exists p]. apply Forall_app. split; [by apply abs_names|done]. }
  unfold assertWithinRoot. rewrite resolves_root by done.
  rewrite Hfull at 2. rewrite within_root_plain; [|done|done|]; cycle 1.
  { unfold path_fuel. rewrite Hfc, length_app. lia. }
  split; [done|]. unfold rootRel. by rewrite Hfc, strip_common_app.
Qed.

(** *** Unpacking what was packed *)
Definition packed (l : list (list string * Node)) : list (list string * string) :=
  omap (fun '(p, n) => match n with NFile d => Some (p, d) | NDir => None end) l.

Lemma elem_of_packed p d l : (p, d) ∈ packed l <-> (p, NFile d) ∈ l.
Proof.
  unfold packed. rewrite list_elem_of_omap. split; [intros ([q []] & Hin & E); [by injection E as <- <-|done]|]. intros H. by exists (p, NFile d).
Qed.

Lemma zipDir_packed f : zipDir f = (fun '(p, d) => mkZip (Join p "/") false (Z.of_nat (String.length d)) (Some d)) <$> packed (map_to_list f).
Proof. unfold zipDir, packed. induction (map_to_list f) as [|[p []] l IH]; simpl; [done|by f_equal|done]. Qed.

Lemma length_packed f : length (packed (map_to_list f)) = countFiles f.
Proof.
  unfold countFiles. rewrite <- length_map_to_list, map_filter_alt, map_to_list_to_map; cycle 1.
  { apply NoDup_fmap_filter, NoDup_fst_map_to_list. }
  unfold packed.
  induction (map_to_list f) as [|[p []] l IH]; [done| |]; rewrite filter_cons; simpl; by rewrite <- IH.
Qed.

Lemma NoDup_packed f : NoDup (packed (map_to_list f)).*1.
Proof.
  pose proof (NoDup_fst_map_to_list f) as Hnd. unfold packed. induction (map_to_list f) as [|[p n] l IH]; [constructor|].
  rewrite fmap_cons, NoDup_cons in Hnd. destruct Hnd as [Hp Hl]. destruct n; simpl; [|by apply IH]. apply NoDup_cons. split; [|by apply IH].
  intros ([q d] & -> & Hin)%list_elem_of_fmap. apply elem_of_packed in Hin. apply Hp. apply list_elem_of_fmap. by exists (q, NFile d).
Qed.

(** A folder a restore can take back whole. *)
Record restorable (f : Folder) : Prop := {
  rs_capped : capped f;
  rs_names p d : f !! p = Some (NFile d) -> Forall plain p /\ TrimSpace (Join p "/") = Join p "/"
}.

(** After some of the files: exactly those, in folders the original has. *)
Record unpacked (f : Folder) (done : list (list string * string)) (st : Folder * nat) : Prop := {
  un_tree : tree_ok st.1;
  un_files p d : st.1 !! p = Some (NFile d) <-> (p, d) ∈ done;
  un_dirs p : st.1 !! p = Some NDir -> f !! p = Some NDir;
  un_count : st.2 = length done
}.

Lemma dir_above f p d q : tree_ok f -> f !! p = Some (NFile d) -> q `prefix_of` removelast p -> q <> [] -> f !! q = Some NDir.
Proof.
  intros Ht Hp [r Hr] Hq. destruct (Ht p ltac:(by eexists)) as [_ Hd]. rewrite Hr in Hd. clear Hr Hp.
  induction r as [|x r IH] using rev_ind.
  - rewrite app_nil_r in Hd. by destruct q.
  - apply IH. rewrite app_assoc in Hd. destruct (Ht ((q ++ r) ++ [x])) as [_ H].
    + eexists. destruct ((q ++ r) ++ [x]) eqn:E; [by destruct q|]. exact Hd.
    + by rewrite removelast_snoc in H.
Qed.

Lemma unpack_one f dn p d st : restorable f -> f !! p = Some (NFile d) -> p ∉ dn.*1 ->
  (forall q e, (q, e) ∈ dn -> f !! q = Some (NFile e)) -> (length dn < countFiles f)%nat -> unpacked f dn st ->
  unpacked f (dn ++ [(p, d)]) (extract_one root st (mkZip (Join p "/") false (Z.of_nat (String.length d)) (Some d))).
Proof.
  intros [[Hft Hfc Hfs] Hnames] Hp Hnew Hdn Hlen [Ht Hfiles Hdirs Hn]. destruct st as [g n]. simpl in *.
  destruct (Hnames p d Hp) as [Hpl Htrim]. pose proof (Hfs p d Hp) as Hsmall. destruct (Hft p ltac:(by eexists)) as [Hne _].
  destruct (safeJoin_plain g p Ht Hne Hpl Htrim) as (full & Hj & Hrel).
  unfold extract_one. cbn [zIsDir zName zSize zData orb]. assert ((maxProjectFiles <=? n)%nat = false) as -> by (apply Nat.leb_gt; lia).
  rewrite Hj, Hrel. assert ((Z.of_nat maxProjectFileBytes <? Z.of_nat (String.length d)) = false) as -> by (apply Z.ltb_ge; lia).
  assert (stake maxProjectFileBytes d = d) as -> by (by apply stake_all).
  assert (forall q, q `prefix_of` removelast p -> q <> [] -> f !! q = Some NDir) as Habove by (intros; by eapply dir_above).
  unfold writeRootFile. pose proof (MkdirAll_spec g (removelast p) Ht) as Hm.
  assert ((MkdirAll g (removelast p)).2 = true) as Hok.
  { apply MkdirAll_free; [done|]. intros q e Hq Hpre. apply Hfiles, Hdn in Hq. assert (q <> []) as Hq0 by (by apply (Hft q ltac:(by eexists))).
    rewrite (Habove q Hpre Hq0) in Hq. done. }
  destruct (MkdirAll g (removelast p)) as [g1 ok]. simpl in Hok. subst ok. destruct Hm as [H1 _ H3 H4 H5]. simpl in *.
  assert (g1 !! p = None) as Hnone.
  { destruct (g1 !! p) as [m|] eqn:E; [|done]. exfalso. destruct (H4 p m E) as [Hg|(-> & _ & [r Hpre])].
    - destruct m; [apply Hfiles in Hg; apply Hnew; apply list_elem_of_fmap; by exists (p, data)|apply Hdirs in Hg; congruence].
    - destruct (snoc_cases p) as [->|(p' & x & ->)]; [done|]. rewrite removelast_snoc in Hpre.
      apply (f_equal length) in Hpre. rewrite !length_app in Hpre. simpl in Hpre. lia. }
  assert (WriteFile g1 p d = (<[p := NFile d]> g1, true)) as ->.
  { unfold WriteFile. assert (node_at g1 p = None) as -> by (by destruct p). by rewrite decide_True by (by apply H5). }
  split; simpl.
  - apply tree_insert; [done|done|by left|by apply H5].
  - intros q e. rewrite lookup_insert_Some, elem_of_app, list_elem_of_singleton. split.
    + intros [[<- [= <-]]|[Hpq Hq]]; [by right|left]. destruct (H4 q _ Hq) as [Hg|[? _]]; [by apply Hfiles|done].
    + intros [Hin|[= -> ->]]; [|by left]. right. split; [intros <-; apply Hnew; apply list_elem_of_fmap; by exists (p, e)|]. apply H3. by apply Hfiles.
  - intros q [[<- Hx]|[Hpq Hq]]%lookup_insert_Some; [done|]. destruct (H4 q _ Hq) as [Hg|(_ & _ & Hpre)]; [by apply Hdirs|].
    apply Habove; [done|]. intros ->. by destruct (H1 [] ltac:(by eexists)).
  - rewrite length_app. simpl. lia.
Qed.

Lemma unpack_all f todo dn st : restorable f -> packed (map_to_list f) = dn ++ todo -> unpacked f dn st ->
  unpacked f (dn ++ todo) (foldl (extract_one root) st ((fun '(p, d) => mkZip (Join p "/") false (Z.of_nat (String.length d)) (Some d)) <$> todo)).
Proof.
  intros Hf. revert dn st. induction todo as [|[p d] todo IH]; intros dn st Hl Hu; [by rewrite app_nil_r|]. simpl.
  assert (forall q e, (q, e) ∈ packed (map_to_list f) -> f !! q = Some (NFile e)) as Hin by (intros q e H; by apply elem_of_map_to_list, elem_of_packed).
  pose proof (NoDup_packed f) as Hnd. pose proof (length_packed f) as Hlen. rewrite Hl in Hin, Hnd, Hlen.
  replace (dn ++ (p, d) :: todo) with ((dn ++ [(p, d)]) ++ todo) by (by rewrite <- app_assoc).
  apply IH; [by rewrite <- app_assoc|]. apply unpack_one; try done.
  - apply Hin, elem_of_app. right. left.
  - rewrite fmap_app in Hnd. apply NoDup_app in Hnd as (_ & Hd & _). intros Hp. apply (Hd p Hp). rewrite fmap_cons. left.
  - intros q e Hq. apply Hin, elem_of_app. by left.
  - rewrite length_app in Hlen. simpl in Hlen. lia.
Qed.

(** C17: unpacking the archive of a project's folder into an empty one gives back
    every file with its content and no other, provided the folder keeps the caps and
    no name starts or ends in spaces: the snapshot of a deploy restores exactly. *)
Theorem snapshot_round_trip f : restorable f ->
  (forall p d, (extractZipToDir (zipDir f) root ∅).1 !! p = Some (NFile d) <-> f !! p = Some (NFile d)) /\
  (extractZipToDir (zipDir f) root ∅).2 = countFiles f.
Proof.
  intros Hf. unfold extractZipToDir. rewrite zipDir_packed.
  destruct (unpack_all f (packed (map_to_list f)) [] (∅, 0%nat) Hf eq_refl) as [_ H _ Hn].
  - split; simpl; [by intros p [? ?]|intros p d; split; [done|by intros ?%not_elem_of_nil]|done|done].
  - split; [|by rewrite Hn, <- length_packed]. intros p d. rewrite H. simpl. rewrite elem_of_packed. apply elem_of_map_to_list.
Qed.
End RoundTrip.

(** ** Concrete inputs *)
Definition demo_root : string := "/data/p".
(** A file system without links *)
#[local] Instance plain_links : Links := {|
  eval_symlinks f s := match strip_common (components demo_root) (components s) with
    | ([], rel) => match node_at f rel with Some _ => Ok (Clean s) | None => Err ENotExist end
    | _ => Ok (Clean s)
    end |}.

Lemma plain_links_resolve f rel : tree_ok f -> Forall plain rel ->
  eval_symlinks f (unsplit true (components demo_root ++ rel)) =
  match node_at f rel with Some _ => Ok (unsplit true (["data"; "p"] ++ rel)) | None => Err ENotExist end.
Proof.
  intros _ Hr. assert (Forall plain (["data"; "p"] ++ rel)) as Hp by (apply Forall_app; split; [by apply names_plain|done]).
  destruct (components_unsplit true (["data"; "p"] ++ rel)) as [Ha Hc]; [by exists 0%nat, (["data"; "p"] ++ rel)|].
  unfold eval_symlinks, plain_links. change (components demo_root) with ["data"; "p"]. rewrite Hc, strip_common_app.
  assert (Clean (unsplit true (["data"; "p"] ++ rel)) = unsplit true (["data"; "p"] ++ rel)) as -> by (unfold Clean; by rewrite Ha, Hc). done.
Qed.

Definition demo_folder : Folder := {[ ["compose.yml"] := NFile "services: {}"; ["conf"] := NDir; ["conf"; "a.ini"] := NFile "k=v" ]}.

Lemma demo_each (P : list string -> Node -> Prop) : P ["compose.yml"] (NFile "services: {}") -> P ["conf"] NDir -> P ["conf"; "a.ini"] (NFile "k=v") ->
  forall p n, demo_folder !! p = Some n -> P p n.
Proof.
  intros H1 H2 H3 p n. unfold demo_folder.
  intros [[<- <-]|[_ [[<- <-]|[_ [<- <-]%lookup_singleton_Some]]%lookup_insert_Some]]%lookup_insert_Some; done.
Qed.

Lemma demo_restorable : restorable demo_folder.
Proof.
  split; [split|].
  - intros p [n Hp]. revert p n Hp. apply demo_each; (split; [done|reflexivity]).
  - change (countFiles demo_folder) with 2%nat. apply Nat.leb_le. reflexivity.
  - intros p d Hp. assert (forall p n, demo_folder !! p = Some n -> match n with NFile d => (String.length d <= maxProjectFileBytes)%nat | NDir => True end) as H.
    { apply demo_each; [|done|]; apply Nat.leb_le; reflexivity. }
    by specialize (H p _ Hp).
  - intros p d Hp. assert (forall p n, demo_folder !! p = Some n -> Forall plain p /\ TrimSpace (Join p "/") = Join p "/") as H; [|by eapply H].
    apply demo_each; (split; [by apply names_plain|reflexivity]).
Qed.

Lemma snapshot_round_trip_witness : (extractZipToDir (zipDir demo_folder) demo_root ∅).1 !! ["conf"; "a.ini"] = Some (NFile "k=v").
Proof.
  apply (snapshot_round_trip demo_root ["data"; "p"]); [reflexivity|reflexivity|discriminate|by apply names_plain|discriminate|apply plain_links_resolve| |reflexivity].
  apply demo_restorable.
Defined.

Lemma safe_join_inside_witness : IsAbs "/data/p/conf/b.ini" = true /\ rootRel demo_root "/data/p/conf/b.ini" = ["conf"; "b.ini"].
Proof.
  destruct (safe_join_inside (eval_symlinks demo_folder) demo_root " conf/../conf/./b.ini" "/data/p/conf/b.ini") as (H1 & _ & _ & H2 & _);
    [reflexivity|reflexivity|vm_compute; reflexivity|]. split; [exact H1|exact H2].
Defined.

Lemma safe_join_answers_witness : is_Some (safeJoin (eval_symlinks demo_folder) demo_root "../../etc/passwd").
Proof. apply safe_join_answers. reflexivity. Defined.

Example traversal_refused : safeJoin (eval_symlinks demo_folder) demo_root "conf/../../x" = Some (Err ETraversal) /\
  safeJoin (eval_symlinks demo_folder) demo_root "/etc/passwd" = Some (Err EAbsolute) /\ safeJoin (eval_symlinks demo_folder) demo_root "  " = Some (Err EMissingName).
Proof. repeat split; vm_compute; reflexivity. Qed.


Fixpoint blanks (n : nat) : string := match n with O => "" | S n => String " " (blanks n) end.
Lemma length_blanks n : String.length (blanks n) = n.
Proof. induction n as [|n IH]; [done|]. simpl. by rewrite IH. Qed.

Lemma restore_loses_large_files_witness : exists d,
  (extractZipToDir (zipDir {[ ["data.db"] := NFile d ]}) demo_root ∅).1 !! ["data.db"] <> Some (NFile d).
Proof.
  exists (blanks (S maxProjectFileBytes)). apply (restore_loses_large_files _ ["data.db"]); [by rewrite lookup_singleton_eq|].
  rewrite length_blanks. apply Nat.lt_succ_diag_r.
Defined.
