(* ===== verification/ProjectStore.v ===== *)
(** * The projects' tables (internal/store/projects.go, project_drift.go,
      project_revisions.go, project_secrets.go, project_image_updates.go, domain_mappings.go)

    Rows, statements and the effects of each, with [fault] saying which statements
    fail. Encryption is package crypto's, a parameter. *)
From S2P Require Import Prelude GoStrings Users Roles Calendar Compose.

(** ** Rows *)
Record Project := mkProject {
  pID : Z; pName : string; pSlug : string; pComposeFile : string; pHostID : Z; AllowRemoteHostPaths : bool;
  LastDeployedProfiles : list string; pCreatedBy : string; pCreatedAt : Z; pUpdatedAt : Z
}.
Record RevisionImage := mkRImage { riService : string; riImage : string; riDigest : string }.
Record ProjectRevision := mkRevision {
  rvID : Z; rvProject : Z; Revision : Z; rvHostID : Z; Profiles : list string; Images : list RevisionImage; Valid : bool;
  ValidationError : string; rvOutput : string; rvAuthor : string; rvReason : string; rvCreatedAt : Z
}.
Record SecretRow := mkSecret { scrID : Z; scrProject : Z; scrName : string; scrEnc : string; scrBy : string; scrCreated : Z; scrUpdated : Z }.
Record DomainMapping := mkDomain {
  dmID : Z; dmProject : Z; Domain : string; dmService : string; TargetPort : Z; TLSMode : string; dmBy : string; dmCreated : Z; dmUpdated : Z
}.

Record PDB := mkPDB {
  projects : list Project; project_seq : Z;
  revisions : list ProjectRevision; revision_seq : Z;
  secrets : list SecretRow; secret_seq : Z;
  domains : list DomainMapping; domain_seq : Z;
  (** project_drift_ignores: fingerprint and creation time by (project, service, kind) *)
  drift_ignores : gmap (Z * string * string) (string * Z);
  (** project_image_update_state: the digest last notified, by (project, service) *)
  image_state : gmap (Z * string) string
}.
Definition empty_pdb : PDB := mkPDB [] 0 [] 0 [] 0 [] 0 ∅ ∅.

Inductive PQuery :=
  | QPInsert | QPList | QPByID | QPSettings | QPTouch | QPProfiles | QPDelete
  | QIgnoreList | QIgnoreSet | QIgnoreDel | QIgnoreDelAll
  | QRvMax | QRvInsert | QRvList | QRvByNumber | QRvLatest | QRvValid | QRvTrim | QRvDelAll
  | QScList | QScInsert | QScUpdate | QScDelete | QScDelAll | QScResolve
  | QDmList | QDmByDomain | QDmInsert | QDmUpdate | QDmDelete | QDmDelAll
  | QImList | QImSet | QImDelAll.

(** What the store uses of the cipher: [None] for an error. A nonce makes two
    encryptions of one value differ. *)
Class Cipher := {
  Encrypt : Z -> string -> option string;
  Decrypt : string -> option string;
  Fingerprint : string -> string
}.
Class CipherLaws (C : Cipher) : Prop := { decrypt_encrypt n v c : Encrypt n v = Some c -> Decrypt c = Some v }.

(** The texts of the store's errors; the driver's own is some text. *)
Definition db_text (e : StoreErr) : string := match e with ErrNotFound => "store: not found" | ErrDuplicate => "store: duplicate" | _ => "database error" end.

Section Store.
Context `{C : Cipher} (fault : PQuery -> bool).

Definition pq {A} (q : PQuery) (f : PDB -> result StoreErr A) (d : PDB) : result StoreErr A := if fault q then Err ErrDB else f d.
Definition pexec (q : PQuery) (f : PDB -> PDB) : stM PDB StoreErr () := fun d => if fault q then (d, Err ErrDB) else (f d, Ok tt).

Definition set_projects (l : list Project) (d : PDB) : PDB :=
  mkPDB l (project_seq d) (revisions d) (revision_seq d) (secrets d) (secret_seq d) (domains d) (domain_seq d) (drift_ignores d) (image_state d).
Definition set_revisions (l : list ProjectRevision) (d : PDB) : PDB :=
  mkPDB (projects d) (project_seq d) l (revision_seq d) (secrets d) (secret_seq d) (domains d) (domain_seq d) (drift_ignores d) (image_state d).
Definition set_secrets (l : list SecretRow) (d : PDB) : PDB :=
  mkPDB (projects d) (project_seq d) (revisions d) (revision_seq d) l (secret_seq d) (domains d) (domain_seq d) (drift_ignores d) (image_state d).
Definition set_domains (l : list DomainMapping) (d : PDB) : PDB :=
  mkPDB (projects d) (project_seq d) (revisions d) (revision_seq d) (secrets d) (secret_seq d) l (domain_seq d) (drift_ignores d) (image_state d).
Definition set_ignores (m : gmap (Z * string * string) (string * Z)) (d : PDB) : PDB :=
  mkPDB (projects d) (project_seq d) (revisions d) (revision_seq d) (secrets d) (secret_seq d) (domains d) (domain_seq d) m (image_state d).
Definition set_image_state (m : gmap (Z * string) string) (d : PDB) : PDB :=
  mkPDB (projects d) (project_seq d) (revisions d) (revision_seq d) (secrets d) (secret_seq d) (domains d) (domain_seq d) (drift_ignores d) m.

(** ** Projects *)

Definition CreateProject (p : Project) (now : Z) : stM PDB StoreErr Z := fun d =>
  if fault QPInsert then (d, Err ErrDB)
  else if existsb (fun x => String.eqb (pSlug x) (pSlug p)) (projects d) then (d, Err ErrDuplicate)
  else
    let id := project_seq d + 1 in
    let row := mkProject id (pName p) (pSlug p) (orDefault (pComposeFile p) "compose.yml") (pHostID p) (AllowRemoteHostPaths p) []
                 (pCreatedBy p) (rfc3339 now) (rfc3339 now) in
    (mkPDB (projects d ++ [row]) id (revisions d) (revision_seq d) (secrets d) (secret_seq d) (domains d) (domain_seq d) (drift_ignores d)
       (image_state d), Ok id).

Definition name_le (a b : Project) : Prop := String.le (pName a) (pName b).
#[global] Instance name_le_dec : RelDecision name_le.
Proof. intros a b. unfold name_le. apply _. Defined.
Definition ListProjects (d : PDB) : result StoreErr (list Project) := pq QPList (fun d => Ok (merge_sort name_le (projects d))) d.

Definition find_row {A} (l : list A) (p : A -> bool) : result StoreErr A :=
  match List.find p l with Some x => Ok x | None => Err ErrNotFound end.
Definition ProjectByID (id : Z) (d : PDB) : result StoreErr Project := pq QPByID (fun d => find_row (projects d) (fun p => pID p =? id)) d.

Definition on_project (id : Z) (f : Project -> Project) (d : PDB) : PDB :=
  set_projects ((fun p => if pID p =? id then f p else p) <$> projects d) d.

Definition UpdateProjectSettings (id : Z) (name : string) (host : Z) (allow : bool) (now : Z) : stM PDB StoreErr () :=
  pexec QPSettings (on_project id (fun p => mkProject (pID p) name (pSlug p) (pComposeFile p) host allow (LastDeployedProfiles p)
                                              (pCreatedBy p) (pCreatedAt p) (rfc3339 now))).
Definition TouchProject (id now : Z) : stM PDB StoreErr () :=
  pexec QPTouch (on_project id (fun p => mkProject (pID p) (pName p) (pSlug p) (pComposeFile p) (pHostID p) (AllowRemoteHostPaths p)
                                           (LastDeployedProfiles p) (pCreatedBy p) (pCreatedAt p) (rfc3339 now))).
Definition SetLastDeployedProfiles (id : Z) (profiles : list string) (now : Z) : stM PDB StoreErr () :=
  pexec QPProfiles (on_project id (fun p => mkProject (pID p) (pName p) (pSlug p) (pComposeFile p) (pHostID p) (AllowRemoteHostPaths p)
                                              profiles (pCreatedBy p) (pCreatedAt p) (rfc3339 now))).

(** ** Reviewed drift *)
Definition ListDriftIgnores (project : Z) (d : PDB) : result StoreErr (list (string * string * string)) :=
  pq QIgnoreList (fun d => Ok (omap (fun '((p, s, k), (fp, _)) => if p =? project then Some (s, k, fp) else None) (map_to_list (drift_ignores d)))) d.
Definition IgnoreDrift (project : Z) (service kind fp : string) (now : Z) : stM PDB StoreErr () :=
  pexec QIgnoreSet (fun d =>
    let created := match drift_ignores d !! (project, service, kind) with
                   | Some (fp0, t0) => if String.eqb fp0 fp then t0 else rfc3339 now
                   | None => rfc3339 now
                   end in
    set_ignores (<[(project, service, kind) := (fp, created)]> (drift_ignores d)) d).
Definition UnignoreDrift (project : Z) (service kind : string) : stM PDB StoreErr () :=
  pexec QIgnoreDel (fun d => set_ignores (delete (project, service, kind) (drift_ignores d)) d).
Definition deleteDriftIgnores (project : Z) : stM PDB StoreErr () :=
  pexec QIgnoreDelAll (fun d => set_ignores (filter (fun kv => kv.1.1.1 <> project) (drift_ignores d)) d).
Definition ClearDriftIgnores : Z -> stM PDB StoreErr () := deleteDriftIgnores.

(** ** Revisions *)
Definition createRevisionMaxRetries : nat := 5.
Definition max_revision (project : Z) (d : PDB) : Z :=
  foldr Z.max 0 (Revision <$> filter (fun r => rvProject r = project) (revisions d)).

(** The transaction: an error leaves nothing. *)
Definition createRevisionOnce (rev : ProjectRevision) (now : Z) : stM PDB StoreErr (Z * Z) := st_tx (fun d =>
  if fault QRvMax then (d, Err ErrDB)
  else
    let next := max_revision (rvProject rev) d + 1 in
    if fault QRvInsert then (d, Err ErrDB)
    else if existsb (fun r => (rvProject r =? rvProject rev) && (Revision r =? next)) (revisions d) then (d, Err ErrUnique)
    else
      let id := revision_seq d + 1 in
      let row := mkRevision id (rvProject rev) next (rvHostID rev) (Profiles rev) (Images rev) (Valid rev) (ValidationError rev) (rvOutput rev)
                   (rvAuthor rev) (rvReason rev) (rfc3339 now) in
      (mkPDB (projects d) (project_seq d) (revisions d ++ [row]) id (secrets d) (secret_seq d) (domains d) (domain_seq d) (drift_ignores d)
         (image_state d), Ok (id, next))).
Fixpoint create_revision (retries : nat) (rev : ProjectRevision) (now : Z) : stM PDB StoreErr (Z * Z) := fun d =>
  match createRevisionOnce rev now d with
  | (d', Err ErrUnique) => match retries with O => (d', Err ErrUnique) | S n => create_revision n rev now d' end
  | r => r
  end.
(** The new row's id and number. *)
Definition CreateRevision : ProjectRevision -> Z -> stM PDB StoreErr (Z * Z) := create_revision createRevisionMaxRetries.

Definition rev_newest (a b : ProjectRevision) : Prop := Revision b <= Revision a.
#[global] Instance rev_newest_dec : RelDecision rev_newest.
Proof. intros a b. unfold rev_newest. apply _. Defined.
Definition revisions_of (project : Z) (d : PDB) : list ProjectRevision :=
  merge_sort rev_newest (filter (fun r => rvProject r = project) (revisions d)).
Definition ListRevisions (project : Z) (d : PDB) : result StoreErr (list ProjectRevision) := pq QRvList (fun d => Ok (revisions_of project d)) d.
Definition RevisionByNumber (project n : Z) (d : PDB) : result StoreErr ProjectRevision :=
  pq QRvByNumber (fun d => find_row (revisions d) (fun r => (rvProject r =? project) && (Revision r =? n))) d.
Definition LatestRevision (project : Z) (d : PDB) : result StoreErr ProjectRevision :=
  pq QRvLatest (fun d => match revisions_of project d with r :: _ => Ok r | [] => Err ErrNotFound end) d.
Definition SetRevisionValid (id : Z) (valid : bool) (err : string) : stM PDB StoreErr () :=
  pexec QRvValid (fun d => set_revisions ((fun r => if rvID r =? id
    then mkRevision (rvID r) (rvProject r) (Revision r) (rvHostID r) (Profiles r) (Images r) valid err (rvOutput r) (rvAuthor r) (rvReason r) (rvCreatedAt r)
    else r) <$> revisions d) d).
(** The statement of TrimRevisions (retention.go). *)
Definition DeleteRevision (id : Z) : stM PDB StoreErr () := pexec QRvTrim (fun d => set_revisions (filter (fun r => rvID r <> id) (revisions d)) d).
Definition deleteProjectRevisions (project : Z) : stM PDB StoreErr () :=
  pexec QRvDelAll (fun d => set_revisions (filter (fun r => rvProject r <> project) (revisions d)) d).

(** ** Secrets *)
Definition secret_name_le (a b : SecretRow) : Prop := String.le (scrName a) (scrName b).
#[global] Instance secret_name_le_dec : RelDecision secret_name_le.
Proof. intros a b. unfold secret_name_le. apply _. Defined.
Definition secrets_of (project : Z) (d : PDB) : list SecretRow := filter (fun s => scrProject s = project) (secrets d).
(** Metadata only: the value's column is not read. *)
Definition ListProjectSecrets (project : Z) (d : PDB) : result StoreErr (list (Z * string * string)) :=
  pq QScList (fun d => Ok ((fun s => (scrID s, scrName s, scrBy s)) <$> merge_sort secret_name_le (secrets_of project d))) d.

Definition CreateProjectSecret (project : Z) (name value by_ : string) (now : Z) : stM PDB StoreErr Z := fun d =>
  match Encrypt (secret_seq d + 1) value with
  | None => (d, Err ErrDB)
  | Some enc =>
      if fault QScInsert then (d, Err ErrDB)
      else if existsb (fun s => (scrProject s =? project) && String.eqb (scrName s) name) (secrets d) then (d, Err ErrDuplicate)
      else
        let id := secret_seq d + 1 in
        (mkPDB (projects d) (project_seq d) (revisions d) (revision_seq d) (secrets d ++ [mkSecret id project name enc by_ (rfc3339 now) (rfc3339 now)]) id
           (domains d) (domain_seq d) (drift_ignores d) (image_state d), Ok id)
  end.
Definition is_secret (project : Z) (name : string) (s : SecretRow) : bool := (scrProject s =? project) && String.eqb (scrName s) name.
Definition UpdateProjectSecretValue (project : Z) (name value : string) (now : Z) : stM PDB StoreErr () := fun d =>
  match Encrypt now value with
  | None => (d, Err ErrDB)
  | Some enc =>
      if fault QScUpdate then (d, Err ErrDB)
      else (set_secrets ((fun s => if is_secret project name s then mkSecret (scrID s) project name enc (scrBy s) (scrCreated s) (rfc3339 now) else s)
                           <$> secrets d) d,
            if existsb (is_secret project name) (secrets d) then Ok tt else Err ErrNotFound)
  end.
Definition DeleteProjectSecret (project : Z) (name : string) : stM PDB StoreErr () := fun d =>
  if fault QScDelete then (d, Err ErrDB)
  else (set_secrets (filter (fun s => is_secret project name s = false) (secrets d)) d,
        if existsb (is_secret project name) (secrets d) then Ok tt else Err ErrNotFound).
Definition deleteProjectSecrets (project : Z) : stM PDB StoreErr () :=
  pexec QScDelAll (fun d => set_secrets (filter (fun s => scrProject s <> project) (secrets d)) d).

Fixpoint decrypt_all (l : list SecretRow) : result StoreErr (gmap string string) :=
  match l with
  | [] => Ok ∅
  | s :: l => match Decrypt (scrEnc s) with None => Err ErrDB | Some v => m ← decrypt_all l; Ok (<[scrName s := v]> m) end
  end.
Definition ResolveProjectSecretEnv (project : Z) (d : PDB) : result StoreErr (gmap string string) :=
  pq QScResolve (fun d => decrypt_all (secrets_of project d)) d.
Definition MaskSecretValue (value : string) : string := "secret:" +:+ Fingerprint value.

(** ** Domains *)
(** strings.ToLower, for the letters a host name has *)
Definition lower_ascii (c : Ascii.ascii) : Ascii.ascii :=
  if (65 <=? code c) && (code c <=? 90) then Ascii.ascii_of_nat (Z.to_nat (code c + 32)) else c.
Definition normalizeDomain (domain : string) : string := of_bytes (lower_ascii <$> bytes (TrimSpace domain)).

Definition domain_le (a b : DomainMapping) : Prop := String.le (Domain a) (Domain b).
#[global] Instance domain_le_dec : RelDecision domain_le.
Proof. intros a b. unfold domain_le. apply _. Defined.
Definition ListDomainMappings (project : Z) (d : PDB) : result StoreErr (list DomainMapping) :=
  pq QDmList (fun d => Ok (merge_sort domain_le (filter (fun m => dmProject m = project) (domains d)))) d.
Definition DomainMappingByDomain (domain : string) (d : PDB) : result StoreErr DomainMapping :=
  pq QDmByDomain (fun d => find_row (domains d) (fun m => String.eqb (Domain m) (normalizeDomain domain))) d.
Definition CreateDomainMapping (project : Z) (domain service : string) (port : Z) (tls by_ : string) (now : Z) : stM PDB StoreErr Z := fun d =>
  let domain := normalizeDomain domain in
  if fault QDmInsert then (d, Err ErrDB)
  else if existsb (fun m => String.eqb (Domain m) domain) (domains d) then (d, Err ErrDuplicate)
  else
    let id := domain_seq d + 1 in
    (mkPDB (projects d) (project_seq d) (revisions d) (revision_seq d) (secrets d) (secret_seq d)
       (domains d ++ [mkDomain id project domain service port tls by_ (rfc3339 now) (rfc3339 now)]) id (drift_ignores d) (image_state d), Ok id).
Definition is_mapping (project id : Z) (m : DomainMapping) : bool := (dmID m =? id) && (dmProject m =? project).
Definition UpdateDomainMapping (project id : Z) (service : string) (port : Z) (tls : string) (now : Z) : stM PDB StoreErr () := fun d =>
  if fault QDmUpdate then (d, Err ErrDB)
  else (set_domains ((fun m => if is_mapping project id m
                               then mkDomain (dmID m) (dmProject m) (Domain m) service port tls (dmBy m) (dmCreated m) (rfc3339 now) else m) <$> domains d) d,
        if existsb (is_mapping project id) (domains d) then Ok tt else Err ErrNotFound).
Definition DeleteDomainMapping (project id : Z) : stM PDB StoreErr () := fun d =>
  if fault QDmDelete then (d, Err ErrDB)
  else (set_domains (filter (fun m => is_mapping project id m = false) (domains d)) d,
        if existsb (is_mapping project id) (domains d) then Ok tt else Err ErrNotFound).
Definition deleteDomainMappings (project : Z) : stM PDB StoreErr () :=
  pexec QDmDelAll (fun d => set_domains (filter (fun m => dmProject m <> project) (domains d)) d).

(** ** Notified images *)
Definition LastNotifiedImageDigests (project : Z) (d : PDB) : result StoreErr (gmap string string) :=
  pq QImList (fun d => Ok (map_fold (fun k v m => if k.1 =? project then <[k.2 := v]> m else m) ∅ (image_state d))) d.
Definition SetLastNotifiedImageDigest (project : Z) (service digest : string) : stM PDB StoreErr () :=
  pexec QImSet (fun d => set_image_state (<[(project, service) := digest]> (image_state d)) d).
Definition deleteProjectImageUpdateState (project : Z) : stM PDB StoreErr () :=
  pexec QImDelAll (fun d => set_image_state (filter (fun kv => kv.1.1 <> project) (image_state d)) d).

(** ** Deleting a project: one statement after another, no transaction *)
Definition DeleteProject (id : Z) : stM PDB StoreErr () :=
  deleteDriftIgnores id ≫= fun _ =>
  deleteProjectRevisions id ≫= fun _ =>
  deleteProjectSecrets id ≫= fun _ =>
  deleteDomainMappings id ≫= fun _ =>
  deleteProjectImageUpdateState id ≫= fun _ =>
  pexec QPDelete (fun d => set_projects (filter (fun p => pID p <> id) (projects d)) d).
End Store.

(** ** Invariants *)
Inductive project_op :=
  | PoCreate (p : Project) (now : Z) | PoSettings (id : Z) (name : string) (host : Z) (allow : bool) (now : Z) | PoTouch (id now : Z)
  | PoProfiles (id : Z) (profiles : list string) (now : Z) | PoDelete (id : Z)
  | PoIgnore (id : Z) (service kind fp : string) (now : Z) | PoUnignore (id : Z) (service kind : string) | PoClear (id : Z)
  | PoRevision (rev : ProjectRevision) (now : Z) | PoTrim (id : Z) | PoValid (id : Z) (valid : bool) (err : string)
  | PoSecret (id : Z) (name value by_ : string) (now : Z) | PoSecretValue (id : Z) (name value : string) (now : Z) | PoSecretDel (id : Z) (name : string)
  | PoDomain (id : Z) (domain service : string) (port : Z) (tls by_ : string) (now : Z)
  | PoDomainSet (project id : Z) (service : string) (port : Z) (tls : string) (now : Z) | PoDomainDel (project id : Z)
  | PoNotified (id : Z) (service digest : string).

Section Run.
Context `{C : Cipher}.

Definition run_pop (fault : PQuery -> bool) (op : project_op) (d : PDB) : PDB :=
  match op with
  | PoCreate p now => (CreateProject fault p now d).1
  | PoSettings id name host allow now => (UpdateProjectSettings fault id name host allow now d).1
  | PoTouch id now => (TouchProject fault id now d).1
  | PoProfiles id ps now => (SetLastDeployedProfiles fault id ps now d).1
  | PoDelete id => (DeleteProject fault id d).1
  | PoIgnore id s k fp now => (IgnoreDrift fault id s k fp now d).1
  | PoUnignore id s k => (UnignoreDrift fault id s k d).1
  | PoClear id => (ClearDriftIgnores fault id d).1
  | PoRevision rev now => (CreateRevision fault rev now d).1
  | PoTrim id => (DeleteRevision fault id d).1
  | PoValid id v e => (SetRevisionValid fault id v e d).1
  | PoSecret id n v b now => (CreateProjectSecret fault id n v b now d).1
  | PoSecretValue id n v now => (UpdateProjectSecretValue fault id n v now d).1
  | PoSecretDel id n => (DeleteProjectSecret fault id n d).1
  | PoDomain id dm s p t b now => (CreateDomainMapping fault id dm s p t b now d).1
  | PoDomainSet pr id s p t now => (UpdateDomainMapping fault pr id s p t now d).1
  | PoDomainDel pr id => (DeleteDomainMapping fault pr id d).1
  | PoNotified id s dg => (SetLastNotifiedImageDigest fault id s dg d).1
  end.

Definition numbers_of (project : Z) (d : PDB) : list Z := Revision <$> filter (fun r => rvProject r = project) (revisions d).

(** One row per id, slug, (project, secret name) and domain; a project's revisions
    have numbers from 1 that grow in the order they were made. *)
Record pwf (d : PDB) : Prop := {
  wf_ids : NoDup (pID <$> projects d);
  wf_id_seq p : p ∈ projects d -> pID p <= project_seq d;
  wf_slugs : NoDup (pSlug <$> projects d);
  wf_rev_ids : NoDup (rvID <$> revisions d);
  wf_rev_seq r : r ∈ revisions d -> rvID r <= revision_seq d;
  wf_numbers project : StronglySorted Z.lt (numbers_of project d) /\ Forall (Z.le 1) (numbers_of project d);
  wf_secrets : NoDup ((fun s => (scrProject s, scrName s)) <$> secrets d);
  wf_domains : NoDup (Domain <$> domains d)
}.

(** The tables a step leaves alone keep their part. *)
Record same_rows (d d' : PDB) : Prop := {
  sr_projects : (pID <$> projects d') = (pID <$> projects d) /\ (pSlug <$> projects d') = (pSlug <$> projects d) /\ project_seq d' = project_seq d;
  sr_revisions : (fun r => (rvID r, rvProject r, Revision r)) <$> revisions d' = (fun r => (rvID r, rvProject r, Revision r)) <$> revisions d
                 /\ revision_seq d' = revision_seq d;
  sr_secrets : (fun s => (scrProject s, scrName s)) <$> secrets d' = (fun s => (scrProject s, scrName s)) <$> secrets d;
  sr_domains : Domain <$> domains d' = Domain <$> domains d
}.

Lemma same_rows_refl d : same_rows d d.
Proof. by split. Qed.

Lemma elem_of_key {A B} (g : A -> B) (l l' : list A) x : g <$> l' = g <$> l -> x ∈ l' -> exists y, y ∈ l /\ g y = g x.
Proof. intros E Hx. apply (list_elem_of_fmap_2 g) in Hx. rewrite E in Hx. apply list_elem_of_fmap in Hx as (y & E' & Hy). eauto. Qed.

Lemma numbers_key project (l l' : list ProjectRevision) :
  (fun r => (rvID r, rvProject r, Revision r)) <$> l' = (fun r => (rvID r, rvProject r, Revision r)) <$> l ->
  Revision <$> filter (fun r => rvProject r = project) l' = Revision <$> filter (fun r => rvProject r = project) l.
Proof.
  revert l'. induction l as [|x l IH]; intros [|y l'] E; try done. rewrite !fmap_cons in E. injection E as _ Ep En E.
  rewrite !filter_cons, Ep. case_decide; [rewrite !fmap_cons, En; f_equal|]; by apply IH.
Qed.

Lemma same_rows_wf d d' : same_rows d d' -> pwf d -> pwf d'.
Proof.
  intros [(P1 & P2 & P3) (R1 & R2) S1 D1] [H1 H2 H3 H4 H5 H6 H7 H8]. split.
  - by rewrite P1.
  - intros p Hp. destruct (elem_of_key pID _ _ p P1 Hp) as (q & Hq & <-). rewrite P3. by apply H2.
  - by rewrite P2.
  - assert (rvID <$> revisions d' = rvID <$> revisions d) as ->; [|done].
    apply (f_equal (fmap (fun x : Z * Z * Z => x.1.1))) in R1. by rewrite <- !list_fmap_compose in R1.
  - intros r Hr. destruct (elem_of_key _ _ _ r R1 Hr) as (q & Hq & [= E _ _]). rewrite R2, <- E. by apply H5.
  - intros project. unfold numbers_of. rewrite (numbers_key project _ _ R1). apply H6.
  - by rewrite S1.
  - by rewrite D1.
Qed.

Lemma fmap_if_same {A B} (g : A -> B) (p : A -> bool) (f : A -> A) (l : list A) : (forall x, p x = true -> g (f x) = g x) ->
  g <$> ((fun x => if p x then f x else x) <$> l) = g <$> l.
Proof. intros H. rewrite <- list_fmap_compose. apply list_fmap_ext. intros i x _. simpl. destruct (p x) eqn:E; [by apply H|done]. Qed.

Lemma Forall_below {A} (P : A -> Prop) (l l' : list A) : sublist l' l -> Forall P l -> Forall P l'.
Proof. rewrite !Forall_forall. intros Hs Hl x Hx. apply Hl. by eapply sublist_subseteq. Qed.
Lemma sorted_sublist {A} (R : A -> A -> Prop) (l l' : list A) : sublist l' l -> StronglySorted R l -> StronglySorted R l'.
Proof.
  induction 1 as [|x l1 l2 Hs IH|x l1 l2 Hs IH]; intros H; [done|..]; inversion H as [|? ? H1 H2]; subst; [|by apply IH].
  constructor; [by apply IH|]. by eapply Forall_below.
Qed.
Lemma sorted_snoc {A} (R : A -> A -> Prop) (l : list A) x : StronglySorted R l -> Forall (fun y => R y x) l -> StronglySorted R (l ++ [x]).
Proof.
  induction 1 as [|y l Hl IH Hy]; intros Hf; [by repeat constructor|]. inversion Hf; subst. cbn [app]. constructor; [by apply IH|].
  apply Forall_app. split; [done|]. by constructor.
Qed.
Lemma numbers_sublist (P : ProjectRevision -> Prop) `{!forall x, Decision (P x)} project (l : list ProjectRevision) :
  sublist (Revision <$> filter (fun r => rvProject r = project) (filter P l)) (Revision <$> filter (fun r => rvProject r = project) l).
Proof.
  induction l as [|r l IH]; [done|]. rewrite !filter_cons. repeat case_decide; rewrite ?filter_cons; repeat case_decide; rewrite ?fmap_cons;
    try done; first [by apply sublist_skip|by apply sublist_cons].
Qed.

(** Deleting rows keeps the shape of the others. *)
Lemma filter_wf d (Pp : Project -> Prop) (Pr : ProjectRevision -> Prop) (Ps : SecretRow -> Prop) (Pd : DomainMapping -> Prop) d'
    `{!forall x, Decision (Pp x)} `{!forall x, Decision (Pr x)} `{!forall x, Decision (Ps x)} `{!forall x, Decision (Pd x)} : pwf d ->
  projects d' = filter Pp (projects d) -> project_seq d' = project_seq d ->
  revisions d' = filter Pr (revisions d) -> revision_seq d' = revision_seq d ->
  secrets d' = filter Ps (secrets d) -> domains d' = filter Pd (domains d) -> pwf d'.
Proof.
  intros [W1 W2 W3 W4 W5 W6 W7 W8] E1 E2 E3 E4 E5 E6. split; rewrite ?E1, ?E2, ?E3, ?E4, ?E5, ?E6; try by apply NoDup_fmap_filter.
  - intros p [_ Hp]%list_elem_of_filter. by apply W2.
  - intros r [_ Hr]%list_elem_of_filter. by apply W5.
  - intros project. destruct (W6 project) as [Hn1 Hn2]. pose proof (numbers_sublist Pr project (revisions d)) as Hs. unfold numbers_of. rewrite E3.
    split; [by eapply sorted_sublist|by eapply Forall_below].
Qed.

Lemma pexec_wf fault q f d : (pwf d -> pwf (f d)) -> pwf d -> pwf (pexec fault q f d).1.
Proof. unfold pexec. destruct (fault q); [done|by auto]. Qed.

Lemma on_project_wf id f d : (forall p, pID (f p) = pID p /\ pSlug (f p) = pSlug p) -> pwf d -> pwf (on_project id f d).
Proof. intros Hf. apply same_rows_wf. split; try done. simpl. repeat split; apply fmap_if_same; intros; apply Hf. Qed.

Lemma NoDup_snoc_key {A B} (g : A -> B) (l : list A) x : NoDup (g <$> l) -> (forall y, y ∈ l -> g y <> g x) -> NoDup (g <$> l ++ [x]).
Proof.
  intros Hl Hx. rewrite fmap_app. apply NoDup_app. split; [done|]. split; [|apply NoDup_singleton].
  intros k (y & -> & Hy)%list_elem_of_fmap Hk%list_elem_of_singleton. by apply (Hx y Hy).
Qed.

Lemma existsb_false {A} (p : A -> bool) (l : list A) : existsb p l = false -> forall x, x ∈ l -> p x = false.
Proof.
  intros H x Hx. apply not_true_iff_false. intros Hp. apply not_true_iff_false in H. apply H, existsb_exists. exists x. by rewrite <- list_elem_of_In.
Qed.

Lemma foldr_max (l : list Z) : Forall (fun n => n <= foldr Z.max 0 l) l /\ 0 <= foldr Z.max 0 l.
Proof. induction l as [|n l [IH1 IH2]]; simpl; [by split|]. split; [|lia]. constructor; [lia|]. eapply Forall_impl; [exact IH1|]. simpl. lia. Qed.

(** The number a new revision takes is the next one, and the unique constraint is
    never hit: the retry loop is never entered. *)
Lemma createRevisionOnce_wf fault rev now d : pwf d ->
  pwf (createRevisionOnce fault rev now d).1 /\ (createRevisionOnce fault rev now d).2 <> Err ErrUnique /\
  forall id n, (createRevisionOnce fault rev now d).2 = Ok (id, n) ->
    n = max_revision (rvProject rev) d + 1 /\
    numbers_of (rvProject rev) (createRevisionOnce fault rev now d).1 = numbers_of (rvProject rev) d ++ [n].
Proof.
  intros Hw. unfold createRevisionOnce, st_tx. destruct (fault QRvMax); [done|]. destruct (fault QRvInsert); [done|].
  set (n := max_revision (rvProject rev) d + 1). destruct (foldr_max (numbers_of (rvProject rev) d)) as [Hmax H0].
  assert (Forall (fun m => m < n) (numbers_of (rvProject rev) d)) as Hn by (eapply Forall_impl; [exact Hmax|]; unfold n, max_revision, numbers_of; simpl; lia).
  assert (forall r, r ∈ revisions d -> rvProject r = rvProject rev -> Revision r < n) as Hlt.
  { intros r Hr Hp. assert (Revision r ∈ numbers_of (rvProject rev) d) as Hin by (apply list_elem_of_fmap_2, list_elem_of_filter; done).
    by eapply Forall_forall in Hn. }
  destruct (existsb _ (revisions d)) eqn:E; simpl.
  { exfalso. apply existsb_exists in E as (r & Hr%list_elem_of_In & Hb). bsimp. specialize (Hlt r Hr ltac:(done)). lia. }
  split; [|split; [done|]].
  - destruct Hw as [W1 W2 W3 W4 W5 W6 W7 W8]. split; simpl; try done.
    + apply NoDup_snoc_key; [done|]. intros y Hy. simpl. specialize (W5 y Hy). lia.
    + intros r [Hr| ->%list_elem_of_singleton]%elem_of_app; [specialize (W5 r Hr); lia|simpl; lia].
    + intros project. unfold numbers_of in *. simpl. rewrite filter_app, fmap_app, filter_cons, filter_nil. case_decide as Hp; simpl; [|by rewrite app_nil_r].
      simpl in Hp. subst project. destruct (W6 (rvProject rev)) as [S1 S2]. split; [by apply sorted_snoc|]. apply Forall_app. split; [done|].
      apply Forall_singleton. unfold n, max_revision. unfold numbers_of in H0. lia.
  - intros id m [= <- <-]. split; [done|]. unfold numbers_of. simpl. rewrite filter_app, fmap_app, filter_cons, filter_nil, decide_True by done. done.
Qed.

Lemma CreateRevision_once fault rev now d : pwf d -> CreateRevision fault rev now d = createRevisionOnce fault rev now d.
Proof.
  intros Hw. destruct (createRevisionOnce_wf fault rev now d Hw) as (_ & Hne & _). unfold CreateRevision, createRevisionMaxRetries. cbn [create_revision].
  destruct (createRevisionOnce fault rev now d) as [d' [x|e]]; [done|]. simpl in Hne. destruct e; done.
Qed.

Lemma filter_all {A} (l : list A) : filter (fun _ => True) l = l.
Proof. induction l as [|x l IH]; [done|]. rewrite filter_cons, decide_True by done. by rewrite IH. Qed.

Lemma ignores_wf m d : pwf d -> pwf (set_ignores m d).
Proof. apply same_rows_wf. by split. Qed.

Lemma DeleteProject_wf fault id d : pwf d -> pwf (DeleteProject fault id d).1.
Proof.
  unfold DeleteProject.
  assert (forall (m : stM PDB StoreErr ()) (k : () -> stM PDB StoreErr ()) d, (pwf d -> pwf (m d).1) -> (forall d, pwf d -> pwf (k tt d).1) -> pwf d -> pwf ((m ≫= k) d).1) as Hbind.
  { intros m k s Hm Hk Hs. specialize (Hm Hs). unfold mbind, stM_bind. destruct (m s) as [s1 [[]|e]]; [by apply Hk|exact Hm]. }
  repeat (apply Hbind; [apply pexec_wf|clear d; intros d]); try apply pexec_wf; intros Hw;
    try (apply (same_rows_wf d); [by split|done]).
  - refine (filter_wf d (fun _ => True) (fun r => rvProject r <> id) (fun _ => True) (fun _ => True) _ Hw _ _ _ _ _ _); simpl; rewrite ?filter_all; try done.
  - refine (filter_wf d (fun _ => True) (fun _ => True) (fun s => scrProject s <> id) (fun _ => True) _ Hw _ _ _ _ _ _); simpl; rewrite ?filter_all; try done.
  - refine (filter_wf d (fun _ => True) (fun _ => True) (fun _ => True) (fun m => dmProject m <> id) _ Hw _ _ _ _ _ _); simpl; rewrite ?filter_all; try done.
  - refine (filter_wf d (fun p => pID p <> id) (fun _ => True) (fun _ => True) (fun _ => True) _ Hw _ _ _ _ _ _); simpl; rewrite ?filter_all; try done.
Qed.

Lemma run_pop_wf fault op d : pwf d -> pwf (run_pop fault op d).
Proof.
  intros Hw. destruct op; cbn [run_pop].
  - unfold CreateProject. destruct (fault QPInsert); [done|]. destruct (existsb _ _) eqn:E; [done|]. pose proof (existsb_false _ _ E) as Hs.
    destruct Hw as [W1 W2 W3 W4 W5 W6 W7 W8]. split; simpl; try done.
    + apply NoDup_snoc_key; [done|]. intros y Hy. simpl. specialize (W2 y Hy). lia.
    + intros q [Hq| ->%list_elem_of_singleton]%elem_of_app; [specialize (W2 q Hq); lia|simpl; lia].
    + apply NoDup_snoc_key; [done|]. intros y Hy. simpl. by apply String.eqb_neq, Hs.
  - by apply pexec_wf; [apply on_project_wf|].
  - by apply pexec_wf; [apply on_project_wf|].
  - by apply pexec_wf; [apply on_project_wf|].
  - by apply DeleteProject_wf.
  - by apply pexec_wf; [apply ignores_wf|].
  - by apply pexec_wf; [apply ignores_wf|].
  - by apply pexec_wf; [apply ignores_wf|].
  - rewrite CreateRevision_once by done. by apply createRevisionOnce_wf.
  - apply pexec_wf; [|done]. intros _. refine (filter_wf d (fun _ => True) (fun r => rvID r <> id) (fun _ => True) (fun _ => True) _ Hw _ _ _ _ _ _); simpl; rewrite ?filter_all; try done.
  - apply pexec_wf; [|done]. apply same_rows_wf. split; try done. simpl. split; [|done]. by apply fmap_if_same.
  - unfold CreateProjectSecret. destruct (Encrypt _ _) as [enc|]; [|done]. destruct (fault QScInsert); [done|]. destruct (existsb _ _) eqn:E; [done|].
    pose proof (existsb_false _ _ E) as Hs. destruct Hw as [W1 W2 W3 W4 W5 W6 W7 W8]. split; simpl; try done.
    apply NoDup_snoc_key; [done|]. intros y Hy. specialize (Hs y Hy). cbv beta in Hs. intros [= Hp Hn]. rewrite Hp, Hn, Z.eqb_refl, String.eqb_refl in Hs. done.
  - unfold UpdateProjectSecretValue. destruct (Encrypt _ _) as [enc|]; [|done]. destruct (fault QScUpdate); [done|]. simpl.
    revert Hw. apply same_rows_wf. split; try done. simpl. apply fmap_if_same. intros x Hx. unfold is_secret in Hx. bsimp. naive_solver.
  - unfold DeleteProjectSecret. destruct (fault QScDelete); [done|]. simpl.
    refine (filter_wf d (fun _ => True) (fun _ => True) (fun s => is_secret id name s = false) (fun _ => True) _ Hw _ _ _ _ _ _); simpl; rewrite ?filter_all; try done.
  - unfold CreateDomainMapping. destruct (fault QDmInsert); [done|]. destruct (existsb _ _) eqn:E; [done|]. pose proof (existsb_false _ _ E) as Hs.
    destruct Hw as [W1 W2 W3 W4 W5 W6 W7 W8]. split; simpl; try done.
    apply NoDup_snoc_key; [done|]. intros y Hy. simpl. by apply String.eqb_neq, Hs.
  - unfold UpdateDomainMapping. destruct (fault QDmUpdate); [done|]. simpl. revert Hw. apply same_rows_wf. split; try done. simpl. by apply fmap_if_same.
  - unfold DeleteDomainMapping. destruct (fault QDmDelete); [done|]. simpl.
    refine (filter_wf d (fun _ => True) (fun _ => True) (fun _ => True) (fun m => is_mapping project id m = false) _ Hw _ _ _ _ _ _); simpl; rewrite ?filter_all; try done.
  - by apply pexec_wf; [apply (same_rows_wf d); by split|].
Qed.
End Run.

(** The tables after any sequence of statements, any of which may fail. *)
Inductive pstep `{C : Cipher} (d : PDB) : PDB -> Prop := pstep_op fault op : pstep d (run_pop fault op d).

(** C13: through any sequence of the store's operations and any failures, every
    project keeps one row, slugs, secret names and mapped domains stay unique, and a
    project's revisions keep distinct numbers that grow in the order they were made,
    whichever of them the retention purge has removed. *)
Theorem project_tables_wf `{C : Cipher} d : rtc pstep empty_pdb d -> pwf d.
Proof.
  assert (pwf empty_pdb) as H0 by (split; simpl; try apply NoDup_nil_2; try (by intros ? ?%not_elem_of_nil); intros project; split; constructor). revert H0. generalize empty_pdb as d0.
  intros d0 H0 H. revert H0. induction H as [|d1 d2 d3 [fault op] _ IH]; [done|]. intros Hw. by apply IH, run_pop_wf.
Qed.

(** What a deletion leaves of each table, by how far it came. *)
Record deleted_to (id : Z) (n : nat) (d d' : PDB) : Prop := {
  dl_ignores : drift_ignores d' = if (1 <=? n)%nat then filter (fun kv => kv.1.1.1 <> id) (drift_ignores d) else drift_ignores d;
  dl_revisions : revisions d' = if (2 <=? n)%nat then filter (fun r => rvProject r <> id) (revisions d) else revisions d;
  dl_secrets : secrets d' = if (3 <=? n)%nat then filter (fun s => scrProject s <> id) (secrets d) else secrets d;
  dl_domains : domains d' = if (4 <=? n)%nat then filter (fun m => dmProject m <> id) (domains d) else domains d;
  dl_images : image_state d' = if (5 <=? n)%nat then filter (fun kv => kv.1.1 <> id) (image_state d) else image_state d;
  dl_projects : projects d' = if (6 <=? n)%nat then filter (fun p => pID p <> id) (projects d) else projects d
}.

Lemma DeleteProject_to `{C : Cipher} fault id d : exists n, deleted_to id n d (DeleteProject fault id d).1 /\
  ((DeleteProject fault id d).2 = Ok tt <-> (6 <= n)%nat).
Proof.
  unfold DeleteProject, deleteDriftIgnores, deleteProjectRevisions, deleteProjectSecrets, deleteDomainMappings, deleteProjectImageUpdateState, pexec, mbind, stM_bind.
  destruct (fault QIgnoreDelAll); [by exists 0%nat; split; [split|simpl; split; [done|lia]]|].
  destruct (fault QRvDelAll); [by exists 1%nat; split; [split|simpl; split; [done|lia]]|].
  destruct (fault QScDelAll); [by exists 2%nat; split; [split|simpl; split; [done|lia]]|].
  destruct (fault QDmDelAll); [by exists 3%nat; split; [split|simpl; split; [done|lia]]|].
  destruct (fault QImDelAll); [by exists 4%nat; split; [split|simpl; split; [done|lia]]|].
  destruct (fault QPDelete); [by exists 5%nat; split; [split|simpl; split; [done|lia]]|].
  by exists 6%nat; split; [split|simpl; split; [lia|done]].
Qed.

Lemma filter_key_keep {K V} `{Countable K} (P : K -> Prop) `{!forall k, Decision (P k)} (b : bool) (m : gmap K V) k : P k ->
  (if b then filter (fun kv : K * V => P kv.1) m else m) !! k = m !! k.
Proof. intros Hk. destruct b; [|done]. destruct (m !! k) eqn:E; [by apply map_lookup_filter_Some|apply map_lookup_filter_None; by left]. Qed.

Lemma filter_key_drop {K V} `{Countable K} (P : K -> Prop) `{!forall k, Decision (P k)} (m : gmap K V) k :
  is_Some (filter (fun kv : K * V => P kv.1) m !! k) -> P k.
Proof. by intros [v [_ Hv]%map_lookup_filter_Some]. Qed.

Lemma elem_of_kept {A} (P : A -> Prop) `{!forall k, Decision (P k)} (b : bool) (l : list A) x : P x -> x ∈ (if b then filter P l else l) <-> x ∈ l.
Proof. intros Hx. destruct b; [|done]. rewrite list_elem_of_filter. naive_solver. Qed.

Lemma elem_of_dropped {A} (P : A -> Prop) `{!forall k, Decision (P k)} (l : list A) x : x ∈ filter P l -> P x.
Proof. by intros [? _]%list_elem_of_filter. Qed.

(** deleting a project leaves no row of it in any of the six tables and touches
    no other project's; when a statement fails, its own row is still there and every
    other project's rows are as they were, so the deletion can be repeated. *)
Theorem delete_project_complete `{C : Cipher} fault id d :
  (forall p, p ∈ projects (DeleteProject fault id d).1 <-> p ∈ projects d /\ ((DeleteProject fault id d).2 = Ok tt -> pID p <> id)) /\
  (forall r, rvProject r <> id -> (r ∈ revisions (DeleteProject fault id d).1 <-> r ∈ revisions d)) /\
  (forall s, scrProject s <> id -> (s ∈ secrets (DeleteProject fault id d).1 <-> s ∈ secrets d)) /\
  (forall m, dmProject m <> id -> (m ∈ domains (DeleteProject fault id d).1 <-> m ∈ domains d)) /\
  (forall k, k.1.1 <> id -> drift_ignores (DeleteProject fault id d).1 !! k = drift_ignores d !! k) /\
  (forall k, k.1 <> id -> image_state (DeleteProject fault id d).1 !! k = image_state d !! k) /\
  ((DeleteProject fault id d).2 = Ok tt ->
     (forall r, r ∈ revisions (DeleteProject fault id d).1 -> rvProject r <> id) /\
     (forall s, s ∈ secrets (DeleteProject fault id d).1 -> scrProject s <> id) /\
     (forall m, m ∈ domains (DeleteProject fault id d).1 -> dmProject m <> id) /\
     (forall k, is_Some (drift_ignores (DeleteProject fault id d).1 !! k) -> k.1.1 <> id) /\
     (forall k, is_Some (image_state (DeleteProject fault id d).1 !! k) -> k.1 <> id)).
Proof.
  destruct (DeleteProject_to fault id d) as (n & [-> -> -> -> -> ->] & Hok).
  split.
  { intros p. destruct (6 <=? n)%nat eqn:E; [apply Nat.leb_le in E|apply Nat.leb_gt in E]; rewrite ?list_elem_of_filter, Hok; naive_solver lia. }
  split; [intros; by apply elem_of_kept|]. split; [intros; by apply elem_of_kept|]. split; [intros; by apply elem_of_kept|].
  split; [intros k Hk; exact (filter_key_keep (fun k : Z * string * string => k.1.1 <> id) _ _ k Hk)|]. split; [intros k Hk; exact (filter_key_keep (fun k : Z * string => k.1 <> id) _ _ k Hk)|].
  rewrite Hok. intros Hn. rewrite !(proj2 (Nat.leb_le _ _)) by lia.
  split; [intros r Hr; exact (elem_of_dropped _ _ _ Hr)|]. split; [intros r Hr; exact (elem_of_dropped _ _ _ Hr)|]. split; [intros r Hr; exact (elem_of_dropped _ _ _ Hr)|].
  split; [intros k; exact (filter_key_drop (fun k : Z * string * string => k.1.1 <> id) _ k)|intros k; exact (filter_key_drop (fun k : Z * string => k.1 <> id) _ k)].
Qed.

(** ** Secrets *)
Section Secrets.
Context `{C : Cipher} `{!CipherLaws C}.

Lemma decrypt_all_app l s m v : decrypt_all l = Ok m -> Decrypt (scrEnc s) = Some v ->
  (forall x, x ∈ l -> scrName x <> scrName s) -> decrypt_all (l ++ [s]) = Ok (<[scrName s := v]> m).
Proof.
  revert m. induction l as [|x l IH]; intros m Hl Hs Hn; simpl in *.
  - injection Hl as <-. by rewrite Hs.
  - destruct (Decrypt (scrEnc x)) as [w|]; [|done]. unfold mbind, result_bind in *. destruct (decrypt_all l) as [m'|]; [|done]. injection Hl as <-.
    rewrite (IH m' eq_refl Hs) by (intros y Hy; apply Hn; by right). f_equal. apply insert_insert_ne. intros E. by apply (Hn x ltac:(left)).
Qed.

Lemma decrypt_all_update l m name v f : decrypt_all l = Ok m -> NoDup (scrName <$> l) -> name ∈ scrName <$> l ->
  (forall s, s ∈ l -> scrName s = name -> scrName (f s) = name /\ Decrypt (scrEnc (f s)) = Some v) ->
  decrypt_all ((fun s => if String.eqb (scrName s) name then f s else s) <$> l) = Ok (<[name := v]> m).
Proof.
  revert m. induction l as [|x l IH]; intros m Hl Hnd Hin Hf; [by apply not_elem_of_nil in Hin|].
  cbn [decrypt_all fmap list_fmap] in *. destruct (Decrypt (scrEnc x)) as [w|] eqn:Ex; [|done]. unfold mbind, result_bind in *.
  destruct (decrypt_all l) as [m'|] eqn:El; [|done]. injection Hl as <-. apply NoDup_cons in Hnd as [Hx Hnd].
  destruct (String.eqb (scrName x) name) eqn:En.
  - apply String.eqb_eq in En. destruct (Hf x ltac:(left) En) as [Hfn Hfv]. rewrite Hfv.
    assert ((fun s => if String.eqb (scrName s) name then f s else s) <$> l = l) as ->.
    { rewrite <- (list_fmap_id l) at 2. apply list_fmap_ext. intros i s Hs. destruct (String.eqb (scrName s) name) eqn:E; [|done].
      apply String.eqb_eq in E. exfalso. apply Hx. rewrite En, <- E. apply list_elem_of_fmap_2. by eapply list_elem_of_lookup_2. }
    rewrite El, Hfn, En. by rewrite insert_insert_eq.
  - apply String.eqb_neq in En. rewrite Ex, (IH m' eq_refl Hnd).
    + f_equal. by apply insert_insert_ne.
    + apply elem_of_cons in Hin as [E|]; [by destruct En|done].
    + intros s Hs. apply Hf. by right.
Qed.

Lemma filter_update project name f (l : list SecretRow) : (forall s, scrProject (f s) = project) ->
  filter (fun s => scrProject s = project) ((fun s => if is_secret project name s then f s else s) <$> l) =
  (fun s => if String.eqb (scrName s) name then f s else s) <$> filter (fun s => scrProject s = project) l.
Proof.
  intros Hf. induction l as [|s l IH]; [done|]. rewrite fmap_cons.
  destruct (decide (scrProject s = project)) as [Ep|Ep].
  - rewrite (filter_cons_True _ s) by done. rewrite filter_cons_True by (destruct (is_secret project name s); [apply Hf|done]).
    rewrite fmap_cons, <- IH. unfold is_secret at 1. by rewrite Ep, Z.eqb_refl.
  - rewrite (filter_cons_False _ s) by done. unfold is_secret at 1. apply Z.eqb_neq in Ep as E. rewrite E. simpl.
    by rewrite filter_cons_False.
Qed.

(** C26: a deploy's environment gets exactly the values last stored: creating a
    secret adds it and replacing one changes it, with every other secret of the
    project decrypting as before. *)
Theorem secret_round_trip fault project name value by_ now d m :
  ResolveProjectSecretEnv fault project d = Ok m ->
  (forall id, (CreateProjectSecret fault project name value by_ now d).2 = Ok id ->
     ResolveProjectSecretEnv fault project (CreateProjectSecret fault project name value by_ now d).1 = Ok (<[name := value]> m)) /\
  (pwf d -> (UpdateProjectSecretValue fault project name value now d).2 = Ok tt ->
     ResolveProjectSecretEnv fault project (UpdateProjectSecretValue fault project name value now d).1 = Ok (<[name := value]> m)).
Proof.
  unfold ResolveProjectSecretEnv, pq. destruct (fault QScResolve); [done|]. intros Hm. split.
  - intros id. unfold CreateProjectSecret. destruct (Encrypt _ value) as [enc|] eqn:Ee; [|done]. destruct (fault QScInsert); [done|].
    destruct (existsb _ _) eqn:E; [done|]. intros _. unfold secrets_of. simpl.
    rewrite filter_app, filter_cons, filter_nil, decide_True by done. set (row := mkSecret _ _ _ _ _ _ _).
    change name with (scrName row). apply decrypt_all_app; [done|by eapply decrypt_encrypt|].
    intros x [Hp Hx]%list_elem_of_filter Hn. pose proof (existsb_false _ _ E x Hx) as Hf. cbv beta in Hf. rewrite Hp, Hn in Hf.
    by rewrite Z.eqb_refl, String.eqb_refl in Hf.
  - intros Hw. unfold UpdateProjectSecretValue. destruct (Encrypt now value) as [enc|] eqn:Ee; [|done]. destruct (fault QScUpdate); [done|]. simpl.
    destruct (existsb _ _) eqn:E; [|done]. intros _. unfold secrets_of in *. simpl.
    set (f := fun s => mkSecret (scrID s) project name enc (scrBy s) (scrCreated s) (rfc3339 now)).
    trans (decrypt_all ((fun s => if String.eqb (scrName s) name then f s else s) <$> filter (fun s => scrProject s = project) (secrets d)));
      [f_equal; exact (filter_update project name f _ (fun _ => eq_refl))|].
    apply decrypt_all_update; [done| | |].
    + pose proof (wf_secrets _ Hw) as Hnd. clear -Hnd. induction (secrets d) as [|s l IH]; [constructor|]. rewrite fmap_cons, NoDup_cons in Hnd.
      destruct Hnd as [Hs Hl]. rewrite filter_cons. case_decide as Hp; [|by apply IH]. rewrite fmap_cons. apply NoDup_cons. split; [|by apply IH].
      intros (t & Ht & [Hp' Hin]%list_elem_of_filter)%list_elem_of_fmap. apply Hs. apply list_elem_of_fmap. exists t. by rewrite Hp, Hp', Ht.
    + apply existsb_exists in E as (s & Hs%list_elem_of_In & Hb). unfold is_secret in Hb. bsimp. apply list_elem_of_fmap. exists s.
      split; [done|]. by apply list_elem_of_filter.
    + intros s _ _. split; [done|]. by eapply decrypt_encrypt.
Qed.
End Secrets.

(** ** Concrete inputs *)
Definition demo_cipher : Cipher := {| Encrypt n v := Some ("#" +:+ v); Decrypt c := Some (TrimPrefix c "#"); Fingerprint v := v |}.
Lemma demo_cipher_laws : CipherLaws demo_cipher.
Proof. split. intros n v c [= <-]. simpl. by rewrite TrimPrefix_app. Qed.

Definition no_fault : PQuery -> bool := fun _ => false.
Definition demo_project : Project := mkProject 0 "Shop" "shop" "" 0 false [] "ann" 0 0.
Definition demo_rev : ProjectRevision := mkRevision 0 1 0 0 ["web"] [] false "snapshot capture in progress" "" "ann" "" 0.
Definition demo_pdb : PDB :=
  foldl (fun d op => run_pop (C := demo_cipher) no_fault op d) empty_pdb
    [PoCreate demo_project 0; PoRevision demo_rev 0; PoRevision demo_rev 0; PoSecret 1 "DB" "pw" "ann" 0; PoDomain 1 " Shop.Example " "web" 80 "acme" "ann" 0].

Lemma run_pops_reached `{C : Cipher} fault ops d : rtc pstep d (foldl (fun d op => run_pop fault op d) d ops).
Proof. revert d. induction ops as [|op ops IH]; intros d; simpl; [apply rtc_refl|]. eapply rtc_l; [apply (pstep_op _ fault op)|apply IH]. Qed.
Lemma demo_pdb_reached : rtc (pstep (C := demo_cipher)) empty_pdb demo_pdb.
Proof. apply run_pops_reached. Qed.

Lemma project_tables_wf_witness : pwf demo_pdb /\ numbers_of 1 demo_pdb = [1; 2] /\ Domain <$> domains demo_pdb = ["shop.example"].
Proof. split; [apply (project_tables_wf (C := demo_cipher)), demo_pdb_reached|]. split; vm_compute; reflexivity. Defined.

Lemma secret_round_trip_witness : ResolveProjectSecretEnv (C := demo_cipher) no_fault 1
  (CreateProjectSecret (C := demo_cipher) no_fault 1 "KEY" "v" "ann" 0 demo_pdb).1 = Ok {["KEY" := "v"; "DB" := "pw"]}.
Proof.
  pose proof demo_cipher_laws.
  exact (proj1 (secret_round_trip (C := demo_cipher) no_fault 1 "KEY" "v" "ann" 0 demo_pdb {["DB" := "pw"]} eq_refl) 2 eq_refl).
Defined.
