(* ===== verification/Binds.v ===== *)
(** * A project's bind mounts on a remote host (internal/docker/compose_binds.go, seed_snapshot.go, compose_host.go, compose.go)

    Which binds lie in the project's folder, the volumes that stand in for them, and
    how those are seeded, saved and put back. Docker's volume calls are a log whose
    every entry may fail; sha256 and the tar a volume is filled from are parameters. *)
From S2P Require Import Prelude GoStrings Paths Compose Preview Sandbox.

(** ** Classification *)
Record ProjectBind := mkBind { pbService : string; pbSource : string; pbTarget : string; pbReadOnly : bool; pbRel : string; pbIsFile : bool }.
#[export] Instance ProjectBind_eq_dec : EqDecision ProjectBind. Proof. solve_decision. Defined.

Definition bind_String (b : ProjectBind) : string := pbService b +:+ ": " +:+ pbSource b +:+ " → " +:+ pbTarget b.

(** One mount of the resolved compose file, as this reader decodes it. *)
Record MountDoc := mkMount { mdType : string; mdSource : string; mdTarget : string; mdReadOnly : bool }.

Section Classify.
(** filepath.EvalSymlinks, os.Stat's "regular file", and the working directory *)
Variables (EvalSymlinks : string -> result FSErr string) (StatRegular : string -> bool) (cwd : string).

Definition Abs (p : string) : string := if IsAbs p then Clean p else path_Join [cwd; p].
Definition canonicalDir (dir : string) : result FSErr string := EvalSymlinks (Abs dir).

(** The walk up to a prefix that exists; [None] when the fuel runs out. *)
Fixpoint resolve_up (fuel : nat) (abs cur rest : string) : option string :=
  match fuel with
  | O => None
  | S fuel =>
      match EvalSymlinks cur with
      | Ok resolved => Some (if String.eqb rest "" then resolved else path_Join [resolved; rest])
      | Err _ =>
          let parent := Dir cur in
          if String.eqb parent cur then Some (Clean abs) else resolve_up fuel abs parent (path_Join [Base cur; rest])
      end
  end.
Definition resolveExisting (abs : string) : option string := resolve_up (path_fuel abs) abs (Clean abs) "".

Definition relWithin (root p : string) : option string :=
  if String.eqb p "" then None
  else
    resolved ← resolveExisting (Abs p);
    let rel := Rel root resolved in
    if String.eqb rel ".." || HasPrefix rel "../" || IsAbs rel then None else Some rel.

(** The binds in the folder, then those outside it. *)
Definition classify_mount (root service : string) (v : MountDoc) : option (ProjectBind + ProjectBind) :=
  if negb (String.eqb (mdType v) "bind") then None
  else match relWithin root (mdSource v) with
       | None => Some (inr (mkBind service (mdSource v) (mdTarget v) (mdReadOnly v) "" false))
       | Some rel => Some (inl (mkBind service (mdSource v) (mdTarget v) (mdReadOnly v) rel (StatRegular (mdSource v))))
       end.
Definition ClassifyProjectBinds (cfg : option (gmap string (list MountDoc))) (projectDir : string)
    : option (list ProjectBind * list ProjectBind) :=
  cfg ← cfg;
  match canonicalDir projectDir with
  | Err _ => None
  | Ok root =>
      let found := flat_map (fun name => omap (classify_mount root name) (default [] (cfg !! name))) (sort_strings (map_to_list cfg).*1) in
      Some (omap (fun b => match b with inl b => Some b | inr _ => None end) found,
            omap (fun b => match b with inr b => Some b | inl _ => None end) found)
  end.
End Classify.

(** ** Names of seeded volumes *)
(** strings.Trim with a set of one-byte characters *)
Fixpoint trim_set (cut : list string) (l : list Ascii.ascii) : list Ascii.ascii :=
  match l with [] => [] | c :: l' => if one_of (String c "") cut then trim_set cut l' else l end.
Definition Trim (cut : list string) (s : string) : string := of_bytes (rev (trim_set cut (rev (trim_set cut (bytes s))))).

Definition seed_punct : list string := ["-"; "_"; "."].
Definition seed_char (c : Ascii.ascii) : bool := repo_char c || one_of (String c "") seed_punct.

Section Names.
Context `{TE : TextEnv}.

Definition sanitizeVolumeSlug (slug : string) : string :=
  let s := Trim seed_punct (of_bytes (List.filter seed_char (bytes (ToLower slug)))) in
  if String.eqb s "" then "project"
  else if (40 <? String.length s)%nat then Trim seed_punct (stake 40 s) else s.
Definition SeedVolumeName (slug rel : string) : string :=
  "dcseed-" +:+ sanitizeVolumeSlug slug +:+ "-" +:+ stake 12 (Sha256Hex (Clean rel)).

(** ** The override that points each bind at its volume *)
Record OverrideMount := mkOMount { omSource : string; omTarget : string; omReadOnly : bool; omSubpath : option string }.
Record Override := mkOverride { oServices : gmap string (list OverrideMount); oVolumes : gset string }.

Definition override_bind (slug : string) (o : Override) (b : ProjectBind) : Override :=
  let name := SeedVolumeName slug (pbRel b) in
  let m := mkOMount name (pbTarget b) (pbReadOnly b) (if pbIsFile b then Some (Base (pbRel b)) else None) in
  mkOverride (<[pbService b := default [] (oServices o !! pbService b) ++ [m]]> (oServices o)) ({[name]} ∪ oVolumes o).
Definition BindOverrideJSON (slug : string) (binds : list ProjectBind) : Override := foldl (override_bind slug) (mkOverride ∅ ∅) binds.
End Names.

(** ** What is shipped *)
(** writeTar: the file under its base name, or what the folder holds; nothing when
    the source is not there yet, [None] for a source that cannot be walked. *)
Definition Tar : Type := list (list string * Node).
Definition below (f : Folder) (rel : list string) : Tar :=
  omap (fun '(p, n) => match strip_common rel p with ([], (_ :: _) as rest) => Some (rest, n) | _ => None end) (map_to_list f).
Definition writeTar (f : Folder) (rel : string) (isFile : bool) : option Tar :=
  let p := components (Clean rel) in
  match node_at f p with
  | None => Some []
  | Some n =>
      if isFile then Some [([Base (Clean rel)], n)]
      else match n with NDir => Some (below f p) | NFile _ => None end
  end.

(** ** Volumes on the hosts *)
Record Volume := mkVolume { vSlug : string; vFiles : Folder }.
Notation Volumes := (gmap (Z * string) Volume).

Inductive VolCall :=
  | VClient (host : Z) | VInspect (host : Z) (name : string) | VCreate (host : Z) (name : string) | VCopyTo (host : Z) (name : string)
  | VCopyFrom (host : Z) (name : string) | VEmpty (host : Z) (name : string) | VList (host : Z) | VRemove (host : Z) (name : string)
  | VLocal.                                                 (* a file on the Docker Commander machine *)
Record Remote := mkRemote { vols : Volumes; vlog : list VolCall }.

(** The daemon: which call fails given those before it, how an archive unpacks over
    what is there and what an interrupted one leaves, and the size of a volume's archive. *)
Class Daemon := {
  vfail : list VolCall -> VolCall -> option string;
  untar : Folder -> Tar -> Folder;
  torn : list VolCall -> Folder -> Folder;
  tar_size : Folder -> Z
}.
(** A volume's own archive, unpacked over nothing, is the volume. *)
Class DaemonLaws (D : Daemon) : Prop := { untar_whole f : untar ∅ (map_to_list f) = f }.

Definition maxSeedSnapshotBytes : Z := 2 * 2 ^ 30.

Section Seeds.
Context `{TE : TextEnv} `{D : Daemon}.
Notation RM A := (stM Remote string A).

Definition vcall (c : VolCall) : RM () := fun r =>
  let r' := mkRemote (vols r) (vlog r ++ [c]) in
  match vfail (vlog r) c with Some e => (r', Err e) | None => (r', Ok tt) end.
Definition with_vols (f : Volumes -> Volumes) : RM () := st_mod (fun r => mkRemote (f (vols r)) (vlog r)).

(** A call that writes into a volume: a failure leaves what [torn] says. *)
Definition write_volume (c : VolCall) (host : Z) (name : string) (f : option (Folder -> Folder)) : RM () := fun r =>
  let on g r := mkRemote (alter (fun v => mkVolume (vSlug v) (g (vFiles v))) (host, name) (vols r)) (vlog r) in
  match vcall c r, f with
  | (r', Ok _), Some f => (on f r', Ok tt)
  | (r', Ok _), None => (on (torn (vlog r)) r', Err "the archive broke off")
  | (r', Err e), _ => (on (torn (vlog r)) r', Err e)
  end.
(** The archive is read while it is sent: one that cannot be made breaks off. *)
Definition copy_to (host : Z) (name : string) (t : option Tar) : RM () :=
  write_volume (VCopyTo host name) host name ((fun t v => untar v t) <$> t).

(** VolumeCreate: a volume of that name is left as it is. *)
Definition create_volume (host : Z) (name slug : string) : RM () :=
  vcall (VCreate host name) ≫= fun _ =>
  with_vols (fun m => match m !! (host, name) with Some _ => m | None => <[(host, name) := mkVolume slug ∅]> m end).

Definition seed_bind (host : Z) (f : Folder) (slug : string) (b : ProjectBind) : RM () :=
  let name := SeedVolumeName slug (pbRel b) in
  create_volume host name slug ≫= fun _ =>
  copy_to host name (writeTar f (pbRel b) (pbIsFile b)).
Definition SeedProjectBinds (host : Z) (f : Folder) (slug : string) (binds : list ProjectBind) : RM () :=
  vcall (VClient host) ≫= fun _ => st_for (seed_bind host f slug) binds.

Definition ListSeedVolumes (host : Z) (slug : string) : RM (list string) :=
  vcall (VClient host) ≫= fun _ =>
  vcall (VList host) ≫= fun _ =>
  st_lift (fun r => Ok (sort_strings (omap (fun '((h, n), v) => if (h =? host) && String.eqb (vSlug v) slug then Some n else None) (map_to_list (vols r))))).

(** The names removed; the failures are gathered. *)
Fixpoint remove_volumes (host : Z) (names : list string) (r : Remote) : Remote * (list string * list string) :=
  match names with
  | [] => (r, ([], []))
  | name :: names =>
      match vcall (VRemove host name) r with
      | (r, Err e) => let '(r, (removed, failures)) := remove_volumes host names r in (r, (removed, (name +:+ ": " +:+ e) :: failures))
      | (r, Ok _) =>
          let '(r, (removed, failures)) := remove_volumes host names (mkRemote (delete (host, name) (vols r)) (vlog r)) in (r, (name :: removed, failures))
      end
  end.
(** The names removed, with the error when there was one. *)
Definition RemoveSeedVolumes (host : Z) (slug : string) (r : Remote) : Remote * (list string * option string) :=
  match (vcall (VClient host) ≫= fun _ => ListSeedVolumes host slug) r with
  | (r, Err e) => (r, ([], Some e))
  | (r, Ok names) =>
      let '(r, (removed, failures)) := remove_volumes host names r in
      (r, (removed, match failures with
                    | [] => None
                    | _ => Some ("could not remove " +:+ FormatInt (Z.of_nat (length failures)) +:+ " seeded volume(s): " +:+ Join failures "; ")
                    end))
  end.

(** ** Saving the volumes before a restore *)
Record snapVolume := mkSnap { svName : string; svSaved : option Folder }.
Record SeedSnapshot := mkSnapshot { snapHost : Z; snapVols : list snapVolume }.

(** One volume, on the rest of the budget. *)
Definition save_volume (host : Z) (name : string) (budget : Z) : RM (Folder * Z) :=
  vcall (VCopyFrom host name) ≫= fun _ =>
  vcall VLocal ≫= fun _ =>
  st_lift (fun r => match vols r !! (host, name) with
                    | None => Err "no such volume"
                    | Some v => if budget <? tar_size (vFiles v)
                                then Err ("the seed volumes hold more than " +:+ FormatInt (maxSeedSnapshotBytes / 2 ^ 20) +:+ " MiB")
                                else Ok (vFiles v, budget - tar_size (vFiles v))
                    end).
Fixpoint snapshot_binds (host : Z) (slug : string) (binds : list ProjectBind) (seen : list string) (budget : Z) : RM (list snapVolume) :=
  match binds with
  | [] => mret []
  | b :: binds =>
      let name := SeedVolumeName slug (pbRel b) in
      if one_of name seen then snapshot_binds host slug binds seen budget
      else
        vcall (VInspect host name) ≫= fun _ =>
        there ← st_lift (fun r => Ok (bool_decide (is_Some (vols r !! (host, name)))));
        if there : bool
        then saved ← save_volume host name budget;
             rest ← snapshot_binds host slug binds (name :: seen) saved.2;
             mret (mkSnap name (Some saved.1) :: rest)
        else rest ← snapshot_binds host slug binds (name :: seen) budget; mret (mkSnap name None :: rest)
  end.
Definition SnapshotSeedVolumes (host : Z) (slug : string) (binds : list ProjectBind) : RM SeedSnapshot :=
  vcall (VClient host) ≫= fun _ =>
  vcall VLocal ≫= fun _ =>
  vs ← snapshot_binds host slug binds [] maxSeedSnapshotBytes;
  mret (mkSnapshot host vs).

(** Empties the volume and unpacks the saved archive; a failure leaves it empty or torn. *)
Definition replaceVolume (host : Z) (name : string) (saved : Folder) : RM () :=
  vcall (VClient host) ≫= fun _ =>
  write_volume (VEmpty host name) host name (Some (fun _ => ∅)) ≫= fun _ =>
  vcall VLocal ≫= fun _ =>
  copy_to host name (Some (map_to_list saved)).
Definition restore_volume (host : Z) (v : snapVolume) : RM () :=
  match svSaved v with
  | None => vcall (VRemove host (svName v)) ≫= fun _ => with_vols (delete (host, svName v))
  | Some saved => replaceVolume host (svName v) saved
  end.
(** Every volume is tried; the errors, none for success. *)
Fixpoint restore_volumes (host : Z) (vs : list snapVolume) (r : Remote) : Remote * list string :=
  match vs with
  | [] => (r, [])
  | v :: vs =>
      let '(r, res) := restore_volume host v r in
      let '(r, errs) := restore_volumes host vs r in
      (r, match res with Ok _ => errs | Err e => e :: errs end)
  end.
Definition snapshot_Restore (s : SeedSnapshot) (r : Remote) : Remote * list string :=
  match vcall (VClient (snapHost s)) r with
  | (r, Err e) => (r, [e])
  | (r, Ok _) => restore_volumes (snapHost s) (snapVols s) r
  end.
End Seeds.

(** ** Profiles (docker/compose.go) *)
Fixpoint normalize_profiles (seen : list string) (ps : list string) : list string :=
  match ps with
  | [] => []
  | p :: ps =>
      let p := TrimSpace p in
      if String.eqb p "" || one_of p seen then normalize_profiles seen ps else p :: normalize_profiles (p :: seen) ps
  end.
Definition NormalizeProfiles (ps : list string) : list string := normalize_profiles [] ps.

(** ** The environment that names a host's daemon (docker/compose_host.go) *)
Record Host := mkHost { hID : Z; hName : string; hKind : string; hAddress : string; hTLS : bool; hDisabled : bool }.
Section HostEnv.
Context `{TE : TextEnv}.
(** [tls_dir]: writeTLSCerts, the directory of the written certificates, [None] when it fails. *)
Definition ComposeHostEnv (tls_dir : option string) (h : Host) : result string (list string) :=
  if String.eqb (hKind h) "" || String.eqb (hKind h) "local" then Ok []
  else if String.eqb (hKind h) "tcp" then
    if String.eqb (hAddress h) "" then Err ("host " +:+ Quote (hName h) +:+ " has no address")
    else if negb (hTLS h) then Ok ["DOCKER_HOST=" +:+ hAddress h]
    else match tls_dir with
         | None => Err "could not write the certificates"
         | Some dir => Ok ["DOCKER_HOST=" +:+ hAddress h; "DOCKER_TLS_VERIFY=1"; "DOCKER_CERT_PATH=" +:+ dir]
         end
  else if String.eqb (hKind h) "ssh" then
    if String.eqb (hAddress h) "" then Err ("host " +:+ Quote (hName h) +:+ " has no address")
    else Ok ["DOCKER_HOST=" +:+ (if HasPrefix (hAddress h) "ssh://" then hAddress h else "ssh://" +:+ hAddress h)]
  else Err ("unsupported host kind " +:+ Quote (hKind h)).
End HostEnv.

(** ** The walk to a prefix that exists *)
Lemma IsAbs_app a b : a <> "" -> IsAbs (a +:+ b) = IsAbs a.
Proof.
  destruct a as [|d a]; [done|]. intros _. change (Ascii.eqb "/" d && HasPrefix (a +:+ b) "" = Ascii.eqb "/" d && HasPrefix a "").
  f_equal. by destruct (a +:+ b), a.
Qed.

Lemma plain_components c : plain c -> IsAbs c = false /\ components c = [c].
Proof.
  intros Hp. pose proof Hp as (H0 & H1 & H2 & Hs). assert (IsAbs c = false) as Ha.
  { unfold IsAbs. destruct c as [|d c]; [done|]. change (slash ∉ d :: bytes c) in Hs. apply not_elem_of_cons in Hs as [Hd _].
    change (Ascii.eqb "/" d && HasPrefix c "" = false). destruct (Ascii.eqb "/" d) eqn:E; [apply Ascii.eqb_eq in E as <-; by destruct Hd|reflexivity]. }
  split; [done|]. unfold components. rewrite Ha, Split_single by done. by rewrite (clean_names false [] [c]) by by apply Forall_singleton.
Qed.

Lemma Join_names c rs : plain c -> Forall plain rs -> path_Join [c; Join rs "/"] = Join (c :: rs) "/".
Proof.
  intros Hc Hrs. destruct (plain_components c Hc) as [Ha Hcc]. pose proof Hc as (H0 & _ & _ & Hs). cbn [path_Join].
  rewrite (proj2 (String.eqb_neq _ _) H0). unfold Clean.
  assert (components (Join [c; Join rs "/"] "/") = c :: rs /\ IsAbs (Join [c; Join rs "/"] "/") = false) as [-> ->]; [|done].
  change (Join [c; Join rs "/"] "/") with (c +:+ String slash (Join rs "/")).
  assert (IsAbs (c +:+ String slash (Join rs "/")) = false) as HA.
  { by rewrite IsAbs_app. }
  split; [|exact HA]. unfold components. rewrite HA, Split_app, (Split_single c) by done. rewrite clean_stack_app, (clean_names false [] [c]) by by apply Forall_singleton.
  destruct rs as [|r rs]; [done|]. rewrite Split_Join by (done || by apply plain_free). rewrite clean_names by done. by rewrite rev_app_distr, rev_involutive.
Qed.

Lemma Base_clean cs c : Forall plain (cs ++ [c]) -> Base (unsplit true (cs ++ [c])) = c.
Proof.
  intros Hp. unfold Base, unsplit. change ("/" +:+ Join (cs ++ [c]) "/") with (String slash (Join (cs ++ [c]) "/")). cbn [String.eqb].
  change (String slash (Join (cs ++ [c]) "/")) with ("" +:+ String slash (Join (cs ++ [c]) "/")). rewrite Split_app, Split_Join; [|by destruct cs|by apply plain_free].
  rewrite filter_app. change (filter _ (Split "" slash)) with (@nil string). rewrite app_nil_l, filter_app, filter_cons_True; [by rewrite rev_app_distr|].
  by apply Forall_app in Hp as [_ [(? & _) _]%Forall_cons].
Qed.

Section Resolve.
Variable E : string -> result FSErr string.

(** What the walk answers: the longest part that exists, its links followed, with the
    names after it as they are; or the cleaned path when nothing of it exists. *)
Definition resolved_as (cs : list string) (q : string) : Prop :=
  (exists k r, (k <= length cs)%nat /\ E (unsplit true (take k cs)) = Ok r /\
     (forall j, (k < j <= length cs)%nat -> is_ok (E (unsplit true (take j cs))) = false) /\
     (k = length cs -> q = r) /\ (k <> length cs -> q = path_Join [r; Join (drop k cs) "/"])) \/
  ((forall j, (j <= length cs)%nat -> is_ok (E (unsplit true (take j cs))) = false) /\ q = unsplit true cs).

Lemma resolve_up_spec abs cs rs fuel : Forall plain (cs ++ rs) -> Clean abs = unsplit true (cs ++ rs) -> (length cs < fuel)%nat ->
  (forall j, (length cs < j <= length (cs ++ rs))%nat -> is_ok (E (unsplit true (take j (cs ++ rs)))) = false) ->
  exists q, resolve_up E fuel abs (unsplit true cs) (Join rs "/") = Some q /\ resolved_as (cs ++ rs) q.
Proof.
  revert rs fuel. induction cs as [|c cs IH] using rev_ind; intros rs fuel Hp Hc Hf Hlong; (destruct fuel as [|fuel]; [simpl in Hf; lia|]); cbn [resolve_up].
  - destruct (E (unsplit true [])) as [r|e] eqn:Er.
    + eexists. split; [done|]. left. exists 0%nat, r. split; [lia|]. split; [done|]. split; [exact Hlong|]. rewrite app_nil_l, drop_0. split.
      * intros Hl. destruct rs; [done|done].
      * intros Hl. destruct rs as [|x rs]; [done|]. destruct (String.eqb (Join (x :: rs) "/") "") eqn:E0; [|done].
        apply String.eqb_eq in E0. apply Forall_cons in Hp as [(H0 & _) _]. destruct x; [done|]. by destruct rs.
    + change (Dir (unsplit true [])) with (unsplit true []). rewrite String.eqb_refl. eexists. split; [done|]. right. split; [|done].
      intros [|j] Hj; [by rewrite take_0, Er|]. apply Hlong. simpl in *. lia.
  - rewrite <- app_assoc in *. simpl in Hc, Hlong. assert (Forall plain (cs ++ [c])) as Hcs by (rewrite app_assoc in Hp; by apply Forall_app in Hp as [? _]).
    destruct (E (unsplit true (cs ++ [c]))) as [r|e] eqn:Er.
    + eexists. split; [done|]. left. exists (length (cs ++ [c])), r. rewrite (app_assoc cs [c] rs), take_app_length, drop_app_length.
      split; [rewrite (length_app (cs ++ [c])); lia|]. split; [done|]. split.
      * intros j Hj. rewrite <- app_assoc. apply Hlong. rewrite !length_app in *. simpl in *. lia.
      * split.
        -- intros Hl. rewrite !length_app in Hl. simpl in Hl. destruct rs; [done|simpl in Hl; lia].
        -- intros Hl. destruct rs as [|x rs]; [rewrite !length_app in Hl; simpl in Hl; lia|]. destruct (String.eqb (Join (x :: rs) "/") "") eqn:E0; [|done].
           apply String.eqb_eq in E0. apply Forall_app in Hp as [_ Hp]. apply Forall_cons in Hp as [_ Hp]. apply Forall_cons in Hp as [(H0 & _) _].
           destruct x; [done|]. by destruct rs.
    + rewrite Dir_clean by done. assert (String.eqb (unsplit true cs) (unsplit true (cs ++ [c])) = false) as ->.
      { apply String.eqb_neq. intros H. apply unsplit_inj in H; [|by apply Forall_app in Hcs as [? _]|done]. apply (f_equal length) in H. rewrite length_app in H. simpl in H. lia. }
      apply Forall_app in Hp as [Hp1 Hp]. apply Forall_app in Hp as [Hp2 Hp3]. apply Forall_cons in Hp2 as [Hp2 _].
      rewrite Base_clean, Join_names by done.
        change ([c] ++ rs) with (c :: rs) in *. apply (IH (c :: rs)); [apply Forall_app; split; [done|by apply Forall_cons]|done|rewrite length_app in Hf; simpl in Hf; lia|].
        intros j Hj. destruct (decide (j = S (length cs))) as [->|].
        -- assert (take (S (length cs)) (cs ++ c :: rs) = cs ++ [c]) as ->; [|by rewrite Er].
           rewrite take_app. rewrite take_ge by lia. replace (S (length cs) - length cs)%nat with 1%nat by lia. by destruct rs.
        -- apply Hlong. rewrite !length_app in Hj |- *. simpl in Hj |- *. rewrite ?length_app. simpl. lia.
Qed.

Lemma resolveExisting_spec p : IsAbs p = true -> exists q, resolveExisting E p = Some q /\ resolved_as (components p) q.
Proof.
  intros Ha. unfold resolveExisting, path_fuel. assert (Clean p = unsplit true (components p)) as Hc by (unfold Clean; by rewrite Ha). rewrite Hc.
  destruct (resolve_up_spec p (components p) [] (S (length (components p)))) as (q & Hq & Hs); rewrite ?app_nil_r in *; [by apply abs_names|done|lia|intros; lia|].
  by exists q.
Qed.
End Resolve.

(** ** Binds in the folder and outside it *)
Definition escapes (rel : string) : bool := String.eqb rel ".." || HasPrefix rel "../" || IsAbs rel.

Lemma Rel_escapes base targ : (forall r, components targ <> components base ++ r) -> escapes (Rel base targ) = true.
Proof.
  intros H. unfold Rel. destruct (strip_common _ _) as [up down] eqn:E. destruct up as [|u up].
  { exfalso. destruct (strip_common_up (components base) (components targ)) as [r Hr]; [by rewrite E|]. by apply (H r). }
  unfold escapes. cbn [length replicate app]. destruct (replicate (length up) ".." ++ down) as [|x l]; [done|].
  change (Join (".." :: x :: l) "/") with ("../" +:+ Join (x :: l) "/"). rewrite HasPrefix_app. by rewrite orb_true_r.
Qed.

Lemma Rel_stays base targ r : Forall plain r -> components targ = components base ++ r ->
  escapes (Rel base targ) = false /\ components (Rel base targ) = r.
Proof.
  intros Hp E. rewrite (Rel_inside _ _ _ E). destruct r as [|c r]; [done|].
  assert (normal false (c :: r)) as Hn by (by exists 0%nat, (c :: r)). destruct (components_unsplit false _ Hn) as [Ha Hc].
  change (unsplit false (c :: r)) with (Join (c :: r) "/") in *. split; [|exact Hc]. unfold escapes. rewrite Ha, orb_false_r.
  destruct (String.eqb (Join (c :: r) "/") "..") eqn:E1.
  { apply String.eqb_eq in E1. rewrite E1 in Hc. change (components "..") with [".."] in Hc. injection Hc as <- <-.
    by apply Forall_cons in Hp as [(_ & _ & ? & _) _]. }
  cbn [orb]. destruct (HasPrefix _ "../") eqn:E2; [|done]. exfalso. 
  assert (Split (Join (c :: r) "/") slash = c :: r) as Hs by (apply Split_Join; [done|by apply plain_free]).
  apply HasPrefix_spec in E2 as [t Ht]. rewrite Ht in Hs. change ("../" +:+ t) with (".." +:+ String slash t) in Hs. rewrite Split_app in Hs.
  injection Hs as <- _. by apply Forall_cons in Hp as [(_ & _ & ? & _) _].
Qed.

Section Classification.
Variables (E : string -> result FSErr string) (st : string -> bool) (cwd : string).
(** filepath.EvalSymlinks answers with a cleaned path, absolute for an absolute one. *)
Hypothesis links_clean : forall p r, IsAbs p = true -> E p = Ok r -> IsAbs r = true /\ Clean r = r.

Lemma resolved_abs p q : IsAbs p = true -> resolveExisting E p = Some q -> IsAbs q = true.
Proof.
  intros Ha Hq. destruct (resolveExisting_spec E p Ha) as (q' & Hq' & Hs). rewrite Hq in Hq'. injection Hq' as <-.
  pose proof (abs_names p Ha) as Hp.
  destruct Hs as [(k & r & Hk & Er & _ & H1 & H2)|[_ ->]]; [|by apply (components_unsplit true); exists 0%nat, (components p)].
  apply links_clean in Er as [Hr _]; [|by apply (components_unsplit true); exists 0%nat, (take k (components p)); split; [|split; [apply Forall_take|]]].
  destruct (decide (k = length (components p))) as [Ek|Ek]; [by rewrite (H1 Ek)|]. rewrite (H2 Ek).
  destruct (Join_below r (drop k (components p))) as [Hj _]; [by intros ->| |by apply Forall_drop|by rewrite Hj].
  intros Hd. apply (f_equal length) in Hd. rewrite length_drop in Hd. simpl in Hd. lia.
Qed.

Lemma Abs_abs p : IsAbs cwd = true -> IsAbs (Abs cwd p) = true.
Proof.
  intros Hc. unfold Abs. destruct (IsAbs p) eqn:Ha; [by rewrite (proj1 (Clean_components p))|]. cbn [path_Join].
  destruct cwd as [|d c] eqn:Ecwd; [done|]. rewrite <- Ecwd in *. cbn [String.eqb]. rewrite (proj2 (String.eqb_neq cwd "")) by (by rewrite Ecwd).
  rewrite (proj1 (Clean_components _)). change (Join [cwd; p] "/") with (cwd +:+ String slash p). by rewrite IsAbs_app by (by rewrite Ecwd).
Qed.

(** Whether a mount's source lies in the folder once its links are followed. *)
Definition lies_in (root source : string) (r : list string) : Prop :=
  source <> "" /\ exists q, resolveExisting E (Abs cwd source) = Some q /\ components q = components root ++ r.

Lemma relWithin_exact root source : IsAbs cwd = true ->
  match relWithin E cwd root source with
  | Some rel => lies_in root source (components rel)
  | None => forall r, ~ lies_in root source r
  end.
Proof.
  intros Hc. unfold relWithin. destruct (String.eqb source "") eqn:E0; [apply String.eqb_eq in E0 as ->; by intros r [? _]|].
  apply String.eqb_neq in E0. pose proof (Abs_abs source Hc) as Ha. destruct (resolveExisting_spec E _ Ha) as (q & Hq & _). rewrite Hq. simpl.
  pose proof (resolved_abs _ _ Ha Hq) as Hqa. pose proof (abs_names q Hqa) as Hp. fold (escapes (Rel root q)).
  destruct (escapes (Rel root q)) eqn:Ee.
  - intros r (_ & q' & Hq' & Hr). rewrite Hq in Hq'. injection Hq' as <-. rewrite Hr in Hp. apply Forall_app in Hp as [_ Hp].
    by rewrite (proj1 (Rel_stays _ _ _ Hp Hr)) in Ee.
  - split; [done|]. exists q. split; [done|].
    destruct (strip_common (components root) (components q)) as [up down] eqn:Es.
    destruct up as [|u up].
    + destruct (strip_common_up (components root) (components q)) as [r Hr]; [by rewrite Es|]. rewrite Hr in Hp. apply Forall_app in Hp as [_ Hp].
      by rewrite (proj2 (Rel_stays _ _ _ Hp Hr)).
    + exfalso. rewrite Rel_escapes in Ee; [done|]. intros r Hr. by rewrite Hr, strip_common_app in Es.
Qed.

(** C23: a bind of a compose file is shipped to a remote host exactly when its source,
    with every link on the way followed, lies in the project's folder, and it is
    shipped from there; every other bind is one the deploy refuses or passes
    through, and nothing but binds is touched. *)
Theorem binds_classified cfg dir int ext : IsAbs cwd = true -> ClassifyProjectBinds E st cwd (Some cfg) dir = Some (int, ext) ->
  exists root, E (Abs cwd dir) = Ok root /\
    (forall b, b ∈ int <-> exists ms m rel, cfg !! pbService b = Some ms /\ m ∈ ms /\ mdType m = "bind" /\
       b = mkBind (pbService b) (mdSource m) (mdTarget m) (mdReadOnly m) rel (st (mdSource m)) /\
       relWithin E cwd root (mdSource m) = Some rel /\ lies_in root (mdSource m) (components rel)) /\
    (forall b, b ∈ ext <-> exists ms m, cfg !! pbService b = Some ms /\ m ∈ ms /\ mdType m = "bind" /\
       b = mkBind (pbService b) (mdSource m) (mdTarget m) (mdReadOnly m) "" false /\ forall r, ~ lies_in root (mdSource m) r).
Proof.
  intros Hc. unfold ClassifyProjectBinds, canonicalDir. simpl. destruct (E (Abs cwd dir)) as [root|] eqn:Er; [|done]. intros [= <- <-].
  exists root. split; [done|]. set (found := flat_map _ _).
  assert (forall x, x ∈ found <-> exists n ms m, cfg !! n = Some ms /\ m ∈ ms /\ classify_mount E st cwd root n m = Some x) as Hf.
  { intros x. unfold found. rewrite list_elem_of_In, in_flat_map. split.
    - intros (n & Hn%list_elem_of_In & Hx%list_elem_of_In). apply elem_of_sort_strings, list_elem_of_fmap in Hn as ([n' ms] & -> & Hn%elem_of_map_to_list).
      simpl in Hx. rewrite Hn in Hx. apply list_elem_of_omap in Hx as (m & Hm & Hx). by exists n', ms, m.
    - intros (n & ms & m & Hn & Hm & Hx). exists n. split; apply list_elem_of_In.
      + apply elem_of_sort_strings, list_elem_of_fmap. exists (n, ms). split; [done|]. by apply elem_of_map_to_list.
      + rewrite Hn. apply list_elem_of_omap. by exists m. }
  split; intros b; rewrite list_elem_of_omap.
  - split.
    + intros ([b'|b'] & (n & ms & m & Hn & Hm & Hx)%Hf & [= <-]). unfold classify_mount in Hx. destruct (String.eqb (mdType m) "bind") eqn:Et; [|done].
      apply String.eqb_eq in Et. simpl in Hx. pose proof (relWithin_exact root (mdSource m) Hc) as Hr. destruct (relWithin E cwd root (mdSource m)) as [rel|] eqn:Erel; [|done].
      injection Hx as <-. by exists ms, m, rel.
    + intros (ms & m & rel & Hn & Hm & Et & Eb & Erel & _). exists (inl b). split; [|done]. apply Hf. exists (pbService b), ms, m. split; [done|]. split; [done|].
      unfold classify_mount. rewrite Et, Erel, Eb. done.
  - split.
    + intros ([b'|b'] & (n & ms & m & Hn & Hm & Hx)%Hf & [= <-]). unfold classify_mount in Hx. destruct (String.eqb (mdType m) "bind") eqn:Et; [|done].
      apply String.eqb_eq in Et. simpl in Hx. pose proof (relWithin_exact root (mdSource m) Hc) as Hr. destruct (relWithin E cwd root (mdSource m)) as [rel|] eqn:Erel; [done|].
      injection Hx as <-. by exists ms, m.
    + intros (ms & m & Hn & Hm & Et & Eb & Hr). exists (inr b). split; [|done]. apply Hf. exists (pbService b), ms, m. split; [done|]. split; [done|].
      unfold classify_mount. rewrite Et, Eb. pose proof (relWithin_exact root (mdSource m) Hc) as Hr'. simpl.
      destruct (relWithin E cwd root (mdSource m)) as [rel|]; [by destruct (Hr _ Hr')|done].
Qed.
End Classification.

(** ** Seeding and putting back *)
Section Undo.
Context `{TE : TextEnv} `{D : Daemon}.

(** The second state differs from the first in volumes of [names] on [host] only, and
    none of them changes owner or goes away. *)
Definition seeded (host : Z) (names : list string) (m m' : Volumes) : Prop :=
  (forall k, k ∉ (host,.) <$> names -> m' !! k = m !! k) /\
  (forall k v, m !! k = Some v -> exists v', m' !! k = Some v' /\ vSlug v' = vSlug v).

Lemma seeded_refl host names m : seeded host names m m.
Proof. split; [done|eauto]. Qed.
Lemma seeded_trans host names m1 m2 m3 : seeded host names m1 m2 -> seeded host names m2 m3 -> seeded host names m1 m3.
Proof.
  intros [H1 H1'] [H2 H2']. split; [intros k Hk; by rewrite H2, H1|].
  intros k v Hv. destruct (H1' k v Hv) as (v' & Hv' & E). destruct (H2' k v' Hv') as (v'' & Hv'' & E'). exists v''. by rewrite E'.
Qed.

Lemma vcall_vols c r : vols (vcall c r).1 = vols r.
Proof. unfold vcall. by destruct (vfail (vlog r) c). Qed.

Lemma alter_seeded host names name (f : Volume -> Volume) m : name ∈ names -> (forall v, vSlug (f v) = vSlug v) ->
  seeded host names m (alter f (host, name) m).
Proof.
  intros Hn Hf. split.
  - intros k Hk. apply lookup_alter_ne. intros <-. apply Hk. by apply list_elem_of_fmap_2.
  - intros k v Hv. destruct (decide ((host, name) = k)) as [<-|].
    + rewrite lookup_alter_eq, Hv. eexists. split; [done|]. apply Hf.
    + rewrite lookup_alter_ne by done. eauto.
Qed.

Lemma write_volume_seeded c host name f names r : name ∈ names -> seeded host names (vols r) (vols (write_volume c host name f r).1).
Proof.
  intros Hn. unfold write_volume. pose proof (vcall_vols c r) as Hv. destruct (vcall c r) as [r' [u|e]]; simpl in Hv; destruct f; simpl;
    rewrite Hv; by apply alter_seeded.
Qed.

Lemma seed_bind_seeded host f slug b names r : SeedVolumeName slug (pbRel b) ∈ names ->
  seeded host names (vols r) (vols (seed_bind host f slug b r).1).
Proof.
  intros Hn. unfold seed_bind, create_volume, mbind, stM_bind, with_vols, st_mod. pose proof (vcall_vols (VCreate host (SeedVolumeName slug (pbRel b))) r) as Hv.
  destruct (vcall _ r) as [r1 [u|e]]; simpl in Hv; [|simpl; rewrite Hv; apply seeded_refl].
  eapply seeded_trans; [|by apply write_volume_seeded]. simpl. rewrite Hv. destruct (vols r !! _) eqn:E; [apply seeded_refl|]. split.
  - intros k Hk. apply lookup_insert_ne. intros <-. apply Hk. by apply list_elem_of_fmap_2.
  - intros k v Hk. rewrite lookup_insert_ne by (intros <-; by rewrite E in Hk). eauto.
Qed.

Definition seed_names (slug : string) (binds : list ProjectBind) : list string := (fun b => SeedVolumeName slug (pbRel b)) <$> binds.

Lemma st_for_seeded host f slug binds names r : seed_names slug binds ⊆ names ->
  seeded host names (vols r) (vols (st_for (seed_bind host f slug) binds r).1).
Proof.
  revert r. induction binds as [|b binds IH]; intros r Hn; [apply seeded_refl|]. cbn [st_for]. unfold mbind, stM_bind.
  pose proof (seed_bind_seeded host f slug b names r (Hn _ ltac:(by left))) as Hb.
  destruct (seed_bind host f slug b r) as [r1 [u|e]]; [|exact Hb].
  eapply seeded_trans; [exact Hb|]. apply IH. intros x Hx. apply Hn. by right.
Qed.

Lemma SeedProjectBinds_seeded host f slug binds r :
  seeded host (seed_names slug binds) (vols r) (vols (SeedProjectBinds host f slug binds r).1).
Proof.
  unfold SeedProjectBinds, mbind, stM_bind. pose proof (vcall_vols (VClient host) r) as Hv.
  destruct (vcall _ r) as [r1 [u|e]]; simpl in Hv; rewrite <- Hv; [by apply st_for_seeded|apply seeded_refl].
Qed.

(** *** The snapshot *)
Record snapped (host : Z) (names : list string) (m : Volumes) (vs : list snapVolume) : Prop := {
  sn_names n : n ∈ svName <$> vs <-> n ∈ names;
  sn_once : NoDup (svName <$> vs);
  sn_saved v : v ∈ vs -> svSaved v = vFiles <$> m !! (host, svName v)
}.

Lemma vcall_ok c r r' u : vcall c r = (r', Ok u) -> vols r' = vols r.
Proof. intros H. pose proof (vcall_vols c r) as Hv. by rewrite H in Hv. Qed.

Lemma snapshot_binds_spec host slug binds seen budget r r' vs :
  snapshot_binds host slug binds seen budget r = (r', Ok vs) ->
  vols r' = vols r /\ snapped host (List.filter (fun n => negb (one_of n seen)) (seed_names slug binds)) (vols r) vs.
Proof.
  revert seen budget r r' vs. induction binds as [|b binds IH]; intros seen budget r r' vs.
  - intros [= <- <-]. split; [done|]. split; [done|constructor|]. intros v Hv. by apply not_elem_of_nil in Hv.
  - cbn [snapshot_binds]. set (name := SeedVolumeName slug (pbRel b)).
    assert (seed_names slug (b :: binds) = name :: seed_names slug binds) as -> by done. cbn [List.filter].
    destruct (one_of name seen) eqn:Es; [apply IH|]. cbn [negb].
    assert (forall bud r2 saved rest, vols r2 = vols r -> snapshot_binds host slug binds (name :: seen) bud r2 = (r', Ok rest) ->
      saved = vFiles <$> vols r !! (host, name) -> vs = mkSnap name saved :: rest ->
      vols r' = vols r /\ snapped host (name :: List.filter (fun n => negb (one_of n seen)) (seed_names slug binds)) (vols r) vs) as Hstep.
    { intros bud r2 saved rest H2 Hrest Hsaved ->. apply IH in Hrest as [Hv [Hn Ho Hs]]. rewrite H2 in *. split; [done|].
      assert (forall n, n ∈ svName <$> rest <-> n <> name /\ n ∈ List.filter (fun n => negb (one_of n seen)) (seed_names slug binds)) as Hn'.
      { intros n. rewrite Hn, !list_elem_of_In, !filter_In. unfold one_of. cbn [existsb]. rewrite negb_orb, andb_true_iff, negb_true_iff, String.eqb_neq. tauto. }
      split; [| |].
      - intros n. rewrite fmap_cons, !elem_of_cons, Hn'. cbn [svName]. destruct (decide (n = name)); tauto.
      - rewrite fmap_cons. apply NoDup_cons. split; [|done]. rewrite Hn'. cbn [svName]. tauto.
      - intros v [->|Hv']%elem_of_cons; [done|]. by apply Hs. }
    intros H. apply st_bind_ok in H as (r1 & [] & H1 & H). apply vcall_ok in H1.
    apply st_bind_ok in H as (r2 & there & [= <- <-] & H). rewrite H1 in H. case_bool_decide as Hthere.
    + apply st_bind_ok in H as (r3 & [saved bud] & Hsv & H). unfold save_volume in Hsv.
      apply st_bind_ok in Hsv as (ra & [] & Ha & Hsv). apply vcall_ok in Ha. apply st_bind_ok in Hsv as (rb & [] & Hb & Hsv). apply vcall_ok in Hb.
      unfold st_lift in Hsv. injection Hsv as <- Hsv. destruct (vols rb !! (host, name)) as [v|] eqn:Ev; [|done]. case_match; [done|]. injection Hsv as <- <-.
      apply st_bind_ok in H as (r4 & rest & Hrest & [= <- <-]). eapply Hstep; [|exact Hrest| |done]; [congruence|]. simpl. by rewrite <- H1, <- Ha, <- Hb, Ev.
    + apply st_bind_ok in H as (r4 & rest & Hrest & [= <- <-]). eapply Hstep; [|exact Hrest| |done]; [done|].
      destruct (vols r !! (host, name)); [by destruct Hthere|done].
Qed.

(** *** Putting back *)
Definition put_back (host : Z) (v : snapVolume) (m : Volumes) : Volumes :=
  match svSaved v with
  | None => delete (host, svName v) m
  | Some f => alter (fun x => mkVolume (vSlug x) f) (host, svName v) m
  end.

Lemma write_volume_ok c host name f r r' : write_volume c host name (Some f) r = (r', Ok tt) ->
  vols r' = alter (fun v => mkVolume (vSlug v) (f (vFiles v))) (host, name) (vols r).
Proof.
  unfold write_volume. destruct (vcall c r) as [r1 [[]|e]] eqn:E; [|done]. intros [= <-]. simpl. by rewrite (vcall_ok _ _ _ _ E).
Qed.

Lemma restore_volume_ok `{!DaemonLaws D} host v r r' : restore_volume host v r = (r', Ok tt) -> vols r' = put_back host v (vols r).
Proof.
  unfold restore_volume, put_back. destruct (svSaved v) as [saved|].
  - intros H. apply st_bind_ok in H as (r1 & [] & H1 & H). apply vcall_ok in H1. apply st_bind_ok in H as (r2 & [] & H2 & H).
    apply st_bind_ok in H as (r3 & [] & H3 & H). apply vcall_ok in H3. apply write_volume_ok in H, H2. cbn [fmap option_fmap option_map] in H.
    rewrite H, H3, H2, H1. apply map_eq. intros k. destruct (decide ((host, svName v) = k)) as [<-|].
    + rewrite !lookup_alter_eq. destruct (vols r !! _); [|done]. simpl. by rewrite untar_whole.
    + by rewrite !lookup_alter_ne.
  - intros H. apply st_bind_ok in H as (r1 & [] & H1 & H). apply vcall_ok in H1. injection H as <-. simpl. by rewrite H1.
Qed.

Lemma restore_volumes_ok `{!DaemonLaws D} host vs r r' : restore_volumes host vs r = (r', []) -> vols r' = foldl (fun m v => put_back host v m) (vols r) vs.
Proof.
  revert r. induction vs as [|v vs IH]; intros r; cbn [restore_volumes]; [by intros [= <-]|].
  destruct (restore_volume host v r) as [r1 [[]|e]] eqn:E; destruct (restore_volumes host vs r1) as [r2 errs] eqn:E2; intros [= -> H2].
  subst errs. rewrite (IH _ E2). cbn [foldl]. by rewrite (restore_volume_ok _ _ _ _ E).
Qed.

Lemma put_back_lookup host vs m k : NoDup (svName <$> vs) ->
  foldl (fun m v => put_back host v m) m vs !! k =
  match List.find (fun v => bool_decide ((host, svName v) = k)) vs with
  | Some v => match svSaved v with None => None | Some f => (fun x => mkVolume (vSlug x) f) <$> m !! k end
  | None => m !! k
  end.
Proof.
  revert m. induction vs as [|v vs IH]; intros m Hnd; [done|]. cbn [foldl List.find]. rewrite fmap_cons, NoDup_cons in Hnd. destruct Hnd as [Hv Hnd].
  rewrite IH by done. case_bool_decide as Hk.
  - destruct (List.find _ vs) as [w|] eqn:Ew.
    { exfalso. apply find_some in Ew as [Hw%list_elem_of_In Eq%bool_decide_eq_true]. apply Hv. rewrite <- Hk in Eq. injection Eq as <-. by apply list_elem_of_fmap_2. }
    rewrite <- Hk. unfold put_back. destruct (svSaved v); [by rewrite lookup_alter_eq|by rewrite lookup_delete_eq].
  - assert (put_back host v m !! k = m !! k) as ->; [|done]. unfold put_back. destruct (svSaved v); [by rewrite lookup_alter_ne|by rewrite lookup_delete_ne].
Qed.

Lemma undone_seed `{!DaemonLaws D} host f slug binds r0 r1 snap r2 r2' res r3 :
  SnapshotSeedVolumes host slug binds r0 = (r1, Ok snap) ->
  SeedProjectBinds host f slug binds r1 = (r2, res) ->
  vols r2' = vols r2 ->
  snapshot_Restore snap r2' = (r3, []) ->
  vols r3 = vols r0.
Proof.
  intros H1 H2 H2' H3. unfold SnapshotSeedVolumes in H1. apply st_bind_ok in H1 as (ra & [] & Ha%vcall_ok & H1).
  apply st_bind_ok in H1 as (rb & [] & Hb%vcall_ok & H1). apply st_bind_ok in H1 as (rc & vs & Hvs & [= <- <-]).
  apply snapshot_binds_spec in Hvs as [Hc [Hn Ho Hs]]. rewrite Hb, Ha in *.
  pose proof (SeedProjectBinds_seeded host f slug binds rc) as [Hfr Hkeep]. rewrite H2 in Hfr, Hkeep. simpl in Hfr, Hkeep. rewrite Hc in *.
  unfold snapshot_Restore in H3. destruct (vcall _ r2') as [rd [[]|e]] eqn:Hd; [|done]. apply vcall_ok in Hd. apply restore_volumes_ok in H3.
  rewrite H3, Hd, H2'. cbn [snapHost snapVols]. apply map_eq. intros k. rewrite put_back_lookup by done.
  destruct (List.find _ vs) as [v|] eqn:Ev.
  - apply find_some in Ev as [Hv%list_elem_of_In Ek%bool_decide_eq_true]. rewrite (Hs v Hv), Ek.
    destruct (vols r0 !! k) as [x|] eqn:Ex; [|done]. simpl. destruct (Hkeep k x Ex) as (x' & -> & Es). simpl. rewrite Es. by destruct x.
  - apply Hfr. intros (n & -> & Hn')%list_elem_of_fmap. assert (n ∈ svName <$> vs) as Hin.
    { apply Hn. rewrite list_elem_of_In, filter_In. split; [by apply list_elem_of_In|done]. }
    apply list_elem_of_fmap in Hin as (v & -> & Hv%list_elem_of_In). apply (find_none _ _ Ev) in Hv. by rewrite bool_decide_eq_false in Hv.
Qed.

(** Saving changes no volume, complete or not. *)
Definition keeps_vols {A} (m : stM Remote string A) : Prop := forall r, vols (m r).1 = vols r.
Lemma vols_kept_bind {A B} (m : stM Remote string A) (k : A -> stM Remote string B) : keeps_vols m -> (forall a, keeps_vols (k a)) -> keeps_vols (m ≫= k).
Proof. intros Hm Hk r. specialize (Hm r). unfold mbind, stM_bind. destruct (m r) as [r1 [a|e]]; simpl in *; [by rewrite Hk|done]. Qed.
Lemma SnapshotSeedVolumes_keeps host slug binds : keeps_vols (SnapshotSeedVolumes host slug binds).
Proof.
  unfold SnapshotSeedVolumes. do 2 (apply vols_kept_bind; [exact (vcall_vols _)|intros _]). apply vols_kept_bind; [|by intros ? ?].
  generalize (@nil string) as seen, maxSeedSnapshotBytes as budget. induction binds as [|b binds IH]; intros seen budget; cbn [snapshot_binds]; [done|].
  destruct (one_of _ seen); [apply IH|]. apply vols_kept_bind; [exact (vcall_vols _)|]. intros _. apply vols_kept_bind; [done|]. intros [].
  - apply vols_kept_bind; [|intros ?; apply vols_kept_bind; [apply IH|by intros ? ?]]. unfold save_volume. do 2 (apply vols_kept_bind; [exact (vcall_vols _)|intros _]). done.
  - apply vols_kept_bind; [apply IH|by intros ? ?].
Qed.

(** a restore that saved the seed volumes, wrote the old revision into them,
    whole or in part, and then put them back without an error leaves every volume of
    every host as it found it. *)
Theorem undone_seed_leaves_nothing `{!DaemonLaws D} host f slug binds r0 r1 snap r2 res r3 :
  SnapshotSeedVolumes host slug binds r0 = (r1, Ok snap) ->
  SeedProjectBinds host f slug binds r1 = (r2, res) ->
  snapshot_Restore snap r2 = (r3, []) ->
  vols r3 = vols r0.
Proof. intros H1 H2. by apply (undone_seed host f slug binds r0 r1 snap r2 r2 res r3 H1 H2). Qed.
End Undo.

(** ** Removing a project's volumes *)
Section Removal.
Context `{TE : TextEnv} `{D : Daemon}.

Lemma remove_volumes_spec host names r : let '(r', (removed, _)) := remove_volumes host names r in
  (forall n, n ∈ removed -> n ∈ names /\ vols r' !! (host, n) = None) /\
  (forall h n, (h <> host \/ n ∉ removed) -> vols r' !! (h, n) = vols r !! (h, n)).
Proof.
  revert r. induction names as [|x names IH]; intros r; cbn [remove_volumes]; [by split; [intros n Hn; by apply not_elem_of_nil in Hn|]|].
  pose proof (vcall_vols (VRemove host x) r) as Hv. destruct (vcall _ r) as [r1 [[]|e]]; simpl in Hv.
  - specialize (IH (mkRemote (delete (host, x) (vols r1)) (vlog r1))). destruct (remove_volumes host names _) as [r2 [removed failures]]. destruct IH as [H1 H2]. split.
    + intros n [->|Hn]%elem_of_cons; [|destruct (H1 n Hn); split; [by right|done]]. split; [by left|].
      destruct (decide (x ∈ removed)); [by apply H1|]. rewrite H2 by by right. simpl. apply lookup_delete_eq.
    + intros h n Hn. rewrite H2 by (destruct Hn as [?|Hn]; [by left|right; intros ?; apply Hn; by right]). simpl.
      rewrite lookup_delete_ne; [by rewrite Hv|]. intros [= <- <-]. destruct Hn as [?|Hn]; [done|]. apply Hn. by left.
  - specialize (IH r1). destruct (remove_volumes host names r1) as [r2 [removed failures]]. destruct IH as [H1 H2]. split.
    + intros n Hn. destruct (H1 n Hn). split; [by right|done].
    + intros h n Hn. by rewrite H2, Hv.
Qed.

(** removing a project's seed volumes takes away only volumes on that host that
    carry the project's own label, each reported, and leaves every other volume of
    every host as it is, whatever call fails. *)
Theorem removal_stays_in_project host slug r :
  let '(r', (removed, _)) := RemoveSeedVolumes host slug r in
  (forall n, n ∈ removed -> (exists v, vols r !! (host, n) = Some v /\ vSlug v = slug) /\ vols r' !! (host, n) = None) /\
  (forall h n, (h <> host \/ n ∉ removed) -> vols r' !! (h, n) = vols r !! (h, n)).
Proof.
  unfold RemoveSeedVolumes, ListSeedVolumes, mbind, stM_bind, st_lift.
  pose proof (vcall_vols (VClient host) r) as H1. destruct (vcall (VClient host) r) as [r1 [[]|e]]; simpl in H1.
  2: { split; [intros n Hn; by apply not_elem_of_nil in Hn|intros; by rewrite H1]. }
  pose proof (vcall_vols (VClient host) r1) as H2. destruct (vcall (VClient host) r1) as [r2 [[]|e]]; simpl in H2.
  2: { split; [intros n Hn; by apply not_elem_of_nil in Hn|intros; by rewrite H2, H1]. }
  pose proof (vcall_vols (VList host) r2) as H3. destruct (vcall (VList host) r2) as [r3 [[]|e]]; simpl in H3.
  2: { split; [intros n Hn; by apply not_elem_of_nil in Hn|intros; by rewrite H3, H2, H1]. }
  match goal with |- context [remove_volumes host ?names r3] => pose proof (remove_volumes_spec host names r3) as Hs end.
  destruct (remove_volumes host _ r3) as [r4 [removed failures]]. destruct Hs as [Ha Hb]. rewrite H3, H2, H1 in *. split; [|exact Hb].
  intros n Hn. destruct (Ha n Hn) as [Hin Hnone]. split; [|done]. apply elem_of_sort_strings, list_elem_of_omap in Hin as ([[h x] v] & Hx%elem_of_map_to_list & Hv).
  destruct ((h =? host) && String.eqb (vSlug v) slug) eqn:E; [|done]. apply andb_true_iff in E as [->%Z.eqb_eq Es%String.eqb_eq].
  injection Hv as ->. by exists v.
Qed.

(** Two slugs that agree on their first forty characters name the same volumes. *)
Lemma sanitize_long a b c : ToLower (a +:+ b) = a +:+ b -> ToLower (a +:+ c) = a +:+ c -> String.length a = 40%nat ->
  forallb repo_char (bytes (a +:+ b)) = true -> forallb repo_char (bytes (a +:+ c)) = true -> b <> "" -> c <> "" ->
  sanitizeVolumeSlug (a +:+ b) = sanitizeVolumeSlug (a +:+ c).
Proof.
  assert (forall s, forallb repo_char (bytes s) = true -> Trim seed_punct s = s) as Htrim.
  { intros s Hs. unfold Trim.
    assert (forall l, forallb repo_char l = true -> trim_set seed_punct l = l) as Ht.
    { intros [|x l]; [done|]. cbn [forallb trim_set]. intros [Hx _]%andb_true_iff. destruct (one_of (String x "") seed_punct) eqn:Ex; [|done].
      unfold one_of, seed_punct in Ex. cbn [existsb] in Ex. apply orb_true_iff in Ex as [Ex|Ex]; [|apply orb_true_iff in Ex as [Ex|Ex]; [|by rewrite orb_false_r in Ex; apply String.eqb_eq in Ex; injection Ex as ->]];
        apply String.eqb_eq in Ex; injection Ex as ->; done. }
    rewrite (Ht _ Hs), Ht, rev_involutive.
    - apply String.string_of_list_ascii_of_string.
    - apply forallb_forall. intros x Hx%in_rev. by eapply forallb_forall in Hs. }
  assert (forall s, forallb repo_char (bytes s) = true -> of_bytes (List.filter seed_char (bytes s)) = s) as Hfilter.
  { intros s Hs. unfold of_bytes. rewrite <- (String.string_of_list_ascii_of_string s) at 2. f_equal. unfold bytes in *.
    induction (String.list_ascii_of_string s) as [|x l IH]; [done|]. cbn [forallb] in Hs. apply andb_true_iff in Hs as [Hx Hl]. cbn [List.filter].
    unfold seed_char at 1. rewrite Hx. cbn [orb]. by rewrite IH. }
  intros Hb Hc Ha Rb Rc Nb Nc. unfold sanitizeVolumeSlug.
  assert (forall t, ToLower (a +:+ t) = a +:+ t -> forallb repo_char (bytes (a +:+ t)) = true -> t <> "" ->
    (let s := Trim seed_punct (of_bytes (List.filter seed_char (bytes (ToLower (a +:+ t))))) in
     if String.eqb s "" then "project" else if (40 <? String.length s)%nat then Trim seed_punct (stake 40 s) else s) = Trim seed_punct a) as Hone.
  { intros t Ht Hr Hn. cbv zeta. rewrite Ht, (Hfilter _ Hr), (Htrim _ Hr).
    assert (forall (u v : string), String.length (u +:+ v) = (String.length u + String.length v)%nat) as Hlen.
    { intros u v. induction u as [|d u IHu]; [done|]. change (String d u +:+ v) with (String d (u +:+ v)). simpl. by rewrite IHu. }
    assert (forall (u v : string), stake (String.length u) (u +:+ v) = u) as Htake.
    { intros u v. induction u as [|d u IHu]; [by destruct v|]. change (String d u +:+ v) with (String d (u +:+ v)). simpl. by rewrite IHu. }
    destruct (String.eqb (a +:+ t) "") eqn:E0; [apply String.eqb_eq in E0; by destruct a|].
    assert (40 <? String.length (a +:+ t) = true)%nat as ->; [|by rewrite <- Ha, Htake].
    apply Nat.ltb_lt. rewrite Hlen, Ha. destruct t; [done|simpl; lia]. }
  etransitivity; [by apply (Hone b)|symmetry; by apply (Hone c)].
Qed.

(** two projects on one host whose slugs agree on their first forty characters
    share the volume of a bind source both name: the second deploy writes over the
    first one's files. *)
Theorem long_slugs_share_volumes a b c rel : ToLower (a +:+ b) = a +:+ b -> ToLower (a +:+ c) = a +:+ c -> String.length a = 40%nat ->
  forallb repo_char (bytes (a +:+ b)) = true -> forallb repo_char (bytes (a +:+ c)) = true -> b <> "" -> c <> "" ->
  SeedVolumeName (a +:+ b) rel = SeedVolumeName (a +:+ c) rel.
Proof. intros. unfold SeedVolumeName. by rewrite (sanitize_long a b c). Qed.
End Removal.

(** ** Profiles *)
Lemma normalize_profiles_spec seen ps x : x ∈ normalize_profiles seen ps -> x ∉ seen /\ x <> "" /\ exists p, p ∈ ps /\ x = TrimSpace p.
Proof.
  revert seen. induction ps as [|p ps IH]; intros seen; [by intros ?%not_elem_of_nil|]. cbn [normalize_profiles].
  assert (forall y l, one_of y l = false -> y ∉ l) as Hno.
  { intros y l Hl Hy. assert (one_of y l = true); [|congruence]. apply existsb_exists. exists y. split; [by apply list_elem_of_In|apply String.eqb_refl]. }
  destruct (String.eqb (TrimSpace p) "" || one_of (TrimSpace p) seen) eqn:E.
  - intros Hx. destruct (IH seen Hx) as (? & ? & q & ? & ?). split; [done|]. split; [done|]. exists q. split; [by right|done].
  - apply orb_false_iff in E as [E0 E1]. apply String.eqb_neq in E0. intros [->|Hx]%elem_of_cons.
    + split; [by apply Hno|]. split; [done|]. exists p. split; [by left|done].
    + destruct (IH _ Hx) as (Hs & ? & q & ? & ?). split; [intros ?; apply Hs; by right|]. split; [done|]. exists q. split; [by right|done].
Qed.
Lemma normalize_profiles_once seen ps : NoDup (normalize_profiles seen ps).
Proof.
  revert seen. induction ps as [|p ps IH]; intros seen; [constructor|]. cbn [normalize_profiles]. case_match; [done|].
  apply NoDup_cons. split; [|done]. intros Hx%normalize_profiles_spec. apply (proj1 Hx). by left.
Qed.

(** ** Concrete inputs *)
(** A daemon that drops the connection at its [n]th call. *)
Definition demo_daemon (n : nat) : Daemon := {|
  vfail log _ := if (length log =? n)%nat then Some "connection lost" else None;
  untar f t := list_to_map t ∪ f;
  torn _ f := <[["half"] := NFile ""]> f;
  tar_size f := Z.of_nat (size f) |}.
Lemma demo_daemon_laws n : DaemonLaws (demo_daemon n).
Proof. split. intros f. simpl. by rewrite list_to_map_to_list, map_union_empty. Qed.

Definition demo_binds : list ProjectBind := [mkBind "web" "/data/p/conf" "/etc/app" true "conf" false; mkBind "db" "/data/p/init" "/init" false "init" false].
Definition demo_remote : Remote := mkRemote {[ (7, SeedVolumeName (TE := ascii_text) "shop" "conf") := mkVolume "shop" {[ ["old.ini"] := NFile "k=1" ]} ]} [].

(** The second copy fails half way: the first volume is rewritten, the second new. *)
Lemma undone_seed_leaves_nothing_witness : exists r1 snap r2 e r3,
  SnapshotSeedVolumes (TE := ascii_text) (D := demo_daemon 10) 7 "shop" demo_binds demo_remote = (r1, Ok snap) /\
  SeedProjectBinds (TE := ascii_text) (D := demo_daemon 10) 7 demo_folder "shop" demo_binds r1 = (r2, Err e) /\
  snapshot_Restore (D := demo_daemon 10) snap r2 = (r3, []) /\ size (vols r2) = 2%nat /\ vols r3 = vols demo_remote.
Proof.
  pose proof (demo_daemon_laws 10) as L.
  assert (match SnapshotSeedVolumes (TE := ascii_text) (D := demo_daemon 10) 7 "shop" demo_binds demo_remote with
          | (r1, Ok snap) => match SeedProjectBinds (TE := ascii_text) (D := demo_daemon 10) 7 demo_folder "shop" demo_binds r1 with
            | (r2, Err _) => match snapshot_Restore (D := demo_daemon 10) snap r2 with (_, []) => Nat.eqb (size (vols r2)) 2 | _ => false end
            | _ => false end
          | _ => false end = true) as H by (vm_compute; reflexivity).
  destruct (SnapshotSeedVolumes 7 "shop" demo_binds demo_remote) as [r1 [snap|e]] eqn:H1; [|done].
  destruct (SeedProjectBinds 7 demo_folder "shop" demo_binds r1) as [r2 [[]|e]] eqn:H2; [done|].
  destruct (snapshot_Restore snap r2) as [r3 [|e' errs]] eqn:H3; [|done]. apply Nat.eqb_eq in H.
  exists r1, snap, r2, e, r3. split; [done|]. split; [done|]. split; [done|]. split; [done|].
  exact (undone_seed_leaves_nothing (TE := ascii_text) (D := demo_daemon 10) 7 demo_folder "shop" demo_binds demo_remote r1 snap r2 (Err e) r3 H1 H2 H3).
Defined.

Definition demo_cfg : gmap string (list MountDoc) :=
  {["web" := [mkMount "bind" "/data/p/conf" "/etc/app" true; mkMount "bind" "/data/p/link/x" "/x" false; mkMount "volume" "data" "/d" false]]}.
(** [link] points out of the folder; [conf] is not there yet. *)
Definition demo_links (p : string) : result FSErr string :=
  if String.eqb p "/data/p/link" then Ok "/etc" else if one_of p ["/"; "/data"; "/data/p"] then Ok p else Err ENotExist.

Lemma binds_classified_witness : exists int ext, ClassifyProjectBinds demo_links (fun _ => false) "/" (Some demo_cfg) "/data/p" = Some (int, ext) /\
  pbSource <$> int = ["/data/p/conf"] /\ pbSource <$> ext = ["/data/p/link/x"] /\
  (forall b, b ∈ ext -> exists root, demo_links "/data/p" = Ok root /\ forall r, ~ lies_in demo_links "/" root (pbSource b) r).
Proof.
  destruct (ClassifyProjectBinds demo_links (fun _ => false) "/" (Some demo_cfg) "/data/p") as [[int ext]|] eqn:H; [|vm_compute in H; discriminate H].
  exists int, ext. split; [done|]. split; [vm_compute in H; by injection H as <- <-|]. split; [vm_compute in H; by injection H as <- <-|].
  assert (forall p r, IsAbs p = true -> demo_links p = Ok r -> IsAbs r = true /\ Clean r = r) as Hl.
  { intros p r _. unfold demo_links. destruct (String.eqb p "/data/p/link"); [intros [= <-]; split; vm_compute; reflexivity|]. destruct (one_of p _) eqn:Ep; [|discriminate 1]. intros [= <-].
    apply existsb_exists in Ep as (x & Hx & ->%String.eqb_eq). destruct Hx as [<-|[<-|[<-|[]]]]; split; vm_compute; reflexivity. }
  destruct (binds_classified demo_links (fun _ => false) "/" Hl demo_cfg "/data/p" int ext eq_refl H) as (root & Hr & _ & Hx).
  intros b Hb. exists root. split; [done|]. apply Hx in Hb as (ms & m & _ & _ & _ & -> & Hn). exact Hn.
Defined.

Definition forty : string := "aaaaaaaaaabbbbbbbbbbccccccccccdddddddddd".
Lemma long_slugs_share_volumes_witness :
  SeedVolumeName (TE := ascii_text) (forty +:+ "1") "conf" = SeedVolumeName (TE := ascii_text) (forty +:+ "2") "conf".
Proof. exact (long_slugs_share_volumes (TE := ascii_text) forty "1" "2" "conf" eq_refl eq_refl eq_refl eq_refl eq_refl ltac:(done) ltac:(done)). Defined.
