(* ===== verification/Projects.v ===== *)
(** * The projects' routes: state, helpers, deploys and restores (internal/api/project_handlers.go,
      project_revisions_handlers.go, project_oplock.go, project_secret_env.go, mcp_projects.go)

    What a request does to the tables, the folders, the snapshots, the volumes on the
    hosts and the daemons, over the tables of [ProjectStore], the folders of [Sandbox],
    the volumes of [Binds], the comparison of [Preview] and the gate of [Policy]. The
    compose CLI, Docker's answers and the disk's failures are parameters. *)
From S2P Require Import Prelude GoStrings Users Roles Access Calendar Maintenance MaintenanceHandlers Paths Compose Policy Preview Sandbox ProjectStore Binds.

Definition quoted (s : string) : string := String (Ascii.ascii_of_nat 34) (s +:+ String (Ascii.ascii_of_nat 34) "").
Definition newline : string := String (Ascii.ascii_of_nat 10) "".

(** ** What the CLI is asked to do *)
(** A `-f` file: one of the project's, or a temporary one by its content. *)
Inductive ComposeFile := FProject (name : string) | FOverride (o : Override) | FPin (text : string).
Record UpCall := mkUp {
  upDir : string; upFolder : Folder; upSlug : string; upProfiles : list string; upEnv : list string; upFiles : list ComposeFile; upBuild : bool; upPull : bool
}.
Inductive Effect :=
  | FxUp (u : UpCall) (ok : bool)
  | FxDown (dir slug : string) (env : list string) (ok : bool)
  | FxRestart (dir slug : string) (env : list string) (ok : bool).
Record Stack := mkStack { stProject : string; stContainers : list StackContainer }.

(** What can fail on the disk. *)
Inductive IoOp :=
  | IoMkRoot | IoSeedFiles | IoRemoveRoot | IoRemoveRevs | IoMkStaging | IoTempOverride | IoTempPin | IoToBackup | IoActivate | IoFromBackup
  | IoMkRevDir | IoZip | IoWriteZip | IoPublishZip | IoReadZip | IoOverlay | IoWalk.

Class Engine := {
  dataDir : string; tmpDir : string; workDir : string; clock : Z; deploySilenceGrace : Z;
  store_fault : PQuery -> bool; win_fault : WQuery -> bool; io_fault : IoOp -> bool;
  host_by_id : Z -> result StoreErr Host; local_host_id : result StoreErr Z; resolve_host : Z -> result string Z;
  tls_dir : Host -> option string;
  (** AllRegistryAuths and ComposeRegistryEnv: environment and warnings *)
  registry_env : result string (list string * list string);
  policy_fault : bool; policy_rules : policy_row;
  compose_available : bool;
  (** `docker compose config` on a folder found at a path: slug, profiles, environment, files *)
  config_json : string -> Folder -> string -> list string -> list string -> list ComposeFile -> result string string;
  (** the same without a format: the output and, when it fails, the error *)
  config_check : string -> Folder -> string -> list string -> string * option string;
  decode_doc : string -> option composeConfigDoc;
  decode_binds : string -> option (gmap string (list MountDoc));
  stat_regular : Folder -> string -> bool;
  compose_up : list Effect -> UpCall -> string * option string;
  compose_down : list Effect -> string -> Folder -> string -> list string -> string * option string;
  compose_restart : list Effect -> string -> Folder -> string -> list string -> string * option string;
  list_stacks : list Effect -> Z -> option (list Stack);
  running_digest : list Effect -> Z -> string -> string -> option string;
  remote_digest : string -> option string;
  inspect_service : list Effect -> Z -> string -> option ServiceSpec;
  nfd : string -> list Z; is_mn : Z -> bool;
  looks_binary : string -> bool
}.

(** ** State *)
Record World := mkWorld {
  xDB : PDB; xDirs : gmap string Folder; xZips : gmap (Z * Z) (list ZipEntry); xRemote : Remote; xFx : list Effect;
  xAudit : list AuditLine; xWins : Windows; xOps : gmap Z string
}.
Definition set_db (d : PDB) (w : World) : World := mkWorld d (xDirs w) (xZips w) (xRemote w) (xFx w) (xAudit w) (xWins w) (xOps w).
Definition set_dirs (f : gmap string Folder -> gmap string Folder) (w : World) : World :=
  mkWorld (xDB w) (f (xDirs w)) (xZips w) (xRemote w) (xFx w) (xAudit w) (xWins w) (xOps w).
Definition set_zips (f : gmap (Z * Z) (list ZipEntry) -> gmap (Z * Z) (list ZipEntry)) (w : World) : World :=
  mkWorld (xDB w) (xDirs w) (f (xZips w)) (xRemote w) (xFx w) (xAudit w) (xWins w) (xOps w).
Definition set_remote (r : Remote) (w : World) : World := mkWorld (xDB w) (xDirs w) (xZips w) r (xFx w) (xAudit w) (xWins w) (xOps w).
Definition add_fx (e : Effect) (w : World) : World := mkWorld (xDB w) (xDirs w) (xZips w) (xRemote w) (xFx w ++ [e]) (xAudit w) (xWins w) (xOps w).
Definition add_audit (l : AuditLine) (w : World) : World := mkWorld (xDB w) (xDirs w) (xZips w) (xRemote w) (xFx w) (xAudit w ++ [l]) (xWins w) (xOps w).
Definition set_wins (t : Windows) (w : World) : World := mkWorld (xDB w) (xDirs w) (xZips w) (xRemote w) (xFx w) (xAudit w) t (xOps w).
Definition set_ops (f : gmap Z string -> gmap Z string) (w : World) : World :=
  mkWorld (xDB w) (xDirs w) (xZips w) (xRemote w) (xFx w) (xAudit w) (xWins w) (f (xOps w)).

Record teardownResult := mkTorn { tdOutput : string; tdRemoved : list string; tdErr : option string }.
Record ProjectPreview := mkPPreview { ppError : option string; ppName : string; ppPreview : DeployPreview; ppActive : Z }.
(** What a handler answers; [PFail] is the 200 that reports a failed command. *)
Inductive PReply :=
  | PErr (status : Z) (msg : string)
  | PFail (msg output : string)
  | PPolicy (r : PolicyReply)
  | POk
  | PMade (id : Z) (slug : string) (files : nat)
  | PRan (output note : string)
  | PRemoved (volumes : list string) (err : option string)
  | PRenamed (t : option teardownResult)
  | PProjects (ps : list (Project * string)) | PProject (p : Project) (host : string)
  | PVolumes (names : list string) (err : option string) | PProfiles (names : list string) (err : option string)
  | PChecked (level output : string)
  | PFiles (l : list (list string * Listed)) | PFile (data : string) | PZip (l : list ZipEntry)
  | PValid (out : string) | PInvalid (msg : string) | PUnavailable | PConfig (out : string)
  | PPreviewed (p : ProjectPreview)
  | PRevisions (l : list ProjectRevision) | PRevision (r : ProjectRevision)
  | PSecrets (l : list (Z * string * string)) | PSecretMade (id : Z).

Notation HM A := (stM World PReply A).

Section Projects.
Context `{GS : GrantStore} `{C : Cipher} `{TE : TextEnv} `{Ln : Links} `{D : Daemon} `{En : Engine}.
(** The caller, from auth.ClaimsFrom, and the request with its route's project id. *)
Variables (claims : option (Z * string)) (req : Request) (rawID : string).

Definition step {E A} (f : World -> World * result E A) : stM World E A := f.
Definition answer {A} (r : PReply) : HM A := st_fail r.
(** An error answered with a status. *)
Definition or_answer {E A} (f : E -> PReply) (m : stM World E A) : HM A := fun w =>
  match m w with (w, Ok a) => (w, Ok a) | (w, Err e) => (w, Err (f e)) end.
Definition lift {E A} (r : result E A) : stM World E A := fun w => (w, r).
Definition pdb {A} (m : stM PDB StoreErr A) : stM World StoreErr A := fun w => let '(d, r) := m (xDB w) in (set_db d w, r).
Definition pread {A} (f : PDB -> result StoreErr A) : stM World StoreErr A := fun w => (w, f (xDB w)).
(** A statement whose error is logged and forgotten. *)
Definition best_effort (m : stM PDB StoreErr ()) (w : World) : World := set_db (m (xDB w)).1 w.
Definition internal (e : StoreErr) : PReply := PErr 500 (db_text e).
Definition on_remote {A} (m : stM Remote string A) : stM World string A := fun w => let '(r, x) := m (xRemote w) in (set_remote r w, x).

Definition currentUsername : string := match claims with Some (_, n) => n | None => "" end.
Definition projectRoot (id : Z) : string := path_Join [dataDir; "projects"; FormatInt id].
Definition dir_of (d : string) (w : World) : Folder := default ∅ (xDirs w !! d).

(** ** Audit (server.go) *)
Definition daemonHost (host : Z) : Z := if 0 <? host then host else match local_host_id with Ok id => id | Err _ => 0 end.
Definition audit_on (host : Z) (action target detail : string) : World -> World := add_audit (mkAudit host action target detail).
Definition auditProject (p : Project) (action detail : string) : World -> World := audit_on (daemonHost (pHostID p)) action (pSlug p) detail.
Definition audit_m {E} (p : Project) (action detail : string) : stM World E () := st_mod (auditProject p action detail).

(** ** Authority *)
Definition caller : result string User :=
  match claims with
  | None => Err "unauthorized"
  | Some (uid, _) => match gsUserByID uid with Ok u => Ok u | Err _ => Err "unauthorized" end
  end.
(** [None] is the nil error. *)
Definition requireHostAccess (host : Z) : option string :=
  if host =? 0 then None
  else match caller with
       | Err e => Some e
       | Ok u =>
           match checkAccess u "hosts" false host with
           | Some _ => Some ("deploying to a remote host requires the " +:+ quoted "hosts" +:+ " permission")
           | None => checkAccess u "projects" (isWriteRequest req) host
           end
       end.
Definition requireSectionOnHost (section : string) (write : bool) (host : Z) : option string :=
  match caller with Err e => Some e | Ok u => checkAccess u section write host end.
Definition requireHostsPermission (host : Z) : option string :=
  match caller with
  | Err e => Some e
  | Ok u => match checkAccess u "hosts" true host with
            | Some _ => Some ("allowing host paths on a remote deploy requires write access to the " +:+ quoted "hosts" +:+ " section")
            | None => None
            end
  end.
Definition demand (status : Z) (e : option string) : HM () := match e with Some msg => answer (PErr status msg) | None => mret tt end.

Definition loadProject : HM Project :=
  match ParseInt rawID with
  | None => answer (PErr 400 "invalid project id")
  | Some id =>
      p ← or_answer (fun e => match e with ErrNotFound => PErr 404 "project not found" | _ => internal e end) (pread (ProjectByID store_fault id));
      match requireSectionOnHost "projects" false (pHostID p) with
      | Some _ => answer (PErr 404 "project not found")
      | None =>
          if isWriteRequest req then
            match requireSectionOnHost "projects" true (pHostID p) with
            | Some _ => answer (PErr 403 "read-only")
            | None => mret p
            end
          else mret p
      end
  end.

(** ** One operation at a time (project_oplock.go) *)
Definition errProjectBusy (busy : string) : string := "this project is busy (" +:+ busy +:+ " is running); try again when it finishes".
Definition beginProjectOp (id : Z) (what : string) (w : World) : World + string :=
  match xOps w !! id with Some busy => inr busy | None => inl (set_ops (<[id := what]>) w) end.
Definition release_op (id : Z) : World -> World := set_ops (delete id).
(** An operation that holds the project and releases it on every way out. *)
Definition holding {E A} (id : Z) (what : string) (refuse : string -> E) (m : stM World E A) : stM World E A := fun w =>
  match beginProjectOp id what w with
  | inr busy => (w, Err (refuse (errProjectBusy busy)))
  | inl w => let '(w, r) := m w in (release_op id w, r)
  end.
Definition projectOpOrConflict {A} (id : Z) (what : string) (m : HM A) : HM A := holding id what (PErr 409) m.

(** The project that deploys a stack on a host (stack_handlers.go). *)
Definition stackProject (host : Z) (stack : string) (d : PDB) : result string (option Project) :=
  match ListProjects store_fault d with
  | Err e => Err (db_text e)
  | Ok ps =>
      h ← resolve_host host;
      Ok (List.find (fun p => String.eqb (pSlug p) stack && match resolve_host (pHostID p) with Ok ph => ph =? h | Err _ => false end) ps)
  end.
Definition managedByProject (host : Z) (stack : string) (d : PDB) : string :=
  match stackProject host stack d with
  | Err _ => "could not check whether a project owns this stack"
  | Ok (Some p) => "this stack belongs to the project " +:+ Quote (pName p) +:+ "; edit and deploy it in Projects"
  | Ok None => ""
  end.
(** beginStackOp around what the stack's handler does *)
Definition with_stack_op {A} (host : Z) (stack what : string) (m : stM World string A) : stM World string A := fun w =>
  match stackProject host stack (xDB w) with
  | Err e => (w, Err ("could not check whether a project owns this stack: " +:+ e))
  | Ok None => m w
  | Ok (Some p) => holding (pID p) what id m w
  end.

(** ** Secrets in the environment (project_secret_env.go) *)
(** The real assignments, the masked ones and the bare values, in the map's order. *)
Definition projectSecretEnvs (project : Z) (d : PDB) : result StoreErr (list string * list string * list string) :=
  names ← ListProjectSecrets store_fault project d;
  match names with
  | [] => Ok ([], [], [])
  | _ =>
      m ← ResolveProjectSecretEnv store_fault project d;
      let kvs := map_to_list m in
      Ok ((fun kv => kv.1 +:+ "=" +:+ kv.2) <$> kvs, (fun kv => kv.1 +:+ "=" +:+ MaskSecretValue kv.2) <$> kvs, kvs.*2)
  end.
Definition mask_value (values : list string) (v : string) : string :=
  if existsb (fun sv => negb (String.eqb sv "") && Contains v sv) values then MaskSecretValue v else v.
Definition mask_spec (values : list string) (s : ServiceSpec) : ServiceSpec :=
  mkSpec (sName s) (sImage s) (Detailed s) (mask_value values <$> sEnv s) (sPorts s) (sVolumes s) (sNetworks s) (sRestart s) (CPULimit s) (MemoryLimit s) (sHealth s).
Definition maskLiveSecrets (specs : list ServiceSpec) (values : list string) : list ServiceSpec :=
  match values with [] => specs | _ => mask_spec values <$> specs end.

(** ** The host a project runs on *)
Definition validateHostID (id : Z) : option string :=
  if id =? 0 then None
  else match host_by_id id with Err _ => Some "unknown host" | Ok h => if hDisabled h then Some "that host is disabled" else None end.
Definition projectHost (host : Z) : result string (option Host) :=
  if host =? 0 then Ok None
  else match host_by_id host with
       | Err ErrNotFound => Err "the project's target host no longer exists — set one in the project settings"
       | Err e => Err (db_text e)
       | Ok h => if hDisabled h then Err ("host " +:+ Quote (hName h) +:+ " is disabled") else Ok (Some h)
       end.
Definition host_env (h : option Host) : result string (list string) :=
  match h with None => Ok [] | Some h => ComposeHostEnv (tls_dir h) h end.
Definition secret_envs (project : Z) (d : PDB) : result string (list string * list string * list string) :=
  match projectSecretEnvs project d with Ok r => Ok r | Err e => Err (db_text e) end.

(** Host and masked secrets: what a parse or a teardown needs. *)
Definition projectComposeEnv (p : Project) (d : PDB) : result string (list string) :=
  h ← projectHost (pHostID p);
  env ← host_env h;
  s ← secret_envs (pID p) d;
  Ok (env ++ s.1.2).

(** ** What a deploy is run with *)
Definition joinBinds (binds : list ProjectBind) : string := Join (bind_String <$> binds) "; ".
Fixpoint unique_rels (seen : list string) (binds : list ProjectBind) : list string :=
  match binds with
  | [] => []
  | b :: binds => if one_of (pbRel b) seen then unique_rels seen binds else pbRel b :: unique_rels (pbRel b :: seen) binds
  end.
Definition uniqueRels (binds : list ProjectBind) : list string := unique_rels [] binds.
Definition remoteBindNote (copied passed : list ProjectBind) : string :=
  Join ((match copied with
         | [] => []
         | _ => ["Copied " +:+ FormatInt (Z.of_nat (length (uniqueRels copied))) +:+ " bind-mounted path(s) to volumes on the remote host: "
                 +:+ Join (uniqueRels copied) ", " +:+ ". This is a snapshot taken now, not a live mount — edits to the project files need a redeploy, and writes inside the container stay on the remote host."]
         end)
        ++ (match passed with
            | [] => []
            | _ => ["WARNING: " +:+ FormatInt (Z.of_nat (length passed)) +:+ " bind mount(s) point outside the project folder and were mounted from the REMOTE host's own filesystem, because this project allows host paths: "
                    +:+ joinBinds passed +:+ ". Their contents are whatever exists on that host — nothing was copied."]
            end)) (newline +:+ newline).

Record projectSeed := mkSeed { psHost : Z; psHostName : string; psSlug : string; psDir : string; psBinds : list ProjectBind }.
Record DeployEnv := mkDEnv { deEnv : list string; deFiles : list ComposeFile; deNote : string; deSeed : option projectSeed }.

Definition is_local_kind (h : option Host) : bool :=
  match h with None => true | Some h => String.eqb (hKind h) "" || String.eqb (hKind h) "local" end.

(** [dir] is where the files to deploy are, the project's folder or a staging copy. *)
Definition projectDeployEnvBase (p : Project) (dir : string) (profiles : list string) (w : World) : result string DeployEnv :=
  h ← projectHost (pHostID p);
  if is_local_kind h then
    env ← projectComposeEnv p (xDB w);
    Ok (mkDEnv env [] "" None)
  else
    s ← secret_envs (pID p) (xDB w);
    match config_json dir (dir_of dir w) (pSlug p) profiles s.1.2 [] with
    | Err e => Err ("cannot validate the compose file for remote deploy: " +:+ e)
    | Ok cfg =>
        match ClassifyProjectBinds (eval_symlinks (dir_of dir w)) (stat_regular (dir_of dir w)) workDir (decode_binds cfg) dir with
        | None => Err "cannot inspect the project's bind mounts"
        | Some (internal_, external) =>
            if declares external && negb (AllowRemoteHostPaths p)
            then Err ("remote deploy to " +:+ Quote (default "" (hName <$> h)) +:+ " refuses bind mounts from outside the project folder, because they would mount paths on the remote host: "
                      +:+ joinBinds external +:+ " — enable " +:+ quoted "allow host paths" +:+ " in the project's settings if that is intended")
            else
              env ← host_env h;
              match internal_ with
              | [] => Ok (mkDEnv env [] (remoteBindNote [] external) None)
              | _ =>
                  if io_fault IoTempOverride then Err "could not write the override"
                  else Ok (mkDEnv env [FProject (pComposeFile p); FOverride (BindOverrideJSON (pSlug p) internal_)] (remoteBindNote internal_ external)
                             (Some (mkSeed (pHostID p) (default "" (hName <$> h)) (pSlug p) dir internal_)))
              end
        end
    end.

(** With the secrets' real values and the stored registries. *)
Definition projectDeployEnv (p : Project) (dir : string) (profiles : list string) (w : World) : result string DeployEnv :=
  b ← projectDeployEnvBase p dir profiles w;
  s ← secret_envs (pID p) (xDB w);
  reg ← registry_env;
  Ok (mkDEnv (deEnv b ++ s.1.1 ++ reg.1) (deFiles b)
        (Join ((if String.eqb (deNote b) "" then [] else [deNote b]) ++ reg.2) newline) (deSeed b)).

(** The seed copies what the folder holds when it runs. *)
Definition seed_Run (s : projectSeed) : stM World string () := fun w =>
  match on_remote (SeedProjectBinds (psHost s) (dir_of (psDir s) w) (psSlug s) (psBinds s)) w with
  | (w, Err e) => (w, Err ("copying the project files to " +:+ Quote (psHostName s) +:+ " failed: " +:+ e))
  | r => r
  end.
Definition run_seed (s : option projectSeed) : stM World string () := match s with None => mret tt | Some s => seed_Run s end.
(** Saves the volumes, then seeds; a failed seed is undone at once. *)
Definition seed_RunUndoable (s : projectSeed) : stM World string SeedSnapshot := fun w =>
  match on_remote (SnapshotSeedVolumes (psHost s) (psSlug s) (psBinds s)) w with
  | (w, Err e) => (w, Err ("saving the volumes on " +:+ Quote (psHostName s) +:+ " before the restore failed, nothing was changed: " +:+ e))
  | (w, Ok snap) =>
      match seed_Run s w with
      | (w, Err e) =>
          let '(r, errs) := snapshot_Restore snap (xRemote w) in
          (set_remote r w, Err (e +:+ match errs with [] => "; the volumes were put back" | _ => "; putting the volumes back also failed: " +:+ Join errs newline end))
      | (w, Ok _) => (w, Ok snap)
      end
  end.

(** ** Policy *)
Definition resolve_policy (dir : string) (slug : string) (profiles env : list string) (files : list ComposeFile) (w : World) : option (option composeConfigDoc) :=
  match config_json dir (dir_of dir w) slug profiles env files with Ok j => Some (decode_doc j) | Err _ => None end.
Definition deploy_verdict (dir slug : string) (profiles env : list string) (files : list ComposeFile) (w : World) :
    result PolicyErr (list PolicyViolation * list PolicyViolation) :=
  evaluateDeployPolicy policy_fault policy_rules (resolve_policy dir slug profiles env files w).
Definition policy_check (p : Project) (dir : string) (profiles env : list string) (files : list ComposeFile) (confirmed : bool) (kind : string) : HM () := fun w =>
  let '(lines, refused) := policyCheckOrRefuse (deploy_verdict dir (pSlug p) profiles env files w) confirmed kind in
  let w := foldl (fun w l => auditProject p l.1 l.2 w) w lines in
  match refused with Some r => (w, Err (PPolicy r)) | None => (w, Ok tt) end.

(** ** Running compose *)
Definition ComposeUp (dir slug : string) (profiles env : list string) (files : list ComposeFile) (build pull : bool) (w : World) : World * (string * option string) :=
  let u := mkUp dir (dir_of dir w) slug profiles env files build pull in
  let '(out, err) := compose_up (xFx w) u in
  (add_fx (FxUp u (match err with None => true | _ => false end)) w, (out, err)).
Definition ComposeDown (dir slug : string) (env : list string) (w : World) : World * (string * option string) :=
  let '(out, err) := compose_down (xFx w) dir (dir_of dir w) slug env in
  (add_fx (FxDown dir slug env (match err with None => true | _ => false end)) w, (out, err)).
Definition ComposeRestart (dir slug : string) (env : list string) (w : World) : World * (string * option string) :=
  let '(out, err) := compose_restart (xFx w) dir (dir_of dir w) slug env in
  (add_fx (FxRestart dir slug env (match err with None => true | _ => false end)) w, (out, err)).
Definition no_compose : string := "the docker compose CLI is not available on the host running Docker Commander".
Definition need_compose : HM () := if compose_available then mret tt else answer (PErr 412 no_compose).

(** ** Revisions *)
Definition stack_containers (host : Z) (slug : string) (w : World) : list StackContainer :=
  match list_stacks (xFx w) host with
  | None => []
  | Some stacks => default [] (stContainers <$> List.find (fun st => String.eqb (stProject st) slug) stacks)
  end.
Definition captureRevisionImages (p : Project) (w : World) : list RevisionImage :=
  (fun c => mkRImage (scService c) (scImage c) (default "" (running_digest (xFx w) (pHostID p) (scID c) (scImage c))))
    <$> first_per_service ∅ (stack_containers (pHostID p) (pSlug p) w).

Definition failRevisionCapture (id : Z) (msg : string) : World -> World := best_effort (SetRevisionValid store_fault id false msg).
(** The snapshot of an inserted revision: written beside its place and renamed into it. *)
Definition publish_snapshot (p : Project) (id n : Z) (w : World) : World :=
  if io_fault IoMkRevDir then failRevisionCapture id "create snapshot dir" w
  else match xDirs w !! projectRoot (pID p) with
       | None => failRevisionCapture id "build snapshot" w
       | Some f =>
           if io_fault IoZip then failRevisionCapture id "build snapshot" w
           else if io_fault IoWriteZip then failRevisionCapture id "write snapshot" w
           else if io_fault IoPublishZip then failRevisionCapture id "publish snapshot" w
           else best_effort (SetRevisionValid store_fault id true "") (set_zips (<[(pID p, n) := zipDir f]>) w)
       end.
Definition captureRevision (p : Project) (profiles : list string) (output reason : string) (w : World) : World :=
  let rev := mkRevision 0 (pID p) 0 (pHostID p) profiles (captureRevisionImages p w) false "snapshot capture in progress" output currentUsername reason 0 in
  match CreateRevision store_fault rev clock (xDB w) with
  | (d, Err _) => set_db d w
  | (d, Ok (id, n)) => publish_snapshot p id n (best_effort (ClearDriftIgnores store_fault (pID p)) (set_db d w))
  end.

Definition autoSilenceForDeploy (p : Project) (w : World) : World :=
  if deploySilenceGrace <=? 0 then w
  else set_wins (CreateMaintenanceWindow win_fault
         (mkWin 0 ("auto: " +:+ pName p +:+ " deploy") "automatic grace period after a deploy" 0 [gsNormalizeHostID (pHostID p)] (pSlug p) "" None [] false
            clock (clock + deploySilenceGrace) [] "" 0 "" false 0) clock (xWins w)).1 w.

(** ** Deploy *)
Record deployBody := mkDeploy { dbProfiles : list string; dbBuild : option bool; dbReason : string; dbPull : bool; dbConfirm : bool }.
Definition no_deploy_body : deployBody := mkDeploy [] None "" false false.

Definition from_world {A} (f : World -> result string A) (status : Z) : HM A := or_answer (PErr status) (fun w => (w, f w)).

Definition handleDeployProject (body : option deployBody) : HM PReply :=
  p ← loadProject;
  projectOpOrConflict (pID p) "a deploy" (
    _ ← need_compose;
    _ ← demand 403 (requireHostAccess (pHostID p));
    let body := default no_deploy_body body in
    let profiles := NormalizeProfiles (dbProfiles body) in
    let build := match dbBuild body with None => true | Some b => b end in
    let dir := projectRoot (pID p) in
    e ← from_world (projectDeployEnv p dir profiles) 400;
    _ ← policy_check p dir profiles (deEnv e) (deFiles e) (dbConfirm body) policyKindDeploy;
    _ ← or_answer (PErr 400) (run_seed (deSeed e));
    ran ← (fun w => let '(w, r) := ComposeUp dir (pSlug p) profiles (deEnv e) (deFiles e) build (dbPull body) w in (w, Ok r));
    match ran.2 with
    | Some err => answer (PFail err ran.1)
    | None =>
        _ ← st_mod (best_effort (SetLastDeployedProfiles store_fault (pID p) profiles clock));
        _ ← st_mod (captureRevision p profiles ran.1 (dbReason body));
        _ ← audit_m p "project.deploy" (Join profiles ",");
        _ ← st_mod (autoSilenceForDeploy p);
        mret (PRan ran.1 (deNote e))
    end).

(** ** Teardown, down and restart *)
Definition tearDownOnHost (p : Project) (host : Z) : stM World string teardownResult := fun w =>
  if negb compose_available then (w, Err no_compose)
  else match requireHostAccess host with
  | Some e => (w, Err e)
  | None =>
      let onHost := mkProject (pID p) (pName p) (pSlug p) (pComposeFile p) host (AllowRemoteHostPaths p) (LastDeployedProfiles p) (pCreatedBy p) (pCreatedAt p) (pUpdatedAt p) in
      match projectComposeEnv onHost (xDB w) with
      | Err e => (w, Err e)
      | Ok env =>
          match ComposeDown (projectRoot (pID p)) (pSlug p) env w with
          | (w, (out, Some err)) => (w, Err (TrimSpace out +:+ ": " +:+ err))
          | (w, (out, None)) =>
              let w := audit_on (daemonHost host) "project.down" (pSlug p) ("retarget from host " +:+ FormatInt host) w in
              if host =? 0 then (w, Ok (mkTorn out [] None))
              else
                let '(r, (removed, err)) := RemoveSeedVolumes host (pSlug p) (xRemote w) in
                let w := set_remote r w in
                (if declares removed then auditProject p "project.seed_volumes.remove" (Join removed ",") w else w, Ok (mkTorn out removed err))
          end
      end
  end.

Definition runProjectCompose (run : string -> string -> list string -> World -> World * (string * option string)) (action : string) : HM PReply :=
  p ← loadProject;
  projectOpOrConflict (pID p) ("a " +:+ action) (
    _ ← need_compose;
    _ ← demand 403 (requireHostAccess (pHostID p));
    env ← from_world (fun w => projectComposeEnv p (xDB w)) 400;
    ran ← (fun w => let '(w, r) := run (projectRoot (pID p)) (pSlug p) env w in (w, Ok r));
    match ran.2 with
    | Some err => answer (PFail err ran.1)
    | None => _ ← audit_m p ("project." +:+ action) ""; mret (PRan ran.1 "")
    end).
Definition handleDownProject : HM PReply := runProjectCompose ComposeDown "down".
Definition handleRestartProject : HM PReply := runProjectCompose ComposeRestart "restart".

(** ** Settings *)
Record renameBody := mkRename { rnName : string; rnHost : Z; rnAllow : bool; rnTearDown : bool }.
Definition boolWord (b : bool) : string := if b then "enabled" else "disabled".
Definition bad_body {A} : HM A := answer (PErr 400 "invalid body").
Definition body_of {A} (b : option A) : HM A := match b with Some b => mret b | None => bad_body end.

Definition handleRenameProject (body : option renameBody) : HM PReply :=
  p ← loadProject;
  projectOpOrConflict (pID p) "a settings change" (
    b ← body_of body;
    let name := TrimSpace (rnName b) in
    _ ← (if String.eqb name "" then answer (PErr 400 "name is required") else mret tt);
    _ ← demand 400 (validateHostID (rnHost b));
    _ ← demand 403 (requireHostAccess (rnHost b));
    _ ← demand 403 (if rnAllow b && negb (AllowRemoteHostPaths p) then requireHostsPermission (rnHost b) else None);
    t ← (if rnTearDown b && negb (rnHost b =? pHostID p)
         then _ ← demand 403 (requireHostAccess (pHostID p));
              t ← or_answer (fun e => PErr 502 ("could not bring the project down on its current host, so it was NOT moved: " +:+ e)) (tearDownOnHost p (pHostID p));
              mret (Some t)
         else mret None);
    _ ← or_answer internal (pdb (UpdateProjectSettings store_fault (pID p) name (rnHost b) (rnAllow b) clock));
    let moved := mkProject (pID p) (pName p) (pSlug p) (pComposeFile p) (rnHost b) (AllowRemoteHostPaths p) (LastDeployedProfiles p) (pCreatedBy p) (pCreatedAt p) (pUpdatedAt p) in
    _ ← audit_m moved "project.rename" name;
    _ ← (if rnHost b =? pHostID p then mret tt
         else audit_m moved "project.retarget" ("host " +:+ FormatInt (pHostID p) +:+ " → " +:+ FormatInt (rnHost b)
                +:+ match t with Some _ => " (old host torn down)" | None => " (old host left running)" end));
    _ ← (if Bool.eqb (rnAllow b) (AllowRemoteHostPaths p) then mret tt else audit_m moved "project.remote_host_paths" (boolWord (rnAllow b)));
    mret (PRenamed t)).

(** ** Deletion *)
Definition projectDeployed (slug : string) (host : Z) (w : World) : bool :=
  match list_stacks (xFx w) host with None => false | Some stacks => existsb (fun st => String.eqb (stProject st) slug) stacks end.
Definition remove_dir (op : IoOp) (d : string) (msg : string) : HM () := fun w =>
  if io_fault op then (w, Err (PErr 500 msg)) else (set_dirs (delete d) w, Ok tt).
Definition remove_zips (project : Z) : HM () := fun w =>
  if io_fault IoRemoveRevs then (w, Err (PErr 500 "could not remove revision snapshots"))
  else (set_zips (filter (fun kv => kv.1.1 <> project)) w, Ok tt).

Definition force_down (p : Project) (force : bool) : HM () :=
  if negb force then answer (PErr 409 "project is deployed — bring it down first (or force)")
  else
    _ ← demand 403 (requireHostAccess (pHostID p));
    env ← from_world (fun w => projectComposeEnv p (xDB w)) 400;
    ran ← (fun w => let '(w, r) := ComposeDown (projectRoot (pID p)) (pSlug p) env w in (w, Ok r));
    match ran.2 with
    | Some err => answer (PFail ("compose down failed: " +:+ err) ran.1)
    | None => audit_m p "project.down" "force-delete"
    end.
Definition drop_volumes (p : Project) : HM (list string * option string) :=
  _ ← demand 403 (requireHostAccess (pHostID p));
  r ← (fun w => let '(r, x) := RemoveSeedVolumes (pHostID p) (pSlug p) (xRemote w) in (set_remote r w, Ok x));
  _ ← (if declares r.1 then audit_m p "project.seed_volumes.remove" (Join r.1 ",") else mret tt);
  mret r.

Definition handleDeleteProject (force volumes : bool) : HM PReply :=
  p ← loadProject;
  projectOpOrConflict (pID p) "deleting the project" (
    deployed ← (fun w => (w, Ok (projectDeployed (pSlug p) (pHostID p) w)));
    _ ← (if deployed : bool then force_down p force else mret tt);
    r ← (if volumes && negb (pHostID p =? 0) then drop_volumes p else mret ([], None));
    _ ← remove_dir IoRemoveRoot (projectRoot (pID p)) "could not remove files";
    _ ← remove_zips (pID p);
    _ ← or_answer internal (pdb (DeleteProject store_fault (pID p)));
    _ ← audit_m p "project.delete" "";
    mret (PRemoved r.1 r.2)).

Definition handleProjectSeedVolumes : HM PReply :=
  p ← loadProject;
  if pHostID p =? 0 then mret (PVolumes [] None)
  else
    _ ← demand 403 (requireHostAccess (pHostID p));
    step (fun w => match on_remote (ListSeedVolumes (pHostID p) (pSlug p)) w with
                   | (w, Err e) => (w, Ok (PVolumes [] (Some e)))
                   | (w, Ok names) => (w, Ok (PVolumes names None))
                   end).

(** ** Restore *)
Definition buildDigestPinOverride (images : list RevisionImage) : string :=
  let pins := filter (fun i => riDigest i <> "" /\ riService i <> "" /\ riImage i <> "") images in
  (match pins with [] => "" | _ => "services:" +:+ newline end)
  +:+ Join ((fun i => "  " +:+ riService i +:+ ":" +:+ newline +:+ "    image: " +:+ cut_digest (riImage i) +:+ "@" +:+ riDigest i +:+ newline) <$> pins) "".

Definition staging_of (root : string) : string := root +:+ ".restore-staging".
Definition backup_of (root : string) : string := root +:+ ".restore-backup".
(** os.Rename of a folder, onto nothing or an empty one *)
Definition rename_dir (op : IoOp) (src dst : string) (w : World) : World * bool :=
  match xDirs w !! src with
  | None => (w, false)
  | Some f => if io_fault op || bool_decide (dir_of dst w <> ∅) then (w, false) else (set_dirs (fun m => <[dst := f]> (delete src m)) w, true)
  end.

Definition undo_text (errs : list string) : string :=
  match errs with
  | [] => " The volumes on the host were put back."
  | _ => " Putting the volumes on the host back FAILED, so they may hold the revision's files: " +:+ Join errs newline
  end.
(** Puts the volumes back, when there are any, and says so. *)
Definition undo_seed (snap : option SeedSnapshot) (w : World) : World * string :=
  match snap with
  | None => (w, "")
  | Some s => let '(r, errs) := snapshot_Restore s (xRemote w) in (set_remote r w, undo_text errs)
  end.

(** The folder swap around the deploy: the live folder is kept beside it until `up`
    has succeeded, and comes back when anything fails. *)
Definition swap_and_up (p : Project) (rev : ProjectRevision) (env : list string) (files : list ComposeFile) (snap : option SeedSnapshot) (w : World) :
    World * result PReply string :=
  let root := projectRoot (pID p) in
  let existed := bool_decide (is_Some (xDirs w !! root)) in
  let '(w, moved) := if existed then rename_dir IoToBackup root (backup_of root) w else (w, true) in
  if negb moved then let '(w, text) := undo_seed snap w in (w, Err (PErr 500 ("could not stage the project swap." +:+ text)))
  else
    match rename_dir IoActivate (staging_of root) root w with
    | (w, false) =>
        let w := if existed then (rename_dir IoFromBackup (backup_of root) root w).1 else w in
        let '(w, text) := undo_seed snap w in (w, Err (PErr 500 ("could not activate the restored project." +:+ text)))
    | (w, true) =>
        match ComposeUp root (pSlug p) (Profiles rev) env files false false w with
        | (w, (out, Some err)) =>
            let '(w, text) := undo_seed snap w in
            let w := set_dirs (delete root) w in
            let w := if existed then (rename_dir IoFromBackup (backup_of root) root w).1 else w in
            (w, Err (PFail (err +:+ "." +:+ text) out))
        | (w, (out, None)) => (w, Ok out)
        end
    end.

Definition loadRevisionZip (p : Project) (n : Z) (w : World) : result string (list ZipEntry) :=
  if io_fault IoReadZip then Err "this revision's file snapshot could not be read"
  else match xZips w !! (pID p, n) with Some z => Ok z | None => Err "this revision's file snapshot could not be read" end.

(** What follows the staging copy; the copy itself goes away on every way out. *)
Definition restore_from_staging (p : Project) (rev : ProjectRevision) (n : Z) (reason : string) (confirmed : bool) : HM PReply :=
  let root := projectRoot (pID p) in
  let staging := staging_of root in
  s ← or_answer (PErr 500) (fun w => (w, secret_envs (pID p) (xDB w)));
  _ ← (fun w => match config_check staging (dir_of staging w) (pSlug p) s.1.2 with
                | (out, Some err) => (w, Err (PFail ("revision " +:+ FormatInt n +:+ " no longer validates: " +:+ (if String.eqb (TrimSpace out) "" then err else TrimSpace out)) ""))
                | (_, None) => (w, Ok tt)
                end);
  e ← from_world (projectDeployEnv p staging (Profiles rev)) 400;
  let pin := buildDigestPinOverride (Images rev) in
  files ← (if String.eqb pin "" then mret (deFiles e)
           else if io_fault IoTempPin then answer (PErr 500 "preparing the digest pin override failed")
           else mret ((match deFiles e with [] => [FProject (pComposeFile p)] | fs => fs end) ++ [FPin pin]));
  _ ← policy_check p staging (Profiles rev) (deEnv e) files confirmed policyKindRestore;
  snap ← (match deSeed e with
          | None => mret None
          | Some sd => snap ← or_answer (PErr 400) (seed_RunUndoable sd); mret (Some snap)
          end);
  out ← swap_and_up p rev (deEnv e) files snap;
  _ ← st_mod (best_effort (SetLastDeployedProfiles store_fault (pID p) (Profiles rev) clock));
  _ ← st_mod (captureRevision p (Profiles rev) out (if String.eqb reason "" then "restored from revision " +:+ FormatInt n else reason));
  _ ← audit_m p "project.revision.restore" (FormatInt n);
  _ ← st_mod (set_dirs (delete (backup_of root)));
  mret (PRan out (deNote e)).

Definition handleRestoreRevision (rawRev : string) (body : string * bool) : HM PReply :=
  p ← loadProject;
  _ ← demand 403 (requireHostAccess (pHostID p));
  projectOpOrConflict (pID p) "a restore" (
    _ ← need_compose;
    match ParseInt rawRev with
    | None => answer (PErr 400 "invalid revision number")
    | Some n =>
        rev ← or_answer (fun e => match e with ErrNotFound => PErr 404 "revision not found" | _ => internal e end) (pread (RevisionByNumber store_fault (pID p) n));
        if negb (Valid rev)
        then answer (PFail ("revision " +:+ FormatInt n +:+ " has no usable file snapshot"
                            +:+ (if String.eqb (ValidationError rev) "" then "" else ": " +:+ ValidationError rev)) "")
        else
          zr ← from_world (loadRevisionZip p n) 500;
          let root := projectRoot (pID p) in
          let staging := staging_of root in
          _ ← st_mod (set_dirs (fun m => delete (backup_of root) (delete staging m)));
          _ ← (if io_fault IoMkStaging then answer (PErr 500 "could not create the staging folder") else mret tt);
          _ ← st_mod (set_dirs (<[staging := (extractZipToDir zr staging ∅).1]>));
          step (fun w => let '(w, r) := restore_from_staging p rev n body.1 body.2 w in (set_dirs (delete staging) w, r))
    end).

(** ** Creation *)
(** [slugify]: the runes of the decomposed lower-case name, marks dropped, then
    letters, digits and single dashes. *)
Definition slug_rune (st : list Ascii.ascii * bool) (r : Z) : list Ascii.ascii * bool :=
  let '(b, prevDash) := st in
  if is_mn r then (b, prevDash)
  else if ((97 <=? r) && (r <=? 122)) || ((48 <=? r) && (r <=? 57)) then (b ++ [Ascii.ascii_of_nat (Z.to_nat r)], false)
  else if existsb (Z.eqb r) [32; 45; 95; 46] then
    match b with [] => (b, prevDash) | _ => if prevDash then (b, prevDash) else (b ++ ["-"%char], true) end
  else (b, prevDash).
Definition slugify (name : string) : string :=
  let s := Trim ["-"] (of_bytes (foldl slug_rune ([], false) (nfd (ToLower (TrimSpace name)))).1) in
  if String.eqb s "" then "project" else s.

(** seedProjectFiles (template_handlers.go): the files written before a failure stay. *)
Fixpoint seed_files (root : string) (files : list (string * string)) (f : Folder) : Folder * bool :=
  match files with
  | [] => (f, true)
  | (path, content) :: files =>
      if (maxProjectFileBytes <? String.length content)%nat then (f, false)
      else match joined root path f with
           | Err _ => (f, false)
           | Ok rel => match writeInRoot f rel content with (f, true) => seed_files root files f | (f, false) => (f, false) end
           end
  end.
Definition seedProjectFiles (root : string) (files : list (string * string)) (f : Folder) : Folder * bool :=
  if (maxProjectFiles <? length files)%nat then (f, false) else if io_fault IoSeedFiles then (f, false) else seed_files root files f.

Definition new_project (name slug file : string) (host : Z) : Project := mkProject 0 name slug file host false [] currentUsername 0 0.
Definition insert_project (p : Project) : HM Z :=
  or_answer (fun e => match e with ErrDuplicate => PErr 409 ("a project with the name " +:+ quoted (pSlug p) +:+ " already exists") | _ => internal e end)
    (pdb (CreateProject store_fault p clock)).
(** The row goes again when its folder cannot be made. *)
Definition make_root (id : Z) (msg : string) : HM () := fun w =>
  if io_fault IoMkRoot then (best_effort (DeleteProject store_fault id) w, Err (PErr 500 msg))
  else (set_dirs (fun m => match m !! projectRoot id with Some _ => m | None => <[projectRoot id := ∅]> m end) w, Ok tt).

Record createBody := mkCreate { cbName : string; cbHost : Z }.
(** [scaffold]: resolveSeedFiles, the files of the template or the blocks asked for,
    for a slug and a name; [None] for a reference to nothing. *)
Definition handleCreateProject (scaffold : string -> string -> result (option string) (list (string * string))) (body : option createBody) : HM PReply :=
  b ← body_of body;
  let name := TrimSpace (cbName b) in
  _ ← (if String.eqb name "" then answer (PErr 400 "name is required") else mret tt);
  _ ← demand 400 (validateHostID (cbHost b));
  _ ← demand 403 (requireHostAccess (cbHost b));
  let slug := slugify name in
  files ← or_answer (fun e => match e with None => PErr 404 "template or block not found" | Some msg => PErr 400 msg end) (lift (scaffold slug name));
  id ← insert_project (new_project name slug "compose.yml" (cbHost b));
  _ ← make_root id "could not create project folder";
  _ ← (fun w => match seedProjectFiles (projectRoot id) files (dir_of (projectRoot id) w) with
                | (f, true) => (set_dirs (<[projectRoot id := f]>) w, Ok tt)
                | (_, false) => (best_effort (DeleteProject store_fault id) (set_dirs (delete (projectRoot id)) w), Err (PErr 500 "could not seed project"))
                end);
  _ ← st_mod (audit_on (daemonHost (cbHost b)) "project.create" slug "");
  mret (PMade id slug (length files)).

(** [archive]: the upload as zip.NewReader reads it; [Err] with the message of the 400. *)
Definition handleImportProject (rawName : string) (archive : result string (list ZipEntry)) : HM PReply :=
  let name := TrimSpace rawName in
  _ ← (if String.eqb name "" then answer (PErr 400 "name is required") else mret tt);
  zr ← or_answer (PErr 400) (lift archive);
  let slug := slugify name in
  id ← insert_project (new_project name slug "" 0);
  _ ← make_root id "could not create project folder";
  count ← (fun w => let '(f, n) := extractZipToDir zr (projectRoot id) (dir_of (projectRoot id) w) in (set_dirs (<[projectRoot id := f]>) w, Ok n));
  _ ← st_mod (audit_on (daemonHost 0) "project.import" slug "");
  mret (PMade id slug count).

(** ** Files *)
Definition fs_reply (e : FSErr) : PReply :=
  match e with
  | ETooLarge => PErr 413 "file too large"
  | ETooMany => PErr 400 "too many files in this project"
  | EMissingName => PErr 400 "missing file name"
  | EAbsolute => PErr 400 "absolute paths are not allowed"
  | ETraversal => PErr 400 "path traversal is not allowed"
  | EInvalidPath => PErr 400 "invalid file path"
  | EEscape => PErr 400 "path escapes the project directory"
  | ENotExist => PErr 400 "file does not exist"
  | EIO => PErr 500 "input/output error"
  end.
(** One of [Sandbox]'s operations on the project's folder. *)
Definition on_folder (p : Project) (f : string -> Folder -> FM ()) : HM () := step (fun w =>
  let root := projectRoot (pID p) in
  match xDirs w !! root with
  | None => (w, Err (fs_reply (match f root ∅ with (_, Err e) => e | _ => ENotExist end)))
  | Some d => match f root d with
              | (g, Ok _) => (set_dirs (<[root := g]>) w, Ok tt)
              | (g, Err e) => (set_dirs (<[root := g]>) w, Err (fs_reply e))
              end
  end).
Definition touch (p : Project) : HM () := st_mod (best_effort (TouchProject store_fault (pID p) clock)).

Definition handleWriteProjectFile (body : option (string * string)) : HM PReply :=
  p ← loadProject;
  projectOpOrConflict (pID p) "a file save" (
    b ← body_of body;
    _ ← on_folder p (fun root => write_file root b.1 b.2);
    _ ← touch p;
    _ ← audit_m p "project.file.write" b.1;
    mret POk).
Definition handleUploadProjectFileRaw (name : string) (body : option string) : HM PReply :=
  p ← loadProject;
  projectOpOrConflict (pID p) "an upload" (
    _ ← on_folder p (fun root => upload_file root name body);
    _ ← touch p;
    _ ← audit_m p "project.file.upload" name;
    mret POk).
Definition handleDeleteProjectFile (name : string) : HM PReply :=
  p ← loadProject;
  projectOpOrConflict (pID p) "a file delete" (
    _ ← on_folder p (fun root => delete_file root name);
    _ ← touch p;
    _ ← audit_m p "project.file.delete" name;
    mret POk).
Definition handleMakeProjectDir (body : option string) : HM PReply :=
  p ← loadProject;
  projectOpOrConflict (pID p) "a new folder" (
    name ← body_of body;
    _ ← on_folder p (fun root => make_dir root name);
    _ ← audit_m p "project.dir.create" name;
    mret POk).
Definition handleDownloadProjectFile (name : string) : HM PReply :=
  p ← loadProject;
  let root := projectRoot (pID p) in
  rel ← or_answer fs_reply (fun w => (w, joined root name (dir_of root w)));
  data ← step (fun w => (w, match openInRoot (dir_of root w) rel, node_at (dir_of root w) rel with
                            | Some data, _ => Ok data
                            | None, Some _ => Err (PErr 400 "not a file")
                            | None, None => Err (PErr 404 "file not found")
                            end));
  _ ← audit_m p "project.file.download" name;
  mret (PFile data).
Definition handleListProjectFiles : HM PReply :=
  p ← loadProject;
  step (fun w => match xDirs w !! projectRoot (pID p) with
                 | None => (w, Err (PErr 500 "could not read the project folder"))
                 | Some f => if io_fault IoWalk then (w, Err (PErr 500 "could not read the project folder")) else (w, Ok (PFiles (listFilesInRoot looks_binary f)))
                 end).
Definition handleDownloadProject : HM PReply :=
  p ← loadProject;
  step (fun w => match xDirs w !! projectRoot (pID p) with
                 | None => (w, Err (PErr 500 "could not build project archive"))
                 | Some f => if io_fault IoZip then (w, Err (PErr 500 "could not build project archive")) else (w, Ok (PZip (zipDir f)))
                 end).
(** headerFilename: no control characters, quotes or backslashes in the header *)
Definition headerFilename (name : string) : string :=
  of_bytes ((fun c => if (code c <? 32) || existsb (Z.eqb (code c)) [127; 34; 92] then "_"%char else c) <$> bytes name).

(** ** Reads *)
Definition hostNames (id : Z) : string := match gsListHosts with Ok hs => default "" (snd <$> List.find (fun h => h.1 =? id) hs) | Err _ => "" end.
Definition handleListProjects : HM PReply :=
  ps ← or_answer internal (pread (ListProjects store_fault));
  mret (PProjects ((fun p => (p, hostNames (pHostID p))) <$> filter (fun p => visibleHosts (fst <$> claims) (pHostID p) = true) ps)).
Definition handleGetProject : HM PReply := p ← loadProject; mret (PProject p (hostNames (pHostID p))).

(** An unsaved buffer laid over a copy of the folder: where the CLI then looks. *)
Definition overlayProject (p : Project) (name content : string) (w : World) : result PReply (string * Folder) :=
  match xDirs w !! projectRoot (pID p) with
  | None => Err (PErr 500 "could not copy the project")
  | Some f =>
      if io_fault IoOverlay then Err (PErr 500 "could not copy the project")
      else match joined tmpDir name f with
           | Err e => Err (PErr 500 match fs_reply e with PErr _ m => m | _ => "" end)
           | Ok rel => match writeInRoot f rel content with (f, true) => Ok (tmpDir, f) | (_, false) => Err (PErr 500 "could not write the overlay") end
           end
  end.
Definition overlaid (p : Project) (body : option (string * string)) : HM (string * Folder) := step (fun w =>
  match body with
  | Some (name, content) => if String.eqb name "" then (w, Ok (projectRoot (pID p), dir_of (projectRoot (pID p)) w)) else (w, overlayProject p name content w)
  | None => (w, Ok (projectRoot (pID p), dir_of (projectRoot (pID p)) w))
  end).
Definition masked_env (p : Project) : HM (list string) :=
  s ← or_answer internal (pread (projectSecretEnvs (pID p))); mret s.1.2.

Definition handleValidateProject (body : option (string * string)) : HM PReply :=
  p ← loadProject;
  if negb compose_available then mret PUnavailable
  else
    d ← overlaid p body;
    env ← masked_env p;
    mret (match config_check d.1 d.2 (pSlug p) env with
          | (out, Some err) => PInvalid (if String.eqb (TrimSpace out) "" then err else TrimSpace out)
          | (out, None) => PValid out
          end).
(** [config]: ComposeResolvedConfigEnv, and ComposeConfigJSONFiles for the summary *)
Definition resolved_view (config : string -> Folder -> string -> list string -> result string string) (body : option (string * string)) : HM PReply :=
  p ← loadProject;
  if negb compose_available then mret PUnavailable
  else
    d ← overlaid p body;
    env ← masked_env p;
    mret (match config d.1 d.2 (pSlug p) env with Ok out => PConfig out | Err e => PInvalid e end).
Definition handleResolveProject : (string -> Folder -> string -> list string -> result string string) -> option (string * string) -> HM PReply := resolved_view.
Definition handleProjectSummary : option (string * string) -> HM PReply := resolved_view (fun d f slug env => config_json d f slug [] env []).
(** [profiles_of]: ComposeProfilesEnv *)
Definition handleProjectProfiles (profiles_of : string -> Folder -> string -> list string -> result string (list string)) : HM PReply :=
  p ← loadProject;
  if negb compose_available then mret (PProfiles [] None)
  else
    env ← masked_env p;
    step (fun w => (w, Ok (match profiles_of (projectRoot (pID p)) (dir_of (projectRoot (pID p)) w) (pSlug p) env with
                           | Ok l => PProfiles l None | Err e => PProfiles [] (Some e) end))).
(** [check]: DockerfileCheck's output and error *)
Definition handleCheckDockerfile (available : bool) (check : string -> string * option string) (body : option string) : HM PReply :=
  _ ← loadProject;
  if negb available then mret PUnavailable
  else
    content ← body_of body;
    let '(out, err) := check content in
    let out := TrimSpace out in
    mret (if Contains out "ERROR:" then PChecked "error" out
          else if Contains out "WARNING:" then PChecked "warning" out
          else match err with Some e => if String.eqb out "" then PChecked "error" e else PChecked "ok" out | None => PChecked "ok" out end).

(** ** Preview (mcp_projects.go, mcpPreviewProject) *)
Definition empty_preview : DeployPreview := mkPreview [] [] [] 0.
Definition live_specs (p : Project) (values : list string) (w : World) : list ServiceSpec :=
  maskLiveSecrets (LiveServices (inspect_service (xFx w) (pHostID p)) (stack_containers (pHostID p) (pSlug p) w)) values.
Definition build_preview (p : Project) (resolved : list ServiceSpec) (values : list string) (w : World) : DeployPreview :=
  let containers := stack_containers (pHostID p) (pSlug p) w in
  let running := live_specs p values w in
  let prev := ExtendServiceComparison resolved running
                (AugmentDigestDrift remote_digest (running_digest (xFx w) (pHostID p)) containers (BuildDeployPreview resolved running)) in
  match ListDriftIgnores store_fault (pID p) (xDB w) with
  | Ok (_ :: _ as ignores) => mkPreview (pServices prev) (pRunning prev) (MarkIgnoredChanges (Changes prev) (list_to_set ignores)) (Unchanged prev)
  | _ => prev
  end.
Definition mcpPreviewProject (id : Z) : stM World string ProjectPreview := fun w =>
  (w, if negb compose_available then Err no_compose
      else match ProjectByID store_fault id (xDB w) with
      | Err e => Err (db_text e)
      | Ok p =>
          s ← secret_envs (pID p) (xDB w);
          match config_json (projectRoot (pID p)) (dir_of (projectRoot (pID p)) w) (pSlug p) (LastDeployedProfiles p) s.1.2 [] with
          | Err e => Ok (mkPPreview (Some e) "" empty_preview 0)
          | Ok j => match ParseComposeServices (decode_doc j) with
                    | None => Ok (mkPPreview (Some "invalid JSON") "" empty_preview 0)
                    | Some resolved => let prev := build_preview p resolved s.2 w in Ok (mkPPreview None (pName p) prev (ActiveChanges (Changes prev)))
                    end
          end
      end).
Definition handlePreviewProject : HM PReply :=
  p ← loadProject; prev ← or_answer (PErr 500) (mcpPreviewProject (pID p)); mret (PPreviewed prev).

Record driftIgnoreBody := mkDrift { diService : string; diKind : string; diFrom : string; diTo : string; diDetail : string }.
Definition drift_body (b : option driftIgnoreBody) : HM driftIgnoreBody :=
  match b with
  | Some b => if String.eqb (diService b) "" || String.eqb (diKind b) "" then answer (PErr 400 "service and kind are required") else mret b
  | None => answer (PErr 400 "service and kind are required")
  end.
Definition handleIgnoreDrift (body : option driftIgnoreBody) : HM PReply :=
  p ← loadProject;
  b ← drift_body body;
  let fp := ChangeFingerprint (mkChange "" (diKind b) (diFrom b) (diTo b) (diDetail b) false false false) in
  _ ← or_answer internal (pdb (IgnoreDrift store_fault (pID p) (diService b) (diKind b) fp clock));
  _ ← audit_m p "project.drift.ignore" (diService b +:+ ":" +:+ diKind b);
  mret POk.
Definition handleUnignoreDrift (body : option driftIgnoreBody) : HM PReply :=
  p ← loadProject;
  b ← drift_body body;
  _ ← or_answer internal (pdb (UnignoreDrift store_fault (pID p) (diService b) (diKind b)));
  _ ← audit_m p "project.drift.unignore" (diService b +:+ ":" +:+ diKind b);
  mret POk.

(** ** Revisions *)
Definition handleListRevisions : HM PReply := p ← loadProject; l ← or_answer internal (pread (ListRevisions store_fault (pID p))); mret (PRevisions l).
Definition handleGetRevision (rawRev : string) : HM PReply :=
  p ← loadProject;
  match ParseInt rawRev with
  | None => answer (PErr 400 "invalid revision number")
  | Some n => r ← or_answer (fun e => match e with ErrNotFound => PErr 404 "revision not found" | _ => internal e end) (pread (RevisionByNumber store_fault (pID p) n));
              mret (PRevision r)
  end.
(** The snapshot's services, with the binds where the project's own files are. *)
Definition revisionServiceSpecs (p : Project) (n : Z) (w : World) : result string (list ServiceSpec) :=
  zr ← loadRevisionZip p n w;
  s ← secret_envs (pID p) (xDB w);
  match config_json tmpDir (extractZipToDir zr tmpDir ∅).1 (pSlug p) [] s.1.2 [] with
  | Err e => Err ("revision " +:+ FormatInt n +:+ " no longer resolves as valid compose: " +:+ e)
  | Ok j => match ParseComposeServices (decode_doc j) with
            | None => Err "invalid JSON"
            | Some specs => Ok (RebaseBindSources tmpDir (projectRoot (pID p)) specs)
            end
  end.
Definition revision_compare (resolved running : list ServiceSpec) : PReply :=
  PPreviewed (mkPPreview None "" (ExtendServiceComparison resolved running (BuildDeployPreview resolved running)) 0).
Definition handleRevisionDiff (rawRev against : string) : HM PReply :=
  p ← loadProject;
  match ParseInt rawRev with
  | None => answer (PErr 400 "invalid revision number")
  | Some n =>
      step (fun w => (w,
        match revisionServiceSpecs p n w with
        | Err e => Ok (PInvalid e)
        | Ok resolved =>
            let against := TrimSpace against in
            if String.eqb against "" || String.eqb (of_bytes (lower_ascii <$> bytes against)) "current" then
              match secret_envs (pID p) (xDB w) with
              | Err e => Err (PErr 500 e)
              | Ok s => Ok (revision_compare resolved (live_specs p s.2 w))
              end
            else match ParseInt against with
                 | None => Err (PErr 400 ("against must be a revision number or " +:+ quoted "current"))
                 | Some m => match revisionServiceSpecs p m w with
                             | Err e => Ok (PInvalid e)
                             | Ok running => Ok (revision_compare resolved running)
                             end
                 end
        end))
  end.

(** ** Secrets (project_secret_handlers.go) *)
Definition name_char (first : bool) (c : Ascii.ascii) : bool :=
  let n := code c in ((65 <=? n) && (n <=? 90)) || ((97 <=? n) && (n <=? 122)) || (n =? 95) || (negb first && (48 <=? n) && (n <=? 57)).
Definition secretName (s : string) : bool :=
  match bytes s with [] => false | c :: l => name_char true c && forallb (name_char false) l end.

Definition handleListProjectSecrets : HM PReply :=
  p ← loadProject; l ← or_answer (fun _ => PErr 500 "could not list secrets") (pread (ListProjectSecrets store_fault (pID p))); mret (PSecrets l).
Definition handleCreateProjectSecret (body : option (string * string)) : HM PReply :=
  p ← loadProject;
  b ← body_of body;
  _ ← (if secretName b.1 then mret tt else answer (PErr 400 "name must be a valid identifier (letters, digits, underscore; not starting with a digit)"));
  _ ← (if String.eqb b.2 "" then answer (PErr 400 "value is required") else mret tt);
  id ← or_answer (fun e => match e with ErrDuplicate => PErr 409 "a secret with this name already exists" | _ => PErr 500 "could not create secret" end)
         (pdb (CreateProjectSecret store_fault (pID p) b.1 b.2 currentUsername clock));
  _ ← audit_m p "project.secret.create" b.1;
  mret (PSecretMade id).
Definition handleUpdateProjectSecret (name : string) (body : option string) : HM PReply :=
  p ← loadProject;
  v ← body_of body;
  _ ← (if String.eqb v "" then answer (PErr 400 "value is required") else mret tt);
  _ ← or_answer (fun e => match e with ErrNotFound => PErr 404 "secret not found" | _ => PErr 500 "could not update secret" end)
        (pdb (UpdateProjectSecretValue store_fault (pID p) name v clock));
  _ ← audit_m p "project.secret.update" name;
  mret POk.
Definition handleDeleteProjectSecret (name : string) : HM PReply :=
  p ← loadProject;
  _ ← or_answer (fun e => match e with ErrNotFound => PErr 404 "secret not found" | _ => PErr 500 "could not delete secret" end)
        (pdb (DeleteProjectSecret store_fault (pID p) name));
  _ ← audit_m p "project.secret.delete" name;
  mret POk.

(** ** The same operations for the MCP server (mcp_projects.go) *)
Definition mcp_deployed (fx : list Effect) (host : Z) (slug : string) : bool :=
  match list_stacks fx host with None => false | Some l => existsb (fun st => String.eqb (stProject st) slug) l end.
Definition mcpListProjects (w : World) : result string (list (Project * bool)) :=
  match ListProjects store_fault (xDB w) with
  | Err e => Err (db_text e)
  | Ok ps => Ok ((fun p => (p, mcp_deployed (xFx w) (pHostID p) (pSlug p))) <$> ps)
  end.
Definition mcp_project (id : Z) : stM World string Project := fun w =>
  if negb compose_available then (w, Err no_compose)
  else match ProjectByID store_fault id (xDB w) with Ok p => (w, Ok p) | Err e => (w, Err (db_text e)) end.
Definition mcp_policy (v : result PolicyErr (list PolicyViolation * list PolicyViolation)) (confirmed : bool) : option string :=
  match v with
  | Err e => Some ("policy check failed, refusing to deploy for safety: " +:+ policy_error_prefix e)
  | Ok (blocked, warned) =>
      if declares blocked then Some ("refused by policy (block): " +:+ policyViolationSummary blocked)
      else if declares warned && negb confirmed
           then Some ("policy warnings require confirmation (retry with confirm_policy_warnings=true): " +:+ policyViolationSummary warned)
           else None
  end.
(** strings.TrimRight(out, newline) *)
Definition trim_newlines (s : string) : string := of_bytes (rev (trim_set [newline] (rev (bytes s)))).
(** The output, with the error when `up` failed. *)
Definition mcpDeployProject (id : Z) (profiles : list string) (confirmed : bool) : stM World string (string * option string) :=
  p ← mcp_project id;
  holding (pID p) "a deploy" (fun busy => busy) (
    let dir := projectRoot (pID p) in
    let profiles := NormalizeProfiles profiles in
    e ← (fun w => (w, projectDeployEnv p dir profiles w));
    _ ← (fun w => (w, match mcp_policy (deploy_verdict dir (pSlug p) profiles (deEnv e) (deFiles e) w) confirmed with Some msg => Err msg | None => Ok tt end));
    _ ← run_seed (deSeed e);
    ran ← (fun w => let '(w, r) := ComposeUp dir (pSlug p) profiles (deEnv e) (deFiles e) true false w in (w, Ok r));
    let out := if String.eqb (deNote e) "" then ran.1 else trim_newlines ran.1 +:+ newline +:+ "note: " +:+ deNote e in
    _ ← (match ran.2 with None => st_mod (autoSilenceForDeploy p) | Some _ => mret tt end);
    mret (out, ran.2)).
Definition mcpDownProject (id : Z) : stM World string (string * option string) :=
  p ← mcp_project id;
  holding (pID p) "a down" (fun busy => busy) (
    env ← step (fun w => (w, projectComposeEnv p (xDB w)));
    step (fun w => let '(w, r) := ComposeDown (projectRoot (pID p)) (pSlug p) env w in (w, Ok r))).
End Projects.
