(* ===== verification/ProjectSpec.v ===== *)
(** * What the projects' routes guarantee

    Every call the daemons and the remote volumes see is authorised and approved,
    refusals and failed restores leave things as they were, one operation runs at a
    time, and what a deploy recorded comes back. *)
From S2P Require Import Prelude GoStrings Users Roles Access Calendar Maintenance MaintenanceHandlers Paths Compose Policy Preview Sandbox ProjectStore Binds Projects.

(** ** The routes *)
Inductive ProjectCall :=
  | CDeploy (body : option deployBody) | CDown | CRestart | CRename (body : option renameBody) | CDelete (force volumes : bool)
  | CRestore (rev : string) (body : string * bool)
  | CWrite (body : option (string * string)) | CUpload (name : string) (body : option string) | CDeleteFile (name : string) | CMakeDir (body : option string)
  | CIgnore (body : option driftIgnoreBody) | CUnignore (body : option driftIgnoreBody)
  | CNewSecret (body : option (string * string)) | CSetSecret (name : string) (body : option string) | CDropSecret (name : string)
  | CPreview | CSeedVolumes | CDiff (rev against : string).
(** The verb and the last part of the route each is mounted on (server.go). *)
Definition call_method (c : ProjectCall) : string :=
  match c with
  | CRename _ => "PATCH"
  | CWrite _ | CSetSecret _ _ => "PUT"
  | CDelete _ _ | CDeleteFile _ | CDropSecret _ => "DELETE"
  | CPreview | CSeedVolumes | CDiff _ _ => "GET"
  | _ => "POST"
  end.
Definition call_suffix (c : ProjectCall) : string :=
  match c with
  | CDeploy _ => "/deploy" | CDown => "/down" | CRestart => "/restart" | CRename _ | CDelete _ _ => "" | CRestore rev _ => "/revisions/" +:+ rev +:+ "/restore"
  | CWrite _ | CDeleteFile _ => "/files" | CUpload _ _ => "/files/raw" | CMakeDir _ => "/files/dir" | CIgnore _ => "/drift/ignore" | CUnignore _ => "/drift/unignore"
  | CNewSecret _ => "/secrets" | CSetSecret n _ | CDropSecret n => "/secrets/" +:+ n
  | CPreview => "/preview" | CSeedVolumes => "/seed-volumes" | CDiff rev _ => "/revisions/" +:+ rev +:+ "/diff"
  end.
Definition call_request (c : ProjectCall) (rawID : string) : Request := mkReq (call_method c) ("/api/projects/" +:+ rawID +:+ call_suffix c) "".

Section Run.
Context `{GS : GrantStore} `{C : Cipher} `{TE : TextEnv} `{Ln : Links} `{D : Daemon} `{En : Engine}.

Definition run_handler (claims : option (Z * string)) (rawID : string) (c : ProjectCall) : HM PReply :=
  let r := call_request c rawID in
  match c with
  | CDeploy b => handleDeployProject claims r rawID b
  | CDown => handleDownProject claims r rawID
  | CRestart => handleRestartProject claims r rawID
  | CRename b => handleRenameProject claims r rawID b
  | CDelete f v => handleDeleteProject claims r rawID f v
  | CRestore rev b => handleRestoreRevision claims r rawID rev b
  | CWrite b => handleWriteProjectFile claims r rawID b
  | CUpload n b => handleUploadProjectFileRaw claims r rawID n b
  | CDeleteFile n => handleDeleteProjectFile claims r rawID n
  | CMakeDir b => handleMakeProjectDir claims r rawID b
  | CIgnore b => handleIgnoreDrift claims r rawID b
  | CUnignore b => handleUnignoreDrift claims r rawID b
  | CNewSecret b => handleCreateProjectSecret claims r rawID b
  | CSetSecret n b => handleUpdateProjectSecret claims r rawID n b
  | CDropSecret n => handleDeleteProjectSecret claims r rawID n
  | CPreview => handlePreviewProject claims r rawID
  | CSeedVolumes => handleProjectSeedVolumes claims r rawID
  | CDiff rev a => handleRevisionDiff claims r rawID rev a
  end.
(** The world after a request, and its reply. *)
Definition run_call (claims : option (Z * string)) (rawID : string) (c : ProjectCall) (w : World) : World * PReply :=
  match run_handler claims rawID c w with (w, Ok r) | (w, Err r) => (w, r) end.
End Run.

(** ** What reaches a daemon *)
(** Between the two worlds exactly calls with [F] and [V] were made. *)
Definition emits (F : Effect -> Prop) (V : VolCall -> Prop) (w w' : World) : Prop :=
  (exists fx, xFx w' = xFx w ++ fx /\ Forall F fx) /\ (exists vl, vlog (xRemote w') = vlog (xRemote w) ++ vl /\ Forall V vl).

Section Logic.
Context (F : Effect -> Prop) (V : VolCall -> Prop).

Lemma emits_quiet w w' : xFx w' = xFx w -> vlog (xRemote w') = vlog (xRemote w) -> emits F V w w'.
Proof. intros H1 H2. unfold emits. rewrite H1, H2. split; exists []; by rewrite app_nil_r. Qed.
Lemma emits_refl w : emits F V w w.
Proof. by apply emits_quiet. Qed.
Lemma emits_trans w1 w2 w3 : emits F V w1 w2 -> emits F V w2 w3 -> emits F V w1 w3.
Proof.
  intros [(fx & H1 & F1) (vl & H2 & F2)] [(fx' & H3 & F3) (vl' & H4 & F4)]. split.
  - exists (fx ++ fx'). rewrite H3, H1, <- app_assoc. split; [done|]. by apply Forall_app.
  - exists (vl ++ vl'). rewrite H4, H2, <- app_assoc. split; [done|]. by apply Forall_app.
Qed.

(** From any world, only such calls, and a result with [Q]. *)
Definition does {E A} (m : stM World E A) (Q : A -> Prop) : Prop :=
  forall w, emits F V w (m w).1 /\ (forall a, (m w).2 = Ok a -> Q a).

Lemma does_ret {E A} (a : A) (Q : A -> Prop) : Q a -> does (mret a : stM World E A) Q.
Proof. intros HQ w. split; [apply emits_refl|]. by intros ? [= <-]. Qed.
Lemma does_fail {E A} (e : E) (Q : A -> Prop) : does (st_fail e) Q.
Proof. intros w. split; [apply emits_refl|done]. Qed.
Lemma does_bind {E A B} (m : stM World E A) (k : A -> stM World E B) (R : A -> Prop) (Q : B -> Prop) :
  does m R -> (forall a, R a -> does (k a) Q) -> does (m ≫= k) Q.
Proof.
  intros Hm Hk w. unfold mbind, stM_bind. destruct (Hm w) as [H1 H2]. destruct (m w) as [w1 [a|e]]; simpl in *; [|done].
  destruct (Hk a (H2 a eq_refl) w1) as [H3 H4]. split; [by eapply emits_trans|done].
Qed.
Lemma does_weaken {E A} (m : stM World E A) (Q Q' : A -> Prop) : does m Q -> (forall a, Q a -> Q' a) -> does m Q'.
Proof. intros Hm HQ w. destruct (Hm w) as [H1 H2]. split; [done|]. intros a Ha. by apply HQ, H2. Qed.
Lemma does_quiet {E A} (m : stM World E A) : (forall w, xFx (m w).1 = xFx w /\ vlog (xRemote (m w).1) = vlog (xRemote w)) -> does m (fun _ => True).
Proof. intros H w. destruct (H w). split; [by apply emits_quiet|done]. Qed.
Lemma does_mod {E} (f : World -> World) : (forall w, xFx (f w) = xFx w /\ vlog (xRemote (f w)) = vlog (xRemote w)) -> does (st_mod f : stM World E ()) (fun _ => True).
Proof. intros H. apply does_quiet. exact H. Qed.
Lemma does_pure {E A} (f : World -> result E A) (Q : A -> Prop) : (forall w a, f w = Ok a -> Q a) -> does (fun w => (w, f w)) Q.
Proof. intros H w. split; [apply emits_refl|]. apply H. Qed.
Lemma does_or_answer {E A} (f : E -> PReply) (m : stM World E A) (Q : A -> Prop) : does m Q -> does (or_answer f m) Q.
Proof. intros Hm w. destruct (Hm w) as [H1 H2]. unfold or_answer. destruct (m w) as [w1 [a|e]]; (split; [exact H1|]); [|done].
  intros b [= <-]. by apply H2.
Qed.
Lemma does_holding {E A} id what (refuse : string -> E) (m : stM World E A) (Q : A -> Prop) : does m Q -> does (holding id what refuse m) Q.
Proof.
  intros Hm w. unfold holding, beginProjectOp. destruct (xOps w !! id); [split; [apply emits_refl|done]|].
  destruct (Hm (set_ops (<[id := what]>) w)) as [H1 H2]. destruct (m _) as [w1 r]. split; [|exact H2].
  eapply emits_trans; [by apply (emits_quiet w (set_ops (<[id := what]>) w))|]. eapply emits_trans; [exact H1|]. by apply emits_quiet.
Qed.
Lemma does_remote {A} (m : stM Remote string A) (Q : A -> Prop) :
  (forall r, (exists vl, vlog (m r).1 = vlog r ++ vl /\ Forall V vl) /\ (forall a, (m r).2 = Ok a -> Q a)) -> does (on_remote m) Q.
Proof.
  intros H w. destruct (H (xRemote w)) as [(vl & H1 & H2) H3]. unfold on_remote. destruct (m (xRemote w)) as [r x]. split; [|done].
  split; [exists []; by rewrite app_nil_r|]. by exists vl.
Qed.
End Logic.

(** *** Calls on volumes *)
Section Calls.
Context `{TE : TextEnv} `{D : Daemon} (V : VolCall -> Prop).

Definition calls {A} (m : stM Remote string A) : Prop := forall r, exists vl, vlog (m r).1 = vlog r ++ vl /\ Forall V vl.

Lemma calls_none {A} (m : stM Remote string A) : (forall r, vlog (m r).1 = vlog r) -> calls m.
Proof. intros H r. exists []. by rewrite H, app_nil_r. Qed.
Lemma calls_vcall c : V c -> calls (vcall c).
Proof. intros H r. exists [c]. unfold vcall. split; [by destruct (vfail (vlog r) c)|by constructor]. Qed.
Lemma calls_bind {A B} (m : stM Remote string A) (k : A -> stM Remote string B) : calls m -> (forall a, calls (k a)) -> calls (m ≫= k).
Proof.
  intros Hm Hk r. destruct (Hm r) as (vl & H1 & H2). unfold mbind, stM_bind. destruct (m r) as [r1 [a|e]]; simpl in *; [|by exists vl].
  destruct (Hk a r1) as (vl' & H3 & H4). exists (vl ++ vl'). rewrite H3, H1, <- app_assoc. split; [done|]. by apply Forall_app.
Qed.
Lemma calls_ret {A} (a : A) : calls (mret a).
Proof. by apply calls_none. Qed.
Lemma calls_for {X} (f : X -> stM Remote string ()) xs : (forall x, calls (f x)) -> calls (st_for f xs).
Proof. intros Hf. induction xs as [|x xs IH]; cbn [st_for]; [apply calls_ret|]. apply calls_bind; [done|]. intros _. exact IH. Qed.
Lemma calls_write c host name f : V c -> calls (write_volume c host name f).
Proof.
  intros H r. exists [c]. split; [|by constructor]. unfold write_volume, vcall. by destruct (vfail (vlog r) c), f.
Qed.

(** A run that returns what the calls left, whatever else. *)
Definition calls_to {X} (f : Remote -> Remote * X) : Prop := forall r, exists vl, vlog (f r).1 = vlog r ++ vl /\ Forall V vl.

Variable host : Z.
Hypothesis on_host : forall c, match c with VLocal => True | VClient h | VInspect h _ | VCreate h _ | VCopyTo h _ | VCopyFrom h _ | VEmpty h _ | VList h | VRemove h _ => h = host end -> V c.

Lemma SeedProjectBinds_calls f slug binds : calls (SeedProjectBinds host f slug binds).
Proof.
  unfold SeedProjectBinds. apply calls_bind; [by apply calls_vcall, on_host|]. intros _. apply calls_for. intros b. unfold seed_bind, create_volume.
  apply calls_bind; [|intros _; by apply calls_write, on_host]. apply calls_bind; [by apply calls_vcall, on_host|]. intros _. by apply calls_none.
Qed.

Lemma SnapshotSeedVolumes_calls slug binds : calls (SnapshotSeedVolumes host slug binds).
Proof.
  unfold SnapshotSeedVolumes. apply calls_bind; [by apply calls_vcall, on_host|]. intros _. apply calls_bind; [by apply calls_vcall, on_host|]. intros _.
  apply calls_bind; [|intros ?; apply calls_ret]. generalize (@nil string) as seen. generalize maxSeedSnapshotBytes as budget.
  induction binds as [|b binds IH]; intros budget seen; cbn [snapshot_binds]; [apply calls_ret|]. destruct (one_of _ seen); [apply IH|].
  apply calls_bind; [by apply calls_vcall, on_host|]. intros _. apply calls_bind; [by apply calls_none|]. intros there. destruct there.
  - apply calls_bind; [|intros saved; apply calls_bind; [apply IH|intros ?; apply calls_ret]]. unfold save_volume.
    apply calls_bind; [by apply calls_vcall, on_host|]. intros _. apply calls_bind; [by apply calls_vcall, on_host|]. intros _. by apply calls_none.
  - apply calls_bind; [apply IH|intros ?; apply calls_ret].
Qed.

Lemma restore_volume_calls v : calls (restore_volume host v).
Proof.
  unfold restore_volume. destruct (svSaved v) as [saved|].
  - unfold replaceVolume. apply calls_bind; [by apply calls_vcall, on_host|]. intros _. apply calls_bind; [by apply calls_write, on_host|]. intros _.
    apply calls_bind; [by apply calls_vcall, on_host|]. intros _. by apply calls_write, on_host.
  - apply calls_bind; [by apply calls_vcall, on_host|]. intros _. by apply calls_none.
Qed.
Lemma restore_volumes_calls vs : calls_to (restore_volumes host vs).
Proof.
  induction vs as [|v vs IH]; intros r; cbn [restore_volumes]; [exists []; by rewrite app_nil_r|].
  destruct (restore_volume_calls v r) as (vl & H1 & H2). destruct (restore_volume host v r) as [r1 res].
  destruct (IH r1) as (vl' & H3 & H4). destruct (restore_volumes host vs r1) as [r2 errs]. exists (vl ++ vl'). simpl in *.
  rewrite H3, H1, <- app_assoc. split; [done|]. by apply Forall_app.
Qed.
Lemma snapshot_Restore_calls s : snapHost s = host -> calls_to (snapshot_Restore s).
Proof.
  intros Hs r. unfold snapshot_Restore. rewrite Hs. destruct (calls_vcall (VClient host) (on_host (VClient host) eq_refl) r) as (vl & H1 & H2).
  destruct (vcall (VClient host) r) as [r1 [[]|e]]; simpl in *; [|by exists vl].
  destruct (restore_volumes_calls (snapVols s) r1) as (vl' & H3 & H4). exists (vl ++ vl'). rewrite H3, H1, <- app_assoc. split; [done|]. by apply Forall_app.
Qed.

Lemma ListSeedVolumes_calls slug : calls (ListSeedVolumes host slug).
Proof.
  unfold ListSeedVolumes. apply calls_bind; [by apply calls_vcall, on_host|]. intros _. apply calls_bind; [by apply calls_vcall, on_host|]. intros _. by apply calls_none.
Qed.
Lemma remove_volumes_calls names : calls_to (remove_volumes host names).
Proof.
  induction names as [|n names IH]; intros r; cbn [remove_volumes]; [exists []; by rewrite app_nil_r|].
  destruct (calls_vcall (VRemove host n) (on_host (VRemove host n) eq_refl) r) as (vl & H1 & H2). destruct (vcall (VRemove host n) r) as [r1 [[]|e]]; simpl in *.
  - destruct (IH (mkRemote (delete (host, n) (vols r1)) (vlog r1))) as (vl' & H3 & H4). destruct (remove_volumes host names _) as [r2 [removed failures]].
    exists (vl ++ vl'). simpl in *. rewrite H3, H1, <- app_assoc. split; [done|]. by apply Forall_app.
  - destruct (IH r1) as (vl' & H3 & H4). destruct (remove_volumes host names r1) as [r2 [removed failures]].
    exists (vl ++ vl'). simpl in *. rewrite H3, H1, <- app_assoc. split; [done|]. by apply Forall_app.
Qed.
Lemma RemoveSeedVolumes_calls slug : calls_to (RemoveSeedVolumes host slug).
Proof.
  intros r. unfold RemoveSeedVolumes.
  assert (calls (vcall (VClient host) ≫= fun _ => ListSeedVolumes host slug)) as Hc by (apply calls_bind; [by apply calls_vcall, on_host|intros _; apply ListSeedVolumes_calls]).
  destruct (Hc r) as (vl & H1 & H2). destruct ((vcall (VClient host) ≫= fun _ => ListSeedVolumes host slug) r) as [r1 [names|e]]; simpl in *; [|by exists vl].
  destruct (remove_volumes_calls names r1) as (vl' & H3 & H4). destruct (remove_volumes host names r1) as [r2 [removed failures]].
  exists (vl ++ vl'). simpl in *. rewrite H3, H1, <- app_assoc. split; [done|]. by apply Forall_app.
Qed.
End Calls.

(** ** Authority *)
Section Authority.
Context `{GS : GrantStore} `{C : Cipher} `{TE : TextEnv} `{Ln : Links} `{D : Daemon} `{En : Engine}.

(** The caller may act on projects of a host: the local daemon with the projects
    section, a remote one with the hosts section as well. *)
Definition may_use (claims : option (Z * string)) (write : bool) (host : Z) : Prop :=
  exists uid n u, claims = Some (uid, n) /\ gsUserByID uid = Ok u /\ checkAccess u "projects" write host = None /\
    (host = 0 \/ checkAccess u "hosts" false host = None).
(** The environment leads to a host's daemon. *)
Definition aims_at (host : Z) (env : list string) : Prop := exists h he, projectHost host = Ok h /\ host_env h = Ok he /\ he `prefix_of` env.
Definition fx_env (e : Effect) : list string := match e with FxUp u _ => upEnv u | FxDown _ _ env _ | FxRestart _ _ env _ => env end.
Definition authorised_fx (claims : option (Z * string)) (e : Effect) : Prop := exists host, may_use claims true host /\ aims_at host (fx_env e).
(** Looking at a host's volumes takes the right to read, touching them to write. *)
Definition authorised_call (claims : option (Z * string)) (c : VolCall) : Prop :=
  match c with
  | VLocal => True
  | VClient h | VInspect h _ | VList h | VCopyFrom h _ => may_use claims false h
  | VCreate h _ | VCopyTo h _ | VEmpty h _ | VRemove h _ => may_use claims true h
  end.

Lemma checkAccess_read u section host : checkAccess u section true host = None -> checkAccess u section false host = None.
Proof.
  unfold checkAccess. repeat case_match; try done. all: intros; simplify_eq/=; try done.
  all: repeat match goal with H : context [_ && _] |- _ => revert H end; simpl; destruct (Write _); simpl; intros; congruence.
Qed.
Lemma may_use_read claims host : may_use claims true host -> may_use claims false host.
Proof. intros (uid & n & u & H1 & H2 & H3 & H4). exists uid, n, u. split; [done|]. split; [done|]. split; [by apply checkAccess_read|done]. Qed.

Section Request.
Context (claims : option (Z * string)) (req : Request) (rawID : string) (F : Effect -> Prop).
Notation does := (does (F) (authorised_call claims)).

Lemma on_host_authorised host c : may_use claims true host ->
  match c with VLocal => True | VClient h | VInspect h _ | VCreate h _ | VCopyTo h _ | VCopyFrom h _ | VEmpty h _ | VList h | VRemove h _ => h = host end ->
  authorised_call claims c.
Proof. intros Hm. destruct c; simpl; intros H; subst; try done; by apply may_use_read. Qed.

Lemma does_demand status e : does (demand status e) (fun _ => e = None).
Proof. destruct e; [apply does_fail|by apply does_ret]. Qed.

(** What a project got from its route tells about the caller. *)
Definition loaded (p : Project) : Prop := exists uid n u, claims = Some (uid, n) /\ gsUserByID uid = Ok u /\
  checkAccess u "projects" false (pHostID p) = None /\ (isWriteRequest req = true -> checkAccess u "projects" true (pHostID p) = None).

Lemma caller_ok u : caller claims = Ok u -> exists uid n, claims = Some (uid, n) /\ gsUserByID uid = Ok u.
Proof. unfold caller. destruct claims as [[uid n]|]; [|done]. destruct (gsUserByID uid) eqn:E; [|done]. intros [= <-]. by exists uid, n. Qed.

Lemma loadProject_spec w w' p : loadProject claims req rawID w = (w', Ok p) ->
  w' = w /\ loaded p /\ exists id, ParseInt rawID = Some id /\ ProjectByID store_fault id (xDB w) = Ok p.
Proof.
  unfold loadProject. destruct (ParseInt rawID) as [id|]; [|done]. intros H. apply st_bind_ok in H as (w1 & p1 & H1 & H).
  unfold or_answer, pread in H1. destruct (ProjectByID store_fault id (xDB w)) as [q|e] eqn:Ep; [|by destruct e]. injection H1 as <- <-.
  unfold requireSectionOnHost in H. destruct (caller claims) as [u|] eqn:Eu; [|done]. destruct (caller_ok u Eu) as (uid & n & Hc & Hu).
  destruct (checkAccess u "projects" false (pHostID q)) eqn:Er; [done|]. destruct (isWriteRequest req) eqn:Ew.
  - destruct (checkAccess u "projects" true (pHostID q)) eqn:Ewr; [done|]. injection H as <- <-. split; [done|]. split; [by exists uid, n, u|by exists id].
  - injection H as <- <-. split; [done|]. split; [|by exists id]. exists uid, n, u. by rewrite Ew.
Qed.

Lemma loadProject_err w : (loadProject claims req rawID w).1 = w.
Proof.
  unfold loadProject. destruct (ParseInt rawID) as [id|]; [|done]. unfold mbind, stM_bind, or_answer, pread.
  destruct (ProjectByID store_fault id (xDB w)); [|done]. by repeat case_match.
Qed.
Lemma does_load : does (loadProject claims req rawID) loaded.
Proof.
  intros w. pose proof (loadProject_err w) as Hw. destruct (loadProject claims req rawID w) as [w1 [p|e]] eqn:E; simpl in Hw; subst w1.
  - split; [apply emits_refl|]. intros q [= <-]. by apply loadProject_spec in E as (_ & ? & _).
  - split; [apply emits_refl|done].
Qed.

Lemma requireHostAccess_may p host : loaded p -> requireHostAccess claims req host = None -> host = pHostID p \/ host <> 0 -> 
  may_use claims (isWriteRequest req) host.
Proof.
  intros (uid & n & u & Hc & Hu & Hr & Hw). unfold requireHostAccess. destruct (host =? 0) eqn:E0.
  - apply Z.eqb_eq in E0. intros _ [->|Hh]; [|done]. exists uid, n, u. split; [done|]. split; [done|]. split; [|by left].
    destruct (isWriteRequest req); [by apply Hw|done].
  - intros H _. destruct (caller claims) as [u'|] eqn:Eu; [|done]. destruct (caller_ok u' Eu) as (uid' & n' & Hc' & Hu').
    destruct (checkAccess u' "hosts" false host) eqn:Eh; [done|]. exists uid', n', u'. split; [done|]. split; [done|]. split; [done|]. by right.
Qed.

Lemma composeEnv_aims p d env : projectComposeEnv p d = Ok env -> aims_at (pHostID p) env.
Proof.
  unfold projectComposeEnv, mbind, result_bind. destruct (projectHost (pHostID p)) as [h|] eqn:Eh; [|done]. destruct (host_env h) as [he|] eqn:Ee; [|done].
  destruct (secret_envs (pID p) d); [|done]. intros [= <-]. exists h, he. split; [done|]. split; [done|]. by eexists.
Qed.

Lemma deployEnvBase_aims p dir profiles w e : projectDeployEnvBase p dir profiles w = Ok e ->
  aims_at (pHostID p) (deEnv e) /\ (forall s, deSeed e = Some s -> psHost s = pHostID p /\ psHost s <> 0 /\ psDir s = dir).
Proof.
  unfold projectDeployEnvBase, mbind, result_bind. destruct (projectHost (pHostID p)) as [h|] eqn:Eh; [|done]. destruct (is_local_kind h) eqn:El.
  - destruct (projectComposeEnv p (xDB w)) as [env|] eqn:Ee; [|done]. intros [= <-]. split; [by eapply composeEnv_aims|done].
  - assert (pHostID p <> 0) as H0. { intros H0. unfold projectHost in Eh. rewrite H0 in Eh. injection Eh as <-. done. }
    destruct (secret_envs (pID p) (xDB w)) as [s|]; [|done]. destruct (config_json _ _ _ _ _ _); [|done]. destruct (ClassifyProjectBinds _ _ _ _ _) as [[int ext]|]; [|done].
    case_match; [done|]. destruct (host_env h) as [he|] eqn:Ee; [|done].
    assert (aims_at (pHostID p) he) as Ha by (exists h, he; by split; [|split]).
    destruct int as [|b int]; [by intros [= <-]|]. case_match; [done|]. intros [= <-]. split; [done|]. by intros s' [= <-].
Qed.
Lemma deployEnv_aims p dir profiles w e : projectDeployEnv p dir profiles w = Ok e ->
  aims_at (pHostID p) (deEnv e) /\ (forall s, deSeed e = Some s -> psHost s = pHostID p /\ psHost s <> 0 /\ psDir s = dir).
Proof.
  unfold projectDeployEnv, mbind, result_bind. destruct (projectDeployEnvBase p dir profiles w) as [b|] eqn:Eb; [|done].
  destruct (secret_envs (pID p) (xDB w)) as [s|]; [|done]. destruct registry_env as [reg|]; [|done]. intros [= <-]. simpl.
  apply deployEnvBase_aims in Eb as [(h & he & H1 & H2 & H3) Hs]. split; [|done]. exists h, he. split; [done|]. split; [done|].
  by apply prefix_app_r.
Qed.

(** *** The steps of the handlers *)
Hypothesis F_down : forall host dir slug env ok, may_use claims true host -> aims_at host env -> F (FxDown dir slug env ok).
Hypothesis F_restart : forall host dir slug env ok, may_use claims true host -> aims_at host env -> F (FxRestart dir slug env ok).
Hypothesis writing : isWriteRequest req = true.
Hypothesis F_up : forall host u ok, may_use claims true host -> aims_at host (upEnv u) -> F (FxUp u ok).

Lemma does_up dir slug profiles env files build pull host : may_use claims true host -> aims_at host env ->
  does (fun w => let '(w, r) := ComposeUp dir slug profiles env files build pull w in (w, Ok r) : World * result PReply _) (fun _ => True).
Proof.
  intros Hm Ha w. unfold ComposeUp. destruct (compose_up _ _) as [out err]. split; [|done]. split; [|exists []; by rewrite app_nil_r].
  eexists. split; [done|]. constructor; [|constructor]. by apply (F_up host).
Qed.
Lemma emits_down dir slug env host w : may_use claims true host -> aims_at host env ->
  emits F (authorised_call claims) w (ComposeDown dir slug env w).1.
Proof.
  intros Hm Ha. unfold ComposeDown. destruct (compose_down _ _ _ _ _) as [out err]. split; [|exists []; by rewrite app_nil_r].
  eexists. split; [done|]. constructor; [|constructor]. by apply (F_down host).
Qed.
Lemma emits_restart dir slug env host w : may_use claims true host -> aims_at host env ->
  emits F (authorised_call claims) w (ComposeRestart dir slug env w).1.
Proof.
  intros Hm Ha. unfold ComposeRestart. destruct (compose_restart _ _ _ _ _) as [out err]. split; [|exists []; by rewrite app_nil_r].
  eexists. split; [done|]. constructor; [|constructor]. by apply (F_restart host).
Qed.

Lemma does_remote_calls {A} (m : stM Remote string A) : calls (authorised_call claims) m -> does (on_remote m) (fun _ => True).
Proof. intros H. apply does_remote. intros r. split; [apply H|done]. Qed.

Lemma does_seed s : may_use claims true (psHost s) -> does (seed_Run s) (fun _ => True).
Proof.
  intros Hm w. unfold seed_Run. destruct (does_remote_calls (SeedProjectBinds (psHost s) (dir_of (psDir s) w) (psSlug s) (psBinds s))
    (SeedProjectBinds_calls _ (psHost s) (fun c => on_host_authorised (psHost s) c Hm) _ _ _) w) as [H _].
  destruct (on_remote _ w) as [w1 [[]|e]]; by split.
Qed.

Lemma Snapshot_host host slug binds r r' snap : SnapshotSeedVolumes host slug binds r = (r', Ok snap) -> snapHost snap = host.
Proof.
  unfold SnapshotSeedVolumes. intros H. apply st_bind_ok in H as (? & ? & _ & H). apply st_bind_ok in H as (? & ? & _ & H).
  apply st_bind_ok in H as (? & ? & _ & H). by injection H as <- <-.
Qed.

Lemma emits_restore snap w : may_use claims true (snapHost snap) ->
  emits F (authorised_call claims) w (set_remote (snapshot_Restore snap (xRemote w)).1 w).
Proof.
  intros Hm. split; [exists []; by rewrite app_nil_r|].
  exact (snapshot_Restore_calls _ (snapHost snap) (fun c => on_host_authorised (snapHost snap) c Hm) snap eq_refl (xRemote w)).
Qed.

Lemma does_undoable s : may_use claims true (psHost s) -> does (seed_RunUndoable s) (fun snap => snapHost snap = psHost s).
Proof.
  intros Hm w. unfold seed_RunUndoable.
  destruct (does_remote_calls (SnapshotSeedVolumes (psHost s) (psSlug s) (psBinds s))
    (SnapshotSeedVolumes_calls _ (psHost s) (fun c => on_host_authorised (psHost s) c Hm) _ _) w) as [H _].
  unfold on_remote in *. destruct (SnapshotSeedVolumes _ _ _ (xRemote w)) as [r1 [snap|e]] eqn:Es; [|by split].
  apply Snapshot_host in Es. destruct (does_seed s Hm (set_remote r1 w)) as [H2 _]. simpl in H.
  destruct (seed_Run s (set_remote r1 w)) as [w2 [[]|e]]; simpl in *.
  - split; [by eapply emits_trans|]. by intros ? [= <-].
  - pose proof (emits_restore snap w2) as H3. rewrite Es in H3. specialize (H3 Hm). destruct (snapshot_Restore snap (xRemote w2)) as [r3 errs]. simpl in *.
    split; [|done]. by do 2 (eapply emits_trans; [eassumption|]).
Qed.

Lemma emits_undo snap w : (forall s, snap = Some s -> may_use claims true (snapHost s)) ->
  emits F (authorised_call claims) w (undo_seed snap w).1.
Proof.
  intros Hm. destruct snap as [s|]; [|apply emits_refl]. simpl. pose proof (emits_restore s w (Hm s eq_refl)) as H.
  by destruct (snapshot_Restore s (xRemote w)).
Qed.

Lemma audit_quiet p a d w : xFx (auditProject p a d w) = xFx w /\ vlog (xRemote (auditProject p a d w)) = vlog (xRemote w).
Proof. done. Qed.
Lemma does_policy p dir profiles env files confirmed kind : does (policy_check p dir profiles env files confirmed kind) (fun _ => True).
Proof.
  intros w. unfold policy_check. destruct (policyCheckOrRefuse _ _ _) as [lines refused].
  assert (emits F (authorised_call claims) w (foldl (fun w l => auditProject p l.1 l.2 w) w lines)) as H.
  { revert w. induction lines as [|l lines IH]; intros w; [apply emits_refl|]. eapply emits_trans; [|apply IH]. by apply emits_quiet. }
  by destruct refused.
Qed.

Lemma capture_quiet cl p profiles out reason w : xFx (captureRevision cl p profiles out reason w) = xFx w /\
  vlog (xRemote (captureRevision cl p profiles out reason w)) = vlog (xRemote w).
Proof.
  unfold captureRevision. destruct (CreateRevision _ _ _ _) as [d [[id n]|e]]; [|done]. unfold publish_snapshot, failRevisionCapture. by repeat case_match.
Qed.
Lemma silence_quiet p w : xFx (autoSilenceForDeploy p w) = xFx w /\ vlog (xRemote (autoSilenceForDeploy p w)) = vlog (xRemote w).
Proof. unfold autoSilenceForDeploy. by case_match. Qed.

(** A step that reads, or changes only tables, folders, audit and windows. *)
Ltac quiet := first
  [ apply does_ret; done | apply does_fail | apply does_demand
  | eapply does_weaken; [apply does_mod; intros; first [apply capture_quiet | apply silence_quiet | done] | done]
  | eapply does_weaken; [apply does_or_answer, does_pure; by intros | done]
  | eapply does_weaken; [apply does_quiet; intros ?w; unfold or_answer, pdb, pread, on_folder, step, remove_dir, remove_zips, lift;
                         repeat case_match; simplify_eq/=; done | done] ].
Ltac next := eapply does_bind; [quiet|]; intros ?? || (intros ??).

Lemma loaded_may p : loaded p -> requireHostAccess claims req (pHostID p) = None -> may_use claims true (pHostID p).
Proof. intros Hl Hr. pose proof (requireHostAccess_may p (pHostID p) Hl Hr (or_introl eq_refl)) as H. by rewrite writing in H. Qed.

Lemma does_env {A} (f : World -> result string A) status (Q : A -> Prop) : (forall w a, f w = Ok a -> Q a) -> does (from_world f status) Q.
Proof. intros H. apply does_or_answer, does_pure, H. Qed.

Lemma does_need_compose : does need_compose (fun _ => True).
Proof. unfold need_compose. destruct compose_available; [by apply does_ret|apply does_fail]. Qed.

Lemma does_deploy body : does (handleDeployProject claims req rawID body) (fun _ => True).
Proof.
  unfold handleDeployProject. eapply does_bind; [apply does_load|]. intros p Hl. apply does_holding.
  eapply does_bind; [apply does_need_compose|]. intros _ _. eapply does_bind; [apply does_demand|]. intros [] Hr. pose proof (loaded_may p Hl Hr) as Hm.
  eapply does_bind; [apply does_env; intros w a; apply deployEnv_aims|]. intros e [Ha Hs].
  eapply does_bind; [apply does_policy|]. intros _ _. apply (does_bind _ _ _ _ (fun _ => True)).
  { apply does_or_answer. unfold run_seed. destruct (deSeed e) as [s|]; [|by apply does_ret]. destruct (Hs s eq_refl) as (Hh & _). apply does_seed. by rewrite Hh. }
  intros _ _. eapply does_bind; [eapply does_up; [exact Hm|exact Ha]|]. intros [out [err|]] _; [apply does_fail|]. simpl.
  do 4 (eapply does_bind; [quiet|]; intros _ _). by apply does_ret.
Qed.

Lemma does_run (run : string -> string -> list string -> World -> World * (string * option string)) action :
  (forall dir slug env host w, may_use claims true host -> aims_at host env -> emits F (authorised_call claims) w (run dir slug env w).1) ->
  does (runProjectCompose claims req rawID run action) (fun _ => True).
Proof.
  intros Hrun. unfold runProjectCompose. eapply does_bind; [apply does_load|]. intros p Hl. apply does_holding.
  eapply does_bind; [apply does_need_compose|]. intros _ _. eapply does_bind; [apply does_demand|]. intros [] Hr. pose proof (loaded_may p Hl Hr) as Hm.
  eapply does_bind; [apply does_env; intros w a; apply composeEnv_aims|]. intros env Ha. apply (does_bind _ _ _ _ (fun _ => True)).
  { intros w. specialize (Hrun (projectRoot (pID p)) (pSlug p) env _ w Hm Ha). destruct (run _ _ _ w). by split. }
  intros [out [err|]] _; [apply does_fail|]. simpl. eapply does_bind; [quiet|]. intros _ _. by apply does_ret.
Qed.

Lemma does_teardown p : loaded p -> may_use claims true (pHostID p) -> does (tearDownOnHost claims req p (pHostID p)) (fun _ => True).
Proof.
  intros Hl Hm w. unfold tearDownOnHost. destruct compose_available; [|split; [apply emits_refl|done]]. simpl.
  destruct (requireHostAccess claims req (pHostID p)); [split; [apply emits_refl|done]|].
  match goal with |- context [projectComposeEnv ?q _] => destruct (projectComposeEnv q (xDB w)) as [env|] eqn:Ee end; [|split; [apply emits_refl|done]].
  apply composeEnv_aims in Ee. simpl in Ee. pose proof (emits_down (projectRoot (pID p)) (pSlug p) env _ w Hm Ee) as Hd.
  destruct (ComposeDown _ _ _ w) as [w1 [out [err|]]]; [by split|]. simpl in Hd. split; [|done]. eapply emits_trans; [exact Hd|].
  set (w2 := audit_on _ _ _ _ w1). eapply emits_trans; [by apply (emits_quiet _ _ w1 w2)|]. destruct (pHostID p =? 0); [apply emits_refl|].
  change (xRemote w1) with (xRemote w2). pose proof (RemoveSeedVolumes_calls (authorised_call claims) (pHostID p) (fun c => on_host_authorised (pHostID p) c Hm) (pSlug p) (xRemote w2)) as Hc.
  destruct (RemoveSeedVolumes _ _ (xRemote w2)) as [r [removed e]]. assert (emits F (authorised_call claims) w2 (set_remote r w2)) as H2.
  { split; [exists []; by rewrite app_nil_r|exact Hc]. }
  destruct (declares removed); [|exact H2]. eapply emits_trans; [exact H2|]. by apply emits_quiet.
Qed.

Lemma does_rename body : does (handleRenameProject claims req rawID body) (fun _ => True).
Proof.
  unfold handleRenameProject. eapply does_bind; [apply does_load|]. intros p Hl. apply does_holding.
  apply (does_bind _ _ _ _ (fun _ => True)); [destruct body; [by apply does_ret|apply does_fail]|]. intros b _.
  apply (does_bind _ _ _ _ (fun _ => True)); [case_match; [apply does_fail|by apply does_ret]|]. intros _ _.
  do 3 (eapply does_bind; [apply does_demand|]; intros [] _).
  apply (does_bind _ _ _ _ (fun _ => True)).
  { case_match; [|by apply does_ret]. eapply does_bind; [apply does_demand|]. intros [] Hr. eapply does_bind.
    - apply does_or_answer. apply does_teardown; [done|]. by apply loaded_may.
    - intros t _. by apply does_ret. }
  intros t _. eapply does_bind; [quiet|]. intros _ _. eapply does_bind; [quiet|]. intros _ _.
  apply (does_bind _ _ _ _ (fun _ => True)); [case_match; quiet|]. intros _ _. apply (does_bind _ _ _ _ (fun _ => True)); [case_match; quiet|]. intros _ _.
  by apply does_ret.
Qed.

Lemma does_delete force volumes : does (handleDeleteProject claims req rawID force volumes) (fun _ => True).
Proof.
  unfold handleDeleteProject. eapply does_bind; [apply does_load|]. intros p Hl. apply does_holding.
  apply (does_bind _ _ _ _ (fun _ => True)); [by apply does_quiet|]. intros deployed _.
  apply (does_bind _ _ _ _ (fun _ => True)).
  { destruct deployed; [|by apply does_ret]. unfold force_down. destruct (negb force); [apply does_fail|].
    eapply does_bind; [apply does_demand|]. intros [] Hr. eapply does_bind; [apply does_env; intros w a; apply composeEnv_aims|]. intros env Ha.
    apply (does_bind _ _ _ _ (fun _ => True)).
    { intros w. pose proof (emits_down (projectRoot (pID p)) (pSlug p) env _ w (loaded_may p Hl Hr) Ha) as Hd. destruct (ComposeDown _ _ _ w). by split. }
    intros [out [err|]] _; [apply does_fail|]. simpl. quiet. }
  intros _ _. apply (does_bind _ _ _ _ (fun _ => True)).
  { case_match; [|by apply does_ret]. unfold drop_volumes. eapply does_bind; [apply does_demand|]. intros [] Hr. apply (does_bind _ _ _ _ (fun _ => True)).
    - intros w. pose proof (RemoveSeedVolumes_calls (authorised_call claims) (pHostID p) (fun c => on_host_authorised (pHostID p) c (loaded_may p Hl Hr)) (pSlug p) (xRemote w)) as Hc.
      destruct (RemoveSeedVolumes _ _ (xRemote w)) as [r x]. split; [|done]. split; [exists []; by rewrite app_nil_r|exact Hc].
    - intros r _. apply (does_bind _ _ _ _ (fun _ => True)); [case_match; quiet|]. intros _ _. by apply does_ret. }
  intros r _. do 4 (eapply does_bind; [quiet|]; intros _ _). by apply does_ret.
Qed.

Lemma swap_emits p rev env files snap w : may_use claims true (pHostID p) -> aims_at (pHostID p) env -> (forall s, snap = Some s -> may_use claims true (snapHost s)) ->
  emits F (authorised_call claims) w (swap_and_up p rev env files snap w).1.
Proof.
  intros Hm Ha Hs. unfold swap_and_up.
  assert (forall op a b w, emits F (authorised_call claims) w (rename_dir op a b w).1) as Hren.
  { intros op a b w'. unfold rename_dir. destruct (xDirs w' !! a); [|apply emits_refl]. case_match; [apply emits_refl|by apply emits_quiet]. }
  set (existed := bool_decide _). assert (exists w1 moved, (if existed then rename_dir IoToBackup (projectRoot (pID p)) (backup_of (projectRoot (pID p))) w else (w, true)) = (w1, moved)
    /\ emits F (authorised_call claims) w w1) as (w1 & moved & -> & H1).
  { destruct existed; [|exists w, true; split; [done|apply emits_refl]]. specialize (Hren IoToBackup (projectRoot (pID p)) (backup_of (projectRoot (pID p))) w).
    destruct (rename_dir _ _ _ w) as [w1 moved]. by exists w1, moved. }
  destruct moved; simpl.
  2: { pose proof (emits_undo snap w1 Hs) as Hu. destruct (undo_seed snap w1). by eapply emits_trans. }
  pose proof (Hren IoActivate (staging_of (projectRoot (pID p))) (projectRoot (pID p)) w1) as H2. destruct (rename_dir IoActivate _ _ w1) as [w2 [|]]; simpl in H2.
  - destruct (does_up (projectRoot (pID p)) (pSlug p) (Profiles rev) env files false false (pHostID p) Hm Ha w2) as [H3 _].
    destruct (ComposeUp _ _ _ _ _ _ _ w2) as [w3 [out [err|]]]; simpl in H3; [|by do 2 (eapply emits_trans; [eassumption|])].
    pose proof (emits_undo snap w3 Hs) as Hu. destruct (undo_seed snap w3) as [w4 text]. simpl in *.
    eapply emits_trans; [exact H1|]. eapply emits_trans; [exact H2|]. eapply emits_trans; [exact H3|]. eapply emits_trans; [exact Hu|]. eapply emits_trans; [by apply (emits_quiet _ _ w4 (set_dirs (delete (projectRoot (pID p))) w4))|].
    destruct existed; [apply Hren|apply emits_refl].
  - assert (emits F (authorised_call claims) w2 (if existed then (rename_dir IoFromBackup (backup_of (projectRoot (pID p))) (projectRoot (pID p)) w2).1 else w2)) as H3
      by (destruct existed; [apply Hren|apply emits_refl]).
    set (w3 := if existed then _ else _) in *. pose proof (emits_undo snap w3 Hs) as Hu. destruct (undo_seed snap w3) as [w4 text]. simpl in *.
    eapply emits_trans; [exact H1|]. eapply emits_trans; [exact H2|]. eapply emits_trans; [exact H3|]. exact Hu.
Qed.

Lemma does_restore rawRev body : does (handleRestoreRevision claims req rawID rawRev body) (fun _ => True).
Proof.
  unfold handleRestoreRevision. eapply does_bind; [apply does_load|]. intros p Hl. eapply does_bind; [apply does_demand|]. intros [] Hr.
  pose proof (loaded_may p Hl Hr) as Hm. apply does_holding. eapply does_bind; [apply does_need_compose|]. intros _ _.
  destruct (ParseInt rawRev) as [n|]; [|apply does_fail]. eapply does_bind; [quiet|]. intros rev _. case_match; [apply does_fail|].
  apply (does_bind _ _ _ _ (fun _ => True)); [by apply does_env|]. intros zr _. eapply does_bind; [quiet|]. intros _ _.
  apply (does_bind _ _ _ _ (fun _ => True)); [case_match; quiet|]. intros _ _. eapply does_bind; [quiet|]. intros _ _.
  assert (forall m : HM PReply, does m (fun _ => True) -> does (step (fun w => let '(w, r) := m w in (set_dirs (delete (staging_of (projectRoot (pID p)))) w, r))) (fun _ => True)) as Hlast.
  { intros m Hd w. destruct (Hd w) as [H1 _]. unfold step. destruct (m w) as [w1 r]. split; [|done]. eapply emits_trans; [exact H1|]. by apply emits_quiet. }
  apply Hlast. unfold restore_from_staging. eapply does_bind; [quiet|]. intros s _.
  apply (does_bind _ _ _ _ (fun _ => True)); [apply does_quiet; intros w; by destruct (config_check _ _ _ _) as [out [e|]]|]. intros _ _.
  eapply does_bind; [apply does_env; intros w a; apply deployEnv_aims|]. intros e [Ha Hs].
  apply (does_bind _ _ _ _ (fun _ => True)); [repeat case_match; quiet|]. intros files _.
  eapply does_bind; [apply does_policy|]. intros _ _.
  apply (does_bind _ _ _ _ (fun snap => forall s, snap = Some s -> may_use claims true (snapHost s))).
  { destruct (deSeed e) as [sd|]; [|by apply does_ret]. destruct (Hs sd eq_refl) as (Hh & _). eapply does_bind.
    - apply does_or_answer, does_undoable. by rewrite Hh.
    - intros snap Hsn. apply does_ret. intros s' [= <-]. by rewrite Hsn, Hh. }
  intros snap Hsnap. apply (does_bind _ _ _ _ (fun _ => True)); [intros w; split; [by apply swap_emits|done]|]. intros out _.
  do 4 (eapply does_bind; [quiet|]; intros _ _). by apply does_ret.
Qed.

Lemma does_body {A} (b : option A) : does (body_of b) (fun _ => True).
Proof. destruct b; [by apply does_ret|apply does_fail]. Qed.
Lemma does_check {A} (b : bool) (a : A) r : does (if b then mret a else answer r : HM A) (fun _ => True).
Proof. destruct b; [by apply does_ret|apply does_fail]. Qed.
Lemma does_check' {A} (b : bool) (a : A) r : does (if b then answer r else mret a : HM A) (fun _ => True).
Proof. destruct b; [apply does_fail|by apply does_ret]. Qed.
Lemma does_drift b : does (drift_body b) (fun _ => True).
Proof. destruct b; simpl; [case_match; [apply does_fail|by apply does_ret]|apply does_fail]. Qed.

(** Handlers that touch the tables and the folders only. *)
Ltac local_step := first
  [ apply does_load | apply does_body | apply does_check | apply does_check' | apply does_drift | quiet ].
Ltac local_handler := (eapply does_bind; [apply does_load|]; intros ?p ?Hl); try apply does_holding;
  repeat (eapply does_bind; [local_step|]; intros ? _); by apply does_ret.

Lemma does_local c : match c with CWrite _ | CUpload _ _ | CDeleteFile _ | CMakeDir _ | CIgnore _ | CUnignore _ | CNewSecret _ | CSetSecret _ _ | CDropSecret _ => True | _ => False end ->
  forall r, r = req -> does (match c with
    | CWrite b => handleWriteProjectFile claims r rawID b
    | CUpload n b => handleUploadProjectFileRaw claims r rawID n b
    | CDeleteFile n => handleDeleteProjectFile claims r rawID n
    | CMakeDir b => handleMakeProjectDir claims r rawID b
    | CIgnore b => handleIgnoreDrift claims r rawID b
    | CUnignore b => handleUnignoreDrift claims r rawID b
    | CNewSecret b => handleCreateProjectSecret claims r rawID b
    | CSetSecret n b => handleUpdateProjectSecret claims r rawID n b
    | CDropSecret n => handleDeleteProjectSecret claims r rawID n
    | _ => mret POk end) (fun _ => True).
Proof. intros Hc r ->. destruct c; try done; clear Hc; local_handler. Qed.

Lemma does_preview : does (handlePreviewProject claims req rawID) (fun _ => True).
Proof.
  unfold handlePreviewProject. eapply does_bind; [apply does_load|]. intros p Hl. apply (does_bind _ _ _ _ (fun _ => True)); [|intros; by apply does_ret].
  apply does_or_answer. unfold mcpPreviewProject. by apply does_pure.
Qed.
Lemma does_diff rev against : does (handleRevisionDiff claims req rawID rev against) (fun _ => True).
Proof.
  unfold handleRevisionDiff. eapply does_bind; [apply does_load|]. intros p Hl. destruct (ParseInt rev); [|apply does_fail]. by apply does_pure.
Qed.
End Request.

Lemma does_seed_volumes claims req rawID F : does F (authorised_call claims) (handleProjectSeedVolumes claims req rawID) (fun _ => True).
Proof.
  unfold handleProjectSeedVolumes. eapply does_bind; [apply does_load|]. intros p Hl. destruct (pHostID p =? 0); [by apply does_ret|].
  eapply does_bind; [apply does_demand|]. intros [] Hr. pose proof (requireHostAccess_may _ _ p (pHostID p) Hl Hr (or_introl eq_refl)) as Hm.
  assert (may_use claims false (pHostID p)) as Hm' by (destruct (isWriteRequest req); [by apply may_use_read|done]).
  assert (calls (authorised_call claims) (ListSeedVolumes (pHostID p) (pSlug p))) as Hc.
  { unfold ListSeedVolumes. apply calls_bind; [by apply calls_vcall|]. intros _. apply calls_bind; [by apply calls_vcall|]. intros _. by apply calls_none. }
  intros w. unfold step, on_remote. destruct (Hc (xRemote w)) as (vl & H1 & H2). destruct (ListSeedVolumes _ _ (xRemote w)) as [r [names|e]]; (split; [|done]);
    (split; [exists []; by rewrite app_nil_r|by exists vl]).
Qed.

Section Calls.
Context (claims : option (Z * string)) (rawID : string) (F : Effect -> Prop).
Hypothesis F_down : forall host dir slug env ok, may_use claims true host -> aims_at host env -> F (FxDown dir slug env ok).
Hypothesis F_restart : forall host dir slug env ok, may_use claims true host -> aims_at host env -> F (FxRestart dir slug env ok).

(** The calls that bring nothing up. *)
Lemma does_other c : match c with CDeploy _ | CRestore _ _ => False | _ => True end ->
  does F (authorised_call claims) (run_handler claims rawID c) (fun _ => True).
Proof.
  intros Hc. unfold run_handler. destruct c; try (by destruct Hc); clear Hc.
  - apply does_run; [done..|]. intros. by eapply emits_down.
  - apply does_run; [done..|]. intros. by eapply emits_restart.
  - by apply does_rename.
  - by apply does_delete.
  - exact (does_local claims (call_request (CWrite body) rawID) rawID F (CWrite body) I _ eq_refl).
  - exact (does_local claims (call_request (CUpload name body) rawID) rawID F (CUpload name body) I _ eq_refl).
  - exact (does_local claims (call_request (CDeleteFile name) rawID) rawID F (CDeleteFile name) I _ eq_refl).
  - exact (does_local claims (call_request (CMakeDir body) rawID) rawID F (CMakeDir body) I _ eq_refl).
  - exact (does_local claims (call_request (CIgnore body) rawID) rawID F (CIgnore body) I _ eq_refl).
  - exact (does_local claims (call_request (CUnignore body) rawID) rawID F (CUnignore body) I _ eq_refl).
  - exact (does_local claims (call_request (CNewSecret body) rawID) rawID F (CNewSecret body) I _ eq_refl).
  - exact (does_local claims (call_request (CSetSecret name body) rawID) rawID F (CSetSecret name body) I _ eq_refl).
  - exact (does_local claims (call_request (CDropSecret name) rawID) rawID F (CDropSecret name) I _ eq_refl).
  - by apply does_preview.
  - apply does_seed_volumes.
  - by apply does_diff.
Qed.
End Calls.

End Authority.

(** ** Approval *)
Section Approval.
Context `{GS : GrantStore} `{C : Cipher} `{TE : TextEnv} `{Ln : Links} `{D : Daemon} `{En : Engine}.

(** The compose model the CLI resolves from a folder is one the stored rules allow. *)
Definition allowed_model (dir : string) (f : Folder) (slug : string) (profiles env : list string) (files : list ComposeFile) (confirmed : bool) : Prop :=
  exists modes, PolicyRuleModes policy_fault policy_rules = (modes, None) /\
    deploy_allowed modes (match config_json dir f slug profiles env files with Ok j => Some (decode_doc j) | Err _ => None end) confirmed.
(** What is brought up was resolved and allowed first: in its place or, for a restore, in the staging copy. *)
Definition approved (confirmed : bool) (e : Effect) : Prop :=
  match e with
  | FxUp u _ => exists dir, (dir = upDir u \/ dir = staging_of (upDir u)) /\
                  allowed_model dir (upFolder u) (upSlug u) (upProfiles u) (upEnv u) (upFiles u) confirmed
  | _ => True
  end.
Definition confirms (c : ProjectCall) : bool :=
  match c with CDeploy b => dbConfirm (default no_deploy_body b) | CRestore _ b => b.2 | _ => false end.

Definition grows (F : Effect -> Prop) (w w' : World) : Prop := exists fx, xFx w' = xFx w ++ fx /\ Forall F fx.
Lemma grows_same F w w' : xFx w' = xFx w -> grows F w w'.
Proof. intros H. exists []. by rewrite H, app_nil_r. Qed.
Lemma grows_trans F w1 w2 w3 : grows F w1 w2 -> grows F w2 w3 -> grows F w1 w3.
Proof. intros (a & H1 & H2) (b & H3 & H4). exists (a ++ b). rewrite H3, H1, <- app_assoc. split; [done|]. by apply Forall_app. Qed.

(** Started where [P] holds: only effects with [F], and a result with [Q]. *)
Definition runs (F : Effect -> Prop) {E A} (P : World -> Prop) (m : stM World E A) (Q : A -> World -> Prop) : Prop :=
  forall w, P w -> grows F w (m w).1 /\ (forall a, (m w).2 = Ok a -> Q a (m w).1).
Lemma runs_bind F {E A B} P (m : stM World E A) (k : A -> stM World E B) R Q : runs F P m R -> (forall a, runs F (R a) (k a) Q) -> runs F P (m ≫= k) Q.
Proof.
  intros Hm Hk w Hw. unfold mbind, stM_bind. destruct (Hm w Hw) as [H1 H2]. destruct (m w) as [w1 [a|e]]; simpl in *; [|done].
  destruct (Hk a w1 (H2 a eq_refl)) as [H3 H4]. split; [by eapply grows_trans|done].
Qed.
Lemma runs_ret F {E A} (P : World -> Prop) (a : A) Q : (forall w, P w -> Q a w) -> runs F P (mret a : stM World E A) Q.
Proof. intros H w Hw. split; [by apply grows_same|]. intros ? [= <-]. by apply H. Qed.
Lemma runs_fail F {E A} P (e : E) (Q : A -> World -> Prop) : runs F P (st_fail e) Q.
Proof. intros w _. split; [by apply grows_same|done]. Qed.
(** A step that starts nothing. *)
Lemma runs_quiet F {E A} (P : World -> Prop) (m : stM World E A) (Q : A -> World -> Prop) :
  (forall w, P w -> xFx (m w).1 = xFx w /\ forall a, (m w).2 = Ok a -> Q a (m w).1) -> runs F P m Q.
Proof. intros H w Hw. destruct (H w Hw). split; [by apply grows_same|done]. Qed.
Lemma runs_weaken F {E A} (P P' : World -> Prop) (m : stM World E A) (Q : A -> World -> Prop) : runs F P' m Q -> (forall w, P w -> P' w) -> runs F P m Q.
Proof. intros H HP w Hw. by apply H, HP. Qed.
Lemma runs_holding F {A} id what refuse (m : HM A) : runs F (fun _ => True) m (fun _ _ => True) -> runs F (fun _ => True) (holding id what refuse m) (fun _ _ => True).
Proof.
  intros Hm w _. unfold holding, beginProjectOp. destruct (xOps w !! id); [split; [by apply grows_same|done]|].
  destruct (Hm (set_ops (<[id := what]>) w) I) as [H1 _]. destruct (m _) as [w1 r]. by split.
Qed.

Lemma audits_same {X} (p : Project) (lines : list X) f g w : let w' := foldl (fun w l => auditProject p (f l) (g l) w) w lines in
  xFx w' = xFx w /\ xDirs w' = xDirs w /\ xRemote w' = xRemote w /\ xDB w' = xDB w /\ xZips w' = xZips w /\ xWins w' = xWins w /\ xOps w' = xOps w.
Proof. cbv zeta. revert w. induction lines as [|l lines IH]; intros w; [done|]. cbn [foldl]. destruct (IH (auditProject p (f l) (g l) w)) as (-> & -> & -> & -> & -> & -> & ->). done. Qed.

Lemma policy_check_allows p dir profiles env files confirmed kind w : let r := policy_check p dir profiles env files confirmed kind w in
  xFx r.1 = xFx w /\ xDirs r.1 = xDirs w /\ (r.2 = Ok tt -> allowed_model dir (dir_of dir w) (pSlug p) profiles env files confirmed).
Proof.
  cbv zeta. unfold policy_check, deploy_verdict. destruct (policyCheckOrRefuse _ confirmed kind) as [lines refused] eqn:E.
  destruct (audits_same p lines fst snd w) as (H1 & H2 & _). cbv beta zeta in H1, H2. destruct refused; simpl; (split; [exact H1|]; split; [exact H2|]); [done|]. intros _.
  unfold resolve_policy in E. apply (policy_gate_exact policy_fault policy_rules _ confirmed kind). by rewrite E.
Qed.

Lemma run_seed_same s w : xFx (run_seed s w).1 = xFx w /\ xDirs (run_seed s w).1 = xDirs w.
Proof.
  destruct s as [s|]; [|done]. simpl. unfold seed_Run, on_remote. destruct (SeedProjectBinds _ _ _ _ (xRemote w)) as [r [[]|e]]; done.
Qed.

Definition up_next confirmed dir (p : Project) profiles env files (w : World) : Prop := allowed_model dir (dir_of dir w) (pSlug p) profiles env files confirmed.

Ltac still := first [ apply runs_fail | apply runs_ret; by intros | apply runs_quiet; intros ?w ?; split; [by repeat case_match|by intros] ].

Lemma deploy_approved claims req rawID body : runs (approved (dbConfirm (default no_deploy_body body))) (fun _ => True) (handleDeployProject claims req rawID body) (fun _ _ => True).
Proof.
  unfold handleDeployProject. apply (runs_bind _ _ _ _ (fun _ _ => True)); [apply runs_quiet; intros w _; by rewrite loadProject_err|]. intros p. apply runs_holding.
  apply (runs_bind _ _ _ _ (fun _ _ => True)); [unfold need_compose; case_match; still|]. intros _.
  apply (runs_bind _ _ _ _ (fun _ _ => True)); [unfold demand; case_match; still|]. intros _.
  apply (runs_bind _ _ _ _ (fun _ _ => True)); [apply runs_quiet; intros w _; unfold from_world, or_answer; by case_match|]. intros e.
  set (dir := projectRoot (pID p)). set (profiles := NormalizeProfiles _). set (confirmed := dbConfirm _).
  apply (runs_bind _ _ _ _ (fun _ => up_next confirmed dir p profiles (deEnv e) (deFiles e))).
  { apply runs_quiet. intros w _. destruct (policy_check_allows p dir profiles (deEnv e) (deFiles e) confirmed policyKindDeploy w) as (H1 & H2 & H3).
    split; [exact H1|]. intros [] Ha. unfold up_next, dir_of. rewrite H2. by apply H3. }
  intros _. apply (runs_bind _ _ _ _ (fun _ => up_next confirmed dir p profiles (deEnv e) (deFiles e))).
  { apply runs_quiet. intros w Hw. destruct (run_seed_same (deSeed e) w) as [H1 H2]. unfold or_answer, up_next, dir_of in *.
    destruct (run_seed (deSeed e) w) as [w1 [[]|err]]; simpl in *; (split; [exact H1|]); [|done]. intros _ _. by rewrite H2. }
  intros _. apply (runs_bind _ _ _ _ (fun _ _ => True)).
  { intros w Hw. unfold ComposeUp. destruct (compose_up _ _) as [out err]. split; [|done]. eexists. split; [done|]. constructor; [|constructor].
    simpl. exists dir. split; [by left|exact Hw]. }
  intros [out [err|]]; [apply runs_fail|]. simpl. 
  do 4 (apply (runs_bind _ _ _ _ (fun _ _ => True)); [apply runs_quiet; intros w _; first [by destruct (capture_quiet claims p profiles out (dbReason (default no_deploy_body body)) w)|by destruct (silence_quiet p w)|done]|]; intros _).
  by apply runs_ret.
Qed.

Lemma str_cancel (a b c : string) : a +:+ b = a +:+ c -> b = c.
Proof. induction a as [|d a IH]; [done|]. change (String d a +:+ b) with (String d (a +:+ b)). change (String d a +:+ c) with (String d (a +:+ c)). intros [= H]. by apply IH. Qed.
Lemma scratch_apart root : staging_of root <> root /\ backup_of root <> root /\ staging_of root <> backup_of root.
Proof.
  assert (root = root +:+ "") as H0 by (induction root as [|d a IH]; [done|]; change (String d a +:+ "") with (String d (a +:+ "")); by rewrite <- IH).
  unfold staging_of, backup_of. repeat split; intros H; [rewrite H0 in H at 2|rewrite H0 in H at 2|]; by apply str_cancel in H.
Qed.

Lemma rename_dir_spec op a b w : let r := rename_dir op a b w in xFx r.1 = xFx w /\ xRemote r.1 = xRemote w /\ xDB r.1 = xDB w /\ xZips r.1 = xZips w /\ xOps r.1 = xOps w /\
  xWins r.1 = xWins w /\ xAudit r.1 = xAudit w /\
  (if r.2 then exists f, xDirs w !! a = Some f /\ dir_of b w = ∅ /\ io_fault op = false /\ xDirs r.1 = <[b := f]> (delete a (xDirs w)) else r.1 = w).
Proof.
  cbv zeta. unfold rename_dir. destruct (xDirs w !! a) as [f|]; [|done]. destruct (io_fault op || bool_decide (dir_of b w <> ∅)) eqn:E; [done|].
  apply orb_false_iff in E as [E1 E2%bool_decide_eq_false]. simpl. repeat (split; [done|]). exists f. split; [done|]. split; [|done].
  destruct (decide (dir_of b w = ∅)); [done|]. by destruct E2.
Qed.

Lemma undo_same snap w : xFx (undo_seed snap w).1 = xFx w /\ xDirs (undo_seed snap w).1 = xDirs w /\ xDB (undo_seed snap w).1 = xDB w /\ xZips (undo_seed snap w).1 = xZips w.
Proof. destruct snap as [s|]; [|done]. simpl. by destruct (snapshot_Restore s (xRemote w)). Qed.

Lemma swap_approved p rev env files snap confirmed w : up_next confirmed (staging_of (projectRoot (pID p))) p (Profiles rev) env files w ->
  grows (approved confirmed) w (swap_and_up p rev env files snap w).1.
Proof.
  intros Hup. unfold swap_and_up. set (root := projectRoot (pID p)) in *. destruct (scratch_apart root) as (A1 & A2 & A3).
  set (existed := bool_decide _).
  assert (exists w1 moved, (if existed then rename_dir IoToBackup root (backup_of root) w else (w, true)) = (w1, moved) /\ xFx w1 = xFx w /\
    xDirs w1 !! staging_of root = xDirs w !! staging_of root) as (w1 & moved & -> & X1 & D1).
  { destruct existed; [|by exists w, true]. pose proof (rename_dir_spec IoToBackup root (backup_of root) w) as H. destruct (rename_dir _ _ _ w) as [w1 [|]]; simpl in H.
    - destruct H as (Hx & _ & _ & _ & _ & _ & _ & f & _ & _ & _ & Hd). exists w1, true. split; [done|]. split; [done|]. rewrite Hd, lookup_insert_ne, lookup_delete_ne; congruence.
    - destruct H as (_ & _ & _ & _ & _ & _ & _ & ->). by exists w, false. }
  destruct moved; simpl.
  2: { pose proof (undo_same snap w1) as (U & _). destruct (undo_seed snap w1). simpl in *. apply grows_same. congruence. }
  pose proof (rename_dir_spec IoActivate (staging_of root) root w1) as H. destruct (rename_dir IoActivate _ _ w1) as [w2 [|]]; simpl in H.
  - destruct H as (X2 & _ & _ & _ & _ & _ & _ & f & Hf & _ & _ & D2). unfold ComposeUp. destruct (compose_up _ _) as [out err].
    set (u := mkUp root (dir_of root w2) _ _ _ _ _ _). assert (forall b, approved confirmed (FxUp u b)) as Hu.
    { intros b. exists (staging_of root). split; [by right|]. unfold up_next in Hup. simpl.
      assert (dir_of (staging_of root) w = dir_of root w2) as <-; [|exact Hup]. unfold dir_of. by rewrite D2, lookup_insert_eq, <- D1, Hf. }
    assert (forall w', xFx w' = xFx w2 ++ [FxUp u match err with Some _ => false | None => true end] -> grows (approved confirmed) w w') as Hg.
    { intros w' Hw'. eexists. rewrite Hw', X2, X1. split; [done|]. by constructor; [|constructor]. }
    destruct err as [err|]; [|by apply Hg]. set (w3 := add_fx _ w2). pose proof (undo_same snap w3) as (U & _). destruct (undo_seed snap w3) as [w4 text]. simpl in *.
    apply Hg. destruct existed; [|simpl; by rewrite U]. rewrite (proj1 (rename_dir_spec _ _ _ _)). simpl. by rewrite U.
  - destruct H as (_ & _ & _ & _ & _ & _ & _ & ->).
    set (w3 := if existed then _ else _). assert (xFx w3 = xFx w) as X3 by (unfold w3; destruct existed; [by rewrite (proj1 (rename_dir_spec _ _ _ _))|done]).
    pose proof (undo_same snap w3) as (U & _). destruct (undo_seed snap w3). simpl in *. apply grows_same. congruence.
Qed.

Lemma undoable_same s w : xFx (seed_RunUndoable s w).1 = xFx w /\ xDirs (seed_RunUndoable s w).1 = xDirs w.
Proof.
  unfold seed_RunUndoable, on_remote. destruct (SnapshotSeedVolumes _ _ _ (xRemote w)) as [r [snap|e]]; [|done].
  pose proof (run_seed_same (Some s) (set_remote r w)) as [H1 H2]. simpl in H1, H2. destruct (seed_Run s (set_remote r w)) as [w1 [[]|e]]; simpl in *; [done|].
  by destruct (snapshot_Restore snap (xRemote w1)).
Qed.

Lemma restore_staged_approved claims p rev n reason confirmed :
  runs (approved confirmed) (fun _ => True) (restore_from_staging claims p rev n reason confirmed) (fun _ _ => True).
Proof.
  unfold restore_from_staging. set (staging := staging_of (projectRoot (pID p))).
  apply (runs_bind _ _ _ _ (fun _ _ => True)); [apply runs_quiet; intros w _; unfold or_answer; by case_match|]. intros s.
  apply (runs_bind _ _ _ _ (fun _ _ => True)); [apply runs_quiet; intros w _; by destruct (config_check _ _ _ _) as [out [e|]]|]. intros _.
  apply (runs_bind _ _ _ _ (fun _ _ => True)); [apply runs_quiet; intros w _; unfold from_world, or_answer; by case_match|]. intros e.
  apply (runs_bind _ _ _ _ (fun _ _ => True)); [repeat case_match; first [apply runs_fail|by apply runs_ret]|]. intros files.
  apply (runs_bind _ _ _ _ (fun _ => up_next confirmed staging p (Profiles rev) (deEnv e) files)).
  { apply runs_quiet. intros w _. destruct (policy_check_allows p staging (Profiles rev) (deEnv e) files confirmed policyKindRestore w) as (H1 & H2 & H3).
    split; [exact H1|]. intros [] Ha. unfold up_next, dir_of. rewrite H2. by apply H3. }
  intros _. apply (runs_bind _ _ _ _ (fun _ => up_next confirmed staging p (Profiles rev) (deEnv e) files)).
  { destruct (deSeed e) as [sd|]; [|by apply runs_ret]. apply (runs_bind _ _ _ _ (fun _ => up_next confirmed staging p (Profiles rev) (deEnv e) files)).
    - apply runs_quiet. intros w Hw. destruct (undoable_same sd w) as [H1 H2]. unfold or_answer, up_next, dir_of in *.
      destruct (seed_RunUndoable sd w) as [w1 [sn|err]]; simpl in *; (split; [exact H1|]); [|done]. intros _ _. by rewrite H2.
    - intros sn. by apply runs_ret. }
  intros snap. apply (runs_bind _ _ _ _ (fun _ _ => True)); [intros w Hw; split; [by apply swap_approved|done]|]. intros out.
  apply (runs_bind _ _ _ _ (fun _ _ => True)); [by apply runs_quiet|]. intros _.
  apply (runs_bind _ _ _ _ (fun _ _ => True)); [apply runs_quiet; intros w _; split; [apply capture_quiet|done]|]. intros _.
  do 2 (apply (runs_bind _ _ _ _ (fun _ _ => True)); [by apply runs_quiet|]; intros _). by apply runs_ret.
Qed.

Lemma restore_approved claims req rawID rawRev body : runs (approved body.2) (fun _ => True) (handleRestoreRevision claims req rawID rawRev body) (fun _ _ => True).
Proof.
  unfold handleRestoreRevision. apply (runs_bind _ _ _ _ (fun _ _ => True)); [apply runs_quiet; intros w _; by rewrite loadProject_err|]. intros p.
  apply (runs_bind _ _ _ _ (fun _ _ => True)); [unfold demand; case_match; still|]. intros _. apply runs_holding.
  apply (runs_bind _ _ _ _ (fun _ _ => True)); [unfold need_compose; case_match; still|]. intros _.
  destruct (ParseInt rawRev) as [n|]; [|apply runs_fail].
  apply (runs_bind _ _ _ _ (fun _ _ => True)); [apply runs_quiet; intros w _; unfold or_answer, pread; by case_match|]. intros rev.
  destruct (negb (Valid rev)); [apply runs_fail|].
  apply (runs_bind _ _ _ _ (fun _ _ => True)); [apply runs_quiet; intros w _; unfold from_world, or_answer; by case_match|]. intros zr.
  apply (runs_bind _ _ _ _ (fun _ _ => True)); [by apply runs_quiet|]. intros _.
  apply (runs_bind _ _ _ _ (fun _ _ => True)); [case_match; [apply runs_fail|by apply runs_ret]|]. intros _.
  apply (runs_bind _ _ _ _ (fun _ _ => True)); [by apply runs_quiet|]. intros _.
  intros w _. destruct (restore_staged_approved claims p rev n body.1 body.2 w I) as [H _]. unfold step. by destruct (restore_from_staging _ _ _ _ _ _ w).
Qed.

(** C3: nothing is ever brought up through the web interface, by a deploy or by a
    restore, unless the stored rules could be read and allow the very compose model the
    CLI resolves from the files, profiles, environment and overrides `up` is given. *)
Theorem deploys_are_approved claims rawID c w : grows (approved (confirms c)) w (run_call claims rawID c w).1.
Proof.
  assert (grows (approved (confirms c)) w (run_handler claims rawID c w).1) as H.
  { destruct (match c with CDeploy _ | CRestore _ _ => true | _ => false end) eqn:E.
    - destruct c; try done; [by apply deploy_approved|by apply restore_approved].
    - destruct (does_other claims rawID (approved (confirms c)) (fun _ _ _ _ _ _ _ => I) (fun _ _ _ _ _ _ _ => I) c) with (w := w) as [[(fx & H1 & H2) _] _]; [by destruct c|].
      by exists fx. }
  unfold run_call. by destruct (run_handler claims rawID c w) as [w1 [r|r]].
Qed.
End Approval.
