(* ===== verification/ProjectOutcomes.v ===== *)
(** * What comes of the projects' operations

    A restore happens wholly or not at all, one operation at a time runs on a project,
    and the snapshot a deploy records is the folder it deployed. *)
From S2P Require Import Prelude GoStrings Users Roles Access Calendar Maintenance MaintenanceHandlers Paths Compose Policy Preview Sandbox ProjectStore Binds Projects ProjectSpec.

Section Outcomes.
Context `{GS : GrantStore} `{C : Cipher} `{TE : TextEnv} `{Ln : Links} `{D : Daemon} `{En : Engine}.

(** ** Steps with a failure *)
(** From [P] a step ends in [Q], or in a reply with [X]. *)
Definition until {A} (P : World -> Prop) (m : HM A) (Q : A -> World -> Prop) (X : PReply -> World -> Prop) : Prop :=
  forall w, P w -> match m w with (w', Ok a) => Q a w' | (w', Err r) => X r w' end.
Lemma until_bind {A B} P (m : HM A) (k : A -> HM B) R Q X : until P m R X -> (forall a, until (R a) (k a) Q X) -> until P (m ≫= k) Q X.
Proof. intros Hm Hk w Hw. specialize (Hm w Hw). unfold mbind, stM_bind. destruct (m w) as [w1 [a|e]]; [by apply Hk|done]. Qed.
Lemma until_mod (P Q : World -> Prop) f X : (forall w, P w -> Q (f w)) -> until P (st_mod f) (fun _ => Q) X.
Proof. intros H w Hw. by apply H. Qed.
(** A step that only looks. *)
Lemma until_look {A} (P : World -> Prop) (m : HM A) (X : PReply -> World -> Prop) : (forall w, (m w).1 = w) -> (forall r w, P w -> X r w) -> until P m (fun _ => P) X.
Proof. intros H HX w Hw. specialize (H w). destruct (m w) as [w1 [a|e]]; simpl in H; subst w1; [done|by apply HX]. Qed.

Section Restore.
Context `{!DaemonLaws D} (p : Project) (n : Z) (w0 : World).
Notation root := (projectRoot (pID p)).
Notation staging := (staging_of root).
Notation backup := (backup_of root).

(** Nothing changed but the scratch folders. *)
Definition tables_as_were (w : World) : Prop := xDB w = xDB w0 /\ xZips w = xZips w0 /\ xWins w = xWins w0 /\ xOps w = xOps w0.
Definition folders_as_were (w : World) : Prop := forall d, d <> staging -> d <> backup -> xDirs w !! d = xDirs w0 !! d.
Definition volumes_as_were (w : World) : Prop := vols (xRemote w) = vols (xRemote w0).
(** The reply owns up to volumes it could not put back. *)
Definition admission (msg : string) : Prop := exists a b,
  msg = a +:+ "; putting the volumes back also failed: " +:+ b \/ msg = a +:+ " Putting the volumes on the host back FAILED, so they may hold the revision's files: " +:+ b.
Definition admits (r : PReply) : Prop := match r with PErr _ msg | PFail msg _ => admission msg | _ => False end.
Definition undone (r : PReply) (w : World) : Prop :=
  tables_as_were w /\ (io_fault IoFromBackup = false -> folders_as_were w) /\ (volumes_as_were w \/ admits r).
(** The revision's files are beside the folder, nothing else has changed on the disk. *)
Definition staged (F : Folder) (w : World) : Prop := tables_as_were w /\ folders_as_were w /\ xDirs w !! staging = Some F /\ xDirs w !! backup = None.
Definition ready (F : Folder) (w : World) : Prop := staged F w /\ volumes_as_were w.

Lemma ready_undone F r w : ready F w -> undone r w.
Proof. intros ((H1 & H2 & _) & H3). split; [done|]. split; [done|]. by left. Qed.
Lemma staged_as F w w' : staged F w -> xDB w' = xDB w -> xZips w' = xZips w -> xWins w' = xWins w -> xOps w' = xOps w -> xDirs w' = xDirs w -> staged F w'.
Proof.
  intros ((H1 & H2 & H3 & H4) & H5 & H6) E1 E2 E3 E4 E5. unfold staged, tables_as_were, folders_as_were. by rewrite E1, E2, E3, E4, E5.
Qed.

(** *** The volumes *)
(** What was seeded can be taken back. *)
Definition undoable (snap : option SeedSnapshot) (w : World) : Prop :=
  match snap with
  | None => volumes_as_were w
  | Some s => forall r, vols r = vols (xRemote w) -> match snapshot_Restore s r with (r', []) => vols r' = vols (xRemote w0) | _ => True end
  end.
Lemma undo_seed_back snap w : undoable snap w -> match undo_seed snap w with (w', text) =>
    xDB w' = xDB w /\ xZips w' = xZips w /\ xWins w' = xWins w /\ xOps w' = xOps w /\ xDirs w' = xDirs w /\ (volumes_as_were w' \/ forall a, admission (a +:+ text)) end.
Proof.
  destruct snap as [s|]; simpl; [|intros H; repeat (split; [done|]); by left]. intros H. specialize (H (xRemote w) eq_refl).
  destruct (snapshot_Restore s (xRemote w)) as [r [|e errs]]; repeat (split; [done|]); [by left|]. right. intros a. exists a. eexists. right. done.
Qed.

Lemma RunUndoable_until F sd : until (ready F) (or_answer (PErr 400) (seed_RunUndoable sd)) (fun snap w => staged F w /\ undoable (Some snap) w) undone.
Proof.
  intros w [Hs Hv]. unfold or_answer, seed_RunUndoable, on_remote.
  pose proof (SnapshotSeedVolumes_keeps (psHost sd) (psSlug sd) (psBinds sd) (xRemote w)) as Hk.
  destruct (SnapshotSeedVolumes _ _ _ (xRemote w)) as [r1 [snap|e]] eqn:E1; simpl in Hk.
  2: { split; [apply Hs|]. split; [intros _; apply Hs|]. left. unfold volumes_as_were. simpl. by rewrite Hk. }
  unfold seed_Run, on_remote. simpl. destruct (SeedProjectBinds _ _ _ _ r1) as [r2 res] eqn:E2.
  assert (forall r, vols r = vols r2 -> match snapshot_Restore snap r with (r', []) => vols r' = vols (xRemote w0) | _ => True end) as Hback.
  { intros r Hr. destruct (snapshot_Restore snap r) as [r' [|e errs]] eqn:E3; [|done]. rewrite <- Hv. by eapply undone_seed. }
  destruct res as [[]|e].
  - split; [by apply (staged_as F w)|]. exact Hback.
  - simpl. specialize (Hback r2 eq_refl). destruct (snapshot_Restore snap r2) as [r3 [|e' errs]].
    + split; [apply Hs|]. split; [intros _; apply Hs|]. by left.
    + split; [apply Hs|]. split; [intros _; apply Hs|]. right. exists ("copying the project files to " +:+ Quote (psHostName sd) +:+ " failed: " +:+ e). eexists. left. done.
Qed.

(** *** The swap *)
Definition swapped (F : Folder) (w : World) : Prop := xDirs w !! root = Some F /\ xDirs w !! staging = None /\ xOps w = xOps w0 /\
  forall d, d <> root -> d <> staging -> d <> backup -> xDirs w !! d = xDirs w0 !! d.

(** The old folder is aside. *)
Definition away (w : World) : Prop := tables_as_were w /\ xDirs w !! root = None /\ xDirs w !! backup = xDirs w0 !! root /\
  forall d, d <> root -> d <> staging -> d <> backup -> xDirs w !! d = xDirs w0 !! d.
Notation existed := (bool_decide (is_Some (xDirs w0 !! root))).
Lemma put_folder_back w : away w -> let w' := if existed then (rename_dir IoFromBackup backup root w).1 else w in
  tables_as_were w' /\ xRemote w' = xRemote w /\ (io_fault IoFromBackup = false -> folders_as_were w').
Proof.
  intros ((T1 & T2 & T3 & T4) & Hr & Hb & Hd). destruct (scratch_apart root) as (A1 & A2 & A3). cbv zeta. case_bool_decide as Hx.
  - destruct Hx as [f Hf]. pose proof (rename_dir_spec IoFromBackup backup root w) as (_ & H2 & H3 & H4 & H5 & H6 & _).
    split; [unfold tables_as_were; rewrite H3, H4, H5, H6; done|]. split; [done|]. intros Hio d D1 D2.
    unfold rename_dir. rewrite Hb, Hf, Hio. unfold dir_of. rewrite Hr. simpl. case_bool_decide as Hne; [by destruct Hne|]. simpl.
    destruct (decide (d = root)) as [->|]; [by rewrite lookup_insert_eq|].
    rewrite lookup_insert_ne, lookup_delete_ne by done. by apply Hd.
  - split; [done|]. split; [done|]. intros _ d D1 D2. destruct (decide (d = root)) as [->|]; [|by apply Hd].
    rewrite Hr. destruct (xDirs w0 !! root); [by destruct Hx|done].
Qed.

Lemma swap_until rev env files snap F : until (fun w => staged F w /\ undoable snap w) (swap_and_up p rev env files snap) (fun _ => swapped F) undone.
Proof.
  intros w [(Ht & Hd & Hs & Hb) Hu]. destruct (scratch_apart root) as (A1 & A2 & A3). unfold swap_and_up.
  rewrite (Hd root) by done.
  assert (exists w1 moved, (if existed then rename_dir IoToBackup root backup w else (w, true)) = (w1, moved) /\ xRemote w1 = xRemote w /\
    (if moved then away w1 /\ xDirs w1 !! staging = Some F else w1 = w)) as (w1 & moved & -> & R1 & H1).
  { case_bool_decide as Hx.
    - pose proof (rename_dir_spec IoToBackup root backup w) as H. destruct (rename_dir _ _ _ w) as [w1 [|]]; simpl in H;
        destruct H as (_ & H2 & H3 & H4 & H5 & H6 & _ & Hm); [|by exists w1, false]. destruct Hm as (f & Hf & _ & _ & Em).
      exists w1, true. split; [done|]. split; [done|]. rewrite (Hd root) in Hf by done. unfold away, tables_as_were. rewrite H3, H4, H5, H6, Em. split; [|by rewrite lookup_insert_ne, lookup_delete_ne].
      split; [done|]. split; [by rewrite lookup_insert_ne, lookup_delete_eq|]. split; [by rewrite lookup_insert_eq|].
      intros d D1 D2 D3. rewrite lookup_insert_ne, lookup_delete_ne by done. by apply Hd.
    - exists w, true. split; [done|]. split; [done|]. split; [|done]. assert (xDirs w0 !! root = None) as H0 by (destruct (xDirs w0 !! root); [by destruct Hx|done]).
      split; [done|]. rewrite (Hd root), Hb, H0 by done. split; [done|]. split; [done|]. intros d D1 D2 D3. by apply Hd. }
  destruct moved; simpl.
  2: { subst w1. pose proof (undo_seed_back snap w Hu) as H. destruct (undo_seed snap w) as [w2 text]. destruct H as (E1 & E2 & E3 & E4 & E5 & Hv).
    split; [unfold tables_as_were; rewrite E1, E2, E3, E4; done|]. split; [intros _ d D1 D2; rewrite E5; by apply Hd|]. destruct Hv; [by left|right; apply H]. }
  destruct H1 as [Haw Hst]. assert (forall w, xRemote w = xRemote w1 -> undoable snap w) as Hun.
  { intros w' E. unfold undoable, volumes_as_were in *. by rewrite E, R1. }
  pose proof (rename_dir_spec IoActivate staging root w1) as H. destruct (rename_dir IoActivate _ _ w1) as [w2 [|]]; simpl in H.
  - destruct H as (_ & E1 & E2 & E3 & E4 & E5 & _ & f & Hf & _ & _ & Em). rewrite Hst in Hf. injection Hf as <-.
    destruct Haw as ((T1 & T2 & T3 & T4) & Hr & Hb1 & Hd1). unfold ComposeUp. destruct (compose_up _ _) as [out [err|]].
    + set (w3 := add_fx _ w2). pose proof (undo_seed_back snap w3 (Hun w3 E1)) as H. destruct (undo_seed snap w3) as [w4 text].
      destruct H as (U1 & U2 & U3 & U4 & U5 & Hv). simpl in U1, U2, U3, U4, U5. assert (away (set_dirs (delete root) w4)) as Ha.
      { unfold away, tables_as_were. simpl. rewrite U1, U2, U3, U4, U5, E2, E3, E4, E5, Em. split; [done|]. split; [by rewrite lookup_delete_eq|].
        split; [by rewrite lookup_delete_ne, lookup_insert_ne, lookup_delete_ne by done|]. intros d D1 D2 D3.
        rewrite lookup_delete_ne, lookup_insert_ne, lookup_delete_ne by done. by apply Hd1. }
      destruct (put_folder_back _ Ha) as (P1 & P2 & P3). split; [exact P1|]. split; [exact P3|]. unfold volumes_as_were. rewrite P2.
      destruct Hv as [Hv|Hv]; [by left|right]. simpl. rewrite <- str_app_assoc. apply Hv.
    + split; [simpl; rewrite Em; by rewrite lookup_insert_eq|]. simpl. rewrite Em. split; [rewrite lookup_insert_ne, lookup_delete_eq by done; done|].
      split; [congruence|]. intros d D1 D2 D3. rewrite lookup_insert_ne, lookup_delete_ne by done. by apply Hd1.
  - destruct H as (_ & _ & _ & _ & _ & _ & _ & ->). destruct (put_folder_back _ Haw) as (P1 & P2 & P3). set (w3 := if existed then _ else _) in *.
    pose proof (undo_seed_back snap w3 (Hun w3 P2)) as H. destruct (undo_seed snap w3) as [w4 text]. destruct H as (U1 & U2 & U3 & U4 & U5 & Hv).
    destruct P1 as (T1 & T2 & T3 & T4). split; [unfold tables_as_were; by rewrite U1, U2, U3, U4|]. split; [intros Hio d D1 D2; rewrite U5; by apply P3|].
    destruct Hv; [by left|right; apply H].
Qed.

(** *** The whole handler *)
(** What holds once the reply says it ran: the folder is the revision's. *)
Definition restored (F : Folder) (r : PReply) (w : World) : Prop := (exists out note, r = PRan out note) /\ xDirs w !! root = Some F /\ xOps w = xOps w0 /\
  forall d, d <> root -> d <> staging -> d <> backup -> xDirs w !! d = xDirs w0 !! d.

Lemma ready_look {A} F (m : HM A) : (forall w, (m w).1 = w) -> until (ready F) m (fun _ => ready F) undone.
Proof. intros H. apply until_look; [done|]. intros. by eapply ready_undone. Qed.
Lemma policy_check_ready F dir profiles env files confirmed kind : until (ready F) (policy_check p dir profiles env files confirmed kind) (fun _ => ready F) undone.
Proof.
  intros w [Hs Hv]. unfold policy_check. destruct (policyCheckOrRefuse _ _ _) as [lines refused].
  destruct (audits_same p lines fst snd w) as (_ & E1 & E2 & E3 & E4 & E5 & E6). cbv beta zeta in *. set (w1 := foldl _ w lines) in *.
  assert (ready F w1) as Hr by (split; [by apply (staged_as F w)|unfold volumes_as_were; by rewrite E2]).
  destruct refused; [by eapply ready_undone|exact Hr].
Qed.
Lemma capture_swapped claims profiles out reason F w : swapped F w -> swapped F (captureRevision claims p profiles out reason w).
Proof.
  intros H. unfold captureRevision. destruct (CreateRevision _ _ _ _) as [d [[i k]|e]]; [|exact H]. unfold publish_snapshot, failRevisionCapture. by repeat case_match.
Qed.

Lemma restore_staged_until claims rev reason confirmed F :
  until (ready F) (restore_from_staging claims p rev n reason confirmed) (restored F) undone.
Proof.
  unfold restore_from_staging. set (dir := staging).
  apply (until_bind _ _ _ (fun _ => ready F)); [apply ready_look; intros w; unfold or_answer; by case_match|]. intros s.
  apply (until_bind _ _ _ (fun _ => ready F)); [apply ready_look; intros w; by destruct (config_check _ _ _ _) as [out [e|]]|]. intros _.
  apply (until_bind _ _ _ (fun _ => ready F)); [apply ready_look; intros w; unfold from_world, or_answer; by case_match|]. intros e.
  apply (until_bind _ _ _ (fun _ => ready F)); [apply ready_look; intros w; by repeat case_match|]. intros files.
  apply (until_bind _ _ _ (fun _ => ready F)); [apply policy_check_ready|]. intros _.
  apply (until_bind _ _ _ (fun snap w => staged F w /\ undoable snap w)).
  { destruct (deSeed e) as [sd|]; [|by intros w []]. apply (until_bind _ _ _ _ _ _ (RunUndoable_until F sd)). by intros snap w. }
  intros snap. apply (until_bind _ _ _ _ _ _ (swap_until rev (deEnv e) files snap F)). intros out.
  apply (until_bind _ _ _ (fun _ => swapped F)); [by apply until_mod|]. intros _.
  apply (until_bind _ _ _ (fun _ => swapped F)); [apply until_mod; intros w; apply capture_swapped|]. intros _.
  apply (until_bind _ _ _ (fun _ => swapped F)); [by apply until_mod|]. intros _. intros w (H1 & H2 & H3 & H4).
  destruct (scratch_apart root) as (A1 & A2 & A3). split; [by eexists _, _|]. simpl.
  split; [by rewrite lookup_delete_ne|]. split; [done|]. intros d D1 D2 D3. rewrite lookup_delete_ne by done. by apply H4.
Qed.
End Restore.

Section Handler.
Context `{!DaemonLaws D}.
Notation scratch root d := (d = staging_of root \/ d = backup_of root).

(** Every folder but the project's, and but the two a restore keeps for itself. *)
Definition other_folders (root : string) (w w' : World) : Prop := forall d, d <> root -> ~ scratch root d -> xDirs w' !! d = xDirs w !! d.
Definition restore_done (id : Z) (rawRev : string) (w w' : World) (r : PReply) : Prop := exists n zr rev out note,
  ParseInt rawRev = Some n /\ xZips w !! (id, n) = Some zr /\ RevisionByNumber store_fault id n (xDB w) = Ok rev /\ Valid rev = true /\ r = PRan out note /\
  xDirs w' !! projectRoot id = Some (extractZipToDir zr (staging_of (projectRoot id)) ∅).1 /\ other_folders (projectRoot id) w w'.
Definition restore_undone (id : Z) (w w' : World) (r : PReply) : Prop :=
  xDB w' = xDB w /\ xZips w' = xZips w /\ xWins w' = xWins w /\
  (io_fault IoFromBackup = false -> xDirs w' !! projectRoot id = xDirs w !! projectRoot id /\ other_folders (projectRoot id) w w') /\
  (vols (xRemote w') = vols (xRemote w) \/ admits r).

Lemma quiet_undone id w r : restore_undone id w w r.
Proof. repeat (split; [done|]). by left. Qed.
Lemma undone_after p w w1 r op : undone p (set_ops op w) r w1 -> xOps w1 = op (xOps w) /\ restore_undone (pID p) w w1 r.
Proof.
  intros ((T1 & T2 & T3 & T4) & Hd & Hv). destruct (scratch_apart (projectRoot (pID p))) as (A1 & A2 & A3). split; [done|].
  repeat (split; [done|]). split; [|exact Hv]. intros Hio. split; [by apply Hd|]. intros d _ Hs. apply Hd; [done|..]; intros ->; apply Hs; [by left|by right].
Qed.

Lemma ProjectByID_id id d p : ProjectByID store_fault id d = Ok p -> pID p = id.
Proof.
  unfold ProjectByID, pq, find_row. case_match; [done|]. destruct (List.find _ _) as [q|] eqn:E; [|done]. intros [= <-].
  apply find_some in E as [_ E]. by apply Z.eqb_eq.
Qed.
(** A held project is released with nothing else changed. *)
Lemma until_holding {A} id what (m : HM A) w (Q : A -> World -> Prop) (X : PReply -> World -> Prop) :
  (forall msg, X (PErr 409 msg) w) ->
  until (eq (set_ops (<[id := what]>) w)) m (fun a w' => xOps w' = <[id := what]> (xOps w) /\ (xOps (release_op id w') = xOps w -> Q a (release_op id w')))
    (fun r w' => xOps w' = <[id := what]> (xOps w) /\ (xOps (release_op id w') = xOps w -> X r (release_op id w'))) ->
  until (eq w) (projectOpOrConflict id what m) Q X.
Proof.
  intros Hb Hm ? <-. unfold projectOpOrConflict, holding, beginProjectOp. destruct (xOps w !! id) as [busy|] eqn:E; [apply Hb|].
  specialize (Hm _ eq_refl). destruct (m _) as [w1 r]. assert (xOps w1 = <[id := what]> (xOps w) -> xOps (release_op id w1) = xOps w) as Hr.
  { simpl. intros ->. by apply delete_insert_id. }
  destruct r; destruct Hm as [H1 H2]; by apply H2, Hr.
Qed.

Lemma until_given {A} (P : Prop) w (m : HM A) Q X : (P -> until (eq w) m Q X) -> until (fun w' => w = w' /\ P) m Q X.
Proof. intros H ? [<- HP]. by apply H. Qed.

(** Either all of the revision is in place or nothing has changed. *)
Lemma restore_until claims req rawID id rawRev body w : ParseInt rawID = Some id ->
  until (eq w) (handleRestoreRevision claims req rawID rawRev body)
    (fun r w' => restore_done id rawRev w w' r /\ xOps w' = xOps w) (fun r w' => restore_undone id w w' r /\ xOps w' = xOps w).
Proof.
  intros Hid. unfold handleRestoreRevision. apply (until_bind _ _ _ (fun p w' => w = w' /\ pID p = id)).
  { intros ? <-. pose proof (loadProject_err claims req rawID w) as Hw. destruct (loadProject claims req rawID w) as [w1 [p|e]] eqn:E; simpl in Hw; subst w1; [|split; [apply quiet_undone|done]].
    split; [done|]. apply loadProject_spec in E as (_ & _ & id' & Hid' & E). rewrite Hid in Hid'. injection Hid' as <-. by eapply ProjectByID_id. }
  intros p. apply (until_bind _ _ _ (fun _ w' => w = w' /\ pID p = id)).
  { intros ? [<- Hp]. destruct (requireHostAccess claims req (pHostID p)); [|done]. split; [apply quiet_undone|done]. }
  intros _. apply until_given. intros <-. apply until_holding; [intros msg; split; [apply quiet_undone|done]|]. set (what := "a restore").
  set (w0 := set_ops (<[pID p := what]>) w). set (root := projectRoot (pID p)).
  set (X := fun r w' => xOps w' = <[pID p := what]> (xOps w) /\ (xOps (release_op (pID p) w') = xOps w -> restore_undone (pID p) w (release_op (pID p) w') r /\ xOps (release_op (pID p) w') = xOps w)). assert (forall r w', undone p w0 r w' -> X r w') as HX.
  { intros r w' H. destruct (undone_after p w w' r _ H) as [H1 H2]. split; [exact H1|]. intros H3. split; [|exact H3]. exact H2. }
  assert (forall r, X r w0) as HX0 by (intros r; apply HX; split; [done|]; split; [done|]; by left).
  apply (until_bind _ _ _ (fun _ => eq w0)); [intros ? <-; unfold need_compose; destruct compose_available; [done|apply HX0]|]. intros _.
  destruct (ParseInt rawRev) as [n|] eqn:En'; [|intros ? <-; apply HX0].
  apply (until_bind _ _ _ (fun rev w' => w0 = w' /\ RevisionByNumber store_fault (pID p) n (xDB w) = Ok rev)).
  { intros ? <-. unfold or_answer, pread. change (xDB w0) with (xDB w). destruct (RevisionByNumber _ _ _ _); [done|apply HX0]. }
  intros rev. apply until_given. intros Hrev. destruct (Valid rev) eqn:Ev; [|intros ? <-; apply HX0]. simpl negb.
  apply (until_bind _ _ _ (fun zr w' => w0 = w' /\ xZips w !! (pID p, n) = Some zr)).
  { intros ? <-. unfold from_world, or_answer, loadRevisionZip. change (xZips w0) with (xZips w). destruct (io_fault IoReadZip); [apply HX0|].
    destruct (xZips w !! (pID p, n)); [done|apply HX0]. }
  intros zr. apply until_given. intros Hzr. destruct (scratch_apart root) as (A1 & A2 & A3).
  apply (until_bind _ _ _ (fun _ => eq (set_dirs (fun m => delete (backup_of root) (delete (staging_of root) m)) w0))); [by intros ? <-|]. intros _.
  apply (until_bind _ _ _ (fun _ => eq (set_dirs (fun m => delete (backup_of root) (delete (staging_of root) m)) w0))).
  { intros ? <-. destruct (io_fault IoMkStaging); [|done]. apply HX. split; [done|]. split; [|by left]. intros _ d D1 D2. simpl. by rewrite !lookup_delete_ne. }
  intros _. set (F := (extractZipToDir zr (staging_of root) ∅).1).
  apply (until_bind _ _ _ (fun _ => ready p w0 F)).
  { intros ? <-. split; [|done]. split; [done|]. split; [intros d D1 D2; simpl; by rewrite lookup_insert_ne, !lookup_delete_ne|]. simpl.
    split; [by rewrite lookup_insert_eq|]. by rewrite lookup_insert_ne, lookup_delete_eq. }
  intros _ w1 Hw1. unfold step. pose proof (restore_staged_until p n w0 claims rev body.1 body.2 F w1 Hw1) as H.
  destruct (restore_from_staging claims p rev n body.1 body.2 w1) as [w2 [r|r]].
  - destruct H as ((out & note & ->) & H1 & H2 & H3). split; [exact H2|]. intros H4. split; [|exact H4]. exists n, zr, rev, out, note.
    repeat (split; [done|]). split; [simpl; by rewrite lookup_delete_ne|]. intros d D1 D2. simpl. rewrite lookup_delete_ne by (intros <-; apply D2; by left).
    apply H3; [done|..]; intros ->; apply D2; [by left|by right].
  - apply HX. destruct H as (T & Hd & Hv). split; [exact T|]. split; [|exact Hv]. intros Hio d D1 D2. simpl. rewrite lookup_delete_ne by done. by apply Hd.
Qed.

End Handler.
End Outcomes.

(** ** Slugs *)
Section Slugs.
Context `{GS : GrantStore} `{C : Cipher} `{TE : TextEnv} `{Ln : Links} `{D : Daemon} `{En : Engine}.

Definition slug_char (c : Ascii.ascii) : bool := let n := code c in ((97 <=? n) && (n <=? 122)) || ((48 <=? n) && (n <=? 57)).
Definition word (w : list Ascii.ascii) : Prop := w <> [] /\ forallb slug_char w = true.
Fixpoint hyphenated (ws : list (list Ascii.ascii)) : list Ascii.ascii :=
  match ws with [] => [] | [w] => w | w :: ws => w ++ "-"%char :: hyphenated ws end.
Definition dash_after (b : bool) : list Ascii.ascii := if b then ["-"%char] else [].
(** What [slug_rune] has built so far. *)
Definition built (st : list Ascii.ascii * bool) : Prop := st = ([], false) \/ exists ws w, Forall word (ws ++ [w]) /\ st.1 = hyphenated (ws ++ [w]) ++ dash_after st.2.

Lemma hyphenated_cons w ws : ws <> [] -> hyphenated (w :: ws) = w ++ "-"%char :: hyphenated ws.
Proof. by destruct ws. Qed.
Lemma hyphenated_extend ws w l : hyphenated (ws ++ [w ++ l]) = hyphenated (ws ++ [w]) ++ l.
Proof.
  induction ws as [|v ws IH]; [done|]. cbn [app]. rewrite !hyphenated_cons, IH by (by destruct ws). rewrite <- app_assoc. done.
Qed.
Lemma hyphenated_more ws w : ws <> [] -> hyphenated (ws ++ [w]) = hyphenated ws ++ "-"%char :: w.
Proof.
  induction ws as [|v ws IH]; [done|]. intros _. destruct (decide (ws = [])) as [->|Hw]; [done|].
  cbn [app]. rewrite !hyphenated_cons, IH by (done || by destruct ws). rewrite <- app_assoc. done.
Qed.

Lemma slug_rune_built st r : built st -> built (slug_rune st r).
Proof.
  destruct st as [b pd]. intros H. unfold slug_rune. destruct (is_mn r); [exact H|].
  destruct (((97 <=? r) && (r <=? 122)) || ((48 <=? r) && (r <=? 57))) eqn:E.
  - set (c := Ascii.ascii_of_nat (Z.to_nat r)). assert (slug_char c = true) as Hc.
    { unfold slug_char, code. subst c. rewrite Ascii.nat_ascii_embedding, Z2Nat.id by (bsimp; lia). exact E. }
    assert (word [c]) as Hw by (split; [done|]; simpl; by rewrite Hc).
    right. destruct H as [[= -> ->]|(ws & w & Hf & Hb)]; [exists [], [c]; split; [by apply Forall_singleton|done]|]. simpl in *. subst b. destruct pd; simpl.
    + exists (ws ++ [w]), [c]. split; [apply Forall_app; split; [done|by apply Forall_singleton]|]. rewrite (hyphenated_more (ws ++ [w]) [c]) by (by destruct ws). rewrite app_nil_r, <- app_assoc. done.
    + exists ws, (w ++ [c]). rewrite hyphenated_extend, !app_nil_r. split; [|done]. apply Forall_app in Hf as [Hf Hl]. rewrite Forall_singleton in Hl. apply Forall_app. split; [done|].
      apply Forall_singleton. destruct Hl as [Hn Hl]. split; [by destruct w|]. rewrite forallb_app, Hl. simpl. by rewrite Hc.
  - destruct (existsb _ _); [|exact H]. destruct b as [|a b]; [exact H|]. destruct pd; [exact H|]. right.
    destruct H as [[=]|(ws & w & Hf & Hb)]. exists ws, w. split; [done|]. cbn [fst snd] in *. by rewrite Hb, app_nil_r.
Qed.
Lemma slug_runes_built l st : built st -> built (foldl slug_rune st l).
Proof. revert st. induction l as [|r l IH]; intros st H; [done|]. simpl. by apply IH, slug_rune_built. Qed.

Lemma trim_set_solid l : (forall c l', l = c :: l' -> slug_char c = true) -> trim_set ["-"] l = l.
Proof.
  destruct l as [|c l]; [done|]. intros H. specialize (H c l eq_refl). cbn [trim_set]. unfold one_of. cbn [existsb].
  destruct (String.eqb (String c "") "-") eqn:E; [|done]. apply String.eqb_eq in E. injection E as ->. by vm_compute in H.
Qed.
Lemma hyphenated_ends ws w : Forall word (ws ++ [w]) -> exists c l l' c', hyphenated (ws ++ [w]) = c :: l /\ hyphenated (ws ++ [w]) = l' ++ [c'] /\ slug_char c = true /\ slug_char c' = true.
Proof.
  intros Hf. assert (exists l' c', hyphenated (ws ++ [w]) = l' ++ [c'] /\ slug_char c' = true) as (l' & c' & H1 & H2).
  { apply Forall_app in Hf as [_ Hl]. rewrite Forall_singleton in Hl. destruct Hl as [Hn Hl]. destruct (snoc_cases w) as [->|(u & x & ->)]; [done|].
    rewrite hyphenated_extend. exists (hyphenated (ws ++ [u])), x. split; [done|]. rewrite forallb_app in Hl. apply andb_true_iff in Hl as [_ Hl]. by apply andb_true_iff in Hl as [Hl _]. }
  assert (exists c l, hyphenated (ws ++ [w]) = c :: l /\ slug_char c = true) as (c & l & H3 & H4).
  { destruct ws as [|[|x v] ws]; cbn [app] in *.
    - inversion Hf as [|? ? [Hn Hl] _]; subst. destruct w as [|x w]; [done|]. exists x, w. by apply andb_true_iff in Hl as [Hl _].
    - inversion Hf as [|? ? [Hn _] _]. by destruct Hn.
    - inversion Hf as [|? ? [_ Hl] _]. rewrite hyphenated_cons by (by destruct ws). apply andb_true_iff in Hl as [Hl _]. by eexists x, _. }
  by exists c, l, l', c'.
Qed.

(** whatever a project is called, its slug, which names its stack, containers and
    volumes, is one or more words of lower-case letters and digits joined by single
    dashes. *)
Theorem slug_is_legal name : exists ws, ws <> [] /\ Forall word ws /\ bytes (slugify name) = hyphenated ws.
Proof.
  unfold slugify. set (st := foldl slug_rune _ _). assert (built st) as H by (apply slug_runes_built; by left). destruct st as [b pd]. cbn [fst].
  destruct H as [[= -> ->]|(ws & w & Hf & Hb)]; [exists [bytes "project"]; split; [done|]; split; [by repeat constructor|]; reflexivity|].
  destruct (hyphenated_ends ws w Hf) as (c & l & l' & c' & H1 & H2 & H3 & H4). simpl in Hb.
  assert (bytes (Trim ["-"] (of_bytes b)) = hyphenated (ws ++ [w])) as Ht.
  { unfold Trim. rewrite !bytes_of_bytes, Hb. rewrite (trim_set_solid (hyphenated _ ++ _)).
    2: { rewrite H1. by intros ? ? [= <- _]. }
    rewrite rev_app_distr. assert (trim_set ["-"] (rev (dash_after pd) ++ rev (hyphenated (ws ++ [w]))) = rev (hyphenated (ws ++ [w]))) as ->; [|apply rev_involutive].
    assert (trim_set ["-"] (rev (hyphenated (ws ++ [w]))) = rev (hyphenated (ws ++ [w]))) as He.
    { apply trim_set_solid. rewrite H2, rev_app_distr. by intros ? ? [= <- _]. }
    destruct pd; exact He. }
  destruct (String.eqb (Trim _ _) "") eqn:E.
  - apply String.eqb_eq in E. rewrite E, H1 in Ht. done.
  - exists (ws ++ [w]). split; [by destruct ws|]. by split.
Qed.
End Slugs.

(** ** One operation at a time, and the two ways to deploy *)
Section Operations.
Context `{GS : GrantStore} `{C : Cipher} `{TE : TextEnv} `{Ln : Links} `{D : Daemon} `{En : Engine}.

(** The calls that take the project's lock. *)
Definition exclusive (c : ProjectCall) : bool :=
  match c with
  | CDeploy _ | CDown | CRestart | CRename _ | CDelete _ _ | CRestore _ _ | CWrite _ | CUpload _ _ | CDeleteFile _ | CMakeDir _ => true
  | _ => false
  end.
Definition refusal (r : PReply) : Prop := exists status msg, r = PErr status msg.

Lemma loadProject_refuses claims req rawID w w' r : loadProject claims req rawID w = (w', Err r) -> refusal r.
Proof.
  unfold loadProject. destruct (ParseInt rawID); [|intros [= <- <-]; by eexists _, _]. unfold mbind, stM_bind, or_answer, pread.
  destruct (ProjectByID _ _ _) as [p|e].
  - destruct (requireSectionOnHost _ _ false _); [intros [= <- <-]; by eexists _, _|]. destruct (isWriteRequest req); [|done].
    destruct (requireSectionOnHost _ _ true _); [intros [= <- <-]; by eexists _, _|done].
  - intros [= <- <-]. destruct e; by eexists _, _.
Qed.
Lemma held_busy claims req rawID id busy {A} (k : Project -> HM A) w : ParseInt rawID = Some id -> xOps w !! id = Some busy ->
  (forall p, pID p = id -> (k p w).1 = w /\ (forall r, (k p w).2 = Err r -> refusal r) /\ forall a, (k p w).2 <> Ok a) ->
  exists r, (loadProject claims req rawID ≫= k) w = (w, Err r) /\ refusal r.
Proof.
  intros Hid Hb Hk. unfold mbind, stM_bind. pose proof (loadProject_err claims req rawID w) as Hw.
  destruct (loadProject claims req rawID w) as [w1 [p|e]] eqn:E; simpl in Hw; subst w1; [|eexists; split; [done|by eapply loadProject_refuses]].
  apply loadProject_spec in E as (_ & _ & id' & Hid' & E). rewrite Hid in Hid'. injection Hid' as <-. apply ProjectByID_id in E.
  destruct (Hk p E) as (H1 & H2 & H3). destruct (k p w) as [w2 [a|r]]; simpl in *; [by destruct (H3 a)|]. subst w2. exists r. split; [done|]. by apply H2.
Qed.
Lemma busy_refused id what {A} (m : HM A) w busy : xOps w !! id = Some busy -> projectOpOrConflict id what m w = (w, Err (PErr 409 (errProjectBusy busy))).
Proof. intros H. unfold projectOpOrConflict, holding, beginProjectOp. by rewrite H. Qed.

(** while an operation holds a project every other deploy, down, restart, restore,
    deletion, settings change and file change on it is refused with an error, and
    changes nothing: no table, file, snapshot, volume or daemon is touched. *)
Theorem held_project_untouched claims rawID id busy c w : ParseInt rawID = Some id -> xOps w !! id = Some busy -> exclusive c = true ->
  (run_call claims rawID c w).1 = w /\ refusal (run_call claims rawID c w).2.
Proof.
  intros Hid Hb Hx. assert (exists r, run_handler claims rawID c w = (w, Err r) /\ refusal r) as (r & H1 & H2); [|unfold run_call; by rewrite H1].
  destruct c; try done; cbn [run_handler]; unfold handleDownProject, handleRestartProject, runProjectCompose;
    apply (held_busy _ _ _ _ _ _ _ Hid Hb); intros p <-; rewrite ?(busy_refused _ _ _ _ _ Hb); try (split; [done|]; split; [|done]; intros r [= <-]; by eexists _, _).
  unfold mbind, stM_bind. destruct (requireHostAccess _ _ _); [split; [done|]; split; [|done]; intros r [= <-]; by eexists _, _|].
  simpl. rewrite (busy_refused _ _ _ _ _ Hb). split; [done|]. split; [|done]. intros r [= <-]. by eexists _, _.
Qed.

Lemma mcp_policy_same v confirmed kind : mcp_policy v confirmed = None <-> (policyCheckOrRefuse v confirmed kind).2 = None.
Proof. unfold mcp_policy, policyCheckOrRefuse. destruct v as [[[|b bl] [|x wa]]|e]; simpl; by try destruct confirmed. Qed.

(** Two worlds the daemons and the disk cannot tell apart. *)
Definition alike (w1 w2 : World) : Prop := xFx w1 = xFx w2 /\ xRemote w1 = xRemote w2 /\ xDirs w1 = xDirs w2 /\ xOps w1 = xOps w2.
Lemma run_seed_alike s w1 w2 : alike w1 w2 -> alike (run_seed s w1).1 (run_seed s w2).1 /\ (run_seed s w1).2 = (run_seed s w2).2 /\
  xDB (run_seed s w1).1 = xDB w1 /\ xZips (run_seed s w1).1 = xZips w1.
Proof.
  intros (E1 & E2 & E3 & E4). destruct s as [s|]; [|done]. simpl. unfold seed_Run, on_remote, dir_of. rewrite E2, E3.
  by destruct (SeedProjectBinds _ _ _ _ (xRemote w2)) as [r [[]|e]].
Qed.

(** The connector's run of some steps and the web's, from worlds that look alike; the
    connector's records nothing. *)
Definition parallel (w0 : World) {X Y} (x : World * X) (y : World * Y) : Prop := alike x.1 y.1 /\ xDB x.1 = xDB w0 /\ xZips x.1 = xZips w0.
Definition in_step {E E' A B} (x : result E A) (y : result E' B) (R : A -> B -> Prop) : Prop :=
  match x, y with Ok a, Ok b => R a b | Err _, Err _ => True | _, _ => False end.
Lemma parallel_bind w0 {E E' A A' B B'} (m : stM World E A) (k : A -> stM World E B) (m' : stM World E' A') (k' : A' -> stM World E' B') w w' R :
  parallel w0 (m w) (m' w') -> in_step (m w).2 (m' w').2 R ->
  (forall a a' w1 w1', R a a' -> alike w1 w1' -> xDB w1 = xDB w0 -> xZips w1 = xZips w0 -> parallel w0 (k a w1) (k' a' w1')) ->
  parallel w0 ((m ≫= k) w) ((m' ≫= k') w').
Proof.
  unfold mbind, stM_bind. destruct (m w) as [w1 [a|e]], (m' w') as [w1' [a'|e']]; simpl; intros (H1 & H2 & H3) Hs Hk; try done. by apply Hk.
Qed.
Lemma parallel_left w0 {E A B Y} (m : stM World E A) (k : A -> stM World E B) w a (y : World * Y) : m w = (w, Ok a) -> parallel w0 (k a w) y -> parallel w0 ((m ≫= k) w) y.
Proof. intros H Hk. unfold mbind, stM_bind. by rewrite H. Qed.
Lemma parallel_right w0 {E A B X} (m : stM World E A) (k : A -> stM World E B) w a (x : World * X) : m w = (w, Ok a) -> parallel w0 x (k a w) -> parallel w0 x ((m ≫= k) w).
Proof. intros H Hk. unfold mbind, stM_bind. by rewrite H. Qed.
Lemma parallel_holding w0 {E E' A B} (refuse : string -> E) (refuse' : string -> E') (m : stM World E A) (m' : stM World E' B) id what w :
  xDB w = xDB w0 -> xZips w = xZips w0 -> (forall v, alike v v -> xDB v = xDB w0 -> xZips v = xZips w0 -> parallel w0 (m v) (m' v)) ->
  parallel w0 (holding id what refuse m w) (holding id what refuse' m' w).
Proof.
  intros H1 H2 Hm. unfold holding, beginProjectOp. destruct (xOps w !! id); [done|].
  destruct (Hm (set_ops (<[id := what]>) w)) as ((E1 & E2 & E3 & E4) & H3 & H4); [done..|]. destruct (m _) as [v r], (m' _) as [v' r']. simpl in *.
  split; [|done]. unfold alike, release_op, set_ops. simpl. by rewrite E1, E2, E3, E4.
Qed.
Lemma alike_sym w1 w2 : alike w1 w2 -> alike w2 w1.
Proof. intros (?&?&?&?). by repeat split. Qed.
Lemma alike_trans w1 w2 w3 : alike w1 w2 -> alike w2 w3 -> alike w1 w3.
Proof. intros (?&?&?&?) (?&?&?&?). repeat split; congruence. Qed.

Lemma silence_alike p w : alike w (autoSilenceForDeploy p w) /\ xDB (autoSilenceForDeploy p w) = xDB w /\ xZips (autoSilenceForDeploy p w) = xZips w.
Proof. unfold autoSilenceForDeploy. by destruct (deploySilenceGrace <=? 0). Qed.
Lemma capture_alike claims p ps out reason w : alike w (captureRevision claims p ps out reason w).
Proof.
  unfold captureRevision. destruct (CreateRevision _ _ _ _) as [d [[i k]|e]]; [|done]. unfold publish_snapshot, failRevisionCapture. by repeat case_match.
Qed.

End Operations.
