(* ===== verification/ProjectExamples.v ===== *)
(** * Concrete projects: a deploy, a restore that fails half way, a held project *)
From S2P Require Import Prelude GoStrings Users Roles Access Accounts Calendar Maintenance MaintenanceHandlers McpExamples Paths Compose Policy Preview Sandbox ProjectStore Binds Projects ProjectSpec ProjectOutcomes.

Definition demo_hosts (id : Z) : result StoreErr Host := if id =? 7 then Ok (mkHost 7 "edge" "tcp" "tcp://edge:2376" false false) else Err ErrNotFound.
Definition all_paths : Links := {| eval_symlinks _ s := Ok (Clean s) |}.
(** The CLI resolves a file with one bind below the folder; [up] answers [up_err]. *)
Definition demo_engine (up_err : option string) : Engine := {|
  dataDir := "/data"; tmpDir := "/tmp/x"; workDir := "/"; clock := 100; deploySilenceGrace := 60;
  store_fault _ := false; win_fault _ := false; io_fault _ := false;
  host_by_id := demo_hosts; local_host_id := Ok 1; resolve_host h := Ok h; tls_dir _ := None;
  registry_env := Ok ([], []); policy_fault := false; policy_rules := PRNone; compose_available := true;
  config_json dir _ _ _ _ _ := Ok dir; config_check _ _ _ _ := ("", None);
  decode_doc _ := Some (mkDoc ∅ ∅ ∅); decode_binds j := Some {["web" := [mkMount "bind" (j +:+ "/conf") "/etc/app" true]]};
  stat_regular _ _ := false;
  compose_up _ _ := ("pulling", up_err); compose_down _ _ _ _ _ := ("", None); compose_restart _ _ _ _ _ := ("", None);
  list_stacks _ _ := Some []; running_digest _ _ _ _ := None; remote_digest _ := None; inspect_service _ _ _ := None;
  nfd s := (fun c => code c) <$> bytes s; is_mn _ := false; looks_binary _ := false
|}.

Definition remote_project : Project := mkProject 0 "Shop" "shop" "compose.yml" 7 false [] "ann" 0 0.
Definition two_folders : Folder := <[["conf"; "b.ini"] := NFile "new"]> demo_folder.
Definition demo_world : World :=
  let ops := [PoCreate remote_project 0; PoRevision demo_rev 0; PoValid 1 true ""] in
  mkWorld (foldl (fun d op => run_pop (C := demo_cipher) no_fault op d) empty_pdb ops)
    {["/data/projects/1" := two_folders; "/data/projects/1.restore-backup" := demo_folder]} {[(1, 1) := zipDir demo_folder]} demo_remote [] [] (mkWindows [] 0) ∅.

Definition demo_call (up_err : option string) (c : ProjectCall) (w : World) : World * PReply :=
  run_call (GS := demo_grants) (C := demo_cipher) (TE := ascii_text) (Ln := all_paths) (D := demo_daemon 100) (En := demo_engine up_err) (Some (1, "ann")) "1" c w.
Definition demo_handler (up_err : option string) (c : ProjectCall) (w : World) : World * result PReply PReply :=
  run_handler (GS := demo_grants) (C := demo_cipher) (TE := ascii_text) (Ln := all_paths) (D := demo_daemon 100) (En := demo_engine up_err) (Some (1, "ann")) "1" c w.
Definition replied (x : World * PReply) (r : PReply) : Prop := x.2 = r.

(** The deploy starts the stack in the folder, on the host it is aimed at, and its
    snapshot and revision are recorded. *)
Example demo_deploy : let w := (demo_call None (CDeploy None) demo_world).1 in
  (exists u, xFx w = [FxUp u true] /\ upDir u = "/data/projects/1" /\ upEnv u = ["DOCKER_HOST=tcp://edge:2376"] /\ upProfiles u = []) /\
  xZips w !! (1, 2) = Some (zipDir two_folders) /\ (Revision <$> revisions (xDB w)) = [1; 2] /\ (Valid <$> revisions (xDB w)) = [true; true].
Proof. split; [eexists; split; [vm_compute; reflexivity|]; repeat split; vm_compute; reflexivity|]. split; [|split]; vm_compute; reflexivity. Qed.

(** What the project's volume on the remote host holds. *)
Definition seed_files_of (w : World) : option (list (list string * Node)) := (fun v => map_to_list (vFiles v)) <$> vols (xRemote w) !! (7, "dcseed-shop-conf").


Lemma held_project_untouched_witness : let w := set_ops (<[1 := "a deploy"]>) demo_world in
  demo_call None (CRestore "1" ("", false)) w = (w, PErr 409 "this project is busy (a deploy is running); try again when it finishes").
Proof.
  intros w. pose proof (held_project_untouched (GS := demo_grants) (C := demo_cipher) (TE := ascii_text) (Ln := all_paths) (D := demo_daemon 100) (En := demo_engine None)
    (Some (1, "ann")) "1" 1 "a deploy" (CRestore "1" ("", false)) w eq_refl eq_refl eq_refl) as [H _].
  assert ((demo_call None (CRestore "1" ("", false)) w).2 = PErr 409 "this project is busy (a deploy is running); try again when it finishes") as H2 by (vm_compute; reflexivity).
  unfold demo_call in *. destruct (run_call _ _ _ w). simpl in *. by subst.
Defined.

