(* ===== verification/Retention.v ===== *)
(** * Retention: what the daily purge deletes (internal/store/retention.go,
      internal/api/retention.go)

    The stored policy, the batched deletions of the alert feed, its deliveries and
    retries, the audit log and old revisions, the snapshot files left without a row, and
    the run that puts them together. Every statement, directory read and file removal
    can fail, and the context can end between any two of them: [fault] says which of
    the run's steps do. *)
From S2P Require Import Prelude GoStrings Floats Users Calendar Compose Alerts Delivery ProjectStore.

(** ** The policy *)
Record RetentionPolicy := mkRetention { AlertEventsDays : Z; AlertDeliveriesDays : Z; AuditDays : Z; RevisionsKeep : Z }.

Definition MinAuditRetentionDays : Z := 30.
Definition MinAlertRetentionDays : Z := 1.
Definition MinRevisionsKeep : Z := 3.
Definition MaxRetentionDays : Z := 36500.
Definition DefaultRetention : RetentionPolicy := mkRetention 90 90 365 50.

Definition valid_days (v min : Z) : bool := (v =? 0) || ((min <=? v) && (v <=? MaxRetentionDays)).
(** [true] when there is no error. *)
Definition Validate (p : RetentionPolicy) : bool :=
  valid_days (AlertEventsDays p) MinAlertRetentionDays && valid_days (AlertDeliveriesDays p) MinAlertRetentionDays
  && valid_days (AuditDays p) MinAuditRetentionDays && ((RevisionsKeep p =? 0) || (MinRevisionsKeep <=? RevisionsKeep p))
  && negb (negb (AlertEventsDays p =? 0) && ((AlertDeliveriesDays p =? 0) || (AlertEventsDays p <? AlertDeliveriesDays p))).

(** The settings row: absent, text that is no policy, or a decoded one. *)
Inductive retention_row := RetNone | RetCorrupt | RetStored (p : RetentionPolicy).
Inductive RetErr := ErrRetentionPolicyInvalid | ErrRetDB.
Definition Retention (fault : bool) (row : retention_row) : RetentionPolicy * option RetErr :=
  if fault then (DefaultRetention, Some ErrRetDB)
  else match row with
       | RetNone => (DefaultRetention, None)
       | RetCorrupt => (DefaultRetention, Some ErrRetentionPolicyInvalid)
       | RetStored p => if Validate p then (p, None) else (DefaultRetention, Some ErrRetentionPolicyInvalid)
       end.
Inductive SetRetErr := SRInvalid | SRDB.
Definition SetRetention (fault : bool) (p : RetentionPolicy) (row : retention_row) : retention_row * option SetRetErr :=
  if negb (Validate p) then (row, Some SRInvalid) else if fault then (row, Some SRDB) else (RetStored p, None).

(** ** The tables and the files *)
Record AuditRow := mkAuditRow { arUserID : Z; arUsername : string; arAction : string; arDetail : string; arAt : Z }.
(** The outcome of a purge, as the settings page shows it; sizes and duration left out. *)
Inductive PurgeErr := PContext | PStatement | PAuditTooShort | PReadDir | PRemove (dir file : string) | PFuel.
Record RetentionRun := mkRun {
  ruAt : Z; ruTrigger : string; ruEvents : Z; ruDeliveries : Z; ruAudit : Z; ruRevisions : Z; ruFiles : Z; ruErrors : list PurgeErr
}.
Definition Total (r : RetentionRun) : Z := ruEvents r + ruDeliveries r + ruAudit r + ruRevisions r.

(** An entry of the project-revisions folder: a folder with its entries ([true] for a
    folder among them, taken not to be empty), or anything else. *)
Inductive RevDir := RDir (files : gmap string bool) | ROther.
Record RState := mkRState {
  rEvents : list AlertEvent; rDeliveries : list AlertDelivery; rRetries : list AlertDeliveryRetry; rAudit : list AuditRow;
  rRevs : list ProjectRevision; rFiles : option (gmap string RevDir); rPolicy : retention_row; rLast : option RetentionRun; rBusy : bool; rStep : nat
}.
Definition set_events (l : list AlertEvent) (s : RState) := mkRState l (rDeliveries s) (rRetries s) (rAudit s) (rRevs s) (rFiles s) (rPolicy s) (rLast s) (rBusy s) (rStep s).
Definition set_deliveries (l : list AlertDelivery) (s : RState) := mkRState (rEvents s) l (rRetries s) (rAudit s) (rRevs s) (rFiles s) (rPolicy s) (rLast s) (rBusy s) (rStep s).
Definition set_retries (l : list AlertDeliveryRetry) (s : RState) := mkRState (rEvents s) (rDeliveries s) l (rAudit s) (rRevs s) (rFiles s) (rPolicy s) (rLast s) (rBusy s) (rStep s).
Definition set_audit (l : list AuditRow) (s : RState) := mkRState (rEvents s) (rDeliveries s) (rRetries s) l (rRevs s) (rFiles s) (rPolicy s) (rLast s) (rBusy s) (rStep s).
Definition set_revs (l : list ProjectRevision) (s : RState) := mkRState (rEvents s) (rDeliveries s) (rRetries s) (rAudit s) l (rFiles s) (rPolicy s) (rLast s) (rBusy s) (rStep s).
Definition set_files (f : option (gmap string RevDir)) (s : RState) := mkRState (rEvents s) (rDeliveries s) (rRetries s) (rAudit s) (rRevs s) f (rPolicy s) (rLast s) (rBusy s) (rStep s).
Definition set_last (r : RetentionRun) (s : RState) := mkRState (rEvents s) (rDeliveries s) (rRetries s) (rAudit s) (rRevs s) (rFiles s) (rPolicy s) (Some r) (rBusy s) (rStep s).
Definition set_busy (b : bool) (s : RState) := mkRState (rEvents s) (rDeliveries s) (rRetries s) (rAudit s) (rRevs s) (rFiles s) (rPolicy s) (rLast s) b (rStep s).
Definition next_step (s : RState) := mkRState (rEvents s) (rDeliveries s) (rRetries s) (rAudit s) (rRevs s) (rFiles s) (rPolicy s) (rLast s) (rBusy s) (S (rStep s)).
Definition set_policy (r : retention_row) (s : RState) := mkRState (rEvents s) (rDeliveries s) (rRetries s) (rAudit s) (rRevs s) (rFiles s) r (rLast s) (rBusy s) (rStep s).

Section Purge.
Context (fault : nat -> bool).

(** One step of the run: does it fail? *)
Definition tick (s : RState) : RState * bool := (next_step s, fault (rStep s)).

(** ** Batched deletion *)
Definition purgeBatch : nat := Z.to_nat 2000.
(** [DELETE … WHERE id IN (SELECT id … WHERE p LIMIT n)]: the rows kept and how many went. *)
Fixpoint delete_first {A} (n : nat) (p : A -> bool) (l : list A) : list A * Z :=
  match l with
  | [] => ([], 0)
  | x :: l => match n with
              | O => (x :: l, 0)
              | S n' => if p x then let '(l', k) := delete_first n' p l in (l', k + 1)
                        else let '(l', k) := delete_first n p l in (x :: l', k)
              end
  end.
Fixpoint delete_batches {A} (fuel : nat) (get : RState -> list A) (put : list A -> RState -> RState) (p : RState -> A -> bool) (total : Z) (s : RState) :
    RState * (Z * option PurgeErr) :=
  match fuel with
  | O => (s, (total, Some PFuel))
  | S fuel =>
      let '(s, stop) := tick s in
      if stop then (s, (total, Some PContext))
      else
        let '(s, bad) := tick s in
        if bad then (s, (total, Some PStatement))
        else
          let '(l, n) := delete_first purgeBatch (p s) (get s) in
          let s := put l s in
          if n <? Z.of_nat purgeBatch then (s, (total + n, None)) else delete_batches fuel get put p (total + n) s
  end.
Definition deleteBatched {A} (get : RState -> list A) (put : list A -> RState -> RState) (p : RState -> A -> bool) (s : RState) : RState * (Z * option PurgeErr) :=
  delete_batches (S (length (get s))) get put p 0 s.

(** [now.Add(-time.Duration(days) * 24 * time.Hour)], to the second as RFC 3339 has it *)
Definition cutoffFor (days now : Z) : Z := rfc3339 (now + wrap64 (wrap64 (wrap64 (- days) * 24) * hour)).

Definition no_event (s : RState) (id : Z) : bool := negb (existsb (fun e => eID e =? id) (rEvents s)).
Definition PurgeAlertEvents (days now : Z) (s : RState) : RState * (Z * Z * option PurgeErr) :=
  if days <=? 0 then (s, (0, 0, None))
  else
    match deleteBatched rEvents set_events (fun _ e => eCreatedAt e <? cutoffFor days now) s with
    | (s, (events, Some e)) => (s, (events, 0, Some e))
    | (s, (events, None)) =>
        match deleteBatched rDeliveries set_deliveries (fun s d => no_event s (dEventID d)) s with
        | (s, (deliveries, Some e)) => (s, (events, deliveries, Some e))
        | (s, (deliveries, None)) =>
            let '(s, (_, err)) := deleteBatched rRetries set_retries (fun s r => no_event s (rtEventID r)) s in (s, (events, deliveries, err))
        end
    end.
Definition PurgeAlertDeliveries (days now : Z) (s : RState) : RState * (Z * option PurgeErr) :=
  if days <=? 0 then (s, (0, None)) else deleteBatched rDeliveries set_deliveries (fun _ d => dAttempted d <? cutoffFor days now) s.
Definition PurgeAudit (days now : Z) (s : RState) : RState * (Z * option PurgeErr) :=
  if days <=? 0 then (s, (0, None))
  else if days <? MinAuditRetentionDays then (s, (0, Some PAuditTooShort))
  else deleteBatched rAudit set_audit (fun _ a => arAt a <? cutoffFor days now) s.

(** ** Revisions *)
Definition newer_than (r : ProjectRevision) (l : list ProjectRevision) : Z :=
  Z.of_nat (length (List.filter (fun n => (rvProject n =? rvProject r) && (Revision r <? Revision n)) l)).
Definition surplus (keep : Z) (l : list ProjectRevision) : list ProjectRevision := List.filter (fun r => keep <=? newer_than r l) l.
(** The rows go one at a time; what went is returned whatever happens. *)
Fixpoint delete_each (rs : list ProjectRevision) (s : RState) : RState * (list ProjectRevision * option PurgeErr) :=
  match rs with
  | [] => (s, ([], None))
  | r :: rs =>
      let '(s, stop) := tick s in
      if stop then (s, ([], Some PContext))
      else
        let '(s, bad) := tick s in
        if bad then (s, ([], Some PStatement))
        else
          let '(s, (gone, err)) := delete_each rs (set_revs (List.filter (fun x => negb (rvID x =? rvID r)) (rRevs s)) s) in (s, (r :: gone, err))
  end.
Definition TrimRevisions (keep : Z) (s : RState) : RState * (list ProjectRevision * option PurgeErr) :=
  if keep <=? 0 then (s, ([], None))
  else
    let '(s, bad) := tick s in
    if bad then (s, ([], Some PStatement)) else delete_each (surplus keep (rRevs s)) s.

(** ** Files *)
Definition zip_name (n : Z) : string := FormatInt n +:+ ".zip".
Definition files_in (dir : string) (s : RState) : gmap string bool :=
  match default ∅ (rFiles s) !! dir with Some (RDir fs) => fs | _ => ∅ end.
(** os.Remove of a file in a folder of project-revisions; [false] when it cannot *)
Definition remove_file (dir file : string) (s : RState) : RState * bool :=
  let '(s, bad) := tick s in
  match files_in dir s !! file with
  | Some false => if bad then (s, false) else (set_files ((fun m => <[dir := RDir (delete file (files_in dir s))]> m) <$> rFiles s) s, true)
  | _ => (s, false)
  end.
Fixpoint remove_snapshots (rs : list ProjectRevision) (s : RState) : RState * Z :=
  match rs with
  | [] => (s, 0)
  | r :: rs =>
      let '(s, ok) := remove_file (FormatInt (rvProject r)) (zip_name (Revision r)) s in
      let '(s, n) := remove_snapshots rs s in (s, (if ok : bool then 1 else 0) + n)
  end.

(** revisionZipRE with strconv.Atoi, which answers the largest int for a larger number *)
Fixpoint all_digits (l : list Ascii.ascii) : bool := match l with [] => true | c :: l => (48 <=? code c) && (code c <=? 57) && all_digits l end.
Definition zip_number (name : string) : option Z :=
  if HasSuffix name ".zip" then
    let digits := stake (String.length name - 4) name in
    if negb (String.eqb digits "") && all_digits (bytes digits) then Z.min int64_max <$> parse_digits 0 (bytes digits) else None
  else None.
Definition RevisionNumbers (project : Z) (s : RState) : list Z := Revision <$> List.filter (fun r => rvProject r =? project) (rRevs s).

Fixpoint sweep_files (dir : string) (live : list Z) (names : list string) (s : RState) : RState * (Z * list PurgeErr) :=
  match names with
  | [] => (s, (0, []))
  | f :: names =>
      match files_in dir s !! f, zip_number f with
      | Some false, Some n =>
          if existsb (Z.eqb n) live then sweep_files dir live names s
          else
            let '(s, ok) := remove_file dir f s in
            let '(s, (k, errs)) := sweep_files dir live names s in
            (s, if ok : bool then (k + 1, errs) else (k, PRemove dir f :: errs))
      | _, _ => sweep_files dir live names s
      end
  end.
Fixpoint sweep_dirs (dirs : list string) (s : RState) : RState * (Z * list PurgeErr) :=
  match dirs with
  | [] => (s, (0, []))
  | d :: dirs =>
      match default ∅ (rFiles s) !! d, ParseInt d with
      | Some (RDir fs), Some project =>
          let '(s, stop) := tick s in
          if stop then (s, (0, [PContext]))
          else
            let '(s, bad) := tick s in
            if bad then let '(s, (k, errs)) := sweep_dirs dirs s in (s, (k, PStatement :: errs))
            else
              let live := RevisionNumbers project s in
              let '(s, bad) := tick s in
              if bad then let '(s, (k, errs)) := sweep_dirs dirs s in (s, (k, PReadDir :: errs))
              else
                let '(s, (k, errs)) := sweep_files d live (sort_strings (map_to_list fs).*1) s in
                let '(s, (k', errs')) := sweep_dirs dirs s in (s, (k + k', errs ++ errs'))
      | _, _ => sweep_dirs dirs s
      end
  end.
Definition sweepOrphanRevisionFiles (s : RState) : RState * (Z * list PurgeErr) :=
  let '(s, bad) := tick s in
  match rFiles s with
  | None => (s, (0, []))
  | Some m => if bad then (s, (0, [PReadDir])) else sweep_dirs (sort_strings (map_to_list m).*1) s
  end.

(** ** A run *)
Inductive RunErr := RetentionBusy | RetentionPolicyErr (e : RetErr).
Definition noted (e : option PurgeErr) : list PurgeErr := match e with Some e => [e] | None => [] end.
(** All areas of a policy, at [now]; one failing does not stop the others. *)
Definition purge_all (policy : RetentionPolicy) (trigger : string) (now : Z) (s : RState) : RState * RetentionRun :=
  let '(s, (events, orphans, e1)) := PurgeAlertEvents (AlertEventsDays policy) now s in
  let '(s, (deliveries, e2)) := PurgeAlertDeliveries (AlertDeliveriesDays policy) now s in
  let '(s, (audit, e3)) := PurgeAudit (AuditDays policy) now s in
  let '(s, (gone, e4)) := TrimRevisions (RevisionsKeep policy) s in
  let '(s, files) := remove_snapshots gone s in
  let '(s, (swept, e5)) := sweepOrphanRevisionFiles s in
  (s, mkRun (rfc3339 now) trigger events (orphans + deliveries) audit (Z.of_nat (length gone)) (files + swept) (noted e1 ++ noted e2 ++ noted e3 ++ noted e4 ++ e5)).
Definition runRetention (trigger : string) (actor : option (Z * string)) (now : Z) (s : RState) : RState * result RunErr RetentionRun :=
  if rBusy s then (s, Err RetentionBusy)
  else
    let s := set_busy true s in
    let '(s, bad) := tick s in
    match Retention bad (rPolicy s) with
    | (_, Some e) => (set_busy false s, Err (RetentionPolicyErr e))
    | (policy, None) =>
        let '(s, run) := purge_all policy trigger now s in
        let '(s, bad) := tick s in
        let s := if bad then s else set_last run s in
        let '(s, bad) := tick s in
        let s := if (0 <? Total run) || negb (match ruErrors run with [] => true | _ => false end)
                 then if bad then s
                      else set_audit (rAudit s ++ [mkAuditRow (default 0 (fst <$> actor)) (default "system" (snd <$> actor)) "retention.purge" trigger (rfc3339 now)]) s
                 else s in
        (set_busy false s, Ok run)
    end.

(** ** The settings page *)
Inductive RReply := RErr (status : Z) (msg : string) | RRun (r : RetentionRun) | ROk
  | RPage (policy : RetentionPolicy) (stats : list (nat * option Z)) (last : option RetentionRun) (unusable : bool).
(** COUNT and MIN of an area *)
Definition area (times : list Z) : nat * option Z := (length times, match times with [] => None | t :: ts => Some (fold_right Z.min t ts) end).
Definition RetentionStats (s : RState) : list (nat * option Z) :=
  [area (eCreatedAt <$> rEvents s); area (dAttempted <$> rDeliveries s); area (arAt <$> rAudit s); area (rvCreatedAt <$> rRevs s)].
Definition handleGetRetention (policy_fault stats_fault : bool) (s : RState) : RReply :=
  let page p bad := if stats_fault then RErr 500 "could not read database statistics" else RPage p (RetentionStats s) (rLast s) bad in
  match Retention policy_fault (rPolicy s) with
  | (p, None) => page p false
  | (p, Some ErrRetentionPolicyInvalid) => page p true
  | (_, Some ErrRetDB) => RErr 500 "could not read the retention policy"
  end.
Definition handleSetRetention (write_fault : bool) (claims : option (Z * string)) (body : option RetentionPolicy) (now : Z) (s : RState) : RState * RReply :=
  match body with
  | None => (s, RErr 400 "invalid body")
  | Some p =>
      match SetRetention write_fault p (rPolicy s) with
      | (_, Some SRInvalid) => (s, RErr 400 "invalid policy")
      | (_, Some SRDB) => (s, RErr 500 "could not save the retention policy")
      | (row, None) =>
          let s := set_policy row s in
          (set_audit (rAudit s ++ [mkAuditRow (default 0 (fst <$> claims)) (default "" (snd <$> claims)) "retention.update" "" (rfc3339 now)]) s, ROk)
      end
  end.
Definition handlePurgeRetention (claims : option (Z * string)) (now : Z) (s : RState) : RState * RReply :=
  match runRetention "manual" claims now s with
  | (s, Err RetentionBusy) => (s, RErr 409 "a purge is already running")
  | (s, Err (RetentionPolicyErr ErrRetentionPolicyInvalid)) => (s, RErr 422 "Nothing was deleted: the stored retention policy is unreadable. Save a new policy first.")
  | (s, Err (RetentionPolicyErr ErrRetDB)) => (s, RErr 500 "purge failed")
  | (s, Ok run) => (s, RRun run)
  end.
End Purge.

(** ** What a deletion takes *)
(** [l'] is [l] without some rows of [p]. *)
Definition thinned {A} (p : A -> bool) (l l' : list A) : Prop :=
  sublist l' l /\ List.filter (fun x => negb (p x)) l' = List.filter (fun x => negb (p x)) l.
Lemma thinned_refl {A} (p : A -> bool) l : thinned p l l.
Proof. by split. Qed.
Lemma thinned_trans {A} (p q : A -> bool) l l1 l2 : thinned p l l1 -> thinned q l1 l2 -> thinned (fun x => p x || q x) l l2.
Proof.
  intros [S1 E1] [S2 E2]. split; [by etrans|].
  assert (forall (l : list A), List.filter (fun x => negb (p x || q x)) l = List.filter (fun x => negb (q x)) (List.filter (fun x => negb (p x)) l)) as H.
  { clear. induction l as [|x l IH]; [done|]. simpl. destruct (p x) eqn:Ep, (q x) eqn:Eq; simpl; rewrite ?Eq; simpl; by rewrite ?IH. }
  assert (forall (l : list A), List.filter (fun x => negb (p x || q x)) l = List.filter (fun x => negb (p x)) (List.filter (fun x => negb (q x)) l)) as H'.
  { clear. induction l as [|x l IH]; [done|]. simpl. destruct (q x) eqn:Eq, (p x) eqn:Ep; simpl; rewrite ?Ep; simpl; by rewrite ?IH. }
  by rewrite H', E2, <- H', H, E1, <- H.
Qed.
Lemma thinned_ext {A} (p q : A -> bool) l l' : (forall x, p x = q x) -> thinned p l l' -> thinned q l l'.
Proof. intros H [S E]. split; [done|]. rewrite (filter_ext (fun x => negb (q x)) (fun x => negb (p x))) by (intros; by rewrite H). rewrite E. apply filter_ext. intros. by rewrite H. Qed.
(** A row of another kind stays. *)
Lemma thinned_keeps {A} (p : A -> bool) l l' x : thinned p l l' -> x ∈ l -> p x = false -> x ∈ l'.
Proof.
  intros [_ E] Hx Hp. assert (x ∈ List.filter (fun x => negb (p x)) l') as H; [|by apply list_elem_of_In, filter_In in H as [?%list_elem_of_In _]].
  rewrite E, list_elem_of_In, filter_In. split; [by apply list_elem_of_In|by rewrite Hp].
Qed.

Section Facts.
Context (fault : nat -> bool).

Lemma delete_first_spec {A} (p : A -> bool) n (l : list A) : let '(l', k) := delete_first n p l in
  thinned p l l' /\ 0 <= k <= Z.of_nat n /\ Z.of_nat (length l) = Z.of_nat (length l') + k /\ (k < Z.of_nat n -> l' = List.filter (fun x => negb (p x)) l).
Proof.
  revert n. induction l as [|x l IH]; intros n; cbn [delete_first].
  { split; [apply thinned_refl|]. split; [lia|]. by split. }
  destruct n as [|n]; [split; [apply thinned_refl|]; split; [lia|]; split; [lia|lia]|]. destruct (p x) eqn:E.
  - specialize (IH n). destruct (delete_first n p l) as [l' k]. destruct IH as ([S F] & H1 & H2 & H3). unfold thinned. simpl. rewrite E. simpl.
    split; [split; [by apply sublist_cons|done]|]. split; [lia|]. split; [lia|]. intros Hk. apply H3. lia.
  - specialize (IH (S n)). destruct (delete_first (S n) p l) as [l' k]. destruct IH as ([S F] & H1 & H2 & H3). unfold thinned. simpl. rewrite E. simpl.
    split; [split; [by apply sublist_skip|by rewrite F]|]. split; [lia|]. split; [lia|]. intros Hk. by rewrite H3.
Qed.

(** A table of the state. *)
Class Table {A} (get : RState -> list A) (put : list A -> RState -> RState) : Prop := {
  get_put l s : get (put l s) = l; put_put l l' s : put l (put l' s) = put l s; put_get s : put (get s) s = s;
  put_step l s : put l (next_step s) = next_step (put l s); get_step s : get (next_step s) = get s
}.
#[local] Instance events_table : Table rEvents set_events. Proof. by split; destruct s. Qed.
#[local] Instance deliveries_table : Table rDeliveries set_deliveries. Proof. by split; destruct s. Qed.
#[local] Instance retries_table : Table rRetries set_retries. Proof. by split; destruct s. Qed.
#[local] Instance audit_table : Table rAudit set_audit. Proof. by split; destruct s. Qed.

Definition steps (k : nat) (s : RState) : RState := Nat.iter k next_step s.
Lemma put_steps `{Table A get put} l k s : put l (steps k s) = steps k (put l s).
Proof. induction k as [|k IH]; [done|]. simpl. by rewrite put_step, IH. Qed.
Lemma get_steps `{Table A get put} k s : get (steps k s) = get s.
Proof. induction k as [|k IH]; [done|]. simpl. by rewrite get_step. Qed.
Lemma steps_steps k k' s : steps k (steps k' s) = steps (k + k') s.
Proof. unfold steps. induction k as [|k IH]; [done|]. simpl. by rewrite IH. Qed.

(** A batched deletion leaves a thinner table and nothing else changed; without an
    error every row it meant is gone, and it always comes to an end. *)
Lemma delete_batches_spec `{Table A get put} (p : RState -> A -> bool) fuel total s :
  (forall l s, p (put l s) = p s) -> (forall s, p (next_step s) = p s) -> (length (get s) < fuel)%nat ->
  exists l k, match delete_batches fault fuel get put p total s with
    | (s', (n, err)) => s' = steps k (put l s) /\ thinned (p s) (get s) l /\ n = total + Z.of_nat (length (get s)) - Z.of_nat (length l) /\
        err <> Some PFuel /\ (err = None -> l = List.filter (fun x => negb (p s x)) (get s)) end.
Proof.
  intros Hp Hn. revert total s. induction fuel as [|fuel IH]; intros total s Hf; [lia|]. cbn [delete_batches]. unfold tick.
  destruct (fault (rStep s)).
  { exists (get s), 1%nat. rewrite put_get. split; [done|]. split; [apply thinned_refl|]. split; [lia|]. by split. }
  destruct (fault (rStep (next_step s))).
  { exists (get s), 2%nat. rewrite put_get. split; [done|]. split; [apply thinned_refl|]. split; [lia|]. by split. }
  rewrite !Hn, !get_step. pose proof (delete_first_spec (p s) purgeBatch (get s)) as Hd. destruct (delete_first purgeBatch (p s) (get s)) as [l1 k1].
  destruct Hd as (Ht & Hk & Hl & He). rewrite !put_step. destruct (k1 <? Z.of_nat purgeBatch) eqn:E.
  { exists l1, 2%nat. split; [done|]. split; [done|]. split; [lia|]. split; [done|]. intros _. apply He. lia. }
  assert (0 < Z.of_nat purgeBatch) as H0 by (unfold purgeBatch; lia).
  set (s1 := next_step (next_step (put l1 s))). destruct (IH (total + k1) s1) as (l & k & IHs).
  { unfold s1. rewrite !get_step, get_put. lia. }
  exists l, (k + 2)%nat. assert (get s1 = l1) as Eg by (unfold s1; by rewrite !get_step, get_put). assert (p s1 = p s) as Ep by (unfold s1; by rewrite !Hn, Hp).
  destruct (delete_batches fault fuel get put p (total + k1) s1) as [s2 [n err]]. rewrite Eg, Ep in IHs. destruct IHs as (-> & T2 & -> & H3 & H4).
  split; [unfold s1; rewrite !put_step, put_put; by rewrite <- steps_steps|]. split; [apply (thinned_ext (fun x => p s x || p s x)); [intros x; by destruct (p s x)|by eapply thinned_trans]|].
  split; [lia|]. split; [done|]. intros Hn'. rewrite (H4 Hn'). apply Ht.
Qed.
Lemma deleteBatched_spec `{Table A get put} (p : RState -> A -> bool) s : (forall l s, p (put l s) = p s) -> (forall s, p (next_step s) = p s) ->
  exists l k n err, deleteBatched fault get put p s = (steps k (put l s), (n, err)) /\ thinned (p s) (get s) l /\
    n = Z.of_nat (length (get s)) - Z.of_nat (length l) /\ err <> Some PFuel /\ (err = None -> l = List.filter (fun x => negb (p s x)) (get s)).
Proof.
  intros H1 H2. destruct (delete_batches_spec p (S (length (get s))) 0 s H1 H2 ltac:(lia)) as (l & k & Hd). unfold deleteBatched.
  destruct (delete_batches _ _ _ _ _ _ _) as [s' [n err]]. destruct Hd as (-> & ? & ? & ? & ?). exists l, k, n, err. split; [done|]. split; [done|]. split; [lia|]. done.
Qed.

#[local] Instance revs_table : Table rRevs set_revs. Proof. by split; destruct s. Qed.

(** *** Rows of revisions *)
Definition without (gone l : list ProjectRevision) : list ProjectRevision := List.filter (fun x => negb (existsb (fun r => rvID x =? rvID r) gone)) l.
Lemma without_nil l : without [] l = l.
Proof. unfold without. simpl. induction l as [|x l IH]; [done|]. simpl. by rewrite IH. Qed.
Lemma without_cons r gone l : without (r :: gone) l = without gone (List.filter (fun x => negb (rvID x =? rvID r)) l).
Proof. unfold without. cbn [existsb]. induction l as [|x l IH]; [done|]. cbn [List.filter]. destruct (rvID x =? rvID r) eqn:E; cbn [negb orb List.filter]; by rewrite IH. Qed.

Lemma delete_each_spec rs s : exists gone rest k err, rs = gone ++ rest /\ delete_each fault rs s = (steps k (set_revs (without gone (rRevs s)) s), (gone, err)) /\
  err <> Some PFuel /\ (err = None -> rest = []).
Proof.
  revert s. induction rs as [|r rs IH]; intros s; cbn [delete_each].
  { exists [], [], 0%nat, None. rewrite without_nil, put_get. done. }
  unfold tick. destruct (fault (rStep s)); [exists [], (r :: rs), 1%nat, (Some PContext); by rewrite without_nil, put_get|].
  destruct (fault (rStep (next_step s))); [exists [], (r :: rs), 2%nat, (Some PStatement); by rewrite without_nil, put_get|].
  set (s1 := set_revs _ _). destruct (IH s1) as (gone & rest & k & err & -> & E & H1 & H2). rewrite E. exists (r :: gone), rest, (k + 2)%nat, err.
  split; [done|]. split; [|done]. rewrite without_cons. unfold s1. rewrite put_put, get_put, !get_step, !put_step. by rewrite <- steps_steps.
Qed.
Lemma TrimRevisions_spec keep s : exists gone rest k err, (if keep <=? 0 then [] else surplus keep (rRevs s)) = gone ++ rest /\
  TrimRevisions fault keep s = (steps k (set_revs (without gone (rRevs s)) s), (gone, err)) /\ err <> Some PFuel /\ (err = None -> rest = []).
Proof.
  unfold TrimRevisions. destruct (keep <=? 0); [exists [], [], 0%nat, None; by rewrite without_nil, put_get|].
  unfold tick. destruct (fault (rStep s)); [exists [], (surplus keep (rRevs s)), 1%nat, (Some PStatement); by rewrite without_nil, put_get|].
  destruct (delete_each_spec (surplus keep (rRevs (next_step s))) (next_step s)) as (gone & rest & k & err & H & E & H1 & H2).
  rewrite get_step in H. rewrite E. exists gone, rest, (k + 1)%nat, err. split; [done|]. split; [|done]. rewrite put_step, get_step. by rewrite <- steps_steps.
Qed.

(** *** Files *)
Definition in_files (g : option (gmap string RevDir)) (dir : string) : gmap string bool := match default ∅ g !! dir with Some (RDir fs) => fs | _ => ∅ end.
(** The second folder lacks some files of the first, each with [Q]. *)
Definition fewer (Q : string -> string -> Prop) (g g' : option (gmap string RevDir)) : Prop :=
  forall dir f, in_files g' dir !! f = in_files g dir !! f \/ (in_files g dir !! f = Some false /\ in_files g' dir !! f = None /\ Q dir f).
Definition removes (Q : string -> string -> Prop) (s s' : RState) : Prop := exists k g, s' = steps k (set_files g s) /\ fewer Q (rFiles s) g.

Lemma files_steps k s : rFiles (steps k s) = rFiles s.
Proof. induction k as [|k IH]; [done|]. simpl. exact IH. Qed.
Lemma set_files_steps g k s : set_files g (steps k s) = steps k (set_files g s).
Proof. induction k as [|k IH]; [done|]. simpl. by rewrite <- IH. Qed.
Lemma fewer_refl Q g : fewer Q g g.
Proof. intros dir f. by left. Qed.
Lemma fewer_trans Q g1 g2 g3 : fewer Q g1 g2 -> fewer Q g2 g3 -> fewer Q g1 g3.
Proof.
  intros H1 H2 dir f. destruct (H2 dir f) as [->|(E1 & E2 & HQ)]; [apply H1|]. destruct (H1 dir f) as [E|(_ & E & _)]; [|congruence]. rewrite E in E1. by right.
Qed.
Lemma fewer_weaken (Q Q' : string -> string -> Prop) g g' : (forall dir f, Q dir f -> Q' dir f) -> fewer Q g g' -> fewer Q' g g'.
Proof. intros H Hf dir f. destruct (Hf dir f) as [?|(?&?&?)]; [by left|]. right. eauto. Qed.
Lemma removes_step Q k s : removes Q s (steps k s).
Proof. exists k, (rFiles s). split; [by destruct s|apply fewer_refl]. Qed.
Lemma removes_trans Q s1 s2 s3 : removes Q s1 s2 -> removes Q s2 s3 -> removes Q s1 s3.
Proof.
  intros (k1 & g1 & -> & H1) (k2 & g2 & -> & H2). rewrite files_steps in H2. exists (k2 + k1)%nat, g2. split; [rewrite set_files_steps, steps_steps; by destruct s1|].
  simpl in H2. by eapply fewer_trans.
Qed.
Lemma removes_weaken (Q Q' : string -> string -> Prop) s s' : (forall dir f, Q dir f -> Q' dir f) -> removes Q s s' -> removes Q' s s'.
Proof. intros H (k & g & E & Hf). exists k, g. split; [done|]. by eapply fewer_weaken. Qed.
Lemma removes_revs Q s s' : removes Q s s' -> rRevs s' = rRevs s.
Proof. intros (k & g & -> & _). by rewrite get_steps. Qed.
Lemma removes_in Q s s' dir f : removes Q s s' -> files_in dir s' !! f = files_in dir s !! f \/ (files_in dir s !! f = Some false /\ files_in dir s' !! f = None /\ Q dir f).
Proof. intros (k & g & -> & H). unfold files_in. rewrite files_steps. apply H. Qed.

Lemma remove_file_spec (Q : string -> string -> Prop) dir f s : Q dir f -> removes Q s (remove_file fault dir f s).1 /\
  ((remove_file fault dir f s).2 = true -> files_in dir (remove_file fault dir f s).1 !! f = None).
Proof.
  intros HQ. unfold remove_file, tick. change (files_in dir (next_step s)) with (files_in dir s).
  assert (removes Q s (next_step s)) as H1 by apply (removes_step Q 1).
  destruct (files_in dir s !! f) as [[]|] eqn:E; try (by split). destruct (fault (rStep s)); [by split|]. simpl.
  destruct (rFiles s) as [m|] eqn:Em; [|unfold files_in in E; by rewrite Em in E]. simpl. split.
  - eapply removes_trans; [exact H1|]. exists 0%nat. eexists. split; [done|]. intros d x. simpl. rewrite Em. unfold in_files. simpl.
    destruct (decide (d = dir)) as [->|Hd]; [|by rewrite lookup_insert_ne; [left|]]. rewrite lookup_insert_eq. unfold files_in in *. rewrite Em in *. simpl in *.
    destruct (m !! dir) as [[fs|]|]; try done. destruct (decide (x = f)) as [->|Hx]; [right; by rewrite lookup_delete_eq|left; by rewrite lookup_delete_ne].
  - intros _. unfold files_in. simpl. by rewrite lookup_insert_eq, lookup_delete_eq.
Qed.
Lemma remove_snapshots_spec rs s : removes (fun dir f => exists r, r ∈ rs /\ dir = FormatInt (rvProject r) /\ f = zip_name (Revision r)) s (remove_snapshots fault rs s).1.
Proof.
  revert s. induction rs as [|r rs IH]; intros s; cbn [remove_snapshots]; [apply (removes_step _ 0)|].
  set (Q := fun dir f => exists r0, r0 ∈ r :: rs /\ _). destruct (remove_file_spec Q (FormatInt (rvProject r)) (zip_name (Revision r)) s) as [H1 _].
  { exists r. split; [by left|done]. }
  destruct (remove_file _ _ _ s) as [s1 ok]. specialize (IH s1). destruct (remove_snapshots _ rs s1) as [s2 n]. simpl in *.
  eapply removes_trans; [exact H1|]. eapply removes_weaken; [|exact IH]. intros dir f (r' & Hr & E). exists r'. split; [by right|done].
Qed.

Definition orphan (s : RState) (dir f : string) : Prop := exists project n, ParseInt dir = Some project /\ zip_number f = Some n /\ n ∉ RevisionNumbers project s.
Lemma still_there Q s s' dir f b : removes Q s s' -> files_in dir s' !! f = Some b -> files_in dir s !! f = Some b.
Proof. intros H E. destruct (removes_in Q s s' dir f H) as [<-|(_ & E' & _)]; [done|congruence]. Qed.

Lemma sweep_files_spec dir live names s : let r := sweep_files fault dir live names s in
  removes (fun d f => d = dir /\ exists n, zip_number f = Some n /\ n ∉ live) s r.1 /\
  (r.2.2 = [] -> forall f n, f ∈ names -> zip_number f = Some n -> files_in dir r.1 !! f = Some false -> n ∈ live).
Proof.
  cbv zeta. revert s. induction names as [|f names IH]; intros s; cbn [sweep_files].
  { split; [apply (removes_step _ 0)|]. by intros _ f n ?%not_elem_of_nil. }
  assert (forall s1, (forall n, zip_number f = Some n -> files_in dir s1 !! f = Some false -> n ∈ live) ->
    (sweep_files fault dir live names s1).2.2 = [] -> forall x n, x ∈ f :: names -> zip_number x = Some n -> files_in dir (sweep_files fault dir live names s1).1 !! x = Some false -> n ∈ live) as Hx.
  { intros s1 Hf He x n Hx Hz Hd. apply elem_of_cons in Hx as [->|Hx]; [|exact (proj2 (IH s1) He x n Hx Hz Hd)]. apply (Hf n Hz). by apply (still_there _ _ _ _ _ _ (proj1 (IH s1))). }
  destruct (files_in dir s !! f) as [[]|] eqn:Ef; [split; [apply IH|]; apply Hx; congruence| |split; [apply IH|]; apply Hx; congruence].
  destruct (zip_number f) as [n|] eqn:Ez; [|split; [apply IH|]; apply Hx; congruence].
  destruct (existsb (Z.eqb n) live) eqn:El.
  { split; [apply IH|]. apply Hx. intros m [= <-] _. apply existsb_exists in El as (x & Hin & E). apply Z.eqb_eq in E. subst x. by apply list_elem_of_In. }
  set (Q := fun d g => d = dir /\ _). destruct (remove_file_spec Q dir f s) as [H1 H2].
  { split; [done|]. exists n. split; [done|]. intros Hin. apply not_true_iff_false in El. apply El, existsb_exists. exists n. rewrite <- list_elem_of_In. split; [done|]. apply Z.eqb_refl. }
  destruct (remove_file fault dir f s) as [s1 ok]. simpl in H1, H2. destruct (IH s1) as [IH1 _]. specialize (Hx s1).
  destruct (sweep_files fault dir live names s1) as [s2 [k errs]]. simpl in *. split; [destruct ok; exact (removes_trans _ _ _ _ H1 IH1)|].
  destruct ok; [|done]. simpl. apply Hx. intros m _ E. by rewrite H2 in E.
Qed.

Lemma sweep_dirs_spec dirs s : let r := sweep_dirs fault dirs s in
  removes (orphan s) s r.1 /\ (r.2.2 = [] -> forall dir f, dir ∈ dirs -> files_in dir r.1 !! f = Some false -> ~ orphan s dir f).
Proof.
  cbv zeta. revert s. induction dirs as [|d dirs IH]; intros s; cbn [sweep_dirs].
  { split; [apply (removes_step _ 0)|]. by intros _ dir f ?%not_elem_of_nil. }
  assert (forall s1, rRevs s1 = rRevs s -> orphan s1 = orphan s) as Ho by (intros s1 E; unfold orphan, RevisionNumbers; by rewrite E).
  (* what remains when [d] itself is in order *)
  assert (forall s1, rRevs s1 = rRevs s -> (forall f, files_in d s1 !! f = Some false -> ~ orphan s d f) -> (sweep_dirs fault dirs s1).2.2 = [] ->
    forall dir f, dir ∈ d :: dirs -> files_in dir (sweep_dirs fault dirs s1).1 !! f = Some false -> ~ orphan s dir f) as Hx.
  { intros s1 E Hd He dir f [->|Hin]%elem_of_cons Hf; [|rewrite <- (Ho s1 E); by apply (proj2 (IH s1))]. apply Hd. by apply (still_there _ _ _ _ _ _ (proj1 (IH s1))). }
  destruct (default ∅ (rFiles s) !! d) as [[fs|]|] eqn:Ed.
  2,3: split; [apply IH|]; apply Hx; [done|]; intros f; unfold files_in; by rewrite Ed.
  destruct (ParseInt d) as [project|] eqn:Ep; [|split; [apply IH|]; apply Hx; [done|]; intros f _ (q & n & E & _); congruence].
  unfold tick. destruct (fault (rStep s)); [split; [apply (removes_step _ 1)|done]|].
  assert (forall k, removes (orphan s) s (sweep_dirs fault dirs (steps k s)).1) as Hk.
  { intros k. eapply removes_trans; [apply (removes_step _ k)|]. pose proof (proj1 (IH (steps k s))) as H. by rewrite (Ho (steps k s) (get_steps k s)) in H. }
  destruct (fault (rStep (next_step s))).
  { specialize (Hk 2%nat). simpl in Hk. destruct (sweep_dirs fault dirs _) as [s2 [k errs]]. by split. }
  destruct (fault (rStep (next_step (next_step s)))).
  { specialize (Hk 3%nat). simpl in Hk. destruct (sweep_dirs fault dirs _) as [s2 [k errs]]. by split. }
  set (s3 := next_step (next_step (next_step s))). set (live := RevisionNumbers project (next_step (next_step s))).
  assert (live = RevisionNumbers project s) as El by done. destruct (sweep_files_spec d live (sort_strings (map_to_list fs).*1) s3) as [F1 F2].
  destruct (sweep_files fault d live _ s3) as [s4 [k errs]]. cbn [fst snd] in F1, F2.
  assert (rRevs s4 = rRevs s) as E4 by (by rewrite (removes_revs _ _ _ F1)).
  specialize (IH s4) as [G1 G2]. rewrite (Ho s4 E4) in G1, G2. specialize (Hx s4 E4). destruct (sweep_dirs fault dirs s4) as [s5 [k' errs']]. cbn [fst snd] in *. split.
  - apply (removes_trans _ s s3); [apply (removes_step _ 3)|]. eapply removes_trans; [|exact G1]. eapply removes_weaken; [|exact F1].
    intros dir f (-> & n & Hz & Hl). exists project, n. by rewrite <- El.
  - intros [E1 E2]%app_eq_nil. apply Hx; [|done]. intros f Hf (q & n & Hq & Hz & Hl). rewrite Ep in Hq. injection Hq as <-. apply Hl. rewrite <- El.
    apply (F2 E1 f n); [|done|done]. unfold sort_strings. rewrite merge_sort_Permutation. apply list_elem_of_fmap. exists (f, false). split; [done|].
    apply elem_of_map_to_list. apply (still_there _ s3 s4 d f false F1) in Hf. change (files_in d s3) with (files_in d s) in Hf. unfold files_in in Hf. by rewrite Ed in Hf.
Qed.
Lemma sweep_spec s : let r := sweepOrphanRevisionFiles fault s in
  removes (orphan s) s r.1 /\ (r.2.2 = [] -> forall dir f, files_in dir r.1 !! f = Some false -> ~ orphan s dir f).
Proof.
  cbv zeta. unfold sweepOrphanRevisionFiles, tick. simpl. destruct (rFiles s) as [m|] eqn:Em.
  2: { split; [apply (removes_step _ 1)|]. intros _ dir f. unfold files_in. simpl. by rewrite Em. }
  destruct (fault (rStep s)); [split; [apply (removes_step _ 1)|done]|]. destruct (sweep_dirs_spec (sort_strings (map_to_list m).*1) (next_step s)) as [H1 H2].
  change (orphan (next_step s)) with (orphan s) in H1, H2. split; [eapply removes_trans; [apply (removes_step _ 1)|exact H1]|].
  intros He dir f Hf. apply (H2 He); [|done]. apply (still_there _ _ _ _ _ _ H1) in Hf. unfold files_in in Hf. simpl in Hf. rewrite Em in Hf. simpl in Hf.
  unfold sort_strings. rewrite merge_sort_Permutation. destruct (m !! dir) as [x|] eqn:E; [|done]. apply list_elem_of_fmap. exists (dir, x). split; [done|]. by apply elem_of_map_to_list.
Qed.

(** ** A whole run *)
Definition old_event (p : RetentionPolicy) (now : Z) (e : AlertEvent) : bool := (0 <? AlertEventsDays p) && (eCreatedAt e <? cutoffFor (AlertEventsDays p) now).
Definition old_delivery (p : RetentionPolicy) (now : Z) (d : AlertDelivery) : bool := (0 <? AlertDeliveriesDays p) && (dAttempted d <? cutoffFor (AlertDeliveriesDays p) now).
Definition old_audit (p : RetentionPolicy) (now : Z) (a : AuditRow) : bool := (MinAuditRetentionDays <=? AuditDays p) && (arAt a <? cutoffFor (AuditDays p) now).
(** Whose event is gone. *)
Definition stray (p : RetentionPolicy) (s : RState) (event : Z) : bool := (0 <? AlertEventsDays p) && no_event s event.
Definition trimmable (p : RetentionPolicy) (l : list ProjectRevision) : list ProjectRevision := if RevisionsKeep p <=? 0 then [] else surplus (RevisionsKeep p) l.
Definition kept_rows {A} (drop : A -> bool) (l : list A) : list A := List.filter (fun x => negb (drop x)) l.
Definition lost {A} (l l' : list A) : Z := Z.of_nat (length l) - Z.of_nat (length l').

Record alerts_purged (p : RetentionPolicy) (now : Z) (s s' : RState) (events orphans : Z) (err : option PurgeErr) : Prop := {
  ap_rest : exists k, s' = steps k (set_retries (rRetries s') (set_deliveries (rDeliveries s') (set_events (rEvents s') s)));
  ap_events : thinned (old_event p now) (rEvents s) (rEvents s');
  ap_deliveries : thinned (fun d => stray p s' (dEventID d)) (rDeliveries s) (rDeliveries s');
  ap_retries : thinned (fun r => stray p s' (rtEventID r)) (rRetries s) (rRetries s');
  ap_counts : events = lost (rEvents s) (rEvents s') /\ orphans = lost (rDeliveries s) (rDeliveries s');
  ap_fuel : err <> Some PFuel;
  ap_done : err = None -> rEvents s' = kept_rows (old_event p now) (rEvents s) /\ rDeliveries s' = kept_rows (fun d => stray p s' (dEventID d)) (rDeliveries s) /\
              rRetries s' = kept_rows (fun r => stray p s' (rtEventID r)) (rRetries s)
}.
Lemma kept_none {A} (drop : A -> bool) l : (forall x, drop x = false) -> l = kept_rows drop l.
Proof. intros H. unfold kept_rows. induction l as [|x l IH]; [done|]. simpl. rewrite H. simpl. by rewrite <- IH. Qed.

Lemma PurgeAlertEvents_spec p now s : let '(s', (events, orphans, err)) := PurgeAlertEvents fault (AlertEventsDays p) now s in alerts_purged p now s s' events orphans err.
Proof.
  unfold PurgeAlertEvents. destruct (AlertEventsDays p <=? 0) eqn:E0.
  { assert (0 <? AlertEventsDays p = false) as E1 by lia. split; try apply thinned_refl; try done.
    - exists 0%nat. by destruct s.
    - unfold lost. lia.
    - intros _. unfold old_event, stray. rewrite E1. split; [|split]; by apply kept_none. }
  assert (0 <? AlertEventsDays p = true) as E1 by lia.
  destruct (deleteBatched_spec (get := rEvents) (put := set_events) (fun _ e => eCreatedAt e <? cutoffFor (AlertEventsDays p) now) s) as (l1 & k1 & n1 & e1 & -> & T1 & N1 & F1 & D1); [done..|].
  assert (thinned (old_event p now) (rEvents s) l1) as T1' by (eapply thinned_ext; [|exact T1]; intros x; unfold old_event; by rewrite E1).
  destruct e1 as [e1|].
  { split; rewrite ?get_steps; try apply thinned_refl; try done; [exists k1; by destruct s|]. unfold lost. simpl. lia. }
  set (s1 := steps k1 _). assert (forall x, no_event s1 x = negb (existsb (fun e => eID e =? x) l1)) as Hn1 by (intros x; unfold no_event, s1; by rewrite get_steps, get_put).
  destruct (deleteBatched_spec (get := rDeliveries) (put := set_deliveries) (fun s d => no_event s (dEventID d)) s1) as (l2 & k2 & n2 & e2 & -> & T2 & N2 & F2 & D2); [done..|].
  assert (rDeliveries s1 = rDeliveries s) as Ed by (unfold s1; by rewrite get_steps). rewrite Ed in T2, N2, D2.
  set (s2 := steps k2 _). assert (rEvents s2 = l1) as Ee2 by (unfold s2, s1; rewrite !get_steps; simpl; by rewrite get_steps).
  assert (forall x, stray p s2 x = no_event s1 x) as Hs2 by (intros x; unfold stray, no_event; rewrite E1, Ee2; unfold s1; by rewrite get_steps).
  destruct e2 as [e2|].
  { assert (rDeliveries s2 = l2) as Ed2 by (unfold s2; by rewrite get_steps). assert (rRetries s2 = rRetries s) as Er2 by (unfold s2, s1; rewrite !get_steps; simpl; by rewrite get_steps).
    split; rewrite ?Ee2, ?Ed2, ?Er2; try apply thinned_refl; try done.
    - exists (k2 + k1)%nat. unfold s2, s1. rewrite put_steps, steps_steps. by destruct s.
    - eapply thinned_ext; [|exact T2]. intros d. by rewrite Hs2. }
  destruct (deleteBatched_spec (get := rRetries) (put := set_retries) (fun s r => no_event s (rtEventID r)) s2) as (l3 & k3 & n3 & e3 & -> & T3 & N3 & F3 & D3); [done..|].
  assert (rRetries s2 = rRetries s) as Er by (unfold s2, s1; rewrite !get_steps; simpl; by rewrite get_steps). rewrite Er in T3, D3.
  set (s3 := steps k3 _). assert (rEvents s3 = l1) as Ee3 by (unfold s3; rewrite get_steps; exact Ee2).
  assert (rDeliveries s2 = l2) as Ed2 by (unfold s2; by rewrite get_steps).
  assert (rDeliveries s3 = l2) as Ed3 by (unfold s3; rewrite get_steps; exact Ed2). assert (rRetries s3 = l3) as Er3 by (unfold s3; by rewrite get_steps).
  assert (forall x, stray p s3 x = no_event s2 x) as Hs3 by (intros x; unfold stray, no_event; by rewrite E1, Ee3, Ee2).
  assert (forall x, no_event s2 x = no_event s1 x) as Hs21 by (intros x; rewrite <- Hs2; unfold stray; by rewrite E1).
  split; rewrite ?Ee3, ?Ed3, ?Er3; try done.
  - exists (k3 + k2 + k1)%nat. unfold s3, s2, s1. rewrite !put_steps, !steps_steps. by destruct s.
  - eapply thinned_ext; [|exact T2]. intros d. by rewrite Hs3, Hs21.
  - eapply thinned_ext; [|exact T3]. intros d. by rewrite Hs3.
  - intros ->. rewrite (D1 eq_refl) at 1. rewrite (D2 eq_refl), (D3 eq_refl). unfold kept_rows. split; [apply filter_ext; intros x; unfold old_event; by rewrite E1|].
    split; apply filter_ext; intros x; [by rewrite Hs3, Hs21|by rewrite Hs3].
Qed.
Lemma PurgeAlertDeliveries_spec p now s : exists l k n err, PurgeAlertDeliveries fault (AlertDeliveriesDays p) now s = (steps k (set_deliveries l s), (n, err)) /\
  thinned (old_delivery p now) (rDeliveries s) l /\ n = lost (rDeliveries s) l /\ err <> Some PFuel /\ (err = None -> l = kept_rows (old_delivery p now) (rDeliveries s)).
Proof.
  unfold PurgeAlertDeliveries. destruct (AlertDeliveriesDays p <=? 0) eqn:E0.
  { assert (0 <? AlertDeliveriesDays p = false) as E1 by lia. exists (rDeliveries s), 0%nat, 0, None. rewrite put_get. split; [done|]. split; [apply thinned_refl|].
    split; [unfold lost; lia|]. split; [done|]. intros _. apply kept_none. intros x. unfold old_delivery. by rewrite E1. }
  assert (0 <? AlertDeliveriesDays p = true) as E1 by lia.
  destruct (deleteBatched_spec (get := rDeliveries) (put := set_deliveries) (fun _ d => dAttempted d <? cutoffFor (AlertDeliveriesDays p) now) s) as (l & k & n & err & -> & T & N & F & D); [done..|].
  exists l, k, n, err. split; [done|]. split; [eapply thinned_ext; [|exact T]; intros x; unfold old_delivery; by rewrite E1|]. split; [done|]. split; [done|].
  intros H. rewrite (D H). apply filter_ext. intros x. unfold old_delivery. by rewrite E1.
Qed.
Lemma PurgeAudit_spec p now s : exists l k n err, PurgeAudit fault (AuditDays p) now s = (steps k (set_audit l s), (n, err)) /\
  thinned (old_audit p now) (rAudit s) l /\ n = lost (rAudit s) l /\ err <> Some PFuel /\ (err = None -> l = kept_rows (old_audit p now) (rAudit s)).
Proof.
  unfold PurgeAudit. destruct (AuditDays p <=? 0) eqn:E0; [|destruct (AuditDays p <? MinAuditRetentionDays) eqn:E2].
  1,2: assert (MinAuditRetentionDays <=? AuditDays p = false) as E1 by (unfold MinAuditRetentionDays in *; lia);
    eexists (rAudit s), 0%nat, 0, _; rewrite put_get; split; [done|]; split; [apply thinned_refl|]; split; [unfold lost; lia|]; split; [done|];
    intros _; apply kept_none; intros x; unfold old_audit; by rewrite E1.
  assert (MinAuditRetentionDays <=? AuditDays p = true) as E1 by lia.
  destruct (deleteBatched_spec (get := rAudit) (put := set_audit) (fun _ a => arAt a <? cutoffFor (AuditDays p) now) s) as (l & k & n & err & -> & T & N & F & D); [done..|].
  exists l, k, n, err. split; [done|]. split; [eapply thinned_ext; [|exact T]; intros x; unfold old_audit; by rewrite E1|]. split; [done|]. split; [done|].
  intros H. rewrite (D H). apply filter_ext. intros x. unfold old_audit. by rewrite E1.
Qed.

Record purged (p : RetentionPolicy) (now : Z) (s s' : RState) (run : RetentionRun) : Prop := {
  pu_events : thinned (old_event p now) (rEvents s) (rEvents s');
  pu_deliveries : thinned (fun d => stray p s' (dEventID d) || old_delivery p now d) (rDeliveries s) (rDeliveries s');
  pu_retries : thinned (fun r => stray p s' (rtEventID r)) (rRetries s) (rRetries s');
  pu_audit : thinned (old_audit p now) (rAudit s) (rAudit s');
  pu_revs : exists gone rest, trimmable p (rRevs s) = gone ++ rest /\ rRevs s' = without gone (rRevs s) /\ ruRevisions run = Z.of_nat (length gone) /\
    fewer (fun dir f => orphan s' dir f \/ exists r, r ∈ gone /\ dir = FormatInt (rvProject r) /\ f = zip_name (Revision r)) (rFiles s) (rFiles s') /\
    (ruErrors run = [] -> rest = []);
  pu_counts : ruEvents run = lost (rEvents s) (rEvents s') /\ ruDeliveries run = lost (rDeliveries s) (rDeliveries s') /\ ruAudit run = lost (rAudit s) (rAudit s');
  pu_same : rPolicy s' = rPolicy s /\ rLast s' = rLast s /\ rBusy s' = rBusy s;
  pu_done : ruErrors run = [] -> rEvents s' = kept_rows (old_event p now) (rEvents s) /\
    rDeliveries s' = kept_rows (fun d => stray p s' (dEventID d) || old_delivery p now d) (rDeliveries s) /\
    rRetries s' = kept_rows (fun r => stray p s' (rtEventID r)) (rRetries s) /\ rAudit s' = kept_rows (old_audit p now) (rAudit s) /\
    forall dir f, files_in dir s' !! f = Some false -> ~ orphan s' dir f
}.

Lemma noted_nil e : noted e = [] -> e = None.
Proof. by destruct e. Qed.
Lemma kept_twice {A} (p q : A -> bool) l : kept_rows q (kept_rows p l) = kept_rows (fun x => p x || q x) l.
Proof. unfold kept_rows. induction l as [|x l IH]; [done|]. simpl. destruct (p x) eqn:Ep, (q x) eqn:Eq; simpl; rewrite ?Eq; simpl; by rewrite IH. Qed.
(** The state but for the count of steps. *)
Definition data (s : RState) : RState := mkRState (rEvents s) (rDeliveries s) (rRetries s) (rAudit s) (rRevs s) (rFiles s) (rPolicy s) (rLast s) (rBusy s) 0.
Lemma data_steps k s : data (steps k s) = data s.
Proof. induction k as [|k IH]; [done|]. exact IH. Qed.
Lemma data_removes Q s s' : removes Q s s' -> data s' = data (set_files (rFiles s') s) /\ fewer Q (rFiles s) (rFiles s').
Proof. intros (k & g & -> & H). rewrite files_steps, data_steps. by split. Qed.

Lemma purge_all_spec p trigger now s : let '(s', run) := purge_all fault p trigger now s in purged p now s s' run.
Proof.
  unfold purge_all. pose proof (PurgeAlertEvents_spec p now s) as A. destruct (PurgeAlertEvents _ _ _ s) as [s1 [[events orphans] e1]].
  destruct A as [(k1 & A0) A1 A2 A3 [A4 A5] _ A7].
  destruct (PurgeAlertDeliveries_spec p now s1) as (l2 & k2 & n2 & e2 & -> & B1 & B2 & _ & B3).
  set (s2 := steps k2 (set_deliveries l2 s1)). destruct (PurgeAudit_spec p now s2) as (l3 & k3 & n3 & e3 & -> & C1 & C2 & _ & C3).
  set (s3 := steps k3 (set_audit l3 s2)). destruct (TrimRevisions_spec (RevisionsKeep p) s3) as (gone & rest & k4 & e4 & D0 & -> & _ & D2).
  set (s4 := steps k4 _). pose proof (remove_snapshots_spec gone s4) as R1. destruct (remove_snapshots fault gone s4) as [s5 files]. cbn [fst] in R1.
  pose proof (sweep_spec s5) as [R2 R3]. destruct (sweepOrphanRevisionFiles fault s5) as [s6 [swept e5]]. cbn [fst snd] in R2, R3.
  apply data_removes in R1 as [X1 R1], R2 as [X2 R2].
  assert (data s2 = data (set_deliveries l2 s1)) as X3 by apply data_steps. assert (data s3 = data (set_audit l3 s2)) as X4 by apply data_steps.
  assert (data s4 = data (set_revs (without gone (rRevs s3)) s3)) as X5 by apply data_steps.
  assert (data s1 = data (set_retries (rRetries s1) (set_deliveries (rDeliveries s1) (set_events (rEvents s1) s)))) as X6 by (rewrite A0 at 1; apply data_steps).
  assert (data s6 = mkRState (rEvents s1) l2 (rRetries s1) l3 (without gone (rRevs s)) (rFiles s6) (rPolicy s) (rLast s) (rBusy s) 0) as E.
  { clear -X1 X2 X3 X4 X5 X6. destruct s, s1, s2, s3, s4, s5, s6. unfold data in *. simpl in *. injection X1. injection X2. injection X3. injection X4. injection X5. injection X6. intros. by subst. }
  assert (rAudit s2 = rAudit s /\ rRevs s3 = rRevs s /\ rFiles s4 = rFiles s) as (Ea & Er & Ef).
  { clear -X3 X4 X5 X6. destruct s, s1, s2, s3, s4. unfold data in *. simpl in *. injection X3. injection X4. injection X5. injection X6. intros. by subst. }
  rewrite Ea in C1, C2, C3. rewrite Er in D0. assert (rRevs s5 = without gone (rRevs s)) as Hr5 by (apply (f_equal rRevs) in X1, X5; simpl in X1, X5; by rewrite X1, X5, Er).
  rewrite Ef in R1. clear X1 X2 X3 X4 X5 X6 Ea Er Ef A0.
  assert (rEvents s6 = rEvents s1 /\ rDeliveries s6 = l2 /\ rRetries s6 = rRetries s1 /\ rAudit s6 = l3 /\ rRevs s6 = without gone (rRevs s) /\ rPolicy s6 = rPolicy s /\ rLast s6 = rLast s /\ rBusy s6 = rBusy s)
    as (E1 & E2 & E3 & E4 & E5 & E6 & E7 & E8) by (clear -E; destruct s6; unfold data in E; simpl in *; by injection E).
  assert (forall x, stray p s6 x = stray p s1 x) as Hs by (intros x; unfold stray, no_event; by rewrite E1).
  assert (orphan s6 = orphan s5) as Ho by (unfold orphan, RevisionNumbers; rewrite E5; by rewrite Hr5).
  split; rewrite ?E1, ?E2, ?E3, ?E4; try done.
  - eapply thinned_ext; [|by eapply thinned_trans]. intros d. simpl. by rewrite Hs.
  - eapply thinned_ext; [|exact A3]. intros r. by rewrite Hs.
  - exists gone, rest. split; [exact D0|]. split; [exact E5|]. split; [done|]. split.
    + rewrite Ho. eapply fewer_trans; [eapply fewer_weaken; [|exact R1]; intros; by right|eapply fewer_weaken; [|exact R2]; intros; by left].
    + intros H. apply app_eq_nil in H as [_ [_ [_ [He4 _]%app_eq_nil]%app_eq_nil]%app_eq_nil]. by apply D2, noted_nil.
  - simpl. unfold lost in *. lia.
  - simpl. intros H. apply app_eq_nil in H as [H1 [H2 [H3 [_ H5]%app_eq_nil]%app_eq_nil]%app_eq_nil]. apply noted_nil in H1, H2, H3.
    destruct (A7 H1) as (F1 & F2 & F3). rewrite (B3 H2), (C3 H3), F2, kept_twice. split; [exact F1|]. split; [apply filter_ext; intros d; simpl; by rewrite Hs|].
    split; [rewrite F3 at 1; apply filter_ext; intros r; by rewrite Hs|]. split; [done|]. rewrite Ho. exact (R3 H5).
Qed.
End Facts.

(** ** What a purge leaves alone *)
Lemma all_digits_parse l : forall acc n, parse_digits acc l = Some n -> all_digits l = true.
Proof. induction l as [|c l IH]; intros acc n; [done|]. simpl. destruct (_ && _); [apply IH|done]. Qed.
Lemma slen_app s t : String.length (s +:+ t) = (String.length s + String.length t)%nat.
Proof. induction s as [|c s IH]; [done|]. change (String c s +:+ t) with (String c (s +:+ t)). simpl. by rewrite IH. Qed.
(** The sweep reads back the number the snapshot was named by. *)
Lemma zip_number_name n : 0 <= n <= int64_max -> zip_number (zip_name n) = Some n.
Proof.
  intros Hn. assert (in_int64 n) as Hi by (unfold in_int64, int64_min, int64_max in *; lia). unfold zip_number, zip_name.
  assert (HasSuffix (FormatInt n +:+ ".zip") ".zip" = true) as ->.
  { unfold HasSuffix. rewrite slen_app. rewrite (proj2 (Nat.leb_le _ _)) by (simpl; lia). replace (_ + _ - _)%nat with (String.length (FormatInt n)) by (simpl; lia). by rewrite sdrop_app. }
  rewrite slen_app. replace (_ + _ - _)%nat with (String.length (FormatInt n)) by (simpl; lia). rewrite stake_app.
  destruct (format_digits_bytes 20 n "") as (l & Hl & Hd & Hne); [lia|].
  assert (FormatInt n = format_digits 20 n "") as -> by (unfold FormatInt; by rewrite (proj2 (Z.ltb_ge n 0)) by lia).
  assert (parse_digits 0 (bytes (format_digits 20 n "")) = Some n) as Hp.
  { by rewrite parse_format_digits by (change (10 ^ Z.of_nat 20) with 100000000000000000000; unfold int64_max in *; lia). }
  destruct (String.eqb_spec (format_digits 20 n "") "") as [E|_]; [exfalso; rewrite E, app_nil_r in Hl; by apply Hne|].
  rewrite (all_digits_parse _ _ _ Hp), Hp. simpl. f_equal. lia.
Qed.

Definition day : Z := 24 * hour.
(** Within the policy's bounds the cut-off is computed without overflow. *)
Lemma cutoffFor_exact days now : 0 <= days <= MaxRetentionDays -> cutoffFor days now = rfc3339 (now - days * day).
Proof.
  intros H. unfold cutoffFor, MaxRetentionDays in *. rewrite (wrap64_id (- days)), (wrap64_id (- days * 24)), wrap64_id by (unfold in_int64, int64_min, int64_max, hour, minute, second in *; lia).
  f_equal. unfold day. lia.
Qed.
Lemma cutoffFor_le days now : 0 <= days <= MaxRetentionDays -> cutoffFor days now <= now - days * day.
Proof. intros H. rewrite cutoffFor_exact by done. apply rfc3339_le. Qed.

(** What Validate lets through. *)
Lemma Validate_bounds p : Validate p = true ->
  0 <= AlertEventsDays p <= MaxRetentionDays /\ 0 <= AlertDeliveriesDays p <= MaxRetentionDays /\ 0 <= AuditDays p <= MaxRetentionDays /\
  (AuditDays p = 0 \/ MinAuditRetentionDays <= AuditDays p) /\ (RevisionsKeep p = 0 \/ MinRevisionsKeep <= RevisionsKeep p) /\
  (AlertEventsDays p = 0 \/ 0 < AlertDeliveriesDays p <= AlertEventsDays p).
Proof.
  unfold Validate, valid_days, MaxRetentionDays, MinAlertRetentionDays, MinAuditRetentionDays, MinRevisionsKeep. intros H. bsimp. lia.
Qed.
Lemma Retention_valid fault row p : Retention fault row = (p, None) -> Validate p = true.
Proof. unfold Retention. destruct fault; [done|]. destruct row as [| |q]; [|done|]; [by intros [= <-]|]. destruct (Validate q) eqn:E; [by intros [= <-]|done]. Qed.

(** The revision rows as the schema keeps them: ids and (project, number) unique. *)
Record wf_revs (l : list ProjectRevision) : Prop := {
  wr_ids : NoDup (rvID <$> l); wr_numbers : NoDup ((fun r => (rvProject r, Revision r)) <$> l);
  wr_range : forall r, r ∈ l -> in_int64 (rvProject r) /\ 0 <= Revision r <= int64_max
}.
Lemma NoDup_fmap_eq {A B} (f : A -> B) l x y : NoDup (f <$> l) -> x ∈ l -> y ∈ l -> f x = f y -> x = y.
Proof.
  intros N Hx Hy E. apply list_elem_of_lookup in Hx as [i Hi]. apply list_elem_of_lookup in Hy as [j Hj].
  assert (i = j) as <- by (eapply NoDup_lookup; [exact N|rewrite list_lookup_fmap, Hi; done|rewrite list_lookup_fmap, Hj; by rewrite E]). congruence.
Qed.

(** What [s'] keeps of [s] under the policy [p]. *)
Record spared (p : RetentionPolicy) (now : Z) (s s' : RState) : Prop := {
  sp_events : forall e, e ∈ rEvents s -> AlertEventsDays p = 0 \/ now - AlertEventsDays p * day <= eCreatedAt e -> e ∈ rEvents s';
  sp_deliveries : forall d, d ∈ rDeliveries s -> AlertDeliveriesDays p = 0 \/ now - AlertDeliveriesDays p * day <= dAttempted d ->
    AlertEventsDays p = 0 \/ (exists e, e ∈ rEvents s' /\ eID e = dEventID d) -> d ∈ rDeliveries s';
  sp_retries : forall r, r ∈ rRetries s -> AlertEventsDays p = 0 \/ (exists e, e ∈ rEvents s' /\ eID e = rtEventID r) -> r ∈ rRetries s';
  sp_audit : forall a, a ∈ rAudit s -> AuditDays p = 0 \/ now - AuditDays p * day <= arAt a \/ now - MinAuditRetentionDays * day <= arAt a -> a ∈ rAudit s';
  sp_revs : forall r, r ∈ rRevs s -> RevisionsKeep p = 0 \/ newer_than r (rRevs s) < Z.max (RevisionsKeep p) MinRevisionsKeep -> r ∈ rRevs s';
  sp_files : forall r, r ∈ rRevs s' -> files_in (FormatInt (rvProject r)) s' !! zip_name (Revision r) = files_in (FormatInt (rvProject r)) s !! zip_name (Revision r)
}.

Section Runs.
Context (fault : nat -> bool).

Lemma fewer_at Q g g' dir f : fewer Q g g' -> ~ Q dir f -> in_files g' dir !! f = in_files g dir !! f.
Proof. intros H HQ. by destruct (H dir f) as [?|(_ & _ & ?)]. Qed.

Lemma no_event_false s id e : e ∈ rEvents s -> eID e = id -> no_event s id = false.
Proof. intros He E. unfold no_event. apply negb_false_iff, existsb_exists. exists e. split; [by apply list_elem_of_In|by apply Z.eqb_eq]. Qed.
Lemma stray_false p s id : AlertEventsDays p = 0 \/ (exists e, e ∈ rEvents s /\ eID e = id) -> stray p s id = false.
Proof. unfold stray. intros [->|(e & He & E)]; [done|]. by rewrite (no_event_false _ _ _ He E), andb_false_r. Qed.

(** A kept revision is none of those deleted, nor is its snapshot. *)
Lemma gone_elem gone rest keep l r : (if keep <=? 0 then [] else surplus keep l) = gone ++ rest -> r ∈ gone -> 0 < keep /\ r ∈ l /\ keep <= newer_than r l.
Proof.
  intros E Hr. assert (r ∈ gone ++ rest) as H by (apply elem_of_app; by left). rewrite <- E in H. destruct (keep <=? 0) eqn:K; [by apply not_elem_of_nil in H|].
  unfold surplus in H. apply list_elem_of_In, filter_In in H as [Hl Hk]. split; [lia|]. split; [by apply list_elem_of_In|lia].
Qed.
Lemma without_elem gone l r : r ∈ without gone l <-> r ∈ l /\ rvID r ∉ rvID <$> gone.
Proof.
  unfold without. rewrite list_elem_of_In, filter_In, <- list_elem_of_In. f_equiv. rewrite negb_true_iff, <- not_true_iff_false, existsb_exists.
  split; intros H Hx; apply H.
  - apply list_elem_of_fmap in Hx as (x & E & Hx). exists x. split; [by apply list_elem_of_In|lia].
  - destruct Hx as (x & Hx & E). apply list_elem_of_fmap. exists x. split; [lia|by apply list_elem_of_In].
Qed.

Lemma purged_spared p now s s' run : Validate p = true -> wf_revs (rRevs s) -> purged p now s s' run -> spared p now s s'.
Proof.
  intros V [W1 W2 W3] [P1 P2 P3 P4 (gone & rest & G1 & G2 & _ & G3 & _) _ _ _]. apply Validate_bounds in V as (V1 & V2 & V3 & V4 & V5 & V6).
  pose proof (cutoffFor_le _ now V1). pose proof (cutoffFor_le _ now V2). pose proof (cutoffFor_le _ now V3).
  assert (0 < day) as Hd by (unfold day, hour, minute, second; lia). unfold trimmable in *. split; unfold MinAuditRetentionDays, MinRevisionsKeep in *.
  - intros e He Hy. apply (thinned_keeps _ _ _ _ P1 He). unfold old_event. rewrite andb_false_iff, !Z.ltb_ge. lia.
  - intros d Hd' Hy Hs. apply (thinned_keeps _ _ _ _ P2 Hd'). simpl. apply orb_false_iff. split; [by apply stray_false|]. unfold old_delivery. rewrite andb_false_iff, !Z.ltb_ge. lia.
  - intros r Hr Hs. apply (thinned_keeps _ _ _ _ P3 Hr). by apply stray_false.
  - intros a Ha Hy. apply (thinned_keeps _ _ _ _ P4 Ha). unfold old_audit, MinAuditRetentionDays. rewrite andb_false_iff, Z.ltb_ge, Z.leb_gt.
    destruct V4 as [V4|V4]; [lia|]. pose proof (Z.mul_le_mono_nonneg_r _ _ day ltac:(lia) V4). lia.
  - intros r Hr Hy. rewrite G2. apply without_elem. split; [done|]. intros (g & E & Hg)%list_elem_of_fmap. destruct (gone_elem _ _ _ _ _ G1 Hg) as (? & Hl & Hk).
    assert (r = g) as <- by (eapply (NoDup_fmap_eq rvID); eauto). lia.
  - intros r Hr. apply (fewer_at _ _ _ _ _ G3). pose proof Hr as Hr'. rewrite G2 in Hr. apply without_elem in Hr as [Hr Hid]. destruct (W3 r Hr) as [I1 I2]. intros [(q & n & E1 & E2 & Hn)|(g & Hg & E1 & E2)].
    + rewrite ParseInt_FormatInt in E1 by done. rewrite zip_number_name in E2 by done. simplify_eq. apply Hn. unfold RevisionNumbers. apply list_elem_of_fmap. exists r. split; [done|].
      apply list_elem_of_In, filter_In. split; [by apply list_elem_of_In|by apply Z.eqb_refl].
    + destruct (gone_elem _ _ _ _ _ G1 Hg) as (_ & Hl & _). destruct (W3 g Hl) as [J1 J2]. apply Hid. apply list_elem_of_fmap. exists g. split; [|done]. f_equal.
      apply (NoDup_fmap_eq _ _ _ _ W2); [done|done|]. apply (f_equal ParseInt) in E1. apply (f_equal zip_number) in E2.
      rewrite !ParseInt_FormatInt in E1 by done. rewrite !zip_number_name in E2 by done. congruence.
Qed.

(** A run leaves the switch and the policy, and either did nothing or purged. *)
Lemma runRetention_cases trigger actor now s : let '(s', r) := runRetention fault trigger actor now s in
  rPolicy s' = rPolicy s /\ rBusy s' = rBusy s /\
  match r with
  | Err _ => data s' = data s
  | Ok run => rBusy s = false /\ exists p s1 more, Retention false (rPolicy s) = (p, None) /\ purged p now (next_step (set_busy true s)) s1 run /\ rLast s1 = rLast s /\
      s' = mkRState (rEvents s1) (rDeliveries s1) (rRetries s1) (rAudit s1 ++ more) (rRevs s1) (rFiles s1) (rPolicy s) (rLast s') false (rStep s')
  end.
Proof.
  unfold runRetention. destruct (rBusy s) eqn:B; [done|]. unfold tick.
  change (rPolicy (set_busy true s)) with (rPolicy s). change (rPolicy (next_step (set_busy true s))) with (rPolicy s).
  destruct (Retention (fault (rStep (set_busy true s))) (rPolicy s)) as [p [e|]] eqn:R; [simpl; split; [done|]; split; [done|]; unfold data; simpl; by rewrite B|].
  assert (Retention false (rPolicy s) = (p, None)) as R' by (by destruct (fault _)).
  pose proof (purge_all_spec fault p trigger now (next_step (set_busy true s))) as P. destruct (purge_all _ _ _ _ _) as [s1 run]. destruct (pu_same _ _ _ _ _ P) as (Q1 & Q2 & Q3).
  repeat match goal with |- context [fault ?x] => destruct (fault x) end; destruct (_ || _); simpl in *; (split; [done || congruence|]; split; [done|]; split; [done|]; exists p, s1);
    first [eexists; split; [done|]; split; [done|]; split; [done|]; unfold set_busy, set_last, set_audit; simpl; by rewrite Q1
          |exists []; rewrite app_nil_r; split; [done|]; split; [done|]; split; [done|]; unfold set_busy, set_last; simpl; by rewrite Q1].
Qed.
End Runs.

(** C14: Whatever fails on the way and whenever the context ends, a purge spares what
    the stored policy keeps: alerts, deliveries and audit rows no older than their
    areas' days, every delivery and retry whose alert is there, the last thirty days of
    the audit log under any policy, of each project the newest revisions the policy
    asks for and never fewer than three, and the snapshot of every revision kept. A run
    that finds another one busy, or a policy it cannot use, changes nothing. *)
Theorem retention_spares fault trigger actor now s : wf_revs (rRevs s) ->
  let '(s', r) := runRetention fault trigger actor now s in
  match r with
  | Err _ => data s' = data s
  | Ok _ => exists p, Retention false (rPolicy s) = (p, None) /\ Validate p = true /\ spared p now s s' /\ rPolicy s' = rPolicy s /\ rBusy s' = false
  end.
Proof.
  intros W. pose proof (runRetention_cases fault trigger actor now s) as H. destruct (runRetention _ _ _ _ s) as [s' [run|e]]; [|by destruct H as (_ & _ & ?)].
  destruct H as (H1 & H2 & B & p & s1 & more & R & P & _ & E). exists p. split; [done|]. pose proof (Retention_valid _ _ _ R) as V. split; [done|].
  destruct (purged_spared p now (next_step (set_busy true s)) s1 run V W P) as [S1 S2 S3 S4 S5 S6]. split; [|by split; congruence].
  clear R P H1 H2. rewrite E. split; simpl; [done..| |done|done].
  intros a Ha Hy. apply elem_of_app. left. by apply S4.
Qed.

(** ** A purge that nothing disturbs *)
Section Undisturbed.
Notation calm := (fun _ : nat => false).

Lemma delete_batches_calm {A} (get : RState -> list A) put p fuel total s : let '(_, (_, err)) := delete_batches calm fuel get put p total s in err = None \/ err = Some PFuel.
Proof.
  revert total s. induction fuel as [|fuel IH]; intros total s; cbn [delete_batches]; [by right|]. unfold tick. destruct (delete_first _ _ _) as [l n].
  destruct (_ <? _); [by left|apply IH].
Qed.
Lemma deleteBatched_calm `{Table A get put} (p : RState -> A -> bool) s : (forall l s, p (put l s) = p s) -> (forall s, p (next_step s) = p s) ->
  (deleteBatched calm get put p s).2.2 = None.
Proof.
  intros H1 H2. destruct (deleteBatched_spec calm p s H1 H2) as (l & k & n & err & E & _ & _ & Hf & _).
  pose proof (delete_batches_calm get put p (S (length (get s))) 0 s) as Hc. unfold deleteBatched in *. rewrite E in *. by destruct Hc.
Qed.
#[local] Instance calm_events : Table rEvents set_events. Proof. by split; destruct s. Qed.
#[local] Instance calm_deliveries : Table rDeliveries set_deliveries. Proof. by split; destruct s. Qed.
#[local] Instance calm_retries : Table rRetries set_retries. Proof. by split; destruct s. Qed.
#[local] Instance calm_audit : Table rAudit set_audit. Proof. by split; destruct s. Qed.

Lemma PurgeAlertEvents_calm days now s : (PurgeAlertEvents calm days now s).2.2 = None.
Proof.
  unfold PurgeAlertEvents. destruct (days <=? 0); [done|].
  pose proof (deleteBatched_calm (get := rEvents) (put := set_events) (fun _ e => eCreatedAt e <? cutoffFor days now) s ltac:(done) ltac:(done)) as E1.
  destruct (deleteBatched calm rEvents _ _ s) as [s1 [n1 e1]]. simpl in E1. subst e1.
  pose proof (deleteBatched_calm (get := rDeliveries) (put := set_deliveries) (fun s d => no_event s (dEventID d)) s1 ltac:(done) ltac:(done)) as E2.
  destruct (deleteBatched calm rDeliveries _ _ s1) as [s2 [n2 e2]]. simpl in E2. subst e2.
  pose proof (deleteBatched_calm (get := rRetries) (put := set_retries) (fun s r => no_event s (rtEventID r)) s2 ltac:(done) ltac:(done)) as E3.
  by destruct (deleteBatched calm rRetries _ _ s2) as [s3 [n3 e3]].
Qed.
Lemma PurgeAlertDeliveries_calm days now s : (PurgeAlertDeliveries calm days now s).2.2 = None.
Proof. unfold PurgeAlertDeliveries. destruct (days <=? 0); [done|]. by apply (deleteBatched_calm (get := rDeliveries) (put := set_deliveries)). Qed.
Lemma PurgeAudit_calm days now s : days = 0 \/ MinAuditRetentionDays <= days -> (PurgeAudit calm days now s).2.2 = None.
Proof.
  intros H. unfold PurgeAudit. destruct (days <=? 0) eqn:E; [done|]. assert (days <? MinAuditRetentionDays = false) as -> by lia.
  by apply (deleteBatched_calm (get := rAudit) (put := set_audit)).
Qed.
Lemma TrimRevisions_calm keep s : (TrimRevisions calm keep s).2.2 = None.
Proof.
  unfold TrimRevisions, tick. destruct (keep <=? 0); [done|]. cbv iota beta. generalize (surplus keep (rRevs (next_step s))). intros rs. generalize (next_step s). induction rs as [|r rs IH]; intros s1; [done|].
  cbn [delete_each]. unfold tick. specialize (IH (set_revs (List.filter (fun x => negb (rvID x =? rvID r)) (rRevs (next_step (next_step s1)))) (next_step (next_step s1)))).
  by destruct (delete_each _ _ _) as [s2 [g e]].
Qed.
Lemma sweep_files_calm dir live names s : (sweep_files calm dir live names s).2.2 = [].
Proof.
  revert s. induction names as [|f names IH]; intros s; [done|]. cbn [sweep_files]. destruct (files_in dir s !! f) as [[]|] eqn:Ef; try apply IH. destruct (zip_number f); [|apply IH].
  destruct (existsb _ live); [apply IH|]. unfold remove_file, tick. change (files_in dir (next_step s)) with (files_in dir s). rewrite Ef.
  set (s1 := set_files _ _). specialize (IH s1). destruct (sweep_files _ _ _ _ s1) as [s2 [k e]]. exact IH.
Qed.
Lemma sweep_dirs_calm dirs s : (sweep_dirs calm dirs s).2.2 = [].
Proof.
  revert s. induction dirs as [|d dirs IH]; intros s; [done|]. cbn [sweep_dirs]. destruct (_ !! d) as [[fs|]|]; try apply IH. destruct (ParseInt d); [|apply IH]. unfold tick.
  pose proof (sweep_files_calm d (RevisionNumbers z (next_step (next_step s))) (sort_strings (map_to_list fs).*1) (next_step (next_step (next_step s)))) as E.
  destruct (sweep_files _ _ _ _ _) as [s4 [k errs]]. simpl in E. subst errs. specialize (IH s4). destruct (sweep_dirs _ _ s4) as [s5 [k' errs']]. exact IH.
Qed.
Lemma sweep_calm s : (sweepOrphanRevisionFiles calm s).2.2 = [].
Proof. unfold sweepOrphanRevisionFiles, tick. destruct (rFiles _); [apply sweep_dirs_calm|done]. Qed.

Lemma purge_all_calm p trigger now s : Validate p = true -> ruErrors (purge_all calm p trigger now s).2 = [].
Proof.
  intros V. apply Validate_bounds in V as (_ & _ & _ & V & _). unfold purge_all.
  pose proof (PurgeAlertEvents_calm (AlertEventsDays p) now s) as E1. destruct (PurgeAlertEvents _ _ _ s) as [s1 [[n1 o1] e1]].
  pose proof (PurgeAlertDeliveries_calm (AlertDeliveriesDays p) now s1) as E2. destruct (PurgeAlertDeliveries _ _ _ s1) as [s2 [n2 e2]].
  pose proof (PurgeAudit_calm (AuditDays p) now s2 V) as E3. destruct (PurgeAudit _ _ _ s2) as [s3 [n3 e3]].
  pose proof (TrimRevisions_calm (RevisionsKeep p) s3) as E4. destruct (TrimRevisions _ _ s3) as [s4 [g e4]].
  destruct (remove_snapshots _ g s4) as [s5 n5]. pose proof (sweep_calm s5) as E5. destruct (sweepOrphanRevisionFiles _ s5) as [s6 [n6 e6]].
  simpl in *. by subst.
Qed.
Lemma without_surplus keep l : NoDup (rvID <$> l) -> without (surplus keep l) l = kept_rows (fun r => keep <=? newer_than r l) l.
Proof.
  intros N. unfold without, kept_rows. assert (forall r, r ∈ l -> existsb (fun g => rvID r =? rvID g) (surplus keep l) = (keep <=? newer_than r l)) as H.
  { intros r Hr. apply eq_true_iff_eq. rewrite existsb_exists. split.
    - intros (g & Hg & E). unfold surplus in Hg. apply filter_In in Hg as [Hg Hk]. apply list_elem_of_In in Hg. apply Z.eqb_eq in E. assert (r = g) as -> by (eapply (NoDup_fmap_eq rvID); eauto). done.
    - intros Hk. exists r. split; [|apply Z.eqb_refl]. apply filter_In. split; [by apply list_elem_of_In|done]. }
  apply filter_ext_in. intros r Hr. by rewrite H by by apply list_elem_of_In.
Qed.
End Undisturbed.

(** An undisturbed purge does exactly what the policy says: no alert or audit row
    older than its area's cut-off is left and no other goes, deliveries and retries of
    deleted alerts go with them, each project keeps its newest revisions and only
    those, no snapshot without a row remains, the counts are what went, and the run is
    recorded, with an audit entry only when it deleted something. *)
Theorem purge_exact trigger actor now s p : rBusy s = false -> Retention false (rPolicy s) = (p, None) -> wf_revs (rRevs s) ->
  exists s' run, runRetention (fun _ => false) trigger actor now s = (s', Ok run) /\ ruErrors run = [] /\ rLast s' = Some run /\
    rEvents s' = kept_rows (old_event p now) (rEvents s) /\
    rDeliveries s' = kept_rows (fun d => stray p s' (dEventID d) || old_delivery p now d) (rDeliveries s) /\
    rRetries s' = kept_rows (fun r => stray p s' (rtEventID r)) (rRetries s) /\
    rAudit s' = kept_rows (old_audit p now) (rAudit s) ++
      (if 0 <? Total run then [mkAuditRow (default 0 (fst <$> actor)) (default "system" (snd <$> actor)) "retention.purge" trigger (rfc3339 now)] else []) /\
    rRevs s' = kept_rows (fun r => (0 <? RevisionsKeep p) && (RevisionsKeep p <=? newer_than r (rRevs s))) (rRevs s) /\
    (forall dir f, files_in dir s' !! f = Some false -> ~ orphan s' dir f) /\
    ruEvents run = lost (rEvents s) (rEvents s') /\ ruDeliveries run = lost (rDeliveries s) (rDeliveries s') /\
    ruAudit run = lost (rAudit s) (kept_rows (old_audit p now) (rAudit s)) /\ ruRevisions run = lost (rRevs s) (rRevs s').
Proof.
  intros B R W. pose proof (Retention_valid _ _ _ R) as V. unfold runRetention. rewrite B. unfold tick.
  change (rPolicy (next_step (set_busy true s))) with (rPolicy s). rewrite R. set (s0 := next_step (set_busy true s)).
  pose proof (purge_all_spec (fun _ => false) p trigger now s0) as P. pose proof (purge_all_calm p trigger now s0 V) as He.
  destruct (purge_all _ p trigger now s0) as [s1 run]. simpl in He. destruct P as [_ _ _ _ (gone & rest & G1 & G2 & G3 & _ & G5) (N1 & N2 & N3) _ D].
  destruct (D He) as (D1 & D2 & D3 & D4 & D5). rewrite (G5 He), app_nil_r in G1. change (rRevs s0) with (rRevs s) in *.
  assert (rRevs s1 = kept_rows (fun r => (0 <? RevisionsKeep p) && (RevisionsKeep p <=? newer_than r (rRevs s))) (rRevs s)) as Er.
  { rewrite G2, <- G1. unfold trimmable. destruct (RevisionsKeep p <=? 0) eqn:K; [rewrite without_nil; apply kept_none; intros x; apply andb_false_iff; lia|].
    rewrite without_surplus by apply W. apply filter_ext. intros r. assert (0 <? RevisionsKeep p = true) as -> by lia. done. }
  assert (ruRevisions run = lost (rRevs s) (rRevs s1)) as Nr.
  { rewrite G3, Er, <- G1. unfold lost, trimmable, kept_rows, surplus. destruct (RevisionsKeep p <=? 0) eqn:K.
    - rewrite (filter_ext _ (fun _ => true)) by (intros x; apply negb_true_iff, andb_false_iff; lia). rewrite (List.filter_true). simpl. lia.
    - assert (0 <? RevisionsKeep p = true) as -> by lia. simpl. pose proof (List.filter_length (fun r => RevisionsKeep p <=? newer_than r (rRevs s)) (rRevs s)). lia. }
  rewrite He, orb_false_r. eexists _, run. split; [reflexivity|]. split; [done|]. rewrite N1, N2, N3. destruct (0 <? Total run); simpl; rewrite D4, ?app_nil_r; repeat (split; [done|]); exact Nr.
Qed.

(** The settings page keeps the policy it is given, to the number, when that policy
    is within bounds, and records who changed it; one out of bounds, an unreadable body
    or a failing write leave the stored policy, and nothing is recorded. A policy that
    can be stored is one that can be read back. *)
Theorem retention_roundtrip write_fault claims body now s :
  let '(s', r) := handleSetRetention write_fault claims body now s in
  match body with
  | Some p => if Validate p && negb write_fault
              then r = ROk /\ Retention false (rPolicy s') = (p, None) /\ (exists stats, handleGetRetention false false s' = RPage p stats (rLast s) false) /\
                   rAudit s' = rAudit s ++ [mkAuditRow (default 0 (fst <$> claims)) (default "" (snd <$> claims)) "retention.update" "" (rfc3339 now)]
              else r <> ROk /\ s' = s
  | None => r = RErr 400 "invalid body" /\ s' = s
  end.
Proof.
  unfold handleSetRetention, SetRetention. destruct body as [p|]; [|done]. destruct (Validate p) eqn:V; simpl; [|done]. destruct write_fault; simpl; [done|].
  rewrite V. split; [done|]. split; [done|]. split; [|done]. unfold handleGetRetention. simpl. rewrite V. by eexists.
Qed.

(** ** A small database to run the purge on *)
Definition demo_now : Z := 1760000000 * second.
Definition demo_revision (id project number : Z) : ProjectRevision := mkRevision id project number 1 [] [] true "" "" "admin" "deploy" (demo_now - 200 * day + number).
Definition demo_revisions : list ProjectRevision := [demo_revision 1 7 1; demo_revision 2 7 2; demo_revision 3 7 3; demo_revision 4 7 4; demo_revision 5 8 1].
Definition demo_state (policy : retention_row) : RState :=
  mkRState [] [] [] [mkAuditRow 1 "admin" "login" "" (demo_now - 400 * day); mkAuditRow 1 "admin" "login" "" (demo_now - 20 * day)] demo_revisions
    (Some (<["7" := RDir (<["1.zip" := false]> (<["2.zip" := false]> (<["9.zip" := false]> ∅)))]> ∅)) policy None false 0.
Definition demo_retention : RetentionPolicy := mkRetention 30 30 60 3.
Lemma demo_revisions_wf : wf_revs demo_revisions.
Proof.
  split; [by apply (bool_decide_unpack _); vm_compute|by apply (bool_decide_unpack _); vm_compute|].
  apply Forall_forall. repeat constructor; unfold int64_min, int64_max; simpl; lia.
Defined.

Lemma retention_spares_witness : exists s' run, runRetention (fun n => Nat.eqb n 40) "manual" None demo_now (demo_state (RetStored demo_retention)) = (s', Ok run) /\
  (demo_revision 2 7 2) ∈ rRevs s' /\ files_in "7" s' !! "2.zip" = Some false.
Proof.
  pose proof (retention_spares (fun n => Nat.eqb n 40) "manual" None demo_now (demo_state (RetStored demo_retention)) demo_revisions_wf) as H.
  destruct (runRetention _ _ _ _ (demo_state _)) as [s' [run|e]] eqn:E; [|vm_compute in E; discriminate].
  exists s', run. split; [done|]. destruct H as (p & R & _ & [_ _ _ _ S5 S6] & _ & _). injection R as <-. assert (demo_revision 2 7 2 ∈ rRevs s') as Hr.
  { apply S5; [by right; left|]. right. vm_compute. done. }
  split; [done|]. specialize (S6 _ Hr). exact S6.
Defined.
Lemma purge_exact_witness : exists s' run, runRetention (fun _ => false) "manual" None demo_now (demo_state (RetStored demo_retention)) = (s', Ok run) /\
  rvID <$> rRevs s' = [2; 3; 4; 5] /\ length (rAudit s') = 2%nat /\ files_in "7" s' !! "9.zip" <> Some false.
Proof.
  destruct (purge_exact "manual" None demo_now (demo_state (RetStored demo_retention)) demo_retention eq_refl eq_refl demo_revisions_wf) as (s' & run & E & _ & _ & _ & _ & _ & A & R & F & _).
  exists s', run. split; [exact E|]. rewrite R, A. split; [vm_compute; reflexivity|]. split.
  - assert (0 <? Total run = true) as ->; [|vm_compute; reflexivity].
    assert (match runRetention (fun _ => false) "manual" None demo_now (demo_state (RetStored demo_retention)) with (_, Ok r) => 0 <? Total r | _ => false end = true) as H by (vm_compute; reflexivity).
    by rewrite E in H.
  - intros H. apply (F _ _ H). exists 7, 9. split; [vm_compute; reflexivity|]. split; [vm_compute; reflexivity|].
    unfold RevisionNumbers. rewrite R. apply (bool_decide_unpack _). vm_compute. exact I.
Defined.
