(* ===== verification/BackupJobs.v ===== *)
(** * Backup jobs (internal/store/backupjobs.go, internal/backupjobs/scheduler.go,
      internal/api/backup_handlers.go)

    The jobs and their recorded runs, the scheduler's minute tick, one run of a job from
    resolving what to mount to the row that records it, and the handlers. The helper
    container is docker's, the cipher package crypto's and the text of an environment
    encoding/json's: parameters. [fault] says which statements fail. A run takes up to
    half an hour, during which others use the store: [meanwhile] is what they do. *)
From S2P Require Import Prelude GoStrings Users Roles Calendar MaintenanceHandlers Compose Preview ProjectStore.

(** ** Rows *)
Record BackupJob := mkJob {
  bjID : Z; bjName : string; bjEnabled : bool; bjScope : string; bjVolumeName : string; bjProjectID : Z; bjHostID : Z; bjImage : string;
  bjCommand : string; bjEnvEnc : string; IntervalMinutes : Z; bjCreatedBy : string; bjCreatedAt : Z; bjUpdatedAt : Z;
  LastRunAt : option Z; LastRunOK : bool; LastRunDetail : string
}.
Record BackupRun := mkBRun {
  brID : Z; brJobID : Z; brStartedAt : Z; brFinishedAt : Z; brOK : bool; brExitCode : Z; brOutput : string; brError : string; TriggeredBy : string
}.
Record BDB := mkBDB { jobs : list BackupJob; job_seq : Z; runs : list BackupRun; run_seq : Z }.
Definition empty_bdb : BDB := mkBDB [] 0 [] 0.
Definition set_jobs (l : list BackupJob) (d : BDB) : BDB := mkBDB l (job_seq d) (runs d) (run_seq d).
Definition set_runs (l : list BackupRun) (d : BDB) : BDB := mkBDB (jobs d) (job_seq d) l (run_seq d).

Definition BackupScopeVolume : string := "volume".
Definition BackupScopeProject : string := "project".
Definition maxBackupRunOutput : Z := 256 * 2 ^ 10.
Definition maxBackupRunsPerJob : Z := 200.

(** encoding/json on a map of texts *)
Class EnvJSON := { MarshalEnv : gmap string string -> string; UnmarshalEnv : string -> gmap string string }.
Class EnvJSONLaws (J : EnvJSON) : Prop := { unmarshal_marshal m : UnmarshalEnv (MarshalEnv m) = m; marshal_nonempty m : MarshalEnv m <> "" }.
Inductive BQuery := QBjList | QBjByID | QBjInsert | QBjEnvRead | QBjUpdate | QBjEnable | QBrDelJob | QBjDelete | QBjDue | QBrRecord | QBrList.

Section Store.
Context `{C : Cipher} `{J : EnvJSON} (fault : BQuery -> bool).

Definition encodeJSON (m : gmap string string) : string := MarshalEnv m.
Definition decodeJSON (s : string) : gmap string string := if String.eqb s "" then ∅ else UnmarshalEnv s.
(** A job as a reader of the table gets it: without its environment. *)
Definition scanBackupJob (j : BackupJob) : BackupJob :=
  mkJob (bjID j) (bjName j) (bjEnabled j) (bjScope j) (bjVolumeName j) (bjProjectID j) (bjHostID j) (bjImage j) (bjCommand j) "" (IntervalMinutes j)
    (bjCreatedBy j) (bjCreatedAt j) (bjUpdatedAt j) (LastRunAt j) (LastRunOK j) (LastRunDetail j).
Definition job_name_le (a b : BackupJob) : Prop := String.le (bjName a) (bjName b).
#[global] Instance job_name_le_dec : RelDecision job_name_le.
Proof. intros a b. unfold job_name_le. apply _. Defined.
Definition ListBackupJobs (d : BDB) : result StoreErr (list BackupJob) := if fault QBjList then Err ErrDB else Ok (scanBackupJob <$> merge_sort job_name_le (jobs d)).
Definition BackupJobByID (id : Z) (d : BDB) : result StoreErr BackupJob :=
  if fault QBjByID then Err ErrDB else match find_row (jobs d) (fun j => bjID j =? id) with Ok j => Ok (scanBackupJob j) | Err e => Err e end.

Definition encryptEnv (nonce : Z) (env : gmap string string) : option string := if bool_decide (env = ∅) then Some "" else Encrypt nonce (encodeJSON env).
Definition CreateBackupJob (j : BackupJob) (env : gmap string string) (now : Z) : stM BDB StoreErr Z := fun d =>
  match encryptEnv now env with
  | None => (d, Err ErrDB)
  | Some enc =>
      if fault QBjInsert then (d, Err ErrDB)
      else
        let id := job_seq d + 1 in
        let row := mkJob id (bjName j) (bjEnabled j) (bjScope j) (bjVolumeName j) (bjProjectID j) (bjHostID j) (bjImage j) (bjCommand j) enc (IntervalMinutes j)
                     (bjCreatedBy j) (rfc3339 now) (rfc3339 now) None false "" in
        (mkBDB (jobs d ++ [row]) id (runs d) (run_seq d), Ok id)
  end.
Definition on_job (id : Z) (f : BackupJob -> BackupJob) (d : BDB) : BDB := set_jobs ((fun j => if bjID j =? id then f j else j) <$> jobs d) d.
(** The environment's column after an update, from the stored one. *)
Definition env_column (id : Z) (env : gmap string string) (clearEnv : bool) (now : Z) (d : BDB) : result StoreErr string :=
  if clearEnv then Ok ""
  else if bool_decide (env = ∅) then if fault QBjEnvRead then Err ErrDB else match find_row (jobs d) (fun j => bjID j =? id) with Ok j => Ok (bjEnvEnc j) | Err e => Err e end
  else match encryptEnv now env with None => Err ErrDB | Some enc => Ok enc end.
Definition UpdateBackupJob (id : Z) (j : BackupJob) (env : gmap string string) (clearEnv : bool) (now : Z) : stM BDB StoreErr () := fun d =>
  match env_column id env clearEnv now d with
  | Err e => (d, Err e)
  | Ok enc =>
      if fault QBjUpdate then (d, Err ErrDB)
      else (on_job id (fun r => mkJob (bjID r) (bjName j) (bjEnabled r) (bjScope j) (bjVolumeName j) (bjProjectID j) (bjHostID j) (bjImage j) (bjCommand j) enc
                                  (IntervalMinutes j) (bjCreatedBy r) (bjCreatedAt r) (rfc3339 now) (LastRunAt r) (LastRunOK r) (LastRunDetail r)) d, Ok tt)
  end.
Definition SetBackupJobEnabled (id : Z) (enabled : bool) : stM BDB StoreErr () := fun d =>
  if fault QBjEnable then (d, Err ErrDB)
  else (on_job id (fun r => mkJob (bjID r) (bjName r) enabled (bjScope r) (bjVolumeName r) (bjProjectID r) (bjHostID r) (bjImage r) (bjCommand r) (bjEnvEnc r)
                              (IntervalMinutes r) (bjCreatedBy r) (bjCreatedAt r) (bjUpdatedAt r) (LastRunAt r) (LastRunOK r) (LastRunDetail r)) d, Ok tt).
(** The two statements of DeleteBackupJob, which no transaction joins. *)
Definition deleteBackupRuns (id : Z) : stM BDB StoreErr () := fun d =>
  if fault QBrDelJob then (d, Err ErrDB) else (set_runs (List.filter (fun r => negb (brJobID r =? id)) (runs d)) d, Ok tt).
Definition deleteBackupJobRow (id : Z) : stM BDB StoreErr () := fun d =>
  if fault QBjDelete then (d, Err ErrDB) else (set_jobs (List.filter (fun j => negb (bjID j =? id)) (jobs d)) d, Ok tt).
Definition DeleteBackupJob (id : Z) : stM BDB StoreErr () := deleteBackupRuns id ≫= fun _ => deleteBackupJobRow id.

Definition BackupJobEnv (id : Z) (d : BDB) : result StoreErr (gmap string string) :=
  if fault QBjEnvRead then Err ErrDB
  else match find_row (jobs d) (fun j => bjID j =? id) with
       | Err e => Err e
       | Ok j => if String.eqb (bjEnvEnc j) "" then Ok ∅ else match Decrypt (bjEnvEnc j) with None => Err ErrDB | Some plain => Ok (decodeJSON plain) end
       end.

Definition due (now : Z) (j : BackupJob) : bool :=
  match LastRunAt j with None => true | Some last => wrap64 (IntervalMinutes j * minute) <=? time_sub now last end.
Definition DueBackupJobs (now : Z) (d : BDB) : result StoreErr (list BackupJob) :=
  if fault QBjDue then Err ErrDB
  else Ok (scanBackupJob <$> List.filter (due now) (List.filter (fun j => bjEnabled j && (0 <? IntervalMinutes j)) (jobs d))).

(** The rows of one job beyond its newest, in the order they were recorded. *)
Definition prune (id : Z) (l : list BackupRun) : list BackupRun :=
  List.filter (fun r => negb (brJobID r =? id) || (Z.of_nat (length (List.filter (fun r' => (brJobID r' =? id) && (brID r <? brID r')) l)) <? maxBackupRunsPerJob)) l.
(** One transaction: an error leaves nothing. *)
Definition RecordBackupRun (run : BackupRun) : stM BDB StoreErr Z := fun d =>
  let output := if maxBackupRunOutput <? Z.of_nat (String.length (brOutput run)) then stake (Z.to_nat maxBackupRunOutput) (brOutput run) else brOutput run in
  if fault QBrRecord then (d, Err ErrDB)
  else
    let id := run_seq d + 1 in
    let row := mkBRun id (brJobID run) (rfc3339 (brStartedAt run)) (rfc3339 (brFinishedAt run)) (brOK run) (brExitCode run) output (brError run) (TriggeredBy run) in
    if existsb (fun j => bjID j =? brJobID run) (jobs d) then
      let d := on_job (brJobID run) (fun r => mkJob (bjID r) (bjName r) (bjEnabled r) (bjScope r) (bjVolumeName r) (bjProjectID r) (bjHostID r) (bjImage r)
                 (bjCommand r) (bjEnvEnc r) (IntervalMinutes r) (bjCreatedBy r) (bjCreatedAt r) (bjUpdatedAt r)
                 (Some (rfc3339 (brFinishedAt run))) (brOK run) (if brOK run then "" else brError run)) d in
      (mkBDB (jobs d) (job_seq d) (prune (brJobID run) (runs d ++ [row])) id, Ok id)
    else (d, Err ErrNotFound).
Definition run_newest (a b : BackupRun) : Prop := brID b <= brID a.
#[global] Instance run_newest_dec : RelDecision run_newest.
Proof. intros a b. unfold run_newest. apply _. Defined.
Definition ListBackupRuns (job limit : Z) (d : BDB) : result StoreErr (list BackupRun) :=
  let limit := if (limit <=? 0) || (200 <? limit) then 50 else limit in
  if fault QBrList then Err ErrDB else Ok (take (Z.to_nat limit) (merge_sort run_newest (List.filter (fun r => brJobID r =? job) (runs d)))).
End Store.

(** ** The scheduler (scheduler.go) *)
Definition TriggeredBySchedule : string := "schedule".

Section Scheduler.
Context `{TE : TextEnv} `{C : Cipher} `{J : EnvJSON} (fault : BQuery -> bool) (project_fault : bool).
(** docker's side: a project's volumes, and a helper container's output, exit code and error *)
Context (ProjectVolumeNames : Z -> string -> result string (list string))
        (RunBackupJob : Z -> string -> string -> gmap string string -> gmap string string -> string * Z * option string).

Definition resolveTarget (ps : PDB) (job : BackupJob) : result string (Z * gmap string string) :=
  if String.eqb (bjScope job) BackupScopeVolume then
    if String.eqb (bjVolumeName job) "" then Err "volume-scoped job has no volume configured"
    else Ok (bjHostID job, {[bjVolumeName job := "/data"]})
  else if String.eqb (bjScope job) BackupScopeProject then
    match ProjectByID (fun _ => project_fault) (bjProjectID job) ps with
    | Err e => Err ("resolve project: " +:+ db_text e)
    | Ok proj =>
        match ProjectVolumeNames (pHostID proj) (pSlug proj) with
        | Err e => Err ("resolve project volumes: " +:+ e)
        | Ok [] => Err ("project " +:+ Quote (pSlug proj) +:+ " has no named volumes to back up")
        | Ok names => Ok (pHostID proj, foldl (fun m n => <[n := "/data/" +:+ n]> m) ∅ names)
        end
    end
  else Err ("unknown backup job scope " +:+ Quote (bjScope job)).

Definition recordFailure (id started finished : Z) (by_ err : string) (d : BDB) : BDB :=
  (RecordBackupRun fault (mkBRun 0 id started finished false 0 "" err by_) d).1.
(** What the run comes to, before it is recorded: on [None] the helper was never started. *)
Definition prepared (ps : PDB) (job : BackupJob) (d : BDB) : result string (Z * gmap string string * gmap string string) :=
  match resolveTarget ps job with
  | Err e => Err e
  | Ok (host, mounts) => match BackupJobEnv fault (bjID job) d with Err e => Err (db_text e) | Ok env => Ok (host, mounts, env) end
  end.
Definition RunJob (ps : PDB) (job : BackupJob) (by_ : string) (started finished : Z) (meanwhile : BDB -> BDB) (d : BDB) : BDB * option string :=
  match prepared ps job d with
  | Err e => (recordFailure (bjID job) started finished by_ e d, Some e)
  | Ok (host, mounts, env) =>
      let '(output, code, err) := RunBackupJob host (bjImage job) (bjCommand job) env mounts in
      let run := mkBRun 0 (bjID job) started finished (match err with None => code =? 0 | Some _ => false end) code output
                   (match err with Some e => e | None => if code =? 0 then "" else "exit code " +:+ FormatInt code end) by_ in
      ((RecordBackupRun fault run (meanwhile d)).1, err)
  end.
(** The jobs of one tick, one after another; each takes its time. *)
Fixpoint run_jobs (ps : PDB) (js : list BackupJob) (clock : nat -> Z) (d : BDB) : BDB :=
  match js with
  | [] => d
  | j :: js => run_jobs ps js (fun n => clock (S (S n))) (RunJob ps j TriggeredBySchedule (clock 0%nat) (clock 1%nat) (fun d => d) d).1
  end.
Definition tick (ps : PDB) (now : Z) (clock : nat -> Z) (d : BDB) : BDB :=
  match DueBackupJobs fault now d with Err _ => d | Ok js => run_jobs ps js clock d end.
Definition TriggerNow (ps : PDB) (id : Z) (by_ : string) (started finished : Z) (meanwhile : BDB -> BDB) (d : BDB) : BDB * option string :=
  match BackupJobByID fault id d with Err e => (d, Some (db_text e)) | Ok job => RunJob ps job by_ started finished meanwhile d end.
End Scheduler.

(** ** The handlers (backup_handlers.go) *)
Record backupJobBody := mkBody {
  bbName : string; bbEnabled : bool; bbScope : string; bbVolumeName : string; bbProjectID : Z; bbHostID : Z; bbImage : string; bbCommand : string;
  bbIntervalMinutes : Z; bbEnv : gmap string string; bbClearEnv : bool
}.
Definition dquote (s : string) : string := String (Ascii.ascii_of_nat 34) (s +:+ String (Ascii.ascii_of_nat 34) "").
(** The empty message is no objection. *)
Definition validateBackupJobBody (b : backupJobBody) : string :=
  if String.eqb (bbName b) "" then "name is required"
  else if String.eqb (bbImage b) "" || String.eqb (bbCommand b) "" then "image and command are required"
  else
    let rest := if bbIntervalMinutes b <? 0 then "intervalMinutes cannot be negative" else "" in
    if String.eqb (bbScope b) BackupScopeVolume then if String.eqb (bbVolumeName b) "" then "volumeName is required for a volume-scoped job" else rest
    else if String.eqb (bbScope b) BackupScopeProject then if bbProjectID b =? 0 then "projectId is required for a project-scoped job" else rest
    else "scope must be " +:+ dquote "volume" +:+ " or " +:+ dquote "project".

Record BWorld := mkBWorld { wB : BDB; wP : PDB; bAudit : list AuditLine }.
Definition set_b (d : BDB) (w : BWorld) : BWorld := mkBWorld d (wP w) (bAudit w).
Inductive BReply := BErr (status : Z) (msg : string) | BOk | BCreated (id : Z) | BJob (j : BackupJob) | BJobs (l : list BackupJob) | BRuns (l : list BackupRun).

Section Handlers.
Context `{TE : TextEnv} `{C : Cipher} `{J : EnvJSON} (fault : BQuery -> bool) (project_fault : bool) (local_host_id : result StoreErr Z).
Context (ProjectVolumeNames : Z -> string -> result string (list string))
        (RunBackupJob : Z -> string -> string -> gmap string string -> gmap string string -> string * Z * option string).
(** The caller, if any, and the job the route names. *)
Context (claims : option (Z * string)) (rawID : string).

Definition route_id : Z := ParseIntValue rawID.
Definition daemon_of (host : Z) : Z := if 0 <? host then host else match local_host_id with Ok id => id | Err _ => 0 end.
Definition backupJobHost (id : Z) (w : BWorld) : Z :=
  match BackupJobByID fault id (wB w) with
  | Err _ => 0
  | Ok job =>
      if String.eqb (bjScope job) BackupScopeProject
      then match ProjectByID (fun _ => project_fault) (bjProjectID job) (wP w) with Err _ => 0 | Ok p => daemon_of (pHostID p) end
      else daemon_of (bjHostID job)
  end.
Definition audit_job (host : Z) (action target detail : string) (w : BWorld) : BWorld := mkBWorld (wB w) (wP w) (bAudit w ++ [mkAudit host action target detail]).
Definition body_job (b : backupJobBody) (enabled : bool) (by_ : string) : BackupJob :=
  mkJob 0 (bbName b) enabled (bbScope b) (bbVolumeName b) (bbProjectID b) (bbHostID b) (bbImage b) (bbCommand b) "" (bbIntervalMinutes b) by_ 0 0 None false "".

Definition handleListBackupJobs (w : BWorld) : BReply := match ListBackupJobs fault (wB w) with Err _ => BErr 500 "could not list backup jobs" | Ok l => BJobs l end.
Definition handleGetBackupJob (w : BWorld) : BReply :=
  match BackupJobByID fault route_id (wB w) with
  | Err ErrNotFound => BErr 404 "backup job not found"
  | Err _ => BErr 500 "could not load backup job"
  | Ok j => BJob j
  end.
Definition handleCreateBackupJob (body : option backupJobBody) (now : Z) (w : BWorld) : BWorld * BReply :=
  match body with
  | None => (w, BErr 400 "invalid body")
  | Some b =>
      if negb (String.eqb (validateBackupJobBody b) "") then (w, BErr 400 (validateBackupJobBody b))
      else match CreateBackupJob fault (body_job b (bbEnabled b) (default "" (snd <$> claims))) (bbEnv b) now (wB w) with
           | (d, Err _) => (set_b d w, BErr 500 "could not create backup job")
           | (d, Ok id) => let w := set_b d w in (audit_job (backupJobHost id w) "backup_job.create" (bbName b) (bbScope b) w, BCreated id)
           end
  end.
Definition handleUpdateBackupJob (body : option backupJobBody) (now : Z) (w : BWorld) : BWorld * BReply :=
  match body with
  | None => (w, BErr 400 "invalid body")
  | Some b =>
      if negb (String.eqb (validateBackupJobBody b) "") then (w, BErr 400 (validateBackupJobBody b))
      else match UpdateBackupJob fault route_id (body_job b false "") (bbEnv b) (bbClearEnv b) now (wB w) with
           | (d, Err _) => (set_b d w, BErr 500 "could not update backup job")
           | (d, Ok _) => let w := set_b d w in (audit_job (backupJobHost route_id w) "backup_job.update" (bbName b) (bbScope b) w, BOk)
           end
  end.
Definition handleSetBackupJobEnabled (body : option bool) (w : BWorld) : BWorld * BReply :=
  match body with
  | None => (w, BErr 400 "invalid body")
  | Some enabled =>
      match SetBackupJobEnabled fault route_id enabled (wB w) with
      | (d, Err _) => (set_b d w, BErr 500 "could not update backup job")
      | (d, Ok _) => let w := set_b d w in (audit_job (backupJobHost route_id w) (if enabled : bool then "backup_job.enable" else "backup_job.disable") rawID "" w, BOk)
      end
  end.
Definition handleDeleteBackupJob (w : BWorld) : BWorld * BReply :=
  let host := backupJobHost route_id w in
  match DeleteBackupJob fault route_id (wB w) with
  | (d, Err _) => (set_b d w, BErr 500 "could not delete backup job")
  | (d, Ok _) => (audit_job host "backup_job.delete" rawID "" (set_b d w), BOk)
  end.
Definition handleRunBackupJob (started finished : Z) (meanwhile : BDB -> BDB) (w : BWorld) : BWorld * BReply :=
  let by_ := match claims with Some (_, name) => if String.eqb name "" then "admin" else name | None => "admin" end in
  match TriggerNow fault project_fault ProjectVolumeNames RunBackupJob (wP w) route_id by_ started finished meanwhile (wB w) with
  | (d, Some e) => (set_b d w, BErr 500 e)
  | (d, None) => let w := set_b d w in (audit_job (backupJobHost route_id w) "backup_job.run" rawID "" w, BOk)
  end.
Definition handleListBackupRuns (w : BWorld) : BReply := match ListBackupRuns fault route_id 0 (wB w) with Err _ => BErr 500 "could not list backup runs" | Ok l => BRuns l end.
End Handlers.

(** ** The history stays bounded *)
(** Of an ascending list, the elements with fewer than [K] greater ones are its last [K]. *)
Lemma newest_last {A} (f : A -> Z) (K : nat) (l : list A) : StronglySorted Z.lt (f <$> l) ->
  List.filter (fun x => (length (List.filter (fun y => (f x <? f y)%Z) l) <? K)%nat) l = drop (length l - K) l.
Proof.
  induction l as [|x l IH]; intros HS; [done|]. inversion HS as [|? ? S1 S2]; subst.
  assert (forall y, y ∈ l -> (f x < f y)%Z) as Hx by (intros y Hy; rewrite Forall_forall in S2; apply S2; by apply list_elem_of_fmap_2).
  assert (List.filter (fun y => (f x <? f y)%Z) (x :: l) = l) as E0.
  { cbn [List.filter]. rewrite Z.ltb_irrefl. rewrite (filter_ext_in _ (fun _ => true)); [apply filter_true|]. intros y Hy%list_elem_of_In. specialize (Hx y Hy). lia. }
  assert (List.filter (fun y => (length (List.filter (fun z => (f y <? f z)%Z) (x :: l)) <? K)%nat) l = drop (length l - K) l) as E1.
  { rewrite <- (IH S1). apply filter_ext_in. intros y Hy%list_elem_of_In. specialize (Hx y Hy). cbn [List.filter]. by assert ((f y <? f x)%Z = false) as -> by lia. }
  cbn [List.filter] in E0 |- *. rewrite Z.ltb_irrefl in E0 |- *. rewrite E0. cbn [List.filter] in E1. rewrite E1. destruct (length l <? K)%nat eqn:E.
  - apply Nat.ltb_lt in E. replace (length (x :: l) - K)%nat with 0%nat by (simpl; lia). by replace (length l - K)%nat with 0%nat by lia.
  - apply Nat.ltb_ge in E. by replace (length (x :: l) - K)%nat with (S (length l - K))%nat by (simpl; lia).
Qed.

Definition runs_of (id : Z) (l : list BackupRun) : list BackupRun := List.filter (fun r => brJobID r =? id) l.
Lemma filter_filter {A} (p q : A -> bool) l : List.filter p (List.filter q l) = List.filter (fun x => q x && p x) l.
Proof. induction l as [|x l IH]; [done|]. simpl. destruct (q x) eqn:E; simpl; by rewrite IH. Qed.
Lemma filter_sublist {A} (p : A -> bool) l : sublist (List.filter p l) l.
Proof. induction l as [|x l IH]; [done|]. simpl. destruct (p x); [by apply sublist_skip|by apply sublist_cons]. Qed.
Lemma fmap_sublist {A B} (f : A -> B) l l' : sublist l' l -> sublist (f <$> l') (f <$> l).
Proof. induction 1; simpl; by constructor. Qed.

(** Pruning a job leaves its newest rows and every other job's. *)
Lemma prune_runs id l : StronglySorted Z.lt (brID <$> l) ->
  runs_of id (prune id l) = drop (length (runs_of id l) - Z.to_nat maxBackupRunsPerJob) (runs_of id l) /\
  forall other, other <> id -> runs_of other (prune id l) = runs_of other l.
Proof.
  intros S. unfold prune, runs_of. split.
  - rewrite <- newest_last with (f := brID) by (eapply sorted_sublist; [apply fmap_sublist, filter_sublist|exact S]).
    rewrite !filter_filter. apply filter_ext_in. intros r _. destruct (brJobID r =? id); [|by rewrite andb_false_r]. simpl. rewrite andb_true_r. rewrite filter_filter.
    set (n := length _). unfold maxBackupRunsPerJob. destruct (Z.of_nat n <? 200) eqn:E, (n <? Z.to_nat 200)%nat eqn:E'; try done.
    + apply Nat.ltb_ge in E'. lia.
    + apply Nat.ltb_lt in E'. lia.
  - intros other Ho. rewrite filter_filter. apply filter_ext. intros r. destruct (brJobID r =? other) eqn:E1; [|by rewrite andb_false_r]. assert (brJobID r =? id = false) as -> by lia. done.
Qed.

(** What the two tables always are. *)
Record bwf (d : BDB) : Prop := {
  bw_job_ids : StronglySorted Z.lt (bjID <$> jobs d); bw_job_seq : Forall (fun j => bjID j <= job_seq d) (jobs d);
  bw_run_ids : StronglySorted Z.lt (brID <$> runs d); bw_run_seq : Forall (fun r => brID r <= run_seq d) (runs d);
  bw_run_jobs : Forall (fun r => brJobID r <= job_seq d) (runs d);
  bw_capped : forall id, (length (runs_of id (runs d)) <= Z.to_nat maxBackupRunsPerJob)%nat;
  bw_output : Forall (fun r => Z.of_nat (String.length (brOutput r)) <= maxBackupRunOutput) (runs d);
  (** a job shows the outcome of the newest run kept of it *)
  bw_status : forall j r, j ∈ jobs d -> last (runs_of (bjID j) (runs d)) = Some r ->
    LastRunAt j = Some (brFinishedAt r) /\ LastRunOK j = brOK r /\ LastRunDetail j = if brOK r then "" else brError r
}.
Inductive backup_op := BoCreate (j : BackupJob) (env : gmap string string) (now : Z) | BoUpdate (id : Z) (j : BackupJob) (env : gmap string string) (clear : bool) (now : Z)
  | BoEnable (id : Z) (enabled : bool) | BoDeleteRuns (id : Z) | BoDeleteJob (id : Z) | BoRecord (run : BackupRun).

Section Reached.
Context `{C : Cipher} `{J : EnvJSON}.
Definition run_bop (fault : BQuery -> bool) (op : backup_op) (d : BDB) : BDB :=
  match op with
  | BoCreate j env now => (CreateBackupJob fault j env now d).1
  | BoUpdate id j env clear now => (UpdateBackupJob fault id j env clear now d).1
  | BoEnable id b => (SetBackupJobEnabled fault id b d).1
  | BoDeleteRuns id => (deleteBackupRuns fault id d).1
  | BoDeleteJob id => (deleteBackupJobRow fault id d).1
  | BoRecord run => (RecordBackupRun fault run d).1
  end.
Inductive bstep (d : BDB) : BDB -> Prop := bstep_op fault op : bstep d (run_bop fault op d).
End Reached.

Lemma filter_comm {A} (p q : A -> bool) l : List.filter p (List.filter q l) = List.filter q (List.filter p l).
Proof. rewrite !filter_filter. apply filter_ext. intros x. apply andb_comm. Qed.
(** A change of job rows that keeps ids and outcomes. *)
Lemma bwf_jobs f d : (forall j, bjID (f j) = bjID j /\ LastRunAt (f j) = LastRunAt j /\ LastRunOK (f j) = LastRunOK j /\ LastRunDetail (f j) = LastRunDetail j) ->
  bwf d -> bwf (set_jobs (f <$> jobs d) d).
Proof.
  intros Hf [W1 W2 W3 W4 W5 W6 W7 W8]. assert (bjID <$> (f <$> jobs d) = bjID <$> jobs d) as E by (rewrite <- list_fmap_compose; apply list_fmap_ext; intros i x _; apply Hf).
  split; simpl; try done; [by rewrite E| |].
  - rewrite Forall_fmap. eapply Forall_impl; [exact W2|]. intros j Hj. simpl. by destruct (Hf j) as [-> _].
  - intros j r (j0 & -> & Hj)%list_elem_of_fmap Hr. destruct (Hf j0) as (E1 & E2 & E3 & E4). rewrite E1 in Hr. rewrite E2, E3, E4. by apply (W8 j0).
Qed.
Lemma on_job_if id f d : on_job id f d = set_jobs ((fun j => if bjID j =? id then f j else j) <$> jobs d) d.
Proof. done. Qed.

Lemma run_ids_fresh d x : bwf d -> StronglySorted Z.lt (brID <$> runs d ++ [mkBRun (run_seq d + 1) (brJobID x) (brStartedAt x) (brFinishedAt x) (brOK x) (brExitCode x) (brOutput x) (brError x) (TriggeredBy x)]).
Proof.
  intros W. rewrite fmap_app. apply sorted_snoc; [apply W|]. rewrite Forall_fmap. eapply Forall_impl; [apply (bw_run_seq d W)|]. intros r Hr. simpl in *. lia.
Qed.
Lemma stake_length n s : (n <= String.length s)%nat -> String.length (stake n s) = n.
Proof. revert s. induction n as [|n IH]; intros s H; [done|]. destruct s as [|c s]; simpl in *; [lia|]. rewrite IH; lia. Qed.
Lemma runs_of_app id l l' : runs_of id (l ++ l') = runs_of id l ++ runs_of id l'.
Proof. apply List.filter_app. Qed.
Lemma existsb_elem {A} (p : A -> bool) l : existsb p l = true -> exists x, x ∈ l /\ p x = true.
Proof. intros (x & Hx & E)%existsb_exists. exists x. split; [by apply list_elem_of_In|done]. Qed.

Lemma cut_length m s : 0 <= m -> Z.of_nat (String.length (if m <? Z.of_nat (String.length s) then stake (Z.to_nat m) s else s)) <= m.
Proof. intros Hm. destruct (m <? _) eqn:E; [rewrite stake_length; lia|lia]. Qed.
(** The row RecordBackupRun writes. *)
Definition recorded (d : BDB) (run : BackupRun) : BackupRun :=
  mkBRun (run_seq d + 1) (brJobID run) (rfc3339 (brStartedAt run)) (rfc3339 (brFinishedAt run)) (brOK run) (brExitCode run)
    (if maxBackupRunOutput <? Z.of_nat (String.length (brOutput run)) then stake (Z.to_nat maxBackupRunOutput) (brOutput run) else brOutput run) (brError run) (TriggeredBy run).
Lemma output_capped d run : Z.of_nat (String.length (brOutput (recorded d run))) <= maxBackupRunOutput.
Proof. apply cut_length. done. Qed.
Lemma recorded_runs d run : bwf d -> let l := prune (brJobID run) (runs d ++ [recorded d run]) in
  (exists k, runs_of (brJobID run) l = drop k (runs_of (brJobID run) (runs d) ++ [recorded d run]) /\ (k <= length (runs_of (brJobID run) (runs d)))%nat) /\
  (length (runs_of (brJobID run) l) <= Z.to_nat maxBackupRunsPerJob)%nat /\
  (forall other, other <> brJobID run -> runs_of other l = runs_of other (runs d)).
Proof.
  intros W. cbv zeta. destruct (prune_runs (brJobID run) (runs d ++ [recorded d run])) as [P1 P2].
  { apply (run_ids_fresh d (recorded d run) W). }
  rewrite P1, runs_of_app. assert (runs_of (brJobID run) [recorded d run] = [recorded d run]) as -> by (unfold runs_of; simpl; by rewrite Z.eqb_refl).
  split; [|split].
  - eexists. split; [done|]. rewrite length_app. unfold maxBackupRunsPerJob. simpl. lia.
  - rewrite length_drop. lia.
  - intros other Ho. rewrite (P2 other Ho), runs_of_app. unfold runs_of at 2. simpl. assert (brJobID run =? other = false) as -> by lia. by rewrite app_nil_r.
Qed.
Lemma last_drop_snoc {A} (l : list A) x k : (k <= length l)%nat -> last (drop k (l ++ [x])) = Some x.
Proof. intros H. rewrite drop_app_le by done. apply last_snoc. Qed.

Lemma bwf_record fault run d : bwf d -> bwf (RecordBackupRun fault run d).1.
Proof.
  intros W. unfold RecordBackupRun. destruct (fault QBrRecord); [done|]. destruct (existsb _ _) eqn:Ex; [|done]. fold (recorded d run). cbn [fst].
  destruct (recorded_runs d run W) as ((k & R1 & R2) & R3 & R4). set (l := prune _ _) in *. apply existsb_elem in Ex as (j0 & Hj0 & Ej0). apply Z.eqb_eq in Ej0.
  assert (sublist l (runs d ++ [recorded d run])) as Hs by apply filter_sublist. pose proof (run_ids_fresh d (recorded d run) W) as Hid. pose proof W as [W1 W2 W3 W4 W5 W6 W7 W8].
  assert (brJobID run <= job_seq d) as Hj by (rewrite <- Ej0; rewrite Forall_forall in W2; by apply W2).
  unfold on_job, set_jobs. simpl. split; simpl.
  - rewrite <- list_fmap_compose. rewrite (list_fmap_ext _ bjID); [done|]. intros i x _. simpl. by destruct (_ =? _).
  - rewrite Forall_fmap. eapply Forall_impl; [exact W2|]. intros j Hj'. simpl. by destruct (_ =? _).
  - by eapply sorted_sublist; [apply fmap_sublist|].
  - eapply Forall_below; [exact Hs|]. apply Forall_app. split; [|by repeat constructor; simpl; lia]. eapply Forall_impl; [exact W4|]. simpl. intros. lia.
  - eapply Forall_below; [exact Hs|]. apply Forall_app. by split; [|repeat constructor].
  - intros id. destruct (decide (id = brJobID run)) as [->|Hn]; [done|]. rewrite R4 by done. apply W6.
  - eapply Forall_below; [exact Hs|]. apply Forall_app. split; [done|]. repeat constructor. apply output_capped.
  - intros j r (j1 & -> & Hj1)%list_elem_of_fmap Hr. destruct (bjID j1 =? brJobID run) eqn:E; cbn [bjID LastRunAt LastRunOK LastRunDetail] in *.
    + apply Z.eqb_eq in E. rewrite E, R1, last_drop_snoc in Hr by done. by injection Hr as <-.
    + rewrite R4 in Hr by lia. by apply W8.
Qed.

Lemma run_bop_wf `{C : Cipher} `{J : EnvJSON} fault op d0 : bwf d0 -> bwf (run_bop fault op d0).
Proof.
  intros W. pose proof W as [W1 W2 W3 W4 W5 W6 W7 W8]. destruct op as [j env now|id j env clear now|id b|id|id|run]; simpl; [| | | | |by apply bwf_record].
  - unfold CreateBackupJob. destruct (encryptEnv now env); [|done]. destruct (fault QBjInsert); [done|]. split; simpl; try done.
    + rewrite fmap_app. apply sorted_snoc; [done|]. rewrite Forall_fmap. eapply Forall_impl; [exact W2|]. simpl. intros. lia.
    + apply Forall_app. split; [|by repeat constructor; simpl; lia]. eapply Forall_impl; [exact W2|]. simpl. intros. lia.
    + eapply Forall_impl; [exact W5|]. simpl. intros. lia.
    + intros x r [Hx|Hx%list_elem_of_singleton]%elem_of_app Hr; [by apply W8|]. subst x. simpl in *. exfalso.
      apply last_Some_elem_of in Hr. unfold runs_of in Hr. apply list_elem_of_In, filter_In in Hr as [Hr E]. apply list_elem_of_In in Hr. rewrite Forall_forall in W5. specialize (W5 r Hr). lia.
  - unfold UpdateBackupJob. destruct (env_column _ _ _ _ _ _); [|done]. destruct (fault QBjUpdate); [done|]. rewrite on_job_if. apply bwf_jobs; [|done]. intros x. by destruct (_ =? _).
  - unfold SetBackupJobEnabled. destruct (fault QBjEnable); [done|]. rewrite on_job_if. apply bwf_jobs; [|done]. intros x. by destruct (_ =? _).
  - unfold deleteBackupRuns. destruct (fault QBrDelJob); [done|]. pose proof (filter_sublist (fun r => negb (brJobID r =? id)) (runs d0)) as Hs. split; simpl; try done.
    + by eapply sorted_sublist; [apply fmap_sublist|].
    + by eapply Forall_below.
    + by eapply Forall_below.
    + intros other. etrans; [|apply (W6 other)]. unfold runs_of. rewrite filter_comm. apply sublist_length, filter_sublist.
    + by eapply Forall_below.
    + intros j r Hj Hr. apply W8; [done|]. rewrite <- Hr. unfold runs_of in *. rewrite filter_filter in Hr |- *. f_equal. apply filter_ext_in. intros x _.
      destruct (brJobID x =? bjID j) eqn:E; [|by rewrite andb_false_r]. destruct (bjID j =? id) eqn:E'; [|by assert (brJobID x =? id = false) as -> by lia]. exfalso.
      apply last_Some_elem_of, list_elem_of_In, filter_In in Hr as [_ Hr]. lia.
  - unfold deleteBackupJobRow. destruct (fault QBjDelete); [done|]. pose proof (filter_sublist (fun j => negb (bjID j =? id)) (jobs d0)) as Hs. split; simpl; try done.
    + by eapply sorted_sublist; [apply fmap_sublist|].
    + by eapply Forall_below.
    + intros j r Hj. apply W8. by eapply sublist_subseteq.
Qed.

(** C15: Whatever is done with backup jobs, and whichever statements fail or come
    between those of another request: ids are never reused, a job keeps no more than two
    hundred runs and a run no more than 256 KiB of output, and the status a job shows is
    the outcome of its newest run. *)
Theorem backup_tables_wf `{C : Cipher} `{J : EnvJSON} d : rtc bstep empty_bdb d -> bwf d.
Proof.
  assert (bwf empty_bdb) as H0 by (split; [apply SSorted_nil|apply Forall_nil_2|apply SSorted_nil|apply Forall_nil_2|apply Forall_nil_2|intros id; apply Nat.le_0_l|apply Forall_nil_2|by intros ? ? ?%not_elem_of_nil]).
  revert H0. generalize empty_bdb as d0. intros d0 H0 H. revert H0. induction H as [|d0 d1 d2 [fault op] _ IH]; [done|]. intros W. by apply IH, run_bop_wf.
Qed.

(** ** When a job is due *)
(** A job is due exactly when it is enabled, has an interval, and has never run or
    its last run ended at least that interval ago, for every interval up to the 292
    years a Duration holds; an answer leaves no environment behind. *)
Theorem due_exactly fault now d l : Forall (fun j => IntervalMinutes j * minute <= int64_max) (jobs d) -> DueBackupJobs fault now d = Ok l ->
  forall x, x ∈ l <-> exists j, j ∈ jobs d /\ x = scanBackupJob j /\ bjEnabled j = true /\ 0 < IntervalMinutes j /\
    forall last, LastRunAt j = Some last -> last + IntervalMinutes j * minute <= now.
Proof.
  unfold DueBackupJobs. intros R. destruct (fault QBjDue); [done|]. intros [= <-] x. rewrite list_elem_of_fmap. rewrite Forall_forall in R.
  assert (forall j, j ∈ jobs d -> 0 < IntervalMinutes j -> due now j = true <-> forall last, LastRunAt j = Some last -> last + IntervalMinutes j * minute <= now) as H.
  { intros j Hj Hp. specialize (R j Hj). unfold due. assert (0 < IntervalMinutes j * minute) as H0 by (unfold minute, second; lia). assert (in_int64 (IntervalMinutes j * minute)) as Hr by (unfold in_int64, int64_min, minute, second in *; lia). rewrite wrap64_id by done.
    destruct (LastRunAt j) as [t|]; [|done]. unfold time_sub, in_int64, int64_min, int64_max in *. split; [intros Hd last [= <-]; lia|intros Hd; specialize (Hd t eq_refl); lia]. }
  split; intros (j & Hx & Hy).
  - apply list_elem_of_In, filter_In in Hy as [[Hj%list_elem_of_In He]%filter_In Hd]. apply andb_true_iff in He as [He Hp%Z.ltb_lt]. exists j. split; [done|]. split; [done|]. split; [done|]. split; [done|]. by apply H.
  - destruct Hy as (-> & He & Hp & Hd). exists j. split; [done|]. apply list_elem_of_In, filter_In. rewrite filter_In, <- list_elem_of_In, He. simpl. split; [split; [done|lia]|by apply H].
Qed.

(** A longer interval, which the form accepts, wraps: such a job is due again at
    the moment its last run ended, so that the scheduler runs it every minute. *)
Theorem long_interval_always_due body j now : bbIntervalMinutes body = 153722868 -> IntervalMinutes j = bbIntervalMinutes body -> LastRunAt j = Some now ->
  validateBackupJobBody body = validateBackupJobBody (mkBody (bbName body) (bbEnabled body) (bbScope body) (bbVolumeName body) (bbProjectID body) (bbHostID body) (bbImage body) (bbCommand body) 60 (bbEnv body) (bbClearEnv body)) /\
  due now j = true.
Proof.
  intros E1 E2 E3. split; [unfold validateBackupJobBody; simpl; by rewrite E1|]. unfold due. rewrite E3, E2, E1. unfold time_sub. rewrite Z.sub_diag. vm_compute. done.
Qed.

(** ** The environment *)
Class CipherText (C : Cipher) : Prop := { encrypt_nonempty n v c : Encrypt n v = Some c -> c <> "" }.

Section Env.
Context `{C : Cipher} `{J : EnvJSON} `{!CipherLaws C} `{!EnvJSONLaws J} `{!CipherText C} (fault : BQuery -> bool) (readable : fault QBjEnvRead = false).

Lemma find_row_app_new {A} (l : list A) (p : A -> bool) x : (forall y, y ∈ l -> p y = false) -> p x = true -> find_row (l ++ [x]) p = Ok x.
Proof.
  intros H Hx. unfold find_row. induction l as [|y l IH]; simpl; [by rewrite Hx|]. rewrite H by by left. apply IH. intros z Hz. apply H. by right.
Qed.
Lemma find_row_fmap {A} (l : list A) (p : A -> bool) (f : A -> A) : (forall y, p (f y) = p y) ->
  find_row (f <$> l) p = match find_row l p with Ok x => Ok (f x) | Err e => Err e end.
Proof. intros H. unfold find_row. induction l as [|y l IH]; simpl; [done|]. rewrite H. by destruct (p y). Qed.

Lemma existsb_find {A} (p : A -> bool) l : existsb p l = match find_row l p with Ok _ => true | Err _ => false end.
Proof. unfold find_row. induction l as [|y l IH]; [done|]. simpl. by destruct (p y). Qed.
Lemma find_row_id l id x : find_row l (fun j => bjID j =? id) = Ok x -> bjID x = id.
Proof. unfold find_row. destruct (List.find _ _) eqn:E; [|done]. intros [= ->]. apply List.find_some in E as [_ ?]. lia. Qed.

(** What the runner reads of an environment's column. *)
Definition env_of_column (enc : string) : result StoreErr (gmap string string) :=
  if String.eqb enc "" then Ok ∅ else match Decrypt enc with None => Err ErrDB | Some plain => Ok (decodeJSON plain) end.
Lemma BackupJobEnv_row id d : BackupJobEnv fault id d = match find_row (jobs d) (fun j => bjID j =? id) with Err e => Err e | Ok j => env_of_column (bjEnvEnc j) end.
Proof. unfold BackupJobEnv. by rewrite readable. Qed.
Lemma encryptEnv_column now env enc : encryptEnv now env = Some enc -> env_of_column enc = Ok env.
Proof.
  unfold encryptEnv, env_of_column. case_bool_decide as He; [by intros [= <-]; subst|]. intros H. pose proof (encrypt_nonempty _ _ _ H) as Hn.
  apply String.eqb_neq in Hn. rewrite Hn, (decrypt_encrypt _ _ _ H). unfold decodeJSON, encodeJSON. destruct (String.eqb_spec (MarshalEnv env) "") as [Em|_]; [|by rewrite unmarshal_marshal].
  by destruct (marshal_nonempty env).
Qed.

(** A job's command gets the environment last given for the job: what was given
    when it was made; after an update the new one, or the old one when none is given,
    or none at all when it is cleared; other jobs keep theirs, and so does this one when
    it is switched, run or pruned. *)
Theorem env_last_given id d : bwf d ->
  (forall j env now d' id', CreateBackupJob fault j env now d = (d', Ok id') ->
     BackupJobEnv fault id' d' = Ok env /\ (id <> id' -> BackupJobEnv fault id d' = BackupJobEnv fault id d)) /\
  (forall target j env clear now d', UpdateBackupJob fault target j env clear now d = (d', Ok tt) ->
     BackupJobEnv fault id d' =
       if (id =? target) && existsb (fun x => bjID x =? id) (jobs d) && (clear || negb (bool_decide (env = ∅)))
       then Ok (if clear : bool then ∅ else env) else BackupJobEnv fault id d) /\
  (forall target b, BackupJobEnv fault id (SetBackupJobEnabled fault target b d).1 = BackupJobEnv fault id d) /\
  (forall run, BackupJobEnv fault id (RecordBackupRun fault run d).1 = BackupJobEnv fault id d).
Proof.
  intros W. split; [|split; [|split]].
  - intros j env now d' id'. unfold CreateBackupJob. destruct (encryptEnv now env) as [enc|] eqn:Ee; [|done]. destruct (fault QBjInsert); [done|]. intros [= <- <-].
    rewrite !BackupJobEnv_row. simpl. assert (forall x, x ∈ jobs d -> bjID x =? job_seq d + 1 = false) as Hf.
    { intros x Hx. pose proof (bw_job_seq d W) as Hs. rewrite Forall_forall in Hs. specialize (Hs x Hx). lia. }
    split; [rewrite find_row_app_new; [by apply encryptEnv_column in Ee|done|apply Z.eqb_refl]|]. intros Hn. unfold find_row. simpl.
    assert (forall l : list BackupJob, List.find (fun j => bjID j =? id) (l ++ [mkJob (job_seq d + 1) (bjName j) (bjEnabled j) (bjScope j) (bjVolumeName j) (bjProjectID j) (bjHostID j) (bjImage j) (bjCommand j) enc (IntervalMinutes j) (bjCreatedBy j) (rfc3339 now) (rfc3339 now) None false ""]) = List.find (fun j => bjID j =? id) l) as ->; [|done].
    intros l. induction l as [|x l IH]; simpl; [by assert (job_seq d + 1 =? id = false) as -> by lia|]. by rewrite IH.
  - intros target j env clear now d'. unfold UpdateBackupJob. destruct (env_column _ _ _ _ _ _) as [enc|] eqn:Ee; [|done]. destruct (fault QBjUpdate); [done|]. intros [= <-].
    rewrite !BackupJobEnv_row. unfold on_job. simpl. rewrite find_row_fmap by (intros y; by destruct (bjID y =? target)). rewrite existsb_find.
    destruct (find_row (jobs d) (fun j0 => bjID j0 =? id)) as [x|e] eqn:Ef; [|by rewrite andb_false_r].
    rewrite (find_row_id _ _ _ Ef), andb_true_r. destruct (id =? target) eqn:E; [|done]. apply Z.eqb_eq in E. subst target. simpl. unfold env_column in Ee.
    destruct clear; simpl; [by injection Ee as <-|]. case_bool_decide as He; simpl; [rewrite readable, Ef in Ee; by injection Ee as <-|].
    destruct (encryptEnv now env) as [enc'|] eqn:En; [|done]. injection Ee as <-. by apply encryptEnv_column in En.
  - intros target b. unfold SetBackupJobEnabled. destruct (fault QBjEnable); [done|]. rewrite !BackupJobEnv_row. unfold on_job. simpl.
    rewrite find_row_fmap by (intros y; by destruct (bjID y =? target)). destruct (find_row _ _) as [x|]; [|done]. by destruct (bjID x =? target).
  - intros run. unfold RecordBackupRun. destruct (fault QBrRecord); [done|]. destruct (existsb _ _); [|done]. rewrite !BackupJobEnv_row. unfold on_job. simpl.
    rewrite find_row_fmap by (intros y; by destruct (bjID y =? brJobID run)). destruct (find_row _ _) as [x|]; [|done]. by destruct (bjID x =? brJobID run).
Qed.
End Env.

(** ** Running a job *)
Lemma mounts_lookup (names : list string) n : foldl (fun (m : gmap string string) n => <[n := "/data/" +:+ n]> m) ∅ names !! n = if bool_decide (n ∈ names) then Some ("/data/" +:+ n) else None.
Proof.
  assert (forall m : gmap string string, foldl (fun m n => <[n := "/data/" +:+ n]> m) m names !! n = if bool_decide (n ∈ names) then Some ("/data/" +:+ n) else m !! n) as H; [|by rewrite H].
  induction names as [|x names IH]; intros m; cbn [foldl]; [by rewrite bool_decide_eq_false_2 by apply not_elem_of_nil|]. rewrite IH.
  destruct (decide (n ∈ names)) as [Hn|Hn]; [by rewrite !bool_decide_eq_true_2 by (try apply elem_of_cons; auto)|]. rewrite (bool_decide_eq_false_2 (n ∈ names)) by done.
  destruct (decide (n = x)) as [->|Hx]; [by rewrite lookup_insert_eq, bool_decide_eq_true_2 by by left|]. rewrite lookup_insert_ne by done.
  rewrite bool_decide_eq_false_2; [done|]. by intros [?|?]%elem_of_cons.
Qed.

Lemma StronglySorted_lt_NoDup l : StronglySorted Z.lt l -> NoDup l.
Proof. induction 1 as [|x l _ IH Hx]; constructor; [|done]. intros Hi. rewrite Forall_forall in Hx. specialize (Hx x Hi). lia. Qed.

Section Running.
Context `{TE : TextEnv} `{C : Cipher} `{J : EnvJSON} (fault : BQuery -> bool) (project_fault : bool).
Context (ProjectVolumeNames : Z -> string -> result string (list string))
        (RunBackupJob : Z -> string -> string -> gmap string string -> gmap string string -> string * Z * option string).
Notation runjob := (RunJob fault project_fault ProjectVolumeNames RunBackupJob).
Notation prep := (prepared fault project_fault ProjectVolumeNames).

(** [d'] is [d] with [run] recorded of its job, and nothing else of other jobs. *)
Record ran (run : BackupRun) (d d' : BDB) : Prop := {
  rn_runs : exists k, runs_of (brJobID run) (runs d') = drop k (runs_of (brJobID run) (runs d)) ++ [recorded d run];
  rn_others : forall other, other <> brJobID run -> runs_of other (runs d') = runs_of other (runs d);
  rn_jobs : jobs d' = (fun j => if bjID j =? brJobID run
    then mkJob (bjID j) (bjName j) (bjEnabled j) (bjScope j) (bjVolumeName j) (bjProjectID j) (bjHostID j) (bjImage j) (bjCommand j) (bjEnvEnc j) (IntervalMinutes j)
           (bjCreatedBy j) (bjCreatedAt j) (bjUpdatedAt j) (Some (rfc3339 (brFinishedAt run))) (brOK run) (if brOK run then "" else brError run) else j) <$> jobs d;
  rn_seq : run_seq d' = run_seq d + 1 /\ job_seq d' = job_seq d
}.
Definition has_job (id : Z) (d : BDB) : bool := existsb (fun j => bjID j =? id) (jobs d).
Lemma RecordBackupRun_ran run d : bwf d -> fault QBrRecord = false ->
  if has_job (brJobID run) d then ran run d (RecordBackupRun fault run d).1 else (RecordBackupRun fault run d).1 = d.
Proof.
  intros W F. unfold RecordBackupRun, has_job. rewrite F. destruct (existsb _ _) eqn:Ex; [|done]. fold (recorded d run). cbn [fst].
  destruct (recorded_runs d run W) as ((k & R1 & R2) & _ & R4). split; unfold on_job, set_jobs; cbn [runs jobs run_seq job_seq]; [exists k; by rewrite R1, drop_app_le|done|done|done].
Qed.

(** What a run that was prepared comes to. *)
Definition run_of (job : BackupJob) (by_ : string) (started finished : Z) (p : result string (Z * gmap string string * gmap string string)) : BackupRun :=
  match p with
  | Err e => mkBRun 0 (bjID job) started finished false 0 "" e by_
  | Ok (host, mounts, env) =>
      let '(output, code, err) := RunBackupJob host (bjImage job) (bjCommand job) env mounts in
      mkBRun 0 (bjID job) started finished (match err with None => code =? 0 | Some _ => false end) code output
        (match err with Some e => e | None => if code =? 0 then "" else "exit code " +:+ FormatInt code end) by_
  end.
Lemma run_of_job job by_ started finished p : brJobID (run_of job by_ started finished p) = bjID job /\ brFinishedAt (run_of job by_ started finished p) = finished /\ TriggeredBy (run_of job by_ started finished p) = by_.
Proof. destruct p as [[[host mounts] env]|e]; [|done]. simpl. by destruct (RunBackupJob _ _ _ _ _) as [[output code] err]. Qed.
Lemma RunJob_record ps job by_ started finished meanwhile d :
  (runjob ps job by_ started finished meanwhile d).1 =
  (RecordBackupRun fault (run_of job by_ started finished (prep ps job d)) (match prep ps job d with Ok _ => meanwhile d | Err _ => d end)).1.
Proof.
  unfold RunJob, recordFailure, run_of. destruct (prepared _ _ _ _ _ _) as [[[host mounts] env]|e]; [|done]. by destruct (RunBackupJob _ _ _ _ _) as [[output code] err].
Qed.

(** Every run of a job that is still there when it ends leaves one row, the newest
    of the job, whoever changed the tables meanwhile: with the helper's output and exit
    code, or, when the mounts or the environment could not be had, with that error and
    without the helper being started; it succeeded exactly when the helper ran and left
    with code 0, and the job shows that. Nothing of other jobs changes, and of a job
    deleted meanwhile nothing is left behind. A project's job mounts the volumes the
    project has now, on the host it is deployed to now, whatever the job's row says. *)
Theorem run_recorded ps job by_ started finished meanwhile d : bwf d -> bwf (meanwhile d) -> fault QBrRecord = false ->
  let p := prep ps job d in let run := run_of job by_ started finished p in
  let base := match p with Ok _ => meanwhile d | Err _ => d end in let d' := (runjob ps job by_ started finished meanwhile d).1 in
  (if has_job (bjID job) base then ran run base d' else d' = base) /\
  (brOK run = true <-> exists host mounts env output, p = Ok (host, mounts, env) /\ RunBackupJob host (bjImage job) (bjCommand job) env mounts = (output, 0, None)) /\
  (forall host mounts env, p = Ok (host, mounts, env) -> BackupJobEnv fault (bjID job) d = Ok env /\
     (bjScope job = BackupScopeVolume -> host = bjHostID job /\ mounts = {[bjVolumeName job := "/data"]}) /\
     (bjScope job = BackupScopeProject -> exists proj names, ProjectByID (fun _ => project_fault) (bjProjectID job) ps = Ok proj /\ host = pHostID proj /\
        ProjectVolumeNames host (pSlug proj) = Ok names /\ names <> [] /\ forall n, mounts !! n = if bool_decide (n ∈ names) then Some ("/data/" +:+ n) else None)).
Proof.
  intros W W' F. cbv zeta. split; [|split].
  - rewrite RunJob_record. destruct (run_of_job job by_ started finished (prep ps job d)) as (Eid & _). rewrite <- Eid. apply RecordBackupRun_ran; [|done]. by destruct (prep ps job d).
  - destruct (prep ps job d) as [[[host mounts] env]|e]; simpl; [|by split; [|intros (? & ? & ? & ? & ? & _)]].
    destruct (RunBackupJob host _ _ env mounts) as [[output code] err] eqn:E; simpl. split.
    + destruct err; [done|]. intros Hc%Z.eqb_eq. subst code. by exists host, mounts, env, output.
    + intros (h & m & v & o & [= -> -> ->] & Hr). rewrite E in Hr. by injection Hr as -> -> ->.
  - intros host mounts env. unfold prepared, resolveTarget. destruct (String.eqb_spec (bjScope job) BackupScopeVolume) as [Es|Es].
    { destruct (String.eqb (bjVolumeName job) ""); [done|]. destruct (BackupJobEnv _ _ _); [|done]. intros [= <- <- <-]. split; [done|]. split; [done|]. intros Hp. by rewrite Hp in Es. }
    destruct (String.eqb_spec (bjScope job) BackupScopeProject) as [Ep|Ep]; [|done]. destruct (ProjectByID _ _ _) as [proj|] eqn:Eq; [|done].
    destruct (ProjectVolumeNames _ _) as [names|] eqn:En; [|done]. destruct names as [|n0 names]; [done|]. destruct (BackupJobEnv _ _ _); [|done]. intros [= <- <- <-]. split; [done|].
    split; [done|]. intros _. exists proj, (n0 :: names). split; [done|]. split; [done|]. split; [done|]. split; [done|]. intros n. exact (mounts_lookup (n0 :: names) n).
Qed.

Lemma RunJob_wf ps job by_ started finished d : bwf d -> bwf (runjob ps job by_ started finished (fun d => d) d).1.
Proof. intros W. rewrite RunJob_record. apply bwf_record. by destruct (prep ps job d). Qed.

(** [id] has one run more. *)
Definition one_more (id : Z) (d d' : BDB) : Prop :=
  exists k r, runs_of id (runs d') = drop k (runs_of id (runs d)) ++ [r] /\ run_seq d < brID r /\ TriggeredBy r = TriggeredBySchedule.
Lemma run_jobs_spec ps js clock d : bwf d -> fault QBrRecord = false -> NoDup (bjID <$> js) -> (forall j, j ∈ js -> has_job (bjID j) d = true) ->
  let d' := run_jobs fault project_fault ProjectVolumeNames RunBackupJob ps js clock d in
  bwf d' /\ run_seq d' = run_seq d + Z.of_nat (length js) /\ bjID <$> jobs d' = bjID <$> jobs d /\
  forall id, (id ∈ bjID <$> js -> one_more id d d') /\ (id ∉ bjID <$> js -> runs_of id (runs d') = runs_of id (runs d)).
Proof.
  cbv zeta. revert clock d. induction js as [|j js IH]; intros clock d W F N H; cbn [run_jobs].
  { split; [done|]. split; [simpl; lia|]. split; [done|]. intros id. split; [by intros ?%not_elem_of_nil|done]. }
  set (d1 := (RunJob _ _ _ _ _ _ _ _ _ _ d).1). inversion N as [|? ? N1 N2]; subst.
  assert (bwf d1) as W1 by by apply RunJob_wf.
  assert (exists run, brJobID run = bjID j /\ TriggeredBy run = TriggeredBySchedule /\ ran run d d1) as (run & E1 & E2 & [(k & R1) R2 R3 [R4 R5]]).
  { exists (run_of j TriggeredBySchedule (clock 0%nat) (clock 1%nat) (prep ps j d)). destruct (run_of_job j TriggeredBySchedule (clock 0%nat) (clock 1%nat) (prep ps j d)) as (Ei & _ & Et).
    split; [done|]. split; [done|]. pose proof (RecordBackupRun_ran (run_of j TriggeredBySchedule (clock 0%nat) (clock 1%nat) (prep ps j d)) d W F) as Hr. rewrite Ei, H in Hr by by left.
    unfold d1. rewrite RunJob_record. by destruct (prep ps j d). }
  assert (bjID <$> jobs d1 = bjID <$> jobs d) as Ej by (rewrite R3, <- list_fmap_compose; apply list_fmap_ext; intros i x _; simpl; by destruct (_ =? _)).
  assert (forall x, has_job x d1 = has_job x d) as Hh.
  { intros x. unfold has_job. apply eq_true_iff_eq. rewrite !existsb_exists. assert (forall l, (exists y, In y l /\ bjID y =? x = true) <-> x ∈ bjID <$> l) as Hi.
    { intros l. rewrite list_elem_of_fmap. split; intros (y & A & B); exists y; [|subst]; split; [lia|by apply list_elem_of_In|by apply list_elem_of_In|apply Z.eqb_refl]. }
    by rewrite !Hi, Ej. }
  destruct (IH (fun n => clock (S (S n))) d1 W1 F N2) as (W2 & S2 & J2 & I2); [intros x Hx; rewrite Hh; apply H; by right|].
  set (d2 := run_jobs _ _ _ _ _ _ _ _) in *. split; [done|]. split; [rewrite S2, R4; simpl; lia|]. split; [by rewrite J2|]. rewrite E1 in *. intros id. destruct (I2 id) as [A B]. split.
  - intros [->|Hi]%elem_of_cons.
    + exists k, (recorded d run). change (bjID j ∉ bjID <$> js) in N1. rewrite (proj2 (I2 (bjID j)) N1), R1. split; [done|]. split; [simpl; lia|done].
    + destruct (A Hi) as (k2 & r & X1 & X2 & X3). exists k2, r. rewrite X1, R2; [split; [done|]; split; [lia|done]|]. intros ->. by apply N1.
  - intros [Hn Hi]%not_elem_of_cons. by rewrite (B Hi), R2.
Qed.

(** C39: A minute's tick that can read the due jobs and record their runs runs each due
    job once, however the others fare, in table order, and leaves every other job's
    history alone; nothing but runs and outcomes changes. *)
Theorem tick_runs_due ps now clock d l : bwf d -> fault QBrRecord = false -> DueBackupJobs fault now d = Ok l ->
  let d' := tick fault project_fault ProjectVolumeNames RunBackupJob ps now clock d in
  bwf d' /\ run_seq d' = run_seq d + Z.of_nat (length l) /\ bjID <$> jobs d' = bjID <$> jobs d /\
  forall id, (id ∈ bjID <$> l -> one_more id d d') /\ (id ∉ bjID <$> l -> runs_of id (runs d') = runs_of id (runs d)).
Proof.
  intros W F E. cbv zeta. unfold tick. rewrite E. assert (bjID <$> l = bjID <$> List.filter (due now) (List.filter (fun j => bjEnabled j && (0 <? IntervalMinutes j)) (jobs d))) as El.
  { unfold DueBackupJobs in E. destruct (fault QBjDue); [done|]. injection E as <-. by rewrite <- list_fmap_compose. }
  assert (sublist (bjID <$> l) (bjID <$> jobs d)) as Hs by (rewrite El; apply fmap_sublist; etrans; apply filter_sublist).
  apply run_jobs_spec; [done|done| |].
  - apply StronglySorted_lt_NoDup. eapply sorted_sublist; [exact Hs|apply W].
  - intros j Hj. apply (list_elem_of_fmap_2 bjID) in Hj. apply (sublist_subseteq _ _ Hs) in Hj as (x & Ex & Hx)%list_elem_of_fmap.
    apply existsb_exists. exists x. split; [by apply list_elem_of_In|lia].
Qed.
End Running.

(** ** Jobs as the form lets them be *)
Definition job_ok (j : BackupJob) : Prop :=
  bjName j <> "" /\ bjImage j <> "" /\ bjCommand j <> "" /\ 0 <= IntervalMinutes j /\
  ((bjScope j = BackupScopeVolume /\ bjVolumeName j <> "") \/ (bjScope j = BackupScopeProject /\ bjProjectID j <> 0)).
Lemma validate_ok b : validateBackupJobBody b = "" ->
  bbName b <> "" /\ bbImage b <> "" /\ bbCommand b <> "" /\ 0 <= bbIntervalMinutes b /\
  ((bbScope b = BackupScopeVolume /\ bbVolumeName b <> "") \/ (bbScope b = BackupScopeProject /\ bbProjectID b <> 0)).
Proof.
  unfold validateBackupJobBody. destruct (String.eqb_spec (bbName b) ""); [done|]. destruct (String.eqb_spec (bbImage b) ""); [done|]. destruct (String.eqb_spec (bbCommand b) ""); [done|]. simpl.
  destruct (String.eqb_spec (bbScope b) BackupScopeVolume); [destruct (String.eqb_spec (bbVolumeName b) ""); [done|]|destruct (String.eqb_spec (bbScope b) BackupScopeProject); [|done]; destruct (bbProjectID b =? 0) eqn:E; [done|]];
    destruct (bbIntervalMinutes b <? 0) eqn:Ei; try done; intros _; (split; [done|]); (split; [done|]); (split; [done|]); (split; [lia|]); [left|right]; (split; [done|]); [done|lia].
Qed.

Section Typed.
Context `{TE : TextEnv} `{C : Cipher} `{J : EnvJSON} (fault : BQuery -> bool) (project_fault : bool) (local_host_id : result StoreErr Z).
Context (ProjectVolumeNames : Z -> string -> result string (list string))
        (RunBackupJob : Z -> string -> string -> gmap string string -> gmap string string -> string * Z * option string).

Inductive backup_request := BqCreate (body : option backupJobBody) (now : Z) | BqUpdate (rawID : string) (body : option backupJobBody) (now : Z)
  | BqEnable (rawID : string) (body : option bool) | BqDelete (rawID : string) | BqRun (rawID : string) (started finished : Z).
Definition serve_backup (claims : option (Z * string)) (q : backup_request) (w : BWorld) : BWorld * BReply :=
  match q with
  | BqCreate body now => handleCreateBackupJob fault project_fault local_host_id claims body now w
  | BqUpdate rawID body now => handleUpdateBackupJob fault project_fault local_host_id rawID body now w
  | BqEnable rawID body => handleSetBackupJobEnabled fault project_fault local_host_id rawID body w
  | BqDelete rawID => handleDeleteBackupJob fault project_fault local_host_id rawID w
  | BqRun rawID started finished => handleRunBackupJob fault project_fault local_host_id ProjectVolumeNames RunBackupJob claims rawID started finished (fun d => d) w
  end.
Lemma Forall_on_job (P : BackupJob -> Prop) id f d : (forall j, P j -> P (f j)) -> Forall P (jobs d) -> Forall P (jobs (on_job id f d)).
Proof. intros H F. unfold on_job. simpl. rewrite Forall_fmap. eapply Forall_impl; [exact F|]. intros j Hj. simpl. destruct (_ =? _); auto. Qed.
Lemma Record_job_ok run d : Forall job_ok (jobs d) -> Forall job_ok (jobs (RecordBackupRun fault run d).1).
Proof. intros F. unfold RecordBackupRun. destruct (fault QBrRecord); [done|]. destruct (existsb _ _); [|done]. by apply (Forall_on_job job_ok (brJobID run)). Qed.

(** C29: The jobs' table is well formed whatever is asked of the handlers: every job has
    a name, an image, a command, no negative interval, and a scope with what that scope
    runs on. So no run of a job fails for want of a target: only a project that cannot
    be read, or has no volumes, stops one. *)
Theorem jobs_well_formed claims q w : Forall job_ok (jobs (wB w)) ->
  Forall job_ok (jobs (wB (serve_backup claims q w).1)) /\
  forall j e, j ∈ jobs (wB w) -> resolveTarget project_fault ProjectVolumeNames (wP w) j = Err e ->
    bjScope j = BackupScopeProject /\ match ProjectByID (fun _ => project_fault) (bjProjectID j) (wP w) with
                                      | Ok p => match ProjectVolumeNames (pHostID p) (pSlug p) with Ok names => names = [] | Err _ => True end
                                      | Err _ => True end.
Proof.
  intros F. split.
  - destruct q as [body now|rawID body now|rawID body|rawID|rawID started finished]; simpl.
    + unfold handleCreateBackupJob. destruct body as [b|]; [|done]. destruct (String.eqb_spec (validateBackupJobBody b) "") as [Ev|]; [|done]. simpl. unfold CreateBackupJob.
      destruct (encryptEnv _ _) as [enc|]; [|done]. destruct (fault QBjInsert); [done|]. simpl. apply Forall_app. split; [done|]. apply Forall_singleton. by apply validate_ok in Ev.
    + unfold handleUpdateBackupJob. destruct body as [b|]; [|done]. destruct (String.eqb_spec (validateBackupJobBody b) "") as [Ev|]; [|done]. simpl. unfold UpdateBackupJob.
      destruct (env_column _ _ _ _ _ _) as [enc|]; [|done]. destruct (fault QBjUpdate); [done|]. cbn [fst wB set_b audit_job]. apply Forall_on_job; [|done]. intros j _. by apply validate_ok in Ev.
    + unfold handleSetBackupJobEnabled. destruct body as [b|]; [|done]. unfold SetBackupJobEnabled. destruct (fault QBjEnable); [done|]. cbn [fst wB set_b audit_job]. by apply Forall_on_job.
    + unfold handleDeleteBackupJob, DeleteBackupJob, deleteBackupRuns, deleteBackupJobRow, mbind, stM_bind. destruct (fault QBrDelJob); [done|]. destruct (fault QBjDelete); [done|]. simpl.
      eapply Forall_below; [apply filter_sublist|exact F].
    + unfold handleRunBackupJob, TriggerNow. destruct (BackupJobByID _ _ _) as [job|]; [|done]. set (by_ := match claims with Some _ => _ | None => _ end).
      pose proof (RunJob_record fault project_fault ProjectVolumeNames RunBackupJob (wP w) job by_ started finished (fun d => d) (wB w)) as Hr.
      destruct (RunJob _ _ _ _ _ _ _ _ _ _ _) as [d' err]. simpl in Hr. assert (Forall job_ok (jobs d')) as Fd; [|by destruct err].
      rewrite Hr. apply Record_job_ok. by destruct (prepared _ _ _ _ _ _).
  - intros j e Hj. rewrite Forall_forall in F. destruct (F j Hj) as (_ & _ & _ & _ & Hs). unfold resolveTarget. destruct Hs as [[-> Hv]|[-> Hp]]; simpl.
    + apply String.eqb_neq in Hv. by rewrite Hv.
    + intros H. split; [done|]. destruct (ProjectByID _ _ _); [|done]. destruct (ProjectVolumeNames _ _) as [names|]; [|done]. by destruct names.
Qed.
End Typed.

(** ** A demonstration *)
(** A text that holds any map, for an encoding/json that can. *)
Fixpoint bits (p : positive) : string := match p with xH => "." | xO p => String "0" (bits p) | xI p => String "1" (bits p) end.
Fixpoint unbits (s : string) : option positive :=
  match s with
  | String c s => if (code c =? 46)%Z then Some xH else p ← unbits s; Some (if (code c =? 48)%Z then xO p else xI p)
  | EmptyString => None
  end.
Lemma unbits_bits p : unbits (bits p) = Some p.
Proof. induction p as [p IH|p IH|]; simpl; [by rewrite IH..|done]. Qed.
Definition demo_json : EnvJSON := {| MarshalEnv m := bits (encode m); UnmarshalEnv s := default ∅ (unbits s ≫= decode) |}.
#[local] Instance demo_json_laws : EnvJSONLaws demo_json.
Proof. split; [intros m; simpl; rewrite unbits_bits; simpl; by rewrite decode_encode|intros m; simpl; by destruct (encode m)]. Defined.
#[local] Instance demo_ciphertext : CipherText demo_cipher.
Proof. split. intros n v c [= <-]. done. Defined.
#[local] Existing Instance demo_cipher_laws.

Definition demo_job : BackupJob := mkJob 0 "nightly" true BackupScopeVolume "data" 0 1 "restic" "restic backup /data" "" 60 "admin" 0 0 None false "".
Definition demo_env : gmap string string := {["RESTIC_PASSWORD" := "x"]}.
Definition calm : BQuery -> bool := fun _ => false.
Definition demo_bdb : BDB := run_bop (C := demo_cipher) (J := demo_json) calm (BoCreate demo_job demo_env second) empty_bdb.
Lemma demo_bdb_wf : bwf demo_bdb.
Proof. apply (run_bop_wf (C := demo_cipher) (J := demo_json)), (backup_tables_wf (C := demo_cipher) (J := demo_json)), rtc_refl. Defined.
Definition demo_docker : Z -> string -> string -> gmap string string -> gmap string string -> string * Z * option string := fun _ _ _ env _ => (default "" (env !! "RESTIC_PASSWORD"), 0, None).
Definition demo_names : Z -> string -> result string (list string) := fun _ _ => Ok [].
Definition stored_job : BackupJob := scanBackupJob (default demo_job (jobs demo_bdb !! 0%nat)).

Lemma backup_tables_wf_witness : bwf (run_bop (C := demo_cipher) (J := demo_json) calm (BoRecord (mkBRun 0 1 0 0 true 0 "" "" "admin")) demo_bdb) /\ length (jobs demo_bdb) = 1%nat.
Proof.
  split; [|vm_compute; reflexivity]. apply (backup_tables_wf (C := demo_cipher) (J := demo_json)).
  eapply rtc_l; [apply (bstep_op (C := demo_cipher) (J := demo_json) empty_bdb calm (BoCreate demo_job demo_env second))|].
  eapply rtc_l; [apply (bstep_op (C := demo_cipher) (J := demo_json) demo_bdb calm (BoRecord (mkBRun 0 1 0 0 true 0 "" "" "admin")))|apply rtc_refl].
Defined.
Lemma due_exactly_witness : stored_job ∈ [stored_job] /\ exists j, j ∈ jobs demo_bdb /\ stored_job = scanBackupJob j /\ bjEnabled j = true.
Proof.
  split; [by left|]. destruct (proj1 (due_exactly calm (3 * second) demo_bdb [stored_job] ltac:(repeat constructor; vm_compute; discriminate) ltac:(vm_compute; reflexivity) stored_job)) as (j & H1 & H2 & H3 & _); [by left|].
  exists j. split; [exact H1|]. split; [exact H2|exact H3].
Defined.
Lemma env_last_given_witness : BackupJobEnv (C := demo_cipher) (J := demo_json) calm 1 demo_bdb = Ok demo_env.
Proof.
  destruct (env_last_given (C := demo_cipher) (J := demo_json) calm eq_refl 1 empty_bdb) as (H & _).
  { apply (backup_tables_wf (C := demo_cipher) (J := demo_json)), rtc_refl. }
  apply (H demo_job demo_env second demo_bdb 1). reflexivity.
Defined.
Notation demo_prep := (prepared (TE := ascii_text) (C := demo_cipher) (J := demo_json) calm false demo_names empty_pdb stored_job demo_bdb).
Notation demo_run := (run_of demo_docker stored_job "admin" second (2 * second) demo_prep).
Lemma run_recorded_witness :
  ran demo_run demo_bdb (RunJob (TE := ascii_text) (C := demo_cipher) (J := demo_json) calm false demo_names demo_docker empty_pdb stored_job "admin" second (2 * second) (fun d => d) demo_bdb).1 /\
  brOK demo_run = true /\ brOutput demo_run = "x".
Proof.
  destruct (run_recorded (TE := ascii_text) (C := demo_cipher) (J := demo_json) calm false demo_names demo_docker empty_pdb stored_job "admin" second (2 * second) (fun d => d) demo_bdb demo_bdb_wf demo_bdb_wf eq_refl) as (H & _).
  assert (has_job (bjID stored_job) demo_bdb = true) as Hj by (vm_compute; reflexivity).
  match type of H with context [has_job _ ?b] => assert (b = demo_bdb) as Eb by (by destruct (prepared _ _ _ _ _ _)) end. rewrite Eb, Hj in H.
  split; [exact H|]. split; vm_compute; reflexivity.
Defined.
Lemma tick_runs_due_witness : one_more 1 demo_bdb (tick (TE := ascii_text) (C := demo_cipher) (J := demo_json) calm false demo_names demo_docker empty_pdb (3 * second) (fun n => 3 * second) demo_bdb).
Proof.
  destruct (tick_runs_due (TE := ascii_text) (C := demo_cipher) (J := demo_json) calm false demo_names demo_docker empty_pdb (3 * second) (fun n => 3 * second) demo_bdb [stored_job] demo_bdb_wf eq_refl ltac:(vm_compute; reflexivity)) as (_ & _ & _ & H).
  apply (H 1). by left.
Defined.
Lemma jobs_well_formed_witness : Forall job_ok (jobs (wB (serve_backup (TE := ascii_text) (C := demo_cipher) (J := demo_json) calm false (Ok 1) demo_names demo_docker None
  (BqUpdate "1" (Some (mkBody "weekly" true BackupScopeVolume "data" 0 1 "restic" "restic check" 10080 ∅ false)) second) (mkBWorld demo_bdb empty_pdb [])).1)).
Proof.
  apply (jobs_well_formed (TE := ascii_text) (C := demo_cipher) (J := demo_json)). apply Forall_singleton. repeat split; try discriminate. left. by split.
Defined.
Lemma long_interval_always_due_witness : exists j now, due now j = true /\ LastRunAt j = Some now.
Proof.
  exists (mkJob 1 "nightly" true BackupScopeVolume "data" 0 1 "restic" "restic backup /data" "" 153722868 "admin" 0 0 (Some second) true ""), second. split; [|reflexivity].
  apply (long_interval_always_due (mkBody "nightly" true BackupScopeVolume "data" 0 1 "restic" "restic backup /data" 153722868 ∅ false)); reflexivity.
Defined.

(** Deleting a job leaves neither its row nor any run of it when nothing comes
    between its two statements; a run recorded between them stays, of no job. *)
Theorem delete_job_race fault id d d' : DeleteBackupJob fault id d = (d', Ok tt) ->
  has_job id d' = false /\ runs_of id (runs d') = [] /\ (forall other, other <> id -> runs_of other (runs d') = runs_of other (runs d)) /\
  (fault QBrRecord = false -> bwf d -> forall run, brJobID run = id -> has_job id d = true ->
     let d1 := (deleteBackupJobRow fault id (RecordBackupRun fault run (deleteBackupRuns fault id d).1).1).1 in has_job id d1 = false /\ runs_of id (runs d1) <> []).
Proof.
  unfold DeleteBackupJob, deleteBackupRuns, deleteBackupJobRow, mbind, stM_bind. destruct (fault QBrDelJob) eqn:F1; [done|]. destruct (fault QBjDelete) eqn:F2; [done|]. intros [= <-].
  assert (forall d, has_job id (set_jobs (List.filter (fun j => negb (bjID j =? id)) (jobs d)) d) = false) as Hj.
  { intros d0. unfold has_job. simpl. apply not_true_iff_false. intros (x & [_ Hx]%filter_In & E)%existsb_exists. by rewrite E in Hx. }
  set (d0 := set_runs _ d). assert (runs_of id (runs d0) = []) as H0.
  { unfold runs_of, d0. simpl. rewrite filter_filter. rewrite (filter_ext _ (fun _ => false)) by (intros x; by destruct (_ =? _)). apply filter_false. }
  split; [exact (Hj d0)|]. split; [exact H0|]. split.
  - intros other Ho. unfold runs_of, d0. simpl. rewrite filter_filter. apply filter_ext. intros x. destruct (brJobID x =? other) eqn:E; [|by rewrite andb_false_r]. by assert (brJobID x =? id = false) as -> by lia.
  - intros F W run Er Hid. cbv zeta. split; [exact (Hj (RecordBackupRun fault run d0).1)|]. simpl. assert (bwf d0) as W0.
    { pose proof (run_bop_wf (C := demo_cipher) (J := demo_json) fault (BoDeleteRuns id) d W) as Hw. simpl in Hw. unfold deleteBackupRuns in Hw. by rewrite F1 in Hw. }
    pose proof (RecordBackupRun_ran fault run d0 W0 F) as Hr. rewrite Er in Hr. change (has_job id d0) with (has_job id d) in Hr. rewrite Hid in Hr. destruct Hr as [(k & R) _ _ _]. rewrite Er in R.
    rewrite R. by destruct (drop k _).
Qed.
Lemma delete_job_race_witness : has_job 1 (DeleteBackupJob calm 1 demo_bdb).1 = false.
Proof. destruct (DeleteBackupJob calm 1 demo_bdb) as [d' r] eqn:E. assert (r = Ok tt) as -> by (by injection E as _ <-). apply (delete_job_race calm 1 demo_bdb d' E). Defined.
