(* ===== verification/Hosts.v ===== *)
(** * Hosts and the connections to them (internal/store/hosts.go, internal/docker/manager.go,
      hostrecorder.go, the trust of ssh.go, internal/api/host_handlers.go)

    The table of Docker hosts, the connections cached per host, which daemon a request
    without a host reaches, whose SSH key is trusted, and the handlers. The Docker SDK,
    TLS and SSH libraries and what the network presents are parameters; the cipher is set
    before the first request. A dial takes time, during which others act: [meanwhile]. *)
From S2P Require Import Prelude GoStrings Config Users Roles Access Calendar Maintenance MaintenanceHandlers Preview ProjectStore Projects.

(** ** Rows *)
Record HostRow := mkHostRow {
  hrID : Z; hrName : string; hrKind : string; hrAddress : string; hrTLSCA : string; hrTLSCert : string; hrTLSKey : string; hrHostKey : string;
  hrAlertEmail : string; hrDisabled : bool; hrCreatedAt : Z
}.
(** Rows in the order of their ids; ids come from AUTOINCREMENT. *)
Record HDB := mkHDB { host_rows : list HostRow; host_seq : Z }.
Inductive HQuery := QHList | QHByID (id : Z) | QHInsert | QHScanKeys | QHRekey (id : Z) | QHEmail | QHDisabled | QHDelete | QHKey | QHCountLocal | QHKind (id : Z) | QHLocal.

Definition with_key (key : string) (h : HostRow) : HostRow :=
  mkHostRow (hrID h) (hrName h) (hrKind h) (hrAddress h) (hrTLSCA h) (hrTLSCert h) key (hrHostKey h) (hrAlertEmail h) (hrDisabled h) (hrCreatedAt h).
Definition with_email (email : string) (h : HostRow) : HostRow :=
  mkHostRow (hrID h) (hrName h) (hrKind h) (hrAddress h) (hrTLSCA h) (hrTLSCert h) (hrTLSKey h) (hrHostKey h) email (hrDisabled h) (hrCreatedAt h).
Definition with_disabled (b : bool) (h : HostRow) : HostRow :=
  mkHostRow (hrID h) (hrName h) (hrKind h) (hrAddress h) (hrTLSCA h) (hrTLSCert h) (hrTLSKey h) (hrHostKey h) (hrAlertEmail h) b (hrCreatedAt h).
Definition with_pin (key : string) (h : HostRow) : HostRow :=
  mkHostRow (hrID h) (hrName h) (hrKind h) (hrAddress h) (hrTLSCA h) (hrTLSCert h) (hrTLSKey h) key (hrAlertEmail h) (hrDisabled h) (hrCreatedAt h).

Section Store.
Context `{C : Cipher} (fault : HQuery -> bool).

(** Best-effort: what is not ciphertext is left alone. *)
Definition decryptHostKey (h : HostRow) : HostRow :=
  if String.eqb (hrTLSKey h) "" then h else match Decrypt (hrTLSKey h) with Some pk => with_key pk h | None => h end.

Definition host_name_le (a b : HostRow) : Prop := String.le (hrName a) (hrName b).
#[global] Instance host_name_le_dec : RelDecision host_name_le.
Proof. intros a b. unfold host_name_le. apply _. Defined.
Definition ListHosts (d : HDB) : result StoreErr (list HostRow) :=
  if fault QHList then Err ErrDB else Ok (decryptHostKey <$> merge_sort host_name_le (host_rows d)).
Definition HostByID (id : Z) (d : HDB) : result StoreErr HostRow :=
  if fault (QHByID id) then Err ErrDB
  else match find_row (host_rows d) (fun h => hrID h =? id) with Ok h => Ok (decryptHostKey h) | Err e => Err e end.

(** Encrypting under a nonce of its own; [None] is the cipher's error. *)
Definition CreateHost (h : HostRow) (nonce now : Z) : stM HDB StoreErr Z := fun d =>
  match (if String.eqb (hrTLSKey h) "" then Some "" else Encrypt nonce (hrTLSKey h)) with
  | None => (d, Err ErrDB)
  | Some key =>
      if fault QHInsert then (d, Err ErrDB)
      else if existsb (fun x => String.eqb (hrName x) (hrName h)) (host_rows d) then (d, Err ErrDB)
      else
        let id := host_seq d + 1 in
        (mkHDB (host_rows d ++ [mkHostRow id (hrName h) (hrKind h) (hrAddress h) (hrTLSCA h) (hrTLSCert h) key "" (hrAlertEmail h) (hrDisabled h) (rfc3339 now)]) id, Ok id)
  end.

Definition hexec (q : HQuery) (f : list HostRow -> list HostRow) : stM HDB StoreErr () := fun d =>
  if fault q then (d, Err ErrDB) else (mkHDB (f (host_rows d)) (host_seq d), Ok tt).
Definition on_host (id : Z) (f : HostRow -> HostRow) : list HostRow -> list HostRow := fmap (fun h => if hrID h =? id then f h else h).
Definition SetHostAlertEmail (id : Z) (email : string) : stM HDB StoreErr () := hexec QHEmail (on_host id (with_email email)).
Definition SetHostDisabled (id : Z) (disabled : bool) : stM HDB StoreErr () := hexec QHDisabled (on_host id (with_disabled disabled)).
Definition DeleteHost (id : Z) : stM HDB StoreErr () := hexec QHDelete (filter (fun h => hrID h <> id)).
Definition SetHostKey (id : Z) (key : string) : stM HDB StoreErr () := hexec QHKey (on_host id (with_pin key)).

(** The rows whose key is not ciphertext, in the order of the scan. *)
Definition plaintext_keys (d : HDB) : list (Z * string) :=
  (fun h => (hrID h, hrTLSKey h)) <$> filter (fun h => hrTLSKey h <> "" /\ Decrypt (hrTLSKey h) = None) (host_rows d).
Definition seal_one (nonce : Z -> Z) (r : Z * string) : stM HDB StoreErr () :=
  match Encrypt (nonce r.1) r.2 with
  | None => st_fail ErrDB
  | Some enc => hexec (QHRekey r.1) (on_host r.1 (with_key enc))
  end.
Definition EncryptPlaintextHostKeys (nonce : Z -> Z) : stM HDB StoreErr () := fun d =>
  if fault QHScanKeys then (d, Err ErrDB) else st_for (seal_one nonce) (plaintext_keys d) d.

Definition is_local (h : HostRow) : bool := String.eqb (hrKind h) "local".
Definition EnsureLocalHost (nonce now : Z) : stM HDB StoreErr () := fun d =>
  if fault QHCountLocal then (d, Err ErrDB)
  else if existsb is_local (host_rows d) then (d, Ok tt)
  else match CreateHost (mkHostRow 0 "local" "local" "" "" "" "" "" "" false 0) nonce now d with
       | (d, Ok _) => (d, Ok tt)
       | (d, Err e) => (d, Err e)
       end.
(** An unknown host, like a failed lookup, leaves the id alone. *)
Definition NormalizeHost (id : Z) (d : HDB) : Z :=
  if id =? 0 then 0
  else if fault (QHKind id) then id
  else match find_row (host_rows d) (fun h => hrID h =? id) with Ok h => if is_local h then 0 else id | Err _ => id end.
Definition LocalHostID (d : HDB) : result StoreErr Z :=
  if fault QHLocal then Err ErrDB else match find_row (host_rows d) is_local with Ok h => Ok (hrID h) | Err e => Err e end.

(** *** Which daemon (manager.go) *)
Definition defaultHostID (d : HDB) : result StoreErr Z :=
  match ListHosts d with
  | Err e => Err e
  | Ok hs => match List.find is_local hs with
             | Some h => Ok (hrID h)
             | None => match hs with h :: _ => Ok (hrID h) | [] => Err ErrNotFound end
             end
  end.
Definition ResolveHostID (hostID : Z) (d : HDB) : result StoreErr Z := if 0 <? hostID then Ok hostID else defaultHostID d.
End Store.

(** ** Connections *)

(** What the network does with a dial: no key exchange, or a key and then what
    authentication says. *)
Inductive Presented := NoContact (err : string) | Presents (key : string) (auth_err : option string).
(** What known_hosts says of a key for an address. *)
Inductive Known := KnownMatch | KnownOther | KnownNot.
Inductive DialErr := HostKeyUnknownError (fingerprint keyType : string) | HostKeyMismatchError (fingerprint : string) | DialOther (msg : string).
(** A connection: the row it was made from and, over SSH, the key the peer presented. *)
Record Conn := mkConn { cnRow : HostRow; cnKey : option string }.

Class Dialer := {
  client_new : HostRow -> option string;                 (* client.New's error *)
  AppendCertsFromPEM : string -> bool; X509KeyPair : string -> string -> option string;
  sshAuthMethods : bool;                                  (* an agent or a key file is there *)
  knownHostsCallback : option (string -> string -> Known);
  MarshalAuthorizedKey : string -> string; ParseAuthorizedKey : string -> option string;
  FingerprintSHA256 : string -> string; KeyType : string -> string
}.
Class DialerLaws (X : Dialer) : Prop := {
  parse_marshal k : ParseAuthorizedKey (TrimSpace (MarshalAuthorizedKey k)) = Some k;
  marshal_nonempty k : TrimSpace (MarshalAuthorizedKey k) <> ""
}.

(** The state of the service these parts share; [hwRec] is the recorder of the request
    being served. *)
Record HWorld := mkHW { hwDB : HDB; hwClients : gmap Z Conn; hwSSH : gset Z; hwAudit : list AuditLine; hwRec : option Z }.
Definition set_hdb (d : HDB) (w : HWorld) : HWorld := mkHW d (hwClients w) (hwSSH w) (hwAudit w) (hwRec w).
Definition set_clients (f : gmap Z Conn -> gmap Z Conn) (w : HWorld) : HWorld := mkHW (hwDB w) (f (hwClients w)) (hwSSH w) (hwAudit w) (hwRec w).
Definition host_audit (l : AuditLine) (w : HWorld) : HWorld := mkHW (hwDB w) (hwClients w) (hwSSH w) (hwAudit w ++ [l]) (hwRec w).
Definition WithHostRecorder (w : HWorld) : HWorld := mkHW (hwDB w) (hwClients w) (hwSSH w) (hwAudit w) None.
(** The first host wins. *)
Definition recordHost (id : Z) (w : HWorld) : HWorld :=
  mkHW (hwDB w) (hwClients w) (hwSSH w) (hwAudit w) (match hwRec w with None => Some id | r => r end).
(** [audit]'s host for a request that reached none. *)
Definition recorded_host (w : HWorld) : Z := default 0 (hwRec w).

(** [s[:strings.LastIndex(s, "@")]] and what follows *)
Definition cut_last_at (s : string) : option (string * string) :=
  match LastIndexByte s "@"%char with None => None | Some i => Some (stake i s, sdrop (S i) s) end.
Definition parseSSHAddress (s : string) : result string (string * string) :=
  let s := TrimPrefix s "ssh://" in
  match cut_last_at s with
  | None => Err "ssh address must be user@host[:port]"
  | Some (user, host) =>
      if String.eqb user "" || String.eqb host "" then Err "ssh address must be user@host[:port]"
      else Ok (user, if negb (Contains host ":") then host +:+ ":22" else host)
  end.

Section Manager.
Context `{C : Cipher} `{TE : TextEnv} `{X : Dialer} (fault : HQuery -> bool).

(** [None]: the key is trusted. *)
Definition verifyHostKey (h : HostRow) (hostname key : string) : option DialErr :=
  if negb (String.eqb (hrHostKey h) "") then
    match ParseAuthorizedKey (hrHostKey h) with
    | Some pinned => if String.eqb pinned key then None else Some (HostKeyMismatchError (FingerprintSHA256 key))
    | None => Some (HostKeyMismatchError (FingerprintSHA256 key))
    end
  else match knownHostsCallback with
       | Some cb =>
           match cb hostname key with
           | KnownMatch => None
           | KnownOther => Some (HostKeyMismatchError (FingerprintSHA256 key))
           | KnownNot => Some (HostKeyUnknownError (FingerprintSHA256 key) (KeyType key))
           end
       | None => Some (HostKeyUnknownError (FingerprintSHA256 key) (KeyType key))
       end.

Definition dialSSH (net : string -> Presented) (h : HostRow) : result DialErr Conn :=
  match parseSSHAddress (hrAddress h) with
  | Err e => Err (DialOther e)
  | Ok (_, addr) =>
      if negb sshAuthMethods then Err (DialOther "ssh: no auth available (start an ssh-agent or add a key under ~/.ssh)")
      else match net addr with
           | NoContact e => Err (DialOther ("ssh dial " +:+ addr +:+ ": " +:+ e))
           | Presents key auth =>
               match verifyHostKey h addr key with
               | Some e => Err e
               | None => match auth with
                         | Some e => Err (DialOther ("ssh dial " +:+ addr +:+ ": " +:+ e))
                         | None => Ok (mkConn h (Some key))
                         end
               end
           end
  end.

Definition tlsHTTPClient (h : HostRow) : option string :=
  if negb (String.eqb (hrTLSCA h) "") && negb (AppendCertsFromPEM (hrTLSCA h)) then Some "invalid TLS CA PEM"
  else if negb (String.eqb (hrTLSCert h) "") && negb (String.eqb (hrTLSKey h) "") then
    match X509KeyPair (hrTLSCert h) (hrTLSKey h) with Some e => Some ("invalid TLS client keypair: " +:+ e) | None => None end
  else None.
Definition new_client (h : HostRow) (key : option string) : result DialErr Conn :=
  match client_new h with Some e => Err (DialOther e) | None => Ok (mkConn h key) end.
Definition buildClient (net : string -> Presented) (h : HostRow) : result DialErr Conn :=
  if String.eqb (hrKind h) "local" || String.eqb (hrKind h) "" then new_client h None
  else if String.eqb (hrKind h) "tcp" then
    if String.eqb (hrAddress h) "" then Err (DialOther "tcp host requires an address")
    else match (if negb (String.eqb (hrTLSCA h) "") || negb (String.eqb (hrTLSCert h) "") then tlsHTTPClient h else None) with
         | Some e => Err (DialOther e)
         | None => new_client h None
         end
  else if String.eqb (hrKind h) "ssh" then
    match dialSSH net h with Err e => Err e | Ok c => new_client h (cnKey c) end
  else Err (DialOther ("unknown host kind " +:+ Quote (hrKind h))).

(** A miss dials outside the lock; whoever published first is kept. *)
Definition publish (id : Z) (c : Conn) (w : HWorld) : HWorld * Conn :=
  match hwClients w !! id with
  | Some existing => (w, existing)
  | None => (set_clients <[id := c]> w, c)
  end.
Definition Client (net : string -> Presented) (meanwhile : HWorld -> HWorld) (hostID : Z) : stM HWorld DialErr Conn := fun w =>
  match (if hostID <=? 0 then defaultHostID fault (hwDB w) else Ok hostID) with
  | Err e => (w, Err (DialOther (db_text e)))
  | Ok hostID =>
      let w := recordHost hostID w in
      match hwClients w !! hostID with
      | Some c => (w, Ok c)
      | None =>
          match HostByID fault hostID (hwDB w) with
          | Err e => (w, Err (DialOther (db_text e)))
          | Ok h =>
              match buildClient net h with
              | Err e => (meanwhile w, Err e)
              | Ok c => let '(w, c) := publish hostID c (meanwhile w) in (w, Ok c)
              end
          end
      end
  end.
Definition Disconnect (id : Z) (w : HWorld) : HWorld :=
  mkHW (hwDB w) (delete id (hwClients w)) (hwSSH w ∖ {[id]}) (hwAudit w) (hwRec w).
Definition Close (w : HWorld) : HWorld := mkHW (hwDB w) ∅ ∅ (hwAudit w) (hwRec w).

(** The key a peer presents, taken before any credential is offered. *)
Definition probeSSHHostKey (net : string -> Presented) (h : HostRow) : result string (string * string) :=
  match parseSSHAddress (hrAddress h) with
  | Err e => Err e
  | Ok (_, addr) =>
      match net addr with
      | NoContact e => Err ("ssh dial " +:+ addr +:+ ": " +:+ e)
      | Presents key _ => Ok (TrimSpace (MarshalAuthorizedKey key), FingerprintSHA256 key)
      end
  end.
Definition ProbeHostKey (net : string -> Presented) (hostID : Z) (d : HDB) : result string (string * string) :=
  match HostByID fault hostID d with
  | Err e => Err (db_text e)
  | Ok h => if negb (String.eqb (hrKind h) "ssh") then Err "host key trust applies to ssh hosts only" else probeSSHHostKey net h
  end.
End Manager.

(** ** Handlers (host_handlers.go) *)
Record hostBody := mkHostBody { hbName : string; hbKind : string; hbAddress : string; hbTLSCA : string; hbTLSCert : string; hbTLSKey : string; hbAlertEmail : string }.
Record hostUpdate := mkHostUpdate { huAlertEmail : option string; huDisabled : option bool }.
Inductive HReply :=
  | HErr (status : Z) (msg : string)
  | HOk
  | HCreated (id : Z)
  | HTested (serverVersion : string) (containersRunning : Z)
  | HUntrusted (fingerprint keyType : string) | HMismatch (fingerprint : string) | HFail (msg : string)
  | HTrusted (fingerprint : string).

Section Handlers.
Context `{GS : GrantStore} `{C : Cipher} `{TE : TextEnv} `{X : Dialer} (fault : HQuery -> bool).
(** SystemInfo on a connection: the version and the number of running containers. *)
Context (system_info : Conn -> result string (string * Z)).
Variables (claims : option (Z * string)) (rawID : string) (net : string -> Presented).

Definition host_db {A} (m : stM HDB StoreErr A) (w : HWorld) : HWorld * result StoreErr A := let '(d, r) := m (hwDB w) in (set_hdb d w, r).

Definition handleCreateHost (b : option hostBody) (nonce now : Z) (w : HWorld) : HWorld * HReply :=
  match b with
  | None => (w, HErr 400 "invalid body")
  | Some b =>
      if String.eqb (hbName b) "" then (w, HErr 400 "name is required")
      else if one_of (hbKind b) ["tcp"; "ssh"] && String.eqb (hbAddress b) "" then (w, HErr 400 "address is required for tcp/ssh hosts")
      else if negb (one_of (hbKind b) ["tcp"; "ssh"; "local"]) then (w, HErr 400 "kind must be local, tcp or ssh")
      else match host_db (CreateHost fault (mkHostRow 0 (hbName b) (hbKind b) (hbAddress b) (hbTLSCA b) (hbTLSCert b) (hbTLSKey b) "" (hbAlertEmail b) false 0) nonce now) w with
           | (w, Err _) => (w, HErr 500 "could not create host")
           | (w, Ok id) => (host_audit (mkAudit id "host.create" (hbName b) (hbKind b +:+ " " +:+ hbAddress b)) w, HCreated id)
           end
  end.

Definition scopedHostID (write : bool) : HReply + Z :=
  match ParseInt rawID with
  | None => inl (HErr 400 "invalid host id")
  | Some id =>
      match requireSectionOnHost claims "hosts" false id with
      | Some _ => inl (HErr 404 "host not found")
      | None =>
          if write then match requireSectionOnHost claims "hosts" true id with Some _ => inl (HErr 403 "read-only") | None => inr id end
          else inr id
      end
  end.
Definition hostIDParam : Z := ParseIntValue rawID.

Definition set_email (id : Z) (email : option string) (w : HWorld) : HWorld * option HReply :=
  match email with
  | None => (w, None)
  | Some e =>
      match host_db (SetHostAlertEmail fault id e) w with
      | (w, Err _) => (w, Some (HErr 500 "could not update host"))
      | (w, Ok _) => (host_audit (mkAudit hostIDParam "host.update" rawID e) w, None)
      end
  end.
Definition set_enabled (id : Z) (disabled : option bool) (w : HWorld) : HWorld * option HReply :=
  match disabled with
  | None => (w, None)
  | Some b =>
      match host_db (SetHostDisabled fault id b) w with
      | (w, Err _) => (w, Some (HErr 500 "could not update host"))
      | (w, Ok _) => (host_audit (mkAudit id (if b then "host.disable" else "host.enable") rawID "") (Disconnect id w), None)
      end
  end.
Definition handleUpdateHost (b : option hostUpdate) (w : HWorld) : HWorld * HReply :=
  match scopedHostID true with
  | inl r => (w, r)
  | inr id =>
      match b with
      | None => (w, HErr 400 "invalid body")
      | Some b =>
          match set_email id (huAlertEmail b) w with
          | (w, Some r) => (w, r)
          | (w, None) => match set_enabled id (huDisabled b) w with (w, Some r) => (w, r) | (w, None) => (w, HOk) end
          end
      end
  end.

Definition handleDeleteHost (w : HWorld) : HWorld * HReply :=
  match scopedHostID true with
  | inl r => (w, r)
  | inr id =>
      match host_db (DeleteHost fault id) w with
      | (w, Err _) => (w, HErr 500 "could not delete host")
      | (w, Ok _) => (host_audit (mkAudit hostIDParam "host.delete" rawID "") (Disconnect id w), HOk)
      end
  end.

Definition handleTestHost (meanwhile : HWorld -> HWorld) (w : HWorld) : HWorld * HReply :=
  match scopedHostID false with
  | inl r => (w, r)
  | inr id =>
      match Client fault net meanwhile id w with
      | (w, Err (HostKeyUnknownError fp ty)) => (w, HUntrusted fp ty)
      | (w, Err (HostKeyMismatchError fp)) => (w, HMismatch fp)
      | (w, Err (DialOther e)) => (w, HFail e)
      | (w, Ok c) => match system_info c with Err e => (w, HFail e) | Ok (v, n) => (w, HTested v n) end
      end
  end.

(** [reviewed] is the body's fingerprint, "" without one. *)
Definition handleTrustHost (reviewed : string) (w : HWorld) : HWorld * HReply :=
  match scopedHostID true with
  | inl r => (w, r)
  | inr id =>
      match ProbeHostKey fault net id (hwDB w) with
      | Err e => (w, HFail e)
      | Ok (keyLine, fp) =>
          if negb (String.eqb reviewed "") && negb (String.eqb reviewed fp) then (w, HMismatch fp)
          else match host_db (SetHostKey fault id keyLine) w with
               | (w, Err _) => (w, HErr 500 "could not store host key")
               | (w, Ok _) => (host_audit (mkAudit hostIDParam "host.trust" rawID fp) (Disconnect id w), HTrusted fp)
               end
      end
  end.
End Handlers.

(** ** The table *)
Record hosts_wf (d : HDB) : Prop := {
  hwf_nonneg : 0 <= host_seq d;
  hwf_ids : NoDup (hrID <$> host_rows d);
  hwf_seq h : h ∈ host_rows d -> 0 < hrID h <= host_seq d;
  hwf_names : NoDup (hrName <$> host_rows d)
}.
Definition no_hosts : HDB := mkHDB [] 0.
Lemma no_hosts_wf : hosts_wf no_hosts.
Proof. split; [done|constructor|by intros h ?%elem_of_nil|constructor]. Qed.

Section Table.
Context `{C : Cipher} (fault : HQuery -> bool).

Lemma on_host_ids id f l : (forall h, hrID (f h) = hrID h) -> hrID <$> on_host id f l = hrID <$> l.
Proof. intros Hf. unfold on_host. rewrite <- list_fmap_compose. apply list_fmap_ext. intros i h _. cbn. destruct (hrID h =? id); [apply Hf|done]. Qed.
Lemma on_host_names id f l : (forall h, hrName (f h) = hrName h) -> hrName <$> on_host id f l = hrName <$> l.
Proof. intros Hf. unfold on_host. rewrite <- list_fmap_compose. apply list_fmap_ext. intros i h _. cbn. destruct (hrID h =? id); [apply Hf|done]. Qed.

Lemma on_host_wf id f d : (forall h, hrID (f h) = hrID h) -> (forall h, hrName (f h) = hrName h) ->
  hosts_wf d -> hosts_wf (mkHDB (on_host id f (host_rows d)) (host_seq d)).
Proof.
  intros Hi Hn [W0 W1 W2 W3]. split; cbn; [done|by rewrite on_host_ids| |by rewrite on_host_names].
  intros h (x & -> & Hx)%list_elem_of_fmap. specialize (W2 _ Hx). by destruct (hrID x =? id); [rewrite Hi|].
Qed.
Lemma hexec_wf q f : (forall d, hosts_wf d -> hosts_wf (mkHDB (f (host_rows d)) (host_seq d))) -> st_holds hosts_wf (hexec fault q f) (fun _ => hosts_wf).
Proof. intros Hf d W. unfold hexec. destruct (fault q); [done|]. by apply Hf. Qed.

Lemma hosts_filter_wf (P : HostRow -> Prop) `{!forall h, Decision (P h)} d : hosts_wf d -> hosts_wf (mkHDB (filter P (host_rows d)) (host_seq d)).
Proof.
  intros [W0 W1 W2 W3]. split; cbn; [done| | |].
  - by apply NoDup_fmap_filter.
  - intros h [_ Hh]%list_elem_of_filter. by apply W2.
  - by apply NoDup_fmap_filter.
Qed.

Lemma create_wf h nonce now : st_holds hosts_wf (CreateHost fault h nonce now) (fun _ => hosts_wf).
Proof.
  intros d W. unfold CreateHost. destruct (if String.eqb _ _ then _ else _) as [key|]; [|done]. destruct (fault QHInsert); [done|].
  destruct (existsb _ _) eqn:Ex; [done|]. destruct W as [W0 W1 W2 W3]. split; cbn; [lia| | |].
  - rewrite fmap_app. apply NoDup_app. split; [done|]. split; [|cbn; apply NoDup_singleton].
    intros i (x & -> & Hx)%list_elem_of_fmap. cbn. rewrite list_elem_of_singleton. specialize (W2 _ Hx). lia.
  - intros x [Hx|Hx]%elem_of_app; [specialize (W2 _ Hx); lia|]. apply list_elem_of_singleton in Hx as ->. cbn. lia.
  - rewrite fmap_app. apply NoDup_app. split; [done|]. split; [|cbn; apply NoDup_singleton].
    intros i (x & -> & Hx)%list_elem_of_fmap. cbn. rewrite list_elem_of_singleton. intros He.
    assert (existsb (fun y => String.eqb (hrName y) (hrName h)) (host_rows d) = true); [|congruence].
    apply existsb_exists. exists x. split; [by apply list_elem_of_In|]. by apply String.eqb_eq.
Qed.
End Table.

(** ** Who changes a host *)
Inductive HCall := HcCreate (b : option hostBody) (nonce now : Z) | HcUpdate (b : option hostUpdate) | HcDelete | HcTest | HcTrust (reviewed : string).
Definition no_one {A} (w : A) : A := w.

Section Calls.
Context `{GS : GrantStore} `{C : Cipher} `{TE : TextEnv} `{X : Dialer} (fault : HQuery -> bool) (system_info : Conn -> result string (string * Z)).
Variables (claims : option (Z * string)) (rawID : string) (net : string -> Presented).

Definition run_host_call (c : HCall) (w : HWorld) : HWorld * HReply :=
  match c with
  | HcCreate b nonce now => handleCreateHost fault b nonce now w
  | HcUpdate b => handleUpdateHost fault claims rawID b w
  | HcDelete => handleDeleteHost fault claims rawID w
  | HcTest => handleTestHost fault system_info claims rawID net no_one w
  | HcTrust fp => handleTrustHost fault claims rawID net fp w
  end.

(** The caller may write to the hosts section on that host, now. *)
Definition may_write_host (id : Z) : Prop :=
  exists uid name u, claims = Some (uid, name) /\ gsUserByID uid = Ok u /\ checkAccess u "hosts" true id = None.

Lemma scoped_ok write id : scopedHostID claims rawID write = inr id ->
  ParseInt rawID = Some id /\ hostIDParam rawID = id /\ (write = true -> may_write_host id).
Proof.
  unfold scopedHostID, hostIDParam. destruct (ParseInt rawID) as [i|] eqn:E; [|done].
  destruct (requireSectionOnHost claims "hosts" false i); [done|]. destruct write.
  - destruct (requireSectionOnHost claims "hosts" true i) eqn:Er; [done|]. intros [= <-]. split; [done|]. split; [by apply ParseIntValue_ok|].
    intros _. unfold requireSectionOnHost, caller in Er. destruct claims as [[uid name]|] eqn:Ec; [|done]. destruct (gsUserByID uid) as [u|] eqn:Eu; [|done].
    exists uid, name, u. split; [done|]. split; [done|exact Er].
  - intros [= <-]. split; [done|]. split; [by apply ParseIntValue_ok|done].
Qed.

(** What one call leaves: the table untouched, or changed at one host, with a line in the
    log under that host. *)
Definition one_host_changed (id : Z) (w w' : HWorld) : Prop :=
  (forall h, hrID h <> id -> h ∈ host_rows (hwDB w') <-> h ∈ host_rows (hwDB w)) /\
  (forall k, k <> id -> hwClients w' !! k = hwClients w !! k) /\
  host_seq (hwDB w) <= host_seq (hwDB w') /\
  exists lines, hwAudit w' = hwAudit w ++ lines /\ Forall (fun l => auHost l = id) lines /\
    (lines = [] -> hwDB w' = hwDB w).
Lemma one_host_refl id w : one_host_changed id w w.
Proof. split; [done|]. split; [done|]. split; [lia|]. exists []. by rewrite app_nil_r. Qed.
Lemma one_host_trans id w1 w2 w3 : one_host_changed id w1 w2 -> one_host_changed id w2 w3 -> one_host_changed id w1 w3.
Proof.
  intros (A1 & A2 & A3 & l1 & A4 & A5 & A6) (B1 & B2 & B3 & l2 & B4 & B5 & B6).
  split; [intros h Hh; by rewrite B1, A1|]. split; [intros k Hk; by rewrite B2, A2|]. split; [lia|].
  exists (l1 ++ l2). split; [by rewrite B4, A4, app_assoc|]. split; [by apply Forall_app|].
  intros [-> ->]%app_eq_nil. by rewrite B6, A6.
Qed.

Lemma on_host_other id f l h : (forall x, hrID (f x) = hrID x) -> hrID h <> id -> h ∈ on_host id f l <-> h ∈ l.
Proof.
  intros Hf Hne. unfold on_host. rewrite list_elem_of_fmap. split.
  - intros (x & -> & Hx). destruct (hrID x =? id) eqn:E; [|done]. bsimp. rewrite Hf in Hne. done.
  - intros Hh. exists h. split; [|done]. by rewrite (proj2 (Z.eqb_neq _ _) Hne).
Qed.
(** One statement on one row, recorded. *)
Lemma one_host_exec {q f} id l w w' : hexec fault q f (hwDB w) = (hwDB w', Ok tt) ->
  (forall h, hrID h <> id -> h ∈ f (host_rows (hwDB w)) <-> h ∈ host_rows (hwDB w)) -> auHost l = id ->
  hwAudit w' = hwAudit w ++ [l] -> (forall k, k <> id -> hwClients w' !! k = hwClients w !! k) -> one_host_changed id w w'.
Proof.
  unfold hexec. destruct (fault q); [done|]. intros [= He] Hf Hl Ha Hc. unfold one_host_changed. rewrite <- He. cbn. split; [done|]. split; [done|]. split; [lia|].
  exists [l]. split; [done|]. split; [by apply Forall_singleton|done].
Qed.
Lemma hexec_err q f d d' e : hexec fault q f d = (d', Err e) -> d' = d.
Proof. unfold hexec. destruct (fault q); [by intros [= <- _]|done]. Qed.

Lemma set_email_changes id e w w' r : hostIDParam rawID = id -> set_email fault rawID id e w = (w', r) -> one_host_changed id w w'.
Proof.
  intros Hid. unfold set_email, host_db, SetHostAlertEmail. destruct e as [e|]; [|intros [= <- _]; apply one_host_refl].
  destruct (hexec _ _ _ _) as [d [[]|er]] eqn:E; intros [= <- _].
  - eapply (one_host_exec id (mkAudit (hostIDParam rawID) "host.update" rawID e)); [exact E|intros h Hh; by apply on_host_other|exact Hid|done|done].
  - apply hexec_err in E as ->. destruct w. apply one_host_refl.
Qed.
Lemma disconnect_other id k w : k <> id -> hwClients (Disconnect id w) !! k = hwClients w !! k.
Proof. intros Hk. cbn. by apply lookup_delete_ne. Qed.
Lemma set_enabled_changes id e w w' r : set_enabled fault rawID id e w = (w', r) -> one_host_changed id w w'.
Proof.
  unfold set_enabled, host_db, SetHostDisabled. destruct e as [e|]; [|intros [= <- _]; apply one_host_refl].
  destruct (hexec _ _ _ _) as [d [[]|er]] eqn:E; intros [= <- _].
  - eapply (one_host_exec id (mkAudit id (if e then "host.disable" else "host.enable") rawID "")); [exact E|intros h Hh; by apply on_host_other|done|done|]. intros k Hk. cbn. by apply lookup_delete_ne.
  - apply hexec_err in E as ->. destruct w. apply one_host_refl.
Qed.

Lemma update_changes b w w' r : handleUpdateHost fault claims rawID b w = (w', r) ->
  w' = w \/ exists id, ParseInt rawID = Some id /\ may_write_host id /\ one_host_changed id w w'.
Proof.
  unfold handleUpdateHost. destruct (scopedHostID claims rawID true) as [?|id] eqn:Es; [intros [= <- _]; by left|].
  apply scoped_ok in Es as (Hp & Hid & Hw). destruct b as [b|]; [|intros [= <- _]; by left].
  destruct (set_email fault rawID id (huAlertEmail b) w) as [w1 r1] eqn:E1. apply set_email_changes in E1; [|done].
  destruct r1 as [r1|]; [intros [= <- _]; right; exists id; auto|].
  destruct (set_enabled fault rawID id (huDisabled b) w1) as [w2 r2] eqn:E2. apply set_enabled_changes in E2.
  intros H. right. exists id. split; [done|]. split; [auto|]. assert (w' = w2) as -> by (destruct r2; congruence). by eapply one_host_trans.
Qed.
Lemma delete_changes w w' r : handleDeleteHost fault claims rawID w = (w', r) ->
  w' = w \/ exists id, ParseInt rawID = Some id /\ may_write_host id /\ one_host_changed id w w'.
Proof.
  unfold handleDeleteHost. destruct (scopedHostID claims rawID true) as [?|id] eqn:Es; [intros [= <- _]; by left|].
  apply scoped_ok in Es as (Hp & Hid & Hw). unfold host_db, DeleteHost. destruct (hexec _ _ _ _) as [d [[]|e]] eqn:E; intros [= <- _].
  - right. exists id. split; [done|]. split; [auto|]. eapply (one_host_exec id (mkAudit (hostIDParam rawID) "host.delete" rawID "")); [exact E| |exact Hid|done|].
    + intros h Hh. rewrite list_elem_of_filter. tauto.
    + intros k Hk. cbn. by apply lookup_delete_ne.
  - left. apply hexec_err in E as ->. by destruct w.
Qed.
Lemma trust_changes fp w w' r : handleTrustHost fault claims rawID net fp w = (w', r) ->
  w' = w \/ exists id, ParseInt rawID = Some id /\ may_write_host id /\ one_host_changed id w w'.
Proof.
  unfold handleTrustHost. destruct (scopedHostID claims rawID true) as [?|id] eqn:Es; [intros [= <- _]; by left|].
  apply scoped_ok in Es as (Hp & Hid & Hw). destruct (ProbeHostKey fault net id (hwDB w)) as [[line f]|e]; [|intros [= <- _]; by left].
  destruct (_ && _); [intros [= <- _]; by left|]. unfold host_db, SetHostKey. destruct (hexec _ _ _ _) as [d [[]|e]] eqn:E; intros [= <- _].
  - right. exists id. split; [done|]. split; [auto|]. eapply (one_host_exec id (mkAudit (hostIDParam rawID) "host.trust" rawID f)); [exact E| |exact Hid|done|].
    + intros h Hh. by apply on_host_other.
    + intros k Hk. cbn. by apply lookup_delete_ne.
  - left. apply hexec_err in E as ->. by destruct w.
Qed.
Lemma create_changes b nonce now w w' r : hosts_wf (hwDB w) -> handleCreateHost fault b nonce now w = (w', r) ->
  w' = w \/ (one_host_changed (host_seq (hwDB w) + 1) w w' /\ hwClients w' = hwClients w).
Proof.
  intros W. unfold handleCreateHost. destruct b as [b|]; [|intros [= <- _]; by left]. destruct (String.eqb _ _); [intros [= <- _]; by left|].
  destruct (_ && _); [intros [= <- _]; by left|]. destruct (negb _); [intros [= <- _]; by left|].
  unfold host_db, CreateHost. destruct (if String.eqb _ _ then _ else _) as [key|]; [|intros [= <- _]; destruct w; by left].
  destruct (fault QHInsert); [intros [= <- _]; destruct w; by left|]. destruct (existsb _ _); [intros [= <- _]; destruct w; by left|].
  intros [= <- _]. right. split; [|done]. split; [|split; [done|split; [cbn; lia|]]].
  - intros h Hh. cbn. rewrite elem_of_app, list_elem_of_singleton. split; [|tauto]. intros [?| ->]; [done|]. by cbn in Hh.
  - eexists [_]. split; [done|]. split; [by apply Forall_singleton|done].
Qed.
End Calls.

Section Scoped.
Context `{GS : GrantStore} `{C : Cipher} `{TE : TextEnv} `{X : Dialer} (fault : HQuery -> bool) (system_info : Conn -> result string (string * Z)).
Variables (claims : option (Z * string)) (rawID : string) (net : string -> Presented).

(** A connection is found or added; nothing else is touched. *)
Lemma client_adds id w w' r : Client fault net no_one id w = (w', r) ->
  hwDB w' = hwDB w /\ hwAudit w' = hwAudit w /\ (forall k c, hwClients w !! k = Some c -> hwClients w' !! k = Some c).
Proof.
  unfold Client. destruct (if id <=? 0 then defaultHostID fault (hwDB w) else Ok id) as [i|e]; [|by intros [= <- _]]. cbn [hwClients recordHost].
  destruct (hwClients w !! i) as [c|] eqn:Ec; [by intros [= <- _]|]. cbn [hwDB recordHost].
  destruct (HostByID fault i (hwDB w)) as [h|e]; [|by intros [= <- _]]. destruct (buildClient net h) as [c|e]; [|by intros [= <- _]].
  unfold publish, no_one. cbn [hwClients recordHost]. rewrite Ec. intros [= <- _]. split; [done|]. split; [done|]. intros k c0 Hk. cbn.
  destruct (decide (k = i)) as [->|Hne]; [congruence|by rewrite lookup_insert_ne].
Qed.

(** a host is changed only by someone who may write to it.  Whatever is asked of the
    host routes, either the table, the log and every cached connection stay, or exactly
    one host is touched -- its row, its connection, and log lines recorded under it --
    and that host is a new one, or the one the path names, which the caller's account may
    write to in the hosts section at this moment. *)
Theorem host_changes_scoped c w w' r : hosts_wf (hwDB w) -> run_host_call fault system_info claims rawID net c w = (w', r) ->
  (hwDB w' = hwDB w /\ hwAudit w' = hwAudit w /\ forall k x, hwClients w !! k = Some x -> hwClients w' !! k = Some x) \/
  exists id, one_host_changed id w w' /\
    ((exists b nonce now, c = HcCreate b nonce now /\ id = host_seq (hwDB w) + 1) \/ (ParseInt rawID = Some id /\ may_write_host claims id)).
Proof.
  intros W. destruct c as [b nonce now|b| | |fp]; cbn [run_host_call]; intros H; [..].
  - apply (create_changes fault rawID net) in H as [->|[H _]]; [by left| |done]. right. eexists. split; [exact H|]. left. by exists b, nonce, now.
  - apply update_changes in H as [->|(id & Hp & Hm & H)]; [by left|]. right. exists id. auto.
  - apply (delete_changes fault claims rawID net) in H as [->|(id & Hp & Hm & H)]; [by left|]. right. exists id. auto.
  - left. unfold handleTestHost in H. destruct (scopedHostID claims rawID false) as [?|id]; [by injection H as <- _|].
    destruct (Client fault net no_one id w) as [w1 r1] eqn:E. apply client_adds in E.
    assert (w' = w1) as -> by (destruct r1 as [x|[]]; [destruct (system_info x) as [[]|]|..]; congruence). exact E.
  - apply trust_changes in H as [->|(id & Hp & Hm & H)]; [by left|]. right. exists id. auto.
Qed.
End Scoped.

(** ** Whose key is trusted *)
Section Trust.
Context `{C : Cipher} `{TE : TextEnv} `{X : Dialer}.

(** Over SSH the peer's key is the one pinned in the row or, where none is, the one known_hosts has. *)
Definition conn_trusted (c : Conn) : Prop := hrKind (cnRow c) = "ssh" -> exists key user addr,
  cnKey c = Some key /\ parseSSHAddress (hrAddress (cnRow c)) = Ok (user, addr) /\
  (ParseAuthorizedKey (hrHostKey (cnRow c)) = Some key \/
   (hrHostKey (cnRow c) = "" /\ exists cb, knownHostsCallback = Some cb /\ cb addr key = KnownMatch)).

Lemma verify_trusted h addr key : verifyHostKey h addr key = None ->
  ParseAuthorizedKey (hrHostKey h) = Some key \/ (hrHostKey h = "" /\ exists cb, knownHostsCallback = Some cb /\ cb addr key = KnownMatch).
Proof.
  unfold verifyHostKey. destruct (String.eqb (hrHostKey h) "") eqn:E; cbn [negb].
  - apply String.eqb_eq in E. destruct knownHostsCallback as [cb|] eqn:Ec; [|done]. destruct (cb addr key) eqn:Ek; try done.
    intros _. right. split; [done|]. by exists cb.
  - destruct (ParseAuthorizedKey (hrHostKey h)) as [p|]; [|done]. destruct (String.eqb p key) eqn:Ep; [|done]. apply String.eqb_eq in Ep as ->. by left.
Qed.

Lemma build_trusted net h c : buildClient net h = Ok c -> cnRow c = h /\ conn_trusted c.
Proof.
  assert (Hn : forall k c, new_client h k = Ok c -> c = mkConn h k).
  { intros k x. unfold new_client. destruct (client_new h); [done|]. by intros [= <-]. }
  unfold buildClient. destruct (_ || _) eqn:E0.
  { intros ->%Hn. split; [done|]. intros Hk. cbn in Hk. rewrite Hk in E0. done. }
  destruct (String.eqb (hrKind h) "tcp") eqn:E1.
  { apply String.eqb_eq in E1. destruct (String.eqb (hrAddress h) ""); [done|]. destruct (if negb (String.eqb (hrTLSCA h) "") || _ then tlsHTTPClient h else None); [done|].
    intros ->%Hn. split; [done|]. intros Hk. cbn in Hk. congruence. }
  destruct (String.eqb (hrKind h) "ssh") eqn:E2; [|done]. unfold dialSSH.
  destruct (parseSSHAddress (hrAddress h)) as [[user addr]|] eqn:Ea; [|done]. destruct (negb sshAuthMethods); [done|].
  destruct (net addr) as [|key auth]; [done|]. destruct (verifyHostKey h addr key) eqn:Ev; [done|]. destruct auth; [done|]. cbn [cnKey].
  intros ->%Hn. split; [done|]. intros _. exists key, user, addr. split; [done|]. split; [exact Ea|]. by apply verify_trusted.
Qed.
End Trust.

(** ** What a connection reaches *)

(** The parts of a row a connection is made from. *)
Definition endpoint (h : HostRow) : string * string * string * string * string * string :=
  (hrKind h, hrAddress h, hrTLSCA h, hrTLSCert h, hrTLSKey h, hrHostKey h).
(** Every cached connection is to the endpoint its row has now, and trusted. *)
Definition connections_ok `{C : Cipher} `{X : Dialer} (w : HWorld) : Prop := forall id c, hwClients w !! id = Some c ->
  conn_trusted c /\ exists h, h ∈ host_rows (hwDB w) /\ hrID h = id /\ endpoint (decryptHostKey h) = endpoint (cnRow c).

(** What one request after another does to them; each with its own store answers, caller
    and network. *)
Inductive host_step `{C : Cipher} `{TE : TextEnv} `{X : Dialer} : HWorld -> HWorld -> Prop :=
  | step_call (GS : GrantStore) fault info claims rawID net c w w' r :
      run_host_call (GS := GS) fault info claims rawID net c w = (w', r) -> host_step w w'
  | step_client fault net id w w' r : Client fault net no_one id w = (w', r) -> host_step w w'
  | step_recorder w : host_step w (WithHostRecorder w)
  | step_close w : host_step w (Close w).

Section Current.
Context `{C : Cipher} `{TE : TextEnv} `{X : Dialer}.

Lemma find_row_in {A} (l : list A) (p : A -> bool) x : find_row l p = Ok x -> x ∈ l /\ p x = true.
Proof. unfold find_row. destruct (List.find p l) eqn:E; [|done]. intros [= ->]. apply List.find_some in E as [H1 H2]. split; [by apply list_elem_of_In|done]. Qed.
Lemma HostByID_in fault id d h : HostByID fault id d = Ok h -> exists r, r ∈ host_rows d /\ hrID r = id /\ h = decryptHostKey r.
Proof.
  unfold HostByID. destruct (fault _); [done|]. destruct (find_row _ _) as [r|] eqn:E; [|done]. intros [= <-].
  apply find_row_in in E as [H1 H2]. bsimp. by exists r.
Qed.

Lemma client_ok fault net id w w' r : connections_ok w -> Client fault net no_one id w = (w', r) ->
  connections_ok w' /\ forall c, r = Ok c -> exists i, hwClients w' !! i = Some c /\ (0 < id -> i = id).
Proof.
  intros Hok. unfold Client. destruct (if id <=? 0 then defaultHostID fault (hwDB w) else Ok id) as [i|e] eqn:Ei; [|by intros [= <- <-]].
  assert (Hi : 0 < id -> i = id). { intros Hp. rewrite (proj2 (Z.leb_gt id 0) Hp) in Ei. by injection Ei. } clear Ei.
  cbn [hwClients recordHost]. destruct (hwClients w !! i) as [c|] eqn:Ec.
  { intros [= <- <-]. split; [exact Hok|]. intros c0 [= <-]. by exists i. }
  cbn [hwDB recordHost]. destruct (HostByID fault i (hwDB w)) as [h|e] eqn:Eh; [|by intros [= <- <-]].
  destruct (buildClient net h) as [c|e] eqn:Eb; [|by intros [= <- <-]].
  unfold publish, no_one. cbn [hwClients recordHost]. rewrite Ec. intros [= <- <-]. split.
  - intros k c0. cbn. destruct (decide (k = i)) as [->|Hne].
    + rewrite lookup_insert_eq. intros [= <-]. apply build_trusted in Eb as [Hrow Ht]. split; [done|].
      apply HostByID_in in Eh as (x & Hx & Hid & ->). exists x. by rewrite Hrow.
    + rewrite lookup_insert_ne by done. apply Hok.
  - intros c0 [= <-]. exists i. cbn. by rewrite lookup_insert_eq.
Qed.

(** A row may change where no connection is left, and elsewhere in what no connection is made from. *)
Lemma exec_ok fault q f w d id clients audit rec ssh : connections_ok w -> hexec fault q f (hwDB w) = (d, Ok tt) ->
  (forall h, h ∈ host_rows (hwDB w) -> hrID h <> id -> h ∈ f (host_rows (hwDB w))) ->
  (forall k, k <> id -> clients !! k = hwClients w !! k) -> clients !! id = None -> connections_ok (mkHW d clients ssh audit rec).
Proof.
  intros Hok H Hf Hc Hn k c. cbn. destruct (decide (k = id)) as [->|Hne]; [congruence|]. rewrite Hc by done.
  intros (Ht & h & Hh & Hid & He)%Hok. split; [done|]. exists h. split; [|done]. unfold hexec in H. destruct (fault q); [done|]. injection H as <-.
  apply Hf; [done|congruence].
Qed.
Lemma email_ok fault id e w d : connections_ok w -> SetHostAlertEmail fault id e (hwDB w) = (d, Ok tt) -> connections_ok (set_hdb d w).
Proof.
  intros Hok H k c. cbn. intros (Ht & h & Hh & Hid & He)%Hok. split; [done|]. unfold SetHostAlertEmail, hexec in H. destruct (fault _); [done|].
  injection H as <-. cbn. unfold on_host. destruct (decide (hrID h = id)) as [Heq|Hne].
  - exists (with_email e h). split; [apply list_elem_of_fmap; exists h; by rewrite (proj2 (Z.eqb_eq _ _) Heq)|]. split; [done|].
    rewrite <- He. unfold decryptHostKey. cbn. destruct (String.eqb (hrTLSKey h) ""); [done|]. by destruct (Decrypt (hrTLSKey h)).
  - exists h. split; [apply list_elem_of_fmap; exists h; by rewrite (proj2 (Z.eqb_neq _ _) Hne)|done].
Qed.
Lemma on_host_keeps id f l h : h ∈ l -> hrID h <> id -> h ∈ on_host id f l.
Proof. intros Hh Hne. unfold on_host. apply list_elem_of_fmap. exists h. by rewrite (proj2 (Z.eqb_neq _ _) Hne). Qed.

Lemma grow_ok w w' : connections_ok w -> hwClients w' = hwClients w -> (forall h, h ∈ host_rows (hwDB w) -> h ∈ host_rows (hwDB w')) -> connections_ok w'.
Proof. intros Hok Hc Hr k c. rewrite Hc. intros (Ht & h & Hh & Hid & He)%Hok. split; [done|]. exists h. auto. Qed.

Lemma set_email_ok fault rawID id e w w' r : connections_ok w -> set_email fault rawID id e w = (w', r) -> connections_ok w'.
Proof.
  intros Hok. unfold set_email, host_db. destruct e as [e|]; [|by intros [= <- _]].
  destruct (SetHostAlertEmail fault id e (hwDB w)) as [d [[]|er]] eqn:E; intros [= <- _].
  - exact (email_ok fault id e w d Hok E).
  - apply hexec_err in E as ->. by destruct w.
Qed.
Lemma set_enabled_ok fault rawID id e w w' r : connections_ok w -> set_enabled fault rawID id e w = (w', r) -> connections_ok w'.
Proof.
  intros Hok. unfold set_enabled, host_db. destruct e as [e|]; [|by intros [= <- _]].
  destruct (SetHostDisabled fault id e (hwDB w)) as [d [[]|er]] eqn:E; intros [= <- _].
  - eapply (exec_ok fault _ _ w d id); [exact Hok|exact E|intros h Hh Hne; by apply on_host_keeps| |].
    + intros k Hk. cbn. by apply lookup_delete_ne.
    + apply lookup_delete_eq.
  - apply hexec_err in E as ->. by destruct w.
Qed.
Lemma create_ok fault b nonce now w w' r : connections_ok w -> handleCreateHost fault b nonce now w = (w', r) -> connections_ok w'.
Proof.
  intros Hok. unfold handleCreateHost. destruct b as [b|]; [|by intros [= <- _]]. destruct (String.eqb _ _); [by intros [= <- _]|].
  destruct (_ && _); [by intros [= <- _]|]. destruct (negb _); [by intros [= <- _]|]. unfold host_db, CreateHost.
  destruct (if String.eqb (hrTLSKey _) "" then Some "" else _) as [key|]; [|by intros [= <- _]; destruct w].
  destruct (fault QHInsert); [by intros [= <- _]; destruct w|]. destruct (existsb _ _); [by intros [= <- _]; destruct w|].
  intros [= <- _]. eapply grow_ok; [exact Hok|done|]. intros h Hh. cbn. apply elem_of_app. by left.
Qed.

Lemma step_connections w w' : host_step w w' -> connections_ok w -> connections_ok w'.
Proof.
  intros [GS fault info claims rawID net c w0 w1 r H|fault net id w0 w1 r H|w0|w0] Hok; [|by eapply client_ok|exact Hok|by intros id c].
  destruct c as [b nonce now|b| | |fp]; cbn [run_host_call] in H.
  - by eapply create_ok.
  - unfold handleUpdateHost in H. destruct (scopedHostID claims rawID true) as [?|id]; [by injection H as <- _|].
    destruct b as [b|]; [|by injection H as <- _].
    destruct (set_email fault rawID id (huAlertEmail b) w0) as [w2 r2] eqn:E1. apply set_email_ok in E1; [|done].
    destruct r2; [by injection H as <- _|]. destruct (set_enabled fault rawID id (huDisabled b) w2) as [w3 r3] eqn:E2. apply set_enabled_ok in E2; [|done].
    by destruct r3; injection H as <- _.
  - unfold handleDeleteHost, host_db in H. destruct (scopedHostID claims rawID true) as [?|id]; [by injection H as <- _|].
    destruct (DeleteHost fault id (hwDB w0)) as [d [[]|e]] eqn:E; injection H as <- _.
    + eapply (exec_ok fault _ _ w0 d id); [exact Hok|exact E|intros h Hh Hne; by apply list_elem_of_filter| |apply lookup_delete_eq].
      intros k Hk. cbn. by apply lookup_delete_ne.
    + apply hexec_err in E as ->. by destruct w0.
  - unfold handleTestHost in H. destruct (scopedHostID claims rawID false) as [?|id]; [by injection H as <- _|].
    destruct (Client fault net no_one id w0) as [w2 r2] eqn:E. apply client_ok in E as [E _]; [|done].
    assert (w1 = w2) as -> by (destruct r2 as [x|[]]; [destruct (info x) as [[]|]|..]; congruence). exact E.
  - unfold handleTrustHost, host_db in H. destruct (scopedHostID claims rawID true) as [?|id]; [by injection H as <- _|].
    destruct (ProbeHostKey fault net id (hwDB w0)) as [[line f]|e]; [|by injection H as <- _]. destruct (_ && _); [by injection H as <- _|].
    destruct (SetHostKey fault id line (hwDB w0)) as [d [[]|e]] eqn:E; injection H as <- _.
    + eapply (exec_ok fault _ _ w0 d id); [exact Hok|exact E|intros h Hh Hne; by apply on_host_keeps| |apply lookup_delete_eq].
      intros k Hk. cbn. by apply lookup_delete_ne.
    + apply hexec_err in E as ->. by destruct w0.
Qed.

(** no connection outlives what it was made from.  After any sequence of requests one
    at a time -- hosts created, edited, disabled, deleted, their keys trusted, daemons
    talked to -- every cached connection is to the address, the certificates and the
    pinned key that its host's row has now, and every SSH one to a peer whose key is that
    pinned key or, where none is pinned, the one in known_hosts. *)
Theorem connections_current d w : rtc host_step (mkHW d ∅ ∅ [] None) w -> connections_ok w.
Proof.
  assert (H0 : connections_ok (mkHW d ∅ ∅ [] None)) by (intros id c; done). revert H0.
  intros H0 H. revert H0. induction H as [w0|w0 w1 w2 Hs _ IH]; [done|]. intros H0. apply IH. by eapply step_connections.
Qed.
End Current.

(** ** Trusting a key *)
Section Trusting.
Context `{GS : GrantStore} `{C : Cipher} `{TE : TextEnv} `{X : Dialer} `{!DialerLaws X} (fault : HQuery -> bool).

Lemma find_on_host id f l h : (forall x, hrID (f x) = hrID x) -> find_row l (fun x => hrID x =? id) = Ok h ->
  find_row (on_host id f l) (fun x => hrID x =? id) = Ok (f h).
Proof.
  intros Hf. unfold find_row, on_host. induction l as [|x l IH]; [done|]. cbn. destruct (hrID x =? id) eqn:E.
  - intros [= ->]. by rewrite Hf, E.
  - rewrite E. exact IH.
Qed.

Lemma dial_pinned net h key : hrKind h = "ssh" -> hrHostKey h <> "" -> ParseAuthorizedKey (hrHostKey h) = Some key ->
  forall user addr k auth, parseSSHAddress (hrAddress h) = Ok (user, addr) -> net addr = Presents k auth -> k <> key -> sshAuthMethods = true ->
  buildClient net h = Err (HostKeyMismatchError (FingerprintSHA256 k)).
Proof.
  intros Hk Hp Hpin user addr k auth Ha Hn Hne Hs. unfold buildClient. rewrite Hk. cbn. unfold dialSSH. rewrite Ha, Hs. cbn. rewrite Hn.
  unfold verifyHostKey. rewrite (proj2 (String.eqb_neq _ _) Hp), Hpin. cbn. destruct (String.eqb key k) eqn:E; [apply String.eqb_eq in E; congruence|done].
Qed.


(** a dial that was under way outlives what is done to its host.  Whatever others do
    while a connection is being made -- delete the host, trust another key -- if they
    leave no connection of their own for it, the one made from the old row is cached and
    every later request gets it. *)
Theorem late_dial_is_cached net meanwhile id w h c : 0 < id -> hwClients w !! id = None -> HostByID fault id (hwDB w) = Ok h ->
  buildClient net h = Ok c -> hwClients (meanwhile (recordHost id w)) !! id = None ->
  exists w', Client fault net meanwhile id w = (w', Ok c) /\ hwDB w' = hwDB (meanwhile (recordHost id w)) /\
    forall net' others w'' r, Client fault net' others id w' = (w'', r) -> r = Ok c.
Proof.
  intros Hp Hn Hh Hb Hm. unfold Client. rewrite (proj2 (Z.leb_gt id 0) Hp). cbn [hwClients recordHost hwDB]. rewrite Hn, Hh, Hb. unfold publish.
  change (hwClients (meanwhile (recordHost id w)) !! id = None) in Hm. rewrite Hm. eexists. split; [done|]. split; [done|].
  intros net' others w'' r. cbn [hwClients recordHost set_clients]. rewrite lookup_insert_eq. by intros [= _ <-].
Qed.
End Trusting.

(** ** Host 0 *)

(** The kinds the access rules read, from the same table. *)
Definition host_kinds (d : HDB) : gmap Z string := list_to_map ((fun h => (hrID h, hrKind h)) <$> host_rows d).
Lemma host_kinds_lookup d id : hosts_wf d -> host_kinds d !! id = match find_row (host_rows d) (fun h => hrID h =? id) with Ok h => Some (hrKind h) | Err _ => None end.
Proof.
  intros [_ Hd _ _]. unfold host_kinds, find_row. induction (host_rows d) as [|h l IH]; [done|]. cbn in Hd. apply NoDup_cons in Hd as [_ Hd].
  cbn. destruct (hrID h =? id) eqn:E; bsimp; [subst; apply lookup_insert_eq|]. rewrite lookup_insert_ne by done. exact (IH Hd).
Qed.
(** [Roles.NormalizeHostID] and the table's are one. *)
Lemma NormalizeHost_refines fault hfault id d rdb : hosts_wf d -> Roles.hosts rdb = host_kinds d -> fault (QHostKind id) = hfault (QHKind id) ->
  NormalizeHost hfault id d = Roles.NormalizeHostID fault id rdb.
Proof.
  intros W Hh Hf. unfold NormalizeHost, Roles.NormalizeHostID, Roles.query. rewrite Hf. destruct (id =? 0); [done|]. destruct (hfault (QHKind id)); [done|].
  rewrite Hh, host_kinds_lookup by done. by destruct (find_row _ _).
Qed.

Section Zero.
Context `{C : Cipher} (fault : HQuery -> bool).

Lemma ListHosts_in d hs h : ListHosts fault d = Ok hs -> h ∈ hs -> exists x, x ∈ host_rows d /\ h = decryptHostKey x.
Proof.
  unfold ListHosts. destruct (fault QHList); [done|]. intros [= <-] (x & -> & Hx)%list_elem_of_fmap. rewrite merge_sort_Permutation in Hx. by exists x.
Qed.
Lemma decrypt_kind h : hrKind (decryptHostKey h) = hrKind h /\ hrID (decryptHostKey h) = hrID h.
Proof. unfold decryptHostKey. destruct (String.eqb _ _); [done|]. by destruct (Decrypt _). Qed.
Lemma decrypt_local h : is_local (decryptHostKey h) = is_local h.
Proof. unfold is_local. by rewrite (proj1 (decrypt_kind h)). Qed.

(** host 0 is the local daemon as long as there is one.  While the table has a local
    host, a request that names no host, or a negative one, goes to a local host; and the
    access rules read that host's own id as host 0, so both names stand for one daemon. *)
Theorem host_zero_is_local d hostID : fault QHList = false -> (exists h, h ∈ host_rows d /\ is_local h = true) -> hosts_wf d -> hostID <= 0 ->
  exists h, h ∈ host_rows d /\ is_local h = true /\ ResolveHostID fault hostID d = Ok (hrID h) /\
    (fault (QHKind (hrID h)) = false -> NormalizeHost fault (hrID h) d = 0).
Proof.
  intros Hf (x & Hx & Hlx) W Hle. unfold ResolveHostID, defaultHostID. rewrite (proj2 (Z.ltb_ge 0 hostID) Hle). unfold ListHosts. rewrite Hf.
  set (hs := decryptHostKey <$> merge_sort host_name_le (host_rows d)).
  assert (Hin : forall h, h ∈ hs -> exists y, y ∈ host_rows d /\ h = decryptHostKey y).
  { intros h (y & -> & Hy)%list_elem_of_fmap. rewrite merge_sort_Permutation in Hy. by exists y. }
  destruct (List.find is_local hs) as [h|] eqn:E.
  - apply List.find_some in E as [Hh Hl]. apply list_elem_of_In, Hin in Hh as (y & Hy & ->). rewrite decrypt_local in Hl. exists y.
    rewrite (proj2 (decrypt_kind y)). split; [done|]. split; [done|]. split; [done|]. intros Hk. unfold NormalizeHost. rewrite Hk.
    destruct W as [_ Wi Ws _]. assert (hrID y <> 0) as Hne by (specialize (Ws _ Hy); lia). rewrite (proj2 (Z.eqb_neq _ _) Hne).
    destruct (find_row (host_rows d) _) as [z|] eqn:Ez.
    + apply find_row_in in Ez as [Hz Hzi]. bsimp. assert (z = y) as -> by (by apply (NoDup_fmap_elem hrID (host_rows d))). by rewrite Hl.
    + unfold find_row in Ez. destruct (List.find _ _) eqn:Ef; [done|]. pose proof (List.find_none _ _ Ef y (proj1 (list_elem_of_In _ _) Hy)) as Hn. cbn in Hn. by rewrite Z.eqb_refl in Hn.
  - exfalso. pose proof (List.find_none _ _ E (decryptHostKey x)) as Hn. rewrite decrypt_local in Hn. rewrite Hn in Hlx; [done|].
    apply list_elem_of_In, list_elem_of_fmap. exists x. by rewrite merge_sort_Permutation.
Qed.

#[local] Instance host_name_total : Total host_name_le := fun a b => total String.le (hrName a) (hrName b).
#[local] Instance host_name_trans : Transitive host_name_le := fun a b c => transitivity (R := String.le) (x := hrName a) (y := hrName b) (z := hrName c).

(** Host 0 is within every grant's reach. *)
Lemma zero_in_reach `{GS : GrantStore} `{!GrantStoreLaws GS} u section write k : checkAccess u section write k = None -> checkAccess u section write 0 = None.
Proof.
  unfold checkAccess. repeat case_match; try done. rewrite gs_normalize_0 in *. exfalso. unfold HasHost in *. cbn in *. bsimp. congruence.
Qed.

(** deleting the local host hands host 0 to the first host by name.  The delete route
    accepts the local host's id from anyone who may write to the hosts section anywhere,
    however narrow their hosts; after it, a request without a host reaches the remaining
    host whose name sorts first -- and everyone who may act on any host at all may act on
    host 0, whether their roles include that host or not. *)
Theorem deleted_local_host_redirects `{GS : GrantStore} `{!GrantStoreLaws GS} claims rawID w id k uid name u :
  hosts_wf (hwDB w) -> (forall q, fault q = false) -> ParseInt rawID = Some id ->
  claims = Some (uid, name) -> gsUserByID uid = Ok u -> checkAccess u "hosts" true k = None -> gsNormalizeHostID id = 0 ->
  (forall h, h ∈ host_rows (hwDB w) -> is_local h = true -> hrID h = id) -> (exists h, h ∈ host_rows (hwDB w) /\ hrID h <> id) ->
  exists w' h, handleDeleteHost fault claims rawID w = (w', HOk) /\ h ∈ host_rows (hwDB w) /\ is_local h = false /\
    ResolveHostID fault 0 (hwDB w') = Ok (hrID h) /\
    (forall x, x ∈ host_rows (hwDB w) -> hrID x <> id -> String.le (hrName h) (hrName x)) /\
    forall v section write j, checkAccess v section write j = None -> checkAccess v section write 0 = None.
Proof.
  intros W Hf Hp Hc Hu Ha Hn Hl (y & Hy & Hyi).
  assert (Hacc : forall b, checkAccess u "hosts" b id = None).
  { intros b. assert (checkAccess u "hosts" b 0 = None) as H0.
    { apply (zero_in_reach u "hosts" b k). destruct b; [done|]. revert Ha. unfold checkAccess. repeat case_match; done. }
    revert H0. unfold checkAccess. by rewrite Hn, gs_normalize_0. }
  unfold handleDeleteHost, scopedHostID, host_db, DeleteHost, hexec. rewrite Hp, Hf. unfold requireSectionOnHost, caller. rewrite Hc, Hu, !Hacc.
  set (rest := filter (fun h => hrID h <> id) (host_rows (hwDB w))). set (w' := host_audit _ _).
  assert (Hr : forall h, h ∈ rest <-> h ∈ host_rows (hwDB w) /\ hrID h <> id) by (intros h; unfold rest; rewrite list_elem_of_filter; tauto).
  set (d' := mkHDB rest _) in w'. unfold ResolveHostID, defaultHostID, ListHosts. rewrite Hf. change (host_rows (hwDB w')) with rest.
  pose proof (merge_sort_Permutation host_name_le rest) as Hperm.
  assert (Hloc : List.find is_local (decryptHostKey <$> merge_sort host_name_le rest) = None).
  { destruct (List.find _ _) as [h|] eqn:E; [|done]. apply List.find_some in E as [(x & -> & Hx)%list_elem_of_In%list_elem_of_fmap Hh].
    rewrite Hperm in Hx. apply Hr in Hx as [Hx Hxi]. rewrite decrypt_local in Hh. exfalso. by apply Hxi, Hl. }
  pose proof (StronglySorted_merge_sort host_name_le rest) as Hs.
  destruct (merge_sort host_name_le rest) as [|h l] eqn:E.
  { exfalso. assert (y ∈ rest) as Hx by (by apply Hr). rewrite <- Hperm in Hx. by apply elem_of_nil in Hx. }
  exists w', h. assert (Hh : h ∈ rest) by (rewrite <- Hperm; by left). apply Hr in Hh as [Hh Hhi]. split; [done|]. split; [done|]. split.
  { destruct (is_local h) eqn:El; [|done]. exfalso. by apply Hhi, Hl. }
  change (host_rows (hwDB w')) with rest. rewrite E. rewrite fmap_cons in Hloc |- *. rewrite Hloc. split; [by rewrite (proj2 (decrypt_kind h))|]. split; [|intros v section write j; apply zero_in_reach].
  intros x Hx Hxi. assert (Hin : x ∈ h :: l) by (rewrite Hperm; by apply Hr). apply elem_of_cons in Hin as [->|Hin]; [reflexivity|].
  apply StronglySorted_inv in Hs as [_ Hs]. rewrite Forall_forall in Hs. by apply Hs.
Qed.
End Zero.

(** ** TLS keys at rest *)
Section Keys.
Context `{C : Cipher} `{!CipherLaws C} (fault : HQuery -> bool).

(** What a reader gets of each row. *)
Definition readable (d : HDB) : list HostRow := decryptHostKey <$> host_rows d.

Lemma reseal_readable id enc nonce key l : NoDup (hrID <$> l) -> Encrypt nonce key = Some enc -> enc <> "" ->
  (forall h, h ∈ l -> hrID h = id -> hrTLSKey h = key /\ Decrypt key = None) -> key <> "" ->
  decryptHostKey <$> on_host id (with_key enc) l = decryptHostKey <$> l.
Proof.
  intros _ He Hne Hl Hk. unfold on_host. rewrite <- list_fmap_compose. apply list_fmap_ext. intros i h Hi%list_elem_of_lookup_2. cbn.
  destruct (hrID h =? id) eqn:E; [|done]. bsimp. destruct (Hl h Hi E) as [Hkey Hdec]. unfold decryptHostKey. cbn.
  rewrite (proj2 (String.eqb_neq _ _) Hne), (decrypt_encrypt _ _ _ He), Hkey, (proj2 (String.eqb_neq _ _) Hk), Hdec. subst key. by destruct h.
Qed.

Definition sealed (h : HostRow) : Prop := hrTLSKey h = "" \/ exists k, Decrypt (hrTLSKey h) = Some k.
Context (ciphertext : forall n v c, Encrypt n v = Some c -> c <> "").

Lemma seal_loop nonce todo : forall d, NoDup (hrID <$> host_rows d) -> NoDup (fst <$> todo) ->
  (forall h, h ∈ host_rows d -> sealed h \/ (hrID h, hrTLSKey h) ∈ todo) ->
  (forall id key, (id, key) ∈ todo -> key <> "" /\ Decrypt key = None /\ forall h, h ∈ host_rows d -> hrID h = id -> hrTLSKey h = key) ->
  forall d' r, st_for (seal_one fault nonce) todo d = (d', r) -> readable d' = readable d /\ (r = Ok tt -> forall h, h ∈ host_rows d' -> sealed h).
Proof.
  induction todo as [|[id key] todo IH]; intros d Hnd Htd Hall Htodo d' r; cbn [st_for].
  { intros [= <- <-]. split; [done|]. intros _ h Hh. destruct (Hall h Hh) as [?|Hx]; [done|by apply elem_of_nil in Hx]. }
  destruct (Htodo id key (list_elem_of_here _ _)) as (Hk & Hd & Hrow). unfold mbind, stM_bind.
  unfold seal_one at 1. cbn [fst snd]. destruct (Encrypt (nonce id) key) as [enc|] eqn:Ee; [|by intros [= <- <-]].
  unfold hexec. destruct (fault (QHRekey id)); [by intros [= <- <-]|]. intros H.
  assert (Hr : readable (mkHDB (on_host id (with_key enc) (host_rows d)) (host_seq d)) = readable d).
  { unfold readable. cbn. eapply reseal_readable; [done|exact Ee|by eapply ciphertext|intros h Hh Hi; split; [by apply Hrow|done]|done]. }
  rewrite <- Hr. apply NoDup_cons in Htd as [Hni Htd]. apply IH in H; [exact H|cbn; by rewrite on_host_ids|done| |].
  - intros h (x & -> & Hx)%list_elem_of_fmap. destruct (hrID x =? id) eqn:E; bsimp.
    + left. right. exists key. cbn. by apply (decrypt_encrypt (nonce id)).
    + destruct (Hall x Hx) as [?|[Heq|?]%elem_of_cons]; [by left| |by right]. congruence.
  - intros id2 key2 Hin. destruct (Htodo id2 key2 (proj2 (elem_of_cons _ _ _) (or_intror Hin))) as (? & ? & Hrow2). split; [done|]. split; [done|].
    intros h (x & -> & Hx)%list_elem_of_fmap. destruct (hrID x =? id) eqn:E; bsimp; [|by apply Hrow2]. cbn. intros He. exfalso.
    apply Hni. apply list_elem_of_fmap. exists (id2, key2). cbn. split; [congruence|done].
Qed.
Lemma plaintext_keys_in d id key : (id, key) ∈ plaintext_keys d <-> exists h, h ∈ host_rows d /\ hrID h = id /\ hrTLSKey h = key /\ key <> "" /\ Decrypt key = None.
Proof.
  unfold plaintext_keys. rewrite list_elem_of_fmap. split.
  - intros (h & [= -> ->] & [[Hk Hd] Hh]%list_elem_of_filter). by exists h.
  - intros (h & Hh & <- & <- & Hk & Hd). exists h. by rewrite list_elem_of_filter.
Qed.

(** sealing the keys changes nothing anyone reads.  The migration that encrypts the
    TLS keys still stored in plain text, wherever it stops, leaves every host reading as
    before; and when it completes, every stored key is ciphertext. *)
Theorem key_migration_transparent nonce d d' r : hosts_wf d -> EncryptPlaintextHostKeys fault nonce d = (d', r) ->
  readable d' = readable d /\ (r = Ok tt -> forall h, h ∈ host_rows d' -> sealed h).
Proof.
  intros W. pose proof (hwf_ids d W) as Wi. unfold EncryptPlaintextHostKeys. destruct (fault QHScanKeys); [by intros [= <- <-]|].
  apply seal_loop; [done| | |].
  - unfold plaintext_keys. rewrite <- list_fmap_compose. by apply (NoDup_fmap_filter hrID).
  - intros h Hh. unfold sealed. destruct (String.eqb (hrTLSKey h) "") eqn:E; [apply String.eqb_eq in E; by left; left|].
    destruct (Decrypt (hrTLSKey h)) as [k|] eqn:Ed; [left; right; by exists k|]. right. apply plaintext_keys_in. exists h. apply String.eqb_neq in E. auto.
  - intros id key (h & Hh & Hi & Hk & Hne & Hd)%plaintext_keys_in. split; [done|]. split; [done|]. intros x Hx Hxi.
    by rewrite (NoDup_fmap_elem hrID (host_rows d) x h Wi Hx Hh) by congruence.
Qed.

(** a host's TLS key is stored sealed and read back whole.  A host that is created
    reads back with the name, the kind, the endpoint and the TLS key it was given, not
    disabled by itself and with no key pinned, while the stored column holds what the
    cipher made of the key. *)
Theorem host_round_trip h nonce now d d' id : hosts_wf d -> CreateHost fault h nonce now d = (d', Ok id) -> fault (QHByID id) = false ->
  HostByID fault id d' = Ok (mkHostRow id (hrName h) (hrKind h) (hrAddress h) (hrTLSCA h) (hrTLSCert h) (hrTLSKey h) "" (hrAlertEmail h) (hrDisabled h) (rfc3339 now)) /\
  exists row, row ∈ host_rows d' /\ hrID row = id /\ (hrTLSKey h <> "" -> Encrypt nonce (hrTLSKey h) = Some (hrTLSKey row)).
Proof.
  intros W. unfold CreateHost. destruct (if String.eqb (hrTLSKey h) "" then Some "" else _) as [key|] eqn:Ek; [|done]. destruct (fault QHInsert); [done|].
  destruct (existsb _ _); [done|]. intros [= <- <-] Hf. set (row := mkHostRow _ _ _ _ _ _ _ _ _ _ _). split.
  - unfold HostByID. rewrite Hf. cbn [host_rows]. assert (Hfind : find_row (host_rows d ++ [row]) (fun x => hrID x =? host_seq d + 1) = Ok row).
    { unfold find_row. destruct W as [_ _ Ws _]. induction (host_rows d) as [|x l IH]; cbn.
      - by rewrite Z.eqb_refl.
      - destruct (hrID x =? host_seq d + 1) eqn:E; [bsimp; specialize (Ws x (list_elem_of_here _ _)); lia|]. apply IH. intros y Hy. apply Ws. by right. }
    rewrite Hfind. unfold row, decryptHostKey. cbn. destruct (String.eqb (hrTLSKey h) "") eqn:E.
    + injection Ek as <-. apply String.eqb_eq in E. by rewrite E.
    + rewrite (proj2 (String.eqb_neq _ _) (ciphertext _ _ _ Ek)), (decrypt_encrypt _ _ _ Ek). done.
  - exists row. split; [cbn; apply elem_of_app; right; by apply list_elem_of_singleton|]. split; [done|]. intros Hk. rewrite (proj2 (String.eqb_neq _ _) Hk) in Ek. exact Ek.
Qed.
End Keys.

(** ** Concrete runs *)
Definition toy_marshal (k : string) : string := "[" +:+ k +:+ "]".
Definition toy_dialer : Dialer := {|
  client_new _ := None; AppendCertsFromPEM _ := true; X509KeyPair _ _ := None; sshAuthMethods := true; knownHostsCallback := None;
  MarshalAuthorizedKey := toy_marshal; ParseAuthorizedKey s := Some (of_bytes (removelast (tl (bytes s)))); FingerprintSHA256 k := "SHA256:" +:+ k; KeyType _ := "ssh-ed25519"
|}.
Lemma toy_dialer_laws : DialerLaws toy_dialer.
Proof.
  assert (H : forall k, TrimSpace (toy_marshal k) = toy_marshal k).
  { intros k. apply (TrimSpace_solid "["%char _ "]"%char); [by vm_compute|by vm_compute|by exists (bytes (k +:+ "]"))|].
    exists ("["%char :: bytes k). unfold toy_marshal. by rewrite !bytes_app. }
  split; intros k.
  - change (Some (of_bytes (removelast (tl (bytes (TrimSpace (toy_marshal k)))))) = Some k). rewrite H. unfold toy_marshal. rewrite !bytes_app.
    change (bytes "[") with ["["%char]. cbn [app tl]. change (bytes "]") with ["]"%char]. by rewrite removelast_last, of_bytes_bytes.
  - change (TrimSpace (toy_marshal k) <> ""). by rewrite H.
Qed.
(** A cipher that knows its own output. *)
Definition seal_cipher : Cipher := {| Encrypt n v := Some ("#" +:+ v); Decrypt c := if HasPrefix c "#" then Some (TrimPrefix c "#") else None; Fingerprint v := v |}.
Lemma seal_cipher_laws : CipherLaws seal_cipher.
Proof. split. intros n v c [= <-]. cbn [Decrypt seal_cipher]. rewrite HasPrefix_app. by rewrite TrimPrefix_app. Qed.
Lemma seal_cipher_text n v c : Encrypt (Cipher := seal_cipher) n v = Some c -> c <> "".
Proof. by intros [= <-]. Qed.

Definition works : HQuery -> bool := fun _ => false.
Definition local_row : HostRow := mkHostRow 1 "local" "local" "" "" "" "" "" "" false 0.
Definition staging_row : HostRow := mkHostRow 2 "staging" "ssh" "ops@staging" "" "" "" "" "" false 0.
Definition production_row : HostRow := mkHostRow 3 "production" "tcp" "tcp://10.0.0.3:2376" "ca" "cert" "pem" "" "" false 0.
Definition three_hosts : HDB := mkHDB [local_row; staging_row; production_row] 3.
Definition fresh_hosts (d : HDB) : HWorld := mkHW d ∅ ∅ [] None.
Lemma three_hosts_wf : hosts_wf three_hosts.
Proof.
  split; [done|apply (bool_decide_unpack _); vm_compute; exact I| |apply (bool_decide_unpack _); vm_compute; exact I].
  intros h Hh. unfold three_hosts in Hh. cbn in Hh. rewrite !elem_of_cons, elem_of_nil in Hh. destruct Hh as [->|[->|[->|[]]]]; cbn; lia.
Qed.

(** Account 5 holds one role: hosts and containers, to write, on staging only. *)
Definition staging_only : DB :=
  let b := (SetUserRoles Roles.no_fault 5 [3] (CreateRole Roles.no_fault (mkRole 0 "Staging" "" false [mkRS "hosts" true; mkRS "containers" true] [2]) seeded).1).1 in
  mkDB (roles b) (roles_seq b) (role_sections b) (role_hosts b) (user_roles b) (host_kinds three_hosts) (disabled b) (ldap_fallback b).
Definition staging_store : GrantStore := db_store Roles.no_fault {[5 := carol]} staging_only false.
Definition carol_claims : option (Z * string) := Some (5, "carol").
Definition staging_net : string -> Presented := fun addr => if String.eqb addr "staging:22" then Presents "kA" None else NoContact "no route".

Notation world := (fresh_hosts three_hosts) (only parsing).
Notation trusted_world := (handleTrustHost (GS := staging_store) (C := seal_cipher) (X := toy_dialer) works carol_claims "2" staging_net "SHA256:kA" world).1 (only parsing).

Lemma host_changes_scoped_witness :
  let w := world in let w' := (run_host_call (GS := staging_store) (C := seal_cipher) (TE := ascii_text) (X := toy_dialer) works (fun _ => Err "") carol_claims "2" staging_net HcDelete w).1 in
  hwDB w' <> hwDB w /\ (exists id, one_host_changed id w w' /\ ((exists b nonce now, HcDelete = HcCreate b nonce now /\ id = host_seq (hwDB w) + 1) \/
    (ParseInt "2" = Some id /\ may_write_host (GS := staging_store) carol_claims id))).
Proof.
  intros w w'. assert (Hne : hwDB w' <> hwDB w) by (intros H; apply (f_equal (fun d => length (host_rows d))) in H; vm_compute in H; discriminate).
  split; [exact Hne|].
  destruct (host_changes_scoped (GS := staging_store) (C := seal_cipher) (TE := ascii_text) (X := toy_dialer) works (fun _ => Err "") carol_claims "2" staging_net HcDelete
    w w' HOk three_hosts_wf ltac:(vm_compute; reflexivity)) as [[H _]|H]; [contradiction|exact H].
Defined.


(** Deleting staging while a dial to it is under way. *)
Definition deleting (w : HWorld) : HWorld := (handleDeleteHost (GS := staging_store) works carol_claims "2" w).1.
Definition anyone : string -> Presented := fun addr => if String.eqb addr "staging:22" then Presents "kA" None else NoContact "no route".
Definition pinned_world : HWorld := trusted_world.
Lemma late_dial_is_cached_witness : exists w' c,
  Client (C := seal_cipher) (TE := ascii_text) (X := toy_dialer) works anyone deleting 2 pinned_world = (w', Ok c) /\
  hrID <$> host_rows (hwDB w') = [1; 3] /\
  (Client (C := seal_cipher) (TE := ascii_text) (X := toy_dialer) works anyone no_one 2 w').2 = Ok c.
Proof.
  assert (Hh : exists h c, HostByID (C := seal_cipher) works 2 (hwDB pinned_world) = Ok h /\ buildClient (TE := ascii_text) (X := toy_dialer) anyone h = Ok c)
    by (eexists; eexists; split; vm_compute; reflexivity).
  destruct Hh as (h & c & Hh & Hb).
  destruct (late_dial_is_cached (C := seal_cipher) (TE := ascii_text) (X := toy_dialer) works anyone deleting 2 pinned_world h c ltac:(lia) ltac:(vm_compute; reflexivity)
    Hh Hb ltac:(vm_compute; reflexivity)) as (w' & Hw & Hd & Hnext).
  exists w', c. split; [exact Hw|]. split; [rewrite Hd; vm_compute; reflexivity|]. eapply Hnext. apply surjective_pairing.
Defined.

Lemma connections_current_witness :
  connections_ok (C := seal_cipher) (X := toy_dialer) (Client (C := seal_cipher) (TE := ascii_text) (X := toy_dialer) works staging_net no_one 2 trusted_world).1 /\
  is_Some (hwClients (Client (C := seal_cipher) (TE := ascii_text) (X := toy_dialer) works staging_net no_one 2 trusted_world).1 !! 2).
Proof.
  split; [|vm_compute; by eexists].
  apply (connections_current (C := seal_cipher) (TE := ascii_text) (X := toy_dialer) three_hosts). eapply rtc_l; [|eapply rtc_l; [|apply rtc_refl]].
  - eapply (step_call staging_store works (fun _ => Err "") carol_claims "2" staging_net (HcTrust "SHA256:kA")). apply surjective_pairing.
  - eapply step_client. apply surjective_pairing.
Defined.

Lemma host_zero_is_local_witness : exists h, h ∈ host_rows three_hosts /\ ResolveHostID (C := seal_cipher) works (-7) three_hosts = Ok (hrID h) /\ hrName h = "local".
Proof.
  destruct (host_zero_is_local (C := seal_cipher) works three_hosts (-7) eq_refl) as (h & Hh & Hl & Hr & _); [|exact three_hosts_wf|lia|].
  - exists local_row. split; [by left|reflexivity].
  - exists h. split; [exact Hh|]. split; [exact Hr|]. cbn in Hh. rewrite !elem_of_cons, elem_of_nil in Hh.
    destruct Hh as [->|[->|[->|[]]]]; [reflexivity|discriminate Hl|discriminate Hl].
Defined.

(** Carol, kept to staging, deletes the local host: host 0 is production, which she could not touch. *)
Lemma deleted_local_host_redirects_witness :
  is_Some (checkAccess (GS := staging_store) carol "containers" true 3) /\
  exists w' h, handleDeleteHost (GS := staging_store) works carol_claims "1" world = (w', HOk) /\ ResolveHostID (C := seal_cipher) works 0 (hwDB w') = Ok (hrID h) /\
    hrName h = "production" /\ checkAccess (GS := staging_store) carol "containers" true 0 = None.
Proof.
  split; [vm_compute; by eexists|].
  assert (Hl : GrantStoreLaws staging_store) by apply db_store_laws.
  destruct (deleted_local_host_redirects (C := seal_cipher) works (GS := staging_store) carol_claims "1" world 1 2 5 "carol" carol
    three_hosts_wf (fun _ => eq_refl) eq_refl eq_refl ltac:(vm_compute; reflexivity) ltac:(vm_compute; reflexivity) ltac:(vm_compute; reflexivity))
    as (w' & h & Hd & Hh & Hloc & Hr & Hmin & Hacc).
  - intros h Hh Hk. cbn in Hh. rewrite !elem_of_cons, elem_of_nil in Hh. destruct Hh as [->|[->|[->|[]]]]; [reflexivity|discriminate Hk|discriminate Hk].
  - exists production_row. split; [right; right; left; reflexivity|discriminate].
  - exists w', h. split; [exact Hd|]. split; [exact Hr|]. split; [|exact (Hacc carol "containers" true 2 ltac:(vm_compute; reflexivity))].
    assert (ResolveHostID (C := seal_cipher) works 0 (hwDB (handleDeleteHost (GS := staging_store) works carol_claims "1" world).1) = Ok 3) as H3 by (vm_compute; reflexivity).
    rewrite Hd in H3. cbn [fst] in H3. rewrite Hr in H3. injection H3 as H3. cbn in Hh. rewrite !elem_of_cons, elem_of_nil in Hh.
    destruct Hh as [->|[->|[->|[]]]]; [discriminate H3|discriminate H3|reflexivity].
Defined.

Lemma key_migration_transparent_witness : exists d', EncryptPlaintextHostKeys (C := seal_cipher) works id three_hosts = (d', Ok tt) /\
  readable (C := seal_cipher) d' = readable (C := seal_cipher) three_hosts /\ hrTLSKey <$> host_rows d' = [""; ""; "#pem"].
Proof.
  assert (exists d', EncryptPlaintextHostKeys (C := seal_cipher) works id three_hosts = (d', Ok tt) /\ hrTLSKey <$> host_rows d' = [""; ""; "#pem"]) as (d' & H & Hk)
    by (eexists; split; vm_compute; reflexivity).
  exists d'. split; [exact H|]. split; [|exact Hk].
  exact (proj1 (key_migration_transparent (C := seal_cipher) (CipherLaws0 := seal_cipher_laws) works seal_cipher_text id three_hosts d' (Ok tt) three_hosts_wf H)).
Defined.

Lemma host_round_trip_witness :
  let h := mkHostRow 0 "edge" "tcp" "tcp://edge:2376" "ca" "cert" "secret" "" "" false 0 in
  let d' := (CreateHost (C := seal_cipher) works h 7 0 three_hosts).1 in
  exists r, HostByID (C := seal_cipher) works 4 d' = Ok r /\ hrTLSKey r = "secret" /\ exists row, row ∈ host_rows d' /\ hrTLSKey row = "#secret".
Proof.
  intros h d'.
  destruct (host_round_trip (C := seal_cipher) (CipherLaws0 := seal_cipher_laws) works seal_cipher_text h 7 0 three_hosts d' 4 three_hosts_wf
    ltac:(vm_compute; reflexivity) eq_refl) as [H (row & Hrow & _ & Hk)].
  eexists. split; [exact H|]. split; [reflexivity|]. exists row. split; [exact Hrow|]. specialize (Hk ltac:(discriminate)). injection Hk as Hk. by symmetry.
Defined.
