(* ===== verification/Docker.v ===== *)
(** * Containers and stacks (internal/docker/ops.go, bulk.go, stacks.go, internal/api/docker_handlers.go,
      stack_handlers.go, project_oplock.go)

    What is asked of a daemon: the containers of a host and their stacks, one action on
    one container, on a chosen set, on a whole stack, and the handlers over them. What a
    daemon answers is a parameter of everything it was asked to change so far. *)
From S2P Require Import Prelude GoStrings Users Roles Access Calendar Maintenance MaintenanceHandlers Compose Preview ProjectStore Projects Hosts.

(** ** Data (types.go) *)
Record PortMapping := mkPort { pmIP : string; PrivatePort : Z; PublicPort : Z; pmType : string }.
Record ContainerSummary := mkSummary {
  csID : string; csName : string; csImage : string; csState : string; csStatus : string; csCreated : Z; csPorts : list PortMapping;
  csNetworks : list string; csLabels : gmap string string
}.
Record MountInfo := mkMount { mtType : string; mtSource : string; mtDestination : string; mtRW : bool }.
Record NetworkAttach := mkAttach { naName : string; naNetworkID : string; naIPAddress : string; naGateway : string; naMacAddress : string }.
Record ContainerDetail := mkDetail {
  cdID : string; cdName : string; cdImage : string; cdState : string; cdStatus : string; cdHealth : string; cdCreated : string; cdStartedAt : string;
  cdRestartCount : Z; cdCommand : list string; cdEnv : list string; cdLabels : gmap string string; cdMounts : list MountInfo; cdPorts : list PortMapping;
  cdNetworks : list NetworkAttach; cdRestartPolicy : string
}.

(** What the daemon reports: a port's address is [None] when it gave none; networks come
    in the order the map is ranged over in. *)
Record RawPort := mkRawPort { rpIP : option string; rpPrivate : Z; rpPublic : Z; rpType : string }.
Record RawContainer := mkRaw {
  rcID : string; rcNames : list string; rcImage : string; rcState : string; rcStatus : string; rcCreated : Z; rcLabels : gmap string string;
  rcPorts : list RawPort; rcNetworks : option (list string)
}.
Record RawState := mkRawState { rsStatus : string; rsStartedAt : string; rsHealth : option string }.
Record RawInspect := mkInspect {
  riID : string; riName : string; riCreated : string; riPath : string; riArgs : list string; riRestartCount : Z;
  riConfig : option (string * list string * gmap string string); riState : option RawState; riRestartPolicy : option string;
  riMounts : list MountInfo; riNetworks : option (list (string * string * option string * option string * string))
}.

(** What a daemon can be asked to change. *)
Inductive DOp :=
  | OpStart (id : string) | OpStop (id : string) | OpRestart (id : string) | OpPause (id : string) | OpUnpause (id : string) | OpKill (id : string)
  | OpRemove (id : string) | OpNetworkRemove (id : string).
Notation Trace := (list (Z * DOp)) (only parsing).
Class Moby := {
  moby_net : string -> Presented;
  ContainerList : Trace -> Conn -> result string (list RawContainer);
  ContainerInspect : Trace -> Conn -> string -> result string RawInspect;
  NetworkList : Trace -> Conn -> string -> result string (list string);
  (** [None] is the nil error *)
  Perform : Trace -> Conn -> DOp -> option string
}.

(** The hosts and their connections, what the daemons were asked to change, the projects. *)
Record DWorld := mkDW { dwH : HWorld; dwFx : Trace; dwP : World }.
Definition dial_text (e : DialErr) : string :=
  match e with
  | HostKeyUnknownError fp ty => "host key not trusted (" +:+ ty +:+ " " +:+ fp +:+ ") — verify and trust it before connecting"
  | HostKeyMismatchError fp => "REMOTE HOST KEY CHANGED — presented " +:+ fp +:+ " does not match the trusted key. This may indicate a man-in-the-middle attack. Re-trust the host only if you changed it deliberately"
  | DialOther e => e
  end.

Definition volfsLabel : string := "dc.volfs".
Definition labelComposeProject : string := "com.docker.compose.project".
Definition labelComposeService : string := "com.docker.compose.service".
Definition labelComposeConfigFiles : string := "com.docker.compose.project.config_files".
Definition labelComposeWorkingDir : string := "com.docker.compose.project.working_dir".
(** A missing key of a Go map reads as "". *)
Definition label (m : gmap string string) (k : string) : string := default "" (m !! k).

Definition ErrUnknownAction : string := "docker: unknown container action".

Section Daemon.
Context `{C : Cipher} `{TE : TextEnv} `{X : Dialer} `{MB : Moby} (fault : HQuery -> bool).

(** Manager.Client, for a request served on its own. *)
Definition daemon (hostID : Z) : stM DWorld string Conn := fun w =>
  match Client fault moby_net no_one hostID (dwH w) with
  | (h, Ok c) => (mkDW h (dwFx w) (dwP w), Ok c)
  | (h, Err e) => (mkDW h (dwFx w) (dwP w), Err (dial_text e))
  end.
Definition ask {A} (f : Trace -> result string A) : stM DWorld string A := fun w => (w, f (dwFx w)).
Definition perform (c : Conn) (op : DOp) : stM DWorld string () := fun w =>
  (mkDW (dwH w) (dwFx w ++ [(hrID (cnRow c), op)]) (dwP w), match Perform (dwFx w) c op with Some e => Err e | None => Ok tt end).

(** ** Containers (ops.go) *)
Definition addrString (a : option string) : string := default "" a.
Definition cleanName (names : list string) : string := match names with [] => "" | n :: _ => TrimPrefix n "/" end.
Definition summary (c : RawContainer) : ContainerSummary :=
  mkSummary (rcID c) (cleanName (rcNames c)) (rcImage c) (rcState c) (rcStatus c) (rcCreated c)
    ((fun p => mkPort (addrString (rpIP p)) (rpPrivate p) (rpPublic p) (rpType p)) <$> rcPorts c) (default [] (rcNetworks c)) (rcLabels c).

(** Negative, zero or positive. *)
Definition cmpFold (a b : string) : Z :=
  let la := ToLower a in let lb := ToLower b in
  if negb (String.eqb la lb) then (if String.ltb la lb then -1 else 1)
  else if String.ltb a b then -1 else if String.ltb b a then 1 else 0.
Definition is_running (state : string) : bool := String.eqb state "running".
(** The comparison of the sort: running first, then by name, then by id. *)
Definition listed_before (a b : ContainerSummary) : bool :=
  if negb (Bool.eqb (is_running (csState a)) (is_running (csState b))) then is_running (csState a)
  else if negb (cmpFold (csName a) (csName b) =? 0) then cmpFold (csName a) (csName b) <? 0
  else String.ltb (csID a) (csID b).
Definition listed_le (a b : ContainerSummary) : Prop := listed_before b a = false.
#[global] Instance listed_le_dec : RelDecision listed_le.
Proof. intros a b. unfold listed_le. apply _. Defined.

Definition ListContainers (hostID : Z) : stM DWorld string (list ContainerSummary) :=
  cli ← daemon hostID;
  raw ← ask (fun fx => ContainerList fx cli);
  mret (merge_sort listed_le (summary <$> filter (fun c => label (rcLabels c) volfsLabel = "") raw)).

Definition detail (c : RawInspect) : ContainerDetail :=
  let '(image, env, labels) := default ("", [], ∅) (riConfig c) in
  let '(status, started, restarts, health) := match riState c with
    | Some s => (rsStatus s, rsStartedAt s, riRestartCount c, default "" (rsHealth s))
    | None => ("", "", 0, "")
    end in
  mkDetail (riID c) (TrimPrefix (riName c) "/") image status status health (riCreated c) started restarts (riPath c :: riArgs c) env labels (riMounts c) []
    (match riNetworks c with
     | Some l => (fun '(name, nid, ip, gw, mac) => mkAttach name nid (addrString ip) (addrString gw) mac) <$> l
     | None => []
     end) (default "" (riRestartPolicy c)).
Definition InspectContainer (hostID : Z) (id : string) : stM DWorld string ContainerDetail :=
  cli ← daemon hostID;
  c ← ask (fun fx => ContainerInspect fx cli id);
  mret (detail c).

Definition action_op (action id : string) : option DOp :=
  if String.eqb action "start" then Some (OpStart id) else if String.eqb action "stop" then Some (OpStop id)
  else if String.eqb action "restart" then Some (OpRestart id) else if String.eqb action "pause" then Some (OpPause id)
  else if String.eqb action "unpause" then Some (OpUnpause id) else if String.eqb action "kill" then Some (OpKill id) else None.
Definition ContainerAction (hostID : Z) (id action : string) : stM DWorld string () :=
  cli ← daemon hostID;
  match action_op action id with Some op => perform cli op | None => st_fail ErrUnknownAction end.

(** ** Bulk actions (bulk.go) *)
Definition bulkActionConcurrency : Z := 8.
Record BulkActionResult := mkBulk { bulkID : string; bulkOK : bool; bulkError : string }.

(** "" when there is none. *)
Fixpoint first_dup (seen : list string) (ids : list string) : string :=
  match ids with [] => "" | id :: ids => if one_of id seen then id else first_dup (id :: seen) ids end.
Definition FirstDuplicateID (ids : list string) : string := first_dup [] ids.

(** One job of the run: its own connection, its own result. *)
Definition bulk_one (hostID : Z) (action id : string) (w : DWorld) : DWorld * BulkActionResult :=
  match ContainerAction hostID id action w with
  | (w, Err e) => (w, mkBulk id false e)
  | (w, Ok _) => (w, mkBulk id true "")
  end.
(** The jobs in the order they finish in: [order] lists the indices. *)
Fixpoint run_in_order (hostID : Z) (action : string) (ids : list string) (order : list nat) (w : DWorld) : DWorld * list (nat * BulkActionResult) :=
  match order with
  | [] => (w, [])
  | i :: order =>
      let '(w, r) := bulk_one hostID action (default "" (ids !! i)) w in
      let '(w, rs) := run_in_order hostID action ids order w in (w, (i, r) :: rs)
  end.
Definition result_at (rs : list (nat * BulkActionResult)) (i : nat) : BulkActionResult :=
  match List.find (fun r : nat * BulkActionResult => (r.1 =? i)%nat) rs with Some (_, r) => r | None => mkBulk "" false "" end.
Definition BulkContainerAction (order : nat -> list nat) (hostID : Z) (ids : list string) (action : string) : stM DWorld string (list BulkActionResult) := fun w =>
  if negb (String.eqb (FirstDuplicateID ids) "") then (w, Err ("container " +:+ Quote (FirstDuplicateID ids) +:+ " is listed more than once in the same request"))
  else
    let '(w, rs) := run_in_order hostID action ids (order (length ids)) w in
    (w, Ok (result_at rs <$> seq 0 (length ids))).

Definition in_project (project : string) (c : ContainerSummary) : bool := String.eqb (label (csLabels c) labelComposeProject) project.
Definition BulkStackContainerAction (order : nat -> list nat) (hostID : Z) (project : string) (ids : list string) (action : string) : stM DWorld string (list BulkActionResult) :=
  if negb (one_of action ["restart"; "stop"]) then st_fail ErrUnknownAction
  else if String.eqb (TrimSpace project) "" then st_fail "project is required"
  else match ids with
       | [] => st_fail "ids is required"
       | _ =>
           containers ← ListContainers hostID;
           match List.find (fun id => negb (one_of id (csID <$> List.filter (in_project project) containers))) ids with
           | Some id => st_fail ("container " +:+ Quote id +:+ " does not belong to stack " +:+ Quote project)
           | None => BulkContainerAction order hostID ids action
           end
       end.

(** ** Stacks (stacks.go) *)
Record StackMember := mkMember { smID : string; smName : string; smService : string; smState : string; smStatus : string; smImage : string; smPorts : list PortMapping }.
Record StackInfo := mkStackInfo { siProject : string; siConfigFile : string; siWorkingDir : string; siContainers : list StackMember; siRunning : Z }.
Definition member_of (c : ContainerSummary) : StackMember :=
  mkMember (csID c) (csName c) (label (csLabels c) labelComposeService) (csState c) (csStatus c) (csImage c) (csPorts c).

(** One container into the map of stacks. *)
Definition group_one (by_project : gmap string StackInfo) (c : ContainerSummary) : gmap string StackInfo :=
  let project := label (csLabels c) labelComposeProject in
  if String.eqb project "" then by_project
  else
    let st := default (mkStackInfo project (label (csLabels c) labelComposeConfigFiles) (label (csLabels c) labelComposeWorkingDir) [] 0) (by_project !! project) in
    <[project := mkStackInfo (siProject st) (siConfigFile st) (siWorkingDir st) (siContainers st ++ [member_of c])
                   (if is_running (csState c) then siRunning st + 1 else siRunning st)]> by_project.
Definition member_le (a b : StackMember) : Prop :=
  if String.eqb (smService a) (smService b) then String.le (smName a) (smName b) else String.le (smService a) (smService b).
#[global] Instance member_le_dec : RelDecision member_le.
Proof. intros a b. unfold member_le. destruct (String.eqb _ _); apply _. Defined.
Definition stack_le (a b : StackInfo) : Prop := String.le (siProject a) (siProject b).
#[global] Instance stack_le_dec : RelDecision stack_le.
Proof. intros a b. unfold stack_le. apply _. Defined.
Definition sorted_stack (s : StackInfo) : StackInfo := mkStackInfo (siProject s) (siConfigFile s) (siWorkingDir s) (merge_sort member_le (siContainers s)) (siRunning s).
Definition group_stacks (containers : list ContainerSummary) : list StackInfo :=
  merge_sort stack_le (sorted_stack <$> (map_to_list (foldl group_one ∅ containers)).*2).

Definition ListStacks (hostID : Z) : stM DWorld string (list StackInfo) := cs ← ListContainers hostID; mret (group_stacks cs).
Definition StackContainerIDs (hostID : Z) (project : string) : stM DWorld string (list string) :=
  cs ← ListContainers hostID; mret (csID <$> List.filter (in_project project) cs).
Definition StackActionOnIDs (hostID : Z) (ids : list string) (action : string) : stM DWorld string () :=
  if one_of action ["start"; "stop"; "restart"] then st_for (fun id => ContainerAction hostID id action) ids else st_fail ErrUnknownAction.

(** Networks still in use, or not the project's own, are left alone. *)
Fixpoint remove_networks (cli : Conn) (nets : list string) (w : DWorld) : DWorld :=
  match nets with [] => w | n :: nets => remove_networks cli nets (perform cli (OpNetworkRemove n) w).1 end.
Definition remove_stack_networks (cli : Conn) (project : string) : stM DWorld string () := fun w =>
  match NetworkList (dwFx w) cli project with
  | Err _ => (w, Ok tt)
  | Ok nets => (remove_networks cli nets w, Ok tt)
  end.
Definition StackAction (hostID : Z) (project action : string) : stM DWorld string () :=
  cli ← daemon hostID;
  ids ← StackContainerIDs hostID project;
  match ids with
  | [] => st_fail ("no containers found for stack " +:+ Quote project)
  | _ =>
      if one_of action ["start"; "stop"; "restart"] then StackActionOnIDs hostID ids action
      else if String.eqb action "remove" then
        _ ← st_for (fun id => perform cli (OpRemove id)) ids;
        remove_stack_networks cli project
      else st_fail ErrUnknownAction
  end.
End Daemon.

(** ** Handlers (docker_handlers.go, stack_handlers.go) *)
Definition maxBulkContainerIDs : Z := 200.
Definition bulkContainerActions (action : string) : bool := one_of action ["restart"; "stop"; "start"].
Inductive DReply :=
  | DErr (status : Z) (msg : string)
  | DOk | DFail (msg : string)
  | DContainers (l : list ContainerSummary) | DDetail (d : ContainerDetail) | DStacks (l : list StackInfo)
  | DBulk (results : list BulkActionResult) (succeeded failed : Z).

Section Handlers.
Context `{C : Cipher} `{TE : TextEnv} `{En : Engine} `{X : Dialer} `{MB : Moby} (fault : HQuery -> bool).
(** [?host=] as the query has it, and the order concurrent jobs finish in. *)
Variables (hostQuery : string) (order : nat -> list nat).

(** [None] is the error of a host that is no number. *)
Definition resolveHostID : option Z := if String.eqb hostQuery "" then Some 0 else ParseInt hostQuery.
Definition set_dh (h : HWorld) (w : DWorld) : DWorld := mkDW h (dwFx w) (dwP w).
Definition set_dp (p : World) (w : DWorld) : DWorld := mkDW (dwH w) (dwFx w) p.
(** The host the request reached, else the one it names, else none. *)
Definition audit (action target detail : string) (w : DWorld) : DWorld :=
  set_dh (host_audit (mkAudit (match hwRec (dwH w) with Some h => h | None => default 0 (hostParam (mkReq "" "" hostQuery)) end) action target detail) (dwH w)) w.
Definition on_daemon (h : Z -> DWorld -> DWorld * DReply) (w : DWorld) : DWorld * DReply :=
  let w := set_dh (WithHostRecorder (dwH w)) w in
  match resolveHostID with None => (w, DErr 400 "no host configured") | Some hostID => h hostID w end.
Definition bad_gateway (e : string) : DReply := DErr 502 ("docker error: " +:+ e).

Definition handleListContainers : DWorld -> DWorld * DReply := on_daemon (fun host w =>
  match ListContainers fault host w with (w, Err e) => (w, bad_gateway e) | (w, Ok l) => (w, DContainers l) end).
Definition handleInspectContainer (id : string) : DWorld -> DWorld * DReply := on_daemon (fun host w =>
  match InspectContainer fault host id w with (w, Err e) => (w, bad_gateway e) | (w, Ok d) => (w, DDetail d) end).
Definition handleContainerAction (id action : string) : DWorld -> DWorld * DReply := on_daemon (fun host w =>
  match ContainerAction fault host id action w with
  | (w, Err e) => (w, if String.eqb e ErrUnknownAction then DErr 400 "unknown action" else bad_gateway e)
  | (w, Ok _) => (audit ("container." +:+ action) id "" w, DOk)
  end).

(** One line per container, whether its action worked or not. *)
Definition audit_bulk (action : string) (results : list BulkActionResult) (w : DWorld) : DWorld :=
  foldl (fun w r => audit ("container." +:+ action) (bulkID r) (if bulkOK r then "" else bulkError r) w) w results.
Definition handleBulkContainerAction (body : option (list string * string)) : DWorld -> DWorld * DReply := on_daemon (fun host w =>
  match body with
  | None => (w, DErr 400 "invalid body")
  | Some (ids, action) =>
      if negb (bulkContainerActions action) then (w, DErr 400 "action must be restart, stop, or start")
      else match ids with
      | [] => (w, DErr 400 "ids is required")
      | _ =>
          if maxBulkContainerIDs <? Z.of_nat (length ids) then (w, DErr 400 "too many containers in one request")
          else match BulkContainerAction fault order host ids action w with
               | (w, Err e) => (w, DErr 400 e)
               | (w, Ok results) =>
                   (audit_bulk action results w,
                    DBulk results (Z.of_nat (length (List.filter bulkOK results))) (Z.of_nat (length (List.filter (fun r => negb (bulkOK r)) results))))
               end
      end
  end).

Definition handleListStacks : DWorld -> DWorld * DReply := on_daemon (fun host w =>
  match ListStacks fault host w with (w, Err e) => (w, bad_gateway e) | (w, Ok l) => (w, DStacks l) end).

(** The claim of the stack's project; [Ok None] when no project deploys it. *)
Definition beginStackOp (host : Z) (stack what : string) (w : DWorld) : DWorld * result (bool * string) (option Z) :=
  match stackProject host stack (xDB (dwP w)) with
  | Err e => (w, Err (false, "could not check whether a project owns this stack: " +:+ e))
  | Ok None => (w, Ok None)
  | Ok (Some p) =>
      match beginProjectOp (pID p) what (dwP w) with
      | inr busy => (w, Err (true, errProjectBusy busy))
      | inl x => (set_dp x w, Ok (Some (pID p)))
      end
  end.
Definition release (claim : option Z) (w : DWorld) : DWorld := match claim with None => w | Some id => set_dp (release_op id (dwP w)) w end.
Definition handleStackAction (project action : string) : DWorld -> DWorld * DReply := on_daemon (fun host w =>
  match beginStackOp host project ("a stack " +:+ action) w with
  | (w, Err (busy, e)) => (w, DErr (if busy : bool then 409 else 500) e)
  | (w, Ok claim) =>
      match StackAction fault host project action w with
      | (w, Err e) => (release claim w, DFail e)
      | (w, Ok _) => (release claim (audit ("stack." +:+ action) project "" w), DOk)
      end
  end).
End Handlers.

(** ** Running jobs side by side (boundedRun)

    A job is started when a slot of the semaphore is free and frees it when it ends. *)
Record Pool := mkPool { started : nat; inflight : list nat; finished : list nat }.
Inductive boundedRun (n : nat) (concurrency : Z) : Pool -> Pool -> Prop :=
  | job_starts p : (started p < n)%nat -> Z.of_nat (length (inflight p)) < (if concurrency <? 1 then 1 else concurrency) ->
      boundedRun n concurrency p (mkPool (S (started p)) (inflight p ++ [started p]) (finished p))
  | job_ends p l i r : inflight p = l ++ i :: r -> boundedRun n concurrency p (mkPool (started p) (l ++ r) (finished p ++ [i])).
Definition idle : Pool := mkPool 0 [] [].

(** a bulk run is bounded and complete.  However the jobs interleave, no more than
    the limit are under way at once; and a run that can go no further has finished every
    job exactly once. *)
Theorem bounded_run_completes n concurrency p : rtc (boundedRun n concurrency) idle p ->
  Z.of_nat (length (inflight p)) <= Z.max 1 concurrency /\
  ((forall q, ~ boundedRun n concurrency p q) -> finished p ≡ₚ seq 0 n).
Proof.
  set (lim := if concurrency <? 1 then 1 else concurrency). assert (Hlim : lim = Z.max 1 concurrency) by (unfold lim; destruct (concurrency <? 1) eqn:E; bsimp; lia).
  intros H. assert (Hinv : Z.of_nat (length (inflight p)) <= lim /\ (started p <= n)%nat /\ finished p ++ inflight p ≡ₚ seq 0 (started p)).
  { assert (H0 : Z.of_nat (length (inflight idle)) <= lim /\ (started idle <= n)%nat /\ finished idle ++ inflight idle ≡ₚ seq 0 (started idle)) by (cbn; split; [lia|split; [lia|done]]).
    revert H0. induction H as [|p q r Hs _ IH]; [done|]. intros (H1 & H2 & H3). apply IH. clear IH. destruct Hs as [p Hlt Hfree|p l i t Hp]; cbn [started inflight finished].
    - fold lim in Hfree. rewrite length_app. cbn [length]. split; [lia|]. split; [lia|]. rewrite seq_S, app_assoc, H3. done.
    - rewrite Hp in H1, H3. rewrite length_app in H1 |- *. cbn [length] in H1. split; [lia|]. split; [done|]. rewrite <- H3. rewrite <- !app_assoc. cbn [app]. solve_Permutation. }
  destruct Hinv as (H1 & H2 & H3). split; [lia|]. intros Hstuck. destruct (inflight p) as [|i l] eqn:Ep.
  - rewrite app_nil_r in H3. destruct (decide (started p = n)) as [Heq|Hne]; [by rewrite <- Heq|]. exfalso. eapply Hstuck. apply job_starts; [lia|]. rewrite Ep. fold lim. cbn. lia.
  - exfalso. eapply Hstuck. apply (job_ends n concurrency p [] i l). exact Ep.
Qed.

(** ** What the operations ask of a daemon *)
(** A cached connection is filed under its host. *)
Definition conns_named (h : HWorld) : Prop := forall id c, hwClients h !! id = Some c -> hrID (cnRow c) = id.

(** Nothing but connections, the recorder and the daemon's trace: [ops] were asked of the
    daemon that [hostID] means, which is then the recorded host if there was none. *)
Definition asked `{C : Cipher} (fault : HQuery -> bool) (hostID : Z) (ops : list DOp) (w w' : DWorld) : Prop :=
  hwDB (dwH w') = hwDB (dwH w) /\ hwAudit (dwH w') = hwAudit (dwH w) /\ dwP w' = dwP w /\ conns_named (dwH w') /\
  (hwRec (dwH w') = hwRec (dwH w) \/ (hwRec (dwH w) = None /\ exists h, hwRec (dwH w') = Some h /\ ResolveHostID fault hostID (hwDB (dwH w)) = Ok h)) /\
  exists h, dwFx w' = dwFx w ++ ((fun op => (h, op)) <$> ops) /\
    (ops <> [] -> ResolveHostID fault hostID (hwDB (dwH w)) = Ok h /\ hwRec (dwH w') <> None).

Section Asked.
Context `{C : Cipher} `{TE : TextEnv} `{X : Dialer} `{MB : Moby} (fault : HQuery -> bool).

Lemma asked_nil hostID w : conns_named (dwH w) -> asked fault hostID [] w w.
Proof. intros Hn. split; [done|]. split; [done|]. split; [done|]. split; [done|]. split; [by left|]. exists 0. cbn. by rewrite app_nil_r. Qed.

Lemma asked_trans hostID ops1 ops2 w1 w2 w3 : asked fault hostID ops1 w1 w2 -> asked fault hostID ops2 w2 w3 -> asked fault hostID (ops1 ++ ops2) w1 w3.
Proof.
  intros (A1 & A2 & A3 & A4 & A5 & h1 & A6 & A7) (B1 & B2 & B3 & B4 & B5 & h2 & B6 & B7). rewrite A1 in B1, B5, B7. rewrite A6 in B6.
  split; [done|]. split; [congruence|]. split; [congruence|]. split; [done|]. split.
  { destruct B5 as [B5|[B5 B5']]; [rewrite B5; exact A5|]. destruct A5 as [A5|(A5 & h & A5' & _)]; [right; split; [congruence|done]|congruence]. }
  assert (Hkeep : hwRec (dwH w2) <> None -> hwRec (dwH w3) <> None) by (destruct B5 as [->|[-> _]]; [done|done]).
  destruct ops1 as [|o1 ops1]; [exists h2; rewrite B6; cbn; by rewrite app_nil_r|]. destruct (A7 ltac:(done)) as [Hr1 Hrec1]. exists h1. split.
  - destruct ops2 as [|o2 ops2]; [rewrite B6; cbn; by rewrite !app_nil_r|]. destruct (B7 ltac:(done)) as [Hr2 _].
    assert (h2 = h1) as -> by congruence. by rewrite B6, fmap_app, app_assoc.
  - auto.
Qed.

Lemma HostByID_id id d h : HostByID fault id d = Ok h -> hrID h = id.
Proof. intros (r & _ & <- & ->)%HostByID_in. apply decrypt_kind. Qed.

Lemma daemon_asked hostID w w' r : conns_named (dwH w) -> daemon fault hostID w = (w', r) ->
  asked fault hostID [] w w' /\ forall c, r = Ok c -> ResolveHostID fault hostID (hwDB (dwH w)) = Ok (hrID (cnRow c)) /\ hwRec (dwH w') <> None.
Proof.
  intros Hn. unfold daemon. destruct (Client fault moby_net no_one hostID (dwH w)) as [h1 r1] eqn:E.
  destruct (client_adds fault moby_net hostID (dwH w) h1 r1 E) as (Hdb & Haud & _).
  assert (Hcore : conns_named h1 /\ (hwRec h1 = hwRec (dwH w) \/ (hwRec (dwH w) = None /\ exists h, hwRec h1 = Some h /\ ResolveHostID fault hostID (hwDB (dwH w)) = Ok h)) /\
    forall c, r1 = Ok c -> ResolveHostID fault hostID (hwDB (dwH w)) = Ok (hrID (cnRow c)) /\ hwRec h1 <> None).
  { unfold Client in E. unfold ResolveHostID.
    assert (Hsame : (if hostID <=? 0 then defaultHostID fault (hwDB (dwH w)) else Ok hostID) = (if 0 <? hostID then Ok hostID else defaultHostID fault (hwDB (dwH w))))
      by (destruct (hostID <=? 0) eqn:E1, (0 <? hostID) eqn:E2; bsimp; try done; lia).
    rewrite Hsame in E. destruct (if 0 <? hostID then Ok hostID else defaultHostID fault (hwDB (dwH w))) as [i|e]; [|injection E as <- <-; split; [done|split; [by left|done]]].
    assert (Hrec : forall x, hwRec x = match hwRec (dwH w) with None => Some i | r => r end -> hwRec x = hwRec (dwH w) \/ (hwRec (dwH w) = None /\ exists h, hwRec x = Some h /\ @Ok StoreErr Z i = Ok h)).
    { intros x ->. destruct (hwRec (dwH w)); [by left|right; split; [done|by exists i]]. }
    assert (Hnn : match hwRec (dwH w) with None => Some i | r => r end <> None) by (by destruct (hwRec (dwH w))).
    cbn [hwClients recordHost hwDB] in E. destruct (hwClients (dwH w) !! i) as [c|] eqn:Ec.
    { injection E as <- <-. split; [exact Hn|]. split; [by apply Hrec|]. intros c0 [= <-]. by rewrite (Hn _ _ Ec). }
    destruct (HostByID fault i (hwDB (dwH w))) as [h|e] eqn:Eh; [|injection E as <- <-; split; [exact Hn|split; [by apply Hrec|done]]].
    destruct (buildClient moby_net h) as [c|e] eqn:Eb; [|injection E as <- <-; split; [exact Hn|split; [by apply Hrec|done]]].
    unfold publish, no_one in E. cbn [hwClients recordHost] in E. rewrite Ec in E. injection E as <- <-.
    apply build_trusted in Eb as [Hrow _]. apply HostByID_id in Eh. split; [|split; [by apply Hrec|]].
    - intros k c0. cbn. destruct (decide (k = i)) as [->|Hne]; [rewrite lookup_insert_eq; intros [= <-]; by rewrite Hrow|rewrite lookup_insert_ne by done; apply Hn].
    - intros c0 [= <-]. by rewrite Hrow, Eh. }
  destruct Hcore as (H1 & H2 & H3). intros H. assert (w' = mkDW h1 (dwFx w) (dwP w)) as -> by (destruct r1; congruence). split.
  - split; [done|]. split; [done|]. split; [done|]. split; [done|]. split; [exact H2|]. exists 0. cbn. by rewrite app_nil_r.
  - intros c ->. apply H3. destruct r1; [congruence|done].
Qed.
End Asked.

Section Operations.
Context `{C : Cipher} `{TE : TextEnv} `{X : Dialer} `{MB : Moby} (fault : HQuery -> bool).

Lemma perform_asked hostID c op w w' r : conns_named (dwH w) -> ResolveHostID fault hostID (hwDB (dwH w)) = Ok (hrID (cnRow c)) -> hwRec (dwH w) <> None ->
  perform c op w = (w', r) -> asked fault hostID [op] w w'.
Proof.
  intros Hn Hr Hrec [= <- _]. split; [done|]. split; [done|]. split; [done|]. split; [done|]. split; [by left|]. exists (hrID (cnRow c)). done.
Qed.

(** A failed connection asks nothing; a known action is asked of the one container. *)
Lemma action_asked hostID id action w w' r : conns_named (dwH w) -> ContainerAction fault hostID id action w = (w', r) ->
  (asked fault hostID [] w w' /\ is_ok r = false) \/ exists op, action_op action id = Some op /\ asked fault hostID [op] w w'.
Proof.
  intros Hn. unfold ContainerAction, mbind, stM_bind. destruct (daemon fault hostID w) as [w1 [c|e]] eqn:E.
  - apply daemon_asked in E as [Ha Hc]; [|done]. destruct (Hc c eq_refl) as [Hr Hrec]. destruct (action_op action id) as [op|] eqn:Eop.
    + intros H. right. exists op. split; [done|]. pose proof Ha as (Hdb & _ & _ & Hn1 & _). rewrite <- Hdb in Hr.
      exact (asked_trans fault hostID [] [op] w w1 w' Ha (perform_asked hostID c op w1 w' r Hn1 Hr Hrec H)).
    + intros [= <- <-]. by left.
  - apply daemon_asked in E as [Ha _]; [|done]. intros [= <- <-]. by left.
Qed.

Lemma ListContainers_asked hostID w w' r : conns_named (dwH w) -> ListContainers fault hostID w = (w', r) -> asked fault hostID [] w w'.
Proof.
  intros Hn. unfold ListContainers, mbind, stM_bind, ask. destruct (daemon fault hostID w) as [w1 [c|e]] eqn:E; apply daemon_asked in E as [Ha _]; [|done| |done].
  - destruct (ContainerList (dwFx w1) c) as [l|e]; intros [= <- _]; exact Ha.
  - intros [= <- _]. exact Ha.
Qed.
Lemma StackContainerIDs_asked hostID project w w' r : conns_named (dwH w) -> StackContainerIDs fault hostID project w = (w', r) -> asked fault hostID [] w w'.
Proof.
  intros Hn. unfold StackContainerIDs, mbind, stM_bind. destruct (ListContainers fault hostID w) as [w1 [l|e]] eqn:E; apply ListContainers_asked in E; [|done| |done]; by intros [= <- _].
Qed.

(** What a known action asks of a set of containers. *)
Definition op_of (action id : string) : list DOp := match action_op action id with Some op => [op] | None => [] end.

Lemma bulk_one_asked hostID action id w w' r : conns_named (dwH w) -> bulk_one fault hostID action id w = (w', r) ->
  bulkID r = id /\ exists ops, asked fault hostID ops w w' /\ ops `sublist_of` op_of action id /\ (bulkOK r = true -> ops = op_of action id).
Proof.
  intros Hn. unfold bulk_one. destruct (ContainerAction fault hostID id action w) as [w1 [[]|e]] eqn:E; intros [= <- <-];
    (split; [done|]); apply action_asked in E as [[Ha Hok]|(op & Hop & Ha)]; try done; unfold op_of.
  - exists [op]. rewrite Hop. done.
  - exists []. split; [done|]. split; [apply sublist_nil_l|done].
  - exists [op]. by rewrite Hop.
Qed.

Lemma run_in_order_asked hostID action ids order : forall w w' rs, conns_named (dwH w) -> run_in_order fault hostID action ids order w = (w', rs) ->
  fst <$> rs = order /\ Forall (fun r : nat * BulkActionResult => bulkID r.2 = default "" (ids !! r.1)) rs /\
  exists ops, asked fault hostID ops w w' /\ ops `sublist_of` (order ≫= fun i => op_of action (default "" (ids !! i))) /\
    (Forall (fun r : nat * BulkActionResult => bulkOK r.2 = true) rs -> ops = (order ≫= fun i => op_of action (default "" (ids !! i)))).
Proof.
  induction order as [|i order IH]; intros w w' rs Hn; cbn [run_in_order].
  - intros [= <- <-]. split; [done|]. split; [constructor|]. exists []. split; [by apply asked_nil|]. split; [apply sublist_nil_l|done].
  - destruct (bulk_one fault hostID action (default "" (ids !! i)) w) as [w1 r] eqn:E1. destruct (run_in_order fault hostID action ids order w1) as [w2 rs2] eqn:E2.
    intros [= <- <-]. apply bulk_one_asked in E1 as (Hid & ops1 & Ha1 & Hs1 & Ho1); [|done]. pose proof Ha1 as (_ & _ & _ & Hn1 & _).
    apply IH in E2 as (Hf & Hids & ops2 & Ha2 & Hs2 & Ho2); [|done]. split; [cbn; by f_equal|]. split; [by constructor|].
    exists (ops1 ++ ops2). split; [by eapply asked_trans|]. split; [by apply sublist_app|]. intros Hall. apply Forall_cons in Hall as [H1 H2]. cbn in H1.
    cbn. by rewrite Ho1, Ho2.
Qed.

Lemma first_dup_none seen ids : first_dup seen ids = "" -> Forall (fun id => id <> "") ids -> NoDup ids /\ forall id, id ∈ ids -> id ∉ seen.
Proof.
  revert seen. induction ids as [|id ids IH]; intros seen; cbn [first_dup]; [intros _ _; split; [constructor|by intros id ?%elem_of_nil]|].
  intros H Hne. apply Forall_cons in Hne as [Hid Hne]. destruct (one_of id seen) eqn:E; [by rewrite H in Hid|].
  assert (id ∉ seen) by (intros Hin; apply one_of_true in Hin; congruence).
  apply IH in H as [Hnd Hseen]; [|done]. split.
  - constructor; [|done]. intros Hin. apply (Hseen id Hin). by left.
  - intros x [->|Hx]%elem_of_cons; [done|]. intros Hin. apply (Hseen x Hx). by right.
Qed.

Lemma result_at_in rs i r : NoDup (fst <$> rs) -> (i, r) ∈ rs -> result_at rs i = r.
Proof.
  unfold result_at. induction rs as [|[j x] rs IH]; [by intros _ ?%elem_of_nil|]. cbn. intros Hnd. apply NoDup_cons in Hnd as [Hni Hnd].
  intros [[= -> ->]|Hin]%elem_of_cons; [by rewrite Nat.eqb_refl|]. destruct (j =? i)%nat eqn:E; [|by apply IH].
  apply Nat.eqb_eq in E as ->. exfalso. apply Hni. apply list_elem_of_fmap. by exists (i, r).
Qed.
End Operations.

Lemma bind_perm {A B} (f : A -> list B) l1 l2 : l1 ≡ₚ l2 -> (l1 ≫= f) ≡ₚ (l2 ≫= f).
Proof. induction 1 as [|x l1 l2 _ IH|x y l|l1 l2 l3 _ IH1 _ IH2]; cbn; [done|by rewrite IH| |by rewrite IH1]. rewrite !app_assoc. f_equiv. apply Permutation_app_comm. Qed.
Lemma bind_indices {B} (f : string -> list B) ids : (seq 0 (length ids) ≫= fun i => f (default "" (ids !! i))) = (ids ≫= f).
Proof.
  induction ids as [|id ids IH]; [done|]. cbn [length seq]. rewrite <- seq_shift. cbn. f_equal. rewrite <- IH. clear IH.
  induction (seq 0 (length ids)) as [|i l IHl]; [done|]. cbn. by rewrite IHl.
Qed.

Section Bulk.
Context `{C : Cipher} `{TE : TextEnv} `{X : Dialer} `{MB : Moby} (fault : HQuery -> bool).
Context (order : nat -> list nat) (order_perm : forall n, order n ≡ₚ seq 0 n).

Lemma bulk_asked hostID ids action w w' r : conns_named (dwH w) -> BulkContainerAction fault order hostID ids action w = (w', r) ->
  match r with
  | Err _ => w' = w /\ FirstDuplicateID ids <> ""
  | Ok rs => FirstDuplicateID ids = "" /\ bulkID <$> rs = ids /\
      exists ops, asked fault hostID ops w w' /\ ops ⊆+ (ids ≫= op_of action) /\ (Forall (fun r => bulkOK r = true) rs -> ops ≡ₚ (ids ≫= op_of action))
  end.
Proof.
  intros Hn. unfold BulkContainerAction. destruct (String.eqb (FirstDuplicateID ids) "") eqn:Ed; cbn [negb].
  2: { intros [= <- <-]. split; [done|by apply String.eqb_neq]. }
  apply String.eqb_eq in Ed. destruct (run_in_order _ _ _ _ _ w) as [w1 rs] eqn:E. intros [= <- <-].
  apply run_in_order_asked in E as (Hf & Hids & ops & Ha & Hs & Hall); [|done].
  assert (Hnd : NoDup rs.*1) by (rewrite Hf, order_perm; apply NoDup_seq).
  assert (Hat : forall i, (i < length ids)%nat -> (i, result_at rs i) ∈ rs).
  { intros i Hi. assert (Hin : i ∈ rs.*1) by (rewrite Hf, order_perm; apply elem_of_seq; lia). apply list_elem_of_fmap in Hin as ([j x] & Hj & Hin). cbn in Hj. subst j.
    by rewrite (result_at_in rs i x Hnd Hin). }
  rewrite Forall_forall in Hids. split; [done|]. split.
  { apply list_eq_same_length with (n := length ids); [done|by rewrite !length_fmap, length_seq|]. intros i x y Hi Hx Hy.
    rewrite !list_lookup_fmap, lookup_seq_lt in Hx by lia. cbn in Hx. injection Hx as <-. pose proof (Hids _ (Hat i Hi)) as He. cbn in He. by rewrite He, Hy. }
  exists ops. split; [done|].
  assert (Hp : (order (length ids) ≫= fun i => op_of action (default "" (ids !! i))) ≡ₚ (ids ≫= op_of action)).
  { rewrite <- (bind_indices (op_of action) ids). apply bind_perm, order_perm. }
  split; [rewrite <- Hp; by apply sublist_submseteq|]. intros Hok. rewrite <- Hp. rewrite Hall; [done|].
  apply Forall_forall. intros [i x] Hin. cbn. assert (Hi : (i < length ids)%nat).
  { assert (Hi : i ∈ rs.*1) by (apply list_elem_of_fmap; by exists (i, x)). rewrite Hf, order_perm in Hi. apply elem_of_seq in Hi. lia. }
  rewrite Forall_forall in Hok. apply Hok. apply list_elem_of_fmap. exists i. rewrite (result_at_in rs i x Hnd Hin). split; [done|]. apply elem_of_seq. lia.
Qed.

(** C18: a chosen set of one stack's containers, all or none.  The call either fails and
    asks nothing of any daemon, or the action is stop or restart, every id named is that
    of a container which, at that moment, carries the stack's label on that host, no
    container is named twice, every id gets its own result in the order asked, and the
    only requests made -- to the one daemon the host means, in whatever order the jobs
    finish -- are that action on those containers, all of them when every result is a
    success. *)
Theorem bulk_stack_all_or_nothing hostID project ids action w w' r : conns_named (dwH w) ->
  BulkStackContainerAction fault order hostID project ids action w = (w', r) ->
  match r with
  | Err _ => dwFx w' = dwFx w
  | Ok rs =>
      (action = "restart" \/ action = "stop") /\ bulkID <$> rs = ids /\ (Forall (fun id => id <> "") ids -> NoDup ids) /\
      (exists w1 cs, ListContainers fault hostID w = (w1, Ok cs) /\
        forall id, id ∈ ids -> exists c, c ∈ cs /\ csID c = id /\ label (csLabels c) labelComposeProject = project) /\
      exists ops, asked fault hostID ops w w' /\ ops ⊆+ (ids ≫= op_of action) /\ (Forall (fun r => bulkOK r = true) rs -> ops ≡ₚ (ids ≫= op_of action))
  end.
Proof.
  intros Hn. unfold BulkStackContainerAction. destruct (one_of action ["restart"; "stop"]) eqn:Ea; cbn [negb]; [|by intros [= <- <-]].
  destruct (String.eqb (TrimSpace project) ""); [by intros [= <- <-]|]. destruct ids as [|id0 ids0] eqn:Eids; [by intros [= <- <-]|]. rewrite <- Eids. clear Eids id0 ids0.
  unfold mbind, stM_bind. destruct (ListContainers fault hostID w) as [w1 [cs|e]] eqn:El.
  2: { apply ListContainers_asked in El; [|done]. intros [= <- <-]. destruct El as (_ & _ & _ & _ & _ & h & Hfx & _). by rewrite Hfx, app_nil_r. }
  pose proof (ListContainers_asked fault _ _ _ _ Hn El) as Hl. pose proof Hl as (_ & _ & _ & Hn1 & _ & h & Hfx & _). cbn in Hfx. rewrite app_nil_r in Hfx.
  destruct (List.find _ ids) as [id|] eqn:Ef; [by intros [= <- <-]|]. intros H. pose proof (bulk_asked _ _ _ _ _ _ Hn1 H) as Hb. destruct r as [rs|e]; [|destruct Hb as [-> _]; done].
  destruct Hb as (Hd & Hids & ops & Ha & Hs & Hall). split.
  { apply one_of_true in Ea. rewrite !elem_of_cons, elem_of_nil in Ea. tauto. }
  split; [done|]. split; [intros Hne; by apply (first_dup_none [] ids Hd)|]. split.
  { exists w1, cs. split; [done|]. intros id Hin. pose proof (List.find_none _ _ Ef id (proj1 (list_elem_of_In _ _) Hin)) as Hm. apply negb_false_iff, one_of_true in Hm.
    apply list_elem_of_fmap in Hm as (c & -> & [Hc Hp]%list_elem_of_In%List.filter_In). exists c. split; [by apply list_elem_of_In|]. split; [done|]. by apply String.eqb_eq. }
  exists ops. split; [exact (asked_trans fault hostID [] ops w w1 w' Hl Ha)|done].
Qed.
End Bulk.


(** ** Stacks *)
(** The stack of a project, computed from the containers that carry its label. *)
Definition stack_of (project : string) (cs : list ContainerSummary) : option StackInfo :=
  match List.filter (in_project project) cs with
  | [] => None
  | (c :: _) as l => if String.eqb project "" then None
                   else Some (mkStackInfo project (label (csLabels c) labelComposeConfigFiles) (label (csLabels c) labelComposeWorkingDir) (member_of <$> l)
                                (Z.of_nat (length (List.filter (fun c => is_running (csState c)) l))))
  end.

Lemma group_lookup cs project : foldl group_one ∅ cs !! project = stack_of project cs.
Proof.
  induction cs as [|c cs IH] using rev_ind; [done|]. rewrite foldl_app. cbn [foldl]. unfold group_one at 1. unfold stack_of in *. rewrite List.filter_app. cbn [List.filter].
  destruct (String.eqb (label (csLabels c) labelComposeProject) "") eqn:E0.
  - assert (Hc : forall p, String.eqb p "" = false -> in_project p c = false).
    { intros p Hp. unfold in_project. apply String.eqb_eq in E0. rewrite E0. apply String.eqb_neq in Hp. by apply String.eqb_neq. }
    rewrite IH. destruct (String.eqb project "") eqn:Ep.
    + destruct (List.filter (in_project project) cs ++ _); by destruct (List.filter (in_project project) cs).
    + by rewrite (Hc project Ep), app_nil_r.
  - destruct (decide (label (csLabels c) labelComposeProject = project)) as [Heq|Hne].
    + assert (in_project project c = true) as Hin by (by apply String.eqb_eq). rewrite Heq in *. rewrite Hin, lookup_insert_eq, IH.
      destruct (List.filter (in_project project) cs) as [|c0 l]; cbn [app default siProject siConfigFile siWorkingDir siContainers siRunning]; rewrite E0.
      * cbn. by destruct (is_running (csState c)).
      * assert (Hrun : forall L : list ContainerSummary, (if is_running (csState c) then Z.of_nat (length (List.filter (fun c => is_running (csState c)) L)) + 1
            else Z.of_nat (length (List.filter (fun c => is_running (csState c)) L))) = Z.of_nat (length (List.filter (fun c => is_running (csState c)) (L ++ [c])))).
        { intros L. rewrite List.filter_app, length_app. cbn [List.filter]. destruct (is_running (csState c)); cbn [length]; lia. }
        specialize (Hrun (c0 :: l)). cbn [from_option]. unfold id. cbn [siProject siConfigFile siWorkingDir siContainers siRunning].
        refine (f_equal Some _). rewrite Hrun. f_equal. symmetry. exact (fmap_app member_of (c0 :: l) [c]).
    + rewrite lookup_insert_ne by done. assert (in_project project c = false) as -> by (by apply String.eqb_neq). by rewrite app_nil_r, IH.
Qed.

#[local] Instance stack_total : Total stack_le := fun a b => total String.le (siProject a) (siProject b).
#[local] Instance stack_trans : Transitive stack_le := fun a b c => transitivity (R := String.le) (x := siProject a) (y := siProject b) (z := siProject c).

(** the stacks partition the labelled containers.  The stacks of a host come sorted by
    name, one for each project label some container carries and for no other; each holds
    exactly the containers with its label -- the ones an action on the stack by name acts
    on -- and counts those that run. *)
Theorem stacks_partition cs :
  StronglySorted stack_le (group_stacks cs) /\ NoDup (siProject <$> group_stacks cs) /\
  (forall p, p ∈ siProject <$> group_stacks cs <-> p <> "" /\ exists c, c ∈ cs /\ label (csLabels c) labelComposeProject = p) /\
  forall s, s ∈ group_stacks cs ->
    siContainers s ≡ₚ (member_of <$> List.filter (in_project (siProject s)) cs) /\
    smID <$> siContainers s ≡ₚ csID <$> List.filter (in_project (siProject s)) cs /\
    siRunning s = Z.of_nat (length (List.filter (fun m => is_running (smState m)) (siContainers s))).
Proof.
  set (m := foldl group_one ∅ cs). assert (Hm : forall p st, m !! p = Some st -> siProject st = p).
  { intros p st. unfold m. rewrite group_lookup. unfold stack_of. destruct (List.filter (in_project p) cs); [done|]. destruct (String.eqb p ""); [done|]. by intros [= <-]. }
  assert (Hnd : NoDup (siProject <$> (map_to_list m).*2)).
  { assert (siProject <$> (map_to_list m).*2 = (map_to_list m).*1) as ->; [|apply NoDup_fst_map_to_list].
    rewrite <- list_fmap_compose. apply list_fmap_ext. intros i [p st] Hi%list_elem_of_lookup_2%elem_of_map_to_list. by apply Hm. }
  assert (Hin : forall s, s ∈ group_stacks cs <-> exists p st, m !! p = Some st /\ s = sorted_stack st).
  { intros s. unfold group_stacks. rewrite merge_sort_Permutation, list_elem_of_fmap. split.
    - intros (st & -> & ([p st'] & -> & Hi%elem_of_map_to_list)%list_elem_of_fmap). by exists p, st'.
    - intros (p & st & Hp & ->). exists st. split; [done|]. apply list_elem_of_fmap. exists (p, st). split; [done|]. by apply elem_of_map_to_list. }
  split; [apply (StronglySorted_merge_sort _)|]. split.
  { unfold group_stacks. rewrite (merge_sort_Permutation stack_le). rewrite <- list_fmap_compose. exact Hnd. }
  split.
  - intros p. rewrite list_elem_of_fmap. split.
    + intros (s & -> & (q & st & Hq & ->)%Hin). cbn. rewrite (Hm q st Hq). unfold m in Hq. rewrite group_lookup in Hq. unfold stack_of in Hq.
      destruct (List.filter (in_project q) cs) as [|c l] eqn:Ef; [done|]. destruct (String.eqb q "") eqn:Ep; [done|]. apply String.eqb_neq in Ep. split; [done|].
      assert (Hc : In c (List.filter (in_project q) cs)) by (rewrite Ef; by left). apply List.filter_In in Hc as [Hc He]. exists c. split; [by apply list_elem_of_In|]. by apply String.eqb_eq.
    + intros [Hp (c & Hc & Hl)]. assert (Hf : In c (List.filter (in_project p) cs)) by (apply List.filter_In; split; [by apply list_elem_of_In|by apply String.eqb_eq]).
      destruct (m !! p) as [st|] eqn:Em.
      * exists (sorted_stack st). split; [by rewrite <- (Hm p st Em)|]. apply Hin. by exists p, st.
      * unfold m in Em. rewrite group_lookup in Em. unfold stack_of in Em. destruct (List.filter (in_project p) cs); [done|]. apply String.eqb_neq in Hp. by rewrite Hp in Em.
  - intros s (p & st & Hp & ->)%Hin. pose proof (Hm p st Hp) as Hpr. cbn. rewrite Hpr. unfold m in Hp. rewrite group_lookup in Hp. unfold stack_of in Hp.
    destruct (List.filter (in_project p) cs) as [|c l] eqn:Ef; [done|]. destruct (String.eqb p ""); [done|]. injection Hp as <-. cbn [siContainers siRunning].
    pose proof (merge_sort_Permutation member_le (member_of <$> c :: l)) as Hperm. split; [exact Hperm|]. split.
    + rewrite Hperm. rewrite <- list_fmap_compose. reflexivity.
    + assert (Hlen : forall l1 l2 : list StackMember, l1 ≡ₚ l2 -> length (List.filter (fun m => is_running (smState m)) l1) = length (List.filter (fun m => is_running (smState m)) l2)).
      { induction 1; cbn; repeat case_match; cbn; congruence. }
      assert (Hg : forall L : list ContainerSummary, length (List.filter (fun c => is_running (csState c)) L) = length (List.filter (fun m => is_running (smState m)) (member_of <$> L))).
      { induction L as [|x t IH]; [reflexivity|]. rewrite fmap_cons. cbn [List.filter]. change (is_running (smState (member_of x))) with (is_running (csState x)). destruct (is_running (csState x)); [exact (f_equal S IH)|exact IH]. }
      exact (f_equal Z.of_nat (eq_trans (Hg (c :: l)) (eq_sym (Hlen _ _ Hperm)))).
Qed.


(** ** What the handlers ask and record *)
Section HandlerLaws.
Context `{C : Cipher} `{TE : TextEnv} `{En : Engine} `{X : Dialer} `{MB : Moby} (fault : HQuery -> bool).

Lemma for_action_asked hostID action ids : forall w w' r, conns_named (dwH w) -> st_for (fun id => ContainerAction fault hostID id action) ids w = (w', r) ->
  exists ops, asked fault hostID ops w w' /\ ops `prefix_of` (ids ≫= op_of action) /\ (is_ok r = true -> ops = (ids ≫= op_of action)).
Proof.
  induction ids as [|id ids IH]; intros w w' r Hn; cbn [st_for].
  - intros [= <- <-]. exists []. split; [by apply asked_nil|]. split; [done|done].
  - unfold mbind, stM_bind. destruct (ContainerAction fault hostID id action w) as [w1 [[]|e]] eqn:E; apply action_asked in E as [[Ha Hk]|(op & Hop & Ha)]; try done.
    + intros H. pose proof Ha as (_ & _ & _ & Hn1 & _). apply IH in H as (ops & Hb & Hp & Hok); [|done]. exists ([op] ++ ops).
      split; [by eapply asked_trans|]. cbn. unfold op_of at 1 3. rewrite Hop. cbn. split; [by apply prefix_cons|]. intros Hr. by rewrite Hok.
    + intros [= <- <-]. exists []. split; [done|]. split; [apply prefix_nil|done].
    + intros [= <- <-]. exists [op]. split; [done|]. cbn. unfold op_of at 1 3. rewrite Hop. cbn. split; [apply prefix_cons, prefix_nil|done].
Qed.

Lemma for_perform_asked hostID c (f : string -> DOp) ids : forall w w' r, conns_named (dwH w) -> ResolveHostID fault hostID (hwDB (dwH w)) = Ok (hrID (cnRow c)) -> hwRec (dwH w) <> None ->
  st_for (fun id => perform c (f id)) ids w = (w', r) ->
  exists ops, asked fault hostID ops w w' /\ hwRec (dwH w') <> None /\ ops `prefix_of` (f <$> ids) /\ (is_ok r = true -> ops = f <$> ids).
Proof.
  induction ids as [|id ids IH]; intros w w' r Hn Hr Hrec; cbn [st_for].
  - intros [= <- <-]. exists []. split; [by apply asked_nil|]. done.
  - unfold mbind, stM_bind. destruct (perform c (f id) w) as [w1 r1] eqn:E. pose proof (perform_asked fault hostID c (f id) w w1 r1 Hn Hr Hrec E) as Ha.
    assert (Hw1 : dwH w1 = dwH w) by (by injection E as <- _). destruct r1 as [[]|e].
    + intros H. apply IH in H as (ops & Hb & Hrec' & Hp & Hok); [| by rewrite Hw1| by rewrite Hw1|by rewrite Hw1]. exists ([f id] ++ ops).
      split; [by eapply asked_trans|]. split; [done|]. split; [by apply prefix_cons|]. intros Hk. cbn. by rewrite Hok.
    + intros [= <- <-]. exists [f id]. split; [done|]. split; [by rewrite Hw1|]. split; [apply prefix_cons, prefix_nil|done].
Qed.

Lemma remove_networks_asked hostID c nets : forall w, conns_named (dwH w) -> ResolveHostID fault hostID (hwDB (dwH w)) = Ok (hrID (cnRow c)) -> hwRec (dwH w) <> None ->
  asked fault hostID (OpNetworkRemove <$> nets) w (remove_networks c nets w).
Proof.
  induction nets as [|n nets IH]; intros w Hn Hr Hrec; cbn [remove_networks fmap list_fmap]; [by apply asked_nil|].
  pose proof (perform_asked fault hostID c (OpNetworkRemove n) w _ _ Hn Hr Hrec eq_refl) as Ha.
  apply (asked_trans fault hostID [OpNetworkRemove n] (OpNetworkRemove <$> nets) _ _ _ Ha). by apply IH.
Qed.

Lemma daemon_same hostID w w1 c : daemon fault hostID w = (w1, Ok c) -> conns_named (dwH w) -> conns_named (dwH w1) /\ dwFx w1 = dwFx w /\ ResolveHostID fault hostID (hwDB (dwH w1)) = Ok (hrID (cnRow c)) /\ hwRec (dwH w1) <> None.
Proof.
  intros E Hn. apply daemon_asked in E as [Ha Hc]; [|done]. destruct (Hc c eq_refl) as [Hr Hrec]. destruct Ha as (Hdb & _ & _ & Hn1 & _ & h & Hfx & _).
  rewrite Hdb. cbn in Hfx. rewrite app_nil_r in Hfx. done.
Qed.

(** What an action on a whole stack asks for, given the containers it found. *)
Definition stack_ops (action : string) (ids nets : list string) : list DOp :=
  if String.eqb action "remove" then (OpRemove <$> ids) ++ (OpNetworkRemove <$> nets) else ids ≫= op_of action.

Lemma stack_action_asked hostID project action w w' r : conns_named (dwH w) -> StackAction fault hostID project action w = (w', r) ->
  exists ops, asked fault hostID ops w w' /\
    (ops = [] /\ is_ok r = false \/ one_of action ["start"; "stop"; "restart"; "remove"] = true /\
      exists w1 w2 ids nets, StackContainerIDs fault hostID project w1 = (w2, Ok ids) /\ dwFx w1 = dwFx w /\ ids <> [] /\
        ops `prefix_of` stack_ops action ids nets /\ (is_ok r = true -> exists nets, ops = stack_ops action ids nets)).
Proof.
  intros Hn. unfold StackAction, mbind, stM_bind. destruct (daemon fault hostID w) as [w1 [c|e]] eqn:E.
  2: { apply daemon_asked in E as [Ha _]; [|done]. intros [= <- <-]. exists []. split; [done|left; done]. }
  pose proof (proj1 (daemon_asked fault hostID w w1 _ Hn E)) as Ha1. destruct (daemon_same hostID w w1 c E Hn) as (Hn1 & Hfx1 & Hr1 & Hrec1).
  destruct (StackContainerIDs fault hostID project w1) as [w2 [ids|e]] eqn:Es.
  2: { apply StackContainerIDs_asked in Es; [|done]. intros [= <- <-]. exists []. split; [exact (asked_trans fault hostID [] [] _ _ _ Ha1 Es)|left; done]. }
  pose proof (StackContainerIDs_asked fault hostID project w1 w2 _ Hn1 Es) as Ha2. pose proof (asked_trans fault hostID [] [] _ _ _ Ha1 Ha2) as Ha12.
  assert (Hw2 : conns_named (dwH w2) /\ hwDB (dwH w2) = hwDB (dwH w1) /\ hwRec (dwH w2) <> None).
  { destruct Ha2 as (Hdb & _ & _ & Hn2 & [Hrc|[Hrc _]] & _); [by rewrite Hrc|done]. }
  destruct Hw2 as (Hn2 & Hdb2 & Hrec2). rewrite <- Hdb2 in Hr1.
  destruct ids as [|id0 ids0] eqn:Ei; [intros [= <- <-]; exists []; split; [exact Ha12|left; done]|]. rewrite <- Ei in *. assert (Hne : ids <> []) by (by rewrite Ei). clear Ei id0 ids0.
  destruct (one_of action ["start"; "stop"; "restart"]) eqn:Ea.
  - unfold StackActionOnIDs. rewrite Ea. intros H. apply for_action_asked in H as (ops & Hb & Hp & Hok); [|done]. exists ops.
    split; [exact (asked_trans fault hostID [] ops _ _ _ Ha12 Hb)|]. right. apply one_of_true in Ea. rewrite !elem_of_cons, elem_of_nil in Ea.
    split; [apply one_of_true; rewrite !elem_of_cons; tauto|]. exists w1, w2, ids, []. split; [done|]. split; [done|]. split; [done|].
    assert (Hso : forall nets, stack_ops action ids nets = (ids ≫= op_of action)) by (intros nets; unfold stack_ops; by destruct Ea as [->|[->|[->|[]]]]).
    rewrite Hso. split; [done|]. intros Hk. exists []. rewrite Hso. by apply Hok.
  - destruct (String.eqb action "remove") eqn:Er; [|intros [= <- <-]; exists []; split; [exact Ha12|left; done]].
    destruct (st_for (fun id => perform c (OpRemove id)) ids w2) as [w3 r3] eqn:Ef. apply (for_perform_asked hostID c OpRemove) in Ef as (ops & Hb & Hrec3 & Hp & Hok); [|done|done|done].
    pose proof (asked_trans fault hostID [] ops _ _ _ Ha12 Hb) as Ha3. apply String.eqb_eq in Er. destruct r3 as [[]|e].
    + unfold remove_stack_networks. destruct (NetworkList (dwFx w3) c project) as [nets|e].
      * intros [= <- <-]. exists (ops ++ (OpNetworkRemove <$> nets)). pose proof Hb as (Hdb3 & _ & _ & Hn3 & _). split.
        { eapply asked_trans; [exact Ha3|]. apply remove_networks_asked; [done|by rewrite Hdb3|done]. }
        right. split; [by rewrite Er|]. exists w1, w2, ids, nets. unfold stack_ops. rewrite Er. cbn [String.eqb]. rewrite (Hok eq_refl). split; [done|]. split; [done|]. split; [done|]. split; [done|by exists nets].
      * intros [= <- <-]. exists ops. split; [exact Ha3|]. right. split; [by rewrite Er|]. exists w1, w2, ids, []. unfold stack_ops. rewrite Er. cbn [String.eqb fmap list_fmap]. rewrite app_nil_r.
        split; [done|]. split; [done|]. split; [done|]. split; [done|]. intros _. exists []. cbn. rewrite app_nil_r. by apply Hok.
    + intros [= <- <-]. exists ops. split; [exact Ha3|]. right. split; [by rewrite Er|]. exists w1, w2, ids, []. unfold stack_ops. rewrite Er. cbn [String.eqb fmap list_fmap]. rewrite app_nil_r.
      split; [done|]. split; [done|]. split; [done|]. split; [done|done].
Qed.

Lemma audit_bulk_lines q action rs w : 
  dwFx (audit_bulk q action rs w) = dwFx w /\ hwRec (dwH (audit_bulk q action rs w)) = hwRec (dwH w) /\
  hwAudit (dwH (audit_bulk q action rs w)) = hwAudit (dwH w) ++
    ((fun r => mkAudit (match hwRec (dwH w) with Some h => h | None => default 0 (hostParam (mkReq "" "" q)) end) ("container." +:+ action) (bulkID r) (if bulkOK r then "" else bulkError r)) <$> rs).
Proof.
  revert w. induction rs as [|r rs IH]; intros w; [cbn; by rewrite app_nil_r|]. cbn [audit_bulk foldl]. specialize (IH (audit q ("container." +:+ action) (bulkID r) (if bulkOK r then "" else bulkError r) w)).
  unfold audit_bulk in IH. destruct IH as (-> & -> & ->). cbn. split; [done|]. split; [done|]. by rewrite <- app_assoc.
Qed.
End HandlerLaws.


(** ** The handlers *)
Section HandlerTheorems.
Context `{C : Cipher} `{TE : TextEnv} `{En : Engine} `{X : Dialer} `{MB : Moby} (fault : HQuery -> bool).

(** a bulk action is recorded container by container.  An answer with results names
    at most 200 distinct-or-empty ids, one result and one audit line per id in the order
    asked, the line with the container's own outcome and under the host the request
    reached; the successes and failures add up.  Every other answer asked nothing of a
    daemon and recorded nothing. *)
Theorem bulk_recorded hostQuery order body w w' rep : (forall n, order n ≡ₚ seq 0 n) -> conns_named (dwH w) ->
  handleBulkContainerAction fault hostQuery order body w = (w', rep) ->
  match rep with
  | DBulk rs ok failed =>
      exists ids action host, body = Some (ids, action) /\ resolveHostID hostQuery = Some host /\ bulkContainerActions action = true /\
        1 <= Z.of_nat (length ids) <= 200 /\ bulkID <$> rs = ids /\ ok + failed = Z.of_nat (length ids) /\
        (exists ops at_host, dwFx w' = dwFx w ++ ((fun op => (at_host, op)) <$> ops) /\ ops ⊆+ (ids ≫= op_of action) /\ (failed = 0 -> ops ≡ₚ (ids ≫= op_of action)) /\
          exists under, hwAudit (dwH w') = hwAudit (dwH w) ++
              ((fun r => mkAudit under ("container." +:+ action) (bulkID r) (if bulkOK r then "" else bulkError r)) <$> rs) /\
            (ops <> [] -> under = at_host /\ ResolveHostID fault host (hwDB (dwH w)) = Ok under))
  | _ => dwFx w' = dwFx w /\ hwAudit (dwH w') = hwAudit (dwH w)
  end.
Proof.
  intros Hp Hn. unfold handleBulkContainerAction, on_daemon. destruct (resolveHostID hostQuery) as [host|]; [|by intros [= <- <-]].
  destruct body as [[ids action]|]; [|by intros [= <- <-]]. destruct (bulkContainerActions action) eqn:Ea; cbn [negb]; [|by intros [= <- <-]].
  destruct ids as [|id0 ids0] eqn:Ei; [by intros [= <- <-]|]. rewrite <- Ei. assert (Hlen : (0 < length ids)%nat) by (rewrite Ei; cbn; lia). clear Ei id0 ids0.
  destruct (maxBulkContainerIDs <? Z.of_nat (length ids)) eqn:El; [by intros [= <- <-]|]. apply Z.ltb_ge in El. unfold maxBulkContainerIDs in El.
  set (w0 := set_dh (WithHostRecorder (dwH w)) w). destruct (BulkContainerAction fault order host ids action w0) as [w1 [rs|e]] eqn:E; apply bulk_asked in E; try done.
  2: { destruct E as [-> _]. by intros [= <- <-]. }
  destruct E as (_ & Hids & ops & Ha & Hs & Hall). intros [= <- <-].
  destruct (audit_bulk_lines hostQuery action rs w1) as (-> & _ & ->). destruct Ha as (_ & Haud & _ & _ & Hrec & h & Hfx & Hh).
  assert (Hsum : (length (List.filter bulkOK rs) + length (List.filter (fun r => negb (bulkOK r)) rs) = length ids)%nat).
  { rewrite <- Hids, length_fmap. clear. induction rs as [|r rs IH]; [done|]. cbn. destruct (bulkOK r); cbn; lia. }
  exists ids, action, host. split; [done|]. split; [done|]. split; [done|]. split; [lia|]. split; [done|]. split; [lia|].
  exists ops, h. split; [exact Hfx|]. split; [done|]. split.
  { intros Hf. apply Hall, Forall_forall. intros r Hr. destruct (bulkOK r) eqn:Ek; [done|]. exfalso.
    assert (Hin : In r (List.filter (fun r => negb (bulkOK r)) rs)) by (apply List.filter_In; split; [by apply list_elem_of_In|by rewrite Ek]).
    destruct (List.filter (fun r => negb (bulkOK r)) rs); [done|]. cbn in Hf. lia. }
  eexists. split; [rewrite Haud; reflexivity|]. intros Hne. destruct (Hh Hne) as [Hr Hrr]. cbn in Hr. destruct Hrec as [Hrec|(_ & k & Hk & Hkr)].
  - exfalso. apply Hrr. rewrite Hrec. done.
  - rewrite Hk. cbn in Hkr. assert (k = h) as -> by congruence. done.
Qed.

(** an action on a whole stack waits for the project that deploys it.  When a
    project's stack is acted on while an operation of the project runs, the answer is a
    conflict and nothing is asked; when it is unknown whether a project deploys it,
    nothing is asked either; otherwise the action runs, under the project's claim if there
    is one, and leaves no claim behind. *)
Theorem stack_action_waits hostQuery host project action w w' rep : conns_named (dwH w) -> resolveHostID hostQuery = Some host ->
  handleStackAction fault hostQuery project action w = (w', rep) ->
  match stackProject host project (xDB (dwP w)) with
  | Err _ => dwFx w' = dwFx w /\ dwP w' = dwP w /\ exists m, rep = DErr 500 m
  | Ok owner =>
      match owner ≫= (fun p => xOps (dwP w) !! pID p) with
      | Some busy => dwFx w' = dwFx w /\ dwP w' = dwP w /\ rep = DErr 409 (errProjectBusy busy)
      | None =>
          xOps (dwP w') = xOps (dwP w) /\ (rep = DOk \/ exists e, rep = DFail e) /\
          exists w1 w2 r, StackAction fault host project action w1 = (w2, r) /\ dwFx w1 = dwFx w /\ dwFx w' = dwFx w2 /\ (rep = DOk <-> r = Ok tt) /\
            dwP w2 = dwP w1 /\ xOps (dwP w2) = (match owner with Some p => <[pID p := "a stack " +:+ action]> (xOps (dwP w)) | None => xOps (dwP w) end)
      end
  end.
Proof.
  intros Hn Hh. unfold handleStackAction, on_daemon, beginStackOp, beginProjectOp. rewrite Hh. set (w0 := set_dh (WithHostRecorder (dwH w)) w). change (dwP w0) with (dwP w).
  destruct (stackProject host project (xDB (dwP w))) as [owner|e]; [|intros [= <- <-]; split; [done|]; split; [done|]; by eexists].
  destruct owner as [p|]; cbn [mbind option_bind].
  - destruct (xOps (dwP w) !! pID p) as [busy|] eqn:Eb; [by intros [= <- <-]|]. cbv beta iota.
    set (w1 := set_dp (set_ops (<[pID p := "a stack " +:+ action]>) (dwP w)) w0). destruct (StackAction fault host project action w1) as [w2 r] eqn:E.
    pose proof (stack_action_asked fault host project action w1 w2 r Hn E) as (ops & Ha & _). destruct Ha as (_ & _ & HP & _).
    assert (Hops : xOps (dwP w2) = <[pID p := "a stack " +:+ action]> (xOps (dwP w))) by (by rewrite HP).
    destruct r as [[]|e]; intros [= <- <-]; (split; [cbn; rewrite Hops; by apply delete_insert_id|]); (split; [eauto|]); exists w1, w2; eexists; (split; [exact E|]); by rewrite HP.
  - destruct (StackAction fault host project action w0) as [w2 r] eqn:E. pose proof (stack_action_asked fault host project action w0 w2 r Hn E) as (ops & Ha & _). destruct Ha as (_ & _ & HP & _).
    destruct r as [[]|e]; intros [= <- <-]; cbn; rewrite HP; (split; [done|]); (split; [eauto|]); exists w0, w2; eexists; (split; [exact E|]); by rewrite ?HP.
Qed.

(** an action on a whole stack is exactly its containers'.  It asks nothing and fails,
    or the action is one it knows and the stack has containers: what it asks is then a
    prefix of one request per container that carried the stack's label when they were
    listed, in the order of the list, after a removal followed by the networks of the
    stack; and the whole of it when it succeeds. *)
Theorem stack_action_exact hostID project action w w' r : conns_named (dwH w) -> StackAction fault hostID project action w = (w', r) ->
  (dwFx w' = dwFx w /\ is_ok r = false) \/
  one_of action ["start"; "stop"; "restart"; "remove"] = true /\
  exists ops h w1 w2 ids nets, StackContainerIDs fault hostID project w1 = (w2, Ok ids) /\ dwFx w1 = dwFx w /\ ids <> [] /\
    dwFx w' = dwFx w ++ ((fun op => (h, op)) <$> ops) /\ (ops <> [] -> ResolveHostID fault hostID (hwDB (dwH w)) = Ok h) /\
    ops `prefix_of` stack_ops action ids nets /\ (is_ok r = true -> exists nets, ops = stack_ops action ids nets).
Proof.
  intros Hn H. apply stack_action_asked in H as (ops & Ha & Hc); [|done]. destruct Ha as (_ & _ & _ & _ & _ & h & Hfx & Hr).
  destruct Hc as [[-> Hok]|(Ha & w1 & w2 & ids & nets & H1 & H2 & H3 & H4 & H5)].
  - left. split; [|done]. cbn in Hfx. by rewrite Hfx, app_nil_r.
  - right. split; [done|]. exists ops, h, w1, w2, ids, nets. split; [done|]. split; [done|]. split; [done|]. split; [done|]. split; [by intros Hne; apply Hr|done].
Qed.
End HandlerTheorems.
