(* ===== verification/DockerExamples.v ===== *)
(** * A concrete daemon: three containers of the stack "shop" and one of its own *)
From S2P Require Import Prelude GoStrings Users Roles Access Accounts Calendar Maintenance MaintenanceHandlers McpExamples Compose Preview ProjectStore Binds Projects ProjectSpec ProjectOutcomes ProjectExamples Hosts Docker.

Definition shop (service : string) : gmap string string := {[labelComposeProject := "shop"; labelComposeService := service]}.
Definition toy_raw (id name state : string) (labels : gmap string string) : RawContainer := mkRaw id ["/" +:+ name] "img" state "Up" 0 labels [] None.
(** Containers start and stop as asked; "c3" refuses to. *)
Definition toy_moby : Moby := {|
  moby_net _ := NoContact "no route";
  ContainerList _ _ := Ok [toy_raw "c3" "shop-db" "exited" (shop "db"); toy_raw "c1" "shop-web" "running" (shop "web"); toy_raw "c2" "shop-api" "running" (shop "api"); toy_raw "c9" "other" "running" ∅];
  ContainerInspect _ _ _ := Err "No such container";
  NetworkList _ _ p := Ok [p +:+ "_default"];
  Perform _ _ op := match op with OpStart "c3" | OpStop "c3" | OpRestart "c3" => Some "permission denied" | _ => None end
|}.
Definition edge_row : HostRow := mkHostRow 7 "edge" "tcp" "tcp://edge:2376" "" "" "" "" "" false 0.
Definition two_hosts : HDB := mkHDB [local_row; edge_row] 7.
Definition toy_world : DWorld := mkDW (fresh_hosts two_hosts) [] demo_world.
Lemma toy_named : conns_named (dwH toy_world).
Proof. intros i c. cbn. by rewrite lookup_empty. Qed.
(** The jobs finish last to first. *)
Definition backwards (n : nat) : list nat := rev (seq 0 n).
Lemma backwards_perm n : backwards n ≡ₚ seq 0 n.
Proof. symmetry. apply Permutation_rev. Qed.

Notation bulk := (BulkStackContainerAction (C := seal_cipher) (TE := ascii_text) (X := toy_dialer) (MB := toy_moby) works backwards 7) (only parsing).
Lemma bulk_stack_all_or_nothing_witness :
  match bulk "shop" ["c1"; "c3"; "c2"] "stop" toy_world with
  | (w', Ok rs) => bulkID <$> rs = ["c1"; "c3"; "c2"] /\ bulkOK <$> rs = [true; false; true] /\ dwFx w' = [(7, OpStop "c2"); (7, OpStop "c3"); (7, OpStop "c1")]
  | _ => False
  end /\
  match bulk "shop" ["c1"; "c9"] "stop" toy_world with (w', Err _) => dwFx w' = [] | _ => False end.
Proof.
  split.
  - pose proof (bulk_stack_all_or_nothing (C := seal_cipher) (TE := ascii_text) (X := toy_dialer) (MB := toy_moby) works backwards backwards_perm 7 "shop" ["c1"; "c3"; "c2"] "stop" toy_world) as H.
    assert (Hb : match bulk "shop" ["c1"; "c3"; "c2"] "stop" toy_world with (w', Ok rs) => bulkOK <$> rs = [true; false; true] /\ dwFx w' = [(7, OpStop "c2"); (7, OpStop "c3"); (7, OpStop "c1")] | _ => False end)
      by (vm_compute; split; reflexivity).
    destruct (bulk "shop" ["c1"; "c3"; "c2"] "stop" toy_world) as [w' [rs|e]]; [|done]. destruct (H w' (Ok rs) toy_named eq_refl) as (_ & Hids & _). done.
  - pose proof (bulk_stack_all_or_nothing (C := seal_cipher) (TE := ascii_text) (X := toy_dialer) (MB := toy_moby) works backwards backwards_perm 7 "shop" ["c1"; "c9"] "stop" toy_world) as H.
    assert (Hb : is_ok (bulk "shop" ["c1"; "c9"] "stop" toy_world).2 = false) by (vm_compute; reflexivity).
    destruct (bulk "shop" ["c1"; "c9"] "stop" toy_world) as [w' [rs|e]]; [done|]. exact (H w' (Err e) toy_named eq_refl).
Defined.

Lemma bounded_run_completes_witness :
  let p := mkPool 2 [0%nat; 1%nat] [] in rtc (boundedRun 3 2) idle p /\ Z.of_nat (length (inflight p)) <= Z.max 1 2.
Proof.
  intros p. assert (H : rtc (boundedRun 3 2) idle p).
  { eapply rtc_l; [|eapply rtc_l; [|apply rtc_refl]].
    - apply (job_starts 3 2 idle); [cbn; lia|cbn; lia].
    - apply (job_starts 3 2 (mkPool 1 [0%nat] [])); [cbn; lia|cbn; lia]. }
  split; [exact H|]. exact (proj1 (bounded_run_completes 3 2 p H)).
Defined.

Notation bulk_call := (handleBulkContainerAction (C := seal_cipher) (TE := ascii_text) (X := toy_dialer) (MB := toy_moby) works "7" backwards) (only parsing).
Lemma bulk_recorded_witness :
  match bulk_call (Some (["c1"; "c3"], "restart")) toy_world with
  | (w', DBulk rs ok failed) => ok = 1 /\ failed = 1 /\ bulkID <$> rs = ["c1"; "c3"] /\
      hwAudit (dwH w') = [mkAudit 7 "container.restart" "c1" ""; mkAudit 7 "container.restart" "c3" "permission denied"]
  | _ => False
  end.
Proof.
  pose proof (bulk_recorded (C := seal_cipher) (TE := ascii_text) (X := toy_dialer) (MB := toy_moby) works "7" backwards (Some (["c1"; "c3"], "restart")) toy_world) as H.
  assert (Hb : match bulk_call (Some (["c1"; "c3"], "restart")) toy_world with
    | (w', DBulk rs ok failed) => ok = 1 /\ failed = 1 /\ hwAudit (dwH w') = [mkAudit 7 "container.restart" "c1" ""; mkAudit 7 "container.restart" "c3" "permission denied"]
    | _ => False end) by (vm_compute; repeat split; reflexivity).
  destruct (bulk_call (Some (["c1"; "c3"], "restart")) toy_world) as [w' rep]. destruct rep; try contradiction.
  destruct Hb as (H1 & H2 & H3). destruct (H w' (DBulk results succeeded failed) backwards_perm toy_named eq_refl) as (ids & action & host & [= <- <-] & _ & _ & _ & Hids & _). done.
Defined.

Notation stack_call := (handleStackAction (C := seal_cipher) (TE := ascii_text) (En := demo_engine None) (X := toy_dialer) (MB := toy_moby) works "7" "shop") (only parsing).
Lemma stack_action_waits_witness :
  (let w := set_dp (set_ops (<[1 := "a deploy"]>) demo_world) toy_world in
   exists w', stack_call "stop" w = (w', DErr 409 (errProjectBusy "a deploy")) /\ dwFx w' = []) /\
  (exists w', stack_call "remove" toy_world = (w', DOk) /\ xOps (dwP w') = xOps demo_world /\
    dwFx w' = [(7, OpRemove "c2"); (7, OpRemove "c1"); (7, OpRemove "c3"); (7, OpNetworkRemove "shop_default")]).
Proof.
  split.
  - intros w. destruct (stack_call "stop" w) as [w' rep] eqn:E.
    pose proof (stack_action_waits (C := seal_cipher) (TE := ascii_text) (En := demo_engine None) (X := toy_dialer) (MB := toy_moby) works "7" 7 "shop" "stop" w w' rep toy_named eq_refl E) as H.
    destruct (stackProject (En := demo_engine None) 7 "shop" (xDB (dwP w))) as [owner|e] eqn:Eo; [|exfalso; vm_compute in Eo; discriminate Eo].
    assert (Hb : owner ≫= (fun p => xOps (dwP w) !! pID p) = Some "a deploy") by (vm_compute in Eo; injection Eo as <-; vm_compute; reflexivity).
    rewrite Hb in H. destruct H as (H1 & _ & ->). by exists w'.
  - destruct (stack_call "remove" toy_world) as [w' rep] eqn:E.
    pose proof (stack_action_waits (C := seal_cipher) (TE := ascii_text) (En := demo_engine None) (X := toy_dialer) (MB := toy_moby) works "7" 7 "shop" "remove" toy_world w' rep toy_named eq_refl E) as H.
    assert (Hb : match (stack_call "remove" toy_world) with (w', DOk) => dwFx w' = [(7, OpRemove "c2"); (7, OpRemove "c1"); (7, OpRemove "c3"); (7, OpNetworkRemove "shop_default")] | _ => False end)
      by (vm_compute; reflexivity).
    rewrite E in Hb. destruct rep; try contradiction. exists w'. split; [done|]. split; [|exact Hb].
    destruct (stackProject (En := demo_engine None) 7 "shop" (xDB (dwP toy_world))) as [owner|e] eqn:Eo; [|destruct H as (_ & _ & m & Hm); discriminate Hm].
    destruct (owner ≫= _); [destruct H as (_ & _ & Hm); discriminate Hm|]. exact (proj1 H).
Defined.

Lemma stack_action_exact_witness :
  match StackAction (C := seal_cipher) (TE := ascii_text) (X := toy_dialer) (MB := toy_moby) works 7 "shop" "start" toy_world with
  | (w', Err e) => e = "permission denied" /\ exists ops h, dwFx w' = (fun op => (h, op)) <$> ops /\ ops <> [] /\ ResolveHostID (C := seal_cipher) works 7 two_hosts = Ok h
  | _ => False
  end.
Proof.
  pose proof (stack_action_exact (C := seal_cipher) (TE := ascii_text) (X := toy_dialer) (MB := toy_moby) works 7 "shop" "start" toy_world) as H.
  assert (Hb : match StackAction (C := seal_cipher) (TE := ascii_text) (X := toy_dialer) (MB := toy_moby) works 7 "shop" "start" toy_world with
    | (w', Err e) => e = "permission denied" /\ dwFx w' = [(7, OpStart "c2"); (7, OpStart "c1"); (7, OpStart "c3")] | _ => False end) by (vm_compute; repeat split; reflexivity).
  destruct (StackAction (C := seal_cipher) (TE := ascii_text) (X := toy_dialer) (MB := toy_moby) works 7 "shop" "start" toy_world) as [w' [[]|e]]; [done|].
  destruct Hb as [-> Hb]. split; [done|]. destruct (H w' (Err "permission denied") toy_named eq_refl) as [[Hfx _]|(_ & ops & h & w1 & w2 & ids & nets & _ & _ & _ & Hfx & Hr & _)].
  - rewrite Hfx in Hb. discriminate Hb.
  - assert (Hne : ops <> []) by (intros ->; rewrite Hfx in Hb; discriminate Hb). exists ops, h. split; [exact Hfx|]. split; [done|]. by apply Hr.
Defined.
