(* ===== verification/StackEdit.v ===== *)
(** * The compose files of stacks started elsewhere (internal/docker/stacks.go, stacks_edit.go, internal/api/stack_handlers.go)

    Where a stack's compose file is, whether it may be edited, how it is replaced on this
    machine and over SSH, and how the stack is deployed again.  The file system of this
    machine has links and permissions; what a remote shell does with a command is a
    parameter, what it reads in the command is not. *)
From S2P Require Import Prelude GoStrings Users Roles Access Calendar Maintenance MaintenanceHandlers Config Paths Compose Preview Sandbox ProjectStore Binds Projects Hosts Docker.

(** ** The file system of this machine

    Entries are keyed by the components of their folder with every link followed, and
    their own name. *)
Inductive Ent := EFile (data : string) (mode : Z) | EDir | ELink (target : string).
#[export] Instance Ent_eq_dec : EqDecision Ent. Proof. solve_decision. Defined.
Notation LFS := (gmap (list string) Ent) (only parsing).
Inductive Errno := EACCES | EROFS | ENOENT | EOTHER.
(** An error of package os: the call, the path, the cause. *)
Record PathError := mkPathError { peOp : string; pePath : string; peErr : Errno }.

(** filepath.EvalSymlinks: the names left to walk, from the folder reached; the inner
    recursion walks, the outer counts the links followed. *)
Fixpoint eval_links (links : nat) (fs : LFS) : list string -> list string -> result Errno (list string) :=
  fix walk cur names :=
    match names with
    | [] => Ok cur
    | c :: names' =>
        if String.eqb c "" || String.eqb c "." then walk cur names'
        else if String.eqb c ".." then walk (removelast cur) names'
        else match fs !! (cur ++ [c]) with
             | None => Err ENOENT
             | Some EDir => walk (cur ++ [c]) names'
             | Some (EFile _ _) => match names' with [] => Ok (cur ++ [c]) | _ => Err EOTHER end
             | Some (ELink t) =>
                 match links with
                 | O => Err EOTHER
                 | S links => eval_links links fs (if IsAbs t then [] else cur) (Split t slash ++ names')
                 end
             end
    end.
Definition maxLinks : nat := 255.
Definition real (fs : LFS) (p : string) : result Errno (list string) := eval_links maxLinks fs [] (Split p slash).
Definition abs_path (cs : list string) : string := "/" +:+ Join cs "/".
Definition EvalSymlinks (fs : LFS) (p : string) : result FSErr string :=
  match real fs p with Ok cs => Ok (abs_path cs) | Err ENOENT => Err ENotExist | Err _ => Err EIO end.
(** The entry a call that replaces, creates or removes a name acts on: links of the
    folder are followed, a link of that name is not. *)
Definition is_dir (fs : LFS) (d : list string) : bool := match d with [] => true | _ => bool_decide (fs !! d = Some EDir) end.
Definition folder (fs : LFS) (p : string) : result Errno (list string) :=
  match real fs p with Ok d => if is_dir fs d then Ok d else Err EOTHER | Err e => Err e end.
Definition entry (fs : LFS) (p : string) : result Errno (list string) :=
  match folder fs (Dir p) with Ok d => Ok (d ++ [Base p]) | Err e => Err e end.

(** What this process runs: a CLI in a folder, a command on a host. *)
Inductive HostRun :=
  | RunLocal (dir : string) (env args : list string)
  | RunSSH (hostID : Z) (cmd stdin : string).
Inductive LocalOp := LOpen | LRead | LCreate | LWrite | LClose | LStat | LChmod | LRename | LRemove.
Class Shells := {
  (** which calls on a path fail, and how *)
  os_fault : LFS -> LocalOp -> string -> option Errno;
  os_text : PathError -> string;
  (** the name os.CreateTemp picks for a pattern *)
  temp_name : LFS -> list string -> string -> string;
  access_W : LFS -> string -> option Errno;
  username : option string;
  stack_registry_env : result string (list string * list string);
  (** `docker <args>` in a folder: the output and, when it fails, the error *)
  docker_cli : LFS -> string -> list string -> list string -> string * option string;
  eval_text : FSErr -> string;
  (** the connection and its session: [Some] is the error; then a command on it *)
  ssh_session : list HostRun -> Z -> option string;
  ssh_exec : list HostRun -> Z -> string -> string -> string * option string
}.
Class ShellsLaws (Sh : Shells) : Prop := {
  temp_fresh fs d pattern : fs !! (d ++ [temp_name fs d pattern]) = None;
  temp_plain fs d pattern : plain (temp_name fs d pattern);
  temp_shape fs d pre suf : (pre = ".dc-compose-" /\ suf = ".yml") \/ (pre = ".dc-tmp-" /\ suf = "") -> exists x, temp_name fs d (pre +:+ "*" +:+ suf) = pre +:+ x +:+ suf /\ Forall is_digit (bytes x)
}.

(** What the service sees: the daemons' side, this machine's files, what was run. *)
Record EWorld := mkEW { ewD : DWorld; ewFS : LFS; ewRun : list HostRun }.
Definition set_ed (d : DWorld) (w : EWorld) : EWorld := mkEW d (ewFS w) (ewRun w).
Definition set_fs (f : LFS) (w : EWorld) : EWorld := mkEW (ewD w) f (ewRun w).
Definition on_d {A} (m : stM DWorld string A) : stM EWorld string A := fun w => let '(d, r) := m (ewD w) in (set_ed d w, r).

Definition maxComposeBytes : Z := 1048576.
(** io.LimitReader *)
Definition head_bytes (n : Z) (s : string) : string := if Z.of_nat (String.length s) <=? n then s else stake (Z.to_nat n) s.

Fixpoint replace_byte (c : Ascii.ascii) (by_ s : string) : string :=
  match s with EmptyString => "" | String d s => (if Ascii.eqb d c then by_ else String d "") +:+ replace_byte c by_ s end.
Definition shellQuote (s : string) : string := "'" +:+ replace_byte "'"%char "'\''" s +:+ "'".

(** ** Paths of another machine *)
Definition remoteWithin (root p : string) : bool :=
  if String.eqb root "" || String.eqb p "" then false
  else
    let cleanRoot := Clean root in let cleanP := Clean p in
    if negb (HasPrefix cleanRoot "/") || negb (HasPrefix cleanP "/") then false
    else if String.eqb cleanP cleanRoot then true
    else HasPrefix cleanP (TrimSuffix cleanRoot "/" +:+ "/").
Definition underHome (p : string) : bool := existsb (fun root => remoteWithin root p) ["/home"; "/root"; "/run/user"].

Definition composeCandidates (st : StackInfo) : list string :=
  let cf := TrimSpace (match Split (siConfigFile st) ","%char with f :: _ => f | [] => "" end) in
  (if IsAbs cf then [cf] else if negb (String.eqb (siWorkingDir st) "") then [path_Join [siWorkingDir st; cf]] else [cf])
  ++ (if negb (String.eqb (siWorkingDir st) "") then [path_Join [siWorkingDir st; Base cf]] else []).

(** A stack resolved to what can be acted on. *)
Record stackTarget := mkTarget { stStack : StackInfo; stHost : HostRow; stHostID : Z; stPath : string; stWorkDir : string; stContent : string }.
Definition is_local (h : HostRow) : bool := one_of (hrKind h) ["local"; ""].
Definition is_ssh (h : HostRow) : bool := String.eqb (hrKind h) "ssh".

Section Edit.
Context `{C : Cipher} `{TE : TextEnv} `{X : Dialer} `{MB : Moby} `{Sh : Shells} (fault : HQuery -> bool).
(** The working directory of this process, for a relative folder. *)
Variable (cwd : string).

Definition localAccessHint (e : PathError) : string :=
  let runAs := match username with Some u => "user " +:+ Quote u | None => "this user" end in
  match peErr e with
  | EACCES =>
      if underHome (pePath e) then os_text e +:+ " — Docker Commander runs as " +:+ runAs +:+ " and can't reach it: under systemd the shipped unit's ProtectHome=true hides /home, /root and /run/user. Move the stack out of the home directory (e.g. to /srv) or allow the path with a drop-in, see docs/deployment.md"
      else os_text e +:+ " — Docker Commander runs as " +:+ runAs +:+ ", which has no access to it. Grant that user read access (and write access to save edits)"
  | EROFS => os_text e +:+ " — under systemd the shipped unit's ProtectSystem=strict leaves only its ReadWritePaths writable. Add the stack's directory there with a drop-in, see docs/deployment.md"
  | ENOENT => os_text e +:+ " — the file isn't visible to the Docker Commander process. If it runs in a container, bind-mount the stack's directory at the same path"
  | EOTHER => os_text e
  end.

(** os.Open and the capped read: links are followed. *)
Definition open_file (p : string) (fs : LFS) : result PathError (string * Z) :=
  match os_fault fs LOpen p with
  | Some e => Err (mkPathError "open" p e)
  | None =>
      match real fs p with
      | Err e => Err (mkPathError "open" p e)
      | Ok k => match fs !! k with Some (EFile data mode) => Ok (data, mode) | _ => Err (mkPathError "open" p EOTHER) end
      end
  end.
(** A command that ran and failed comes with its output. *)
Definition run_ssh (hostID : Z) (cmd stdin : string) : stM EWorld (option string * string) string := fun w =>
  match ssh_session (ewRun w) hostID with
  | Some e => (w, Err (None, e))
  | None =>
      (mkEW (ewD w) (ewFS w) (ewRun w ++ [RunSSH hostID cmd stdin]),
       match ssh_exec (ewRun w) hostID cmd stdin with (out, None) => Ok out | (out, Some e) => Err (Some out, e) end)
  end.
Definition head_command (path : string) : string := "head -c " +:+ FormatInt maxComposeBytes +:+ " -- " +:+ shellQuote path.
Definition readHostFile (hostID : Z) (h : HostRow) (path : string) : stM EWorld string string := fun w =>
  if is_local h then
    (w, match open_file path (ewFS w) with
        | Err e => Err (localAccessHint e)
        | Ok (data, _) =>
            match os_fault (ewFS w) LRead path with
            | Some e => Err (os_text (mkPathError "read" path e))
            | None => Ok (head_bytes maxComposeBytes data)
            end
        end)
  else if is_ssh h then
    match run_ssh hostID (head_command path) "" w with
    | (w, Ok out) => (w, Ok out)
    | (w, Err (None, e)) => (w, Err e)
    | (w, Err (Some _, e)) => (w, Err ("read over ssh failed (is the path readable by the ssh user?): " +:+ e))
    end
  else (w, Err ("the compose file lives on the host and isn't reachable over a " +:+ hrKind h +:+ " connection — open it on the host")).

(** The first candidate that can be read; [last] is the error to give otherwise. *)
Fixpoint first_readable (st : StackInfo) (h : HostRow) (id : Z) (candidates : list string) (last : option string) : stM EWorld string stackTarget :=
  match candidates with
  | [] => st_fail (default "could not resolve the compose file path" last)
  | p :: candidates =>
      let base := ToLower (Base p) in
      if negb (HasSuffix base ".yml") && negb (HasSuffix base ".yaml") then
        first_readable st h id candidates (Some ("refusing to read non-YAML path " +:+ Quote p))
      else fun w =>
        match readHostFile id h p w with
        | (w, Ok data) => (w, Ok (mkTarget st h id p (siWorkingDir st) data))
        | (w, Err e) => first_readable st h id candidates (Some e) w
        end
  end.
Definition resolveStack (hostID : Z) (project : string) : stM EWorld string stackTarget :=
  stacks ← on_d (ListStacks fault hostID);
  match List.find (fun s => String.eqb (siProject s) project) stacks with
  | None => st_fail ("stack " +:+ Quote project +:+ " not found")
  | Some st =>
      if String.eqb (siConfigFile st) "" then st_fail "this stack has no compose file recorded (its containers carry no config_files label)"
      else
        w ← st_get;
        match ResolveHostID fault hostID (hwDB (dwH (ewD w))) with
        | Err e => st_fail (db_text e)
        | Ok id =>
            match HostByID fault id (hwDB (dwH (ewD w))) with
            | Err e => st_fail (db_text e)
            | Ok h => first_readable st h id (composeCandidates st) None
            end
        end
  end.
Definition StackComposeFile (hostID : Z) (project : string) : stM EWorld string (string * string) :=
  t ← resolveStack hostID project; mret (stPath t, stContent t).

(** ** May it be edited *)
Definition outside_text (t : stackTarget) : string :=
  "the compose file (" +:+ stPath t +:+ ") is outside the stack's working directory (" +:+ stWorkDir t +:+ "), so editing it here is refused".
Definition checkContained (t : stackTarget) (fs : LFS) : string :=
  if is_local (stHost t) then
    match canonicalDir (EvalSymlinks fs) cwd (stWorkDir t) with
    | Err e => "working directory " +:+ Quote (stWorkDir t) +:+ " is not readable: " +:+ eval_text e
    | Ok root => match relWithin (EvalSymlinks fs) cwd root (stPath t) with Some _ => "" | None => outside_text t end
    end
  else if remoteWithin (stWorkDir t) (stPath t) then "" else outside_text t.
(** "" when it may. *)
Definition editableReason (t : stackTarget) (fs : LFS) : string :=
  if negb (is_local (stHost t)) && negb (is_ssh (stHost t)) then
    "the compose file lives on the host and a " +:+ hrKind (stHost t) +:+ " connection exposes no filesystem — edit it on the host itself"
  else if String.eqb (stWorkDir t) "" then
    "this stack records no working directory (no com.docker.compose.project.working_dir label), so there is nothing to scope an edit to"
  else checkContained t fs.
Definition dirWritable (dir : string) (fs : LFS) : option Errno := access_W fs dir.
Definition writableReason (t : stackTarget) (fs : LFS) : string :=
  if is_local (stHost t) then
    match dirWritable (Dir (stPath t)) fs with Some e => localAccessHint (mkPathError "write" (Dir (stPath t)) e) | None => "" end
  else "".
Record StackComposeView := mkView { svPath : string; svContent : string; svEditable : bool; svRedeployable : bool; svReason : string }.
Definition StackCompose (hostID : Z) (project : string) : stM EWorld string StackComposeView :=
  t ← resolveStack hostID project;
  w ← st_get;
  let reason := editableReason t (ewFS w) in
  let redeployable := String.eqb reason "" in
  let reason := if String.eqb reason "" then writableReason t (ewFS w) else reason in
  mret (mkView (stPath t) (stContent t) (String.eqb reason "") redeployable reason).

(** ** Replacing the file on this machine *)
Definition CreateTemp (dir pattern : string) (fs : LFS) : LFS * result PathError string :=
  match os_fault fs LCreate dir with
  | Some e => (fs, Err (mkPathError "open" dir e))
  | None =>
      match folder fs dir with
      | Err e => (fs, Err (mkPathError "open" dir e))
      | Ok d => let base := temp_name fs d pattern in (<[d ++ [base] := EFile "" 384]> fs, Ok (dir +:+ "/" +:+ base))
      end
  end.
(** A call on a name this process just made: [None] is no error. *)
Definition on_entry (op : LocalOp) (name call : string) (f : Ent -> Ent) (fs : LFS) : LFS * option PathError :=
  match os_fault fs op name with
  | Some e => (fs, Some (mkPathError call name e))
  | None =>
      match entry fs name with
      | Err e => (fs, Some (mkPathError call name e))
      | Ok k => match fs !! k with None => (fs, Some (mkPathError call name ENOENT)) | Some e => (<[k := f e]> fs, None) end
      end
  end.
Definition WriteString (name content : string) : LFS -> LFS * option PathError :=
  on_entry LWrite name "write" (fun e => match e with EFile _ mode => EFile content mode | e => e end).
Definition Chmod (name : string) (mode : Z) : LFS -> LFS * option PathError :=
  on_entry LChmod name "chmod" (fun e => match e with EFile data _ => EFile data mode | e => e end).
Definition CloseFile (name : string) (fs : LFS) : option PathError := mkPathError "close" name <$> os_fault fs LClose name.
(** os.Rename onto a file or a link replaces it. *)
Definition Rename (old new : string) (fs : LFS) : LFS * option PathError :=
  match os_fault fs LRename new with
  | Some e => (fs, Some (mkPathError "rename" old e))
  | None =>
      match entry fs old, entry fs new with
      | Ok ko, Ok kn =>
          match fs !! ko, fs !! kn with
          | Some e, Some EDir => (fs, Some (mkPathError "rename" old EOTHER))
          | Some e, _ => (<[kn := e]> (delete ko fs), None)
          | None, _ => (fs, Some (mkPathError "rename" old ENOENT))
          end
      | Err e, _ | _, Err e => (fs, Some (mkPathError "rename" old e))
      end
  end.
(** os.Remove of a temporary file, its error ignored *)
Definition Remove (name : string) (fs : LFS) : LFS :=
  match os_fault fs LRemove name, entry fs name with
  | None, Ok k => match fs !! k with Some EDir | None => fs | _ => delete k fs end
  | _, _ => fs
  end.

Definition writeSiblingAtomic (path content : string) (mode : Z) (fs : LFS) : LFS * option PathError :=
  match CreateTemp (Dir path) ".dc-tmp-*" fs with
  | (fs, Err e) => (fs, Some e)
  | (fs, Ok tmp) =>
      let '(fs, e) :=
        match WriteString tmp content fs with
        | (fs, Some e) => (fs, Some e)
        | (fs, None) =>
            match CloseFile tmp fs with
            | Some e => (fs, Some e)
            | None => match Chmod tmp mode fs with (fs, Some e) => (fs, Some e) | (fs, None) => Rename tmp path fs end
            end
        end in
      (Remove tmp fs, e)
  end.

Definition dcBackupSuffix : string := ".dc-prev".
(** The command line of runComposeFiles. *)
Definition compose_args (slug : string) (files args : list string) : list string :=
  ["compose"; "-p"; slug] ++ flat_map (fun f => if String.eqb (TrimSpace f) "" then [] else ["-f"; TrimSpace f]) files ++ args.
Definition stat_mode (path : string) (fs : LFS) : option Z :=
  match os_fault fs LStat path with
  | Some _ => None
  | None => match real fs path with Ok k => match fs !! k with Some (EFile _ mode) => Some mode | _ => None end | Err _ => None end
  end.
(** [None] is success. *)
Definition writeLocal (t : stackTarget) (content : string) (fs : LFS) : LFS * option string :=
  match CreateTemp (Dir (stPath t)) ".dc-compose-*.yml" fs with
  | (fs, Err e) => (fs, Some ("cannot write next to the compose file (" +:+ Dir (stPath t) +:+ "): " +:+ localAccessHint e))
  | (fs, Ok tmp) =>
      let '(fs, e) :=
        match WriteString tmp content fs with
        | (fs, Some e) => (fs, Some (os_text e))
        | (fs, None) =>
            match CloseFile tmp fs with
            | Some e => (fs, Some (os_text e))
            | None =>
                let '(mode, fs) := match stat_mode (stPath t) fs with Some m => (m, (Chmod tmp m fs).1) | None => (384, fs) end in
                match docker_cli fs (stWorkDir t) [] (compose_args (siProject (stStack t)) [tmp] ["config"; "--quiet"]) with
                | (out, Some _) => (fs, Some ("compose rejected the edited file, so nothing was changed:" +:+ newline +:+ TrimSpace out))
                | (_, None) =>
                    match writeSiblingAtomic (stPath t +:+ dcBackupSuffix) (stContent t) mode fs with
                    | (fs, Some e) => (fs, Some ("could not save the previous version, so the edit was not applied: " +:+ os_text e))
                    | (fs, None) => match Rename tmp (stPath t) fs with (fs, e) => (fs, os_text <$> e) end
                    end
                end
            end
        end in
      (Remove tmp fs, e)
  end.

(** ** Replacing it over SSH *)
Definition dquote : string := String (Ascii.ascii_of_nat 34) "".
Definition tmp_var : string := dquote +:+ "$tmp" +:+ dquote.
Definition bak_var : string := dquote +:+ "$bak" +:+ dquote.
Definition write_script (t : stackTarget) : string :=
  let dir := Dir (stPath t) in
  Join [
    "set -e";
    "tmp=$(mktemp " +:+ shellQuote (dir +:+ "/.dc-compose-XXXXXX") +:+ ")";
    "bak=$(mktemp " +:+ shellQuote (dir +:+ "/.dc-prev-XXXXXX") +:+ ")";
    "trap 'rm -f " +:+ tmp_var +:+ " " +:+ bak_var +:+ "' EXIT";
    "cp -p " +:+ shellQuote (stPath t) +:+ " " +:+ tmp_var;
    "cp -p " +:+ shellQuote (stPath t) +:+ " " +:+ bak_var;
    "cat > " +:+ tmp_var;
    "cd " +:+ shellQuote (stWorkDir t);
    "docker compose -p " +:+ shellQuote (siProject (stStack t)) +:+ " -f " +:+ tmp_var +:+ " config --quiet";
    "mv " +:+ bak_var +:+ " " +:+ shellQuote (stPath t +:+ dcBackupSuffix);
    "mv " +:+ tmp_var +:+ " " +:+ shellQuote (stPath t)] newline.
Definition writeOverSSH (t : stackTarget) (content : string) : stM EWorld string () := fun w =>
  match run_ssh (stHostID t) (write_script t) content w with
  | (w, Ok _) => (w, Ok tt)
  | (w, Err (out, e)) => (w, Err ("the edit was not applied on the host: " +:+ e +:+ newline +:+ TrimSpace (default "" out)))
  end.

Definition StackWriteComposeFile (hostID : Z) (project content : string) : stM EWorld string string :=
  t ← resolveStack hostID project;
  w ← st_get;
  if negb (String.eqb (editableReason t (ewFS w)) "") then st_fail (editableReason t (ewFS w))
  else if negb (String.eqb (writableReason t (ewFS w)) "") then st_fail (writableReason t (ewFS w))
  else if String.eqb (TrimSpace content) "" then st_fail "refusing to write an empty compose file — use Remove if you want the stack gone"
  else if maxComposeBytes <? Z.of_nat (String.length content) then
    st_fail ("compose file is too large (" +:+ FormatInt (Z.of_nat (String.length content)) +:+ " bytes, limit " +:+ FormatInt maxComposeBytes +:+ ")")
  else if is_local (stHost t) then fun w =>
    match writeLocal t content (ewFS w) with (fs, None) => (set_fs fs w, Ok (stPath t)) | (fs, Some e) => (set_fs fs w, Err e) end
  else if is_ssh (stHost t) then _ ← writeOverSSH t content; mret (stPath t)
  else st_fail ("unsupported host kind " +:+ Quote (hrKind (stHost t))).

(** ** Deploying it again *)
Definition sshRegistryNote : string :=
  "Note: this stack's `docker compose` runs on the SSH host itself, so private " +:+
  "images are pulled with that host's own `docker login`. This redeploy doesn't copy the " +:+
  "credentials stored under Registries to that host." +:+ newline +:+ newline.
Definition redeploy_command (workDir project path : string) : string :=
  "cd " +:+ shellQuote workDir +:+ " && docker compose -p " +:+ shellQuote project +:+ " -f " +:+ shellQuote path +:+ " up -d --build".
Definition warningLines (warnings : list string) : string :=
  foldr (fun w s => "Warning: " +:+ w +:+ newline +:+ s) (match warnings with [] => "" | _ => newline end) warnings.
(** The output with the error, if any. *)
Definition StackRedeploy (hostID : Z) (project : string) : EWorld -> EWorld * (string * option string) := fun w =>
  match resolveStack hostID project w with
  | (w, Err e) => (w, ("", Some e))
  | (w, Ok t) =>
      if negb (String.eqb (editableReason t (ewFS w)) "") then (w, ("", Some (editableReason t (ewFS w))))
      else if is_local (stHost t) then
        match stack_registry_env with
        | Err e => (w, ("", Some e))
        | Ok (env, warnings) =>
            let args := compose_args (siProject (stStack t)) [stPath t] ["up"; "-d"; "--build"] in
            let '(out, e) := docker_cli (ewFS w) (stWorkDir t) env args in
            (mkEW (ewD w) (ewFS w) (ewRun w ++ [RunLocal (stWorkDir t) env args]), (warningLines warnings +:+ out, e))
        end
      else if is_ssh (stHost t) then
        match run_ssh (stHostID t) (redeploy_command (stWorkDir t) (siProject (stStack t)) (stPath t)) "" w with
        | (w, Ok out) => (w, (sshRegistryNote +:+ out, None))
        | (w, Err (out, e)) => (w, (sshRegistryNote +:+ default "" out, Some e))
        end
      else (w, ("", Some ("unsupported host kind " +:+ Quote (hrKind (stHost t)))))
  end.
End Edit.

(** ** Handlers (stack_handlers.go) *)
Inductive EReply :=
  | EErr (status : Z) (msg : string) | EFail (msg : string)
  | EView (v : StackComposeView) | EPath (path : string) | EOut (ok : bool) (err output : string).
Section EditHandlers.
Context `{C : Cipher} `{TE : TextEnv} `{En : Engine} `{X : Dialer} `{MB : Moby} `{Sh : Shells} (fault : HQuery -> bool).
Variables (cwd hostQuery : string).

Definition edit_audit (action target detail : string) (w : EWorld) : EWorld := set_ed (audit hostQuery action target detail (ewD w)) w.
Definition on_host (h : Z -> EWorld -> EWorld * EReply) (w : EWorld) : EWorld * EReply :=
  let w := set_ed (set_dh (WithHostRecorder (dwH (ewD w))) (ewD w)) w in
  match resolveHostID hostQuery with None => (w, EErr 400 "no host configured") | Some hostID => h hostID w end.
Definition managed (host : Z) (project : string) (w : EWorld) : string := managedByProject host project (xDB (dwP (ewD w))).

Definition handleStackCompose (project : string) : EWorld -> EWorld * EReply := on_host (fun host w =>
  match StackCompose fault cwd host project w with
  | (w, Err e) => (w, EFail e)
  | (w, Ok v) =>
      let msg := managed host project w in
      (w, EView (if String.eqb msg "" then v else mkView (svPath v) (svContent v) false false msg))
  end).
Definition handleWriteStackCompose (project : string) (body : option string) : EWorld -> EWorld * EReply := on_host (fun host w =>
  match body with
  | None => (w, EErr 400 "invalid body")
  | Some content =>
      let msg := managed host project w in
      if negb (String.eqb msg "") then (w, EFail msg)
      else match StackWriteComposeFile fault cwd host project content w with
           | (w, Err e) => (w, EFail e)
           | (w, Ok path) => (edit_audit "stack.compose.write" project path w, EPath path)
           end
  end).
Definition handleRedeployStack (project : string) : EWorld -> EWorld * EReply := on_host (fun host w =>
  let msg := managed host project w in
  if negb (String.eqb msg "") then (w, EFail msg)
  else match StackRedeploy fault cwd host project w with
       | (w, (out, Some e)) => (edit_audit "stack.redeploy.failed" project e w, EOut false e out)
       | (w, (out, None)) => (edit_audit "stack.redeploy" project "" w, EOut true "" out)
       end).
End EditHandlers.


(** * What a change of a file touches *)

(** Later states have no folder or link the first did not have: a name still means the
    entry it meant. *)
Definition no_new_links (fs0 fs : LFS) : Prop := forall k e, fs !! k = Some e -> match e with EFile _ _ => True | _ => fs0 !! k = Some e end.
Lemma no_new_refl fs : no_new_links fs fs.
Proof. intros k e H. by destruct e. Qed.

Lemma eval_earlier fs0 fs : no_new_links fs0 fs -> forall links names cur d, eval_links links fs cur names = Ok d -> is_dir fs d = true -> eval_links links fs0 cur names = Ok d.
Proof.
  intros Hn. induction links as [|links IHl]; (induction names as [|c names IH]; intros cur d; [done|]); cbn [eval_links];
    (destruct (String.eqb c "" || String.eqb c "."); [apply IH|]); (destruct (String.eqb c ".."); [apply IH|]);
    (destruct (fs !! (cur ++ [c])) as [e|] eqn:E; [|done]); pose proof (Hn _ _ E) as He; destruct e as [data mode| |t].
  1,4: destruct names; [|done]; intros [= <-] Hd; exfalso; unfold is_dir in Hd; destruct (cur ++ [c]) eqn:Ec; [by destruct cur|]; rewrite <- Ec in Hd; apply bool_decide_eq_true in Hd; congruence.
  all: rewrite He; auto.
Qed.
Lemma folder_earlier fs0 fs p d : no_new_links fs0 fs -> folder fs p = Ok d -> folder fs0 p = Ok d.
Proof.
  intros Hn. unfold folder. destruct (real fs p) as [d'|e] eqn:E; [|done]. destruct (is_dir fs d') eqn:Ed; [|done]. intros [= <-].
  unfold real in *. rewrite (eval_earlier fs0 fs Hn _ _ _ _ E Ed). assert (is_dir fs0 d' = true) as ->; [|done].
  destruct d' as [|x l]; [done|]. cbn in Ed |- *. apply bool_decide_eq_true in Ed. apply bool_decide_eq_true. exact (Hn _ _ Ed).
Qed.
Lemma entry_earlier fs0 fs p k : no_new_links fs0 fs -> entry fs p = Ok k -> entry fs0 p = Ok k.
Proof. intros Hn. unfold entry. destruct (folder fs (Dir p)) as [d|e] eqn:E; [|done]. by rewrite (folder_earlier _ _ _ _ Hn E). Qed.

Lemma LastIndexByte_app a b : slash ∉ bytes b -> LastIndexByte (a +:+ String slash b) slash = Some (String.length a).
Proof.
  intros Hb. assert (Hn : LastIndexByte b slash = None).
  { induction b as [|c b IH]; [done|]. cbn in Hb |- *. rewrite elem_of_cons in Hb. rewrite IH by tauto. destruct (Ascii.eqb c slash) eqn:E; [|done]. apply Ascii.eqb_eq in E as ->. destruct Hb. by left. }
  induction a as [|c a IH].
  - change ("" +:+ String slash b) with (String slash b). cbn [LastIndexByte]. rewrite Hn. by rewrite Ascii.eqb_refl.
  - change (String c a +:+ String slash b) with (String c (a +:+ String slash b)). cbn [LastIndexByte]. by rewrite IH.
Qed.
Lemma Dir_is_clean p : Clean (Dir p) = Dir p.
Proof. unfold Dir. destruct (LastIndexByte p slash); [apply Clean_idem|done]. Qed.
Lemma Dir_nonempty p : Dir p <> "".
Proof.
  unfold Dir. destruct (LastIndexByte p slash); [|done]. unfold Clean, unsplit. destruct (IsAbs _); [done|]. set (q := stake _ p). pose proof (components_normal q) as Hn.
  destruct (components q) as [|c cs] eqn:E; [done|]. assert (Hc : c <> "").
  { destruct Hn as (m & names & Hcs & Hp & _). destruct m as [|m]; [|injection Hcs as -> _; done]. cbn in Hcs. subst names. apply Forall_cons in Hp as [Hp _]. apply Hp. }
  destruct c; [done|]. by destruct cs.
Qed.
Lemma Dir_below a b : Clean a = a -> a <> "" -> slash ∉ bytes b -> Dir (a +:+ "/" +:+ b) = a.
Proof.
  intros Hc Ha Hb. unfold Dir. change ("/" +:+ b) with (String slash b). rewrite LastIndexByte_app by done.
  assert (stake (S (String.length a)) (a +:+ String slash b) = a +:+ String slash "") as ->.
  { clear. induction a as [|c a IH]; [done|]. change (String c (stake (S (String.length a)) (a +:+ String slash b)) = String c (a +:+ String slash EmptyString)). by rewrite IH. }
  rewrite <- Hc at 2. unfold Clean. rewrite (IsAbs_app a _ Ha). f_equal. unfold components. rewrite (IsAbs_app a _ Ha), Split_app, clean_stack_app. done.
Qed.
Lemma Base_below a b : b <> "" -> slash ∉ bytes b -> Base (a +:+ "/" +:+ b) = b.
Proof.
  intros Hb Hs. unfold Base. change ("/" +:+ b) with (String slash b). assert (String.eqb (a +:+ String slash b) "" = false) as -> by (by destruct a).
  rewrite Split_app, (Split_single b slash Hs), filter_app, rev_app_distr. rewrite filter_cons_True by done. done.
Qed.
Lemma entry_temp fs p b : plain b -> entry fs (Dir p +:+ "/" +:+ b) = match folder fs (Dir p) with Ok d => Ok (d ++ [b]) | Err e => Err e end.
Proof.
  intros (Hb & _ & _ & Hs). unfold entry. rewrite Dir_below, Base_below by (auto using Dir_is_clean, Dir_nonempty). done.
Qed.


Definition plain_file (e : Ent) : bool := match e with EFile _ _ => true | _ => false end.
Definition file_at (fs : LFS) (k : list string) : Prop := forall e, fs !! k = Some e -> plain_file e = true.
(** Outside [P] nothing changed, and nowhere is there a new folder or link. *)
Definition but (fs0 : LFS) (P : list string -> Prop) (fs : LFS) : Prop := no_new_links fs0 fs /\ forall k, fs !! k = fs0 !! k \/ P k.
Definition means (fs : LFS) (name : string) (k : list string) : Prop := forall k', entry fs name = Ok k' -> k' = k.

Lemma no_new_trans fs1 fs2 fs3 : no_new_links fs1 fs2 -> no_new_links fs2 fs3 -> no_new_links fs1 fs3.
Proof. intros H1 H2 k e H. pose proof (H2 k e H) as Hk. destruct e; [done| |]; exact (H1 k _ Hk). Qed.
Lemma but_refl fs P : but fs P fs.
Proof. split; [apply no_new_refl|by left]. Qed.
Lemma but_trans fs1 fs2 fs3 (P Q R : list string -> Prop) : but fs1 P fs2 -> but fs2 Q fs3 -> (forall k, P k \/ Q k -> R k) -> but fs1 R fs3.
Proof.
  intros [N1 H1] [N2 H2] HR. split; [by eapply no_new_trans|]. intros k. destruct (H2 k) as [->|Hk]; [|right; apply HR; by right].
  destruct (H1 k) as [->|Hk]; [by left|right; apply HR; by left].
Qed.
Lemma but_weaken fs P (Q : list string -> Prop) fs' : but fs P fs' -> (forall k, P k -> Q k) -> but fs Q fs'.
Proof. intros [N H] HQ. split; [done|]. intros k. destruct (H k); auto. Qed.
Lemma but_insert fs k data mode : but fs (eq k) (<[k := EFile data mode]> fs).
Proof.
  split.
  - intros k' e. destruct (decide (k = k')) as [<-|Hne]; [rewrite lookup_insert_eq; by intros [= <-]|rewrite lookup_insert_ne by done]. intros H. by destruct e.
  - intros k'. destruct (decide (k = k')) as [<-|Hne]; [by right|left; by rewrite lookup_insert_ne].
Qed.
Lemma but_delete fs k : but fs (eq k) (delete k fs).
Proof.
  split.
  - intros k' e. destruct (decide (k = k')) as [<-|Hne]; [by rewrite lookup_delete_eq|rewrite lookup_delete_ne by done]. intros H. by destruct e.
  - intros k'. destruct (decide (k = k')) as [<-|Hne]; [by right|left; by rewrite lookup_delete_ne].
Qed.
Lemma means_later fs fs' P name k : but fs P fs' -> means fs name k -> means fs' name k.
Proof. intros [N _] H k' Hk. apply H. exact (entry_earlier _ _ _ _ N Hk). Qed.

Section Writes.
Context `{Sh : Shells} {SL : ShellsLaws Sh}.

Lemma create_spec p pattern fs fs' r : CreateTemp (Dir p) pattern fs = (fs', r) ->
  match r with
  | Err _ => fs' = fs
  | Ok tmp => exists d, let b := temp_name fs d pattern in folder fs (Dir p) = Ok d /\ tmp = Dir p +:+ "/" +:+ b /\ fs !! (d ++ [b]) = None /\
      fs' = <[d ++ [b] := EFile "" 384]> fs /\ means fs' tmp (d ++ [b])
  end.
Proof.
  unfold CreateTemp. destruct (os_fault fs LCreate (Dir p)); [by intros [= <- <-]|]. destruct (folder fs (Dir p)) as [d|e] eqn:E; [|by intros [= <- <-]].
  intros [= <- <-]. exists d. split; [done|]. split; [done|]. split; [apply temp_fresh|]. split; [done|].
  apply (means_later fs _ (eq (d ++ [temp_name fs d pattern]))); [apply but_insert|]. intros k'. rewrite entry_temp by apply temp_plain. rewrite E. by intros [= <-].
Qed.

Lemma on_entry_spec op name call f fs fs' r k : (forall e, plain_file e = true -> plain_file (f e) = true) -> (forall e, plain_file e = false -> f e = e) -> means fs name k ->
  on_entry op name call f fs = (fs', r) -> but fs (eq k) fs' /\ (file_at fs k -> file_at fs' k) /\ (r = None -> exists e, fs !! k = Some e /\ fs' = <[k := f e]> fs).
Proof.
  intros Hf Hl Hm. unfold on_entry. destruct (os_fault fs op name); [intros [= <- <-]; split; [apply but_refl|]; done|].
  destruct (entry fs name) as [k'|e] eqn:E; [|intros [= <- <-]; split; [apply but_refl|]; done]. apply Hm in E as ->.
  destruct (fs !! k) as [e|] eqn:Ek; [|intros [= <- <-]; split; [apply but_refl|]; done]. intros [= <- <-]. split; [|split].
  - destruct e as [data mode| |t].
    + specialize (Hf (EFile data mode) eq_refl). destruct (f (EFile data mode)); try discriminate. apply but_insert.
    + rewrite Hl by done. rewrite insert_id by done. apply but_refl.
    + rewrite Hl by done. rewrite insert_id by done. apply but_refl.
  - intros Hfile e'. rewrite lookup_insert_eq. intros [= <-]. apply Hf, Hfile, Ek.
  - intros _. by exists e.
Qed.

Lemma rename_spec old new fs fs' r ko : means fs old ko -> file_at fs ko -> Rename old new fs = (fs', r) ->
  but fs (fun k => ko = k \/ entry fs new = Ok k) fs' /\ (r <> None -> fs' = fs) /\
  (r = None -> exists kn e, entry fs old = Ok ko /\ entry fs new = Ok kn /\ fs !! ko = Some e /\ fs' = <[kn := e]> (delete ko fs)).
Proof.
  intros Hm Hf. unfold Rename. destruct (os_fault fs LRename new); [intros [= <- <-]; split; [apply but_refl|]; done|].
  destruct (entry fs old) as [k'|e] eqn:E; [|intros [= <- <-]; split; [apply but_refl|]; done]. pose proof (Hm _ E) as ->.
  destruct (entry fs new) as [kn|e] eqn:En; [|intros [= <- <-]; split; [apply but_refl|]; done].
  destruct (fs !! ko) as [e|] eqn:Eo; [|intros [= <- <-]; split; [apply but_refl|]; done].
  assert (H : (<[kn := e]> (delete ko fs), @None PathError) = (fs', r) -> but fs (fun k => ko = k \/ @Ok Errno (list string) kn = Ok k) fs' /\ (r <> None -> fs' = fs) /\
    (r = None -> exists kn' e', @Ok Errno (list string) ko = Ok ko /\ @Ok Errno (list string) kn = Ok kn' /\ Some e = Some e' /\ fs' = <[kn' := e']> (delete ko fs))).
  { intros [= <- <-]. split; [|split; [done|by exists kn, e]]. specialize (Hf e Eo). destruct e as [data mode| |]; try discriminate.
    eapply but_trans; [apply but_delete|apply but_insert|]. intros k [<-|<-]; auto. }
  destruct (fs !! kn) as [[| |]|]; auto. intros [= <- <-]. split; [apply but_refl|]; done.
Qed.

Lemma remove_spec name fs k : means fs name k -> but fs (eq k) (Remove name fs) /\ (fs !! k = None -> Remove name fs = fs).
Proof.
  intros Hm. unfold Remove. destruct (os_fault fs LRemove name); [split; [apply but_refl|done]|]. destruct (entry fs name) as [k'|e] eqn:E; [|split; [apply but_refl|done]].
  apply Hm in E as ->. destruct (fs !! k) as [[| |]|] eqn:Ek; (split; [|done]); try apply but_refl; apply but_delete.
Qed.

(** A temporary file's place: a new name in a folder. *)
Definition temp_place (fs : LFS) (dir : string) (k : list string) : Prop := fs !! k = None /\ exists d b, folder fs dir = Ok d /\ k = d ++ [b].
Lemma last_differs (d d' : list string) b b' : b <> b' -> d ++ [b] <> d' ++ [b'].
Proof. intros Hb H. apply Hb. apply (f_equal last) in H. rewrite !last_snoc in H. by injection H. Qed.

Lemma write_content mode : (forall e, plain_file e = true -> plain_file ((fun e => match e with EFile _ m => EFile mode m | e => e end) e) = true) /\
  (forall e, plain_file e = false -> (fun e => match e with EFile _ m => EFile mode m | e => e end) e = e).
Proof. split; by intros []. Qed.
Lemma chmod_content (mode : Z) : (forall e, plain_file e = true -> plain_file ((fun e => match e with EFile data _ => EFile data mode | e => e end) e) = true) /\
  (forall e, plain_file e = false -> (fun e => match e with EFile data _ => EFile data mode | e => e end) e = e).
Proof. split; by intros []. Qed.

(** The sibling is replaced, not written through; nothing else changes but temporary files. *)
Lemma sibling_spec path content mode fs fs' r : writeSiblingAtomic path content mode fs = (fs', r) ->
  but fs (fun k => entry fs path = Ok k \/ temp_place fs (Dir path) k) fs' /\
  (r = None -> exists d, folder fs (Dir path) = Ok d /\ (d ++ [Base path] <> d ++ [temp_name fs d ".dc-tmp-*"] -> fs' !! (d ++ [Base path]) = Some (EFile content mode))).
Proof.
  unfold writeSiblingAtomic. destruct (CreateTemp (Dir path) ".dc-tmp-*" fs) as [fs1 [tmp|e]] eqn:Ec; apply create_spec in Ec.
  2: { intros [= <- <-]. subst fs1. split; [apply but_refl|done]. }
  destruct Ec as (d & Hd & Htmp & Hnone & Hfs1 & Hm). set (k := d ++ [temp_name fs d ".dc-tmp-*"]) in *. set (P := fun k => entry fs path = Ok k \/ temp_place fs (Dir path) k).
  assert (HP : P k) by (right; split; [done|]; by exists d, (temp_name fs d ".dc-tmp-*")).
  assert (H1 : but fs (eq k) fs1) by (rewrite Hfs1; apply but_insert). assert (F1 : file_at fs1 k) by (rewrite Hfs1; intros e; rewrite lookup_insert_eq; by intros [= <-]).
  assert (He : forall fs2, but fs (eq k) fs2 -> forall q, entry fs2 q = entry fs2 q) by done. clear He.
  assert (Hfin : forall fs2 r', but fs P fs2 -> means fs2 tmp k -> (Remove tmp fs2, r') = (fs', r) -> (r' = None -> exists d, folder fs (Dir path) = Ok d /\ (d ++ [Base path] <> d ++ [temp_name fs d ".dc-tmp-*"] -> Remove tmp fs2 !! (d ++ [Base path]) = Some (EFile content mode))) ->
    but fs P fs' /\ (r = None -> exists d, folder fs (Dir path) = Ok d /\ (d ++ [Base path] <> d ++ [temp_name fs d ".dc-tmp-*"] -> fs' !! (d ++ [Base path]) = Some (EFile content mode)))).
  { intros fs2 r' Hb Hm2 [= <- <-] Hr. split; [|done]. eapply but_trans; [exact Hb|apply (remove_spec tmp fs2 k Hm2)|]. intros k' [?|<-]; done. }
  destruct (WriteString tmp content fs1) as [fs2 r2] eqn:Ew. destruct (on_entry_spec _ _ _ _ _ _ _ k (proj1 (write_content content)) (proj2 (write_content content)) Hm Ew) as (H2 & F2 & C2). specialize (F2 F1).
  pose proof (means_later _ _ _ _ _ H2 Hm) as Hm2. assert (B2 : but fs (eq k) fs2) by (eapply but_trans; [exact H1|exact H2|]; by intros ? [?|?]).
  destruct r2 as [e|]; [intros H; apply (Hfin _ _ (but_weaken _ _ P _ B2 ltac:(by intros ? <-)) Hm2 H); done|].
  destruct (CloseFile tmp fs2) as [e|]; [intros H; apply (Hfin _ _ (but_weaken _ _ P _ B2 ltac:(by intros ? <-)) Hm2 H); done|].
  destruct (Chmod tmp mode fs2) as [fs3 r3] eqn:Em. destruct (on_entry_spec _ _ _ _ _ _ _ k (proj1 (chmod_content mode)) (proj2 (chmod_content mode)) Hm2 Em) as (H3 & F3 & C3). specialize (F3 F2).
  pose proof (means_later _ _ _ _ _ H3 Hm2) as Hm3. assert (B3 : but fs (eq k) fs3) by (eapply but_trans; [exact B2|exact H3|]; by intros ? [?|?]).
  destruct r3 as [e|]; [intros H; apply (Hfin _ _ (but_weaken _ _ P _ B3 ltac:(by intros ? <-)) Hm3 H); done|].
  destruct (Rename tmp path fs3) as [fs4 r4] eqn:Er. destruct (rename_spec _ _ _ _ _ k Hm3 F3 Er) as (H4 & R4 & C4).
  pose proof (means_later _ _ _ _ _ H4 Hm3) as Hm4. assert (B4 : but fs P fs4).
  { eapply but_trans; [exact B3|exact H4|]. intros k' [<-|[<-|Hk']]; [done|done|]. left. exact (entry_earlier _ _ _ _ (proj1 B3) Hk'). }
  intros H. apply (Hfin _ _ B4 Hm4 H). intros ->. exists d. split; [done|]. intros Hne. destruct (C4 eq_refl) as (kn & e & _ & Hkn & Hke & Hfs4).
  assert (kn = d ++ [Base path]) as -> by (apply (entry_earlier fs) in Hkn; [|apply B3]; unfold entry in Hkn; rewrite Hd in Hkn; by injection Hkn).
  destruct (C2 eq_refl) as (e2 & He2 & Hfs2). destruct (C3 eq_refl) as (e3 & He3 & Hfs3). rewrite Hfs1, lookup_insert_eq in He2. injection He2 as <-.
  rewrite Hfs2, lookup_insert_eq in He3. injection He3 as <-. rewrite Hfs3, lookup_insert_eq in Hke. injection Hke as <-. cbn in Hfs4.
  rewrite (proj2 (remove_spec tmp fs4 k Hm4)); rewrite Hfs4; [by rewrite lookup_insert_eq|]. by rewrite lookup_insert_ne, lookup_delete_eq by done.
Qed.
End Writes.


(** The previous version's name ends like no temporary file's. *)
Lemma Split_suffix p s : slash ∉ bytes s -> exists ws w, Split (p +:+ s) slash = ws ++ [w +:+ s].
Proof.
  intros Hs. induction p as [|c p (ws & w & IH)].
  - exists [], "". change ("" +:+ s) with s. by rewrite (Split_single s slash Hs).
  - change (String c p +:+ s) with (String c (p +:+ s)). cbn [Split]. rewrite IH. destruct (Ascii.eqb c slash); [by exists ("" :: ws), w|].
    destruct ws as [|v ws]; cbn [app]; [by exists [], (String c w)|by exists (String c v :: ws), w].
Qed.
Lemma Base_suffix p s : s <> "" -> slash ∉ bytes s -> exists w, Base (p +:+ s) = w +:+ s.
Proof.
  intros Hne Hs. destruct (Split_suffix p s Hs) as (ws & w & H). exists w. unfold Base. assert (String.eqb (p +:+ s) "" = false) as ->.
  { apply String.eqb_neq. destruct p; [done|]. done. }
  rewrite H, filter_app, rev_app_distr, filter_cons_True; [done|]. destruct w; [exact Hne|done].
Qed.
Lemma last_byte a s c : last (bytes s) = Some c -> last (bytes (a +:+ s)) = Some c.
Proof. intros H. rewrite bytes_app. rewrite last_app. by rewrite H. Qed.
Lemma prev_not_temp `{Sh : Shells} {SL : ShellsLaws Sh} fs d path pre suf :
  (pre = ".dc-compose-" /\ suf = ".yml") \/ (pre = ".dc-tmp-" /\ suf = "") -> temp_name fs d (pre +:+ "*" +:+ suf) <> Base (path +:+ dcBackupSuffix).
Proof.
  intros Hs. destruct (temp_shape fs d pre suf Hs) as (x & -> & Hx). destruct (Base_suffix path dcBackupSuffix) as [w ->]; [done|vm_compute; set_solver|].
  intros H. apply (f_equal (fun s => last (bytes s))) in H. rewrite (last_byte w dcBackupSuffix "v"%char eq_refl) in H. destruct Hs as [[-> ->]|[-> ->]].
  - rewrite (last_byte _ _ "l"%char) in H; [discriminate|]. by apply last_byte.
  - assert (bytes (".dc-tmp-" +:+ x +:+ "") = bytes ".dc-tmp-" ++ bytes x) as Hb by (by rewrite !bytes_app, app_nil_r). rewrite Hb, last_app in H.
    destruct (last (bytes x)) as [c|] eqn:E; [|by vm_compute in H]. injection H as ->. apply last_Some in E as [l E]. rewrite E in Hx. apply Forall_app in Hx as [_ Hx].
    apply Forall_cons in Hx as [Hx _]. vm_compute in Hx. destruct Hx as [_ Hx]. by apply Hx.
Qed.

Section LocalWrite.
Context `{TE : TextEnv} `{Sh : Shells} {SL : ShellsLaws Sh}.

(** Where a write may leave something behind. *)
Definition write_places (t : stackTarget) (fs : LFS) (k : list string) : Prop :=
  entry fs (stPath t) = Ok k \/ entry fs (stPath t +:+ dcBackupSuffix) = Ok k \/ temp_place fs (Dir (stPath t)) k \/ temp_place fs (Dir (stPath t +:+ dcBackupSuffix)) k.
(** What a completed write did: compose accepted the new text where it will stand. *)
Definition written (t : stackTarget) (content : string) (fs fs' : LFS) : Prop :=
  exists d fs1 tmp out, folder fs (Dir (stPath t)) = Ok d /\
    docker_cli fs1 (stWorkDir t) [] (compose_args (siProject (stStack t)) [Dir (stPath t) +:+ "/" +:+ tmp] ["config"; "--quiet"]) = (out, None) /\
    (exists mode, fs1 !! (d ++ [tmp]) = Some (EFile content mode)) /\ but fs (eq (d ++ [tmp])) fs1 /\
    forall kb, is_Some (fs !! (d ++ [Base (stPath t)])) -> entry fs (stPath t +:+ dcBackupSuffix) = Ok kb -> kb <> d ++ [Base (stPath t)] ->
      (exists mode, fs' !! (d ++ [Base (stPath t)]) = Some (EFile content mode)) /\ (exists mode, fs' !! kb = Some (EFile (stContent t) mode)).

Lemma writeLocal_spec t content fs fs' r : writeLocal t content fs = (fs', r) ->
  but fs (write_places t fs) fs' /\ (r = None -> written t content fs fs') /\
  (r <> None -> forall kp, entry fs (stPath t) = Ok kp -> is_Some (fs !! kp) -> entry fs (stPath t +:+ dcBackupSuffix) <> Ok kp -> fs' !! kp = fs !! kp).
Proof.
  unfold writeLocal. destruct (CreateTemp (Dir (stPath t)) ".dc-compose-*.yml" fs) as [fs1 [tmp|e]] eqn:Ec; apply create_spec in Ec.
  2: { intros [= <- <-]. subst fs1. split; [apply but_refl|done]. }
  destruct Ec as (d & Hd & Htmp & Hnone & Hfs1 & Hm). set (b := temp_name fs d ".dc-compose-*.yml") in *. set (k := d ++ [b]) in *. set (P := write_places t fs).
  assert (HP : P k) by (right; right; left; split; [done|]; by exists d, b).
  assert (H1 : but fs (eq k) fs1) by (rewrite Hfs1; apply but_insert). assert (F1 : file_at fs1 k) by (rewrite Hfs1; intros e; rewrite lookup_insert_eq; by intros [= <-]).
  (* an abandoned write leaves the compose file alone *)
  assert (Hbad : forall fs2 e, but fs P fs2 -> means fs2 tmp k -> (forall kp, is_Some (fs !! kp) -> entry fs (stPath t +:+ dcBackupSuffix) <> Ok kp -> fs2 !! kp = fs !! kp) ->
    (Remove tmp fs2, Some e) = (fs', r) -> but fs P fs' /\ (r = None -> written t content fs fs') /\
      (r <> None -> forall kp, entry fs (stPath t) = Ok kp -> is_Some (fs !! kp) -> entry fs (stPath t +:+ dcBackupSuffix) <> Ok kp -> fs' !! kp = fs !! kp)).
  { intros fs2 e Hb Hm2 Hkp [= <- <-]. pose proof (proj1 (remove_spec tmp fs2 k Hm2)) as Hr. split; [eapply but_trans; [exact Hb|exact Hr|]; intros k' [?|<-]; done|]. split; [done|].
    intros _ kp _ Hs Hp. destruct (proj2 Hr kp) as [->|<-]; [by apply Hkp|]. rewrite Hnone in Hs. by destruct Hs. }
  assert (Htemp : forall fs2, but fs (eq k) fs2 -> but fs P fs2 /\ forall kp, is_Some (fs !! kp) -> entry fs (stPath t +:+ dcBackupSuffix) <> Ok kp -> fs2 !! kp = fs !! kp).
  { intros fs2 Hb. split; [eapply but_weaken; [exact Hb|]; by intros ? <-|]. intros kp Hs _. destruct (proj2 Hb kp) as [?|<-]; [done|]. rewrite Hnone in Hs. by destruct Hs. }
  destruct (WriteString tmp content fs1) as [fs2 r2] eqn:Ew. destruct (on_entry_spec _ _ _ _ _ _ _ k (proj1 (write_content content)) (proj2 (write_content content)) Hm Ew) as (H2 & F2 & C2). specialize (F2 F1).
  pose proof (means_later _ _ _ _ _ H2 Hm) as Hm2. assert (B2 : but fs (eq k) fs2) by (eapply but_trans; [exact H1|exact H2|]; by intros ? [?|?]).
  destruct r2 as [e|]; [apply Hbad; [apply Htemp|done|apply Htemp]; done|]. destruct (CloseFile tmp fs2) as [e|]; [apply Hbad; [apply Htemp|done|apply Htemp]; done|].
  destruct (C2 eq_refl) as (e2 & He2 & Hfs2). rewrite Hfs1, lookup_insert_eq in He2. injection He2 as <-.
  destruct (match stat_mode (stPath t) fs2 with Some m => (m, (Chmod tmp m fs2).1) | None => (384, fs2) end) as [mode fs3] eqn:Em.
  assert (H3 : but fs2 (eq k) fs3 /\ exists m, fs3 !! k = Some (EFile content m)).
  { assert (Hk2 : fs2 !! k = Some (EFile content 384)) by (by rewrite Hfs2, lookup_insert_eq). destruct (stat_mode (stPath t) fs2) as [m|]; injection Em as <- <-; [|split; [apply but_refl|eauto]].
    destruct (Chmod tmp m fs2) as [fs3 r3] eqn:Em. destruct (on_entry_spec _ _ _ _ _ _ _ k (proj1 (chmod_content m)) (proj2 (chmod_content m)) Hm2 Em) as (H3 & F3 & C3). split; [done|].
    destruct r3 as [e|]; cbn [fst].
    - unfold Chmod, on_entry in Em. destruct (os_fault fs2 LChmod tmp); [injection Em as <- _; eauto|]. destruct (entry fs2 tmp) as [a|]; [|injection Em as <- _; eauto]. destruct (fs2 !! a); [discriminate Em|injection Em as <- _; eauto].
    - destruct (C3 eq_refl) as (e & He & ->). rewrite Hk2 in He. injection He as <-. rewrite lookup_insert_eq. eauto. }
  destruct H3 as (H3 & m & Hk3). pose proof (means_later _ _ _ _ _ H3 Hm2) as Hm3. assert (B3 : but fs (eq k) fs3) by (eapply but_trans; [exact B2|exact H3|]; by intros ? [?|?]).
  destruct (docker_cli fs3 _ _ _) as [out [ce|]] eqn:Edc; [apply Hbad; [apply Htemp|done|apply Htemp]; done|].
  destruct (writeSiblingAtomic (stPath t +:+ dcBackupSuffix) (stContent t) mode fs3) as [fs4 r4] eqn:Es. apply sibling_spec in Es as (H4 & C4).
  pose proof (means_later _ _ _ _ _ H4 Hm3) as Hm4.
  assert (B4 : but fs P fs4).
  { eapply but_trans; [exact B3|exact H4|]. intros k' [<-|[Hk|(Hk & d2 & b2 & Hd2 & ->)]]; [done| |].
    - right; left. exact (entry_earlier _ _ _ _ (proj1 B3) Hk).
    - right; right; right. split; [|exists d2, b2; split; [exact (folder_earlier _ _ _ _ (proj1 B3) Hd2)|done]]. destruct (proj2 B3 (d2 ++ [b2])) as [<-|Hk']; [done|]. rewrite <- Hk' in Hk. congruence. }
  assert (K4 : forall kp, is_Some (fs !! kp) -> entry fs (stPath t +:+ dcBackupSuffix) <> Ok kp -> fs4 !! kp = fs !! kp).
  { intros kp Hs Hp. pose proof (proj2 (Htemp fs3 B3) kp Hs Hp) as H3p. destruct (proj2 H4 kp) as [->|[Hk|[Hk _]]]; [done| |].
    - destruct Hp. exact (entry_earlier _ _ _ _ (proj1 B3) Hk).
    - rewrite <- H3p, Hk in Hs. by destruct Hs. }
  destruct r4 as [e|]; [by apply Hbad|]. destruct (C4 eq_refl) as (db & Hdb & Hprev). clear C4.
  assert (Hdb0 : entry fs (stPath t +:+ dcBackupSuffix) = Ok (db ++ [Base (stPath t +:+ dcBackupSuffix)])).
  { unfold entry. by rewrite (folder_earlier _ _ _ _ (proj1 B3) Hdb). }
  set (kb := db ++ [Base (stPath t +:+ dcBackupSuffix)]) in *.
  assert (Hkb : k <> kb) by (apply last_differs; apply (prev_not_temp fs d (stPath t) ".dc-compose-" ".yml"); by left).
  assert (Hk4 : fs4 !! k = Some (EFile content m)).
  { rewrite <- Hk3. destruct (proj2 H4 k) as [?|[Hk|[Hk _]]]; [done| |congruence]. apply (entry_earlier _ _ _ _ (proj1 B3)) in Hk. congruence. }
  destruct (Rename tmp (stPath t) fs4) as [fs5 r5] eqn:Er. destruct (rename_spec _ _ _ _ _ k Hm4 ltac:(intros e; rewrite Hk4; by intros [= <-]) Er) as (H5 & R5 & C5).
  destruct r5 as [e|]; [rewrite (R5 ltac:(done)); by apply Hbad|]. destruct (C5 eq_refl) as (kn & e & _ & Hkn & He & Hfs5). rewrite Hk4 in He. injection He as <-.
  assert (kn = d ++ [Base (stPath t)]) as -> by (apply (entry_earlier fs) in Hkn; [|apply B4]; unfold entry in Hkn; rewrite Hd in Hkn; by injection Hkn).
  pose proof (means_later _ _ _ _ _ H5 Hm4) as Hm5. intros [= <- <-]. split; [|split; [|done]].
  - eapply but_trans; [eapply but_trans; [exact B4|exact H5|]|exact (proj1 (remove_spec tmp fs5 k Hm5))|].
    + intros k' H. exact H.
    + intros k' [[?|[<-|Hk]]|<-]; [done|done| |done]. left. exact (entry_earlier _ _ _ _ (proj1 B4) Hk).
  - intros _. exists d, fs3, b, out. split; [done|]. split; [by rewrite <- Htmp|]. split; [by exists m|]. split; [done|].
    intros kb' Hs Hkb' Hne. rewrite Hdb0 in Hkb'. injection Hkb' as <-. assert (k <> d ++ [Base (stPath t)]) as Hkp by (intros Heq; rewrite <- Heq, Hnone in Hs; by destruct Hs).
    rewrite (proj2 (remove_spec tmp fs5 k Hm5)) by (by rewrite Hfs5, lookup_insert_ne, lookup_delete_eq).
    rewrite Hfs5. split; [exists m; by rewrite lookup_insert_eq|]. exists mode. rewrite lookup_insert_ne, lookup_delete_ne by done.
    apply Hprev. apply last_differs. intros Hx. apply (prev_not_temp fs3 db (stPath t) ".dc-tmp-" ""); [by right|exact (eq_sym Hx)].
Qed.
End LocalWrite.


Lemma bytes_eq a b : bytes a = bytes b -> a = b.
Proof. intros H. by rewrite <- (of_bytes_bytes a), <- (of_bytes_bytes b), H. Qed.

(** * Paths of another machine *)
Lemma unsplit_names cs : Forall plain cs -> cs <> [] -> Split (unsplit true cs) slash = "" :: cs.
Proof. intros Hp Hne. change (unsplit true cs) with (String slash (Join cs "/")). cbn [Split]. rewrite Ascii.eqb_refl. f_equal. by apply Split_Join, plain_free. Qed.
Lemma TrimSuffix_root cs : Forall plain cs -> cs <> [] -> TrimSuffix (unsplit true cs) "/" = unsplit true cs.
Proof.
  intros Hp Hne. destruct (string_snoc (unsplit true cs)) as (r & d & E); [done|]. rewrite E, TrimSuffix_snoc. destruct (Ascii.eqb d slash) eqn:Ed; [|done].
  apply Ascii.eqb_eq in Ed as ->. pose proof (unsplit_names cs Hp Hne) as Hs. rewrite E, Split_app in Hs. exfalso.
  destruct (exists_last Hne) as (ini & w & ->). change (Split "" slash) with [""] in Hs. apply (f_equal last) in Hs. rewrite last_snoc in Hs.
  change ("" :: ini ++ [w]) with (("" :: ini) ++ [w]) in Hs. rewrite last_snoc in Hs. injection Hs as <-. apply Forall_app in Hp as [_ Hp]. apply Forall_cons in Hp as [[? _] _]. done.
Qed.
Lemma abs_components p : IsAbs p = true -> Clean p = unsplit true (components p) /\ Forall plain (components p).
Proof.
  intros Ha. split; [unfold Clean; by rewrite Ha|]. destruct (components_normal p) as (n & names & -> & Hp & Hn). by rewrite (Hn Ha).
Qed.
Lemma Join_snoc_below a b : a <> [] -> b <> [] -> Join (a ++ b) "/" = Join a "/" +:+ "/" +:+ Join b "/".
Proof.
  intros Ha Hb. induction a as [|x a IH]; [done|]. destruct a as [|y a]; [by destruct b|].
  change ((x :: y :: a) ++ b) with (x :: (y :: a) ++ b). change (Join (x :: (y :: a) ++ b) "/") with (x +:+ "/" +:+ Join ((y :: a) ++ b) "/"). rewrite IH by done.
  change (Join (x :: y :: a) "/") with (x +:+ "/" +:+ Join (y :: a) "/"). apply bytes_eq. by rewrite !bytes_app, <- !app_assoc.
Qed.

(** containment on another machine is containment of names.  The check the editor makes
    of a path on an SSH host passes exactly when both paths are absolute and the path's
    names, once [.] and [..] are worked off, start with all of the folder's: a sibling
    whose name only begins alike, and a climb out with [..], are outside. *)
Theorem remoteWithin_exact root p : remoteWithin root p = true <-> IsAbs root = true /\ IsAbs p = true /\ exists r, components p = components root ++ r.
Proof.
  unfold remoteWithin. destruct (String.eqb root "") eqn:E1; [apply String.eqb_eq in E1 as ->; by split; [|intros [? _]]|].
  destruct (String.eqb p "") eqn:E2; [apply String.eqb_eq in E2 as ->; by split; [|intros (_ & ? & _)]|]. cbn [orb].
  assert (Hc : forall q, HasPrefix (Clean q) "/" = IsAbs q) by (intros q; exact (proj1 (Clean_components q))). rewrite !Hc.
  destruct (IsAbs root) eqn:Hr; [|by split; [|intros [? _]]]. destruct (IsAbs p) eqn:Hp; [|by split; [|intros (_ & ? & _)]]. cbn [negb orb].
  destruct (abs_components root Hr) as [-> Pr]. destruct (abs_components p Hp) as [-> Pp]. set (rs := components root) in *. set (ps := components p) in *. clearbody rs ps. clear Hc E1 E2.
  assert (Hgoal : (if String.eqb (unsplit true ps) (unsplit true rs) then true else HasPrefix (unsplit true ps) (TrimSuffix (unsplit true rs) "/" +:+ "/")) = true <-> exists r, ps = rs ++ r).
  { destruct rs as [|r0 rs0] eqn:Ers.
    { change (TrimSuffix (unsplit true []) "/" +:+ "/") with "/". split; [intros _; by exists ps|]. intros _. destruct (String.eqb _ _); [done|]. change (unsplit true ps) with (String slash (Join ps "/")). cbn. by destruct (Join ps "/"). }
    rewrite <- Ers in *. assert (Hne : rs <> []) by (by rewrite Ers). clear Ers r0 rs0. rewrite TrimSuffix_root by done.
    destruct (String.eqb (unsplit true ps) (unsplit true rs)) eqn:E.
    - split; [intros _|done]. apply String.eqb_eq in E. exists []. rewrite app_nil_r. destruct ps as [|x l].
      + exfalso. pose proof (unsplit_names rs Pr Hne) as Hs. rewrite <- E in Hs. destruct rs; [done|]. vm_compute in Hs. injection Hs as <- _. apply Forall_cons in Pr as [[? _] _]. done.
      + pose proof (f_equal (fun s => Split s slash) E) as Hs. cbv beta in Hs. rewrite !unsplit_names in Hs by done. by injection Hs.
    - rewrite HasPrefix_spec. split.
      + intros [t Ht]. destruct ps as [|x l] eqn:Eps; [exfalso; apply (f_equal String.length) in Ht; rewrite !str_length_app in Ht; destruct rs; [done|cbn in Ht]; pose proof (Forall_inv Pr) as [Hs _]; destruct rs; cbn in Ht; rewrite ?str_length_app in Ht; destruct s; [done|cbn in Ht; lia|done|cbn in Ht; lia]|].
        rewrite <- Eps in *. assert (Hps : ps <> []) by (by rewrite Eps). pose proof (f_equal (fun s => Split s slash) Ht) as Hs. cbv beta in Hs. rewrite unsplit_names in Hs by done.
        assert ((unsplit true rs +:+ "/") +:+ t = unsplit true rs +:+ String slash t) as Ha by (apply bytes_eq; by rewrite !bytes_app, <- app_assoc). rewrite Ha, Split_app, unsplit_names in Hs by done.
        injection Hs as Hs. by exists (Split t slash).
      + intros [r Hr']. destruct r as [|x l]; [rewrite app_nil_r in Hr'; subst; by rewrite String.eqb_refl in E|].
        exists (Join (x :: l) "/"). rewrite Hr'. unfold unsplit. rewrite Join_snoc_below by done. apply bytes_eq. by rewrite !bytes_app, <- !app_assoc. }
  rewrite Hgoal. tauto.
Qed.


(** * What a shell reads in a command

    The quoting rules of the POSIX shell: outside quotes a backslash takes the next byte
    literally; single quotes take everything literally; inside double quotes a dollar, a
    backquote and a backslash keep their meaning.  [Active] bytes are those the shell may
    give a meaning to. *)
Inductive SChar := Literal (c : Ascii.ascii) | Active (c : Ascii.ascii).
Inductive Quoting := Bare | Single | Double.
Definition in_double (c : Ascii.ascii) : SChar := if existsb (Ascii.eqb c) ["$"%char; "`"%char; "\"%char] then Active c else Literal c.
Definition dquote_char : Ascii.ascii := Ascii.ascii_of_nat 34.
Fixpoint sh_read (q : Quoting) (l : list Ascii.ascii) : option (list SChar) :=
  match l with
  | [] => match q with Bare => Some [] | _ => None end
  | c :: l =>
      match q with
      | Single => if Ascii.eqb c "'"%char then sh_read Bare l else cons (Literal c) <$> sh_read Single l
      | Double => if Ascii.eqb c dquote_char then sh_read Bare l else cons (in_double c) <$> sh_read Double l
      | Bare =>
          if Ascii.eqb c "'"%char then sh_read Single l
          else if Ascii.eqb c dquote_char then sh_read Double l
          else if Ascii.eqb c "\"%char then match l with [] => None | d :: l => cons (Literal d) <$> sh_read Bare l end
          else cons (Active c) <$> sh_read Bare l
      end
  end.
Definition literally (s : string) : list SChar := Literal <$> bytes s.
Definition actively (s : string) : list SChar := Active <$> bytes s.

Lemma read_single s : forall rest, sh_read Single (bytes (replace_byte "'"%char "'\''" s) ++ "'"%char :: rest) = app (literally s) <$> sh_read Bare rest.
Proof.
  induction s as [|c s IH]; intros rest; [cbn; by destruct (sh_read Bare rest)|]. cbn [replace_byte]. destruct (Ascii.eqb c "'"%char) eqn:E.
  - apply Ascii.eqb_eq in E as ->. rewrite bytes_app. change (bytes "'\''") with ["'"; "\"; "'"; "'"]%char. cbn. rewrite IH. by destruct (sh_read Bare rest).
  - change (String c "" +:+ replace_byte "'"%char "'\''" s) with (String c (replace_byte "'"%char "'\''" s)).
    change (bytes (String c ?x) ++ ?r) with (c :: (bytes x ++ r)). cbn [sh_read]. rewrite E, IH. by destruct (sh_read Bare rest).
Qed.
(** A quoted string is read back byte for byte, whatever it holds. *)
Lemma read_quoted s rest : sh_read Bare (bytes (shellQuote s) ++ rest) = app (literally s) <$> sh_read Bare rest.
Proof.
  unfold shellQuote. rewrite !bytes_app. change (bytes "'") with ["'"%char]. cbn [app]. cbn [sh_read]. change (Ascii.eqb "'" "'") with true. cbv iota.
  rewrite <- app_assoc. exact (read_single s rest).
Qed.
Definition inert (c : Ascii.ascii) : bool := negb (existsb (Ascii.eqb c) ["'"%char; dquote_char; "\"%char]).
Lemma read_active s rest : forallb inert (bytes s) = true -> sh_read Bare (bytes s ++ rest) = app (actively s) <$> sh_read Bare rest.
Proof.
  induction s as [|c s IH]; [intros _; cbn; by destruct (sh_read Bare rest)|]. change (bytes (String c s)) with (c :: bytes s). cbn [forallb app sh_read]. intros [Hc Hs]%andb_true_iff.
  unfold inert in Hc. cbn [existsb] in Hc. rewrite orb_false_r in Hc. apply negb_true_iff, orb_false_iff in Hc as [-> [-> ->]%orb_false_iff]. rewrite IH by done. by destruct (sh_read Bare rest).
Qed.
Lemma read_double s rest : forallb (fun c => negb (Ascii.eqb c dquote_char)) (bytes s) = true ->
  sh_read Bare (bytes (dquote +:+ s +:+ dquote) ++ rest) = app (in_double <$> bytes s) <$> sh_read Bare rest.
Proof.
  intros Hs. rewrite !bytes_app. change (bytes dquote) with [dquote_char]. change (sh_read Bare (([dquote_char] ++ bytes s ++ [dquote_char]) ++ rest)) with (sh_read Double ((bytes s ++ [dquote_char]) ++ rest)).
  rewrite <- app_assoc. induction (bytes s) as [|c l IH].
  - change (sh_read Bare rest = app [] <$> sh_read Bare rest). by destruct (sh_read Bare rest).
  - cbn [forallb app sh_read] in *. apply andb_true_iff in Hs as [Hc Hl]. apply negb_true_iff in Hc. rewrite Hc, IH by done. by destruct (sh_read Bare rest).
Qed.
Lemma read_tmp rest : sh_read Bare (bytes tmp_var ++ rest) = app (Active "$"%char :: literally "tmp") <$> sh_read Bare rest.
Proof. exact (read_double "$tmp" rest eq_refl). Qed.
Lemma read_bak rest : sh_read Bare (bytes bak_var ++ rest) = app (Active "$"%char :: literally "bak") <$> sh_read Bare rest.
Proof. exact (read_double "$bak" rest eq_refl). Qed.
Lemma replace_none by_ s : forallb (fun c => negb (Ascii.eqb c "'"%char)) (bytes s) = true -> replace_byte "'"%char by_ s = s.
Proof.
  induction s as [|c s IH]; [done|]. change (bytes (String c s)) with (c :: bytes s). cbn [forallb replace_byte]. intros [Hc Hs]%andb_true_iff. apply negb_true_iff in Hc.
  rewrite Hc, IH by done. done.
Qed.
Lemma read_trap rest : sh_read Bare (bytes ("trap 'rm -f " +:+ tmp_var +:+ " " +:+ bak_var +:+ "' EXIT") ++ rest) =
  app (actively "trap " ++ literally ("rm -f " +:+ tmp_var +:+ " " +:+ bak_var) ++ actively " EXIT") <$> sh_read Bare rest.
Proof.
  set (cmd := "rm -f " +:+ tmp_var +:+ " " +:+ bak_var).
  assert (H : bytes ("trap 'rm -f " +:+ tmp_var +:+ " " +:+ bak_var +:+ "' EXIT") = bytes "trap " ++ bytes (shellQuote cmd) ++ bytes " EXIT").
  { unfold shellQuote. rewrite (replace_none _ cmd) by (vm_compute; reflexivity). by vm_compute. }
  rewrite H, <- !app_assoc, read_active by done. rewrite read_quoted, read_active by done. destruct (sh_read Bare rest); [|done]. cbn. by rewrite <- !app_assoc.
Qed.

(** What a shell reads in a piece of a command, outside quotes before and after. *)
Definition reads (s : string) (l : list SChar) : Prop := forall rest, sh_read Bare (bytes s ++ rest) = app l <$> sh_read Bare rest.
Lemma reads_app a b la lb : reads a la -> reads b lb -> reads (a +:+ b) (la ++ lb).
Proof. intros Ha Hb rest. rewrite bytes_app, <- app_assoc, Ha, Hb. destruct (sh_read Bare rest); [|done]. cbn. by rewrite <- app_assoc. Qed.
Lemma reads_whole s l : reads s l -> sh_read Bare (bytes s) = Some l.
Proof. intros H. specialize (H []). rewrite app_nil_r in H. rewrite H. cbn. by rewrite app_nil_r. Qed.
Lemma reads_active s : forallb inert (bytes s) = true -> reads s (actively s).
Proof. intros H rest. by apply read_active. Qed.
Ltac reads_pieces := repeat first [exact (read_quoted _) | exact read_tmp | exact read_bak | exact read_trap | (apply reads_active; vm_compute; reflexivity) | apply reads_app].

(** C27: no label can add to a command.  Whatever a stack's labels hold -- quotes, dollars,
    line breaks --, the shell of an SSH host reads in each of the three commands it is
    sent exactly the fixed words of the command, with the paths and the project between
    them as literal bytes. *)
Theorem remote_commands_literal t :
  let prev := stPath t +:+ dcBackupSuffix in let dir := Dir (stPath t) in let nl := actively newline in
  let tmp := Active "$"%char :: literally "tmp" in let bak := Active "$"%char :: literally "bak" in
  sh_read Bare (bytes (head_command (stPath t))) = Some (actively "head -c 1048576 -- " ++ literally (stPath t)) /\
  sh_read Bare (bytes (redeploy_command (stWorkDir t) (siProject (stStack t)) (stPath t))) =
    Some (actively "cd " ++ literally (stWorkDir t) ++ actively " && docker compose -p " ++ literally (siProject (stStack t)) ++ actively " -f " ++ literally (stPath t) ++ actively " up -d --build") /\
  sh_read Bare (bytes (write_script t)) =
    Some (actively "set -e" ++ nl ++ actively "tmp=$(mktemp " ++ literally (dir +:+ "/.dc-compose-XXXXXX") ++ actively ")" ++ nl ++
      actively "bak=$(mktemp " ++ literally (dir +:+ "/.dc-prev-XXXXXX") ++ actively ")" ++ nl ++
      actively "trap " ++ literally ("rm -f " +:+ tmp_var +:+ " " +:+ bak_var) ++ actively " EXIT" ++ nl ++
      actively "cp -p " ++ literally (stPath t) ++ actively " " ++ tmp ++ nl ++ actively "cp -p " ++ literally (stPath t) ++ actively " " ++ bak ++ nl ++
      actively "cat > " ++ tmp ++ nl ++ actively "cd " ++ literally (stWorkDir t) ++ nl ++
      actively "docker compose -p " ++ literally (siProject (stStack t)) ++ actively " -f " ++ tmp ++ actively " config --quiet" ++ nl ++
      actively "mv " ++ bak ++ actively " " ++ literally prev ++ nl ++ actively "mv " ++ tmp ++ actively " " ++ literally (stPath t)).
Proof.
  intros prev dir nl tmp bak. split; [|split].
  - apply reads_whole. apply (reads_app "head -c 1048576 -- " _ (actively "head -c 1048576 -- ")); reads_pieces.
  - apply reads_whole. unfold redeploy_command. reads_pieces.
  - match goal with |- _ = Some ?l => assert (H : exists l', reads (write_script t) l' /\ l' = l) end; [|destruct H as (l' & H & <-); by apply reads_whole].
    eexists. split; [unfold write_script; cbn [Join]; reads_pieces|]. rewrite <- !app_assoc. reflexivity.
Qed.


(** Links followed, a path is absolute and clean. *)
Lemma eval_plain fs : forall links names cur d, Forall plain cur -> Forall (fun c => slash ∉ bytes c) names -> eval_links links fs cur names = Ok d -> Forall plain d.
Proof.
  assert (Hp : forall c, String.eqb c "" || String.eqb c "." = false -> String.eqb c ".." = false -> slash ∉ bytes c -> plain c).
  { intros c [H1 H2]%orb_false_iff H3 H4. apply String.eqb_neq in H1, H2, H3. done. }
  induction links as [|links IHl]; (induction names as [|c names IH]; intros cur d Hc Hn; [by intros [= <-]|]); apply Forall_cons in Hn as [Hs Hn]; cbn [eval_links];
    (destruct (String.eqb c "" || String.eqb c ".") eqn:E1; [by apply IH|]); (destruct (String.eqb c "..") eqn:E2; [apply IH; [|done]; rewrite removelast_firstn_len; by apply Forall_take|]);
    (assert (Hc' : Forall plain (cur ++ [c])) by (apply Forall_app; split; [done|]; constructor; [by apply Hp|constructor])); (destruct (fs !! (cur ++ [c])) as [[data mode| |t]|]; [|by apply IH| |done]).
  1,3: destruct names; [by intros [= <-]|done].
  - done.
  - apply IHl; [by destruct (IsAbs t)|]. apply Forall_app. split; [|done]. apply Forall_forall. intros w. apply Split_free.
Qed.
Lemma EvalSymlinks_abs fs p r : IsAbs p = true -> EvalSymlinks fs p = Ok r -> IsAbs r = true /\ Clean r = r.
Proof.
  intros _. unfold EvalSymlinks, real. destruct (eval_links _ _ _ _) as [cs|[]] eqn:E; [|done..]. intros [= <-].
  assert (Hcs : Forall plain cs) by (eapply eval_plain; [| |exact E]; [constructor|apply Forall_forall; intros w; apply Split_free]).
  assert (Hn : normal true cs) by (by exists 0%nat, cs). change (abs_path cs) with (unsplit true cs). destruct (components_unsplit true cs Hn) as [Ha Hc].
  split; [exact Ha|]. unfold Clean. by rewrite Ha, Hc.
Qed.

(** * The operations on a stack's compose file *)
Section Operations.
Context `{C : Cipher} `{TE : TextEnv} `{X : Dialer} `{MB : Moby} `{Sh : Shells} {SL : ShellsLaws Sh} (fault : HQuery -> bool) (cwd : string).

(** Reading leaves files and daemons alone; over SSH it runs [head]. *)
Definition only_heads (id : Z) (w w' : EWorld) : Prop :=
  ewFS w' = ewFS w /\ exists paths, ewRun w' = ewRun w ++ ((fun p => RunSSH id (head_command p) "") <$> paths).
Lemma heads_files id d w : only_heads id w (set_ed d w).
Proof. split; [done|]. exists []. cbn. by rewrite app_nil_r. Qed.
Lemma heads_refl id w : only_heads id w w.
Proof. split; [done|]. exists []. cbn. by rewrite app_nil_r. Qed.
Lemma heads_trans id w1 w2 w3 : only_heads id w1 w2 -> only_heads id w2 w3 -> only_heads id w1 w3.
Proof. intros [F1 [p1 R1]] [F2 [p2 R2]]. split; [congruence|]. exists (p1 ++ p2). by rewrite R2, R1, fmap_app, <- app_assoc. Qed.

(** What a resolved stack's file is, on this machine. *)
Definition read_here (t : stackTarget) (fs : LFS) : Prop :=
  is_local (stHost t) = true -> exists data mode, open_file (stPath t) fs = Ok (data, mode) /\ stContent t = head_bytes maxComposeBytes data.

Lemma readHostFile_spec id h path w w' r : readHostFile id h path w = (w', r) -> ewD w' = ewD w /\ only_heads id w w' /\
  forall data, r = Ok data -> (is_local h = true -> exists all mode, open_file path (ewFS w) = Ok (all, mode) /\ data = head_bytes maxComposeBytes all).
Proof.
  unfold readHostFile. destruct (is_local h) eqn:El.
  - intros [= <- <-]. split; [done|]. split; [apply heads_refl|]. intros data. destruct (open_file path (ewFS w)) as [[all mode]|e]; [|done]. destruct (os_fault _ _ _); [done|]. intros [= <-] _. by exists all, mode.
  - destruct (is_ssh h); [|intros [= <- <-]; split; [done|]; split; [apply heads_refl|done]]. unfold run_ssh. destruct (ssh_session (ewRun w) id) as [e|].
    + intros [= <- <-]. split; [done|]. split; [apply heads_refl|done].
    + set (w1 := mkEW _ _ _). assert (Hh : ewD w1 = ewD w /\ only_heads id w w1) by (split; [done|]; split; [done|by exists [path]]).
      destruct (ssh_exec _ _ _ _) as [out [e|]]; intros [= <- <-]; by (split; [apply Hh|]; split; [apply Hh|done]).
Qed.

Lemma first_readable_spec st h id cands : forall last w w' r, first_readable st h id cands last w = (w', r) -> ewD w' = ewD w /\ only_heads id w w' /\
  forall t, r = Ok t -> stStack t = st /\ stHost t = h /\ stHostID t = id /\ stWorkDir t = siWorkingDir st /\ stPath t ∈ cands /\ read_here t (ewFS w').
Proof.
  induction cands as [|p cands IH]; intros last w w' r; cbn [first_readable].
  - intros [= <- <-]. split; [done|]. split; [apply heads_refl|done].
  - destruct (negb _ && negb _).
    + intros H. apply IH in H as (HD & Hh & Ht). split; [done|]. split; [done|]. intros t Hr. destruct (Ht t Hr) as (? & ? & ? & ? & ? & ?). repeat (split; [done|]). split; [by right|done].
    + destruct (readHostFile id h p w) as [w1 [data|e]] eqn:E; apply readHostFile_spec in E as (HD & Hh & Hd).
      * intros [= <- <-]. split; [done|]. split; [done|]. intros t [= <-]. cbn. repeat (split; [done|]). split; [by left|]. intros Hl. destruct (Hd data eq_refl Hl) as (all & mode & Ho & ->). exists all, mode. split; [|done]. by rewrite (proj1 Hh).
      * intros H. apply IH in H as (HD' & Hh' & Ht). split; [congruence|]. split; [by eapply heads_trans|]. intros t Hr. destruct (Ht t Hr) as (? & ? & ? & ? & ? & ?). repeat (split; [done|]). split; [by right|done].
Qed.

Lemma resolveStack_spec hostID project w w' r : conns_named (dwH (ewD w)) -> resolveStack fault hostID project w = (w', r) ->
  asked fault hostID [] (ewD w) (ewD w') /\ exists id, only_heads id w w' /\
  forall t, r = Ok t -> siProject (stStack t) = project /\ stHostID t = id /\ ResolveHostID fault hostID (hwDB (dwH (ewD w))) = Ok id /\ HostByID fault id (hwDB (dwH (ewD w))) = Ok (stHost t) /\
    stWorkDir t = siWorkingDir (stStack t) /\ stPath t ∈ composeCandidates (stStack t) /\ read_here t (ewFS w').
Proof.
  intros Hn. unfold resolveStack, mbind, stM_bind, on_d, ListStacks, mbind, stM_bind. destruct (ListContainers fault hostID (ewD w)) as [d1 [cs|e]] eqn:El; apply ListContainers_asked in El; try done.
  2: { intros [= <- <-]. split; [done|]. exists 0. split; [apply heads_files|done]. }
  set (w1 := set_ed d1 w). assert (H1 : asked fault hostID [] (ewD w) (ewD w1) /\ forall id, only_heads id w w1) by (split; [done|]; intros id; apply heads_files).
  assert (Hdb : hwDB (dwH d1) = hwDB (dwH (ewD w))) by apply El.
  unfold mret, stM_ret. cbv beta iota.
  destruct (List.find _ (group_stacks cs)) as [st|] eqn:Ef; [|intros [= <- <-]; split; [apply H1|]; exists 0; split; [apply H1|done]].
  destruct (String.eqb (siConfigFile st) ""); [intros [= <- <-]; split; [apply H1|]; exists 0; split; [apply H1|done]|]. unfold st_get. cbv beta iota. fold w1. change (dwH (ewD w1)) with (dwH d1). rewrite Hdb.
  destruct (ResolveHostID fault hostID _) as [id|e] eqn:Er; [|intros [= <- <-]; split; [apply H1|]; exists 0; split; [apply H1|done]].
  destruct (HostByID fault id _) as [h|e] eqn:Eh; [|intros [= <- <-]; split; [apply H1|]; exists 0; split; [apply H1|done]].
  intros H. apply first_readable_spec in H as (HD & Hh & Ht). split; [by rewrite HD|]. exists id. split; [exact Hh|]. intros t Hr. destruct (Ht t Hr) as (-> & -> & -> & -> & Hc & Hread).
  apply List.find_some in Ef as [_ Ef]. apply String.eqb_eq in Ef. done.
Qed.

(** What passes the editor's checks: the compose file, links followed, lies in the stack's
    folder on this machine; by name on another. *)
Definition contained (t : stackTarget) (fs : LFS) : Prop :=
  (is_local (stHost t) = true /\ exists root r, EvalSymlinks fs (Abs cwd (stWorkDir t)) = Ok root /\ lies_in (EvalSymlinks fs) cwd root (stPath t) r) \/
  (is_local (stHost t) = false /\ is_ssh (stHost t) = true /\ IsAbs (stPath t) = true /\ exists r, components (stPath t) = components (stWorkDir t) ++ r).
Lemma editable_contained t fs : IsAbs cwd = true -> editableReason cwd t fs = "" -> stWorkDir t <> "" /\ contained t fs.
Proof.
  intros Hc. unfold editableReason. destruct (negb (is_local (stHost t)) && negb (is_ssh (stHost t))) eqn:E; [done|]. destruct (String.eqb (stWorkDir t) "") eqn:Ew; [done|].
  apply String.eqb_neq in Ew. intros H. split; [done|]. unfold checkContained in H. unfold contained. destruct (is_local (stHost t)) eqn:El.
  - left. split; [done|]. unfold canonicalDir in H. destruct (EvalSymlinks fs (Abs cwd (stWorkDir t))) as [root|e] eqn:Er; [|done].
    pose proof (relWithin_exact (EvalSymlinks fs) cwd (EvalSymlinks_abs fs) root (stPath t) Hc) as Hr. destruct (relWithin _ _ root (stPath t)) as [rel|]; [|done]. by exists root, (components rel).
  - right. split; [done|]. cbn in E. apply negb_false_iff in E. split; [done|]. destruct (remoteWithin (stWorkDir t) (stPath t)) eqn:Er; [|done]. apply remoteWithin_exact in Er as (_ & ? & ?). done.
Qed.


(** deploying a stack again runs one command, in its own folder.  Nothing is run
    besides reading its file when the stack may not be acted on; otherwise `docker compose
    up` for that project, of the file that was read and that lies in the stack's folder,
    started in that folder, here with the stored registry credentials, over SSH on the
    host itself. *)
Theorem stack_redeploy_scoped hostID project w w' out : conns_named (dwH (ewD w)) -> IsAbs cwd = true ->
  StackRedeploy fault cwd hostID project w = (w', out) ->
  dwFx (ewD w') = dwFx (ewD w) /\ ewFS w' = ewFS w /\ exists id w1, only_heads id w w1 /\
    ((ewRun w' = ewRun w1 /\ is_Some out.2) \/
     exists t, siProject (stStack t) = project /\ read_here t (ewFS w) /\ contained t (ewFS w) /\ stWorkDir t <> "" /\ stWorkDir t = siWorkingDir (stStack t) /\
       ((is_local (stHost t) = true /\ exists env warnings, stack_registry_env = Ok (env, warnings) /\
          ewRun w' = ewRun w1 ++ [RunLocal (stWorkDir t) env (compose_args project [stPath t] ["up"; "-d"; "--build"])]) \/
        (is_local (stHost t) = false /\ ewRun w' = ewRun w1 ++ [RunSSH id (redeploy_command (stWorkDir t) project (stPath t)) ""]))).
Proof.
  intros Hn Hc. unfold StackRedeploy. destruct (resolveStack fault hostID project w) as [w1 [t|e]] eqn:Er;
    apply resolveStack_spec in Er as (Ha & id & Hh & Ht); try done; destruct Ha as (_ & _ & _ & _ & _ & h0 & Hfx & _); cbn in Hfx; rewrite app_nil_r in Hfx.
  2: { intros [= <- <-]. split; [done|]. split; [exact (proj1 Hh)|]. exists id, w1. split; [done|]. left. split; [done|by eexists]. }
  destruct (Ht t eq_refl) as (Hp & Hid & _ & _ & Hwd & _ & Hread). rewrite (proj1 Hh) in Hread. rewrite (proj1 Hh), Hp, Hid.
  assert (Hr : forall o e, (w1, (o, Some e)) = (w', out) -> dwFx (ewD w') = dwFx (ewD w) /\ ewFS w' = ewFS w /\ exists id w1, only_heads id w w1 /\ (ewRun w' = ewRun w1 /\ is_Some out.2)).
  { intros o e [= <- <-]. split; [done|]. split; [exact (proj1 Hh)|]. exists id, w1. split; [done|]. split; [done|by eexists]. }
  destruct (String.eqb (editableReason cwd t (ewFS w)) "") eqn:Ee; cbn [negb]; [|intros H; destruct (Hr _ _ H) as (? & ? & i & v & ? & ?); split; [done|]; split; [done|]; exists i, v; auto].
  apply String.eqb_eq in Ee. destruct (editable_contained t _ Hc Ee) as [Hne Hcon].
  destruct (is_local (stHost t)) eqn:Eloc.
  - destruct stack_registry_env as [[env warnings]|e] eqn:Ereg; [|intros H; destruct (Hr _ _ H) as (? & ? & i & v & ? & ?); split; [done|]; split; [done|]; exists i, v; auto].
    destruct (docker_cli _ _ _ _) as [o e]. intros [= <- <-]. split; [done|]. split; [done|]. exists id, w1. split; [done|]. right. exists t. repeat (split; [done|]). left. split; [done|]. by exists env, warnings.
  - destruct (is_ssh (stHost t)) eqn:Es; [|intros H; destruct (Hr _ _ H) as (? & ? & i & v & ? & ?); split; [done|]; split; [done|]; exists i, v; auto].
    unfold run_ssh. destruct (ssh_session (ewRun w1) id) as [e|]; [intros H; destruct (Hr _ _ H) as (? & ? & i & v & ? & ?); split; [done|]; split; [done|]; exists i, v; auto|].
    destruct (ssh_exec _ _ _ _) as [o [e|]]; intros [= <- <-]; (split; [done|]); (split; [exact (proj1 Hh)|]); exists id, w1; (split; [done|]); right; exists t; repeat (split; [done|]); right; done.
Qed.
End Operations.

Section HandlerRules.
Context `{C : Cipher} `{TE : TextEnv} `{En : Engine} `{X : Dialer} `{MB : Moby} `{Sh : Shells} (fault : HQuery -> bool) (cwd : string).

(** a stack a project deploys is left to the project.  While a project owns the stack
    on that host, or it cannot be told whether one does, saving its compose file and
    deploying it again are answered with the reason, and nothing is written, run, asked of
    a daemon or recorded; and the file is shown as neither editable nor redeployable. *)
Theorem managed_stack_refused hostQuery host project content w : resolveHostID hostQuery = Some host ->
  stackProject host project (xDB (dwP (ewD w))) <> Ok None ->
  let quiet (w' : EWorld) := ewFS w' = ewFS w /\ ewRun w' = ewRun w /\ dwFx (ewD w') = dwFx (ewD w) /\ hwAudit (dwH (ewD w')) = hwAudit (dwH (ewD w)) in
  (exists w' msg, handleWriteStackCompose fault cwd hostQuery project (Some content) w = (w', EFail msg) /\ quiet w') /\
  (exists w' msg, handleRedeployStack fault cwd hostQuery project w = (w', EFail msg) /\ quiet w') /\
  (forall w' v, conns_named (dwH (ewD w)) -> handleStackCompose fault cwd hostQuery project w = (w', EView v) -> svEditable v = false /\ svRedeployable v = false /\ svReason v <> "").
Proof.
  intros Hh Hp quiet.
  assert (Hm : forall w', dwP (ewD w') = dwP (ewD w) -> managed host project w' <> "").
  { intros w' Hw. unfold managed, managedByProject. rewrite Hw. destruct (stackProject host project _) as [[p|]|e]; [|congruence|done]. discriminate. }
  split; [|split].
  - unfold handleWriteStackCompose, on_host. rewrite Hh. set (w0 := set_ed _ w). assert (String.eqb (managed host project w0) "" = false) as -> by (by apply String.eqb_neq, Hm).
    cbn [negb]. by exists w0, (managed host project w0).
  - unfold handleRedeployStack, on_host. rewrite Hh. set (w0 := set_ed _ w). assert (String.eqb (managed host project w0) "" = false) as -> by (by apply String.eqb_neq, Hm).
    cbn [negb]. by exists w0, (managed host project w0).
  - intros w' v Hn. unfold handleStackCompose, on_host. rewrite Hh. set (w0 := set_ed _ w). destruct (StackCompose fault cwd host project w0) as [w1 [v1|e]] eqn:E; [|done].
    assert (HP : dwP (ewD w1) = dwP (ewD w)).
    { unfold StackCompose, mbind, stM_bind in E. destruct (resolveStack fault host project w0) as [w2 [t|e]] eqn:Er; [|done]. apply resolveStack_spec in Er as ((_ & _ & HP & _) & _); [|done].
      unfold st_get, mret, stM_ret in E. cbv beta iota in E. injection E as <- _. exact HP. }
    specialize (Hm w1 HP). intros [= <- <-]. assert (String.eqb (managed host project w1) "" = false) as -> by (by apply String.eqb_neq). done.
Qed.
End HandlerRules.
