(* ===== verification/StackEditExamples.v ===== *)
(** * A stack started from the command line, its file edited here and over SSH *)
From S2P Require Import Prelude GoStrings Users Roles Access Accounts Calendar Maintenance MaintenanceHandlers McpExamples Config Paths Compose Preview Sandbox ProjectStore Binds Projects ProjectSpec ProjectOutcomes ProjectExamples Hosts Docker DockerExamples StackEdit.

(** Names longer than any in use are new. *)
Definition name_total (fs : gmap (list string) Ent) : nat := list_sum ((fun kv : list string * Ent => list_sum (String.length <$> kv.1)) <$> map_to_list fs).
Definition zeros (n : nat) : string := of_bytes (replicate n "0"%char).
Definition toy_temp (fs : gmap (list string) Ent) (d : list string) (pattern : string) : string :=
  if String.eqb pattern ".dc-compose-*.yml" then ".dc-compose-" +:+ zeros (name_total fs) +:+ ".yml" else ".dc-tmp-" +:+ zeros (name_total fs) +:+ "".
(** No call fails; compose accepts everything but "broken"; remote commands work. *)
Definition toy_shells : Shells := {|
  os_fault _ _ _ := None; os_text e := peOp e; temp_name := toy_temp; access_W _ _ := None; username := Some "dc"; stack_registry_env := Ok ([], []);
  docker_cli fs _ _ args := if existsb (fun kv : list string * Ent => match kv.2 with EFile "broken" _ => true | _ => false end) (map_to_list fs) then ("yaml: bad", Some "exit 15") else ("ok", None);
  eval_text _ := "error"; ssh_session _ _ := None; ssh_exec _ _ cmd _ := ("", None)
|}.

Lemma list_sum_in (l : list nat) n : n ∈ l -> (n <= list_sum l)%nat.
Proof. induction l as [|x l IH]; [by intros ?%elem_of_nil|]. change (list_sum (x :: l)) with (x + list_sum l)%nat. intros [->|H]%elem_of_cons; [lia|]. specialize (IH H). lia. Qed.
Lemma zeros_length n : String.length (zeros n) = n.
Proof. unfold zeros. by rewrite <- bytes_length, bytes_of_bytes, length_replicate. Qed.
Lemma toy_temp_long fs d pattern : (name_total fs < String.length (toy_temp fs d pattern))%nat.
Proof. unfold toy_temp. destruct (String.eqb _ _); rewrite !str_length_app, zeros_length; cbn; lia. Qed.
Lemma zeros_digits n : Forall is_digit (bytes (zeros n)).
Proof. unfold zeros. rewrite bytes_of_bytes. apply Forall_replicate. vm_compute. split; discriminate. Qed.
Lemma plain_wrapped a n b : (forall c, c ∈ bytes a ++ bytes b -> c <> slash) -> (2 < String.length a)%nat -> plain (a +:+ zeros n +:+ b).
Proof.
  intros Hs Ha. assert (Hl : (2 < String.length (a +:+ zeros n +:+ b))%nat) by (rewrite !str_length_app; lia).
  split; [intros E; rewrite E in Hl; cbn in Hl; lia|]. split; [intros E; rewrite E in Hl; cbn in Hl; lia|]. split; [intros E; rewrite E in Hl; cbn in Hl; lia|].
  rewrite !bytes_app, !elem_of_app. intros [H|[H|H]].
  - apply (Hs slash); [apply elem_of_app; by left|done].
  - unfold zeros in H. rewrite bytes_of_bytes in H. apply elem_of_replicate in H as [H _]. discriminate.
  - apply (Hs slash); [apply elem_of_app; by right|done].
Qed.
Lemma toy_shells_laws : ShellsLaws toy_shells.
Proof.
  split.
  - intros fs d pattern. change (fs !! (d ++ [toy_temp fs d pattern]) = None). destruct (fs !! _) as [e|] eqn:E; [|done]. exfalso.
    pose proof (toy_temp_long fs d pattern) as Hl. apply elem_of_map_to_list in E.
    assert (H : (list_sum (String.length <$> (d ++ [toy_temp fs d pattern])) <= name_total fs)%nat).
    { apply list_sum_in. apply list_elem_of_fmap. by exists (d ++ [toy_temp fs d pattern], e). }
    assert (H2 : (String.length (toy_temp fs d pattern) <= list_sum (String.length <$> (d ++ [toy_temp fs d pattern])))%nat).
    { apply list_sum_in. apply list_elem_of_fmap. exists (toy_temp fs d pattern). split; [done|]. apply elem_of_app. right. by left. }
    lia.
  - intros fs d pattern. change (plain (toy_temp fs d pattern)). unfold toy_temp. destruct (String.eqb _ _); apply plain_wrapped; cbn; try lia; intros c Hc ->; revert Hc; rewrite !elem_of_cons, elem_of_nil; intuition discriminate.
  - intros fs d pre suf [[-> ->]|[-> ->]]; (exists (zeros (name_total fs)); split; [reflexivity|apply zeros_digits]).
Qed.

Definition web_labels (file dir : string) : gmap string string :=
  {[labelComposeProject := "web"; labelComposeService := "app"; labelComposeConfigFiles := file; labelComposeWorkingDir := dir]}.
Definition web_moby (file dir : string) : Moby := {|
  moby_net _ := NoContact "no route"; ContainerList _ _ := Ok [toy_raw "c1" "web-app" "running" (web_labels file dir)];
  ContainerInspect _ _ _ := Err "No such container"; NetworkList _ _ p := Ok []; Perform _ _ op := None
|}.
(** The previous version's place is taken by a link to a system file. *)
Definition web_files : gmap (list string) Ent :=
  {[["srv"] := EDir; ["srv"; "web"] := EDir; ["srv"; "web"; "compose.yml"] := EFile "old" 420; ["etc"] := EDir; ["etc"; "passwd"] := EFile "root" 420;
    ["srv"; "web"; "compose.yml.dc-prev"] := ELink "/etc/passwd"]}.
Definition edit_world : EWorld := mkEW toy_world web_files [].
Notation save := (StackWriteComposeFile (C := seal_cipher) (TE := ascii_text) (X := toy_dialer) (MB := web_moby "/srv/web/compose.yml" "/srv/web") (Sh := toy_shells) works "/" 1 "web") (only parsing).

Definition saved_as_told (x : EWorld * result string string) : bool :=
  match x with
  | (w', Ok p) => String.eqb p "/srv/web/compose.yml" && bool_decide (ewFS w' !! ["srv"; "web"; "compose.yml"] = Some (EFile "new" 420)) &&
      bool_decide (ewFS w' !! ["srv"; "web"; "compose.yml.dc-prev"] = Some (EFile "old" 420)) && bool_decide (ewFS w' !! ["etc"; "passwd"] = Some (EFile "root" 420))
  | _ => false
  end.

Notation again := (StackRedeploy (C := seal_cipher) (TE := ascii_text) (X := toy_dialer) (MB := web_moby "/srv/web/compose.yml" "/srv/web") (Sh := toy_shells) works "/") (only parsing).
Notation evil := (web_moby "/srv/web/$(reboot)'.yml" "/srv/web") (only parsing).
Definition ssh_hosts : HDB := mkHDB [local_row; staging_row] 2.
Definition ssh_world : EWorld := mkEW (mkDW (mkHW ssh_hosts {[2 := mkConn staging_row (Some "kA")]} ∅ [] None) [] demo_world) ∅ [].
Lemma ssh_named : conns_named (dwH (ewD ssh_world)).
Proof. intros i c. cbn. intros H. apply lookup_singleton_Some in H as [<- <-]. done. Qed.

Lemma stack_redeploy_scoped_witness :
  let x := again 1 "web" edit_world in
  ewFS x.1 = web_files /\ ewRun x.1 = [RunLocal "/srv/web" [] ["compose"; "-p"; "web"; "-f"; "/srv/web/compose.yml"; "up"; "-d"; "--build"]] /\ x.2 = ("ok", None).
Proof.
  intros x. assert (Hb : ewRun x.1 = [RunLocal "/srv/web" [] ["compose"; "-p"; "web"; "-f"; "/srv/web/compose.yml"; "up"; "-d"; "--build"]] /\ x.2 = ("ok", None)) by (vm_compute; split; reflexivity).
  split; [|exact Hb]. subst x. destruct (again 1 "web" edit_world) as [w' out] eqn:E.
  exact (proj1 (proj2 (stack_redeploy_scoped (C := seal_cipher) (TE := ascii_text) (X := toy_dialer) (MB := web_moby "/srv/web/compose.yml" "/srv/web") (Sh := toy_shells) works "/" 1 "web" edit_world w' out toy_named eq_refl E))).
Defined.
(** A path that tries to run something, on an SSH host. *)
Example ssh_redeploy_quotes :
  ewRun (StackRedeploy (C := seal_cipher) (TE := ascii_text) (X := toy_dialer) (MB := evil) (Sh := toy_shells) works "/" 2 "web" ssh_world).1 =
    [RunSSH 2 "head -c 1048576 -- '/srv/web/$(reboot)'\''.yml'" ""; RunSSH 2 "cd '/srv/web' && docker compose -p 'web' -f '/srv/web/$(reboot)'\''.yml' up -d --build" ""].
Proof. vm_compute. reflexivity. Qed.

Lemma managed_stack_refused_witness :
  exists w' msg, handleWriteStackCompose (C := seal_cipher) (TE := ascii_text) (En := demo_engine None) (X := toy_dialer) (MB := toy_moby) (Sh := toy_shells) works "/" "7" "shop" (Some "x") edit_world = (w', EFail msg) /\ ewFS w' = web_files.
Proof.
  assert (Hp : stackProject (En := demo_engine None) 7 "shop" (xDB (dwP (ewD edit_world))) <> Ok None) by (vm_compute; discriminate).
  destruct (managed_stack_refused (C := seal_cipher) (TE := ascii_text) (En := demo_engine None) (X := toy_dialer) (MB := toy_moby) (Sh := toy_shells) works "/" "7" 7 "shop" "x" edit_world eq_refl Hp) as ((w' & msg & H & Hq & _) & _).
  by exists w', msg.
Defined.

(** The check follows the links of the path, the write does not: a compose file kept as a
    link outside the stack's folder is replaced there, and the file the check looked at
    stays as it was. *)
Definition linked_files : gmap (list string) Ent :=
  {[["srv"] := EDir; ["srv"; "web"] := EDir; ["srv"; "web"; "compose.yml"] := EFile "old" 420; ["opt"] := EDir; ["opt"; "web.yml"] := ELink "/srv/web/compose.yml"]}.
Definition linked_target : stackTarget := mkTarget (mkStackInfo "web" "/opt/web.yml" "/srv/web" [] 0) local_row 1 "/opt/web.yml" "/srv/web" "old".
Theorem edit_lands_outside_folder :
  editableReason (TE := ascii_text) (Sh := toy_shells) "/" linked_target linked_files = "" /\
  exists fs', writeLocal (TE := ascii_text) (Sh := toy_shells) linked_target "new" linked_files = (fs', None) /\
    fs' !! ["opt"; "web.yml"] = Some (EFile "new" 420) /\ fs' !! ["opt"; "web.yml.dc-prev"] = Some (EFile "old" 420) /\ fs' !! ["srv"; "web"; "compose.yml"] = Some (EFile "old" 420).
Proof.
  split; [vm_compute; reflexivity|]. destruct (writeLocal (TE := ascii_text) (Sh := toy_shells) linked_target "new" linked_files) as [fs' e] eqn:E. exists fs'.
  assert (Hb : match writeLocal (TE := ascii_text) (Sh := toy_shells) linked_target "new" linked_files with
    | (fs', None) => bool_decide (fs' !! ["opt"; "web.yml"] = Some (EFile "new" 420)) && bool_decide (fs' !! ["opt"; "web.yml.dc-prev"] = Some (EFile "old" 420)) && bool_decide (fs' !! ["srv"; "web"; "compose.yml"] = Some (EFile "old" 420))
    | _ => false end = true) by (vm_compute; reflexivity). rewrite E in Hb. destruct e; [discriminate Hb|].
  apply andb_true_iff in Hb as [[Hb1 Hb2]%andb_true_iff Hb3]. apply bool_decide_eq_true in Hb1, Hb2, Hb3. split; [reflexivity|]. split; [exact Hb1|]. split; [exact Hb2|exact Hb3].
Qed.
