(* ===== verification/McpTools.v ===== *)
(** * The tools of the MCP server (internal/mcp/tools_*.go, resources.go, format.go, audit parts of server.go)

    One definition per tool over what a call can see and change: the daemons and projects,
    the alert and maintenance tables, the change limiter, the audit log.  The gate is that
    of [McpGate]; actions on containers and stacks are those of [Docker], deploys those of
    [Projects].  Queries of a daemon the tools only pass on are a parameter of what the
    daemons were asked to change so far. *)
From S2P Require Import Prelude Floats Limits GoStrings Password Users Roles RoleHandlers Access Calendar Accounts Login ApiTokens Alerts Maintenance MaintenanceHandlers History Config Paths McpGate Compose Policy Preview Sandbox ProjectStore Binds Projects Hosts Docker StackEdit.

(** ** Data *)
(** One row of the audit log (store/audit.go). *)
Record AuditEntry := mkEntry { enID : Z; enUserID : Z; enUsername : string; enAction : string; enTarget : string; enDetail : string; enIP : string; enHostID : Z; enAt : Z }.

(** The rows in the order they were written, and the sequence of their ids. *)
Record AuditLog := mkLogbook { audit_rows : list AuditEntry; audit_seq : Z }.

(** What the tools run beside a daemon's own calls. *)
Inductive ToolRun := RanScan (hostID : Z) (ref : string) | RanDiagnostics (hostID : Z).
Record TWorld := mkTW { twE : EWorld; twG : GState; twAlerts : AlertDB; twAudit : AuditLog; twRan : list ToolRun }.
Notation twD w := (ewD (twE w)).
Definition set_te (e : EWorld) (w : TWorld) : TWorld := mkTW e (twG w) (twAlerts w) (twAudit w) (twRan w).
Definition set_tg (g : GState) (w : TWorld) : TWorld := mkTW (twE w) g (twAlerts w) (twAudit w) (twRan w).
Definition set_talerts (a : AlertDB) (w : TWorld) : TWorld := mkTW (twE w) (twG w) a (twAudit w) (twRan w).
Definition add_ran (r : ToolRun) (w : TWorld) : TWorld := mkTW (twE w) (twG w) (twAlerts w) (twAudit w) (twRan w ++ [r]).
(** The windows are those deploys silence with. *)
Notation twWins w := (xWins (dwP (twD w))).
Definition set_twins (t : Windows) (w : TWorld) : TWorld := set_te (set_ed (set_dp (set_wins t (dwP (twD w))) (twD w)) (twE w)) w.
Definition on_h (f : HWorld -> HWorld) (w : TWorld) : TWorld := set_te (set_ed (set_dh (f (dwH (twD w))) (twD w)) (twE w)) w.

Record LogLine := mkLog { llStream : string; llMessage : string; llTimestamp : string }.
Record ImageSummary := mkImage { imID : string; imRepoTags : list string; imSize : Z; imCreated : Z; imInUse : bool; imDangling : bool }.
Record VolumeSummary := mkVolume { voName : string; voDriver : string; voMountpoint : string; voScope : string; voInUseBy : list string }.
Record NetworkSummary := mkNetwork { ntID : string; ntName : string; ntDriver : string; ntScope : string; ntInternal : bool; ntSubnets : list string; ntContainers : list string }.
Record DiffEntry := mkDiff { dfPath : string; dfKind : string }.
Record EventMsg := mkEventMsg { emTime : Z; emType : string; emAction : string; emName : string; emID : string; emAttr : gmap string string }.
Record Vuln := mkVuln { vuID : string; vuSeverity : string; vuPackage : string; vuVersion : string; vuFixed : string; vuTitle : string }.
Record ScanResult := mkScan { srRef : string; srSummary : gmap string Z; srVulns : list Vuln }.

Class ToolReads := {
  (** what the matching method of docker.Manager makes of the daemon's answer *)
  images : Trace -> Conn -> result string (list ImageSummary);
  volumes : Trace -> Conn -> result string (list VolumeSummary);
  networks : Trace -> Conn -> result string (list NetworkSummary);
  system_info : Trace -> Conn -> result string (list (string * string));
  overview : Trace -> Conn -> result string (list (string * string));
  container_top : Trace -> Conn -> string -> result string (list string * list (list string));
  container_diff : Trace -> Conn -> string -> result string (list DiffEntry);
  (** the lines in the order they are emitted, and the error the stream ends with *)
  stream_logs : Trace -> Conn -> string -> Z -> list LogLine * option string;
  daemon_events : Trace -> Conn -> Z -> Z -> result string (list EventMsg);
  diagnose : Trace -> Conn -> result string string;
  regexp_compile : string -> result string (string -> bool);
  trivy_available : bool;
  compose_host_env : HostRow -> result string (list string);
  scan_image : list string -> string -> result string ScanResult;
  audit_fault : AuditLog -> bool
}.

(** ** The audit log (store/audit.go) *)
Definition Audit `{TR : ToolReads} (now : Z) (uid : Z) (name action target detail ip : string) (host : Z) (l : AuditLog) : AuditLog :=
  if audit_fault l then l else mkLogbook (audit_rows l ++ [mkEntry (audit_seq l + 1) uid name action target detail ip host (rfc3339 now)]) (audit_seq l + 1).
(** Newest first; [before] is the cursor, [None] for hosts is all of them. *)
Definition RecentAudit (limit before : Z) (hosts : option (list Z)) (l : AuditLog) : list AuditEntry :=
  let limit := if (limit <=? 0) || (1000 <? limit) then 200 else limit in
  take (Z.to_nat limit) (rev (List.filter (fun e => ((before <=? 0) || (enID e <? before)) &&
    match hosts with None => true | Some ids => containsInt64 ids (enHostID e) end) (audit_rows l))).

(** ** Rendering (format.go) *)
Definition portString (p : PortMapping) : string :=
  if negb (PublicPort p =? 0) then
    (if String.eqb (pmIP p) "" then "0.0.0.0" else pmIP p) +:+ ":" +:+ FormatInt (PublicPort p) +:+ "->" +:+ FormatInt (PrivatePort p) +:+ "/" +:+ pmType p
  else FormatInt (PrivatePort p) +:+ "/" +:+ pmType p.
Definition mountString (m : MountInfo) : string := mtType m +:+ " " +:+ mtSource m +:+ "->" +:+ mtDestination m +:+ " " +:+ (if mtRW m then "rw" else "ro").
Definition shortID (id : string) : string := if (12 <? String.length id)%nat then stake 12 id else id.

Record containerBrief := mkCBrief { cbID : string; cbName : string; cbImage : string; cbState : string; cbStatus : string; cbPorts : list string }.
Record containerDetailOut := mkCDetail {
  coID : string; coName : string; coImage : string; coState : string; coStatus : string; coHealth : string; coCreated : string; coStartedAt : string;
  coRestartCount : Z; coCommand : list string; coLabels : gmap string string; coPorts : list string; coMounts : list string; coRestartPolicy : string
}.
Definition brief (c : ContainerSummary) : containerBrief := mkCBrief (csID c) (csName c) (csImage c) (csState c) (csStatus c) (portString <$> csPorts c).
Definition detail_out (d : ContainerDetail) : containerDetailOut :=
  mkCDetail (cdID d) (cdName d) (cdImage d) (cdState d) (cdStatus d) (cdHealth d) (cdCreated d) (cdStartedAt d) (cdRestartCount d) (cdCommand d) (cdLabels d)
    (portString <$> cdPorts d) (mountString <$> cdMounts d) (cdRestartPolicy d).

(** ** What a tool is asked *)
Inductive Verb := VStart | VStop | VRestart.
Inductive SubVerb := SRestart | SStop.
Definition verb (v : Verb) : string := match v with VStart => "start" | VStop => "stop" | VRestart => "restart" end.
Definition subverb (v : SubVerb) : string := match v with SRestart => "restart" | SStop => "stop" end.
Record listAlertsInput := mkLAI { laSeverity : string; laKind : string; laContainer : string; laRule : string; laText : string; laHostID : Z; laLimit : Z }.
Record createWindowInput := mkCWI { cwName : string; cwReason : string; cwHostIDs : list Z; cwProject : string; cwContainer : string; cwRuleID : option Z; cwSeverities : list string; cwDurationMin : Z }.
Record searchLogsInput := mkSLI { slPattern : string; slRegex : bool; slContainer : string; slHostID : Z; slTail : Z }.
Inductive Tool :=
  | list_hosts | list_containers (hostID : Z) | get_container (hostID : Z) (id : string) | container_logs (hostID : Z) (id : string) (tail : Z)
  | list_images (hostID : Z) | list_projects (hostID : Z) | get_compose (hostID : Z) (project : string) | stats_overview (hostID : Z)
  | list_volumes (hostID : Z) | list_networks (hostID : Z) | system_info_tool (hostID : Z) | metrics_history (id range : string)
  | recent_audit (limit : Z) | recent_events (hostID minutes limit : Z)
  | list_alerts (i : listAlertsInput) | active_alert_conditions (hostID : Z) | acknowledge_alert (id : Z)
  | list_maintenance_windows | create_maintenance_window (i : createWindowInput) | end_maintenance_window (id : Z)
  | container_processes (hostID : Z) (id : string) | container_changes (hostID : Z) (id : string) | search_logs (i : searchLogsInput) | list_alert_rules (only_enabled : bool)
  | run_diagnostics (hostID : Z)
  | stack_action (v : Verb) (hostID : Z) (project : string) | stack_containers (v : SubVerb) (hostID : Z) (project : string) (ids : list string)
  | scan_image_tool (hostID : Z) (ref : string) | alert_delivery (id : Z) | preview_deploy (id : Z)
  | container_action (v : Verb) (hostID : Z) (id : string)
  | list_managed_projects | deploy_project (id : Z) (profiles : list string) (confirm : bool) | down_project (id : Z)
  | inventory_resource | compose_resource (uri : string).

Record metricsPoint := mkMP { mpT : Z; mpCPU : option float64; mpMem : option float64 }.
Inductive ToolOut :=
  | OHosts (l : list (Z * string * string * string * bool)) | OContainers (l : list containerBrief) | ODetail (d : containerDetailOut) | OLogs (lines : list LogLine) (truncated : bool)
  | OImages (l : list ImageSummary) | OProjects (l : list (string * Z * Z * string)) | OCompose (path content : string) | OPairs (l : list (string * string))
  | OVolumes (l : list VolumeSummary) | ONetworks (l : list NetworkSummary) | OMetrics (range : string) (l : list metricsPoint)
  | OAudit (l : list (Z * string * string * string * string)) | OEvents (l : list (Z * string * string * string * string))
  | OAlerts (l : list AlertEvent) (total : Z) | OConditions (l : list (AlertState * Z)) | OAck
  | OWindows (l : list (MaintenanceWindow * bool)) | OWindow (w : MaintenanceWindow) (active : bool) | OEnded
  | OTop (titles : list string) (rows : list (list string)) | OChanges (l : list DiffEntry) (truncated : bool)
  | OMatches (l : list (string * LogLine)) (searched : Z) (truncated : bool) | ORules (l : list (AlertRule * string)) | OReport (r : string)
  | OStack (project action : string) | OStackSubset (ok : bool) (project action : string) (rs : list BulkActionResult)
  | OScan (available : bool) (ref : string) (summary : gmap string Z) (vulns : list Vuln) (truncated : bool) (err : string)
  | ODeliveries (l : list AlertDelivery) | OPreview (p : ProjectPreview) | OAction (ok : bool) (action target output : string)
  | OManaged (l : list (Project * bool)) | OText (s : string).


(** ** The server *)
Section Server.
Context `{GS : GrantStore} `{C : Cipher} `{TE : TextEnv} `{Ln : Links} `{D : Binds.Daemon} `{En : Engine} `{X : Dialer} `{MB : Moby} `{Sh : Shells} `{TR : ToolReads}.
Variables (fault : HQuery -> bool) (afault : AQuery -> bool) (wfault : WQuery -> bool) (LoadLocation : string -> option Location).
(** History: [None] is no store; the failure of its lookup *)
Variables (hist : option memoryStore) (hist_fault : bool).
(** The orders bulk jobs finish in; the two instants the limiter reads, and the clock of
    what is written. *)
Variables (order : nat -> list nat) (now charge_now : Z).
(** Who the bearer token stands for. *)
Variable (who : option principal).

Definition fail {A} (e : string) : stM TWorld string A := st_fail e.
Definition on_e {A} (m : stM EWorld string A) : stM TWorld string A := fun w => let '(e, r) := m (twE w) in (set_te e w, r).
Definition on_dw {A} (m : stM DWorld string A) : stM TWorld string A := on_e (on_d m).
(** A result read off the state. *)
Definition see {A} (f : TWorld -> result string A) : stM TWorld string A := fun w => (w, f w).
(** A computation whose error the caller handles. *)
Definition attempt {A} (m : stM TWorld string A) : stM TWorld string (result string A) := fun w => let '(w, r) := m w in (w, Ok r).

(** *** The audit (server.go) *)
Definition auditOn (p : principal) (hostID : Z) (action target detail : string) (w : TWorld) : TWorld :=
  mkTW (twE w) (twG w) (twAlerts w) (Audit now (ID (puser p)) (Username (puser p)) action target detail (pip p) hostID (twAudit w)) (twRan w).
Definition reached (w : TWorld) : Z := default 0 (hwRec (dwH (twD w))).
Definition audit (p : principal) (action target detail : string) (w : TWorld) : TWorld := auditOn p (reached w) action target detail w.
Definition do_audit (p : principal) (action target detail : string) : stM TWorld string () := st_mod (audit p action target detail).
Definition do_auditOn (p : principal) (hostID : TWorld -> Z) (action target detail : string) : stM TWorld string () := st_mod (fun w => auditOn p (hostID w) action target detail w).
Definition local_id (w : TWorld) : result StoreErr Z := Hosts.LocalHostID fault (hwDB (dwH (twD w))).
Definition projectDaemonHost (projectID : Z) (w : TWorld) : Z :=
  match ProjectByID store_fault projectID (xDB (dwP (twD w))) with
  | Err _ => 0
  | Ok p => if 0 <? pHostID p then pHostID p else match local_id w with Ok id => id | Err _ => 0 end
  end.
Definition daemonHost (hostID : Z) (w : TWorld) : Z := if 0 <? hostID then hostID else match local_id w with Ok id => id | Err _ => 0 end.

(** *** The gate (server.go, tools_control.go) *)
(** The first refusal by the limiter leaves its mark in the audit log. *)
Definition with_marks (g : GState) (w : TWorld) : TWorld :=
  let fresh := drop (length (gaudit (twG w))) (gaudit g) in
  foldl (fun w m => match who with Some p => let '(action, target, detail) := m.2 in audit p action target detail w | None => w end) (set_tg g w) fresh.
Definition authorizeCharged (section : string) (write : bool) (hostID : Z) (charge : bool) : stM TWorld string principal := fun w =>
  let w := if 0 <? hostID then on_h (recordHost hostID) w else w in
  match McpGate.authorizeCharged now who section write hostID charge (twG w) with
  | (g, inl e) => (with_marks g w, Err e)
  | (g, inr p) => (with_marks g w, Ok p)
  end.
Definition authorize (section : string) (write : bool) (hostID : Z) : stM TWorld string principal := authorizeCharged section write hostID write.
Definition recheck (section : string) (write : bool) (hostID : Z) : stM TWorld string () := _ ← authorizeCharged section write hostID false; mret tt.
Definition recheckHost (section : string) (write : bool) (hostID : Z) : stM TWorld string () :=
  _ ← (if hostID =? 0 then mret tt else _ ← authorize "hosts" false hostID; mret tt);
  recheck section write hostID.
Definition errInvalidProject : string := "project_id must be a positive id from list_managed_projects".
Definition authorizeProjectHost (projectID : Z) (write : bool) : stM TWorld string () :=
  w ← st_get;
  match ProjectByID store_fault projectID (xDB (dwP (twD w))) with
  | Err _ => fail errInvalidProject
  | Ok p => recheckHost "projects" write (pHostID p)
  end.

(** *** Which hosts an aggregate answer covers (tools_alerts.go) *)
Definition localHostIDs (w : TWorld) : list Z := 0 :: match local_id w with Ok id => [id] | Err _ => [] end.
(** [None] is all of them. *)
Definition scopedHostIDs (p : principal) (w : TWorld) : option (list Z) :=
  if IsAdmin (puser p) then match phosts p with [] => None | hs => Some (localHostIDs w ++ hs) end
  else match gsReachableHosts (puser p) with
  | Err _ => Some (localHostIDs w)
  | Ok None => match phosts p with [] => None | hs => Some (localHostIDs w ++ hs) end
  | Ok (Some hosts) => Some (localHostIDs w ++ List.filter (fun id => match phosts p with [] => true | hs => containsID hs id end) (elements hosts))
  end.
(** The MCP twin of the handlers' check. *)
Definition maintenanceWindowHostsAllowed (p : principal) (hostIDs : list Z) (w : TWorld) : bool :=
  match hostIDs with
  | [] => match scopedHostIDs p w with None => true | Some _ => false end
  | _ => forallb (fun id => let id := gsNormalizeHostID id in
           match narrowed p "alerts" false id with Some _ => false | None => match checkAccess (puser p) "alerts" false id with Some _ => false | None => true end end) hostIDs
  end.

(** *** Charging for more than one container (tools_parity.go) *)
Definition maxStackContainerIDs : Z := 10.
Definition validateStackContainerIDs (ids : list string) : option string :=
  match ids with
  | [] => Some "container_ids is required"
  | _ => if maxStackContainerIDs <? Z.of_nat (length ids) then
           Some ("container_ids has " +:+ FormatInt (Z.of_nat (length ids)) +:+ " entries; restart_stack_containers/stop_stack_containers are capped at " +:+ FormatInt maxStackContainerIDs +:+ " per call — use restart_stack/stop_stack to act on the whole stack instead")
         else None
  end.
(** float64(n) against the burst: both are exact for the length of a list. *)
Definition chargeAdditionalContainers (p : principal) (n : Z) : stM TWorld string () := fun w =>
  if n - 1 <=? 0 then (w, Ok tt)
  else if controlBurst <? n then
    (w, Err ("this call would change " +:+ FormatInt n +:+ " containers, more than the " +:+ FormatInt controlBurst +:+ "-per-minute change budget can ever hold in one go — retrying will not help. Act on it in smaller batches (restart_stack_containers/stop_stack_containers, up to " +:+ FormatInt maxStackContainerIDs +:+ " containers per call) or from the web UI"))
  else match reserve charge_now (ID (puser p)) (n - 1) (glimiter (twG w)) with
       | (l, (true, _)) => (set_tg (mkGState l (gaudit (twG w))) w, Ok tt)
       | (l, (false, firstTrip)) =>
           let w := set_tg (mkGState l (gaudit (twG w))) w in
           (if firstTrip then auditOn p 0 "mcp.ratelimit" "containers" "control rate limit reached via MCP; changes refused" w else w, Err errControlRateLimited)
       end.

(** ** Control tools (tools_control.go, tools_parity.go) *)
Definition outcome (e : option string) : string := match e with Some e => "via MCP — failed: " +:+ e | None => "via MCP" end.
Definition err_of {A} (r : result string A) : option string := match r with Ok _ => None | Err e => Some e end.
Definition combineErr (out e : string) : string := if String.eqb out "" then "error: " +:+ e else out +:+ newline +:+ "error: " +:+ e.
Definition projectTarget (id : Z) : string := "project#" +:+ FormatInt id.

Definition containerActionTool (action : string) (hostID : Z) (id : string) : stM TWorld string ToolOut :=
  p ← authorize "containers" true hostID;
  if String.eqb id "" then fail "container_id is required"
  else
    r ← attempt (on_dw (ContainerAction fault hostID id action));
    _ ← do_audit p ("mcp.container." +:+ action) id (outcome (err_of r));
    match r with Err e => fail e | Ok _ => mret (OAction true action id "") end.

(** A claim released whatever becomes of [m]. *)
Definition under_claim {A} (hostID : Z) (project what : string) (m : stM TWorld string A) : stM TWorld string A := fun w =>
  match beginStackOp hostID project what (twD w) with
  | (d, Err (_, e)) => (set_te (set_ed d (twE w)) w, Err e)
  | (d, Ok claim) =>
      let '(w, r) := m (set_te (set_ed d (twE w)) w) in
      (set_te (set_ed (release claim (twD w)) (twE w)) w, r)
  end.

Definition runStackAction (p : principal) (hostID : Z) (project action : string) (ids : list string) : stM TWorld string ToolOut :=
  match ids with
  | [] => let e := "no containers found for stack " +:+ Quote project in _ ← do_audit p ("mcp.stack." +:+ action) project (outcome (Some e)); fail e
  | _ =>
      c ← attempt (chargeAdditionalContainers p (Z.of_nat (length ids)));
      match c with
      | Err e => _ ← do_audit p ("mcp.stack." +:+ action) project (outcome (Some e)); fail e
      | Ok _ =>
          r ← attempt (on_dw (StackActionOnIDs fault hostID ids action));
          _ ← do_audit p ("mcp.stack." +:+ action) project (outcome (err_of r));
          match r with Err e => fail e | Ok _ => mret (OStack project action) end
      end
  end.
Definition stackActionTool (action : string) (hostID : Z) (project : string) : stM TWorld string ToolOut :=
  p ← authorize "containers" true hostID;
  if String.eqb (TrimSpace project) "" then fail "project is required"
  else under_claim hostID project ("a stack " +:+ action) (
    ids ← on_dw (StackContainerIDs fault hostID project);
    runStackAction p hostID project action ids).

(** One line per container; whether all succeeded. *)
Definition auditStackContainerResults (p : principal) (action : string) (rs : list BulkActionResult) (w : TWorld) : TWorld :=
  foldl (fun w r => audit p ("mcp.container." +:+ action) (bulkID r) (outcome (if bulkOK r then None else Some (bulkError r))) w) w rs.
Definition stackContainersActionTool (action : string) (hostID : Z) (project : string) (ids : list string) : stM TWorld string ToolOut :=
  p ← authorize "containers" true hostID;
  if String.eqb (TrimSpace project) "" then fail "project is required"
  else match validateStackContainerIDs ids with
  | Some e => fail e
  | None => under_claim hostID project ("a stack " +:+ action) (
      if negb (String.eqb (FirstDuplicateID ids) "") then
        let e := "container_ids lists " +:+ Quote (FirstDuplicateID ids) +:+ " more than once; each container may appear only once per call" in
        _ ← do_audit p ("mcp.stack." +:+ action) project (outcome (Some e)); fail e
      else
        c ← attempt (chargeAdditionalContainers p (Z.of_nat (length ids)));
        match c with
        | Err e => _ ← do_audit p ("mcp.stack." +:+ action) project (outcome (Some e)); fail e
        | Ok _ =>
            r ← attempt (on_dw (BulkStackContainerAction fault order hostID project ids action));
            match r with
            | Err e => _ ← do_audit p ("mcp.stack." +:+ action) project (outcome (Some e)); fail e
            | Ok rs => _ ← st_mod (auditStackContainerResults p action rs); mret (OStackSubset (forallb bulkOK rs) project action rs)
            end
        end)
  end.

(** *** Managed projects *)
Definition on_world {A} (m : stM World string A) : stM TWorld string A := on_dw (fun d => let '(x, r) := m (dwP d) in (set_dp x d, r)).
(** The hosts already looked at are remembered. *)
Fixpoint reachable_projects (seen : gmap Z bool) (ps : list (Project * bool)) : stM TWorld string (list (Project * bool)) :=
  match ps with
  | [] => mret []
  | p :: ps =>
      ok ← (match seen !! pHostID p.1 with Some b => mret b | None => r ← attempt (recheckHost "projects" false (pHostID p.1)); mret (is_ok r) end);
      rest ← reachable_projects (<[pHostID p.1 := ok]> seen) ps;
      mret (if ok : bool then p :: rest else rest)
  end.
Definition listManagedProjects : stM TWorld string ToolOut :=
  _ ← authorize "projects" false 0;
  ps ← see (fun w => mcpListProjects (dwP (twD w)));
  out ← reachable_projects ∅ ps;
  mret (OManaged out).
(** What both changing tools do around the operation itself. *)
Definition projectTool (action : string) (id : Z) (op : stM World string (string * option string)) : stM TWorld string ToolOut :=
  p ← authorize "projects" true 0;
  if id <=? 0 then fail errInvalidProject
  else
    _ ← authorizeProjectHost id true;
    r ← attempt (on_world op);
    let '(out, derr) := match r with Ok (out, e) => (out, e) | Err e => ("", Some e) end in
    _ ← do_auditOn p (projectDaemonHost id) ("mcp.project." +:+ action) (projectTarget id) (outcome derr);
    mret (OAction (match derr with None => true | _ => false end) action (projectTarget id) (match derr with None => out | Some e => combineErr out e end)).
Definition deployProject (id : Z) (profiles : list string) (confirm : bool) : stM TWorld string ToolOut := projectTool "deploy" id (mcpDeployProject id profiles confirm).
Definition downProject (id : Z) : stM TWorld string ToolOut := projectTool "down" id (mcpDownProject id).
Definition previewDeploy (id : Z) : stM TWorld string ToolOut :=
  _ ← authorize "projects" false 0;
  if id <=? 0 then fail "project_id is required"
  else _ ← authorizeProjectHost id false; p ← on_world (mcpPreviewProject id); mret (OPreview p).

(** ** Read tools (tools_read.go, tools_read_more.go) *)
(** A tool that authorises, asks the host's daemon once and renders the answer. *)
Definition daemon_read {A} (section : string) (hostID : Z) (q : Trace -> Conn -> result string A) (render : A -> ToolOut) : stM TWorld string ToolOut :=
  _ ← authorize section false hostID;
  a ← on_dw (cli ← daemon fault hostID; ask (fun fx => q fx cli));
  mret (render a).
Definition listHosts : stM TWorld string ToolOut :=
  _ ← authorize "hosts" false 0;
  hs ← see (fun w => match ListHosts fault (hwDB (dwH (twD w))) with Ok l => Ok l | Err e => Err (db_text e) end);
  mret (OHosts ((fun h => (hrID h, hrName h, hrKind h, hrAddress h, hrDisabled h)) <$> hs)).
Definition listContainers (hostID : Z) : stM TWorld string ToolOut :=
  _ ← authorize "containers" false hostID; cs ← on_dw (ListContainers fault hostID); mret (OContainers (brief <$> cs)).
Definition getContainer (hostID : Z) (id : string) : stM TWorld string ToolOut :=
  _ ← authorize "containers" false hostID; d ← on_dw (InspectContainer fault hostID id); mret (ODetail (detail_out d)).

(** What is missing, or too small, reads as the default; what is too large as the cap. *)
Definition bounded (n default_ cap : Z) : Z := let n := if n <=? 0 then default_ else n in if cap <? n then cap else n.
Definition logsDefaultTail : Z := 200.
Definition logsMaxTail : Z := 1000.
Definition logsMaxBytes : Z := 64 * 1024.
(** Lines are kept until one would pass the cap; from there on nothing is. *)
Definition keep_line (acc : list LogLine * Z * bool) (l : LogLine) : list LogLine * Z * bool :=
  let '(out, so_far, truncated) := acc in
  if truncated : bool then acc
  else if logsMaxBytes <? so_far + Z.of_nat (String.length (llMessage l)) then (out, so_far, true)
  else (out ++ [l], so_far + Z.of_nat (String.length (llMessage l)), false).
Definition containerLogs (hostID : Z) (id : string) (tail : Z) : stM TWorld string ToolOut :=
  _ ← authorize "logs" false hostID;
  ls ← on_dw (cli ← daemon fault hostID; ask (fun fx => let '(ls, e) := stream_logs fx cli id (bounded tail logsDefaultTail logsMaxTail) in match e with Some e => Err e | None => Ok ls end));
  let '(out, _, truncated) := foldl keep_line ([], 0, false) ls in
  mret (OLogs out truncated).

Definition listImages (hostID : Z) : stM TWorld string ToolOut := daemon_read "images" hostID images OImages.
Definition listProjects (hostID : Z) : stM TWorld string ToolOut :=
  _ ← authorize "projects" false hostID;
  ss ← on_dw (ListStacks fault hostID);
  mret (OProjects ((fun s => (siProject s, siRunning s, Z.of_nat (length (siContainers s)), siConfigFile s)) <$> ss)).
Definition getCompose (hostID : Z) (project : string) : stM TWorld string ToolOut :=
  _ ← authorize "projects" false hostID;
  pc ← on_e (StackComposeFile fault hostID project);
  mret (OCompose pc.1 pc.2).
Definition statsOverview (hostID : Z) : stM TWorld string ToolOut := daemon_read "dashboard" hostID overview OPairs.
Definition listVolumes (hostID : Z) : stM TWorld string ToolOut := daemon_read "volumes" hostID volumes OVolumes.
Definition listNetworks (hostID : Z) : stM TWorld string ToolOut := daemon_read "networks" hostID networks ONetworks.
Definition systemInfo (hostID : Z) : stM TWorld string ToolOut := daemon_read "dashboard" hostID system_info OPairs.

Definition rangeWindows (range : string) : option Z :=
  if String.eqb range "15m" then Some (15 * minute) else if String.eqb range "1h" then Some hour else if String.eqb range "6h" then Some (6 * hour) else None.
(** The two series merged by time. *)
Definition merge_series (cpu mem : list Point) : list metricsPoint :=
  let add (set : metricsPoint -> float64 -> metricsPoint) (m : gmap Z metricsPoint) (pt : Point) :=
    <[T pt := set (default (mkMP (T pt) None None) (m !! T pt)) (V pt)]> m in
  let m := foldl (add (fun p v => mkMP (mpT p) (Some v) (mpMem p))) ∅ cpu in
  let m := foldl (add (fun p v => mkMP (mpT p) (mpCPU p) (Some v))) m mem in
  omap (fun t => m !! t) (merge_sort Z.le ((map_to_list m).*1)).
Definition metricsHistory (id range : string) : stM TWorld string ToolOut :=
  match hist with
  | None => _ ← authorize "dashboard" false 0; fail "metrics history is not available"
  | Some m =>
      if hist_fault then fail "history"
      else
        _ ← authorize "dashboard" false (default (-1) (HostFor m id));
        let '(range, window) := match rangeWindows range with Some w => (range, w) | None => ("1h", hour) end in
        mret (OMetrics range (merge_series (mem_Query m id "cpu" (now - window)) (mem_Query m id "mem" (now - window))))
  end.

Definition auditDefaultLimit : Z := 50.
Definition auditMaxLimit : Z := 200.
(** The detail is left out. *)
Definition audit_brief (e : AuditEntry) : Z * string * string * string * string := (enAt e, enUsername e, enAction e, enTarget e, enIP e).
Definition recentAudit (limit : Z) : stM TWorld string ToolOut :=
  p ← authorize "audit" false 0;
  w ← st_get;
  mret (OAudit (audit_brief <$> RecentAudit (bounded limit auditDefaultLimit auditMaxLimit) 0 (scopedHostIDs p w) (twAudit w))).
Definition eventsDefaultMinutes : Z := 30.
Definition eventsMaxMinutes : Z := 360.
Definition eventsDefaultLimit : Z := 100.
Definition eventsMaxLimit : Z := 500.
(** The actor's attributes are left out. *)
Definition event_brief (e : EventMsg) : Z * string * string * string * string := (emTime e, emType e, emAction e, emName e, shortID (emID e)).
Definition recentEvents (hostID minutes limit : Z) : stM TWorld string ToolOut :=
  daemon_read "events" hostID (fun fx cli => daemon_events fx cli (bounded minutes eventsDefaultMinutes eventsMaxMinutes) (bounded limit eventsDefaultLimit eventsMaxLimit))
    (fun l => OEvents (event_brief <$> l)).

(** ** Alert tools (tools_alerts.go, tools_parity.go, tools_diagnose.go) *)
Definition alertsDefaultLimit : Z := 50.
Definition alertsMaxLimit : Z := 200.
Definition alert_query (i : listAlertsInput) (hosts : option (list Z)) : AlertQuery :=
  mkQuery (laSeverity i) [] (laKind i) false (if laHostID i =? 0 then None else Some (laHostID i)) (laContainer i) (laRule i) (laText i) false hosts
    (bounded (laLimit i) alertsDefaultLimit alertsMaxLimit) 0 "" false.
Definition listAlerts (i : listAlertsInput) : stM TWorld string ToolOut :=
  p ← authorize "alerts" false (laHostID i);
  r ← see (fun w => match ListAlertEvents afault (alert_query i (scopedHostIDs p w)) (twAlerts w) with Ok r => Ok r | Err e => Err (db_text e) end);
  mret (OAlerts r.1 r.2).
(** Rows of hosts out of reach are passed over. *)
Definition condition_seen (p : principal) (hostID : Z) (st : AlertState) : bool :=
  match narrowed p "alerts" false (tHostID st) with
  | Some _ => false
  | None => match checkAccess (puser p) "alerts" false (tHostID st) with Some _ => false | None => (hostID =? 0) || (tHostID st =? hostID) end
  end.
Definition activeAlertConditions (hostID : Z) : stM TWorld string ToolOut :=
  p ← authorize "alerts" false hostID;
  sts ← see (fun w => match ListAlertStates afault (twAlerts w) with Ok l => Ok l | Err e => Err (db_text e) end);
  mret (OConditions ((fun st => (st, Z.quot (time_sub now (tStartedAt st)) second)) <$> List.filter (condition_seen p hostID) sts)).
Definition errNoSuchAlert : string := "no such alert, or it belongs to a host outside your access".
Definition on_alerts {A} (m : stM AlertDB StoreErr A) : stM TWorld string A := fun w =>
  match m (twAlerts w) with (a, Ok r) => (set_talerts a w, Ok r) | (a, Err e) => (set_talerts a w, Err (db_text e)) end.
Definition acknowledgeAlert (id : Z) : stM TWorld string ToolOut :=
  p ← authorize "alerts" true 0;
  if id <=? 0 then fail "id is required"
  else
    w ← st_get;
    match AlertEventHost afault id (twAlerts w) with
    | Err _ => fail errNoSuchAlert
    | Ok h =>
        r ← attempt (recheck "alerts" true h);
        match r with
        | Err _ => fail errNoSuchAlert
        | Ok _ =>
            _ ← on_alerts (AckAlertEvent afault id (Username (puser p)) now);
            _ ← do_audit p "mcp.alert.ack" (FormatInt id) "";
            mret OAck
        end
    end.
(** store.AlertDeliveriesFor of one event *)
Definition deliveries_for (id : Z) (a : AlertDB) : result string (list AlertDelivery) :=
  if afault (QListDeliveries id) then Err (db_text ErrDB) else Ok (List.filter (fun d => dEventID d =? id) (adeliveries a)).
Definition alertDelivery (id : Z) : stM TWorld string ToolOut :=
  _ ← authorize "alerts" false 0;
  if id <=? 0 then fail "alert_id is required"
  else
    w ← st_get;
    match AlertEventHost afault id (twAlerts w) with
    | Err _ => fail errNoSuchAlert
    | Ok h =>
        r ← attempt (authorize "alerts" false h);
        match r with
        | Err _ => fail errNoSuchAlert
        | Ok _ => ds ← see (fun w => deliveries_for id (twAlerts w)); mret (ODeliveries ds)
        end
    end.
Definition rule_channels (r : AlertRule) : string :=
  Join ((match aWebhookID r with Some _ => ["webhook"] | None => [] end) ++ (if aEmail r then ["email"] else [])) ",".
Definition listAlertRules (only_enabled : bool) : stM TWorld string ToolOut :=
  _ ← authorize "alerts" false 0;
  rs ← see (fun w => match ListAlertRules afault (twAlerts w) with Ok l => Ok l | Err e => Err (db_text e) end);
  mret (ORules ((fun r => (r, rule_channels r)) <$> List.filter (fun r => negb (only_enabled && negb (aEnabled r))) rs)).

(** ** Maintenance tools (tools_maintenance.go) *)
Definition on_wins {A} (m : stM Windows StoreErr A) : stM TWorld string A := fun w =>
  match m (twWins w) with (t, Ok r) => (set_twins t w, Ok r) | (t, Err e) => (set_twins t w, Err (db_text e)) end.
Definition audit_host_of (hostIDs : list Z) (w : TWorld) : Z := AuditHostOf (local_id w) hostIDs.
(** The latest first. *)
Definition newest_window (a b : MaintenanceWindow) : Prop := wCreatedAt b <= wCreatedAt a.
#[global] Instance newest_window_dec a b : Decision (newest_window a b) := ltac:(unfold newest_window; apply _).
Definition ListMaintenanceWindows (t : Windows) : result StoreErr (list MaintenanceWindow) := if wfault WList then Err ErrDB else Ok (merge_sort newest_window (rows t)).
Definition listMaintenanceWindows : stM TWorld string ToolOut :=
  p ← authorize "alerts" false 0;
  ws ← see (fun w => match ListMaintenanceWindows (twWins w) with Ok l => Ok l | Err e => Err (db_text e) end);
  w ← st_get;
  mret (OWindows ((fun win => (win, Maintenance.Active LoadLocation win now)) <$> List.filter (fun win => maintenanceWindowHostsAllowed p (HostIDs win) w) ws)).
Definition new_window (p : principal) (i : createWindowInput) (hostIDs : list Z) : MaintenanceWindow :=
  mkWin 0 (cwName i) (cwReason i) (ID (puser p)) hostIDs (cwProject i) (cwContainer i) (cwRuleID i) (cwSeverities i) false now (now + dur_mul (cwDurationMin i) minute) [] "" 0 "" false 0.
Definition with_id (id : Z) (w : MaintenanceWindow) : MaintenanceWindow :=
  mkWin id (wName w) (wReason w) (AuthorID w) (HostIDs w) (Maintenance.Project w) (Container w) (RuleID w) (Severities w) (Recurring w) (StartsAt w) (EndsAt w) (Weekdays w) (TimeOfDay w) (DurationMin w) (Timezone w) (Ended w) (wCreatedAt w).
Definition createMaintenanceWindow (i : createWindowInput) : stM TWorld string ToolOut :=
  p ← authorize "alerts" true 0;
  if String.eqb (cwName i) "" then fail "name is required"
  else if String.eqb (cwReason i) "" then fail "reason is required"
  else if cwDurationMin i <=? 0 then fail "duration_min must be positive"
  else match List.find (fun s => negb (validSeverities s)) (cwSeverities i) with
  | Some s => fail ("unknown severity " +:+ Quote s +:+ " (must be info, warning or critical)")
  | None =>
      let hostIDs := gsNormalizeHostID <$> cwHostIDs i in
      w ← st_get;
      if negb (maintenanceWindowHostsAllowed p hostIDs w) then fail "cannot scope a maintenance window to a host outside your access"
      else
        let win := new_window p i hostIDs in
        id ← on_wins (CreateMaintenanceWindow wfault win now);
        _ ← do_auditOn p (audit_host_of (HostIDs win)) "mcp.maintenance_window.create" (cwName i) (cwReason i);
        mret (OWindow (with_id id win) (Maintenance.Active LoadLocation (with_id id win) now))
  end.
Definition errNoSuchMaintenanceWindow : string := "no such maintenance window, or it belongs to a host outside your access".
Definition endMaintenanceWindow (id : Z) : stM TWorld string ToolOut :=
  p ← authorize "alerts" true 0;
  if id <=? 0 then fail "id is required"
  else
    w ← st_get;
    match MaintenanceWindowByID wfault (twWins w) id with
    | Err _ => fail errNoSuchMaintenanceWindow
    | Ok win =>
        if negb (maintenanceWindowHostsAllowed p (HostIDs win) w) then fail errNoSuchMaintenanceWindow
        else
          _ ← on_wins (EndMaintenanceWindow wfault id);
          _ ← do_auditOn p (audit_host_of (HostIDs win)) "mcp.maintenance_window.end" (FormatInt id) "";
          mret OEnded
    end.

(** ** Diagnostic tools (tools_diagnose.go, tools_parity.go) *)
Definition searchDefaultTail : Z := 500.
Definition searchMaxTail : Z := 2000.
Definition searchMaxMatches : nat := 200.
Definition searchMaxPattern : nat := 200.
Definition diffMaxEntries : nat := 500.
Definition containerProcesses (hostID : Z) (id : string) : stM TWorld string ToolOut := daemon_read "containers" hostID (fun fx cli => container_top fx cli id) (fun t => OTop t.1 t.2).
Definition containerChanges (hostID : Z) (id : string) : stM TWorld string ToolOut :=
  daemon_read "containers" hostID (fun fx cli => container_diff fx cli id) (fun l => OChanges (take diffMaxEntries l) (diffMaxEntries <? length l)%nat).
Record Search := mkSearch { seMatches : list (string * LogLine); seSearched : Z; seTruncated : bool }.
Definition match_line (hit : string -> bool) (name : string) (s : Search) (l : LogLine) : Search :=
  if (searchMaxMatches <=? length (seMatches s))%nat then mkSearch (seMatches s) (seSearched s) true
  else if hit (llMessage l) then mkSearch (seMatches s ++ [(name, l)]) (seSearched s) (seTruncated s) else s.
(** A container whose logs can't be read contributes what was read. *)
Fixpoint search_containers (hostID tail : Z) (hit : string -> bool) (cs : list ContainerSummary) (s : Search) (w : DWorld) : DWorld * Search :=
  match cs with
  | [] => (w, s)
  | c :: cs =>
      if (searchMaxMatches <=? length (seMatches s))%nat then (w, mkSearch (seMatches s) (seSearched s) true)
      else
        let s := mkSearch (seMatches s) (seSearched s + 1) (seTruncated s) in
        match daemon fault hostID w with
        | (w, Err _) => search_containers hostID tail hit cs s w
        | (w, Ok cli) => search_containers hostID tail hit cs (foldl (match_line hit (csName c)) s (stream_logs (dwFx w) cli (csID c) tail).1) w
        end
  end.
Definition searchLogs (i : searchLogsInput) : stM TWorld string ToolOut :=
  _ ← authorize "logs" false (slHostID i);
  if String.eqb (TrimSpace (slPattern i)) "" then fail "pattern is required"
  else if (searchMaxPattern <? String.length (slPattern i))%nat then fail "pattern is too long"
  else match (if slRegex i then regexp_compile (slPattern i) else Ok (fun m => Contains (ToLower m) (ToLower (slPattern i)))) with
  | Err e => fail e
  | Ok hit =>
      cs ← on_dw (ListContainers fault (slHostID i));
      let cs := List.filter (fun c => is_running (csState c) && (String.eqb (slContainer i) "" || Contains (ToLower (csName c)) (ToLower (slContainer i)))) cs in
      s ← on_dw (fun d => let '(d, s) := search_containers (slHostID i) (bounded (slTail i) searchDefaultTail searchMaxTail) hit cs (mkSearch [] 0 false) d in (d, Ok s));
      mret (OMatches (seMatches s) (seSearched s) (seTruncated s))
  end.
Definition runDiagnostics (hostID : Z) : stM TWorld string ToolOut :=
  p ← authorize "diagnostics" true hostID;
  r ← attempt (cli ← on_dw (daemon fault hostID); _ ← st_mod (add_ran (RanDiagnostics hostID)); on_dw (ask (fun fx => diagnose fx cli)));
  _ ← do_audit p "mcp.diagnostics.run" "" (outcome (err_of r));
  match r with Err e => fail e | Ok rep => mret (OReport rep) end.

(** ^[a-zA-Z0-9][a-zA-Z0-9._:/@-]{0,511}$ *)
Definition alnum (c : Ascii.ascii) : bool := let n := code c in ((48 <=? n) && (n <=? 57)) || ((65 <=? n) && (n <=? 90)) || ((97 <=? n) && (n <=? 122)).
Definition ref_char (c : Ascii.ascii) : bool := alnum c || existsb (Ascii.eqb c) ["."%char; "_"%char; ":"%char; "/"%char; "@"%char; "-"%char].
Definition ValidImageRef (ref : string) : bool :=
  match bytes ref with [] => false | c :: cs => alnum c && forallb ref_char cs && (length cs <=? 511)%nat end.
Definition scanMaxVulns : nat := 100.
Definition no_scan (available : bool) (e : string) : ToolOut := OScan available "" ∅ [] false e.
Definition scanImage (hostID : Z) (ref : string) : stM TWorld string ToolOut :=
  p ← authorize "images" true hostID;
  if negb (ValidImageRef ref) then fail "invalid image reference"
  else if negb trivy_available then mret (no_scan false "Trivy is not installed on the host running Docker Commander")
  else
    w ← st_get;
    match (if hostID =? 0 then Ok (Ok []) else match HostByID fault hostID (hwDB (dwH (twD w))) with Err _ => Err "unknown host" | Ok h => Ok (compose_host_env h) end) with
    | Err e => fail e
    | Ok (Err e) => mret (no_scan true e)
    | Ok (Ok env) =>
        let auditHost := daemonHost hostID w in
        _ ← st_mod (add_ran (RanScan hostID ref));
        let r := scan_image env ref in
        _ ← do_auditOn p (fun _ => auditHost) "mcp.image.scan" ref (outcome (err_of r));
        match r with
        | Err e => mret (no_scan true e)
        | Ok res => mret (OScan true (srRef res) (srSummary res) (take scanMaxVulns (srVulns res)) (scanMaxVulns <? length (srVulns res))%nat "")
        end
    end.

(** ** Resources (resources.go) *)
Definition resInventory : stM TWorld string ToolOut :=
  _ ← authorize "containers" false 0;
  cs ← on_dw (ListContainers fault 0);
  mret (OContainers (brief <$> cs)).
Definition resCompose (uri : string) : stM TWorld string ToolOut :=
  _ ← authorize "projects" false 0;
  let project := TrimPrefix uri "dc://compose/" in
  if String.eqb project "" || String.eqb project uri then fail "malformed compose resource URI"
  else pc ← on_e (StackComposeFile fault 0 project); mret (OText pc.2).

(** ** The server's dispatch (server.go) *)
Definition run_tool (t : Tool) : stM TWorld string ToolOut :=
  match t with
  | list_hosts => listHosts | list_containers h => listContainers h | get_container h id => getContainer h id | container_logs h id n => containerLogs h id n
  | list_images h => listImages h | list_projects h => listProjects h | get_compose h p => getCompose h p | stats_overview h => statsOverview h
  | list_volumes h => listVolumes h | list_networks h => listNetworks h | system_info_tool h => systemInfo h | metrics_history id r => metricsHistory id r
  | recent_audit n => recentAudit n | recent_events h m n => recentEvents h m n
  | list_alerts i => listAlerts i | active_alert_conditions h => activeAlertConditions h | acknowledge_alert id => acknowledgeAlert id
  | list_maintenance_windows => listMaintenanceWindows | create_maintenance_window i => createMaintenanceWindow i | end_maintenance_window id => endMaintenanceWindow id
  | container_processes h id => containerProcesses h id | container_changes h id => containerChanges h id | search_logs i => searchLogs i | list_alert_rules b => listAlertRules b
  | run_diagnostics h => runDiagnostics h
  | stack_action v h p => stackActionTool (verb v) h p | stack_containers v h p ids => stackContainersActionTool (subverb v) h p ids
  | scan_image_tool h r => scanImage h r | alert_delivery id => alertDelivery id | preview_deploy id => previewDeploy id
  | container_action v h id => containerActionTool (verb v) h id
  | list_managed_projects => listManagedProjects | deploy_project id ps b => deployProject id ps b | down_project id => downProject id
  | inventory_resource => resInventory | compose_resource uri => resCompose uri
  end.
(** One request: its own recorder. *)
Definition call (t : Tool) : stM TWorld string ToolOut := fun w => run_tool t (on_h WithHostRecorder w).
End Server.
