(* ===== verification/McpToolsSpec.v ===== *)
(** * What the tools of the MCP server may do (McpTools)

    Every call of every tool, over what it sees: who is let through, what a call that is
    turned away leaves alone, what a change costs and leaves in the audit log, what an
    answer may hold. *)
From S2P Require Import Prelude Floats Limits GoStrings Password Users Roles RoleHandlers Access Calendar Accounts Login ApiTokens Alerts Maintenance MaintenanceHandlers History Config Paths McpGate Compose Policy Preview Sandbox ProjectStore Binds Projects Hosts Docker StackEdit McpTools.

(** ** What a call left alone *)
(** Over SSH, reading a file runs [head]. *)
Definition reads_only (w w' : EWorld) : Prop :=
  ewFS w' = ewFS w /\ exists l, ewRun w' = ewRun w ++ ((fun x : Z * string => RunSSH x.1 (head_command x.2) "") <$> l).
(** Hosts, daemons, projects with their folders and windows, files, alerts: as they were. *)
Record same_estate (w w' : TWorld) : Prop := {
  se_hosts : hwDB (dwH (twD w')) = hwDB (dwH (twD w));
  se_lines : hwAudit (dwH (twD w')) = hwAudit (dwH (twD w));
  se_asked : dwFx (twD w') = dwFx (twD w);
  se_projects : dwP (twD w') = dwP (twD w);
  se_files : reads_only (twE w) (twE w');
  se_alerts : twAlerts w' = twAlerts w;
  se_ran : twRan w' = twRan w
}.
#[global] Instance same_estate_preorder : PreOrder same_estate.
Proof.
  split.
  - intros w. split; try done. split; [done|]. exists []. by rewrite app_nil_r.
  - intros w1 w2 w3 [A1 A2 A3 A4 [A5 [l1 A6]] A7 A8] [B1 B2 B3 B4 [B5 [l2 B6]] B7 B8]. split; try congruence. split; [congruence|].
    exists (l1 ++ l2). by rewrite B6, A6, fmap_app, <- app_assoc.
Qed.
(** The audit log is only added to. *)
Definition more_notes (w w' : TWorld) : Prop := exists l, audit_rows (twAudit w') = audit_rows (twAudit w) ++ l.
#[global] Instance more_notes_preorder : PreOrder more_notes.
Proof.
  split; [intros w; exists []; by rewrite app_nil_r|]. intros w1 w2 w3 [l1 H1] [l2 H2]. exists (l1 ++ l2). by rewrite H2, H1, <- app_assoc.
Qed.
Definition named (w : TWorld) : Prop := conns_named (dwH (twD w)).
(** What a user has left to change at an instant. *)
Definition budget (uid now k : Z) (w : TWorld) : Prop :=
  match glimiter (twG w) with
  | None => False
  | Some l => match l !! uid with None => k = controlBurst | Some b => tokens b = of_Z k /\ last b = now end
  end.

Lemma reserve_budget now uid n k l l' ok first : 0 <= k <= controlBurst -> n <= 256 ->
  match l !! uid with None => k = controlBurst | Some b => tokens b = of_Z k /\ last b = now end ->
  reserve now uid n (Some l) = (l', (ok, first)) -> exists l1 b, l' = Some l1 /\ l1 !! uid = Some b /\ last b = now /\
    if ok then Z.max 1 n <= k /\ tokens b = of_Z (k - Z.max 1 n) else tokens b = of_Z k.
Proof.
  unfold controlBurst. intros Hk Hn Hb. unfold reserve. rewrite clamp_unit. set (m := Z.max 1 n). set (b := match l !! uid with None => _ | Some b => _ end).
  assert (Hb' : tokens b = of_Z k /\ last b = now).
  { unfold b. destruct (l !! uid) as [b0|]; [|by subst k]. by rewrite refilled_same by apply Hb. }
  destruct Hb' as [Ht Hl]. destruct (units k m) as [Hlt Hsub]; [lia|unfold m; lia|]. rewrite Ht, Hlt. destruct (k <? m) eqn:E; bsimp; intros [= <- <- <-].
  - eexists _, _. split; [done|]. rewrite lookup_insert_eq. split; [done|]. done.
  - eexists _, _. split; [done|]. rewrite lookup_insert_eq. split; [done|]. split; [exact Hl|]. split; [lia|]. cbn. apply Hsub. lia.
Qed.

Section Spec.
Context `{GS : GrantStore} `{C : Cipher} `{TE : TextEnv} `{Ln : Links} `{D : Binds.Daemon} `{En : Engine} `{X : Dialer} `{MB : Moby} `{Sh : Shells} `{TR : ToolReads}.
Context (fault : HQuery -> bool) (afault : AQuery -> bool) (wfault : WQuery -> bool) (LoadLocation : string -> option Location).
Context (hist : option memoryStore) (hist_fault : bool) (order : nat -> list nat) (now charge_now : Z) (who : option principal).
Notation authorizeCharged := (McpTools.authorizeCharged now who).
Notation authorize := (McpTools.authorize now who).
Notation recheck := (McpTools.recheck now who).

(** At one instant, [n] units fewer are left than were. *)
Definition spends (n : Z) (w w' : TWorld) : Prop := charge_now = now -> forall p k, who = Some p -> 0 <= k <= controlBurst ->
  budget (ID (puser p)) now k w -> exists k', 0 <= k' <= k - n /\ budget (ID (puser p)) now k' w'.
Lemma spends_same w w' : glimiter (twG w') = glimiter (twG w) -> spends 0 w w'.
Proof. intros Hg _ p k _ Hk Hb. exists k. split; [lia|]. unfold budget in *. by rewrite Hg. Qed.
Lemma spends_trans n1 n2 w1 w2 w3 : 0 <= n1 -> spends n1 w1 w2 -> spends n2 w2 w3 -> spends (n1 + n2) w1 w3.
Proof.
  intros Hn H1 H2 He p k Hp Hk Hb. destruct (H1 He p k Hp Hk Hb) as (k1 & Hk1 & Hb1). destruct (H2 He p k1 Hp ltac:(lia) Hb1) as (k2 & Hk2 & Hb2). exists k2. split; [lia|done].
Qed.

(** A step that leaves the estate alone. *)
Record idle_step (w w' : TWorld) : Prop := { is_named : named w -> named w'; is_same : same_estate w w'; is_notes : more_notes w w'; is_spent : spends 0 w w' }.
#[local] Instance idle_preorder : PreOrder idle_step.
Proof.
  split.
  - intros w. split; [done|done|done|by apply spends_same].
  - intros w1 w2 w3 [A1 A2 A3 A4] [B1 B2 B3 B4]. split; [auto|by etrans|by etrans|]. exact (spends_trans 0 0 w1 w2 w3 ltac:(lia) A4 B4).
Qed.
(** One that leaves the books alone too. *)
Record quiet_step (w w' : TWorld) : Prop := { qs_named : named w -> named w'; qs_same : same_estate w w'; qs_audit : twAudit w' = twAudit w; qs_gate : twG w' = twG w }.
#[local] Instance quiet_preorder : PreOrder quiet_step.
Proof.
  split; [intros w; by split|]. intros w1 w2 w3 [A1 A2 A3 A4] [B1 B2 B3 B4]. split; [auto|by etrans|congruence|congruence].
Qed.
Lemma quiet_idle w w' : quiet_step w w' -> idle_step w w'.
Proof. intros [H1 H2 H3 H4]. split; [done|done|exists []; by rewrite H3, app_nil_r|apply spends_same; by rewrite H4]. Qed.

Lemma recorded_quiet f w : (forall h, hwDB (f h) = hwDB h /\ hwAudit (f h) = hwAudit h /\ hwClients (f h) = hwClients h) -> quiet_step w (on_h f w).
Proof.
  intros Hf. destruct (Hf (dwH (twD w))) as (H1 & H2 & H3). split; [|split; try done; [split; [done|]; exists []; by rewrite app_nil_r]|done|done].
  unfold named, conns_named. cbn. by rewrite H3.
Qed.
Lemma record_quiet h w : quiet_step w (on_h (recordHost h) w).
Proof. apply recorded_quiet. intros x. unfold recordHost. by destruct (hwRec x). Qed.

Lemma noted_idle p h action target detail w : idle_step w (auditOn now p h action target detail w).
Proof.
  split; [done|split; try done; split; [done|]; exists []; by rewrite app_nil_r| |by apply spends_same].
  unfold more_notes. cbn. unfold Audit. destruct (audit_fault _); [exists []; by rewrite app_nil_r|]. by eexists.
Qed.

(** ** The gate *)
Definition recorded (h : Z) (w : TWorld) : TWorld := if 0 <? h then on_h (recordHost h) w else w.
Lemma recorded_step h w : quiet_step w (recorded h w).
Proof. unfold recorded. destruct (0 <? h); [apply record_quiet|done]. Qed.

Lemma marks_idle q g w : idle_step (set_tg g w) (with_marks now q g w).
Proof.
  unfold with_marks. generalize (drop (length (gaudit (twG w))) (gaudit g)). intros l. generalize (set_tg g w). clear w. induction l as [|m l IH]; intros w; [done|]. cbn [foldl].
  etrans; [|apply IH]. destruct m as [i [[action target] detail]]. destruct q as [p|]; [|done]. apply noted_idle.
Qed.
Lemma marks_none q g w : gaudit g = gaudit (twG w) -> with_marks now q g w = set_tg g w.
Proof. intros H. unfold with_marks. rewrite H, drop_all. done. Qed.
Lemma set_tg_same w : set_tg (twG w) w = w.
Proof. by destruct w. Qed.
Lemma set_tg_step g w : named w -> named (set_tg g w) /\ same_estate w (set_tg g w) /\ twAudit (set_tg g w) = twAudit w.
Proof. intros Hn. split; [done|]. split; [|done]. split; try done. split; [done|]. exists []. by rewrite app_nil_r. Qed.

(** One call of the gate: what it lets through, and what it does when it does not. *)
Lemma authorize_spec s wr h ch w w' r : authorizeCharged s wr h ch w = (w', r) ->
  match r with
  | Ok p => who = Some p /\ permitted p s wr h /\ hwRec (dwH (twD w')) = hwRec (dwH (twD (recorded h w))) /\ (wr && ch = false -> quiet_step w w') /\
            (named w -> named w') /\ same_estate w w' /\ twAudit w' = twAudit w /\ spends (if wr && ch then 1 else 0) w w'
  | Err _ => idle_step w w' /\ ((forall p, who = Some p -> ~ permitted p s wr h) -> quiet_step w w')
  end.
Proof.
  unfold McpTools.authorizeCharged. fold (recorded h w). pose proof (recorded_step h w) as Hr. set (w1 := recorded h w) in *. assert (Hg : twG w = twG w1) by (by rewrite (qs_gate _ _ Hr)).
  unfold McpGate.authorizeCharged. destruct who as [p|] eqn:Ewho.
  2: { intros [= <- <-]. rewrite marks_none, set_tg_same by done. split; [by apply quiet_idle|done]. }
  fold (local_host h). destruct (narrowed p s wr (local_host h)) as [e|] eqn:Enar.
  { intros [= <- <-]. rewrite marks_none, set_tg_same by done. split; [by apply quiet_idle|done]. }
  apply narrowed_spec in Enar. destruct (checkAccess (puser p) s wr (local_host h)) as [e|] eqn:Ec.
  { intros [= <- <-]. rewrite marks_none, set_tg_same by done. split; [by apply quiet_idle|done]. }
  assert (Hp : permitted p s wr h) by (unfold permitted; tauto). destruct (wr && ch) eqn:Ew.
  2: { intros [= <- <-]. rewrite marks_none, set_tg_same by done. destruct Hr as [H1 H2 H3 H4].
       do 4 (split; [done|]). split; [done|]. split; [done|]. split; [done|]. apply spends_same. by rewrite H4. }
  unfold allow_change. destruct (reserve now (ID (puser p)) 1 (glimiter (twG w1))) as [l [[|] first]] eqn:Ea.
  - intros [= <- <-]. rewrite marks_none by done. do 4 (split; [done|]). destruct Hr as [H1 H2 H3 H4].
    split; [intros Hn; by apply set_tg_step, H1|]. split; [|split; [done|]].
    + etrans; [exact H2|]. split; try done. split; [done|]. exists []. by rewrite app_nil_r.
    + intros He q k Hq Hk Hb. assert (q = p) as -> by congruence. unfold budget in Hb |- *. rewrite Hg in Hb. cbn [twG set_tg glimiter]. destruct (glimiter (twG w1)) as [l0|]; [|done].
      apply (reserve_budget now (ID (puser p)) 1 k) in Ea as (l1 & b & -> & Hl1 & Hlast & Hk1 & Ht); [|done|lia|done]. exists (k - 1). rewrite Hl1. replace (Z.max 1 1) with 1 in * by done. split; [lia|done].
  - intros [= <- <-]. split; [|intros Hno; by destruct (Hno p)].
    assert (Hi : idle_step (set_tg (mkGState l (gaudit (twG w1))) w1) (with_marks now (Some p) (mkGState l (if first then gaudit (twG w1) ++ [(ID (puser p), ("mcp.ratelimit", s, "control rate limit reached via MCP; changes refused"))] else gaudit (twG w1))) w1)).
    { etrans; [|apply marks_idle]. split; [done|split; try done; split; [done|]; exists []; by rewrite app_nil_r|exists []; by rewrite app_nil_r|by apply spends_same]. }
    etrans; [apply quiet_idle, Hr|]. etrans; [|exact Hi].
    split; [done|split; try done; split; [done|]; exists []; by rewrite app_nil_r|exists []; by rewrite app_nil_r|].
    intros He q k Hq Hk Hb. assert (q = p) as -> by congruence. exists k. split; [lia|]. unfold budget in Hb |- *. cbn [twG set_tg glimiter]. destruct (glimiter (twG w1)) as [l0|]; [|done].
    apply (reserve_budget now (ID (puser p)) 1 k) in Ea as (l1 & b & -> & Hl1 & Hlast & Ht); [|done|lia|done]. by rewrite Hl1.
Qed.

(** ** Computations that leave everything alone *)
Definition quietly {A} (m : stM TWorld string A) : Prop := forall w w' r, named w -> m w = (w', r) -> quiet_step w w'.
Lemma quietly_bind {A B} (m : stM TWorld string A) (k : A -> stM TWorld string B) : quietly m -> (forall a, quietly (k a)) -> quietly (m ≫= k).
Proof.
  intros Hm Hk w w' r Hn. unfold mbind, stM_bind. destruct (m w) as [w1 [a|e]] eqn:E; intros H; pose proof (Hm w w1 _ Hn E) as Hq; [|by injection H as <- <-].
  etrans; [exact Hq|]. exact (Hk a w1 w' r (qs_named _ _ Hq Hn) H).
Qed.
Lemma quietly_ret {A} (a : A) : quietly (mret a). Proof. by intros w w' r _ [= <- <-]. Qed.
Lemma quiet_fail {A} e : quietly (McpTools.fail (A := A) e). Proof. by intros w w' r _ [= <- <-]. Qed.
Lemma quiet_get : quietly st_get. Proof. by intros w w' r _ [= <- <-]. Qed.
Lemma quiet_see {A} (f : TWorld -> result string A) : quietly (see f). Proof. by intros w w' r _ [= <- <-]. Qed.
Lemma quiet_attempt {A} (m : stM TWorld string A) : quietly m -> quietly (attempt m).
Proof. intros Hm w w' r Hn. unfold attempt. destruct (m w) as [w1 r1] eqn:E. intros [= <- <-]. exact (Hm _ _ _ Hn E). Qed.
Lemma quiet_authorize s wr h ch : wr && ch = false -> quietly (authorizeCharged s wr h ch).
Proof.
  intros Hw w w' r Hn H. pose proof H as H'. apply authorize_spec in H as Hs. destruct r as [p|e]; [by apply Hs|].
  unfold McpTools.authorizeCharged in H'. fold (recorded h w) in H'. pose proof (recorded_step h w) as Hr. set (w1 := recorded h w) in *. revert H'.
  unfold McpGate.authorizeCharged. rewrite Hw. repeat case_match; intros H'; simplify_eq; rewrite ?marks_none, ?set_tg_same by done; done.
Qed.
Lemma quiet_case_result {A B E} (r : result E A) (f : A -> stM TWorld string B) (g : E -> stM TWorld string B) :
  (forall a, quietly (f a)) -> (forall e, quietly (g e)) -> quietly (match r with Ok a => f a | Err e => g e end).
Proof. destruct r; auto. Qed.

(** A query of daemons alone. *)
Lemma quiet_dw {A} (m : stM DWorld string A) h : (forall d d' r, conns_named (dwH d) -> m d = (d', r) -> asked fault h [] d d') -> quietly (on_dw m).
Proof.
  intros Hm w w' r Hn. unfold on_dw, on_e, on_d. destruct (m (ewD (twE w))) as [d1 r1] eqn:E. intros [= <- <-].
  destruct (Hm _ _ _ Hn E) as (A1 & A2 & A3 & A4 & _ & x & A6 & _). cbn in A6. rewrite app_nil_r in A6. split; [done| |done|done]. split; try done. split; [done|]. exists []. by rewrite app_nil_r.
Qed.
Lemma daemon_ask_asked {A} h (f : Trace -> Conn -> result string A) d d' r : conns_named (dwH d) ->
  (cli ← daemon fault h; ask (fun fx => f fx cli)) d = (d', r) -> asked fault h [] d d'.
Proof.
  intros Hn. unfold mbind, stM_bind, ask. destruct (daemon fault h d) as [d1 [c|e]] eqn:E; intros [= <- <-]; by apply daemon_asked in E as [Ha _].
Qed.
Lemma quiet_daemon_ask {A} h (f : Trace -> Conn -> result string A) : quietly (on_dw (cli ← daemon fault h; ask (fun fx => f fx cli))).
Proof. apply (quiet_dw _ h). intros d d' r. apply daemon_ask_asked. Qed.
Lemma quiet_list h : quietly (on_dw (ListContainers fault h)).
Proof. apply (quiet_dw _ h). intros d d' r Hn. by apply ListContainers_asked. Qed.
Lemma quiet_stacks h : quietly (on_dw (ListStacks fault h)).
Proof.
  apply (quiet_dw _ h). intros d d' r Hn. unfold ListStacks, mbind, stM_bind. destruct (ListContainers fault h d) as [d1 [l|e]] eqn:E; intros [= <- <-]; by eapply ListContainers_asked.
Qed.
Lemma quiet_inspect h id : quietly (on_dw (InspectContainer fault h id)).
Proof.
  apply (quiet_dw _ h). intros d d' r Hn. unfold InspectContainer, mbind, stM_bind, ask. destruct (daemon fault h d) as [d1 [c|e]] eqn:E; apply daemon_asked in E as [Ha _]; [|done| |done].
  - destruct (ContainerInspect (dwFx d1) c id); by intros [= <- <-].
  - by intros [= <- <-].
Qed.
Lemma quiet_compose h project : quietly (on_e (StackComposeFile fault h project)).
Proof.
  intros w w' r Hn. unfold on_e. destruct (StackComposeFile fault h project (twE w)) as [e1 r1] eqn:E. intros [= <- <-].
  unfold StackComposeFile, mbind, stM_bind in E. destruct (resolveStack fault h project (twE w)) as [e2 r2] eqn:E2. assert (e1 = e2) as -> by (destruct r2; by injection E).
  apply resolveStack_spec in E2 as (Ha & id & [Hf [paths Hp]] & _); [|exact Hn]. destruct Ha as (A1 & A2 & A3 & A4 & _ & x & A6 & _). cbn in A6. rewrite app_nil_r in A6.
  split; [done| |done|done]. split; try done. split; [done|]. exists ((fun p => (id, p)) <$> paths). cbn. rewrite Hp. f_equal. by rewrite <- list_fmap_compose.
Qed.
Lemma quiet_search h tail hit cs : forall s, quietly (on_dw (fun d => let '(d, s) := search_containers fault h tail hit cs s d in (d, Ok s))).
Proof.
  intros s. apply (quiet_dw _ h). revert s. induction cs as [|c cs IH]; intros s d d' r Hn; cbn [search_containers]; [intros [= <- <-]; by apply asked_nil|].
  destruct (searchMaxMatches <=? length (seMatches s))%nat; [intros [= <- <-]; by apply asked_nil|]. destruct (daemon fault h d) as [d1 [cli|e]] eqn:E; apply daemon_asked in E as [Ha _]; [|done| |done];
    intros H; apply IH in H; try (apply Ha); exact (asked_trans fault h [] [] d d1 d' Ha H).
Qed.

(** ** The tools that only read *)
Notation run := (McpTools.run_tool fault afault wfault LoadLocation hist hist_fault order now charge_now who).

Lemma quiet_authorize_read s h : quietly (authorize s false h).
Proof. by apply quiet_authorize. Qed.
Lemma quiet_recheck s wr h : quietly (recheck s wr h).
Proof. apply quietly_bind; [apply quiet_authorize; by destruct wr|]. intros p. apply quietly_ret. Qed.
Lemma quiet_recheckHost s wr h : quietly (McpTools.recheckHost now who s wr h).
Proof.
  apply quietly_bind; [|intros _; apply quiet_recheck]. destruct (h =? 0); [apply quietly_ret|]. apply quietly_bind; [apply quiet_authorize_read|]. intros _. apply quietly_ret.
Qed.
Lemma quiet_project_host id wr : quietly (McpTools.authorizeProjectHost now who id wr).
Proof. apply quietly_bind; [apply quiet_get|]. intros w. apply quiet_case_result; intros x; [apply quiet_recheckHost|apply quiet_fail]. Qed.
Lemma quiet_preview id : quietly (on_world (mcpPreviewProject id)).
Proof.
  intros w w' r Hn. unfold on_world, on_dw, on_e, on_d, mcpPreviewProject. cbv beta iota zeta. intros [= <- _]. split; [done| |done|done]. split; try done.
  split; [done|]. exists []. by rewrite app_nil_r.
Qed.
Lemma quiet_reachable ps : forall seen, quietly (McpTools.reachable_projects now who seen ps).
Proof.
  induction ps as [|p ps IH]; intros seen; cbn [reachable_projects]; [apply quietly_ret|]. apply quietly_bind.
  - destruct (seen !! pHostID p.1); [apply quietly_ret|]. apply quietly_bind; [apply quiet_attempt, quiet_recheckHost|]. intros r. apply quietly_ret.
  - intros ok. apply quietly_bind; [apply IH|]. intros rest. apply quietly_ret.
Qed.
#[local] Hint Resolve quietly_ret quiet_fail quiet_get quiet_see quiet_daemon_ask quiet_list quiet_stacks quiet_inspect quiet_compose quiet_search quiet_authorize_read
  quiet_recheck quiet_recheckHost quiet_project_host quiet_preview quiet_reachable quiet_attempt : quiet.
Ltac quiet := repeat first [solve [auto with quiet] | apply quietly_bind; [|intros ?] | progress cbv zeta | progress cbv beta | case_match].

(** The section, the intent and the host a tool is gated on. *)
Definition tool_gate (t : Tool) : string * bool * Z :=
  match t with
  | list_hosts => ("hosts", false, 0)
  | list_containers h | get_container h _ | container_processes h _ | container_changes h _ => ("containers", false, h)
  | container_logs h _ _ => ("logs", false, h) | search_logs i => ("logs", false, slHostID i)
  | list_images h => ("images", false, h) | list_volumes h => ("volumes", false, h) | list_networks h => ("networks", false, h)
  | list_projects h | get_compose h _ => ("projects", false, h)
  | stats_overview h | system_info_tool h => ("dashboard", false, h)
  | metrics_history id _ => ("dashboard", false, match hist with None => 0 | Some m => default (-1) (HostFor m id) end)
  | recent_audit _ => ("audit", false, 0) | recent_events h _ _ => ("events", false, h)
  | list_alerts i => ("alerts", false, laHostID i) | active_alert_conditions h => ("alerts", false, h)
  | list_alert_rules _ | alert_delivery _ | list_maintenance_windows => ("alerts", false, 0)
  | acknowledge_alert _ | create_maintenance_window _ | end_maintenance_window _ => ("alerts", true, 0)
  | run_diagnostics h => ("diagnostics", true, h)
  | stack_action _ h _ | stack_containers _ h _ _ | container_action _ h _ => ("containers", true, h)
  | scan_image_tool h _ => ("images", true, h)
  | list_managed_projects | preview_deploy _ => ("projects", false, 0)
  | deploy_project _ _ _ | down_project _ => ("projects", true, 0)
  | inventory_resource => ("containers", false, 0) | compose_resource _ => ("projects", false, 0)
  end.
Definition writes (t : Tool) : bool := (tool_gate t).1.2.

Lemma read_quiet t : writes t = false -> quietly (run t).
Proof.
  destruct t; intros Hw; try discriminate Hw; cbn [run_tool]; clear Hw;
    unfold listHosts, listContainers, getContainer, containerLogs, listImages, listProjects, getCompose, statsOverview, listVolumes, listNetworks, systemInfo,
      metricsHistory, recentAudit, recentEvents, listAlerts, activeAlertConditions, listMaintenanceWindows, containerProcesses, containerChanges, searchLogs, listAlertRules,
      alertDelivery, previewDeploy, listManagedProjects, resInventory, resCompose, daemon_read; quiet.
Qed.

(** ** Who is let through *)
(** All hosts are within the token's and its owner's reach. *)
Definition every_host (p : principal) : Prop := phosts p = [] /\ (IsAdmin (puser p) = true \/ gsReachableHosts (puser p) = Ok None).
(** The hosts of a maintenance window; none stands for all. *)
Definition windows_permitted (p : principal) (hs : list Z) : Prop :=
  match hs with [] => every_host p | _ => Forall (fun h => permitted p "alerts" false (gsNormalizeHostID h)) hs end.
(** What a tool checks besides its gate. *)
Definition second_gate (t : Tool) (p : principal) (w : TWorld) : Prop :=
  match t with
  | preview_deploy id | deploy_project id _ _ | down_project id =>
      forall pr, ProjectByID store_fault id (xDB (dwP (twD w))) = Ok pr ->
        (pHostID pr <> 0 -> permitted p "hosts" false (pHostID pr)) /\ permitted p "projects" (writes t) (pHostID pr)
  | acknowledge_alert id | alert_delivery id => forall h, AlertEventHost afault id (twAlerts w) = Ok h -> permitted p "alerts" (writes t) h
  | create_maintenance_window i => windows_permitted p (gsNormalizeHostID <$> cwHostIDs i)
  | end_maintenance_window id => forall win, MaintenanceWindowByID wfault (twWins w) id = Ok win -> windows_permitted p (HostIDs win)
  | _ => True
  end.
Definition required (t : Tool) (p : principal) (w : TWorld) : Prop :=
  (let '(section, write, h) := tool_gate t in permitted p section write h) /\ second_gate t p w.

Lemma scoped_all p w : scopedHostIDs fault p w = None -> every_host p.
Proof.
  unfold scopedHostIDs, every_host. destruct (IsAdmin (puser p)); [destruct (phosts p); [auto|done]|]. destruct (gsReachableHosts (puser p)) as [[hs|]|]; try done. destruct (phosts p); [auto|done].
Qed.
Lemma raw_permitted `{!GrantStoreLaws GS} p s wr h : narrowed p s wr h = None -> checkAccess (puser p) s wr h = None -> permitted p s wr h.
Proof.
  intros (H1 & H2 & H3)%narrowed_spec Hc. unfold permitted, local_host. destruct (h <? 0); [|tauto]. split; [done|]. split; [done|]. split; [by left|]. by eapply zero_in_reach.
Qed.
Lemma windows_allowed `{!GrantStoreLaws GS} p hs w : McpTools.maintenanceWindowHostsAllowed fault p hs w = true -> windows_permitted p hs.
Proof.
  unfold McpTools.maintenanceWindowHostsAllowed, windows_permitted. destruct hs as [|h hs].
  - destruct (scopedHostIDs fault p w) eqn:E; [done|]. intros _. by eapply scoped_all.
  - rewrite forallb_forall. intros H. apply Forall_forall. intros x Hx%list_elem_of_In. specialize (H x Hx). cbv beta zeta in H.
    destruct (narrowed p "alerts" false (gsNormalizeHostID x)) eqn:En1; [done|]. destruct (checkAccess _ _ _ _) eqn:En2; [done|]. by apply raw_permitted.
Qed.

(** A call past its gate. *)
Record passed (n h : Z) (w w1 : TWorld) : Prop := {
  pa_named : named w1; pa_same : same_estate w w1; pa_audit : twAudit w1 = twAudit w; pa_spent : spends n w w1;
  pa_rec : hwRec (dwH (twD w1)) = hwRec (dwH (twD (recorded h w)))
}.
Lemma gated {A} s wr h ch (k : principal -> stM TWorld string A) w w' r : named w -> (p ← authorizeCharged s wr h ch; k p) w = (w', r) ->
  (is_ok r = false /\ idle_step w w' /\ ((forall p, who = Some p -> ~ permitted p s wr h) -> quiet_step w w')) \/
  exists p w1, who = Some p /\ permitted p s wr h /\ passed (if wr && ch then 1 else 0) h w w1 /\ k p w1 = (w', r).
Proof.
  intros Hn. unfold mbind, stM_bind. destruct (authorizeCharged s wr h ch w) as [w1 [p|e]] eqn:E; apply authorize_spec in E.
  - destruct E as (Hp & Hok & Hrec & _ & Hnm & Hs & Ha & Hsp). intros H. right. exists p, w1. split; [done|]. split; [done|]. split; [|done]. split; auto.
  - destruct E as [Hi Hq]. intros [= <- <-]. left. done.
Qed.
Lemma recheck_ok s wr h w w' u : recheck s wr h w = (w', Ok u) -> exists p, who = Some p /\ permitted p s wr h.
Proof.
  unfold McpTools.recheck, mbind, stM_bind. destruct (authorizeCharged s wr h false w) as [w1 [p|e]] eqn:E; [|done]. apply authorize_spec in E as (Hp & Hok & _). intros _. by exists p.
Qed.
Lemma authorize_ok s h w w' q : authorize s false h w = (w', Ok q) -> exists p, who = Some p /\ permitted p s false h.
Proof. intros E. apply authorize_spec in E as (Hp & Hok & _). by exists q. Qed.
Lemma project_host_ok id wr w w' u : McpTools.authorizeProjectHost now who id wr w = (w', Ok u) ->
  exists pr, ProjectByID store_fault id (xDB (dwP (twD w))) = Ok pr /\ exists p, who = Some p /\ (pHostID pr <> 0 -> permitted p "hosts" false (pHostID pr)) /\ permitted p "projects" wr (pHostID pr).
Proof.
  unfold McpTools.authorizeProjectHost, mbind, stM_bind, st_get. cbv beta iota. destruct (ProjectByID store_fault id _) as [pr|e]; [|done]. unfold McpTools.recheckHost, mbind, stM_bind.
  intros H. exists pr. split; [done|]. destruct (pHostID pr =? 0) eqn:E0; bsimp.
  - unfold mret, stM_ret in H. cbv beta iota in H. apply recheck_ok in H as (p & Hp & Hok). exists p. split; [done|]. split; [done|done].
  - unfold mret, stM_ret in H. destruct (authorize "hosts" false (pHostID pr) w) as [w1 [q|e]] eqn:Ea; [|done]. cbv beta iota in H. apply authorize_ok in Ea as (p & Hp & Hok).
    apply recheck_ok in H as (p' & Hp' & Hok'). assert (p' = p) as -> by congruence. exists p. auto.
Qed.

(** *** A tool that only reads *)
Ltac past_gate H := apply gated in H as [(Hfail & _ & _)|(p & w1 & Hp & Hok & Hpass & H)]; [discriminate Hfail| |done].
Lemma read_gate t w w' o : writes t = false -> named w -> run t w = (w', Ok o) -> exists p, who = Some p /\ required t p w.
Proof.
  intros Hw Hn. unfold required.
  destruct t; try discriminate Hw; clear Hw; cbn [run_tool second_gate tool_gate];
    unfold listHosts, listContainers, getContainer, containerLogs, listImages, listProjects, getCompose, statsOverview, listVolumes, listNetworks, systemInfo,
      recentAudit, recentEvents, listAlerts, activeAlertConditions, listMaintenanceWindows, containerProcesses, containerChanges, searchLogs, listAlertRules,
      alertDelivery, previewDeploy, listManagedProjects, resInventory, resCompose, daemon_read, McpTools.authorize; intros H;
    try solve [past_gate H; exists p; split; [exact Hp|split; [exact Hok|exact I]]].
  - unfold metricsHistory, McpTools.authorize in H. destruct hist as [m|]; [destruct hist_fault; [discriminate H|]|];
      (past_gate H; exists p; split; [exact Hp|split; [exact Hok|exact I]]).
  - past_gate H. exists p. split; [exact Hp|split; [exact Hok|]]. destruct (id <=? 0); [discriminate H|]. unfold mbind, stM_bind, st_get in H. cbv beta iota in H.
    rewrite (se_alerts _ _ (pa_same _ _ _ _ Hpass)) in H. intros h Eh. rewrite Eh in H.
    unfold attempt in H. destruct (McpTools.authorizeCharged now who "alerts" false h false w1) as [w2 [q|e]] eqn:Ea; [|discriminate H]. apply authorize_ok in Ea as (q' & Hq & Hok'). by assert (q' = p) as -> by congruence.
  - past_gate H. exists p. split; [exact Hp|split; [exact Hok|]]. destruct (id <=? 0); [discriminate H|]. unfold mbind, stM_bind in H.
    destruct (McpTools.authorizeProjectHost now who id false w1) as [w2 [u|e]] eqn:Ea; [|discriminate H]. apply project_host_ok in Ea as (pr & Hpr & q & Hq & Hh).
    rewrite (se_projects _ _ (pa_same _ _ _ _ Hpass)) in Hpr. assert (q = p) as -> by congruence. intros pr' Hpr'. assert (pr' = pr) as -> by congruence. exact Hh.
Qed.

(** ** What a change did *)
(** [ops] were asked of the daemon the host means, and [n] units were spent. *)
Record touched (host : Z) (ops : list DOp) (n : Z) (w w' : TWorld) : Prop := {
  tc_asked : asked fault host ops (twD w) (twD w'); tc_files : reads_only (twE w) (twE w'); tc_alerts : twAlerts w' = twAlerts w;
  tc_ran : twRan w' = twRan w; tc_notes : more_notes w w'; tc_spent : spends n w w'
}.
Lemma touched_trans host ops1 ops2 n1 n2 w1 w2 w3 : 0 <= n1 -> touched host ops1 n1 w1 w2 -> touched host ops2 n2 w2 w3 -> touched host (ops1 ++ ops2) (n1 + n2) w1 w3.
Proof.
  intros Hn [A1 A2 A3 A4 A5 A6] [B1 B2 B3 B4 B5 B6]. split; try congruence.
  - by eapply asked_trans.
  - destruct A2 as [F1 [l1 R1]], B2 as [F2 [l2 R2]]. split; [congruence|]. exists (l1 ++ l2). by rewrite R2, R1, fmap_app, <- app_assoc.
  - by etrans.
  - by eapply spends_trans.
Qed.
Lemma touched_same host n w w' : touched host [] n w w' -> same_estate w w'.
Proof. intros [(A1 & A2 & A3 & A4 & _ & h & A6 & _) B C0 D0 E F]. split; try done. by rewrite A6, app_nil_r. Qed.
Lemma touched_named host ops n w w' : touched host ops n w w' -> named w'.
Proof. intros [A _ _ _ _ _]. apply A. Qed.
Lemma asked_dw {A} (m : stM DWorld string A) host ops w w' r : (forall d', m (twD w) = (d', r) -> asked fault host ops (twD w) d') -> on_dw m w = (w', r) -> touched host ops 0 w w'.
Proof.
  intros Hm. unfold on_dw, on_e, on_d. destruct (m (ewD (twE w))) as [d1 r1] eqn:E. intros [= <- <-]. split; try done; [by apply Hm|split; [done|]; exists []; by rewrite app_nil_r|exists []; by rewrite app_nil_r|by apply spends_same].
Qed.
Lemma idle_touched host w w' : named w -> idle_step w w' -> hwRec (dwH (twD w')) = hwRec (dwH (twD w)) -> touched host [] 0 w w'.
Proof.
  intros Hn [A1 [B1 B2 B3 B4 B5 B6 B7] A3 A4] Hr. split; try done. split; [done|]. split; [done|]. split; [done|]. split; [by apply A1|]. split; [by left|]. exists 0. split; [by rewrite B3, app_nil_r|done].
Qed.
Lemma note_touched host p h action target detail w : named w -> touched host [] 0 w (auditOn now p h action target detail w).
Proof. intros Hn. apply idle_touched; [done|apply noted_idle|done]. Qed.

(** *** Charging for a batch *)
Lemma charge_spec p n w w' r : who = Some p -> named w -> 1 <= n -> chargeAdditionalContainers now charge_now p n w = (w', r) ->
  forall host, touched host [] (if is_ok r then n - 1 else 0) w w'.
Proof.
  intros Hp Hn H1. unfold chargeAdditionalContainers. destruct (n - 1 <=? 0) eqn:E1; bsimp.
  { intros [= <- <-] host. cbn. replace (n - 1) with 0 by lia. by apply idle_touched. }
  destruct (controlBurst <? n) eqn:E2; bsimp; [intros [= <- <-] host; by apply idle_touched|]. unfold controlBurst in E2.
  destruct (reserve charge_now (ID (puser p)) (n - 1) (glimiter (twG w))) as [l [[|] first]] eqn:Er.
  - intros [= <- <-] host. split; try done; [by apply asked_nil|split; [done|]; exists []; by rewrite app_nil_r|exists []; by rewrite app_nil_r|].
    intros He q k Hq Hk Hb. assert (q = p) as -> by congruence. unfold budget in Hb |- *. cbn [twG set_tg glimiter]. destruct (glimiter (twG w)) as [l0|]; [|done]. rewrite He in Er.
    apply (reserve_budget now (ID (puser p)) (n - 1) k) in Er as (l1 & b & -> & Hl1 & Hlast & Hk1 & Ht); [|done|lia|done]. exists (k - (n - 1)). rewrite Hl1, Z.max_r in * by lia. split; [cbn; lia|done].
  - intros H host. assert (w' = (if first then auditOn now p 0 "mcp.ratelimit" "containers" "control rate limit reached via MCP; changes refused" (set_tg (mkGState l (gaudit (twG w))) w) else set_tg (mkGState l (gaudit (twG w))) w) /\ r = Err errControlRateLimited) as [-> ->] by (split; congruence).
    assert (Hs : touched host [] 0 w (set_tg (mkGState l (gaudit (twG w))) w)).
    { split; try done; [by apply asked_nil|split; [done|]; exists []; by rewrite app_nil_r|exists []; by rewrite app_nil_r|].
      intros He q k Hq Hk Hb. assert (q = p) as -> by congruence. exists k. split; [lia|]. unfold budget in Hb |- *. cbn [twG set_tg glimiter]. destruct (glimiter (twG w)) as [l0|]; [|done]. rewrite He in Er.
      apply (reserve_budget now (ID (puser p)) (n - 1) k) in Er as (l1 & b & -> & Hl1 & Hlast & Ht); [|done|lia|done]. by rewrite Hl1. }
    destruct first; [|exact Hs]. apply (touched_trans host [] [] 0 0 _ _ _ ltac:(lia) Hs), note_touched. done.
Qed.

(** *** Under the claim of a stack's project *)
Lemma under_claim_spec {A} host project what (m : stM TWorld string A) w w' r : named w -> under_claim host project what m w = (w', r) ->
  (is_ok r = false /\ w' = w) \/
  exists x w2 f, m (set_te (set_ed (set_dp x (twD w)) (twE w)) w) = (w2, r) /\ w' = set_te (set_ed (set_dp (f (dwP (twD w2))) (twD w2)) (twE w2)) w2 /\ f x = dwP (twD w).
Proof.
  intros Hn. unfold under_claim, beginStackOp. destruct (stackProject host project _) as [[pr|]|e].
  - unfold beginProjectOp. destruct (xOps (dwP (twD w)) !! pID pr) as [busy|] eqn:Eb.
    + intros [= <- <-]. left. split; [done|]. by destruct w as [[[] ? ?] ? ? ? ?].
    + set (x := set_ops (<[pID pr := what]>) (dwP (twD w))). destruct (m _) as [w2 r2] eqn:E. intros [= <- <-]. right. exists x, w2, (release_op (pID pr)). split; [exact E|]. split; [done|].
      unfold x. destruct w as [[[h fx pw] fs rn] g a u rr]. cbn in Eb |- *. destruct pw as [db dirs zips rem fx' aud wins ops]. unfold release_op, set_ops. cbn in Eb |- *. f_equal. by rewrite delete_insert_id.
  - destruct (m _) as [w2 r2] eqn:E. intros [= <- <-]. right. exists (dwP (twD w)), w2, (fun x => x). split; [|split; [by destruct w2 as [[[] ? ?] ? ? ? ?]|done]].
    rewrite <- E. f_equal. by destruct w as [[[] ? ?] ? ? ? ?].
  - intros [= <- <-]. left. split; [done|]. by destruct w as [[[] ? ?] ? ? ? ?].
Qed.

(** *** Actions on containers *)
(** A new entry of the user's. *)
Definition noted (p : principal) (H : Z -> Prop) (a a' : AuditLog) : Prop := (forall l, audit_fault l = false) ->
  exists l e, audit_rows a' = audit_rows a ++ l /\ e ∈ l /\ enUserID e = ID (puser p) /\ enUsername e = Username (puser p) /\ H (enHostID e).
Lemma noted_last p H w0 w h action target detail : more_notes w0 w -> H h -> noted p H (twAudit w0) (twAudit (auditOn now p h action target detail w)).
Proof.
  intros [l Hl] Hh Hf. cbn. unfold Audit. rewrite Hf. cbn. eexists (l ++ [_]), _. rewrite Hl, <- app_assoc. split; [done|]. split; [apply elem_of_app; right; by left|done].
Qed.
Definition means (host : Z) (w : TWorld) (h : Z) : Prop := ResolveHostID fault host (hwDB (dwH (twD w))) = Ok h.
(** A host already recorded is the call's own. *)
Definition fresh (host : Z) (w : TWorld) : Prop := forall h, hwRec (dwH (twD w)) = Some h -> means host w h.
(** What a tool on containers does past its gate. *)
Definition acted (p : principal) (host : Z) (w w' : TWorld) : Prop :=
  exists ops n, touched host ops n w w' /\ 0 <= n /\ Z.of_nat (length ops) <= n + 1 /\ (ops <> [] -> noted p (means host w) (twAudit w) (twAudit w')).
Lemma acted_nothing p host n w w' : 0 <= n -> touched host [] n w w' -> acted p host w w'.
Proof. intros Hn Ht. exists [], n. split; [done|]. split; [done|]. cbn. split; [lia|done]. Qed.
Lemma touched_reached host ops n w w' : fresh host w -> touched host ops n w w' -> ops <> [] -> means host w (reached w').
Proof.
  intros Hf [(A1 & _ & _ & _ & A5 & h & _ & A7) _ _ _ _ _] Ho. destruct (A7 Ho) as [_ Hrec]. unfold reached.
  destruct A5 as [A5|(_ & h' & A5' & Hr')]; [|rewrite A5'; exact Hr']. rewrite A5 in *. destruct (hwRec (dwH (twD w))) as [h'|] eqn:E; [by apply Hf|done].
Qed.
Lemma touched_fresh host ops n w w' : fresh host w -> touched host ops n w w' -> fresh host w'.
Proof.
  intros Hf [(A1 & _ & _ & _ & A5 & _) _ _ _ _ _] h. unfold means. rewrite A1. destruct A5 as [->|(_ & h' & -> & Hr)]; [apply Hf|by intros [= <-]].
Qed.
Lemma acted_note p host ops n w w1 action target detail : 0 <= n -> Z.of_nat (length ops) <= n + 1 -> fresh host w -> named w -> touched host ops n w w1 ->
  acted p host w (audit now p action target detail w1).
Proof.
  intros Hn Hl Hf Hnm Ht. exists ops, n. split.
  - pose proof (touched_trans host ops [] n 0 _ _ _ Hn Ht (note_touched host p (reached w1) action target detail w1 (touched_named _ _ _ _ _ Ht))) as H.
    by rewrite app_nil_r, Z.add_0_r in H.
  - split; [done|]. split; [done|]. intros Ho. apply noted_last; [apply Ht|]. by eapply touched_reached.
Qed.
Lemma under_claim_acted {A} p host project what (m : stM TWorld string A) w w' r : named w -> fresh host w ->
  (forall w1 w2 r, named w1 -> fresh host w1 -> m w1 = (w2, r) -> acted p host w1 w2) -> under_claim host project what m w = (w', r) -> acted p host w w'.
Proof.
  intros Hn Hf Hm H. apply under_claim_spec in H as [[_ ->]|(x & w2 & f & E & -> & Hx)]; [by apply (acted_nothing p host 0), idle_touched| |done].
  apply Hm in E as (ops & n & [(A1 & A2 & A3 & A4 & A5 & A6) B1 B2 B3 B4 B5] & Hpos & Hlen & Hnote); [|exact Hn|exact Hf]. exists ops, n. split; [|done]. split; try done.
  split; [done|]. split; [done|]. split; [|done]. cbn. by rewrite A3, <- Hx.
Qed.

Lemma op_of_length action ids : (length (ids ≫= op_of action) <= length ids)%nat.
Proof. induction ids as [|id ids IH]; cbn; [done|]. rewrite length_app. unfold op_of at 1. destruct (action_op action id); cbn; lia. Qed.
Lemma attempt_dw {A} (m : stM DWorld string A) w w' r : attempt (on_dw m) w = (w', r) -> exists r', on_dw m w = (w', r') /\ r = Ok r'.
Proof. unfold attempt. destruct (on_dw m w) as [w1 r1]. intros [= <- <-]. by exists r1. Qed.

Lemma stack_run_acted p host project action ids w w' r : who = Some p -> named w -> fresh host w -> runStackAction fault now charge_now p host project action ids w = (w', r) -> acted p host w w'.
Proof.
  intros Hp Hn Hf. unfold runStackAction. destruct ids as [|id0 ids0] eqn:Eids.
  { intros [= <- <-]. apply (acted_note p host [] 0); try done. by apply idle_touched. }
  rewrite <- Eids. assert (Hlen : 1 <= Z.of_nat (length ids)) by (rewrite Eids; cbn [length]; lia). clear Eids id0 ids0.
  unfold mbind, stM_bind, attempt. destruct (chargeAdditionalContainers now charge_now p (Z.of_nat (length ids)) w) as [w1 c] eqn:Ec. cbv beta iota.
  pose proof (charge_spec p _ w w1 c Hp Hn Hlen Ec host) as Hc. destruct c as [u|e].
  2: { intros [= <- <-]. by apply (acted_note p host [] 0). }
  cbn [is_ok] in Hc. destruct (on_dw (StackActionOnIDs fault host ids action) w1) as [w2 r2] eqn:Ea. cbv beta iota. unfold do_audit, st_mod. cbv beta iota.
  assert (Ha : exists ops, touched host ops 0 w1 w2 /\ (length ops <= length ids)%nat).
  { destruct (one_of action ["start"; "stop"; "restart"]) eqn:E3.
    - unfold on_dw, on_e, on_d in Ea. destruct (StackActionOnIDs fault host ids action (ewD (twE w1))) as [d1 rr] eqn:E. unfold StackActionOnIDs in E. rewrite E3 in E.
      apply for_action_asked in E as (ops & Hb & Hpre & _); [|exact (touched_named _ _ _ _ _ Hc)]. exists ops. injection Ea as <- <-. split.
      + split; try done; [split; [done|]; exists []; by rewrite app_nil_r|exists []; by rewrite app_nil_r|by apply spends_same].
      + apply prefix_length in Hpre. pose proof (op_of_length action ids). lia.
    - exists []. split; [|cbn; lia]. eapply asked_dw; [|exact Ea]. intros d'. unfold StackActionOnIDs. rewrite E3. intros [= <- <-]. apply asked_nil. exact (touched_named _ _ _ _ _ Hc). }
  destruct Ha as (ops & Ha & Hl). intros H. assert (w' = audit now p ("mcp.stack." +:+ action) project (outcome (err_of r2)) w2) as -> by (destruct r2; by injection H).
  apply (acted_note p host ops (Z.of_nat (length ids) - 1)); [lia|lia|done|done|].
  pose proof (touched_trans host [] ops (Z.of_nat (length ids) - 1) 0 _ _ _ ltac:(lia) Hc Ha) as Ht. by rewrite Z.add_0_r in Ht.
Qed.

Lemma action_tool_acted p host action id w w' r : named w -> fresh host w ->
  (r ← attempt (on_dw (ContainerAction fault host id action)); _ ← do_audit now p ("mcp.container." +:+ action) id (outcome (err_of r));
   match r with Err e => McpTools.fail e | Ok _ => mret (OAction true action id "") end) w = (w', r) -> acted p host w w'.
Proof.
  intros Hn Hf. unfold mbind, stM_bind, attempt. destruct (on_dw (ContainerAction fault host id action) w) as [w1 r1] eqn:Ea. cbv beta iota. unfold do_audit, st_mod. cbv beta iota.
  intros H. assert (w' = audit now p ("mcp.container." +:+ action) id (outcome (err_of r1)) w1) as -> by (destruct r1; by injection H). clear H.
  assert (Ht : exists ops, touched host ops 0 w w1 /\ (length ops <= 1)%nat).
  { unfold on_dw, on_e, on_d in Ea. destruct (ContainerAction fault host id action (ewD (twE w))) as [d1 rr] eqn:E. injection Ea as <- <-. apply action_asked in E as [[Ha _]|(op & _ & Ha)]; [| |exact Hn].
    - exists []. split; [|cbn; lia]. split; try done; [split; [done|]; exists []; by rewrite app_nil_r|exists []; by rewrite app_nil_r|by apply spends_same].
    - exists [op]. split; [|cbn; lia]. split; try done; [split; [done|]; exists []; by rewrite app_nil_r|exists []; by rewrite app_nil_r|by apply spends_same]. }
  destruct Ht as (ops & Ht & Hl). apply (acted_note p host ops 0); [lia|lia|done|done|done].
Qed.

(** The entries of the results, one each. *)
Lemma results_noted p host action ops n w w1 rs : rs <> [] -> 0 <= n -> Z.of_nat (length ops) <= n + 1 -> fresh host w -> named w -> touched host ops n w w1 ->
  acted p host w (auditStackContainerResults now p action rs w1).
Proof.
  intros Hne Hn Hl Hf Hnm Ht. destruct rs as [|r0 rs] using rev_ind; [done|]. clear IHrs Hne. unfold auditStackContainerResults. rewrite foldl_app. cbn [foldl].
  apply (acted_note p host ops n); try done. revert w1 Ht. induction rs as [|x rs IH]; intros w1 Ht; [exact Ht|]. cbn [foldl]. apply IH.
  pose proof (touched_trans host ops [] n 0 _ _ _ Hn Ht (note_touched host p (reached w1) ("mcp.container." +:+ action) (bulkID x) (outcome (if bulkOK x then None else Some (bulkError x))) w1 (touched_named _ _ _ _ _ Ht))) as H.
  by rewrite app_nil_r, Z.add_0_r in H.
Qed.

Context (order_perm : forall n, order n ≡ₚ seq 0 n).
Lemma bulk_dw host project ids action w w' r : named w -> on_dw (BulkStackContainerAction fault order host project ids action) w = (w', r) ->
  match r with
  | Err _ => touched host [] 0 w w'
  | Ok rs => bulkID <$> rs = ids /\ exists ops, touched host ops 0 w w' /\ (length ops <= length ids)%nat
  end.
Proof.
  intros Hn H. assert (Hlift : forall d ops, asked fault host ops (twD w) d -> touched host ops 0 w (set_te (set_ed d (twE w)) w)).
  { intros d ops Ha. split; try done; [split; [done|]; exists []; by rewrite app_nil_r|exists []; by rewrite app_nil_r|by apply spends_same]. }
  unfold on_dw, on_e, on_d in H. destruct (BulkStackContainerAction fault order host project ids action (ewD (twE w))) as [d1 r1] eqn:E. injection H as <- <-.
  unfold BulkStackContainerAction in E. destruct (negb (one_of action ["restart"; "stop"])); [injection E as <- <-; apply Hlift, asked_nil; exact Hn|].
  destruct (String.eqb (TrimSpace project) ""); [injection E as <- <-; apply Hlift, asked_nil; exact Hn|]. destruct ids as [|id0 ids0] eqn:Eids; [injection E as <- <-; apply Hlift, asked_nil; exact Hn|].
  rewrite <- Eids in *. clear Eids id0 ids0. unfold mbind, stM_bind in E. destruct (ListContainers fault host (ewD (twE w))) as [d2 [cs|e]] eqn:El; apply ListContainers_asked in El; try exact Hn.
  2: { injection E as <- <-. by apply Hlift. }
  destruct (List.find _ ids); [injection E as <- <-; by apply Hlift|]. apply (bulk_asked fault order order_perm) in E; [|apply El]. destruct r1 as [rs|e].
  - destruct E as (_ & Hids & ops & Ha & Hs & _). split; [done|]. exists ops. split; [apply Hlift|].
    + exact (asked_trans fault host [] ops _ _ _ El Ha).
    + apply submseteq_length in Hs. pose proof (op_of_length action ids). lia.
  - destruct E as [-> _]. by apply Hlift.
Qed.
Lemma stack_containers_acted p host project action ids w w' r : who = Some p -> named w -> fresh host w -> ids <> [] ->
  (if negb (String.eqb (FirstDuplicateID ids) "") then
     let e := "container_ids lists " +:+ Quote (FirstDuplicateID ids) +:+ " more than once; each container may appear only once per call" in
     _ ← do_audit now p ("mcp.stack." +:+ action) project (outcome (Some e)); McpTools.fail e
   else
     c ← attempt (chargeAdditionalContainers now charge_now p (Z.of_nat (length ids)));
     match c with
     | Err e => _ ← do_audit now p ("mcp.stack." +:+ action) project (outcome (Some e)); McpTools.fail e
     | Ok _ =>
         r ← attempt (on_dw (BulkStackContainerAction fault order host project ids action));
         match r with
         | Err e => _ ← do_audit now p ("mcp.stack." +:+ action) project (outcome (Some e)); McpTools.fail e
         | Ok rs => _ ← st_mod (auditStackContainerResults now p action rs); mret (OStackSubset (forallb bulkOK rs) project action rs)
         end
     end) w = (w', r) -> acted p host w w'.
Proof.
  intros Hp Hn Hf Hne. destruct (negb (String.eqb (FirstDuplicateID ids) "")).
  { intros [= <- <-]. apply (acted_note p host [] 0); try done. by apply idle_touched. }
  assert (Hlen : 1 <= Z.of_nat (length ids)) by (destruct ids; [done|cbn [length]; lia]).
  unfold mbind, stM_bind, attempt. destruct (chargeAdditionalContainers now charge_now p (Z.of_nat (length ids)) w) as [w1 c] eqn:Ec. cbv beta iota.
  pose proof (charge_spec p _ w w1 c Hp Hn Hlen Ec host) as Hc. destruct c as [u|e].
  2: { intros [= <- <-]. by apply (acted_note p host [] 0). }
  cbn [is_ok] in Hc. destruct (on_dw (BulkStackContainerAction fault order host project ids action) w1) as [w2 r2] eqn:Ea. cbv beta iota.
  apply bulk_dw in Ea; [|exact (touched_named _ _ _ _ _ Hc)]. destruct r2 as [rs|e].
  - destruct Ea as (Hids & ops & Ha & Hl). intros [= <- <-]. apply (results_noted p host action ops (Z.of_nat (length ids) - 1)); [|lia|lia|done|done|].
    + intros ->. by rewrite <- Hids in Hne.
    + pose proof (touched_trans host [] ops (Z.of_nat (length ids) - 1) 0 _ _ _ ltac:(lia) Hc Ha) as Ht. by rewrite Z.add_0_r in Ht.
  - intros [= <- <-]. pose proof (touched_trans host [] [] (Z.of_nat (length ids) - 1) 0 _ _ _ ltac:(lia) Hc Ea) as Ht. apply (acted_note p host [] (Z.of_nat (length ids) - 1 + 0)); [lia|cbn; lia|done|done|exact Ht].
Qed.

(** ** What becomes of a call *)
Notation do_call := (McpTools.call fault afault wfault LoadLocation hist hist_fault order now charge_now who).
(** It is turned away and leaves the estate alone; or its caller holds every right the
    tool requires, and then what it asked of daemons went to the one its host means, each
    container it changed was paid for, and a change of anything is in the audit log. *)
Inductive call_outcome (t : Tool) (w w' : TWorld) (ok : bool) : Prop :=
  | turned_away : ok = false -> idle_step w w' -> call_outcome t w w' ok
  | let_through p h ops n : who = Some p -> required t p w -> named w' -> more_notes w w' -> spends n w w' ->
      dwFx (twD w') = dwFx (twD w) ++ ((fun op => (h, op)) <$> ops) -> (ops <> [] -> means (tool_gate t).2 w h) -> Z.of_nat (length ops) <= n ->
      (same_estate w w' \/ 1 <= n /\ noted p (fun e => ops <> [] -> e = h) (twAudit w) (twAudit w')) -> call_outcome t w w' ok.

Lemma spends_weaken n m w w' : m <= n -> spends n w w' -> spends m w w'.
Proof. intros Hm H He p k Hp Hk Hb. destruct (H He p k Hp Hk Hb) as (k' & Hk' & Hb'). exists k'. split; [lia|done]. Qed.
Lemma passed_idle n h w w1 : 0 <= n -> passed n h w w1 -> idle_step w w1.
Proof. intros Hn [H1 H2 H3 H4 _]. split; [done|done|exists []; by rewrite H3, app_nil_r|by apply (spends_weaken n)]. Qed.
(** Past the gate of a change, and nothing changed yet. *)
Record paid (w w1 : TWorld) : Prop := { pd_named : named w1; pd_same : same_estate w w1; pd_notes : more_notes w w1; pd_spent : spends 1 w w1 }.
Lemma passed_paid h w w1 : passed 1 h w w1 -> paid w w1.
Proof. intros [H1 H2 H3 H4 _]. split; [done|done|exists []; by rewrite H3, app_nil_r|done]. Qed.
Lemma paid_step w w1 w2 : paid w w1 -> idle_step w1 w2 -> paid w w2.
Proof.
  intros [A1 A2 A3 A4] [B1 B2 B3 B4]. split; [auto|by etrans|by etrans|]. exact (spends_trans 1 0 w w1 w2 ltac:(lia) A4 B4).
Qed.
Lemma paid_idle w w1 : paid w w1 -> idle_step w w1.
Proof. intros [A1 A2 A3 A4]. split; [done|done|done|by apply (spends_weaken 1)]. Qed.
Lemma paid_away t w w' : paid w w' -> call_outcome t w w' false.
Proof. intros Hp. by apply turned_away, paid_idle. Qed.
Lemma paid_through t p w w' ok : who = Some p -> required t p w -> paid w w' -> call_outcome t w w' ok.
Proof.
  intros Hp Hr [A1 A2 A3 A4]. apply (let_through t w w' ok p 0 [] 1); try done; [|by left]. by rewrite (se_asked _ _ A2), app_nil_r.
Qed.
(** A change beside the daemons, and its entry. *)
Lemma paid_changed t p h action target detail w w1 w2 ok : who = Some p -> required t p w -> paid w w1 ->
  named w2 -> dwFx (twD w2) = dwFx (twD w1) -> twG w2 = twG w1 -> twAudit w2 = twAudit w1 -> call_outcome t w (auditOn now p h action target detail w2) ok.
Proof.
  intros Hp Hr [A1 A2 A3 A4] Hn Hfx Hg Ha. assert (Hm : more_notes w w2) by (destruct A3 as [l Hl]; exists l; by rewrite Ha).
  apply (let_through t w _ ok p 0 [] 1); try done.
  - etrans; [exact Hm|apply noted_idle].
  - pose proof (spends_trans 1 0 w w1 w2 ltac:(lia) A4 (spends_same _ _ (f_equal glimiter Hg))) as Hs.
    exact (spends_trans 1 0 w w2 _ ltac:(lia) Hs (spends_same _ _ eq_refl)).
  - cbn. by rewrite Hfx, (se_asked _ _ A2), app_nil_r.
  - right. split; [lia|]. by apply noted_last.
Qed.
Lemma acted_outcome t p host w w1 w' ok : who = Some p -> required t p w -> (tool_gate t).2 = host -> passed 1 host w w1 -> acted p host w1 w' -> call_outcome t w w' ok.
Proof.
  intros Hp Hr Hh Hpass (ops & n & Ht & Hn & Hl & Hnote). pose proof (passed_paid _ _ _ Hpass) as [A1 A2 A3 A4]. pose proof (touched_named _ _ _ _ _ Ht) as Hnm.
  pose proof Ht as [(_ & _ & _ & _ & _ & h & Hfx & Hres) _ _ _ Hm Hs]. apply (let_through t w w' ok p h ops (1 + n)); try done.
  - by etrans.
  - exact (spends_trans 1 n w w1 w' ltac:(lia) A4 Hs).
  - by rewrite Hfx, (se_asked _ _ A2).
  - rewrite Hh. intros Ho. destruct (Hres Ho) as [Hr1 _]. unfold means. by rewrite <- (se_hosts _ _ A2).
  - lia.
  - destruct ops as [|o ops]; [left; etrans; [exact A2|by eapply touched_same]|right]. split; [lia|]. intros Hf. destruct (Hnote ltac:(done) Hf) as (l & e & Hrows & He & Hu & Hun & Hm').
    exists l, e. rewrite (pa_audit _ _ _ _ Hpass) in Hrows. split; [done|]. split; [done|]. split; [done|]. split; [done|]. intros _. destruct (Hres ltac:(done)) as [Hr1 _]. unfold means in Hm'. congruence.
Qed.

Context `{GL : !GrantStoreLaws GS}.
Lemma projects_outcome t act id op w w' r : (t = down_project id \/ exists ps b, t = deploy_project id ps b) -> named w ->
  projectTool fault now who act id op w = (w', r) -> call_outcome t w w' (is_ok r).
Proof.
  intros Ht Hn H. unfold projectTool, McpTools.authorize in H. apply gated in H as [(Hok & Hi & _)|(p & w1 & Hp & Hok & Hpass & H)]; [by apply turned_away| |done].
  assert (Hpd : paid w w1) by by eapply passed_paid. destruct (id <=? 0); [injection H as <- <-; by apply paid_away|]. unfold mbind, stM_bind in H.
  destruct (McpTools.authorizeProjectHost now who id true w1) as [w2 [u|e]] eqn:Ea.
  2: { pose proof (quiet_project_host id true w1 w2 _ (pd_named _ _ Hpd) Ea) as Hq. injection H as <- <-. eapply paid_away, paid_step; [exact Hpd|by apply quiet_idle]. }
  pose proof (quiet_project_host id true w1 w2 _ (pd_named _ _ Hpd) Ea) as Hq. assert (Hpd2 : paid w w2) by (eapply paid_step; [exact Hpd|by apply quiet_idle]).
  apply project_host_ok in Ea as (pr & Hpr & q & Hq' & Hh). assert (q = p) as -> by congruence. rewrite (se_projects _ _ (pd_same _ _ Hpd)) in Hpr.
  assert (Hreq : required t p w).
  { destruct Ht as [->|(ps & b & ->)]; (split; [exact Hok|]; intros pr' Hpr'; assert (pr' = pr) as -> by congruence; exact Hh). }
  unfold attempt, on_world, on_dw, on_e, on_d in H. destruct (op (dwP (twD w2))) as [x r2]. cbv beta iota in H.
  destruct (match (match r2 with Ok a => Ok a | Err e => Err e end) with Ok (out, e) => (out, e) | Err e => ("", Some e) end) as [out derr] eqn:Ed.
  set (w3 := set_te _ w2) in H. assert (w' = auditOn now p (projectDaemonHost fault id w3) ("mcp.project." +:+ act) (projectTarget id) (McpTools.outcome derr) w3) as ->.
  { destruct r2 as [[o e]|e]; cbn in Ed; injection Ed as <- <-; by injection H. }
  apply (paid_changed t p _ _ _ _ w w2 w3); try done. all: exact (pd_named _ _ Hpd2).
Qed.


Lemma recorder_idle w : quiet_step w (on_h WithHostRecorder w).
Proof. by apply recorded_quiet. Qed.
(** A call past its gate, whatever it went on to do; reads are done already. *)
Lemma container_outcome t p h w w1 w' ok : who = Some p -> tool_gate t = ("containers", true, h) -> permitted p "containers" true h ->
  (forall q x, second_gate t q x = True) -> passed 1 h w w1 -> acted p h w1 w' -> call_outcome t w w' ok.
Proof.
  intros Hp Ht Hok H2 Hpass Ha. apply (acted_outcome t p h w w1); try done; [|by rewrite Ht]. split; [by rewrite Ht|by rewrite H2].
Qed.
Lemma passed_fresh h w w1 n : hwRec (dwH (twD w)) = None -> passed n h w w1 -> fresh h w1.
Proof. intros Hr [_ _ _ _ Hrec]. intros x. rewrite Hrec. unfold recorded, means, ResolveHostID. destruct (0 <? h); cbn; rewrite Hr; [by intros [= <-]|done]. Qed.
Lemma act_outcome v h id w w' r : named w -> hwRec (dwH (twD w)) = None -> run (container_action v h id) w = (w', r) -> call_outcome (container_action v h id) w w' (is_ok r).
Proof.
  intros Hn Hr. cbn [run_tool]. unfold containerActionTool, McpTools.authorize. intros H. apply gated in H as [(Hok & Hi & _)|(p & w1 & Hp & Hok & Hpass & H)]; [by apply turned_away| |done].
  destruct (String.eqb id ""); [injection H as <- <-; apply paid_away; by eapply passed_paid|].
  eapply container_outcome; [exact Hp|done|exact Hok|done|exact Hpass|]. eapply action_tool_acted; [apply Hpass|by eapply passed_fresh|exact H].
Qed.
Lemma touched_acted p host n w w1 w' : fresh host w -> 0 <= n -> touched host [] n w w1 -> acted p host w1 w' -> acted p host w w'.
Proof.
  intros Hf Hn Ht (ops & m & Ht2 & Hm & Hl & Hnote). exists ops, (n + m). split; [by apply (touched_trans host [] ops n m w w1 w')|]. split; [lia|]. split; [lia|]. intros Ho Haf.
  destruct (Hnote Ho Haf) as (l & e & Hr & He & Hu & Hun & Hmn). destruct (tc_notes _ _ _ _ _ Ht) as [l0 Hl0]. exists (l0 ++ l), e. split; [by rewrite Hr, Hl0, <- app_assoc|]. split; [apply elem_of_app; by right|].
  split; [done|]. split; [done|]. destruct (tc_asked _ _ _ _ _ Ht) as (Hdb & _). unfold means in *. by rewrite <- Hdb.
Qed.
Lemma stack_outcome v h project w w' r : named w -> hwRec (dwH (twD w)) = None -> run (stack_action v h project) w = (w', r) -> call_outcome (stack_action v h project) w w' (is_ok r).
Proof.
  intros Hn Hr. cbn [run_tool]. unfold stackActionTool, McpTools.authorize. intros H. apply gated in H as [(Hok & Hi & _)|(p & w1 & Hp & Hok & Hpass & H)]; [by apply turned_away| |done].
  destruct (String.eqb (TrimSpace project) ""); [injection H as <- <-; apply paid_away; by eapply passed_paid|].
  eapply container_outcome; [exact Hp|done|exact Hok|done|exact Hpass|]. eapply under_claim_acted; [apply Hpass|by eapply passed_fresh| |exact H]. clear w' r H.
  intros w2 w3 r Hn2 Hf2. unfold mbind, stM_bind. destruct (on_dw (StackContainerIDs fault h project) w2) as [w4 [ids|e]] eqn:E;
    (eapply (asked_dw _ h []) in E; [|intros d' Hd; by eapply StackContainerIDs_asked]).
  - intros H. apply (touched_acted p h 0 w2 w4); [done|lia|done|]. eapply stack_run_acted; [exact Hp|by eapply touched_named|by eapply touched_fresh|exact H].
  - intros [= <- <-]. by apply (acted_nothing p h 0).
Qed.
Lemma subset_outcome v h project ids w w' r : named w -> hwRec (dwH (twD w)) = None -> run (stack_containers v h project ids) w = (w', r) -> call_outcome (stack_containers v h project ids) w w' (is_ok r).
Proof.
  intros Hn Hr. cbn [run_tool]. unfold stackContainersActionTool, McpTools.authorize. intros H. apply gated in H as [(Hok & Hi & _)|(p & w1 & Hp & Hok & Hpass & H)]; [by apply turned_away| |done].
  destruct (String.eqb (TrimSpace project) ""); [injection H as <- <-; apply paid_away; by eapply passed_paid|].
  destruct (validateStackContainerIDs ids) as [e|] eqn:Ev; [injection H as <- <-; apply paid_away; by eapply passed_paid|].
  eapply container_outcome; [exact Hp|done|exact Hok|done|exact Hpass|]. eapply under_claim_acted; [apply Hpass|by eapply passed_fresh| |exact H]. clear w' r H.
  intros w2 w3 r Hn2 Hf2 H. eapply stack_containers_acted; [exact Hp|done|done| |exact H]. by intros ->.
Qed.


Lemma ack_outcome id w w' r : named w -> run (acknowledge_alert id) w = (w', r) -> call_outcome (acknowledge_alert id) w w' (is_ok r).
Proof.
  intros Hn. cbn [run_tool]. unfold acknowledgeAlert, McpTools.authorize. intros H. apply gated in H as [(Hok & Hi & _)|(p & w1 & Hp & Hok & Hpass & H)]; [by apply turned_away| |done].
  assert (Hpd : paid w w1) by by eapply passed_paid. destruct (id <=? 0); [injection H as <- <-; by apply paid_away|]. unfold mbind, stM_bind, st_get in H. cbv beta iota in H.
  destruct (AlertEventHost afault id (twAlerts w1)) as [h|e] eqn:Eh; [|injection H as <- <-; by apply paid_away].
  unfold attempt in H. destruct (recheck "alerts" true h w1) as [w2 c] eqn:Ec. cbv beta iota in H.
  pose proof (paid_step _ _ _ Hpd (quiet_idle _ _ (quiet_recheck "alerts" true h w1 w2 c (pd_named _ _ Hpd) Ec))) as Hpd2.
  destruct c as [u|e]; [|injection H as <- <-; by apply paid_away]. apply recheck_ok in Ec as (q & Hq & Hok2). assert (q = p) as -> by congruence.
  assert (Hreq : required (acknowledge_alert id) p w).
  { split; [exact Hok|]. intros h' Eh'. rewrite (se_alerts _ _ (pd_same _ _ Hpd)) in Eh. assert (h' = h) as -> by congruence. exact Hok2. }
  unfold on_alerts, AckAlertEvent, aexec in H. destruct (afault (QAckOne id)).
  - injection H as <- <-. assert (set_talerts (twAlerts w2) w2 = w2) as -> by (by destruct w2). by apply paid_away.
  - cbn in H. injection H as <- <-. by apply (paid_changed _ p _ _ _ _ w w2 (set_talerts _ w2)); try apply Hpd2.
Qed.
Lemma create_window_outcome i w w' r : named w -> run (create_maintenance_window i) w = (w', r) -> call_outcome (create_maintenance_window i) w w' (is_ok r).
Proof.
  intros Hn. cbn [run_tool]. unfold createMaintenanceWindow, McpTools.authorize. intros H. apply gated in H as [(Hok & Hi & _)|(p & w1 & Hp & Hok & Hpass & H)]; [by apply turned_away| |done].
  assert (Hpd : paid w w1) by by eapply passed_paid. repeat (match type of H with (if ?b then _ else _) _ = _ => destruct b end; [injection H as <- <-; by apply paid_away|]).
  destruct (List.find _ (cwSeverities i)); [injection H as <- <-; by apply paid_away|]. unfold mbind, stM_bind, st_get in H. cbv beta iota zeta in H.
  destruct (McpTools.maintenanceWindowHostsAllowed fault p (gsNormalizeHostID <$> cwHostIDs i) w1) eqn:Ea; cbn [negb] in H; [|injection H as <- <-; by apply paid_away].
  assert (Hreq : required (create_maintenance_window i) p w) by (split; [exact Hok|by eapply windows_allowed]).
  unfold on_wins, CreateMaintenanceWindow in H. destruct (wfault WInsert).
  - injection H as <- <-. assert (set_twins (twWins w1) w1 = w1) as -> by (destruct w1 as [[[h fx []] fs rn] g a u n]; done). by apply paid_away.
  - cbv beta iota zeta in H. unfold do_auditOn, st_mod, mret, stM_ret in H. injection H as <- <-. by apply (paid_changed _ p _ _ _ _ w w1 (set_twins _ w1)); try apply Hpd.
Qed.
Lemma end_window_outcome id w w' r : named w -> run (end_maintenance_window id) w = (w', r) -> call_outcome (end_maintenance_window id) w w' (is_ok r).
Proof.
  intros Hn. cbn [run_tool]. unfold endMaintenanceWindow, McpTools.authorize. intros H. apply gated in H as [(Hok & Hi & _)|(p & w1 & Hp & Hok & Hpass & H)]; [by apply turned_away| |done].
  assert (Hpd : paid w w1) by by eapply passed_paid. destruct (id <=? 0); [injection H as <- <-; by apply paid_away|]. unfold mbind, stM_bind, st_get in H. cbv beta iota in H.
  destruct (MaintenanceWindowByID wfault (twWins w1) id) as [win|e] eqn:Ew; [|injection H as <- <-; by apply paid_away].
  destruct (McpTools.maintenanceWindowHostsAllowed fault p (HostIDs win) w1) eqn:Ea; cbn [negb] in H; [|injection H as <- <-; by apply paid_away].
  assert (Hreq : required (end_maintenance_window id) p w).
  { split; [exact Hok|]. intros win' Ew'. rewrite (se_projects _ _ (pd_same _ _ Hpd)) in Ew. assert (win' = win) as -> by congruence. by eapply windows_allowed. }
  unfold on_wins in H. destruct (EndMaintenanceWindow wfault id (twWins w1)) as [t' [u|e]] eqn:Ee.
  - cbv beta iota in H. unfold do_auditOn, st_mod, mret, stM_ret in H. injection H as <- <-. by apply (paid_changed _ p _ _ _ _ w w1 (set_twins _ w1)); try apply Hpd.
  - injection H as <- <-. assert (t' = twWins w1) as ->.
    { unfold EndMaintenanceWindow, on_row in Ee. repeat case_match; by injection Ee. }
    assert (set_twins (twWins w1) w1 = w1) as -> by (destruct w1 as [[[h fx []] fs rn] g a u n]; done). by apply paid_away.
Qed.
Lemma scan_outcome h ref w w' r : named w -> run (scan_image_tool h ref) w = (w', r) -> call_outcome (scan_image_tool h ref) w w' (is_ok r).
Proof.
  intros Hn. cbn [run_tool]. unfold scanImage, McpTools.authorize. intros H. apply gated in H as [(Hok & Hi & _)|(p & w1 & Hp & Hok & Hpass & H)]; [by apply turned_away| |done].
  assert (Hpd : paid w w1) by by eapply passed_paid. assert (Hreq : required (scan_image_tool h ref) p w) by (by split).
  destruct (negb (ValidImageRef ref)); [injection H as <- <-; by apply paid_away|]. destruct (negb trivy_available); [injection H as <- <-; by eapply paid_through|].
  unfold mbind, stM_bind, st_get in H. cbv beta iota in H. match type of H with (match ?x with Ok _ => _ | Err _ => _ end) _ = _ => destruct x as [[env|e]|e] end; [|injection H as <- <-; by eapply paid_through|injection H as <- <-; by apply paid_away].
  cbv beta iota zeta in H. unfold do_auditOn, st_mod in H. cbv beta iota in H.
  assert (w' = auditOn now p (daemonHost fault h w1) "mcp.image.scan" ref (McpTools.outcome (err_of (scan_image env ref))) (add_ran (RanScan h ref) w1)) as -> by (destruct (scan_image env ref); by injection H).
  by apply (paid_changed _ p _ _ _ _ w w1 (add_ran _ w1)); try apply Hpd.
Qed.
Lemma diagnostics_outcome h w w' r : named w -> run (run_diagnostics h) w = (w', r) -> call_outcome (run_diagnostics h) w w' (is_ok r).
Proof.
  intros Hn. cbn [run_tool]. unfold runDiagnostics, McpTools.authorize. intros H. apply gated in H as [(Hok & Hi & _)|(p & w1 & Hp & Hok & Hpass & H)]; [by apply turned_away| |done].
  assert (Hpd : paid w w1) by by eapply passed_paid. assert (Hreq : required (run_diagnostics h) p w) by (by split).
  unfold mbind, stM_bind, attempt in H. destruct (on_dw (daemon fault h) w1) as [w2 c] eqn:Ed. assert (Hq : quiet_step w1 w2).
  { revert Ed. apply (quiet_dw _ h); [|apply Hpd]. intros d d' r' Hnd E. by apply daemon_asked in E as [? _]. }
  pose proof (paid_step _ _ _ Hpd (quiet_idle _ _ Hq)) as Hpd2. unfold do_audit, st_mod in H. destruct c as [cli|e]; cbv beta iota in H.
  - unfold on_dw, on_e, on_d, ask in H. cbv beta iota zeta in H. set (w3 := set_te _ _) in H.
    assert (exists a d, w' = audit now p a "" d w3) as (a & d & ->) by (destruct (diagnose _ cli); injection H as <- _; by eexists _, _).
    apply (paid_changed _ p _ _ _ _ w w2 w3); try done; apply Hpd2.
  - injection H as <- <-. by apply (paid_changed _ p _ _ _ _ w w2 w2); try apply Hpd2.
Qed.

(** Every call of every tool. *)
Lemma call_spec t w w' r : named w -> do_call t w = (w', r) -> call_outcome t w w' (is_ok r).
Proof.
  intros Hn. unfold McpTools.call. intros H. set (w0 := on_h WithHostRecorder w) in H. pose proof (recorder_idle w) as Hq0. fold w0 in Hq0.
  assert (Hn0 : named w0) by by apply Hq0. assert (H0 : call_outcome t w0 w' (is_ok r)).
  { destruct (writes t) eqn:Ew.
    - destruct t; try discriminate Ew.
      + by apply ack_outcome.
      + by apply create_window_outcome.
      + by apply end_window_outcome.
      + by apply diagnostics_outcome.
      + by apply stack_outcome.
      + by apply subset_outcome.
      + by apply scan_outcome.
      + by apply act_outcome.
      + eapply projects_outcome; [right; by eexists _, _|exact Hn0|exact H].
      + eapply projects_outcome; [by left|exact Hn0|exact H].
    - pose proof (read_quiet t Ew w0 w' r Hn0 H) as Hq. destruct r as [o|e]; [|by apply turned_away, quiet_idle].
      apply read_gate in H as (p & Hp & Hreq); [|done|done]. pose proof (quiet_idle _ _ Hq) as [B1 B2 B3 B4].
      apply (let_through t w0 w' _ p 0 [] 0); try done; [by apply B1| |by left]. by rewrite (se_asked _ _ B2), app_nil_r. }
  destruct H0 as [Hk Hi|p h ops n Hp Hreq Hnm Hmn Hs Hfx Hres Hl Hd].
  - apply turned_away; [done|]. etrans; [by apply quiet_idle|exact Hi].
  - apply (let_through t w w' _ p h ops n); try done. destruct Hd as [Hd|Hd]; [left|by right]. etrans; [apply Hq0|exact Hd].
Qed.



(** reading changes nothing.  A tool that is gated as a read leaves everything as it
    was whatever it answers, spends none of the allowance and leaves no entry in the audit
    log. *)
Theorem read_tools_change_nothing t w w' r : writes t = false -> named w -> do_call t w = (w', r) ->
  same_estate w w' /\ twAudit w' = twAudit w /\ twG w' = twG w.
Proof.
  intros Hw Hn H. pose proof (recorder_idle w) as Hq. pose proof (read_quiet t Hw _ w' r (qs_named _ _ Hq Hn) H) as H'.
  destruct Hq as [_ B1 B2 B3], H' as [_ A1 A2 A3]. split; [exact (transitivity B1 A1)|split; congruence].
Qed.

(** every change is in the audit log.  When a call changed anything and the audit log
    can be written, there is a new entry under the caller's account; and when a daemon was
    asked for something, it names that daemon's host. *)
Theorem changes_are_noted t w w' r : named w -> (forall l, audit_fault l = false) -> do_call t w = (w', r) -> ~ same_estate w w' ->
  exists p l e fx, who = Some p /\ audit_rows (twAudit w') = audit_rows (twAudit w) ++ l /\ e ∈ l /\ enUserID e = ID (puser p) /\ enUsername e = Username (puser p) /\
    dwFx (twD w') = dwFx (twD w) ++ fx /\ Forall (fun x : Z * DOp => enHostID e = x.1) fx.
Proof.
  intros Hn Hf H Hc. destruct (call_spec t w w' r Hn H) as [_ [_ Hs _ _]|p h ops n Hp _ _ _ _ Hfx _ _ [Hs|[_ Hnote]]]; [done|done|].
  destruct (Hnote Hf) as (l & e & Hl & He & Hu & Hun & Hh). exists p, l, e. eexists. do 5 (split; [done|]). split; [exact Hfx|]. apply Forall_forall.
  intros [h' op] Hin%list_elem_of_fmap. destruct Hin as (op' & [= -> ->] & Hin). apply Hh. intros ->. by apply not_elem_of_nil in Hin.
Qed.

(** Calls one after the other; each counts as the requests it made of daemons, as one when
    it changed something else, as none when it changed nothing. *)
Inductive session : list Tool -> TWorld -> TWorld -> Z -> Prop :=
  | session_done w : session [] w w 0
  | session_call t ts w w1 w2 r c n : do_call t w = (w1, r) ->
      (same_estate w w1 /\ c = 0 \/ ~ same_estate w w1 /\ c = Z.max 1 (Z.of_nat (length (dwFx (twD w1))) - Z.of_nat (length (dwFx (twD w))))) ->
      session ts w1 w2 n -> session (t :: ts) w w2 (c + n).
Lemma session_within p ts w w' n k : charge_now = now -> who = Some p -> session ts w w' n -> named w -> 0 <= k <= controlBurst -> budget (ID (puser p)) now k w -> n <= k.
Proof.
  intros He Hp Hs. revert k. induction Hs as [w|t ts w w1 w2 r c n Hc Hcount _ IH]; intros k Hn Hk Hb; [lia|].
  destruct (call_spec t w w1 r Hn Hc) as [_ [Hnm Hse _ Hsp]|q h ops m Hq _ Hnm _ Hsp Hfx _ Hl Hch].
  - destruct (Hsp He p k Hp Hk Hb) as (k' & Hk' & Hb'). specialize (IH k' (Hnm Hn) ltac:(lia) Hb'). destruct Hcount as [[_ ->]|[Hno _]]; [lia|done].
  - destruct (Hsp He p k Hp Hk Hb) as (k' & Hk' & Hb'). specialize (IH k' Hnm ltac:(lia) Hb'). rewrite Hfx, length_app, length_fmap in Hcount.
    destruct Hcount as [[_ ->]|[Hno ->]]; [lia|]. destruct Hch as [Hse|[H1 _]]; [done|lia].
Qed.



(** ** What an answer may hold *)
(** A host whose rows the caller may see in a listing over all hosts. *)
Definition visible (p : principal) (w : TWorld) (h : Z) : Prop :=
  every_host p \/ h = 0 \/ local_id fault w = Ok h \/
  ((phosts p = [] \/ h ∈ phosts p) /\ (IsAdmin (puser p) = true \/ gsReachableHosts (puser p) = Ok None \/ exists hs, gsReachableHosts (puser p) = Ok (Some hs) /\ h ∈ hs)).
Lemma local_ids w h : h ∈ localHostIDs fault w -> h = 0 \/ local_id fault w = Ok h.
Proof.
  unfold localHostIDs. rewrite elem_of_cons. intros [->|Hh]; [by left|right]. destruct (local_id fault w) as [id|e]; [by apply list_elem_of_singleton in Hh as ->|by apply not_elem_of_nil in Hh].
Qed.
Lemma scoped_visible p w : match scopedHostIDs fault p w with None => every_host p | Some ids => forall h, h ∈ ids -> visible p w h end.
Proof.
  destruct (scopedHostIDs fault p w) as [ids|] eqn:E; [|by eapply scoped_all]. intros h Hh. unfold scopedHostIDs in E. unfold visible.
  assert (Hl : forall (l : list Z), h ∈ localHostIDs fault w ++ l -> (h = 0 \/ local_id fault w = Ok h) \/ h ∈ l) by (intros l [?%local_ids|?]%elem_of_app; tauto).
  destruct (IsAdmin (puser p)).
  { destruct (phosts p) as [|x hs] eqn:Ep; [done|]. injection E as <-. apply Hl in Hh as [[?|?]|Hh]; [tauto|tauto|]. right. right. right. split; [by right|by left]. }
  destruct (gsReachableHosts (puser p)) as [[hs|]|e] eqn:Eg.
  - injection E as <-. apply Hl in Hh as [[?|?]|Hh]; [tauto|tauto|]. right. right. right. apply list_elem_of_In, List.filter_In in Hh as [Hh Hf]. split.
    + destruct (phosts p) as [|x l] eqn:Ep; [by left|right]. by apply containsID_spec.
    + right. right. exists hs. split; [done|]. apply list_elem_of_In in Hh. by apply elem_of_elements.
  - destruct (phosts p) as [|x hs] eqn:Ep; [done|]. injection E as <-. apply Hl in Hh as [[?|?]|Hh]; [tauto|tauto|]. right. right. right. split; [by right|right; by left].
  - injection E as <-. apply local_ids in Hh. tauto.
Qed.
Lemma scoped_same p w w1 : hwDB (dwH (twD w1)) = hwDB (dwH (twD w)) -> scopedHostIDs fault p w1 = scopedHostIDs fault p w.
Proof. intros H. unfold scopedHostIDs, localHostIDs, local_id. by rewrite H. Qed.

(** What each listing over all hosts may show. *)
Definition shown (t : Tool) (p : principal) (w : TWorld) (o : ToolOut) : Prop :=
  match t, o with
  | recent_audit _, OAudit l => forall x, x ∈ l -> exists e, e ∈ audit_rows (twAudit w) /\ x = audit_brief e /\ visible p w (enHostID e)
  | list_alerts _, OAlerts l _ => forall e, e ∈ l -> e ∈ aevents (twAlerts w) /\ visible p w (eHostID e)
  | active_alert_conditions _, OConditions l => forall x, x ∈ l -> permitted p "alerts" false (tHostID x.1)
  | list_maintenance_windows, OWindows l => forall x, x ∈ l -> windows_permitted p (HostIDs x.1)
  | list_managed_projects, OManaged l => forall x, x ∈ l -> (pHostID x.1 <> 0 -> permitted p "hosts" false (pHostID x.1)) /\ permitted p "projects" false (pHostID x.1)
  | _, _ => True
  end.

Lemma recent_in limit before hosts log e : e ∈ RecentAudit limit before hosts log -> e ∈ audit_rows log /\ match hosts with None => True | Some ids => enHostID e ∈ ids end.
Proof.
  unfold RecentAudit. intros (i & Hi%list_elem_of_lookup_2 & _)%elem_of_take. apply list_elem_of_In, in_rev, List.filter_In in Hi as [Hin Hf]. split; [by apply list_elem_of_In|].
  apply andb_true_iff in Hf as [_ Hf]. destruct hosts as [ids|]; [|done]. unfold containsInt64 in Hf. apply existsb_exists in Hf as (x & Hx & E). apply Z.eqb_eq in E as ->. by apply list_elem_of_In.
Qed.
Lemma events_in q a l n e : ListAlertEvents afault q a = Ok (l, n) -> e ∈ l -> e ∈ aevents a /\ match qHostIDs q with None => True | Some ids => eHostID e ∈ ids end.
Proof.
  unfold ListAlertEvents. destruct (_ || _); [done|]. intros [= <- _] Hin. apply elem_of_take in Hin as (i & Hi & _). rewrite lookup_drop in Hi. apply list_elem_of_lookup_2 in Hi.
  rewrite merge_sort_Permutation, list_elem_of_filter in Hi. destruct Hi as [Hw Hi]. split; [done|]. unfold where_ in Hw. apply andb_true_iff in Hw as [_ Hw].
  destruct (qHostIDs q) as [[|x ids]|]; [done| |done]. apply existsb_exists in Hw as (y & Hy & E). apply Z.eqb_eq in E as ->. by apply list_elem_of_In.
Qed.
Lemma recheckHost_ok s wr h w w' u : McpTools.recheckHost now who s wr h w = (w', Ok u) -> exists p, who = Some p /\ (h <> 0 -> permitted p "hosts" false h) /\ permitted p s wr h.
Proof.
  unfold McpTools.recheckHost, mbind, stM_bind. destruct (h =? 0) eqn:E0; bsimp.
  - unfold mret, stM_ret. intros (p & Hp & Hok)%recheck_ok. exists p. split; [done|]. split; [done|done].
  - destruct (authorize "hosts" false h w) as [w1 [q|e]] eqn:Ea; [|done]. unfold mret, stM_ret. cbv beta iota. apply authorize_ok in Ea as (p & Hp & Hok). intros (p' & Hp' & Hok')%recheck_ok.
    assert (p' = p) as -> by congruence. exists p. auto.
Qed.
Definition project_seen (h : Z) : Prop := exists p, who = Some p /\ (h <> 0 -> permitted p "hosts" false h) /\ permitted p "projects" false h.
Lemma reachable_seen ps : forall seen w w' l, (forall h, seen !! h = Some true -> project_seen h) -> reachable_projects now who seen ps w = (w', Ok l) -> forall x, x ∈ l -> project_seen (pHostID x.1).
Proof.
  induction ps as [|p ps IH]; intros seen w w' l Hs; cbn [reachable_projects]; [intros [= <- <-] x Hx; by apply not_elem_of_nil in Hx|].
  unfold mbind at 1, stM_bind at 1. match goal with |- match ?x with _ => _ end = _ -> _ => destruct x as [w1 [ok|e]] eqn:E end; [|done].
  assert (Hok : ok = true -> project_seen (pHostID p.1)).
  { intros ->. destruct (seen !! pHostID p.1) as [b|] eqn:Eb; [injection E as <- ->; by apply Hs|].
    unfold mbind, stM_bind, attempt in E. destruct (McpTools.recheckHost now who "projects" false (pHostID p.1) w) as [w2 [u|e]] eqn:Er; cbv beta iota in E; [|discriminate E]. by apply recheckHost_ok in Er. }
  unfold mbind at 1, stM_bind at 1. destruct (reachable_projects now who _ ps w1) as [w2 [rest|e]] eqn:Er; [|done]. intros [= <- <-] x Hx.
  assert (Hs' : forall h, <[pHostID p.1:=ok]> seen !! h = Some true -> project_seen h).
  { intros h. destruct (decide (h = pHostID p.1)) as [->|Hne]; [rewrite lookup_insert_eq; intros [= ->]; by apply Hok|rewrite lookup_insert_ne by done; apply Hs]. }
  destruct ok; [apply elem_of_cons in Hx as [->|Hx]; [by apply Hok|]|]; by eapply IH.
Qed.

(** listings over all hosts show what the caller may see.  Audit entries and alerts
    come from hosts within the token's and its owner's reach or from the local daemon --
    an entry about several hosts only for those who may see every host --; alert
    conditions, maintenance windows and managed projects are those of hosts the caller may
    read them on. *)
Theorem listings_scoped t w w' o : named w -> do_call t w = (w', Ok o) -> exists p, who = Some p /\ shown t p w o.
Proof.
  intros Hn. unfold McpTools.call. intros H. set (w0 := on_h WithHostRecorder w) in H. pose proof (qs_named _ _ (recorder_idle w) Hn) as Hn0. fold w0 in Hn0.
  destruct (call_spec t w w' (Ok o) Hn H) as [?|p h ops n Hp _ _ _ _ _ _ _ _]; [done|]. exists p. split; [done|].
  destruct t; try exact I; cbn [run_tool] in H.
  - unfold recentAudit, McpTools.authorize in H. apply gated in H as [(Hf & _ & _)|(q & w1 & Hq & Hok & Hpass & H)]; [done| |done]. assert (q = p) as -> by congruence.
    unfold mbind, stM_bind, st_get, mret, stM_ret in H. injection H as <- <-. cbn. intros x Hx%list_elem_of_fmap. destruct Hx as (e & -> & He). apply recent_in in He as [He Hh].
    rewrite (pa_audit _ _ _ _ Hpass) in He. exists e. split; [exact He|]. split; [done|]. rewrite (scoped_same p w) in Hh by (exact (se_hosts _ _ (pa_same _ _ _ _ Hpass))).
    pose proof (scoped_visible p w) as Hv. destruct (scopedHostIDs fault p w) as [ids|]; [by apply Hv|by left].
  - unfold listAlerts, McpTools.authorize in H. apply gated in H as [(Hf & _ & _)|(q & w1 & Hq & Hok & Hpass & H)]; [done| |done]. assert (q = p) as -> by congruence.
    unfold mbind, stM_bind, see in H. destruct (ListAlertEvents afault _ _) as [[l m]|e] eqn:El; [|done]. unfold mret, stM_ret in H. injection H as <- <-. cbn. intros e He.
    pose proof (events_in _ _ _ _ _ El He) as [Hin Hh]. rewrite (se_alerts _ _ (pa_same _ _ _ _ Hpass)) in Hin. split; [exact Hin|]. cbn [alert_query qHostIDs] in Hh. rewrite (scoped_same p w) in Hh by (exact (se_hosts _ _ (pa_same _ _ _ _ Hpass))).
    pose proof (scoped_visible p w) as Hv. destruct (scopedHostIDs fault p w) as [ids|]; [by apply Hv|by left].
  - unfold activeAlertConditions, McpTools.authorize in H. apply gated in H as [(Hf & _ & _)|(q & w1 & Hq & Hok & Hpass & H)]; [done| |done]. assert (q = p) as -> by congruence.
    unfold mbind, stM_bind, see in H. destruct (ListAlertStates afault _) as [l|e] eqn:El; [|done]. unfold mret, stM_ret in H. injection H as <- <-. cbn. intros x Hx%list_elem_of_fmap. destruct Hx as (st & -> & Hst%list_elem_of_In%List.filter_In).
    destruct Hst as [_ Hst]. unfold condition_seen in Hst. destruct (narrowed p "alerts" false (tHostID st)) eqn:En1; [done|]. destruct (checkAccess _ _ _ _) eqn:En2; [done|]. by apply raw_permitted.
  - unfold listMaintenanceWindows, McpTools.authorize in H. apply gated in H as [(Hf & _ & _)|(q & w1 & Hq & Hok & Hpass & H)]; [done| |done]. assert (q = p) as -> by congruence.
    unfold mbind, stM_bind, see in H. destruct (ListMaintenanceWindows wfault _) as [l|e] eqn:El; [|done]. unfold st_get, mret, stM_ret in H. injection H as <- <-. cbn. intros x Hx%list_elem_of_fmap. destruct Hx as (win & -> & Hw%list_elem_of_In%List.filter_In).
    destruct Hw as [_ Hw]. by eapply windows_allowed.
  - unfold listManagedProjects, McpTools.authorize in H. apply gated in H as [(Hf & _ & _)|(q & w1 & Hq & Hok & Hpass & H)]; [done| |done]. assert (q = p) as -> by congruence.
    unfold mbind at 1, stM_bind at 1, see in H. destruct (mcpListProjects _) as [ps|e]; [|done]. unfold mbind, stM_bind in H. destruct (reachable_projects now who ∅ ps w1) as [w2 [l|e]] eqn:Er; [|done].
    unfold mret, stM_ret in H. injection H as <- <-. cbn. intros x Hx. eapply reachable_seen in Er as (q' & Hq' & Hs); [|intros k Hh; by rewrite lookup_empty in Hh|exact Hx]. by assert (q' = p) as -> by congruence.
Qed.


(** *** Sizes *)
Fixpoint message_bytes (l : list LogLine) : Z := match l with [] => 0 | x :: l => Z.of_nat (String.length (llMessage x)) + message_bytes l end.
Lemma message_bytes_app l1 l2 : message_bytes (l1 ++ l2) = message_bytes l1 + message_bytes l2.
Proof. induction l1 as [|x l1 IH]; [done|]. cbn [app message_bytes]. rewrite IH. lia. Qed.
Lemma keep_full l out n : foldl keep_line (out, n, true) l = (out, n, true).
Proof. induction l as [|x l IH]; [done|]. exact IH. Qed.
Lemma keep_spec l : forall out n, n = message_bytes out -> n <= logsMaxBytes ->
  exists a b, l = a ++ b /\ foldl keep_line (out, n, false) l = (out ++ a, message_bytes (out ++ a), match b with [] => false | _ => true end) /\ message_bytes (out ++ a) <= logsMaxBytes /\
    match b with [] => True | x :: _ => logsMaxBytes < message_bytes (out ++ a ++ [x]) end.
Proof.
  induction l as [|x l IH]; intros out n -> Hn; [exists [], []; rewrite !app_nil_r; split; [done|]; split; [done|]; split; [exact Hn|done]|]. cbn [foldl]. unfold keep_line at 2. destruct (logsMaxBytes <? _) eqn:E; bsimp.
  - exists [], (x :: l). rewrite keep_full, !app_nil_r. split; [done|]. split; [done|]. split; [exact Hn|]. cbn [app]. rewrite message_bytes_app. cbn [message_bytes]. lia.
  - destruct (IH (out ++ [x]) (message_bytes out + Z.of_nat (String.length (llMessage x)))) as (a & b & -> & Hf & Hle & Hb); [rewrite message_bytes_app; cbn [message_bytes]; lia|lia|].
    exists (x :: a), b. split; [done|]. rewrite <- app_assoc in Hf, Hle. cbn [app] in Hf, Hle. split; [exact Hf|]. split; [exact Hle|]. destruct b as [|y b]; [done|]. rewrite <- app_assoc in Hb. exact Hb.
Qed.

(** a log answer is the longest one that fits.  The lines given are the first of
    those the daemon sent, in their order, together at most 64 KiB of text; the answer says
    it was cut exactly when lines are missing, and then the next one would not have fit. *)
Theorem logs_longest_prefix h id tail w w' l cut : do_call (container_logs h id tail) w = (w', Ok (OLogs l cut)) ->
  exists cli w1 rest, daemon fault h (twD w1) = (twD w', Ok cli) /\ stream_logs (dwFx (twD w')) cli id (bounded tail logsDefaultTail logsMaxTail) = (l ++ rest, None) /\
    message_bytes l <= logsMaxBytes /\ (cut = true <-> rest <> []) /\ match rest with [] => True | x :: _ => logsMaxBytes < message_bytes (l ++ [x]) end.
Proof.
  unfold McpTools.call. cbn [run_tool]. unfold containerLogs. unfold mbind at 1, stM_bind at 1. destruct (authorize "logs" false h _) as [w1 [p|e]]; [|done].
  unfold mbind at 1, stM_bind at 1. unfold on_dw, on_e, on_d. unfold mbind, stM_bind, ask. destruct (daemon fault h (ewD (twE w1))) as [d [cli|e]] eqn:Ed; [|done].
  destruct (stream_logs (dwFx d) cli id _) as [ls [e|]] eqn:Es; [done|]. destruct (foldl keep_line ([], 0, false) ls) as [[out n] tr] eqn:Ef. unfold mret, stM_ret. intros [= <- <- <-].
  destruct (keep_spec ls [] 0 eq_refl ltac:(done)) as (a & b & -> & Hf & Hle & Hb). rewrite Ef in Hf. cbn [app] in Hf, Hle, Hb. injection Hf as -> _ ->.
  exists cli, w1, b. split; [done|]. split; [done|]. split; [done|]. split; [|done]. destruct b; split; done.
Qed.

Definition within_caps (o : ToolOut) : Prop :=
  match o with
  | OLogs l _ => message_bytes l <= logsMaxBytes
  | OMatches l _ _ => (length l <= searchMaxMatches)%nat
  | OChanges l cut => (length l <= diffMaxEntries)%nat
  | OScan _ _ _ vs _ _ => (length vs <= scanMaxVulns)%nat
  | OAudit l => Z.of_nat (length l) <= auditMaxLimit
  | OAlerts l _ => Z.of_nat (length l) <= alertsMaxLimit
  | OStackSubset _ _ _ rs => Z.of_nat (length rs) <= maxStackContainerIDs
  | _ => True
  end.
Lemma search_bounded h tail hit cs : forall s d d' s', (length (seMatches s) <= searchMaxMatches)%nat -> search_containers fault h tail hit cs s d = (d', s') -> (length (seMatches s') <= searchMaxMatches)%nat.
Proof.
  assert (Hl : forall name ls s, (length (seMatches s) <= searchMaxMatches)%nat -> (length (seMatches (foldl (match_line hit name) s ls)) <= searchMaxMatches)%nat).
  { intros name ls. induction ls as [|l ls IH]; intros s Hs; [done|]. cbn [foldl]. apply IH. unfold match_line. destruct (_ <=? _)%nat eqn:E; [done|]. apply Nat.leb_gt in E. destruct (hit _); [|done]. cbn [seMatches]. rewrite length_app. cbn [length]. lia. }
  induction cs as [|c cs IH]; intros s d d' s' Hs; cbn [search_containers]; [by intros [= <- <-]|]. destruct (_ <=? _)%nat; [by intros [= <- <-]|].
  destruct (daemon fault h d) as [d1 [cli|e]]; apply IH; [by apply Hl|done].
Qed.
Lemma bounded_le n d c : d <= c -> bounded n d c <= c.
Proof. intros Hd. unfold bounded. cbv zeta. destruct (n <=? 0), (c <? _) eqn:E; bsimp; lia. Qed.

(** A computation whose answers have a property. *)
Definition answers {A} (P : A -> Prop) (m : stM TWorld string A) : Prop := forall w w' a, m w = (w', Ok a) -> P a.
Lemma ans_bind {A B} (Q : A -> Prop) (P : B -> Prop) (m : stM TWorld string A) (k : A -> stM TWorld string B) : answers Q m -> (forall a, Q a -> answers P (k a)) -> answers P (m ≫= k).
Proof. intros Hm Hk w w' b. unfold mbind, stM_bind. destruct (m w) as [w1 [a|e]] eqn:E; [|done]. intros H. exact (Hk a (Hm _ _ _ E) _ _ _ H). Qed.
Lemma ans_any {A B} (P : B -> Prop) (m : stM TWorld string A) (k : A -> stM TWorld string B) : (forall a, answers P (k a)) -> answers P (m ≫= k).
Proof. intros Hk. apply (ans_bind (fun _ => True)); [by intros ?|auto]. Qed.
Lemma ans_ret {A} (P : A -> Prop) a : P a -> answers P (mret a). Proof. by intros H w w' b [= _ <-]. Qed.
Lemma ans_fail {A} (P : A -> Prop) e : answers P (McpTools.fail e). Proof. by intros w w' b. Qed.
Lemma ans_claim {A} (P : A -> Prop) h project what (m : stM TWorld string A) : answers P m -> answers P (under_claim h project what m).
Proof.
  intros Hm w w' a. unfold under_claim. destruct (beginStackOp h project what (twD w)) as [d [c|[b e]]]; [|done]. destruct (m _) as [w2 r2] eqn:E. intros [= _ ->]. exact (Hm _ _ _ E).
Qed.
#[local] Hint Resolve ans_fail : quiet.
Ltac answer := repeat first [apply ans_fail | apply ans_ret; solve [exact I] | apply ans_claim | apply ans_any; intros ? | progress cbv zeta | progress cbv beta | case_match].
Lemma dw_answers {A} (P : A -> Prop) (m : stM DWorld string A) : (forall d d' a, m d = (d', Ok a) -> P a) -> answers P (on_dw m).
Proof. intros Hm w w' a. unfold on_dw, on_e, on_d. destruct (m _) as [d r] eqn:E. intros [= _ ->]. by eapply Hm. Qed.

Lemma caps_logs h id tail : answers within_caps (containerLogs fault now who h id tail).
Proof.
  unfold containerLogs. apply ans_any. intros _. apply ans_any. intros ls. destruct (foldl keep_line ([], 0, false) ls) as [[out n] cut] eqn:E. apply ans_ret. cbn.
  destruct (keep_spec ls [] 0 eq_refl ltac:(done)) as (a & b & _ & Hf & Hle & _). rewrite E in Hf. by injection Hf as -> _ _.
Qed.
Lemma caps_audit n : answers within_caps (recentAudit fault now who n).
Proof.
  unfold recentAudit. apply ans_any. intros p. apply ans_any. intros w. apply ans_ret. cbn. rewrite length_fmap. unfold RecentAudit. rewrite length_take.
  pose proof (bounded_le n auditDefaultLimit auditMaxLimit ltac:(done)). unfold auditMaxLimit in *. destruct (_ || _) eqn:E; [lia|]. apply orb_false_iff in E as [E _]. bsimp. lia.
Qed.
Lemma caps_alerts i : answers within_caps (listAlerts fault afault now who i).
Proof.
  unfold listAlerts. apply ans_any. intros p. apply (ans_bind (fun r => Z.of_nat (length r.1) <= alertsMaxLimit)); [|intros r Hr; by apply ans_ret].
  intros w w' a. unfold see. destruct (ListAlertEvents afault _ _) as [r|e] eqn:E; [|done]. intros [= _ <-]. revert E. unfold ListAlertEvents. destruct (_ || _); [done|]. intros [= <-]. cbn [fst]. rewrite length_take.
  pose proof (bounded_le (laLimit i) alertsDefaultLimit alertsMaxLimit ltac:(done)). unfold alertsMaxLimit in *. cbn [alert_query qLimit]. destruct (_ || _) eqn:E; [lia|]. apply orb_false_iff in E as [E _]. bsimp. lia.
Qed.
Lemma caps_changes h id : answers within_caps (containerChanges fault now who h id).
Proof. unfold containerChanges, daemon_read. apply ans_any. intros _. apply ans_any. intros l. apply ans_ret. cbn [within_caps]. rewrite length_take. lia. Qed.
Lemma caps_search i : answers within_caps (searchLogs fault now who i).
Proof.
  unfold searchLogs. apply ans_any. intros _. do 2 (match goal with |- answers _ (if ?b then _ else _) => destruct b; [apply ans_fail|] end).
  match goal with |- answers _ (match ?x with _ => _ end) => destruct x as [hit|e]; [|apply ans_fail] end. apply ans_any. intros cs. cbv zeta.
  apply (ans_bind (fun s => (length (seMatches s) <= searchMaxMatches)%nat)); [|intros s Hs; by apply ans_ret].
  apply dw_answers. intros d d' s. destruct (search_containers _ _ _ _ _ _ d) as [d1 s1] eqn:E. intros [= _ <-]. eapply search_bounded; [|exact E]. cbn [seMatches length]. lia.
Qed.
Lemma caps_scan h ref : answers within_caps (scanImage fault now who h ref).
Proof.
  unfold scanImage. apply ans_any. intros p. do 2 (match goal with |- answers _ (if ?b then _ else _) => destruct b; [first [apply ans_fail|apply ans_ret; cbn; lia]|] end).
  apply ans_any. intros w. match goal with |- answers _ (match ?x with _ => _ end) => destruct x as [[env|e]|e]; [|apply ans_ret; cbn; lia|apply ans_fail] end.
  cbv zeta. apply ans_any. intros _. apply ans_any. intros _. destruct (scan_image env ref) as [res|e]; apply ans_ret; cbn [within_caps no_scan]; [rewrite length_take; lia|cbn; lia].
Qed.
Lemma caps_subset action h project ids : answers within_caps (stackContainersActionTool fault order now charge_now who action h project ids).
Proof.
  unfold stackContainersActionTool. apply ans_any. intros p. case_match; [apply ans_fail|]. destruct (validateStackContainerIDs ids) eqn:Ev; [apply ans_fail|].
  assert (Hlen : Z.of_nat (length ids) <= maxStackContainerIDs).
  { unfold validateStackContainerIDs in Ev. destruct ids as [|x ids]; [done|]. destruct (maxStackContainerIDs <? _) eqn:E; [done|]. bsimp. lia. }
  apply ans_claim. case_match; [cbv zeta; apply ans_any; intros _; apply ans_fail|]. apply ans_any. intros c. case_match; [|apply ans_any; intros _; apply ans_fail].
  apply (ans_bind (fun r => match r with Ok rs => Z.of_nat (length rs) <= maxStackContainerIDs | Err _ => True end)).
  - intros w w' r. unfold attempt, on_dw, on_e, on_d. destruct (BulkStackContainerAction _ _ _ _ _ _ _) as [d [rs|e]] eqn:E; intros [= _ <-]; [|done]. revert E.
    unfold BulkStackContainerAction. repeat case_match; try done. unfold mbind, stM_bind. destruct (ListContainers _ _ _) as [d1 [cs|e]]; [|done]. case_match; [done|].
    unfold BulkContainerAction. case_match; [done|]. destruct (run_in_order _ _ _ _ _ _) as [d2 r2]. intros [= _ <-]. cbn [length] in Hlen |- *. change (list_fmap _ _ (result_at r2) ?l) with (result_at r2 <$> l). by rewrite length_fmap, length_seq.
  - intros [rs|e] Hr; [|apply ans_any; intros _; apply ans_fail]. apply ans_any. intros _. by apply ans_ret.
Qed.

(** what an answer may hold is bounded.  64 KiB of log text, 200 matching lines, 500
    changed files, 100 findings of a scan, 200 audit entries, 200 alerts and ten results of
    one stack call, whatever the caller asks for and whatever daemons and tables hold. *)
Theorem answers_bounded t w w' o : do_call t w = (w', Ok o) -> within_caps o.
Proof.
  intros H. enough (Hans : answers within_caps (run t)) by exact (Hans _ _ _ H). clear H.
  destruct t; cbn [run_tool]; first [apply caps_logs|apply caps_audit|apply caps_alerts|apply caps_changes|apply caps_search|apply caps_scan|apply caps_subset|
    unfold listHosts, listContainers, getContainer, listImages, listProjects, getCompose, statsOverview, listVolumes, listNetworks, systemInfo, metricsHistory, recentEvents,
      activeAlertConditions, listMaintenanceWindows, containerProcesses, listAlertRules, acknowledgeAlert, createMaintenanceWindow, endMaintenanceWindow, alertDelivery, previewDeploy,
      listManagedProjects, deployProject, downProject, projectTool, runDiagnostics, stackActionTool, runStackAction, containerActionTool, resInventory, resCompose, daemon_read; answer].
Qed.
End Spec.
