(* ===== verification/McpToolsExamples.v ===== *)
(** * Concrete tool calls: an operator of one host *)
From S2P Require Import Prelude Floats GoStrings Users Roles RolesInv Access Accounts Calendar Alerts Maintenance MaintenanceHandlers History McpGate McpExamples Paths Compose Policy Preview Sandbox ProjectStore Binds Projects ProjectSpec ProjectOutcomes ProjectExamples Hosts Docker DockerExamples StackEdit StackEditExamples McpTools McpToolsSpec.

(** Account 5 may run containers and read alerts, logs and the audit log on host 7 only. *)
Definition edge_only : DB :=
  let b := (SetUserRoles Roles.no_fault 5 [3] (CreateRole Roles.no_fault (mkRole 0 "Edge" "" false [mkRS "containers" true; mkRS "logs" false; mkRS "audit" false] [7]) Roles.seeded).1).1 in
  mkDB (roles b) (roles_seq b) (role_sections b) (role_hosts b) (user_roles b) (host_kinds two_hosts) (disabled b) (ldap_fallback b).
Definition edge_store : GrantStore := db_store Roles.no_fault {[5 := carol]} edge_only false.
Definition edge_laws : GrantStoreLaws edge_store := db_store_laws _ _ _ _.
Definition edge_token : option principal := Some (mkPrincipal carol false [] [7] "ip").
Definition toy_reads : ToolReads := {|
  images _ _ := Ok []; volumes _ _ := Ok []; networks _ _ := Ok []; system_info _ _ := Ok []; overview _ _ := Ok [];
  container_top _ _ _ := Ok ([], []); container_diff _ _ _ := Ok [];
  stream_logs _ _ _ n := ([mkLog "stdout" "up" ""; mkLog "stderr" (FormatInt n) ""], None);
  daemon_events _ _ _ _ := Ok []; diagnose _ _ := Ok "fine"; regexp_compile _ := Err "bad"; trivy_available := false; compose_host_env _ := Ok [];
  scan_image _ _ := Err "no trivy"; audit_fault _ := false
|}.
Definition entry_of (id host : Z) (action : string) : AuditEntry := mkEntry id 9 "root" action "x" "" "ip" host 0.
Definition tool_world : TWorld :=
  mkTW (mkEW toy_world ∅ []) (mkGState (Some ∅) []) (mkADB [] 0 [] 0 ∅ []) (mkLogbook [entry_of 1 7 "host.trust"; entry_of 2 3 "host.delete"; entry_of 3 (-1) "window"] 3) [].
Lemma tool_named : named tool_world.
Proof. exact toy_named. Qed.
#[local] Existing Instances edge_store edge_laws seal_cipher ascii_text all_paths toy_dialer toy_moby toy_shells toy_reads.
#[local] Instance tool_daemon : Binds.Daemon := demo_daemon 100.
#[local] Instance tool_engine : Engine := demo_engine None.
Notation ask_tool := (call works (fun _ => false) (fun _ => false) (fun _ => None) None false backwards 0 0 edge_token) (only parsing).
Definition stop_two : Tool := stack_containers SStop 7 "shop" ["c1"; "c2"].

Lemma changes_are_noted_witness : exists w' r e, ask_tool stop_two tool_world = (w', r) /\ enUserID e = 5 /\ e ∈ drop 3 (audit_rows (twAudit w')).
Proof.
  assert (Hb : dwFx (ewD (twE (ask_tool stop_two tool_world).1)) = [(7, OpStop "c2"); (7, OpStop "c1")]) by (vm_compute; reflexivity).
  destruct (ask_tool stop_two tool_world) as [w' r] eqn:E. cbn [fst] in Hb.
  assert (Haf : forall l, audit_fault (ToolReads := toy_reads) l = false) by done.
  destruct (changes_are_noted works (fun _ => false) (fun _ => false) (fun _ => None) None false backwards 0 0 edge_token backwards_perm
    stop_two tool_world w' r tool_named Haf E) as (p & l & e & fx & [= <-] & Hl & He & Hu & _).
  { intros [_ _ H _ _ _ _]. rewrite Hb in H. discriminate H. }
  exists w', r, e. split; [done|]. split; [exact Hu|]. rewrite Hl. exact He.
Defined.

(** Reading the audit log: of three entries the one of host 7. *)
Lemma listings_scoped_witness : exists w', ask_tool (recent_audit 10) tool_world = (w', Ok (OAudit [(0, "root", "host.trust", "x", "ip")])) /\
  exists p, edge_token = Some p /\ shown works (recent_audit 10) p tool_world (OAudit [(0, "root", "host.trust", "x", "ip")]).
Proof.
  assert (Hb : (ask_tool (recent_audit 10) tool_world).2 = Ok (OAudit [(0, "root", "host.trust", "x", "ip")])) by (vm_compute; reflexivity).
  destruct (ask_tool (recent_audit 10) tool_world) as [w' r] eqn:E. cbn [snd] in Hb. subst r. exists w'. split; [done|].
  exact (listings_scoped works (fun _ => false) (fun _ => false) (fun _ => None) None false backwards 0 0 edge_token backwards_perm (recent_audit 10) tool_world w' _ tool_named E).
Defined.
Lemma read_tools_change_nothing_witness : forall w' r, ask_tool (recent_audit 10) tool_world = (w', r) -> same_estate tool_world w' /\ twAudit w' = twAudit tool_world /\ twG w' = twG tool_world.
Proof.
  intros w' r. exact (read_tools_change_nothing works (fun _ => false) (fun _ => false) (fun _ => None) None false backwards 0 0 edge_token (recent_audit 10) tool_world w' r eq_refl tool_named).
Defined.
Lemma logs_longest_prefix_witness : exists w', ask_tool (container_logs 7 "c1" 5000) tool_world = (w', Ok (OLogs [mkLog "stdout" "up" ""; mkLog "stderr" "1000" ""] false)) /\
  message_bytes [mkLog "stdout" "up" ""; mkLog "stderr" "1000" ""] <= logsMaxBytes.
Proof.
  assert (Hb : (ask_tool (container_logs 7 "c1" 5000) tool_world).2 = Ok (OLogs [mkLog "stdout" "up" ""; mkLog "stderr" "1000" ""] false)) by (vm_compute; reflexivity).
  destruct (ask_tool (container_logs 7 "c1" 5000) tool_world) as [w' r] eqn:E. cbn [snd] in Hb. subst r. exists w'. split; [done|].
  destruct (logs_longest_prefix works (fun _ => false) (fun _ => false) (fun _ => None) None false backwards 0 0 edge_token 7 "c1" 5000 tool_world w' _ false E) as (cli & w1 & rest & _ & _ & H & _). exact H.
Defined.
Lemma answers_bounded_witness : match ask_tool stop_two tool_world with (_, Ok o) => within_caps o | _ => False end.
Proof.
  assert (Hb : is_ok (ask_tool stop_two tool_world).2 = true) by (vm_compute; reflexivity). destruct (ask_tool stop_two tool_world) as [w' [o|e]] eqn:E; [|done].
  exact (answers_bounded works (fun _ => false) (fun _ => false) (fun _ => None) None false backwards 0 0 edge_token stop_two tool_world w' o E).
Defined.

(** Fifteen restarts of the stack's three containers: ten are carried out. *)
Fixpoint restarts (n : nat) (w : TWorld) : TWorld := match n with O => w | S n => restarts n (ask_tool (stack_action VRestart 7 "shop") w).1 end.
Example ten_restarts : length (dwFx (ewD (twE (restarts 15 tool_world)))) = 30%nat.
Proof. vm_compute. reflexivity. Qed.
