(* ===== verification/Templates.v ===== *)
(** * Project templates and the builder (internal/templates/templates.go)

    The embedded catalogue, the variables of a scaffold, rendering, and the compose file
    assembled from service blocks and shared definitions.  A body made of text and plain
    fields is rendered here; text/template does whatever else a body may hold. *)
From S2P Require Import Prelude GoStrings Config Compose Preview Binds Projects.

(** ** Data *)
Definition SourceBuiltin : string := "builtin".
Definition SourceUser : string := "user".
Record Variable_ := mkVar { vKey : string; vLabel : string; vDefault : string; vSecret : bool; vGenerate : string }.
(** A file is its path and its content. *)
Notation File := (string * string)%type (only parsing).
Record Preset := mkPreset { prID : string; prName : string; prDescription : string; prSource : string; prVariables : list Variable_; prFiles : list File }.
Record Block := mkBlock {
  bkID : string; bkName : string; bkDescription : string; bkSource : string; bkService : string; bkVariables : list Variable_; bkVolumes : list string;
  bkServiceYAML : string; bkFiles : list File
}.
Record Fragment := mkFragment { frID : string; frName : string; frDescription : string; frSource : string; frContent : string }.

Record presetManifest := mkPM { pmName : string; pmDescription : string; pmVariables : list Variable_ }.
Record blockManifest := mkBM { bmName : string; bmDescription : string; bmService : string; bmVariables : list Variable_; bmVolumes : list string }.
Record fragmentManifest := mkFM { fmName : string; fmDescription : string }.
(** An entry of a catalogue folder: the files below it, by path from it, in the order of the walk. *)
Record CatalogDir := mkCatDir { catName : string; catIsDir : bool; catFiles : list File }.

Class CatalogEnv := {
  (** what is embedded; [Err] when a folder is not *)
  catalog_presets : result string (list CatalogDir);
  catalog_blocks : result string (list CatalogDir);
  catalog_fragments : result string (list CatalogDir);
  decode_preset : string -> result string presetManifest;
  decode_block : string -> result string blockManifest;
  decode_fragment : string -> result string fragmentManifest;
  (** text/template on a body that is not text and plain fields: name, body, values *)
  template_library : string -> string -> gmap string string -> result string string;
  missing_key_text : string -> string -> string;
  (** the order a map is ranged over in *)
  range_order : list (string * string) -> list (string * string)
}.

(** ** Names in lines *)
Fixpoint span_of (p : Ascii.ascii -> bool) (l : list Ascii.ascii) : list Ascii.ascii * list Ascii.ascii :=
  match l with [] => ([], []) | c :: l' => if p c then let '(a, b) := span_of p l' in (c :: a, b) else ([], l) end.
Definition letter (c : Ascii.ascii) : bool := let n := code c in ((65 <=? n) && (n <=? 90)) || ((97 <=? n) && (n <=? 122)).
Definition digit (c : Ascii.ascii) : bool := let n := code c in (48 <=? n) && (n <=? 57).
Definition is_char (s : list Ascii.ascii) (c : Ascii.ascii) : bool := existsb (Ascii.eqb c) s.

(** ** Rendering *)
(** The rest of a plain field after its opening braces: the key, and what follows the closing ones. *)
Definition field_at (l : list Ascii.ascii) : option (string * list Ascii.ascii) :=
  match l with
  | c :: l =>
      if Ascii.eqb c "."%char then
        let '(k, rest) := span_of (fun c => letter c || digit c || Ascii.eqb c "_"%char) l in
        match k, rest with
        | c :: _, a :: b :: rest => if negb (digit c) && Ascii.eqb a "}"%char && Ascii.eqb b "}"%char then Some (of_bytes k, rest) else None
        | _, _ => None
        end
      else None
  | [] => None
  end.
(** A body as characters and keys; [None] when it holds any other action. *)
Fixpoint segments (fuel : nat) (l : list Ascii.ascii) : option (list (Ascii.ascii + string)) :=
  match fuel with
  | O => None
  | S fuel =>
      match l with
      | [] => Some []
      | a :: l' =>
          if Ascii.eqb a "{"%char && match l' with b :: _ => Ascii.eqb b "{"%char | [] => false end then
            match field_at (tail l') with
            | Some (k, rest) => cons (inr k) <$> segments fuel rest
            | None => None
            end
          else cons (inl a) <$> segments fuel l'
      end
  end.
Definition simple_template (body : string) : option (list (Ascii.ascii + string)) := segments (S (String.length body)) (bytes body).

Section Engine.
Context `{CE : CatalogEnv} `{TE : TextEnv}.

(** The first key without a value is the error. *)
Fixpoint expand (vars : gmap string string) (l : list (Ascii.ascii + string)) : result string string :=
  match l with
  | [] => Ok ""
  | inl c :: l => s ← expand vars l; Ok (String c s)
  | inr k :: l => match vars !! k with Some v => s ← expand vars l; Ok (v +:+ s) | None => Err k end
  end.
Definition renderString (name body : string) (vars : gmap string string) : result string string :=
  match simple_template body with
  | Some l => match expand vars l with Ok s => Ok s | Err k => Err (name +:+ ": " +:+ missing_key_text name k) end
  | None => match template_library name body vars with Ok s => Ok s | Err e => Err (name +:+ ": " +:+ e) end
  end.
Fixpoint Render (files : list File) (vars : gmap string string) : result string (list File) :=
  match files with
  | [] => Ok []
  | (p, c) :: files => c ← renderString p c vars; rest ← Render files vars; Ok ((p, c) :: rest)
  end.

(** ** Variables *)
Definition alphabet : string := "ABCDEFGHIJKLMNOPQRSTUVWXYZabcdefghijklmnopqrstuvwxyz0123456789".
Definition pw_limit : Z := 256 - 256 mod 62.
Definition password_char (b : Z) : option Ascii.ascii := if pw_limit <=? b then None else String.get (Z.to_nat (b mod 62)) alphabet.
(** [n] characters from the bytes the source hands out; it fails when they run out. *)
Fixpoint draw (n : nat) (rs : list Z) : option (list Ascii.ascii * list Z) :=
  match n with
  | O => Some ([], rs)
  | S n' =>
      (fix skip (rs : list Z) : option (list Ascii.ascii * list Z) :=
         match rs with
         | [] => None
         | b :: rs => match password_char b with None => skip rs | Some c => '(w, rs) ← draw n' rs; Some (c :: w, rs) end
         end) rs
  end.
Definition randomPassword (rs : list Z) : option (string * list Z) := '(w, rs) ← draw 24 rs; Some (of_bytes w, rs).

Fixpoint ResolveVars (decl : list Variable_) (provided : gmap string string) (rs : list Z) (out : gmap string string) : result string (gmap string string) :=
  match decl with
  | [] => Ok out
  | v :: decl =>
      let val := TrimSpace (default "" (provided !! vKey v)) in
      let val := if String.eqb val "" then vDefault v else val in
      if String.eqb val "" && String.eqb (vGenerate v) "password" then
        match randomPassword rs with
        | None => Err "crypto/rand"
        | Some (pw, rs) => ResolveVars decl provided rs (<[vKey v := pw]> out)
        end
      else ResolveVars decl provided rs (<[vKey v := val]> out)
  end.

(** ** Shared definitions *)
Definition anchor_char (c : Ascii.ascii) : bool := letter c || digit c || is_char ["_"%char; "-"%char] c.
Definition flush (acc : list Ascii.ascii) : list string := match acc with [] => [] | _ => [of_bytes (rev acc)] end.
(** The names after an ampersand, [cur] being the one under way. *)
Fixpoint anchors_in (cur : option (list Ascii.ascii)) (l : list Ascii.ascii) : list string :=
  match l with
  | [] => match cur with None => [] | Some acc => flush acc end
  | c :: l =>
      let next := if Ascii.eqb c "&"%char then Some [] else None in
      match cur with
      | None => anchors_in next l
      | Some acc => if anchor_char c then anchors_in (Some (c :: acc)) l else flush acc ++ anchors_in next l
      end
  end.
Definition add_new (out : list string) (s : string) : list string := if one_of s out then out else out ++ [s].
Definition AnchorNames (content : string) : list string :=
  foldl add_new [] (Split content Config.newline ≫= fun ln => if HasPrefix (TrimSpace ln) "#" then [] else anchors_in None (bytes ln)).
Definition mergeLine (anchors : list string) : string :=
  match foldl add_new [] anchors with
  | [a] => "<<: *" +:+ a
  | uniq => "<<: [" +:+ Join ((fun a => "*" +:+ a) <$> uniq) ", " +:+ "]"
  end.

(** ** The builder *)
Record Instance_ := mkInstance { inBlock : Block; inKey : string; inAnchors : list string }.
Definition re_space (c : Ascii.ascii) : bool := existsb (Z.eqb (code c)) [9; 10; 12; 13; 32].
Definition key_char (c : Ascii.ascii) : bool := letter c || digit c || is_char ["."%char; "_"%char; "-"%char] c.
(** svcKeyLine: the indentation of a line that is a key and nothing else. *)
Definition svc_key_line (ln : string) : option string :=
  let '(indent, rest) := span_of re_space (bytes ln) in
  let '(name, rest) := span_of key_char rest in
  match name, rest with
  | _ :: _, c :: rest =>
      if Ascii.eqb c ":"%char then
        match (span_of re_space rest).2 with
        | [] => Some (of_bytes indent)
        | d :: _ => if Ascii.eqb d "#"%char then Some (of_bytes indent) else None
        end
      else None
  | _, _ => None
  end.
Fixpoint replace_first (old new s : string) : string :=
  if HasPrefix s old then new +:+ sdrop (String.length old) s
  else match s with EmptyString => EmptyString | String c s => String c (replace_first old new s) end.
(** A line that mounts a named volume takes the volume's new name. *)
Definition rename_line (renames : list (string * string)) (ln : string) : string :=
  match List.find (fun r : string * string => negb (String.eqb r.1 r.2) && HasPrefix (TrimSpace ln) ("- " +:+ r.1 +:+ ":")) (range_order renames) with
  | Some (v, nv) => replace_first ("- " +:+ v +:+ ":") ("- " +:+ nv +:+ ":") ln
  | None => ln
  end.
Fixpoint place_lines (key : string) (anchors : list string) (renames : list (string * string)) (keyDone : bool) (lines : list string) : list string :=
  match lines with
  | [] => []
  | ln :: lines =>
      match (if keyDone then None else svc_key_line ln) with
      | Some indent => (indent +:+ key +:+ ":") :: match anchors with [] => [] | _ => [indent +:+ "  " +:+ mergeLine anchors] end ++ place_lines key anchors renames true lines
      | None => rename_line renames ln :: place_lines key anchors renames keyDone lines
      end
  end.
Definition placeInstance (svcYAML key : string) (anchors : list string) (renames : list (string * string)) : string :=
  Join (place_lines key anchors renames false (Split svcYAML Config.newline)) newline.

(** The first of base-2, base-3, … that is free; [None] when the fuel runs out. *)
Fixpoint next_key (fuel : nat) (base : string) (n : Z) (used : list string) : option string :=
  match fuel with
  | O => None
  | S fuel => let key := base +:+ "-" +:+ FormatInt n in if one_of key used then next_key fuel base (n + 1) used else Some key
  end.
Definition wanted_key (i : Instance_) : string := let key := TrimSpace (inKey i) in if String.eqb key "" then bkService (inBlock i) else key.
Definition service_key (used : list string) (i : Instance_) : option string :=
  if one_of (wanted_key i) used then next_key (S (length used)) (wanted_key i) 2 used else Some (wanted_key i).
(** How many mounts there are of a name, over all instances. *)
Definition vol_count (instances : list Instance_) (v : string) : nat := length (List.filter (String.eqb v) (instances ≫= fun i => bkVolumes (inBlock i))).
Definition volume_name (instances : list Instance_) (key v : string) : string := if (1 <? vol_count instances v)%nat then key +:+ "-" +:+ v else v.

(** What is assembled so far: the text, the volumes to declare, the sidecars, the keys. *)
Record Assembly := mkAsm { asText : string; asVols : list string; asSide : list File; asKeys : list string }.
Definition add_sidecar (out : list File) (f : File) : list File := if one_of f.1 (fst <$> out) then out else out ++ [f].
Definition service_body (i : Instance_) (vars : gmap string string) : result string string :=
  if String.eqb (bkSource (inBlock i)) SourceBuiltin then renderString ("block:" +:+ bkID (inBlock i)) (bkServiceYAML (inBlock i)) vars else Ok (bkServiceYAML (inBlock i)).
Definition add_instance (all : list Instance_) (vars : gmap string string) (a : Assembly) (i : Instance_) : option (result string Assembly) :=
  match service_body i vars with
  | Err e => Some (Err e)
  | Ok svc =>
      key ← service_key (asKeys a) i;
      let renames := (fun v => (v, volume_name all key v)) <$> bkVolumes (inBlock i) in
      Some (Ok (mkAsm (asText a +:+ placeInstance svc key (inAnchors i) renames +:+ newline)
                      (foldl add_new (asVols a) renames.*2) (foldl add_sidecar (asSide a) (bkFiles (inBlock i))) (key :: asKeys a)))
  end.
Fixpoint add_instances (all : list Instance_) (vars : gmap string string) (a : Assembly) (l : list Instance_) : option (result string Assembly) :=
  match l with
  | [] => Some (Ok a)
  | i :: l => match add_instance all vars a i with Some (Ok a) => add_instances all vars a l | r => r end
  end.
Definition fragment_text (fr : Fragment) : string :=
  let content := trim_newlines (frContent fr) in if String.eqb content "" then "" else content +:+ newline +:+ newline.
Definition AssembleCompose (slug : string) (instances : list Instance_) (fragments : list Fragment) (vars : gmap string string) : option (result string (list File)) :=
  let head := "name: " +:+ slug +:+ newline +:+ newline +:+ Join (fragment_text <$> fragments) "" +:+ "services:" +:+ newline in
  match add_instances instances vars (mkAsm head [] [] []) instances with
  | None => None
  | Some (Err e) => Some (Err e)
  | Some (Ok a) =>
      let text := asText a +:+ match asVols a with [] => "" | vs => newline +:+ "volumes:" +:+ newline +:+ Join ((fun v => "  " +:+ v +:+ ":" +:+ newline) <$> vs) "" end in
      Some (sidecars ← Render (asSide a) vars; Ok (("compose.yml", text) :: sidecars))
  end.

(** ** The catalogue *)
Definition read_file (files : list File) (name : string) : result string string :=
  match List.find (fun f : File => String.eqb f.1 name) files with Some f => Ok f.2 | None => Err "file does not exist" end.
Definition readManifest {M} (decode : string -> result string M) (files : list File) : result string M :=
  match read_file files "manifest.json" with
  | Err e => Err ("read manifest: " +:+ e)
  | Ok raw => match decode raw with Ok m => Ok m | Err e => Err ("parse manifest: " +:+ e) end
  end.
Definition path_le (a b : File) : Prop := String.le a.1 b.1.
#[global] Instance path_le_dec a b : Decision (path_le a b) := ltac:(unfold path_le; apply _).
Definition readDirFiles (files : list File) (skip : list string) : list File := merge_sort path_le (List.filter (fun f : File => negb (one_of f.1 skip)) files).
Definition loadPreset (d : CatalogDir) : result string Preset :=
  m ← readManifest decode_preset (catFiles d);
  Ok (mkPreset (catName d) (pmName m) (pmDescription m) SourceBuiltin (pmVariables m) (readDirFiles (catFiles d) ["manifest.json"])).
Definition read_text (what : string) (files : list File) : result string string :=
  match read_file files what with Ok s => Ok s | Err e => Err ("read " +:+ what +:+ ": " +:+ e) end.
Definition loadBlock (d : CatalogDir) : result string Block :=
  m ← readManifest decode_block (catFiles d);
  svc ← read_text "service.yml" (catFiles d);
  Ok (mkBlock (catName d) (bmName m) (bmDescription m) SourceBuiltin (bmService m) (bmVariables m) (bmVolumes m) (trim_newlines svc) (readDirFiles (catFiles d) ["manifest.json"; "service.yml"])).
Definition loadFragment (d : CatalogDir) : result string Fragment :=
  m ← readManifest decode_fragment (catFiles d);
  content ← read_text "fragment.yml" (catFiles d);
  Ok (mkFragment (catName d) (fmName m) (fmDescription m) SourceBuiltin (trim_newlines content)).
(** The folders of the catalogue, each loaded; the first that cannot be is the error. *)
Fixpoint load_dirs {A} (what : string) (load : CatalogDir -> result string A) (ds : list CatalogDir) : result string (list A) :=
  match ds with
  | [] => Ok []
  | d :: ds =>
      if negb (catIsDir d) then load_dirs what load ds
      else match load d with
           | Err e => Err (what +:+ " " +:+ Quote (catName d) +:+ ": " +:+ e)
           | Ok a => rest ← load_dirs what load ds; Ok (a :: rest)
           end
  end.
Definition named_le {A} (name : A -> string) (a b : A) : Prop := String.le (name a) (name b).
#[global] Instance named_le_dec {A} (name : A -> string) a b : Decision (named_le name a b) := ltac:(unfold named_le; apply _).
Definition BuiltinPresets : result string (list Preset) := ds ← catalog_presets; l ← load_dirs "preset" loadPreset ds; Ok (merge_sort (named_le prName) l).
Definition BuiltinBlocks : result string (list Block) := ds ← catalog_blocks; l ← load_dirs "block" loadBlock ds; Ok (merge_sort (named_le bkName) l).
(** No folder of fragments is no error. *)
Definition BuiltinFragments : result string (list Fragment) :=
  match catalog_fragments with Err _ => Ok [] | Ok ds => l ← load_dirs "fragment" loadFragment ds; Ok (merge_sort (named_le frName) l) end.
End Engine.
